(* ===== verification/_CoqProject ===== *)
-Q . S2P
Prelude.v
Async.v
JsNum.v
NumFacts.v
JsDate.v
Types.v
Instruments.v
NewsCalendar.v
RiskManager.v
RiskFacts.v
PositionSimulator.v
PerformanceTracker.v
SweepDetector.v
SweepFacts.v
Structure.v
Indicators.v
Orchestrator.v
LiveTypes.v
EngineMemory.v
PendingEntry.v
ExitReconciliation.v
PositionMonitor.v
PositionManager.v
LiveExecution.v
LiveStrategy.v
Lifecycle.v
LifecycleFacts.v
LiveSystem.v
LiveLab.v
ExecutionFacts.v
SharedSignalFacts.v
ServiceFacts.v
MonitorFacts.v
ReconcileFacts.v
LiveExamples.v
OrchestratorFacts.v
OrchestratorExamples.v
LiveEvaluator.v
SimBroker.v
ReplayEngine.v
ReplayFacts.v
ReplayExamples.v
SmcEngine.v
SmcEngineFacts.v
V6Evaluator.v
V6Engines.v
V6Engine.v
V6SignalFacts.v
V6Books.v
V6Facts.v
V6Examples.v
AuthTypes.v
RefreshTokens.v
Invites.v
AuthFacts.v
AuthExamples.v
MarketTypes.v
MarketData.v
CandleFacts.v
LegacyStrategy.v
LegacyFacts.v
LlmFilter.v
LlmFacts.v
MarketExamples.v
Calendar.v
DeskTypes.v
LiveControl.v
LiveControlFacts.v
Analytics.v
StrategyApi.v
Journal.v
Tenancy.v
AnalyticsFacts.v
JournalFacts.v
DeskExamples.v
BrokerAccounts.v
BrokerFacts.v
BrokerExamples.v
Jobs.v
JobFacts.v
