(* ===== verification/Prelude.v ===== *)
(** * Shamarx trading bot: verification of the strategies, the live services and the platform

    The program trades a "stop hunt" strategy: price sweeps a level, closes back inside,
    and the bot enters against the sweep.  The same strategy code runs in three places, a
    backtest, a replay and the live services, and this development models all three, with
    the components they share.  It also models the older V6 strategy, which is kept for
    backtests, the first generation, which still listens to market data, its language-model
    filter, and the platform around them: candles, accounts and sessions, broker accounts,
    jobs, the operator's desk.
    Paths are relative to src/.

    ** Parts

    - Language and arithmetic.  [Prelude]: results and the state-and-exception monad of
      the classes, arrays, lists.  [Async]: methods that await, as trees of effects with
      arbitrary answers; their runs, weakest preconditions, threads that interfere, and
      execution against a world.  [JsNum]: prices, lots and balances are binary64 doubles
      (the Standard Library's [spec_float], NaN and infinities included), counters and
      indices integers; [NumFacts]: what the theorems
      need of rounding.  [JsDate]: UTC dates and strings.
    - Data.  [Types], [Instruments]: src/backtest/engine/types.ts, smc/types.ts,
      instrument-config.ts, spread-model.ts, the pair registry.
    - Strategy.  [NewsCalendar], [RiskManager], [PositionSimulator], [PerformanceTracker],
      [SweepDetector], [Structure] (gaps, order blocks, breaks), [Indicators] (of
      src/backtest/engine/), [Orchestrator] (src/strategy/live/live-smc-orchestrator.ts).
    - Backtest and replay.  [SmcEngine] (src/backtest/engine/smc/smc-engine.ts),
      [SimBroker], [ReplayEngine] (src/backtest/live-replay/).  [Jobs]: the services that run
      both as jobs (src/backtest/live-replay/live-replay.service.ts, its worker,
      src/backtest/backtest.service.ts, their controllers).
    - V6 (src/backtest/engine/).  [V6Evaluator] (its types, pair-profile.ts,
      strategy-evaluator.ts), [V6Engines] (the reversal, cross and momentum evaluators),
      [V6Engine] (backtest-engine.ts, which also routes the other versions to [SmcEngine]).
    - Live services (src/strategy/live/).  [LiveTypes]: the rows of the Trade table, the
      broker's messages, the memory of the process, and the effects.  [EngineMemory]
      (the circuit breaker; events, debounced persistence, decision log), [PendingEntry],
      [ExitReconciliation] (with the broker's history), [PositionMonitor], [PositionManager],
      [LiveExecution] (orders and their compensations), [LiveStrategy] (the three
      evaluation paths, sizing, the registry of per-account orchestrators, start and stop
      of the process, the test trade), [LiveEvaluator] (the older stateless evaluate()).
    - Accounts and sessions (src/auth/, src/users/, src/invites/, src/me/, src/admin/).
      [AuthTypes]: the tables and the effects; [RefreshTokens]: login, rotation of refresh
      tokens, password reset, profile and administration of users; [Invites].
    - Market data and the first generation.  [MarketTypes]: tables and effects; [MarketData]
      (src/market-data/: candle.service.ts, sr-level.service.ts), [LegacyStrategy]
      (indicators, spreads, the calendar feed, src/risk/, src/strategy/strategy.service.ts
      with its patterns and structure), [LlmFilter] (src/llm-filter/, with [JSON.parse]).
    - The operator's desk.  [DeskTypes]: the tables, Redis keys, memory and effects;
      [LiveControl] (the engine's switch and the equity snapshots of src/strategy/live/),
      [Analytics] (live-analytics.service.ts, src/admin/analytics/, src/admin/engine/),
      [Journal] (src/journal/), [StrategyApi] (src/strategy/strategy.controller.ts);
      [Calendar]: civil dates.
    - [BrokerAccounts]: src/broker-accounts/ with its OAuth flow, src/mt5-hosts/.

    ** Live services: how effects are modelled

    A method is a tree of effects ([LiveTypes.Action]): a database query carries its
    [where] clause as a predicate on rows, a broker call its arguments, a piece of code
    between two awaits is a [Sync] step on the process memory.  The answer of an effect is
    whatever the outside gives, errors included.  A theorem about "every run" ([runs])
    quantifies over all answers; one about [safe] or [during] in addition over what other
    methods do to the shared table or memory between two effects, as [Promise.all], timers
    and cron jobs allow.  [LiveSystem] runs any number of the services side by side over
    one table.  [LiveLab] is a concrete world (database, Redis, a broker given by
    functions) in which the programs execute; the witnesses and the progress theorem use
    it.  Reads that the code starts together with [Promise.all] are awaited one after the
    other, in the order of the array; the accounts of a fan-out are interleaved by a
    schedule.

    ** The platform: how statements are modelled

    The services of the platform use the same trees.  A statement of the database is a
    function on the tables, applied in one step at some time and with some fresh
    identifier; [auth_sem], [mkt_sem], [desk_sem], [acct_sem] and [job_sem] say what each effect
    may do to the tables, to Redis and to the fields of a service, refusals included.  A theorem
    quantifies over pools of any number of requests that advance in any order
    ([Async.pstep]), or, where overlapping calls do break the property, over requests one
    after the other ([Async.alone]); the files named Examples run the overlap that breaks it.
    [Promise.all] advances its branches by a schedule.

    ** Theorems

    - [RiskFacts], [PositionSimulator], [SweepFacts], [Structure], [NewsCalendar],
      [PerformanceTracker]: every component of the strategy, its invariants, decision
      tables, bounds and round trips.
    - [OrchestratorFacts]: a signal passed every gate, a sweep fires once,
      cooldowns are honoured, missed bars are caught up exactly, a restart loses nothing.
    - [SmcEngineFacts], [SimBroker], [ReplayFacts]: the engines settle, keep their
      books and see only closed bars; the backtest always returns.  [JobFacts]: a finished
      job holds exactly what its engine computed, or a failure, and no job touches another's
      rows.
    - [V6SignalFacts], [V6Books], [V6Facts]: which V6 engine may fire when, the
      gates of an entry and a scale-in, the books of a run, what the regime state machine
      remembers, and that a run always returns.
    - [Lifecycle], [LifecycleFacts], [LiveSystem]: what each service may do to the Trade
      table (a rely-guarantee relation), the refinement of the abstract life of a trade,
      the invariant of the table.
    - [ExecutionFacts]: orders are all legs or none, retries, retrace limits recorded.
      [SharedSignalFacts]: the gates of an account, the circuit breaker.
      [ServiceFacts]: breaker checks, flushes, the dashboard feed.  [MonitorFacts]:
      absence confirmation, finalization, the position manager.  [ReconcileFacts]: parked
      orders, flags, correction of estimates.  [LiveEvaluator]: where the older evaluator and
      the orchestrator agree.
    - [AuthFacts]: one usable token per login and no login without a sign-in, reuse ends
      the sessions, what a session and an accepted invitation rest on.
    - [CandleFacts], [LegacyFacts]: the candle table only grows, by closed bars and true
      aggregates; levels partition the swings; the gates of the first generation, and that
      it can no longer act.  [LlmFacts]: a candidate passes the language model only on a
      readable ALLOW of its last answer; a verdict in the requested form, on one line or many,
      is read back.
    - [LiveControlFacts]: one running session.  [Tenancy], [AnalyticsFacts]: a user's views do
      not depend on other tenants, whatever the services outside answer about them, and the
      routes that act on the engine are refused to a user; the statistics add up, the flags and the health of the trading loop are exact.
      [JournalFacts]: the month agrees with its days.
    - [BrokerFacts]: nobody changes another user's accounts; the cap, the hosts' capacity, the
      names and the cache hold; creating an account is all or nothing.
    - The files named Examples hold concrete runs: instances of the theorems, and behaviours
      that the names and comments of the code do not suggest.  Those of [SmcEngineFacts] and
      [JobFacts] are at the end of the file, those of [LlmFacts] in [MarketExamples].

    ** Fuel and bounds

    Loops over arrays are structural.  [addTradingDays] gets three iterations per day
    ([RiskFacts.addTradingDays_spec] shows they suffice); the binary searches are given
    the length of the array; order placement has the code's own three attempts; the list of
    months gets one iteration per 28 days ([JournalFacts.months_listed]); [JSON.parse] gets
    twice the length of its text ([LlmFacts.parse_fuel]).  A method
    of the live services is a well-founded tree, so it ends whenever its effects answer;
    a broker that never answers is not modelled.

    ** Not modelled

    - Code outside src/: Prisma, Redis, the execution service, mail; the indicator package
      and the time-zone database are parameters ([TechnicalIndicators], [Bollinger],
      [TimeZones]).  Hypotheses about them are named where used.
    - Of the live services: the reading of the environment, the eviction timers of
      removeIfDisabled (nothing calls it), the free-form context column of the decision log,
      the texts and senders of mails, the HTTP client with its credentials.
      [EngineMemory.checkOnce] reads the clock on every check, the code only when it
      trips.
    - Hashing, signing, ciphers and random texts: effects or parameters of the services that
      use them, with the hypotheses named where used.  So are the answers of the language
      model and the XML of the calendar feed.
    - The in-thread fallback of a replay is one effect; the theorems are about the worker.
    - Controllers that only pass their parameters on, with their validation pipes, the
      listings of src/admin/users and src/admin/sessions, the capacity report of the hosts,
      framework wiring, scripts and Python services. *)
From Stdlib Require Export ZArith Lia Sorted Permutation.
From stdpp Require Export gmap strings list.
#[export] Set Default Goal Selector "!".
#[global] Open Scope Z_scope.

(** ** The outcome of a computation that may throw

    A TypeScript function returns a value or throws an [Error]; the message is
    kept because callers log it.  A method that mutates its object is a function
    from the object's state to the state it leaves behind {i and} the outcome,
    so a mutation made before the [throw] is not lost. *)
Inductive Res (A : Type) : Type :=
| Ok (a : A)
| Throw (msg : string).
Arguments Ok {A} _.
Arguments Throw {A} _.

Definition res_bind {A B} (m : Res A) (k : A -> Res B) : Res B :=
  match m with Ok a => k a | Throw e => Throw e end.

Definition res_map {A B} (f : A -> B) (m : Res A) : Res B :=
  match m with Ok a => Ok (f a) | Throw e => Throw e end.

Definition is_ok {A} (m : Res A) : bool := match m with Ok _ => true | Throw _ => false end.

Lemma Ok_inj {A} (a b : A) : Ok a = Ok b -> a = b.
Proof. congruence. Qed.

(** The state-and-exception monad of the classes. *)
Definition M (S A : Type) : Type := S -> S * Res A.

Definition m_ret {S A} (a : A) : M S A := fun s => (s, Ok a).
Definition m_throw {S A} (e : string) : M S A := fun s => (s, Throw e).
Definition m_bind {S A B} (m : M S A) (k : A -> M S B) : M S B :=
  fun s => match m s with
           | (s', Ok a) => k a s'
           | (s', Throw e) => (s', Throw e)
           end.
Definition m_get {S} : M S S := fun s => (s, Ok s).
Definition m_modify {S} (f : S -> S) : M S unit := fun s => (f s, Ok tt).
Definition m_lift {S A} (r : Res A) : M S A := fun s => (s, r).

Declare Scope js_scope.
Delimit Scope js_scope with js.
Notation "x <-! m ;; k" := (res_bind m (fun x => k))
  (at level 100, m at next level, right associativity) : js_scope.
Notation "x <-- m ;; k" := (m_bind m (fun x => k))
  (at level 100, m at next level, right associativity) : js_scope.
Notation "'do!' m ;; k" := (m_bind m (fun _ => k))
  (at level 100, m at next level, right associativity) : js_scope.

(** ** Arrays

    [a[i]] on an array: [None] is [undefined] (the index is negative or past the
    end).  Loops count in [Z] because the source subtracts from indices. *)
Definition zlookup {A} (l : list A) (i : Z) : option A :=
  if i <? 0 then None else l !! Z.to_nat i.

Definition zlen {A} (l : list A) : Z := Z.of_nat (length l).

(** [a.slice(-n)] for [n > 0]: the last [n] elements. *)
Definition last_n {A} (n : nat) (l : list A) : list A := drop (length l - n) l.

(** [a.splice(i, 1)]: drop the element at index [i]. *)
Definition splice1 {A} (i : Z) (l : list A) : list A :=
  if i <? 0 then l else delete (Z.to_nat i) l.

(** Descending and ascending index ranges, the [for] loops of the source:
    [down_from n m] is [n, n-1, ..., m] and [up_from m n] is [m, ..., n]
    (empty when [n < m]). *)
Definition up_from (m n : Z) : list Z := seqZ m (n - m + 1).
Definition down_from (n m : Z) : list Z := reverse (up_from m n).

(** The first element of a list on which [f] answers: a loop whose body either
    returns, or moves on to the next iteration. *)
Fixpoint first_some {A B} (f : A -> option B) (l : list A) : option B :=
  match l with
  | [] => None
  | x :: l' => match f x with Some b => Some b | None => first_some f l' end
  end.

(** The same for a body that may throw. *)
Fixpoint first_res {A B} (f : A -> Res (option B)) (l : list A) : Res (option B) :=
  match l with
  | [] => Ok None
  | x :: l' => match f x with
               | Ok None => first_res f l'
               | r => r
               end
  end.

(** [a.sort(cmp)] is stable: [le x y] is [cmp(x, y) <= 0]. *)
Fixpoint insert_by {A} (le : A -> A -> bool) (x : A) (l : list A) : list A :=
  match l with
  | [] => [x]
  | y :: l' => if le x y then x :: l else y :: insert_by le x l'
  end.
Definition sort_by {A} (le : A -> A -> bool) (l : list A) : list A := foldr (insert_by le) [] l.

(** ** Tactics *)

(** Split every [if] and [match] of the goal and of [H]. *)
Ltac case_all :=
  repeat (case_match; simplify_eq/=; try done).

(** Turn boolean hypotheses on [&&], [||], [negb] and integer tests into
    propositions. *)
Ltac bool_hyps :=
  repeat match goal with
  | H : (_ && _)%bool = true |- _ => apply andb_true_iff in H as [? ?]
  | H : (_ || _)%bool = false |- _ => apply orb_false_iff in H as [? ?]
  | H : negb _ = true |- _ => apply negb_true_iff in H
  | H : negb _ = false |- _ => apply negb_false_iff in H
  | H : (_ <? _) = true |- _ => apply Z.ltb_lt in H
  | H : (_ <? _) = false |- _ => apply Z.ltb_ge in H
  | H : (_ <=? _) = true |- _ => apply Z.leb_le in H
  | H : (_ <=? _) = false |- _ => apply Z.leb_gt in H
  | H : (_ =? _) = true |- _ => apply Z.eqb_eq in H
  | H : (_ =? _) = false |- _ => apply Z.eqb_neq in H
  end.

(** ** Lemmas on loops and arrays *)
Create HintDb js.

Lemma zlookup_Some {A} (l : list A) i x :
  zlookup l i = Some x -> 0 <= i < zlen l.
Proof.
  unfold zlookup, zlen. destruct (Z.ltb_spec i 0) as [|Hi]; [done|]. intros Hl.
  apply lookup_lt_Some in Hl. lia.
Qed.

Lemma zlookup_is_Some {A} (l : list A) i :
  0 <= i < zlen l -> is_Some (zlookup l i).
Proof.
  unfold zlookup, zlen. intros Hi. destruct (Z.ltb_spec i 0); [lia|].
  apply lookup_lt_is_Some. lia.
Qed.

Lemma zlookup_nth {A} (l : list A) (i : nat) : zlookup l (Z.of_nat i) = l !! i.
Proof. unfold zlookup. destruct (Z.ltb_spec (Z.of_nat i) 0); [lia|]. by rewrite Nat2Z.id. Qed.

Lemma elem_of_up_from m n k : k ∈ up_from m n <-> m <= k <= n.
Proof. unfold up_from. rewrite elem_of_seqZ. lia. Qed.

Lemma elem_of_down_from n m k : k ∈ down_from n m <-> m <= k <= n.
Proof. unfold down_from. rewrite elem_of_reverse. apply elem_of_up_from. Qed.

Lemma up_from_nil m n : n < m -> up_from m n = [].
Proof. intros. unfold up_from. apply seqZ_nil. lia. Qed.

Lemma up_from_cons m n : m <= n -> up_from m n = m :: up_from (m + 1) n.
Proof.
  intros. unfold up_from. rewrite seqZ_cons by lia. unfold Z.succ, Z.pred.
  do 2 f_equal; lia.
Qed.

Lemma up_from_snoc m n : m <= n -> up_from m n = up_from m (n - 1) ++ [n].
Proof.
  intros. unfold up_from.
  replace (n - m + 1) with ((n - 1 - m + 1) + 1) by lia.
  rewrite seqZ_app by lia. f_equal.
  rewrite seqZ_cons by lia. rewrite seqZ_nil by lia. f_equal. lia.
Qed.

Lemma down_from_cons n m : m <= n -> down_from n m = n :: down_from (n - 1) m.
Proof.
  intros. unfold down_from. rewrite up_from_snoc by done. by rewrite reverse_app.
Qed.

Lemma down_from_nil n m : n < m -> down_from n m = [].
Proof. intros. unfold down_from. by rewrite up_from_nil. Qed.

Section first_some.
Context {A B : Type} (f : A -> option B).

Lemma first_some_Some l b :
  first_some f l = Some b ->
  exists l1 x l2, l = l1 ++ x :: l2 /\ f x = Some b /\ Forall (fun y => f y = None) l1.
Proof.
  induction l as [|x l IH]; simpl; [done|]. destruct (f x) as [b'|] eqn:Hx.
  - intros [= <-]. exists [], x, l. eauto.
  - intros H. destruct (IH H) as (l1 & y & l2 & -> & Hy & Hl1).
    exists (x :: l1), y, l2. eauto.
Qed.

Lemma first_some_elem l b : first_some f l = Some b -> exists x, x ∈ l /\ f x = Some b.
Proof.
  intros (l1 & x & l2 & -> & Hx & _)%first_some_Some. exists x. split; [|done].
  apply elem_of_app. right. left.
Qed.

Lemma first_some_None l : first_some f l = None <-> Forall (fun y => f y = None) l.
Proof.
  induction l as [|x l IH]; simpl; [by split|]. rewrite Forall_cons.
  destruct (f x); intuition congruence.
Qed.

Lemma first_some_is_Some l x : x ∈ l -> is_Some (f x) -> is_Some (first_some f l).
Proof.
  intros Hx [b Hb]. destruct (first_some f l) eqn:E; [eauto|].
  apply first_some_None in E. rewrite Forall_forall in E.
  specialize (E _ Hx). congruence.
Qed.
End first_some.

(** A loop that walks [n, n-1, ..., m] and answers at [k]: nothing above [k]
    answered. *)
Lemma first_some_down {B} (f : Z -> option B) n m b :
  first_some f (down_from n m) = Some b ->
  exists k, m <= k <= n /\ f k = Some b /\ forall j, k < j <= n -> f j = None.
Proof.
  remember (Z.to_nat (n - m + 1)) as c eqn:Hc. revert n Hc.
  induction c as [|c IH]; intros n Hc.
  - rewrite down_from_nil by lia. done.
  - rewrite down_from_cons by lia. simpl. destruct (f n) as [b'|] eqn:Hn.
    + intros [= <-]. exists n. split_and!; [lia|lia|done|]. intros j Hj. lia.
    + intros H. destruct (IH (n - 1)) as (k & Hk & Hf & Hj); [lia|done|].
      exists k. split_and!; [lia|lia|done|]. intros j Hj'.
      destruct (decide (j = n)) as [->|]; [done|]. apply Hj. lia.
Qed.

Lemma first_some_up {B} (f : Z -> option B) m n b :
  first_some f (up_from m n) = Some b ->
  exists k, m <= k <= n /\ f k = Some b /\ forall j, m <= j < k -> f j = None.
Proof.
  remember (Z.to_nat (n - m + 1)) as c eqn:Hc. revert m Hc.
  induction c as [|c IH]; intros m Hc.
  - rewrite up_from_nil by lia. done.
  - rewrite up_from_cons by lia. simpl. destruct (f m) as [b'|] eqn:Hn.
    + intros [= <-]. exists m. split_and!; [lia|lia|done|]. intros j Hj. lia.
    + intros H. destruct (IH (m + 1)) as (k & Hk & Hf & Hj); [lia|done|].
      exists k. split_and!; [lia|lia|done|]. intros j Hj'.
      destruct (decide (j = m)) as [->|]; [done|]. apply Hj. lia.
Qed.

Lemma length_last_n {A} n (l : list A) : length (last_n n l) = (n `min` length l)%nat.
Proof. unfold last_n. rewrite length_drop. lia. Qed.

Lemma last_n_all {A} n (l : list A) : (length l <= n)%nat -> last_n n l = l.
Proof. intros. unfold last_n. by replace (length l - n)%nat with 0%nat by lia. Qed.

#[export] Hint Resolve zlookup_is_Some : js.

Lemma StronglySorted_lookup {A} (R : A -> A -> Prop) l i j x y :
  StronglySorted R l -> l !! i = Some x -> l !! j = Some y -> (i < j)%nat -> R x y.
Proof.
  intros Hl. revert i j. induction Hl as [|z l Hl IH Hz]; intros i j Hi Hj Hij; [done|].
  destruct j as [|j]; [lia|]. simpl in Hj. destruct i as [|i]; simplify_eq/=.
  - rewrite Forall_forall in Hz. apply Hz. by eapply list_elem_of_lookup_2.
  - eapply IH; eauto. lia.
Qed.

Lemma StronglySorted_take {A} (R : A -> A -> Prop) n l : StronglySorted R l -> StronglySorted R (take n l).
Proof.
  intros Hl. revert n. induction Hl as [|x l Hl IH Hx]; intros [|n]; simpl; constructor; auto.
  by apply Forall_take.
Qed.

Section sort_by.
Context {A : Type} (le : A -> A -> bool).

Lemma insert_by_perm x l : insert_by le x l ≡ₚ x :: l.
Proof.
  induction l as [|y l IH]; simpl; [done|]. case_match; [done|].
  rewrite IH. apply Permutation_swap.
Qed.

Lemma sort_by_perm l : sort_by le l ≡ₚ l.
Proof. induction l as [|x l IH]; simpl; [done|]. by rewrite insert_by_perm, IH. Qed.

Hypothesis le_total : forall x y, le x y = true \/ le y x = true.
Hypothesis le_trans : forall x y z, le x y = true -> le y z = true -> le x z = true.

Lemma insert_by_sorted x l :
  StronglySorted (fun a b => le a b = true) l ->
  StronglySorted (fun a b => le a b = true) (insert_by le x l).
Proof.
  induction 1 as [|y l Hl IH Hy]; simpl; [repeat constructor|].
  destruct (le x y) eqn:Hxy.
  - constructor; [by constructor|]. constructor; [done|].
    eapply Forall_impl; [exact Hy|]. simpl. eauto.
  - constructor; [done|]. rewrite insert_by_perm. constructor; [|done].
    destruct (le_total x y); congruence.
Qed.

Lemma sort_by_sorted l : StronglySorted (fun a b => le a b = true) (sort_by le l).
Proof. induction l; simpl; [constructor|]. by apply insert_by_sorted. Qed.
End sort_by.

(** Filtering by a value of the sort key leaves the original order: the sort is
    stable. *)
Lemma insert_by_filter_eq {A} (le : A -> A -> bool) (P : A -> Prop) `{!forall a, Decision (P a)} x l :
  (forall y, P x -> P y -> le x y = true) ->
  filter P (insert_by le x l) = filter P (x :: l).
Proof.
  intros Hle. induction l as [|y l IH]; simpl; [done|].
  destruct (le x y) eqn:Hxy; [done|].
  rewrite !filter_cons in *. repeat case_decide; rewrite ?IH; try done.
  rewrite Hle in Hxy; done.
Qed.

Lemma sort_by_stable {A} (le : A -> A -> bool) (P : A -> Prop) `{!forall a, Decision (P a)} l :
  (forall x y, P x -> P y -> le x y = true) -> filter P (sort_by le l) = filter P l.
Proof.
  intros Hle. induction l as [|x l IH]; simpl; [done|].
  rewrite insert_by_filter_eq by auto. rewrite !filter_cons. by rewrite IH.
Qed.

Lemma filter_fmap_len {A B} (f : A -> B) (P : B -> Prop) `{!forall b, Decision (P b)} l :
  length (filter P (f <$> l)) = length (filter (fun a => P (f a)) l).
Proof.
  induction l as [|x l IH]; [done|]. rewrite fmap_cons, !filter_cons.
  repeat case_decide; simpl; by rewrite ?IH.
Qed.

(** ** Reasoning about [M]

    [triple P m Q]: whenever [m] runs from a state in [P] and returns, the answer and the
    final state are in [Q]. *)
Definition triple {S A} (P : S -> Prop) (m : M S A) (Q : A -> S -> Prop) : Prop :=
  forall s s' a, P s -> m s = (s', Ok a) -> Q a s'.

Section triple.
Context {S A B : Type}.
Implicit Types P : S -> Prop.

Lemma triple_ret P (a : A) Q : (forall s, P s -> Q a s) -> triple P (m_ret a) Q.
Proof. intros H s s' a' Hs [= <- <-]. auto. Qed.

Lemma triple_throw P e (Q : A -> S -> Prop) : triple P (m_throw e) Q.
Proof. by intros s s' a _ [=]. Qed.

Lemma triple_bind P (m : M S A) (k : A -> M S B) Q R :
  triple P m Q -> (forall a, triple (Q a) (k a) R) -> triple P (m_bind m k) R.
Proof.
  intros Hm Hk s s' b Hs. unfold m_bind. destruct (m s) as [s1 [a|e]] eqn:E; [|done].
  intros Hb. by apply (Hk a s1); [apply (Hm s)|].
Qed.

Lemma triple_get P Q : (forall s, P s -> Q s s) -> triple P m_get Q.
Proof. intros H s s' a Hs [= <- <-]. auto. Qed.

Lemma triple_modify P f Q : (forall s, P s -> Q tt (f s)) -> triple P (m_modify f) Q.
Proof. intros H s s' [] Hs [= <-]. auto. Qed.

Lemma triple_lift P (r : Res A) Q : (forall s a, P s -> r = Ok a -> Q a s) -> triple P (m_lift r) Q.
Proof. intros H s s' a Hs [= <- ->]. auto. Qed.

Lemma triple_weaken P (m : M S A) Q P' Q' :
  triple P' m Q' -> (forall s, P s -> P' s) -> (forall a s, Q' a s -> Q a s) -> triple P m Q.
Proof. intros H HP HQ s s' a Hs E. eauto. Qed.

Lemma triple_pure (phi : Prop) P (m : M S A) Q :
  (phi -> triple P m Q) -> triple (fun s => phi /\ P s) m Q.
Proof. intros H s s' a [Hphi Hs]. by apply H. Qed.

(** Reading the state first: what follows starts from the state that was read. *)
Lemma triple_read P (k : S -> M S A) Q :
  (forall s0, P s0 -> triple (fun s => s = s0) (k s0) Q) -> triple P (m_bind m_get k) Q.
Proof. intros H s s' a Hs E. by apply (H s Hs s s' a). Qed.

Lemma triple_if P (b : bool) (m1 m2 : M S A) Q :
  triple P m1 Q -> triple P m2 Q -> triple P (if b then m1 else m2) Q.
Proof. by destruct b. Qed.
End triple.

(** [m] returns from every state: it never throws. *)
Definition returns {S A} (m : M S A) : Prop := forall s, exists s' a, m s = (s', Ok a).

Section returns.
Context {S A B : Type}.

Lemma returns_ret (a : A) : returns (S := S) (m_ret a).
Proof. intros s. by eexists s, _. Qed.

Lemma returns_modify (f : S -> S) : returns (m_modify f).
Proof. intros s. by eexists (f s), tt. Qed.

Lemma returns_lift (r : Res A) : is_ok r = true -> returns (S := S) (m_lift r).
Proof. intros H s. destruct r as [a|]; [|done]. by eexists s, a. Qed.

Lemma returns_bind (m : M S A) (k : A -> M S B) :
  returns m -> (forall a, returns (k a)) -> returns (m_bind m k).
Proof. intros Hm Hk s. unfold m_bind. destruct (Hm s) as (s1 & a & ->). apply Hk. Qed.

Lemma returns_get (k : S -> M S B) : (forall s, returns (k s)) -> returns (m_bind m_get k).
Proof. intros H s. apply (H s s). Qed.
End returns.

#[export] Hint Resolve returns_ret returns_modify : js.
