(* ===== verification/Async.v ===== *)
(** * Asynchronous programs

    An async method of a service is a program over the effects it awaits: a finite tree
    that performs one effect at a time and continues with the answer.  The effects and
    the types of their answers are parameters, so a program says which calls a method
    makes, in which order and what it does with each answer, and nothing about who
    answers.  Between two effects any other program may run (JavaScript runs the code
    between two awaits in one go): [pstep] is that interleaving.

    Three ways of reasoning: [wp] about every finished run, whatever the answers;
    [emits] about every effect a program can ever perform; [safe] about the shared
    state under interference (rely and guarantee), with the parallel composition
    theorem [pool_safe]. *)
From S2P Require Import Prelude.

Section programs.
Context {act : Type} {result : act -> Type}.

Inductive Prog (A : Type) : Type :=
| Ret (a : A)
| Act (e : act) (k : result e -> Prog A).
#[global] Arguments Ret {A} a.
#[global] Arguments Act {A} e k.

Fixpoint pbind {A B} (p : Prog A) (f : A -> Prog B) : Prog B :=
  match p with
  | Ret a => f a
  | Act e k => Act e (fun x => pbind (k x) f)
  end.

Definition perform (e : act) : Prog (result e) := Act e Ret.

(** ** Promises

    A promise resolves with a value or rejects with a message. *)
Definition Async (A : Type) : Type := Prog (Res A).

Definition resolve {A} (a : A) : Async A := Ret (Ok a).
Definition reject {A} (e : string) : Async A := Ret (Throw e).
(** [const x = await m; k] *)
Definition await {A B} (m : Async A) (k : A -> Async B) : Async B :=
  pbind m (fun r => match r with Ok a => k a | Throw e => Ret (Throw e) end).
(** [try { m } catch (err) { h(err) }] *)
Definition try_catch {A} (m : Async A) (h : string -> Async A) : Async A :=
  pbind m (fun r => match r with Ok a => Ret (Ok a) | Throw e => h e end).
(** The outcome itself, for a [try] whose two ends go on differently. *)
Definition settle {A} (m : Async A) : Async (Res A) := pbind m (fun r => Ret (Ok r)).
(** [try { m } catch { log }] *)
Definition swallow {A} (m : Async A) : Async unit := pbind m (fun _ => Ret (Ok tt)).
(** [try { m } finally { f }] *)
Definition finally {A} (m : Async A) (f : Prog unit) : Async A :=
  pbind m (fun r => pbind f (fun _ => Ret r)).
(** An effect that cannot reject. *)
Definition ask (e : act) : Async (result e) := pbind (perform e) (fun x => Ret (Ok x)).

(** [for (const x of l) { s = await body(s, x) }] *)
Fixpoint fold_each {A S} (body : S -> A -> Async S) (l : list A) (s : S) : Async S :=
  match l with
  | [] => resolve s
  | x :: l' => await (body s x) (fun s' => fold_each body l' s')
  end.
Definition for_each {A} (body : A -> Async unit) (l : list A) : Async unit :=
  fold_each (fun _ x => body x) l tt.

(** [await Promise.all(ps)]: the programs advance in any order; [sched] names the one to
    advance next, and what is left when it ends runs in the order of the list.  Every
    interleaving is that of some [sched].  Nobody's rejection stops the others. *)
Fixpoint seq_all {A} (ps : list (Prog A)) : Prog (list A) :=
  match ps with
  | [] => Ret []
  | p :: ps' => pbind p (fun a => pbind (seq_all ps') (fun l => Ret (a :: l)))
  end.
Fixpoint par_all {A} (sched : list nat) (ps : list (Prog A)) : Prog (list A) :=
  match sched with
  | [] => seq_all ps
  | i :: sched' =>
      match ps !! i with
      | Some (Act e k) => Act e (fun x => par_all sched' (<[i := k x]> ps))
      | _ => par_all sched' ps
      end
  end.

(** ** Finished runs *)
Record Event := { ev_act : act; ev_res : result ev_act }.

Fixpoint runs {A} (p : Prog A) (tr : list Event) (b : A) : Prop :=
  match p with
  | Ret a => tr = [] /\ a = b
  | Act e k => exists x tr', tr = {| ev_act := e; ev_res := x |} :: tr' /\ runs (k x) tr' b
  end.

Fixpoint wp {A} (p : Prog A) (Q : list Event -> A -> Prop) : Prop :=
  match p with
  | Ret a => Q [] a
  | Act e k => forall x, wp (k x) (fun tr a => Q ({| ev_act := e; ev_res := x |} :: tr) a)
  end.

Lemma wp_mono {A} (p : Prog A) (Q Q' : list Event -> A -> Prop) :
  (forall tr a, Q tr a -> Q' tr a) -> wp p Q -> wp p Q'.
Proof.
  revert Q Q'. induction p as [a|e k IH]; simpl; intros Q Q' HQ H; [auto|].
  intros x. eapply IH; [|apply (H x)]. simpl. auto.
Qed.

Lemma wp_runs {A} (p : Prog A) (Q : list Event -> A -> Prop) :
  wp p Q <-> forall tr a, runs p tr a -> Q tr a.
Proof.
  revert Q. induction p as [a|e k IH]; simpl; intros Q; split.
  - intros H tr b [-> ->]. done.
  - intros H. by apply H.
  - intros H tr b (x & tr' & -> & Hr). exact (proj1 (IH x _) (H x) tr' b Hr).
  - intros H x. apply IH. intros tr b Hr. apply H. eauto.
Qed.

Lemma wp_bind {A B} (p : Prog A) (f : A -> Prog B) Q :
  wp p (fun tr a => wp (f a) (fun tr' b => Q (tr ++ tr') b)) -> wp (pbind p f) Q.
Proof.
  revert Q. induction p as [a|e k IH]; simpl; intros Q H; [done|].
  intros x. apply IH. eapply wp_mono; [|apply (H x)]. done.
Qed.

Lemma wp_await {A B} (m : Async A) (k : A -> Async B) Q :
  wp m (fun tr r => match r with
                    | Ok a => wp (k a) (fun tr' b => Q (tr ++ tr') b)
                    | Throw e => Q tr (Throw e)
                    end) -> wp (await m k) Q.
Proof.
  intros H. apply wp_bind. eapply wp_mono; [|exact H].
  intros tr [a|e] Hr; simpl in *; [done|]. by rewrite app_nil_r.
Qed.

(** A loop whose body keeps an invariant of the trace so far, the elements left and the
    accumulator. *)
Lemma wp_fold_each {A S} (body : S -> A -> Async S) (l : list A) (s0 : S)
    (I : list Event -> list A -> S -> Prop) (Q : list Event -> Res S -> Prop) tr0 :
  I tr0 l s0 ->
  (forall tr x l' s, I tr (x :: l') s ->
     wp (body s x) (fun tr' r => match r with
                                 | Ok s' => I (tr ++ tr') l' s'
                                 | Throw e => Q (tr ++ tr') (Throw e)
                                 end)) ->
  (forall tr s, I tr [] s -> Q tr (Ok s)) ->
  wp (fold_each body l s0) (fun tr r => Q (tr0 ++ tr) r).
Proof.
  intros HI Hbody HQ. revert tr0 s0 HI. induction l as [|x l IH]; intros tr0 s0 HI; simpl.
  - rewrite app_nil_r. auto.
  - apply wp_await. eapply wp_mono; [|apply (Hbody _ _ _ _ HI)].
    intros tr [s'|e] H; simpl in *; [|done].
    eapply wp_mono; [|apply (IH _ _ H)]. simpl. intros tr' b. by rewrite (assoc (++)).
Qed.

Lemma wp_loop {A S} (body : S -> A -> Async S) (l : list A) (s0 : S)
    (I : list Event -> list A -> S -> Prop) (Q : list Event -> Res S -> Prop) :
  I [] l s0 ->
  (forall tr x l' s, I tr (x :: l') s ->
     wp (body s x) (fun tr' r => match r with
                                 | Ok s' => I (tr ++ tr') l' s'
                                 | Throw e => Q (tr ++ tr') (Throw e)
                                 end)) ->
  (forall tr s, I tr [] s -> Q tr (Ok s)) ->
  wp (fold_each body l s0) Q.
Proof. intros. by apply (wp_fold_each body l s0 I Q []). Qed.

(** ** The effects a program can perform *)
Fixpoint emits (φ : act -> Prop) {A} (p : Prog A) : Prop :=
  match p with
  | Ret _ => True
  | Act e k => φ e /\ forall x, emits φ (k x)
  end.

Lemma emits_bind φ {A B} (p : Prog A) (f : A -> Prog B) :
  emits φ p -> (forall a, emits φ (f a)) -> emits φ (pbind p f).
Proof. induction p as [a|e k IH]; simpl; [auto|]. intros [He Hk] Hf. split; auto. Qed.

Lemma emits_await φ {A B} (m : Async A) (k : A -> Async B) :
  emits φ m -> (forall a, emits φ (k a)) -> emits φ (await m k).
Proof. intros Hm Hk. apply emits_bind; [done|]. intros [a|e]; simpl; auto. Qed.

Lemma emits_fold_each φ {A S} (body : S -> A -> Async S) l s :
  (forall s x, x ∈ l -> emits φ (body s x)) -> emits φ (fold_each body l s).
Proof.
  revert s. induction l as [|x l IH]; intros s H; simpl; [done|].
  apply emits_await; [apply H; left|]. intros s'. apply IH. intros s'' y Hy. apply H. by right.
Qed.

Lemma emits_mono (φ ψ : act -> Prop) {A} (p : Prog A) :
  (forall e, φ e -> ψ e) -> emits φ p -> emits ψ p.
Proof. intros H. induction p as [a|e k IH]; simpl; [auto|]. intros [He Hk]. auto. Qed.

Lemma emits_seq_all φ {A} (ps : list (Prog A)) : Forall (emits φ) ps -> emits φ (seq_all ps).
Proof.
  induction 1 as [|p ps Hp Hps IH]; simpl; [done|]. apply emits_bind; [done|].
  intros a. apply emits_bind; [done|]. done.
Qed.

Lemma emits_par_all φ {A} sched (ps : list (Prog A)) :
  Forall (emits φ) ps -> emits φ (par_all sched ps).
Proof.
  revert ps. induction sched as [|i sched IH]; simpl; intros ps H; [by apply emits_seq_all|].
  destruct (ps !! i) as [[a|e k]|] eqn:E; [by apply IH| |by apply IH].
  pose proof (proj1 (Forall_lookup _ _) H _ _ E) as [He Hk].
  split; [done|]. intros x. apply IH. apply Forall_insert; auto.
Qed.

(** Every effect of a finished run is one the program could perform. *)
Lemma runs_emits φ {A} (p : Prog A) tr a :
  emits φ p -> runs p tr a -> Forall (fun ev => φ (ev_act ev)) tr.
Proof.
  revert tr. induction p as [b|e k IH]; simpl; intros tr.
  - intros _ [-> _]. constructor.
  - intros [He Hk] (x & tr' & -> & Hr). constructor; [done|]. eauto.
Qed.

(** A finished run only performs effects the program could perform. *)
Lemma wp_emits φ {A} (p : Prog A) : emits φ p -> wp p (fun tr _ => Forall (fun ev => φ (ev_act ev)) tr).
Proof. intros H. apply wp_runs. intros tr a Hr. by eapply runs_emits. Qed.

Lemma wp_conj {A} (p : Prog A) (Q Q' : list Event -> A -> Prop) :
  wp p Q -> wp p Q' -> wp p (fun tr a => Q tr a /\ Q' tr a).
Proof. rewrite !wp_runs. eauto. Qed.

(** [settle] and [swallow] end well, whatever the program did. *)
Lemma wp_settle {A} (m : Async A) (Q : list Event -> Res (Res A) -> Prop) :
  wp m (fun tr r => Q tr (Ok r)) -> wp (settle m) Q.
Proof.
  intros H. apply wp_bind. eapply wp_mono; [|exact H]. intros tr r Hr. simpl. by rewrite app_nil_r.
Qed.

Lemma wp_swallow {A} (m : Async A) (Q : list Event -> Res unit -> Prop) :
  wp m (fun tr _ => Q tr (Ok tt)) -> wp (swallow m) Q.
Proof.
  intros H. apply wp_bind. eapply wp_mono; [|exact H]. intros tr r Hr. simpl. by rewrite app_nil_r.
Qed.

Lemma wp_try_catch {A} (m : Async A) (h : string -> Async A) Q :
  wp m (fun tr r => match r with
                    | Ok a => Q tr (Ok a)
                    | Throw e => wp (h e) (fun tr' b => Q (tr ++ tr') b)
                    end) -> wp (try_catch m h) Q.
Proof.
  intros H. apply wp_bind. eapply wp_mono; [|exact H].
  intros tr [a|e] Hr; simpl; [by rewrite app_nil_r|done].
Qed.

Lemma wp_perform (e : act) (Q : list Event -> result e -> Prop) :
  (forall x, Q [{| ev_act := e; ev_res := x |}] x) -> wp (perform e) Q.
Proof. intros H x. simpl. apply H. Qed.
Lemma wp_resolve {A} (a : A) (Q : list Event -> Res A -> Prop) : Q [] (Ok a) -> wp (resolve a) Q.
Proof. done. Qed.
Lemma wp_reject {A} e (Q : list Event -> Res A -> Prop) : Q [] (Throw e) -> wp (reject e) Q.
Proof. done. Qed.
Lemma wp_any {A} (p : Prog A) (Q : list Event -> A -> Prop) : (forall tr r, Q tr r) -> wp p Q.
Proof. intros H. apply wp_runs. auto. Qed.

(** Programs side by side: each answers as it does alone. *)
Lemma wp_seq_all {A} (Qs : list (A -> Prop)) (ps : list (Prog A)) :
  Forall2 (fun Q p => wp p (fun _ a => Q a)) Qs ps -> wp (seq_all ps) (fun _ l => Forall2 (fun Q a => Q a) Qs l).
Proof.
  induction 1 as [|Q p Qs ps Hp _ IH]; [constructor|]. cbn [seq_all]. apply wp_bind. eapply wp_mono; [|exact Hp].
  intros tr a Ha. apply wp_bind. eapply wp_mono; [|exact IH]. intros tr' l Hl. by constructor.
Qed.
Lemma wp_par_all {A} sched (Qs : list (A -> Prop)) (ps : list (Prog A)) :
  Forall2 (fun Q p => wp p (fun _ a => Q a)) Qs ps ->
  wp (par_all sched ps) (fun _ l => Forall2 (fun Q a => Q a) Qs l).
Proof.
  revert ps. induction sched as [|i sched IH]; intros ps H; [by apply wp_seq_all|]. cbn [par_all].
  destruct (ps !! i) as [[a|e k]|] eqn:E; [by apply IH| |by apply IH]. intros x.
  destruct (Forall2_lookup_r _ _ _ _ _ H E) as (Q & HQ & Hp).
  apply IH. rewrite <- (list_insert_id Qs i Q HQ). apply Forall2_insert; [done|]. apply Hp.
Qed.

(** ** Interference

    [sem i e s s' x]: thread [i] performs [e] in the shared state [s], which becomes
    [s'], and gets the answer [x].  [guar i] is what the steps of thread [i] do to the
    state, [rely i] what it tolerates from the others. *)
Section interference.
Context {S : Type} (sem : nat -> forall e : act, S -> S -> result e -> Prop).
Context (guar rely : nat -> S -> S -> Prop).
Context {rely_po : forall i, PreOrder (rely i)}.

Fixpoint safe {A} (i : nat) (p : Prog A) (Q : A -> S -> Prop) (s : S) : Prop :=
  match p with
  | Ret a => Q a s
  | Act e k => forall s1, rely i s s1 -> forall s2 x, sem i e s1 s2 x ->
                 guar i s1 s2 /\ safe i (k x) Q s2
  end.

Lemma safe_mono {A} i (p : Prog A) (Q Q' : A -> S -> Prop) s :
  (forall a s, Q a s -> Q' a s) -> safe i p Q s -> safe i p Q' s.
Proof.
  intros HQ. revert s. induction p as [a|e k IH]; simpl; intros s H; [auto|].
  intros s1 Hr s2 x Hs. destruct (H s1 Hr s2 x Hs). auto.
Qed.

Lemma safe_bind {A B} i (p : Prog A) (f : A -> Prog B) Q s :
  safe i p (fun a s' => safe i (f a) Q s') s -> safe i (pbind p f) Q s.
Proof.
  revert s. induction p as [a|e k IH]; simpl; intros s H; [done|].
  intros s1 Hr s2 x Hs. destruct (H s1 Hr s2 x Hs). auto.
Qed.

Lemma safe_await {A B} i (m : Async A) (k : A -> Async B) Q s :
  safe i m (fun r s' => match r with Ok a => safe i (k a) Q s' | Throw e => Q (Throw e) s' end) s ->
  safe i (await m k) Q s.
Proof. intros H. apply safe_bind. eapply safe_mono; [|exact H]. by intros [a|e] s'. Qed.

(** A property that interference keeps. *)
Definition stable (i : nat) (P : S -> Prop) : Prop := forall s s', P s -> rely i s s' -> P s'.

(** One effect under a stable precondition. *)
Lemma safe_perform i e (Q : result e -> S -> Prop) (P : S -> Prop) s :
  stable i P -> P s ->
  (forall s1 s2 x, P s1 -> sem i e s1 s2 x -> guar i s1 s2 /\ Q x s2) ->
  safe i (perform e) Q s.
Proof. intros Hst HP H s1 Hr s2 x Hs. simpl. apply H; [|done]. by eapply Hst. Qed.

Lemma safe_fold_each {A T} i (body : T -> A -> Async T) (l : list A) (s0 : T)
    (I : S -> Prop) (Q : Res T -> S -> Prop) s :
  (forall x t s, x ∈ l -> I s -> safe i (body t x) (fun r s' => match r with Ok _ => I s' | Throw e => Q (Throw e) s' end) s) ->
  (forall t s, I s -> Q (Ok t) s) ->
  I s -> safe i (fold_each body l s0) Q s.
Proof.
  intros Hbody HQ. revert s0 s. induction l as [|x l IH]; intros s0 s HI; simpl; [by apply HQ|].
  apply safe_await. eapply safe_mono; [|apply Hbody; [left|exact HI]].
  intros [t|e] s' H; simpl in *; [|done]. apply IH; [|done]. intros y t' s'' Hy. apply Hbody. by right.
Qed.

Lemma safe_rely {A} i (p : Prog A) (Q : A -> S -> Prop) s s' :
  (forall a, stable i (Q a)) -> safe i p Q s -> rely i s s' -> safe i p Q s'.
Proof.
  intros HQ. destruct p as [a|e k]; simpl; intros H Hr; [by eapply HQ|].
  intros s1 Hr1. apply H. by transitivity s'.
Qed.

(** Programs side by side within one thread, which tolerates its own steps. *)
Lemma safe_together {A} i (ps : list (Prog A)) sched s :
  (forall s s', guar i s s' -> rely i s s') ->
  (forall p, p ∈ ps -> safe i p (fun _ _ => True) s) ->
  safe i (par_all sched ps) (fun _ _ => True) s.
Proof.
  intros Hown. assert (Hseq : forall (ps : list (Prog A)) s,
    (forall p, p ∈ ps -> safe i p (fun _ _ => True) s) ->
    safe i (seq_all ps) (fun _ _ => True) s).
  { clear -rely_po Hown. intros ps. induction ps as [|p ps IH]; simpl; intros s H; [done|].
    assert (Hp := H p (list_elem_of_here _ _)).
    assert (Hps : forall q, q ∈ ps -> safe i q (fun _ _ => True) s)
      by (intros q Hq; apply H; by right).
    clear H. revert s Hp Hps. induction p as [a|e k IHp]; simpl; intros s Hp Hps.
    - apply safe_bind. eapply safe_mono; [|by apply IH]. done.
    - intros s1 Hr s2 x Hsem. destruct (Hp s1 Hr s2 x Hsem) as [Hg Hk]. split; [done|].
      apply IHp; [done|]. intros q Hq. eapply (safe_rely i q _ s2); [done| |reflexivity].
      eapply (safe_rely i q _ s); [done|by apply Hps|].
      etrans; [done|]. by apply Hown. }
  revert ps s. induction sched as [|n sched IH]; simpl; intros ps s H; [by apply Hseq|].
  destruct (ps !! n) as [[a|e k]|] eqn:E; [by apply IH| |by apply IH].
  intros s1 Hr s2 x Hsem. pose proof (list_elem_of_lookup_2 _ _ _ E) as Hin.
  destruct (H _ Hin s1 Hr s2 x Hsem) as [Hg Hk]. split; [done|]. apply IH.
  intros p Hp. apply list_elem_of_lookup in Hp as [m Hm].
  destruct (decide (m = n)) as [->|Hne].
  - rewrite list_lookup_insert_eq in Hm by (by eapply lookup_lt_Some). by simplify_eq.
  - rewrite list_lookup_insert_ne in Hm by congruence.
    eapply (safe_rely i p _ s); [done|apply H; by eapply list_elem_of_lookup_2|].
    etrans; [done|]. by apply Hown.
Qed.

(** ** A pool of running programs

    A thread is numbered by its place; [entry] says which programs may be started. *)
Record Pool := { shared : S; threads : list (Prog unit) }.
Context (entry : Prog unit -> Prop).

Inductive pstep : Pool -> Pool -> Prop :=
| pstep_run s ts i e k s' x :
    ts !! i = Some (Act e k) -> sem i e s s' x ->
    pstep {| shared := s; threads := ts |} {| shared := s'; threads := <[i := k x]> ts |}
| pstep_start s ts p :
    entry p -> pstep {| shared := s; threads := ts |} {| shared := s; threads := ts ++ [p] |}.

Definition anything {A} (_ : A) (_ : S) : Prop := True.
Definition all_safe (c : Pool) : Prop :=
  forall i p, threads c !! i = Some p -> safe i p anything (shared c).

Context (compat : forall i j s s', i <> j -> guar i s s' -> rely j s s').

(** The programs may count on an invariant that every guaranteed step keeps. *)
Section within.
Context (Inv : S -> Prop) (guar_inv : forall i s s', guar i s s' -> Inv s -> Inv s').
Context (entry_within : forall i p s, Inv s -> entry p -> safe i p anything s).

Lemma pstep_within c c' : pstep c c' -> Inv (shared c) -> all_safe c ->
  all_safe c' /\ Inv (shared c') /\ (shared c' = shared c \/ exists i, guar i (shared c) (shared c')).
Proof.
  intros [s ts i e k s' x Hi Hsem|s ts p Hp] HI Hc; unfold all_safe in *; simpl in *.
  - destruct (Hc i _ Hi s (reflexivity s) s' x Hsem) as [Hg Hk]. split; [|eauto].
    intros j q Hj. destruct (decide (j = i)) as [->|Hne].
    + rewrite list_lookup_insert_eq in Hj by (by eapply lookup_lt_Some). by simplify_eq.
    + rewrite list_lookup_insert_ne in Hj by congruence.
      eapply safe_rely; [by intros ????|by apply Hc|]. by apply compat with i.
  - split; [|auto]. intros j q Hj. apply lookup_snoc_Some in Hj as [[_ Hj]|[_ <-]]; auto.
Qed.

(** Parallel composition: when every program started guarantees what it must against
    interference, every step of the pool is a guaranteed step of some thread. *)
Theorem pool_safe_within c c' : rtc pstep c c' -> Inv (shared c) -> all_safe c ->
  all_safe c' /\ Inv (shared c') /\ rtc (fun s s' => exists i, guar i s s') (shared c) (shared c').
Proof.
  induction 1 as [c|c c1 c' Hs _ IH]; intros HI Hc; [split_and!; [done..|constructor]|].
  destruct (pstep_within _ _ Hs HI Hc) as (Hc1 & HI1 & Hg). destruct (IH HI1 Hc1) as (Hc' & HI' & Hr).
  split_and!; [done..|]. destruct Hg as [<-|Hg]; [done|]. by eapply rtc_l.
Qed.
End within.

Theorem pool_safe (entry_safe : forall i p s, entry p -> safe i p anything s) c c' : rtc pstep c c' -> all_safe c ->
  all_safe c' /\ rtc (fun s s' => exists i, guar i s s') (shared c) (shared c').
Proof.
  intros Hc Ha. destruct (pool_safe_within (fun _ => True) ltac:(done) ltac:(auto) c c' Hc I Ha) as (? & _ & ?). done.
Qed.

(** An invariant kept by every effect the programs perform is an invariant of the pool,
    and so is every preorder they respect. *)
Lemma pool_invariant (φ : act -> Prop) (Inv : S -> Prop) (R : S -> S -> Prop) `{!PreOrder R} c c' :
  (forall p, entry p -> emits φ p) ->
  (forall i e s s' x, φ e -> Inv s -> sem i e s s' x -> Inv s' /\ R s s') ->
  rtc pstep c c' -> Forall (emits φ) (threads c) -> Inv (shared c) ->
  Inv (shared c') /\ R (shared c) (shared c') /\ Forall (emits φ) (threads c').
Proof.
  intros Hentry Hstep. induction 1 as [c|c c1 c' Hs _ IH]; intros Hts HI; [done|].
  enough (Inv (shared c1) /\ R (shared c) (shared c1) /\ Forall (emits φ) (threads c1)) as (HI1 & HR & Hts1).
  { destruct (IH Hts1 HI1) as (? & ? & ?). split_and!; [done| |done]. by etrans. }
  destruct Hs as [s ts i e k s' x Hi Hsem|s ts p Hp]; simpl in *.
  - pose proof (proj1 (Forall_lookup _ _) Hts _ _ Hi) as [He Hk].
    destruct (Hstep _ _ _ _ _ He HI Hsem) as [HI' HR]. split_and!; [done..|].
    apply Forall_insert; auto.
  - split_and!; [done|done|]. apply Forall_app. auto.
Qed.

(** A program that runs by itself, from a state to a state. *)
Fixpoint alone (i : nat) {A} (p : Prog A) (s s' : S) (a : A) : Prop :=
  match p with
  | Ret b => s' = s /\ a = b
  | Act e k => exists s1 x, sem i e s s1 x /\ alone i (k x) s1 s' a
  end.

Lemma alone_bind i {A B} (p : Prog A) (f : A -> Prog B) s s' b :
  alone i (pbind p f) s s' b <-> exists s1 a, alone i p s s1 a /\ alone i (f a) s1 s' b.
Proof.
  revert s. induction p as [a|e k IH]; intros s; simpl.
  - split; [eauto|]. intros (s1 & a' & [-> ->] & H). done.
  - split.
    + intros (s1 & x & Hs & H). apply IH in H as (s2 & a & H1 & H2). eauto 10.
    + intros (s2 & a & (s1 & x & Hs & H1) & H2). exists s1, x. split; [done|]. apply IH. eauto.
Qed.

Lemma alone_invariant (φ : act -> Prop) (Inv : S -> Prop) (R : S -> S -> Prop) `{!PreOrder R}
    i {A} (p : Prog A) s s' a :
  (forall i e s s' x, φ e -> Inv s -> sem i e s s' x -> Inv s' /\ R s s') ->
  emits φ p -> alone i p s s' a -> Inv s -> Inv s' /\ R s s'.
Proof.
  intros Hstep. revert s. induction p as [b|e k IH]; simpl; intros s.
  - intros _ [-> _] HI. split; [done|reflexivity].
  - intros [He Hk] (s1 & x & Hs & Ha) HI. destruct (Hstep _ _ _ _ _ He HI Hs) as [HI1 HR].
    destruct (IH x s1 (Hk x) Ha HI1) as [HI' HR']. split; [done|]. by etrans.
Qed.
(** What a program that runs by itself leaves behind. *)
Definition leaves {A} (i : nat) (P : S -> Prop) (m : Prog A) (Q : A -> S -> Prop) : Prop :=
  forall s s' a, P s -> alone i m s s' a -> Q a s'.

Lemma leaves_ret {A} i (P : S -> Prop) (a : A) Q : (forall s, P s -> Q a s) -> leaves i P (Ret a) Q.
Proof. intros H s s' b Hs [-> ->]. auto. Qed.

Lemma leaves_bind {A B} i P (p : Prog A) (f : A -> Prog B) M Q :
  leaves i P p M -> (forall a, leaves i (M a) (f a) Q) -> leaves i P (pbind p f) Q.
Proof. intros Hp Hf s s' b Hs (s1 & a & H1 & H2)%alone_bind. eapply Hf; [|exact H2]. by eapply Hp. Qed.

Lemma leaves_await {A B} i P (m : Async A) (k : A -> Async B) M Q :
  leaves i P m (fun r s => match r with Ok a => M a s | Throw e => Q (Throw e) s end) ->
  (forall a, leaves i (M a) (k a) Q) -> leaves i P (await m k) Q.
Proof.
  intros Hm Hk. eapply leaves_bind; [exact Hm|]. intros [a|e]; [apply Hk|]. by apply leaves_ret.
Qed.

Lemma leaves_try_catch {A} i P (m : Async A) h M Q :
  leaves i P m (fun r s => match r with Ok a => Q (Ok a) s | Throw _ => M s end) ->
  (forall e, leaves i M (h e) Q) -> leaves i P (try_catch m h) Q.
Proof. intros Hm Hh. eapply leaves_bind; [exact Hm|]. intros [a|e]; [by apply leaves_ret|apply Hh]. Qed.

Lemma leaves_swallow {A} i P (m : Async A) Q :
  leaves i P m (fun _ => Q) -> leaves i P (swallow m) (fun r s => r = Ok tt /\ Q s).
Proof. intros Hm. eapply leaves_bind; [exact Hm|]. intros r. apply leaves_ret. auto. Qed.

Lemma leaves_perform i P e Q :
  (forall s s' x, P s -> sem i e s s' x -> Q x s') -> leaves i P (perform e) Q.
Proof. intros H s s' x Hs (s1 & y & Hy & -> & ->). by eapply H. Qed.

Lemma leaves_conseq {A} i (P P' : S -> Prop) (m : Prog A) (Q Q' : A -> S -> Prop) :
  (forall s, P' s -> P s) -> (forall a s, Q a s -> Q' a s) -> leaves i P m Q -> leaves i P' m Q'.
Proof. intros HP HQ Hm s s' a Hs Ha. eapply HQ, Hm; [|exact Ha]. auto. Qed.
End interference.

(** ** Ghost state

    A record of the past kept next to the shared state changes no run. *)
Section ghost.
Context {S G : Type} (sem : nat -> forall e : act, S -> S -> result e -> Prop) (note : nat -> S -> G -> G).
Definition ghost_sem (i : nat) (e : act) (s s' : S * G) (x : result e) : Prop :=
  sem i e s.1 s'.1 x /\ s'.2 = note i s'.1 s.2.

Lemma ghost_pool entry c c' g : rtc (pstep sem entry) c c' ->
  exists g', rtc (pstep ghost_sem entry) {| shared := (shared c, g); threads := threads c |}
                                         {| shared := (shared c', g'); threads := threads c' |}.
Proof.
  intros H. revert g. induction H as [c|c c1 c' Hs _ IH]; intros g; [by exists g|].
  destruct Hs as [s ts i e k s' x Hi Hsem|s ts p Hp]; simpl in *.
  - destruct (IH (note i s' g)) as [g' Hr]. exists g'. eapply rtc_l; [|exact Hr].
    by eapply (pstep_run ghost_sem).
  - destruct (IH g) as [g' Hr]. exists g'. eapply rtc_l; [|exact Hr]. by constructor.
Qed.
End ghost.

(** ** One relation for everybody

    When every step of every program is in one preorder [R], a specification is a
    precondition, kept by [R], and what holds when the promise is resolved. *)
Section growth.
Context {S : Type} (sem : nat -> forall e : act, S -> S -> result e -> Prop) (R : S -> S -> Prop) `{!PreOrder R}.

Definition steady (P : S -> Prop) : Prop := forall s s', P s -> R s s' -> P s'.
Definition grows {A} (i : nat) (P : S -> Prop) (m : Async A) (Q : A -> S -> Prop) : Prop :=
  forall s, P s -> safe sem (fun _ => R) (fun _ => R) i m
                     (fun r s' => R s s' /\ match r with Ok a => Q a s' | Throw _ => True end) s.

Lemma grows_resolve {A} i P (a : A) (Q : A -> S -> Prop) : (forall s, P s -> Q a s) -> grows i P (resolve a) Q.
Proof. intros H s Hs. simpl. split; [reflexivity|auto]. Qed.
Lemma grows_reject {A} i P e (Q : A -> S -> Prop) : grows i P (reject e) Q.
Proof. intros s Hs. simpl. split; [reflexivity|done]. Qed.

Lemma grows_await {A B} i P (m : Async A) (k : A -> Async B) M Q :
  grows i P m M -> (forall a, grows i (M a) (k a) Q) -> grows i P (await m k) Q.
Proof.
  intros Hm Hk s Hs. apply (safe_await sem (fun _ => R) (fun _ => R)).
  eapply safe_mono; [|by apply Hm]. intros [a|e] s1 [H1 Ha]; [|done].
  eapply safe_mono; [|by apply Hk]. intros r s2 [H2 Hr]. split; [by etrans|done].
Qed.

(** A precondition that does not look at the state. *)
Lemma grows_pure {A} i (F : Prop) (m : Async A) Q :
  (F -> grows i (fun _ => True) m Q) -> grows i (fun _ => F) m Q.
Proof. intros H s HF. by apply H. Qed.

Lemma grows_conseq {A} i (P P' : S -> Prop) (m : Async A) (Q Q' : A -> S -> Prop) :
  (forall s, P' s -> P s) -> (forall a s, Q a s -> Q' a s) -> grows i P m Q -> grows i P' m Q'.
Proof.
  intros HP HQ Hm s Hs. eapply safe_mono; [|apply Hm, HP, Hs]. intros [a|e] s' [? ?]; auto.
Qed.

(** A fact that [R] keeps is still there at the end. *)
Lemma grows_frame {A} i (P F : S -> Prop) (m : Async A) Q :
  steady F -> grows i P m Q -> grows i (fun s => P s /\ F s) m (fun a s => Q a s /\ F s).
Proof.
  intros HF Hm s [Hs Hf]. eapply safe_mono; [|by apply Hm]. intros [a|e] s' [HR H]; split; try done.
  split; [done|]. by eapply HF.
Qed.

Lemma grows_effect i e {A} (cast : result e -> Res A) (P : S -> Prop) Q :
  steady P ->
  (forall s s' x, P s -> sem i e s s' x -> R s s' /\ forall a, cast x = Ok a -> Q a s') ->
  grows i P (pbind (perform e) (fun x => Ret (cast x))) Q.
Proof.
  intros HP H s Hs s1 HR s2 x Hx. simpl in *. destruct (H s1 s2 x (HP _ _ Hs HR) Hx) as [H1 H2].
  split; [done|]. split; [by etrans|]. destruct (cast x); auto.
Qed.

Lemma grows_settled {A B} i P (m : Async A) (k : Res A -> Async B) M Q :
  grows i P m M -> (forall r, grows i (fun s => match r with Ok a => M a s | Throw _ => True end) (k r) Q) ->
  grows i P (pbind m k) Q.
Proof.
  intros Hm Hk s Hs. apply (safe_bind sem (fun _ => R) (fun _ => R)).
  eapply safe_mono; [|by apply Hm]. intros r s1 [H1 Hr].
  eapply safe_mono; [|by apply Hk]. intros r' s2 [H2 Hr']. split; [by etrans|done].
Qed.

Lemma grows_try_catch {A} i P (m : Async A) h Q :
  grows i P m Q -> (forall e, grows i (fun _ => True) (h e) Q) -> grows i P (try_catch m h) Q.
Proof. intros Hm Hh. eapply grows_settled; [exact Hm|]. intros [a|e]; [by apply grows_resolve|by apply Hh]. Qed.

Lemma grows_swallow {A} i P (m : Async A) M : grows i P m M -> grows i P (swallow m) (fun _ _ => True).
Proof. intros Hm. eapply grows_settled; [exact Hm|]. intros r. by apply grows_resolve. Qed.

(** A caught rejection does not undo what [R] keeps. *)
Lemma grows_swallow_steady {A} i P (m : Async A) M : steady P -> grows i P m M -> grows i P (swallow m) (fun _ => P).
Proof.
  intros HP Hm s Hs. apply (safe_bind sem (fun _ => R) (fun _ => R)). eapply safe_mono; [|by apply Hm].
  intros r s1 [HR _]. split; [done|]. by eapply HP.
Qed.

Lemma grows_fold_each {A T} i (body : T -> A -> Async T) (l : list A) (t0 : T) (J : T -> S -> Prop) :
  (forall x t, x ∈ l -> grows i (J t) (body t x) J) -> grows i (J t0) (fold_each body l t0) J.
Proof.
  revert t0. induction l as [|x l IH]; intros t0 H; simpl; [by apply grows_resolve|].
  eapply grows_await; [apply H; left|]. intros t. apply IH. intros y t' Hy. apply H. by right.
Qed.

(** The state a program leaves is reached by [R]. *)
Lemma safe_stays {A} i (p : Prog A) s0 s :
  R s0 s -> safe sem (fun _ => R) (fun _ => R) i p (fun _ _ => True) s ->
  safe sem (fun _ => R) (fun _ => R) i p (fun _ s' => R s0 s') s.
Proof.
  revert s. induction p as [a|e k IH]; simpl; intros s Hs H; [done|].
  intros s1 Hr s2 x Hx. destruct (H s1 Hr s2 x Hx) as [Hg Hk]. split; [done|].
  apply IH; [|done]. etrans; [exact Hs|]. by etrans.
Qed.

Lemma grows_par_all {A B} i P (ps : list (Async A)) sched (k : list (Res A) -> Async B) Q :
  steady P ->
  (forall p, p ∈ ps -> grows i P p (fun _ _ => True)) ->
  (forall rs, grows i P (k rs) Q) ->
  grows i P (pbind (par_all sched ps) k) Q.
Proof.
  intros HP Hp Hk s Hs. apply (safe_bind sem (fun _ => R) (fun _ => R)).
  eapply safe_mono; [|apply (safe_stays i (par_all sched ps) s); [reflexivity|]].
  - intros rs s1 H1. eapply safe_mono; [|by apply Hk; eapply HP].
    intros r s2 [H2 Hr]. split; [|exact Hr]. transitivity s1; [exact H1|exact H2].
  - apply (safe_together sem (fun _ => R) (fun _ => R)); [done|]. intros p Hin. eapply safe_mono; [|by apply Hp]. done.
Qed.

(** Requests specified this way, started in any number where [P] holds, move the shared state
    by [R]. *)
Lemma grows_pool_within P (entry : Prog unit -> Prop) c c' :
  steady P ->
  (forall p, entry p -> exists (A : Type) (m : Async A), p = pbind m (fun _ => Ret tt) /\
      forall i, grows i P m (fun _ _ => True)) ->
  rtc (pstep sem entry) c c' -> threads c = [] -> P (shared c) -> R (shared c) (shared c').
Proof.
  intros HP He Hc Ht Hs.
  assert (Hsafe : forall i p s, P s -> entry p -> safe sem (fun _ => R) (fun _ => R) i p anything s).
  { intros i p s Hps Hp. destruct (He _ Hp) as (A & m & -> & Hm). apply (safe_bind sem (fun _ => R) (fun _ => R)).
    eapply safe_mono; [|by apply Hm]. done. }
  destruct (pool_safe_within sem (fun _ => R) (fun _ => R) entry (fun _ _ s s' _ H => H) P
    (fun _ s s' Hg HI => HP _ _ HI Hg) Hsafe c c' Hc Hs) as (_ & _ & Hr).
  - intros i p. by rewrite Ht.
  - clear -Hr PreOrder0. induction Hr as [s|s s1 s' [i H1] _ IH]; [reflexivity|]. by etrans.
Qed.

Lemma grows_pool (entry : Prog unit -> Prop) c c' :
  (forall p, entry p -> exists (A : Type) (m : Async A), p = pbind m (fun _ => Ret tt) /\
      forall i, grows i (fun _ => True) m (fun _ _ => True)) ->
  rtc (pstep sem entry) c c' -> threads c = [] -> R (shared c) (shared c').
Proof. intros He Hc Ht. by eapply (grows_pool_within (fun _ => True)). Qed.
End growth.

(** A request whose answer nobody waits for. *)
Definition detached {A} (p : Prog A) : Prog unit := pbind p (fun _ => Ret tt).

Lemma emits_detached φ {A} (p : Prog A) : emits φ p -> emits φ (detached p).
Proof. intros H. by apply emits_bind. Qed.

(** ** Executing a program

    A handler answers every effect from a world that it updates. *)
Section execution.
Context {W : Type} (handle : forall e : act, W -> W * result e).

Fixpoint execute {A} (p : Prog A) (w : W) : W * A :=
  match p with
  | Ret a => (w, a)
  | Act e k => let '(w', x) := handle e w in execute (k x) w'
  end.

Lemma execute_bind {A B} (p : Prog A) (f : A -> Prog B) w :
  execute (pbind p f) w = let '(w', a) := execute p w in execute (f a) w'.
Proof.
  revert w. induction p as [a|e k IH]; simpl; intros w; [done|].
  destruct (handle e w) as [w' x]. apply IH.
Qed.

(** What [wp] proves of every run holds of an execution. *)
Lemma execute_runs {A} (p : Prog A) w : exists tr, runs p tr (execute p w).2.
Proof.
  revert w. induction p as [a|e k IH]; simpl; intros w; [eauto|].
  destruct (handle e w) as [w' x]. destruct (IH x w') as [tr Htr]. eauto.
Qed.

(** The run an execution makes. *)
Fixpoint trace_of {A} (p : Prog A) (w : W) : list Event * A :=
  match p with
  | Ret a => ([], a)
  | Act e k => let '(w', x) := handle e w in
               let '(tr, a) := trace_of (k x) w' in ({| ev_act := e; ev_res := x |} :: tr, a)
  end.

Lemma trace_of_runs {A} (p : Prog A) w : runs p (trace_of p w).1 (trace_of p w).2.
Proof.
  revert w. induction p as [a|e k IH]; simpl; intros w; [done|].
  destruct (handle e w) as [w' x]. specialize (IH x w').
  destruct (trace_of (k x) w') as [tr a]. eauto.
Qed.

(** A handler that answers as the effects may be answered makes a run of its own, and,
    told which thread goes next, a run of a pool. *)
Section schedule.
Context (sem : nat -> forall e : act, W -> W -> result e -> Prop) (entry : Prog unit -> Prop).
Context (handle_sem : forall i e w, sem i e w (handle e w).1 (handle e w).2).

Lemma execute_alone i {A} (p : Prog A) w : alone sem i p w (execute p w).1 (execute p w).2.
Proof.
  revert w. induction p as [a|e k IH]; simpl; intros w; [done|].
  pose proof (handle_sem i e w) as Hs. destruct (handle e w) as [w' x]. eauto.
Qed.

Definition turn (i : nat) (c : Pool) : Pool :=
  match threads c !! i with
  | Some (Act e k) => let '(w, x) := handle e (shared c) in
                      {| shared := w; threads := <[i := k x]> (threads c) |}
  | _ => c
  end.
Definition turns (sched : list nat) (c : Pool) : Pool := foldl (fun c i => turn i c) c sched.

Lemma turns_steps sched c : rtc (pstep sem entry) c (turns sched c).
Proof.
  revert c. induction sched as [|i sched IH]; intros c; [constructor|]. simpl.
  etrans; [|apply IH]. destruct c as [w ts]. unfold turn. simpl.
  destruct (ts !! i) as [[a|e k]|] eqn:E; [constructor| |constructor].
  pose proof (handle_sem i e w) as Hs. destruct (handle e w) as [w' x].
  apply rtc_once. by eapply pstep_run.
Qed.

Lemma start_all ps w : Forall entry ps -> rtc (pstep sem entry) {| shared := w; threads := [] |} {| shared := w; threads := ps |}.
Proof.
  intros H. induction ps as [|p ps IH] using rev_ind; [constructor|].
  apply Forall_app in H as [H1 H2]. etrans; [by apply IH|]. apply rtc_once. constructor.
  by inversion H2.
Qed.
End schedule.
End execution.
End programs.

Declare Scope async_scope.
Delimit Scope async_scope with async.
Notation "x <~ m ;; k" := (await m (fun x => k))
  (at level 100, m at next level, right associativity) : async_scope.
Notation "'await!' m ;; k" := (await m (fun _ => k))
  (at level 100, m at next level, right associativity) : async_scope.
