(* ===== verification/JsNum.v ===== *)
(** * JavaScript numbers

    A JavaScript [number] is an IEEE 754 binary64.  Prices, lots, balances and
    indicator values are modelled as such: [num] is the Standard Library's
    [spec_float], whose operations are the correctly rounded ones of the
    standard (round to nearest, ties to even), NaN and infinities included.
    Numbers the program uses only as counters and array indices are [Z]. *)
From S2P Require Import Prelude.
From Stdlib Require Import SpecFloat.

Definition num := spec_float.
Declare Scope num_scope.
Delimit Scope num_scope with num.
Bind Scope num_scope with num.

(** ** Operations *)
Definition NaN : num := S754_nan.
Definition Infinity : num := S754_infinity false.
Definition neg_Infinity : num := S754_infinity true.

Definition nadd : num -> num -> num := SFadd 53 1024.
Definition nsub : num -> num -> num := SFsub 53 1024.
Definition nmul : num -> num -> num := SFmul 53 1024.
Definition ndiv : num -> num -> num := SFdiv 53 1024.
Definition nopp : num -> num := SFopp.
(** [Math.abs] *)
Definition nabs : num -> num := SFabs.
(** [Math.sqrt] *)
Definition nsqrt : num -> num := SFsqrt 53 1024.
Definition nltb : num -> num -> bool := SFltb.
Definition nleb : num -> num -> bool := SFleb.
(** [===] on numbers: [NaN === NaN] is false and [0 === -0] is true. *)
Definition neqb : num -> num -> bool := SFeqb.
Definition is_nan (x : num) : bool := match x with S754_nan => true | _ => false end.

(** The double nearest to an integer, and the literal [m / 10^d] of a source
    text: both operands of the division are exact for the literals of the
    program, so the quotient is the correctly rounded literal. *)
Definition of_Z (z : Z) : num := binary_normalize 53 1024 z 0 false.
Definition lit (m d : Z) : num := ndiv (of_Z m) (of_Z (10 ^ d)).

Infix "+" := nadd : num_scope.
Infix "-" := nsub : num_scope.
Infix "*" := nmul : num_scope.
Infix "/" := ndiv : num_scope.
Infix "<?" := nltb : num_scope.
Infix "<=?" := nleb : num_scope.
Notation "x >? y" := (nltb y x) (only parsing) : num_scope.
Notation "x >=? y" := (nleb y x) (only parsing) : num_scope.
Infix "=?" := neqb : num_scope.

(** The integer below a positive dyadic [m * 2^e]. *)
Definition floor_div (m e : Z) : Z := if e <? 0 then m / 2 ^ (- e) else m * 2 ^ e.

(** [Math.round]: the integer nearest to [x], halves rounded towards +infinity;
    the sign of a zero result is the sign of [x]. *)
Definition Math_round (x : num) : num :=
  match x with
  | S754_finite s m e =>
      if 0 <=? e then x
      else
        let z := if s then Zneg m else Zpos m in
        let n := (2 * z + 2 ^ (- e)) / 2 ^ (- e + 1) in
        if n =? 0 then S754_zero s else binary_normalize 53 1024 n 0 s
  | _ => x
  end.

(** [Math.max] and [Math.min]: NaN is contagious and [-0] is below [+0]. *)
Definition Math_max (x y : num) : num :=
  if is_nan x || is_nan y then NaN
  else if nltb x y then y
  else if nltb y x then x
  else match x with S754_zero true => y | _ => x end.

Definition Math_min (x y : num) : num :=
  if is_nan x || is_nan y then NaN
  else if nltb x y then x
  else if nltb y x then y
  else match x with S754_zero false => y | _ => x end.

(** Truthiness of a number in a condition: [NaN], [0] and [-0] are falsy. *)
Definition truthy (x : num) : bool :=
  match x with S754_nan | S754_zero _ => false | _ => true end.

(** [x || 0] *)
Definition or_zero (x : num) : num := if truthy x then x else S754_zero false.

(** [a.reduce((s, v) => s + v, init)] *)
Definition nsum (init : num) (l : list num) : num := fold_left nadd l init.

(** ** The order of the doubles

    Every finite double is placed by a key of three integers compared
    lexicographically (sign class, exponent, mantissa), so an order goal
    becomes linear integer arithmetic. *)
Definition k1 (x : num) : Z :=
  match x with
  | S754_zero _ | S754_nan => 0
  | S754_infinity s => if s then -2 else 2
  | S754_finite s _ _ => if s then -1 else 1
  end.
Definition k2 (x : num) : Z :=
  match x with S754_finite s _ e => if s then - e else e | _ => 0 end.
Definition k3 (x : num) : Z :=
  match x with S754_finite s m _ => if s then - Zpos m else Zpos m | _ => 0 end.

Definition key_lt (x y : num) : Prop :=
  k1 x < k1 y \/ k1 x = k1 y /\ (k2 x < k2 y \/ k2 x = k2 y /\ k3 x < k3 y).
Definition key_eq (x y : num) : Prop :=
  k1 x = k1 y /\ k2 x = k2 y /\ k3 x = k3 y.

Lemma SFcompare_key x y :
  match SFcompare x y with
  | None => is_nan x = true \/ is_nan y = true
  | Some c => is_nan x = false /\ is_nan y = false /\
      match c with Lt => key_lt x y | Eq => key_eq x y | Gt => key_lt y x end
  end.
Proof.
  unfold key_lt, key_eq.
  destruct x as [[]|[]| |[] m e], y as [[]|[]| |[] m' e'];
    simpl; try (split_and!; [done|done|lia]); auto.
  all: destruct (Z.compare_spec e e') as [He|He|He];
    try change (Pos.compare_cont Eq m m') with (m ?= m')%positive;
    try destruct (Pos.compare_spec m m') as [Hm|Hm|Hm];
    simpl; split_and!; try done; try subst; lia.
Qed.

Lemma nltb_true x y :
  nltb x y = true <-> is_nan x = false /\ is_nan y = false /\ key_lt x y.
Proof.
  unfold nltb, SFltb. pose proof (SFcompare_key x y) as H.
  destruct (SFcompare x y) as [[]|]; unfold key_lt, key_eq in *; intuition (try congruence; try lia).
Qed.

Lemma nleb_true x y :
  nleb x y = true <-> is_nan x = false /\ is_nan y = false /\ ~ key_lt y x.
Proof.
  unfold nleb, SFleb. pose proof (SFcompare_key x y) as H.
  destruct (SFcompare x y) as [[]|]; unfold key_lt, key_eq in *; intuition (try congruence; try lia).
Qed.

Lemma neqb_true x y :
  neqb x y = true <-> is_nan x = false /\ is_nan y = false /\ key_eq x y.
Proof.
  unfold neqb, SFeqb. pose proof (SFcompare_key x y) as H.
  destruct (SFcompare x y) as [[]|]; unfold key_lt, key_eq in *; intuition (try congruence; try lia).
Qed.

Lemma nltb_false x y :
  nltb x y = false <-> is_nan x = true \/ is_nan y = true \/ ~ key_lt x y.
Proof.
  rewrite <- not_true_iff_false, nltb_true.
  destruct (is_nan x), (is_nan y); unfold key_lt; intuition (try congruence; try lia).
Qed.

Lemma nleb_false x y :
  nleb x y = false <-> is_nan x = true \/ is_nan y = true \/ key_lt y x.
Proof.
  rewrite <- not_true_iff_false, nleb_true.
  destruct (is_nan x), (is_nan y); unfold key_lt; intuition (try congruence; try lia).
Qed.

Lemma neqb_false x y :
  neqb x y = false <-> is_nan x = true \/ is_nan y = true \/ ~ key_eq x y.
Proof.
  rewrite <- not_true_iff_false, neqb_true.
  destruct (is_nan x), (is_nan y); unfold key_eq; intuition (try congruence; try lia).
Qed.

(** [num_order] decides goals and hypotheses about [<?], [<=?] and [=?]. *)
Ltac num_order :=
  repeat match goal with
  | |- context [SFltb] => progress fold nltb
  | H : nltb _ _ = true |- _ => apply nltb_true in H as (? & ? & ?)
  | H : nleb _ _ = true |- _ => apply nleb_true in H as (? & ? & ?)
  | H : neqb _ _ = true |- _ => apply neqb_true in H as (? & ? & ?)
  | H : nltb _ _ = false |- _ => apply nltb_false in H
  | H : nleb _ _ = false |- _ => apply nleb_false in H
  | H : neqb _ _ = false |- _ => apply neqb_false in H
  | |- nltb _ _ = true => apply nltb_true; split_and!
  | |- nleb _ _ = true => apply nleb_true; split_and!
  | |- neqb _ _ = true => apply neqb_true; split_and!
  | |- nltb _ _ = false => apply nltb_false
  | |- nleb _ _ = false => apply nleb_false
  | |- neqb _ _ = false => apply neqb_false
  end;
  unfold key_lt, key_eq in *;
  try (intuition (try congruence; try lia)).

Lemma nltb_trans x y z : nltb x y = true -> nltb y z = true -> nltb x z = true.
Proof. intros. num_order. Qed.
Lemma nleb_trans x y z : nleb x y = true -> nleb y z = true -> nleb x z = true.
Proof. intros. num_order. Qed.
Lemma nltb_nleb_trans x y z : nltb x y = true -> nleb y z = true -> nltb x z = true.
Proof. intros. num_order. Qed.
Lemma nleb_nltb_trans x y z : nleb x y = true -> nltb y z = true -> nltb x z = true.
Proof. intros. num_order. Qed.
Lemma nltb_irrefl x : nltb x x = false.
Proof. num_order. Qed.
Lemma nltb_nleb x y : nltb x y = true -> nleb x y = true.
Proof. intros. num_order. Qed.
Lemma nltb_not_nleb x y : nltb x y = true -> nleb y x = false.
Proof. intros. num_order. Qed.
Lemma nleb_refl x : is_nan x = false -> nleb x x = true.
Proof. intros. num_order. Qed.
Lemma neqb_refl x : is_nan x = false -> neqb x x = true.
Proof. intros. num_order. Qed.
Lemma nltb_total x y :
  is_nan x = false -> is_nan y = false ->
  nltb x y = true \/ neqb x y = true \/ nltb y x = true.
Proof.
  intros. destruct (nltb x y) eqn:?, (neqb x y) eqn:?, (nltb y x) eqn:?; auto. num_order.
Qed.
Lemma nltb_false_nleb x y :
  is_nan x = false -> is_nan y = false -> nltb x y = false -> nleb y x = true.
Proof. intros. num_order. Qed.
Lemma nltb_not_nan x y : nltb x y = true -> is_nan x = false /\ is_nan y = false.
Proof. intros. num_order. Qed.
Lemma nleb_not_nan x y : nleb x y = true -> is_nan x = false /\ is_nan y = false.
Proof. intros. num_order. Qed.

#[export] Hint Resolve nltb_trans nltb_nleb nleb_trans nltb_nleb_trans nleb_nltb_trans : js.

Arguments nadd : simpl never.
Arguments nsub : simpl never.
Arguments nmul : simpl never.
Arguments ndiv : simpl never.
Arguments nltb : simpl never.
Arguments nleb : simpl never.
Arguments neqb : simpl never.
Arguments lit : simpl never.
Arguments of_Z : simpl never.
Arguments Math_round : simpl never.
Arguments Math_min : simpl never.
Arguments Math_max : simpl never.

(** Proofs reason about the operations through lemmas; evaluation is by
    [vm_compute]. *)
#[global] Opaque nadd nsub nmul ndiv nopp nsqrt nltb nleb neqb of_Z lit Math_round Math_min Math_max.
