(* ===== verification/NumFacts.v ===== *)
(** * Rounding of binary64 operations

    What the program's theorems need from IEEE rounding: the result of an
    operation never crosses a representable number that the exact result does
    not cross.  [V] is the exact value of a finite double in units of [2^-1074],
    an integer; [Rounds r N D] says that [r] rounds the rational [N / D] (same
    unit): it is below (above) every double the rational is below (above). *)
From S2P Require Import Prelude JsNum.
From Stdlib Require Import SpecFloat.
#[local] Transparent nadd nsub nmul ndiv nltb nleb neqb of_Z lit nopp.

Definition fx (e : Z) : Z := Z.max (e - 53) (-1074).

Lemma fexp_fx e : fexp 53 1024 e = fx e.
Proof. reflexivity. Qed.

(** ** Digits *)
Lemma digits_spec p :
  2 ^ (Z.pos (digits2_pos p) - 1) <= Z.pos p < 2 ^ Z.pos (digits2_pos p).
Proof.
  assert (H : forall q, 2 ^ Z.pos (Pos.succ q) = 2 * 2 ^ Z.pos q)
    by (intros q; rewrite Pos2Z.inj_succ, Z.pow_succ_r; lia).
  assert (H1 : forall q, 2 ^ (Z.pos (Pos.succ q) - 1) = 2 * 2 ^ (Z.pos q - 1)).
  { intros q. rewrite <- Z.pow_succ_r by lia. f_equal. lia. }
  induction p as [p IH|p IH|]; simpl digits2_pos.
  - rewrite H, H1. lia.
  - rewrite H, H1. lia.
  - simpl. lia.
Qed.

Lemma digits_le p k : 0 <= k -> Z.pos p < 2 ^ k -> Z.pos (digits2_pos p) <= k.
Proof.
  intros Hk Hp. pose proof (digits_spec p) as [H _].
  destruct (Z.le_gt_cases (Z.pos (digits2_pos p)) k) as [|Hlt]; [done|].
  assert (2 ^ k <= 2 ^ (Z.pos (digits2_pos p) - 1)) by (apply Z.pow_le_mono_r; lia). lia.
Qed.

Lemma digits_ge p k : 0 <= k -> 2 ^ k <= Z.pos p -> k < Z.pos (digits2_pos p).
Proof.
  intros Hk Hp. pose proof (digits_spec p) as [_ H].
  destruct (Z.lt_ge_cases k (Z.pos (digits2_pos p))) as [|Hge]; [done|].
  assert (2 ^ Z.pos (digits2_pos p) <= 2 ^ k) by (apply Z.pow_le_mono_r; lia). lia.
Qed.

(** ** Shifting with a round bit and a sticky bit

    [abs_rec mrs N D]: the record is the rational [N / D], cut to its integer
    part and the position of the rest relative to one half. *)
Definition abs_rec (mrs : shr_record) (N D : Z) : Prop :=
  shr_m mrs = N / D /\
  shr_r mrs = (D <=? 2 * (N mod D)) /\
  shr_s mrs = negb (N mod D =? 0) && negb (2 * (N mod D) =? D).

Lemma shr_1_abs mrs N D :
  0 < D -> 0 <= N -> abs_rec mrs N D -> abs_rec (shr_1 mrs) N (2 * D).
Proof.
  intros HD HN (Hm & Hr & Hs). unfold abs_rec.
  assert (Hq : N / (2 * D) = N / D / 2) by (rewrite Z.mul_comm, Z.div_div by lia; done).
  assert (Hk : N mod (2 * D) = N mod D + D * ((N / D) mod 2))
    by (rewrite (Z.mul_comm 2), Z.rem_mul_r by lia; done).
  rewrite Hq, Hk. pose proof (Z.mod_pos_bound N D HD) as Hb.
  pose proof (Z.div_pos N D HN HD) as Hp.
  set (k := N mod D) in *. set (m := N / D) in *. clearbody k m.
  destruct mrs as [m' r s]. simpl in *. subst m'.
  assert (Hrs : r || s = negb (k =? 0)).
  { subst r s. destruct (Z.leb_spec D (2 * k)), (Z.eqb_spec k 0), (Z.eqb_spec (2 * k) D);
      simpl; try done; lia. }
  rewrite Hrs.
  assert (Hm2 : m = 2 * (m / 2) + m mod 2) by (apply Z.div_mod; lia).
  pose proof (Z.mod_pos_bound m 2 ltac:(lia)).
  destruct m as [|[p|p|]|p]; simpl shr_m; simpl shr_r; simpl shr_s; try lia;
    split_and!; try lia.
  - assert (Z.pos p~1 mod 2 = 1) as -> by lia. symmetry. apply Z.leb_le. lia.
  - assert (Z.pos p~1 mod 2 = 1) as -> by lia.
    destruct (Z.eqb_spec k 0), (Z.eqb_spec (k + D * 1) 0),
      (Z.eqb_spec (2 * (k + D * 1)) (2 * D)); simpl; try done; lia.
  - assert (Z.pos p~0 mod 2 = 0) as -> by lia. symmetry. apply Z.leb_gt. lia.
  - assert (Z.pos p~0 mod 2 = 0) as -> by lia.
    destruct (Z.eqb_spec k 0), (Z.eqb_spec (k + D * 0) 0),
      (Z.eqb_spec (2 * (k + D * 0)) (2 * D)); simpl; try done; lia.
Qed.

Lemma iter_shr_abs p mrs N D :
  0 < D -> 0 <= N -> abs_rec mrs N D -> abs_rec (iter_pos shr_1 p mrs) N (2 ^ Z.pos p * D).
Proof.
  revert mrs D. induction p as [p IH|p IH|]; intros mrs D HD HN Ha; simpl iter_pos.
  - assert (0 < 2 ^ Z.pos p) by (apply Z.pow_pos_nonneg; lia).
    replace (2 ^ Z.pos p~1 * D) with (2 ^ Z.pos p * (2 ^ Z.pos p * (2 * D))).
    + apply IH; [lia|done|]. apply IH; [lia|done|]. by apply shr_1_abs.
    + rewrite (Pos2Z.inj_xI p), Z.pow_add_r, Z.pow_twice_r by lia. lia.
  - assert (0 < 2 ^ Z.pos p) by (apply Z.pow_pos_nonneg; lia).
    replace (2 ^ Z.pos p~0 * D) with (2 ^ Z.pos p * (2 ^ Z.pos p * D)).
    + apply IH; [lia|done|]. by apply IH.
    + rewrite (Pos2Z.inj_xO p), Z.pow_twice_r. lia.
  - by apply shr_1_abs.
Qed.

Lemma shr_abs mrs e n N D :
  0 < D -> 0 <= N -> abs_rec mrs N D ->
  abs_rec (shr mrs e n).1 N (2 ^ Z.max 0 n * D) /\ (shr mrs e n).2 = e + Z.max 0 n.
Proof.
  intros HD HN Ha. destruct n as [|p|p]; simpl.
  - rewrite Z.mul_1_l, Z.add_0_r. done.
  - split; [by apply iter_shr_abs|done].
  - rewrite Z.mul_1_l, Z.add_0_r. done.
Qed.

(** The integer nearest to the rational stays on its side of every integer. *)
Lemma rne_bounds mrs N D K :
  0 < D -> abs_rec mrs N D ->
  let q := round_nearest_even (shr_m mrs) (loc_of_shr_record mrs) in
  (N <= K * D -> q <= K) /\ (K * D <= N -> K <= q).
Proof.
  intros HD (Hm & Hr & Hs) q.
  pose proof (Z.mod_pos_bound N D HD) as Hb. pose proof (Z.div_mod N D ltac:(lia)) as Hdm.
  destruct mrs as [m r s]. simpl in *.
  assert (Hq : m <= q <= m + 1) by (unfold q; destruct r, s; simpl; try destruct (Z.even _); lia).
  assert (Hex : N mod D = 0 -> q = m).
  { intros H0. unfold q. assert (r = false) as -> by (rewrite Hr, H0; lia).
    assert (s = false) as -> by (rewrite Hs, H0; done). done. }
  split; intros H.
  - destruct (decide (N mod D = 0)) as [H0|H0]; [rewrite Hex by done|]; nia.
  - nia.
Qed.

(** ** Values *)
Definition V (x : num) : Z :=
  match x with
  | S754_finite s m e => (if s then Z.neg m else Z.pos m) * 2 ^ (e + 1074)
  | _ => 0
  end.
Definition finite (x : num) : bool :=
  match x with S754_zero _ | S754_finite _ _ _ => true | _ => false end.
(** The doubles a JavaScript program can hold. *)
Definition valid (x : num) : Prop := valid_binary 53 1024 x = true.

Lemma bounded_spec m e :
  bounded 53 1024 m e = true <-> fx (Z.pos (digits2_pos m) + e) = e /\ e <= 971.
Proof.
  unfold bounded, canonical_mantissa. rewrite andb_true_iff, fexp_fx. simpl. lia.
Qed.

Lemma pow2_pos n : 0 <= n -> 0 < 2 ^ n.
Proof. intros. by apply Z.pow_pos_nonneg. Qed.

Lemma pow2_split a b : 0 <= a <= b -> 2 ^ b = 2 ^ (b - a) * 2 ^ a.
Proof. intros. rewrite <- Z.pow_add_r by lia. f_equal. lia. Qed.

(** A canonical mantissa with the smaller exponent is the smaller number. *)
Lemma canon_exp_lt m1 e1 m2 e2 :
  bounded 53 1024 m1 e1 = true -> bounded 53 1024 m2 e2 = true -> e1 < e2 ->
  Z.pos m1 * 2 ^ (e1 + 1074) < Z.pos m2 * 2 ^ (e2 + 1074).
Proof.
  rewrite !bounded_spec. unfold fx. intros [H1 _] [H2 _] Hlt.
  pose proof (digits_spec m1) as [_ Hm1]. pose proof (digits_spec m2) as [Hm2 _].
  assert (Hd1 : Z.pos (digits2_pos m1) <= 53) by lia.
  assert (Hd2 : Z.pos (digits2_pos m2) = 53) by lia.
  rewrite Hd2 in Hm2.
  assert (Hp : 2 ^ Z.pos (digits2_pos m1) <= 2 ^ 53) by (apply Z.pow_le_mono_r; lia).
  rewrite (pow2_split (e1 + 1075) (e2 + 1074)) by lia.
  replace (e1 + 1075) with (Z.succ (e1 + 1074)) by lia. rewrite Z.pow_succ_r by lia.
  pose proof (pow2_pos (e1 + 1074) ltac:(lia)).
  pose proof (pow2_pos (e2 + 1074 - Z.succ (e1 + 1074)) ltac:(lia)).
  simpl in Hm2. set (a := 2 ^ (e1 + 1074)) in *.
  set (b := 2 ^ (e2 + 1074 - Z.succ (e1 + 1074))) in *.
  change (2 ^ 53) with 9007199254740992 in Hp.
  assert (Z.pos m1 * a < 9007199254740992 * a) by (apply Z.mul_lt_mono_pos_r; lia).
  assert (4503599627370496 * (1 * (2 * a)) <= Z.pos m2 * (b * (2 * a))); [|lia].
  apply Z.mul_le_mono_nonneg; [lia|lia|lia|]. apply Z.mul_le_mono_nonneg_r; lia.
Qed.

Lemma canon_cmp m1 e1 m2 e2 :
  bounded 53 1024 m1 e1 = true -> bounded 53 1024 m2 e2 = true ->
  Z.pos m1 * 2 ^ (e1 + 1074) < Z.pos m2 * 2 ^ (e2 + 1074) <->
  e1 < e2 \/ e1 = e2 /\ Z.pos m1 < Z.pos m2.
Proof.
  intros H1 H2. split.
  - intros Hv. destruct (Z.lt_trichotomy e1 e2) as [|[->|Hgt]]; [by left|right|].
    + split; [done|]. assert (e2 >= -1074) by (apply bounded_spec in H1; unfold fx in H1; lia).
      pose proof (pow2_pos (e2 + 1074) ltac:(lia)). nia.
    + pose proof (canon_exp_lt _ _ _ _ H2 H1 Hgt). lia.
  - intros [Hlt|[-> Hlt]]; [by apply canon_exp_lt|].
    assert (e2 >= -1074) by (apply bounded_spec in H1; unfold fx in H1; lia).
    pose proof (pow2_pos (e2 + 1074) ltac:(lia)). nia.
Qed.

Lemma pos_val_pos m e : bounded 53 1024 m e = true -> 0 < Z.pos m * 2 ^ (e + 1074).
Proof.
  intros [H _]%bounded_spec. unfold fx in H.
  pose proof (pow2_pos (e + 1074) ltac:(lia)). nia.
Qed.

Lemma nleb_V x y :
  valid x -> valid y -> finite x = true -> finite y = true ->
  nleb x y = true <-> V x <= V y.
Proof.
  intros Hx Hy Fx Fy. rewrite nleb_true. unfold key_lt.
  destruct x as [sx|sx| |[] mx ex], y as [sy|sy| |[] my ey]; try done; simpl in *;
    try (pose proof (pos_val_pos _ _ Hx)); try (pose proof (pos_val_pos _ _ Hy)).
  all: try (pose proof (canon_cmp _ _ _ _ Hx Hy)); try (pose proof (canon_cmp _ _ _ _ Hy Hx)).
  all: rewrite <- ?Pos2Z.opp_pos, ?Z.mul_opp_l in *; lia.
Qed.

(** ** The rounding step *)
Lemma Zdigits2_spec m : 0 < m -> 2 ^ (Zdigits2 m - 1) <= m < 2 ^ Zdigits2 m /\ 0 < Zdigits2 m.
Proof. destruct m; [lia| |lia]. intros _. split; [apply digits_spec|simpl; lia]. Qed.

Lemma round_second sx q E :
  0 <= q <= 2 ^ 53 -> -1074 <= E -> (E = -1074 \/ 2 ^ 52 <= q) ->
  let r := let '(mrs, e') := shr_fexp 53 1024 q E loc_Exact in
           match shr_m mrs with
           | Z0 => S754_zero sx
           | Zpos m => if e' <=? 971 then S754_finite sx m e' else S754_infinity sx
           | _ => S754_nan
           end in
  (q = 0 /\ r = S754_zero sx) \/
  (exists m' e', r = S754_finite sx m' e' /\ bounded 53 1024 m' e' = true /\
     Z.pos m' * 2 ^ (e' + 1074) = q * 2 ^ (E + 1074)) \/
  (r = S754_infinity sx /\ 2 ^ 2098 <= q * 2 ^ (E + 1074)).
Proof.
  intros Hq HE Hlow r. unfold r, shr_fexp. rewrite fexp_fx.
  destruct q as [|p|p]; [left|right|lia].
  { split; [done|]. simpl Zdigits2. unfold fx, shr.
    replace (Z.max (0 + E - 53) (-1074) - E) with (Z.min 0 (Z.max (0 + E - 53) (-1074) - E)) by lia.
    destruct (Z.min 0 _) eqn:Em; try lia; done. }
  simpl Zdigits2. pose proof (digits_spec p) as Hd.
  destruct (decide (Z.pos p = 2 ^ 53)) as [Hp|Hp].
  - assert (p = 9007199254740992%positive) as -> by (simpl in Hp; lia).
    change (Z.pos (digits2_pos 9007199254740992)) with 54.
    assert (Hfx : fx (54 + E) - E = 1) by (unfold fx; lia). rewrite Hfx. simpl.
    destruct (Z.leb_spec (E + 1) 971).
    + left. eexists _, _. split; [done|]. split.
      * apply bounded_spec. split; [|done]. unfold fx. simpl. lia.
      * replace (E + 1 + 1074) with (Z.succ (E + 1074)) by lia.
        rewrite Z.pow_succ_r by lia. lia.
    + right. split; [done|]. change (2 ^ 2098) with (2 ^ 53 * 2 ^ 2045).
      assert (2 ^ 2045 <= 2 ^ (E + 1074)) by (apply Z.pow_le_mono_r; lia). lia.
  - assert (Hd53 : Z.pos (digits2_pos p) <= 53) by (apply digits_le; lia).
    assert (Hcan : fx (Z.pos (digits2_pos p) + E) = E).
    { unfold fx. destruct Hlow as [->|Hlow]; [lia|].
      pose proof (digits_ge p 52 ltac:(lia) Hlow). lia. }
    rewrite Hcan, Z.sub_diag. simpl.
    destruct (Z.leb_spec E 971).
    + left. eexists _, _. split; [done|]. split; [|done]. by apply bounded_spec.
    + right. split; [done|]. destruct Hlow as [|Hlow]; [lia|].
      change (2 ^ 2098) with (2 ^ 52 * 2 ^ 2046).
      assert (2 ^ 2046 <= 2 ^ (E + 1074)) by (apply Z.pow_le_mono_r; lia).
      assert (0 < 2 ^ 2046) by (apply pow2_pos; lia). nia.
Qed.

Lemma round_aux_spec sx m e l N D :
  0 < D -> 0 <= N -> abs_rec (shr_record_of_loc m l) N D ->
  let E := fx (Zdigits2 m + e) in
  e <= E ->
  exists q,
    (forall K, (N <= K * (2 ^ (E - e) * D) -> q <= K) /\ (K * (2 ^ (E - e) * D) <= N -> K <= q)) /\
    (E = -1074 \/ 2 ^ 52 * (2 ^ (E - e) * D) <= N) /\
    let r := binary_round_aux 53 1024 sx m e l in
    (q = 0 /\ r = S754_zero sx) \/
    (exists m' e', r = S754_finite sx m' e' /\ bounded 53 1024 m' e' = true /\
       Z.pos m' * 2 ^ (e' + 1074) = q * 2 ^ (E + 1074)) \/
    (r = S754_infinity sx /\ 2 ^ 2098 <= q * 2 ^ (E + 1074)).
Proof.
  intros HD HN Ha E HE.
  assert (Hm : m = N / D) by (destruct Ha as [<- _]; by destruct l as [|[]]).
  pose proof (pow2_pos (E - e) ltac:(lia)) as Hp.
  destruct (shr_abs _ e (E - e) _ _ HD HN Ha) as [Ha' He'].
  rewrite Z.max_r in Ha', He' by lia. replace (e + (E - e)) with E in He' by lia.
  destruct (shr (shr_record_of_loc m l) e (E - e)) as [mrs e1] eqn:Hshr.
  simpl in Ha', He'. subst e1.
  set (q := round_nearest_even (shr_m mrs) (loc_of_shr_record mrs)).
  assert (Heq : binary_round_aux 53 1024 sx m e l =
    let '(mrs, e') := shr_fexp 53 1024 q E loc_Exact in
    match shr_m mrs with
    | Z0 => S754_zero sx
    | Zpos m => if e' <=? 971 then S754_finite sx m e' else S754_infinity sx
    | _ => S754_nan
    end).
  { unfold binary_round_aux. unfold shr_fexp at 1. rewrite fexp_fx. fold E. by rewrite Hshr. }
  rewrite Heq. clear Heq Hshr.
  assert (Hb : forall K, (N <= K * (2 ^ (E - e) * D) -> q <= K) /\
                         (K * (2 ^ (E - e) * D) <= N -> K <= q)).
  { intros K. apply (rne_bounds mrs); [lia|done]. }
  exists q. split; [done|].
  assert (Hm0 : 0 <= m) by (rewrite Hm; apply Z.div_pos; lia).
  pose proof (Z.div_mod N D ltac:(lia)) as Hdm. rewrite <- Hm in Hdm.
  pose proof (Z.mod_pos_bound N D HD).
  assert (Hlow : E = -1074 \/ 2 ^ 52 * (2 ^ (E - e) * D) <= N).
  { destruct (decide (E = -1074)) as [|HE']; [by left|right].
    assert (Em : E = Zdigits2 m + e - 53) by (unfold E, fx in *; lia).
    destruct (decide (m = 0)) as [->|]; [simpl in Em; lia|].
    destruct (Zdigits2_spec m) as [[Hge _] _]; [lia|].
    replace (Zdigits2 m - 1) with (52 + (E - e)) in Hge by lia.
    rewrite Z.pow_add_r in Hge by lia. nia. }
  split; [done|]. apply (round_second sx q E).
  - split; [apply Hb; lia|]. apply Hb.
    assert (Hlt : m < 2 ^ (53 + (E - e))).
    { destruct (decide (m = 0)) as [->|]; [apply pow2_pos; lia|].
      destruct (Zdigits2_spec m) as [[_ Hlt] _]; [lia|].
      eapply Z.lt_le_trans; [exact Hlt|]. apply Z.pow_le_mono_r; [lia|]. unfold E, fx. lia. }
    rewrite Z.pow_add_r in Hlt by lia. nia.
  - unfold E, fx. lia.
  - destruct Hlow; [by left|right]. by apply Hb.
Qed.

(** ** Never crossing a representable number *)
Definition repr (f : Z) : Prop :=
  f = 0 \/ exists m e, bounded 53 1024 m e = true /\ f = Z.pos m * 2 ^ (e + 1074).

(** [r] is the magnitude [w] with sign [sx]; an infinity stands for any
    magnitude past the largest double. *)
Definition has_mag (r : num) (sx : bool) (w : Z) : Prop :=
  (w = 0 /\ r = S754_zero sx) \/
  (exists m e, r = S754_finite sx m e /\ bounded 53 1024 m e = true /\
     Z.pos m * 2 ^ (e + 1074) = w) \/
  (r = S754_infinity sx /\ 2 ^ 2098 <= w).

Lemma round_aux_mag sx m e l N D N' D' :
  0 < D -> 0 <= N -> 0 < D' -> abs_rec (shr_record_of_loc m l) N D ->
  let E := fx (Zdigits2 m + e) in
  e <= E -> N' * (D * 2 ^ (E - e)) = N * (D' * 2 ^ (E + 1074)) ->
  exists w, 0 <= w /\ has_mag (binary_round_aux 53 1024 sx m e l) sx w /\
    forall f, repr f -> (N' <= f * D' -> w <= f) /\ (f * D' <= N' -> f <= w).
Proof.
  intros HD HN HD' Ha E HE Hx.
  destruct (round_aux_spec sx m e l N D HD HN Ha HE) as (q & Hb & Hlow & Hr). fold E in Hb, Hlow, Hr.
  assert (HE0 : -1074 <= E) by (unfold E, fx; lia).
  pose proof (pow2_pos (E - e) ltac:(lia)) as Hp1.
  pose proof (pow2_pos (E + 1074) ltac:(lia)) as Hp2.
  set (A := 2 ^ (E - e)) in *. set (B := 2 ^ (E + 1074)) in *.
  assert (Hq0 : 0 <= q) by (apply Hb; lia).
  exists (q * B). split; [nia|]. split.
  { destruct Hr as [[-> ->]|[(m' & e' & -> & ? & ?)|[-> ?]]].
    - left. done.
    - right. left. eauto 10.
    - right. right. done. }
  intros f Hf.
  (* multiples of the unit of the result *)
  assert (HK : forall K, f = K * B -> (N' <= f * D' -> q * B <= f) /\ (f * D' <= N' -> f <= q * B)).
  { intros K ->. destruct (Hb K) as [Hb1 Hb2]. split; intros H.
    - apply Z.mul_le_mono_nonneg_r; [lia|]. apply Hb1.
      apply (Z.mul_le_mono_pos_r _ _ (D' * B)); [nia|]. rewrite <- Hx.
      replace (K * (A * D) * (D' * B)) with (K * B * D' * (D * A)) by ring.
      apply Z.mul_le_mono_nonneg_r; [nia|done].
    - apply Z.mul_le_mono_nonneg_r; [lia|]. apply Hb2.
      apply (Z.mul_le_mono_pos_r _ _ (D' * B)); [nia|]. rewrite <- Hx.
      replace (K * (A * D) * (D' * B)) with (K * B * D' * (D * A)) by ring.
      apply Z.mul_le_mono_nonneg_r; [nia|done]. }
  destruct Hf as [->|(mf & ef & Hbf & ->)]; [by apply (HK 0)|].
  destruct (decide (E <= ef)) as [Hle|Hgt].
  { apply (HK (Z.pos mf * 2 ^ (ef - E))). rewrite (pow2_split (E + 1074) (ef + 1074)) by lia.
    replace (ef + 1074 - (E + 1074)) with (ef - E) by lia. fold B. lia. }
  assert (Hef : -1074 <= ef) by (apply bounded_spec in Hbf; unfold fx in Hbf; lia).
  destruct Hlow as [|Hlow]; [lia|].
  assert (Hfl : Z.pos mf * 2 ^ (ef + 1074) < 2 ^ 52 * B).
  { apply bounded_spec in Hbf as [Hbf _]. unfold fx in Hbf.
    pose proof (digits_spec mf) as [_ Hmf].
    assert (2 ^ Z.pos (digits2_pos mf) <= 2 ^ 53) by (apply Z.pow_le_mono_r; lia).
    unfold B. rewrite (pow2_split (ef + 1075) (E + 1074)) by lia.
    replace (ef + 1075) with (Z.succ (ef + 1074)) by lia. rewrite Z.pow_succ_r by lia.
    pose proof (pow2_pos (ef + 1074) ltac:(lia)).
    pose proof (pow2_pos (E + 1074 - Z.succ (ef + 1074)) ltac:(lia)).
    change (2 ^ 53) with (2 ^ 52 * 2) in *.
    apply Z.lt_le_trans with (2 ^ 52 * 2 * 2 ^ (ef + 1074)); [apply Z.mul_lt_mono_pos_r; lia|].
    rewrite <- Z.mul_assoc. apply Z.mul_le_mono_nonneg_l; [lia|].
    set (X := 2 ^ (ef + 1074)) in *. nia. }
  assert (Hq : 2 ^ 52 <= q) by (by apply Hb).
  split; intros H; [|nia].
  exfalso. assert (2 ^ 52 * B * D' <= N'); [|nia].
  apply (Z.mul_le_mono_pos_r _ _ (D * A)); [nia|]. rewrite Hx.
  replace (2 ^ 52 * B * D' * (D * A)) with (2 ^ 52 * (A * D) * (D' * B)) by ring.
  apply Z.mul_le_mono_nonneg_r; [nia|done].
Qed.

(** [r] rounds the rational [N / D] (in units of [2^-1074]). *)
Definition Rounds (r : num) (N D : Z) : Prop :=
  valid r /\ is_nan r = false /\
  forall F, valid F -> finite F = true ->
    (N <= V F * D -> nleb r F = true) /\ (V F * D <= N -> nleb F r = true).

Lemma repr_V F : valid F -> finite F = true -> repr (Z.abs (V F)).
Proof.
  intros HF FF. destruct F as [|?| |[] m e]; try done; [by left|right..];
    exists m, e; (split; [done|]); pose proof (pos_val_pos _ _ HF); simpl;
    rewrite <- ?Pos2Z.opp_pos, ?Z.mul_opp_l; lia.
Qed.

Lemma repr_lt f : repr f -> f < 2 ^ 2098.
Proof.
  intros [->|(m & e & Hb & ->)]; [by apply pow2_pos|].
  apply bounded_spec in Hb as [Hb He]. unfold fx in Hb.
  pose proof (digits_spec m) as [_ Hm].
  assert (2 ^ Z.pos (digits2_pos m) <= 2 ^ 53) by (apply Z.pow_le_mono_r; lia).
  change (2 ^ 2098) with (2 ^ 53 * 2 ^ 2045).
  assert (2 ^ (e + 1074) <= 2 ^ 2045) by (apply Z.pow_le_mono_r; lia).
  pose proof (pow2_pos (e + 1074) ltac:(lia)). nia.
Qed.

Lemma Rounds_mag r sx w N' D' :
  0 < D' -> 0 <= N' -> 0 <= w -> has_mag r sx w ->
  (forall f, repr f -> (N' <= f * D' -> w <= f) /\ (f * D' <= N' -> f <= w)) ->
  Rounds r (if sx then - N' else N') D'.
Proof.
  intros HD HN Hw Hr Hf. unfold Rounds.
  destruct Hr as [[-> ->]|[(m & e & -> & Hb & Hm)|[-> Hinf]]].
  - split_and!; [done|done|]. intros F VF FF.
    destruct (Hf _ (repr_V F VF FF)) as [H1 H2].
    split; intros H; apply nleb_V; try done; simpl; destruct sx; nia.
  - split_and!; [done|done|]. intros F VF FF.
    destruct (Hf _ (repr_V F VF FF)) as [H1 H2].
    split; intros H; apply nleb_V; try done; simpl;
      destruct sx; rewrite <- ?Pos2Z.opp_pos, ?Z.mul_opp_l, ?Hm; nia.
  - split_and!; [done|done|]. intros F VF FF.
    destruct (Hf _ (repr_V F VF FF)) as [H1 H2].
    pose proof (repr_lt _ (repr_V F VF FF)) as Hlt.
    split; intros H; apply nleb_true; split_and!; try done;
      destruct F as [|?| |[] ? ?]; try done; unfold key_lt; destruct sx; simpl in *;
      try lia; exfalso; nia.
Qed.

(** ** The operations *)
Lemma Rounds_zero s D : 0 < D -> Rounds (S754_zero s) 0 D.
Proof.
  intros HD. split_and!; [done|done|]. intros F VF FF.
  split; intros H; apply nleb_V; try done; simpl; nia.
Qed.

Lemma abs_exact m : 0 <= m -> abs_rec (shr_record_of_loc m loc_Exact) m 1.
Proof. intros. unfold abs_rec. simpl. rewrite Z.div_1_r, Z.mod_1_r. done. Qed.

Lemma signed_mul (s : bool) m k : (if s then Z.neg m else Z.pos m) * k = if s then - (Z.pos m * k) else Z.pos m * k.
Proof. destruct s; lia. Qed.

Lemma bounded_exp m e : bounded 53 1024 m e = true -> -1074 <= e.
Proof. intros [H _]%bounded_spec. unfold fx in H. lia. Qed.

Lemma nmul_Rounds x y :
  valid x -> valid y -> finite x = true -> finite y = true ->
  Rounds (nmul x y) (V x * V y) (2 ^ 1074).
Proof.
  intros Hx Hy Fx Fy.
  assert (H1074 : 0 < 2 ^ 1074) by (by apply pow2_pos).
  destruct x as [sx|?| |sx mx ex]; try done; destruct y as [sy|?| |sy my ey]; try done.
  - by apply Rounds_zero.
  - by apply Rounds_zero.
  - unfold V at 2. rewrite Z.mul_0_r. by apply Rounds_zero.
  - change (nmul _ _) with (binary_round_aux 53 1024 (xorb sx sy) (Z.pos (mx * my)) (ex + ey) loc_Exact).
    pose proof (bounded_exp _ _ Hx). pose proof (bounded_exp _ _ Hy).
    pose proof (pow2_pos (ex + 1074) ltac:(lia)). pose proof (pow2_pos (ey + 1074) ltac:(lia)).
    set (N' := Z.pos mx * 2 ^ (ex + 1074) * (Z.pos my * 2 ^ (ey + 1074))).
    assert (Hle : ex + ey <= fx (Zdigits2 (Z.pos (mx * my)) + (ex + ey))).
    { simpl Zdigits2. pose proof (digits_spec mx) as [Hmx _]. pose proof (digits_spec my) as [Hmy _].
      assert (Z.pos (digits2_pos mx) - 1 + (Z.pos (digits2_pos my) - 1) < Z.pos (digits2_pos (mx * my))).
      { apply digits_ge; [lia|]. rewrite Z.pow_add_r by lia. rewrite Pos2Z.inj_mul.
        apply Z.mul_le_mono_nonneg; try done; apply Z.pow_nonneg; lia. }
      apply bounded_spec in Hx as [Hx _]. apply bounded_spec in Hy as [Hy _].
      unfold fx in *. lia. }
    destruct (round_aux_mag (xorb sx sy) (Z.pos (mx * my)) (ex + ey) loc_Exact
      (Z.pos (mx * my)) 1 N' (2 ^ 1074)) as (w & Hw & Hr & Hf); try done.
    + by apply abs_exact.
    + set (E := fx _) in *. unfold N'. rewrite Pos2Z.inj_mul.
      assert (-1074 <= E) by (unfold E, fx; lia).
      replace (2 ^ 1074 * 2 ^ (E + 1074)) with (2 ^ (ex + 1074) * 2 ^ (ey + 1074) * 2 ^ (E - (ex + ey))).
      * ring.
      * rewrite <- !Z.pow_add_r by lia. f_equal. lia.
    + replace (V _ * V _) with (if xorb sx sy then - N' else N').
      * eapply Rounds_mag; eauto. unfold N'. nia.
      * unfold N'. simpl V. rewrite !signed_mul. destruct sx, sy; simpl; lia.
Qed.

Lemma iter_xO m k : Z.pos (Pos.iter xO m k) = Z.pos m * 2 ^ Z.pos k.
Proof.
  induction k as [|k IH] using Pos.peano_ind; [simpl; lia|].
  rewrite Pos.iter_succ, Pos2Z.inj_succ, Z.pow_succ_r by lia.
  rewrite Pos2Z.inj_xO, IH. lia.
Qed.

Lemma shl_align_spec m e e' :
  e' <= e -> Z.pos (shl_align m e e').1 = Z.pos m * 2 ^ (e - e') /\ (shl_align m e e').2 = e'.
Proof.
  intros He. unfold shl_align. destruct (e' - e) as [|p|p] eqn:Hd; simpl; try lia.
  - replace (e - e') with 0 by lia. lia.
  - rewrite iter_xO. replace (e - e') with (Z.pos p) by lia. done.
Qed.

Lemma digits_shift m m' k :
  0 <= k -> Z.pos m' = Z.pos m * 2 ^ k -> Z.pos (digits2_pos m') = Z.pos (digits2_pos m) + k.
Proof.
  intros Hk Hm. pose proof (digits_spec m) as [H1 H2]. pose proof (pow2_pos k Hk).
  apply Z.le_antisymm.
  - apply digits_le; [lia|]. rewrite Hm, Z.pow_add_r by lia. nia.
  - assert (Z.pos (digits2_pos m) - 1 + k < Z.pos (digits2_pos m')); [|lia].
    apply digits_ge; [lia|]. rewrite Hm, Z.pow_add_r by lia. nia.
Qed.

Lemma binary_round_Rounds s m e :
  -1074 <= e ->
  Rounds (binary_round 53 1024 s m e) ((if s then Z.neg m else Z.pos m) * 2 ^ (e + 1074)) 1.
Proof.
  intros He. unfold binary_round. rewrite fexp_fx.
  set (E := fx (Z.pos (digits2_pos m) + e)).
  assert (HE : -1074 <= E) by (unfold E, fx; lia).
  pose proof (pow2_pos (e + 1074) ltac:(lia)) as Hp.
  destruct (shl_align m e E) as [mz ez] eqn:Hsh.
  assert (Hz : ez <= e /\ ez <= E /\ Z.pos mz = Z.pos m * 2 ^ (e - ez)).
  { destruct (decide (E <= e)).
    - pose proof (shl_align_spec m e E ltac:(lia)) as [H1 H2]. rewrite Hsh in H1, H2. simpl in *.
      subst ez. done.
    - unfold shl_align in Hsh. destruct (E - e) eqn:?; simplify_eq; try lia.
      rewrite Z.sub_diag. lia. }
  destruct Hz as (Hz1 & Hz2 & Hz3).
  assert (Hd := digits_shift m mz (e - ez) ltac:(lia) Hz3).
  assert (HE' : fx (Zdigits2 (Z.pos mz) + ez) = E) by (simpl Zdigits2; unfold E; f_equal; lia).
  destruct (round_aux_mag s (Z.pos mz) ez loc_Exact (Z.pos mz) 1
    (Z.pos m * 2 ^ (e + 1074)) 1) as (w & Hw & Hr & Hf); try done.
  - by apply abs_exact.
  - rewrite HE'. done.
  - rewrite HE', Hz3, !Z.mul_1_l, <- !Z.mul_assoc. f_equal.
    rewrite <- !Z.pow_add_r by lia. f_equal. lia.
  - rewrite signed_mul. eapply Rounds_mag; eauto; lia.
Qed.

Lemma binary_normalize_Rounds z e s0 :
  -1074 <= e -> Rounds (binary_normalize 53 1024 z e s0) (z * 2 ^ (e + 1074)) 1.
Proof.
  intros He. destruct z as [|p|p]; simpl binary_normalize.
  - by apply Rounds_zero.
  - by apply (binary_round_Rounds false).
  - by apply (binary_round_Rounds true).
Qed.

Lemma V_align s m e ez :
  -1074 <= ez <= e ->
  V (S754_finite s m e) = cond_Zopp s (Z.pos (shl_align m e ez).1) * 2 ^ (ez + 1074).
Proof.
  intros He. destruct (shl_align_spec m e ez) as [-> _]; [lia|].
  simpl V. rewrite signed_mul. rewrite (pow2_split (ez + 1074) (e + 1074)) by lia.
  replace (e + 1074 - (ez + 1074)) with (e - ez) by lia. unfold cond_Zopp. destruct s; lia.
Qed.

Lemma Rounds_self x : valid x -> finite x = true -> Rounds x (V x) 1.
Proof.
  intros Hx Fx. split_and!; [done|by destruct x|]. intros F VF FF.
  rewrite Z.mul_1_r. split; intros; by apply nleb_V.
Qed.

Lemma nadd_Rounds x y :
  valid x -> valid y -> finite x = true -> finite y = true ->
  Rounds (nadd x y) (V x + V y) 1.
Proof.
  intros Hx Hy Fx Fy.
  destruct x as [sx|?| |sx mx ex]; try done; destruct y as [sy|?| |sy my ey]; try done.
  - destruct sx, sy; by apply Rounds_zero.
  - apply (Rounds_self _ Hy Fy).
  - unfold V at 2. rewrite Z.add_0_r. apply (Rounds_self _ Hx Fx).
  - pose proof (bounded_exp _ _ Hx). pose proof (bounded_exp _ _ Hy).
    rewrite (V_align sx mx ex (Z.min ex ey)), (V_align sy my ey (Z.min ex ey)) by lia.
    rewrite <- Z.mul_add_distr_r. apply binary_normalize_Rounds. lia.
Qed.

Lemma nsub_nadd x y : nsub x y = nadd x (nopp y).
Proof.
  destruct x as [[]|[]| |[] ? ?], y as [[]|[]| |[] ? ?]; try reflexivity;
    unfold nsub, nadd; simpl; f_equal; lia.
Qed.

Lemma V_opp x : V (nopp x) = - V x.
Proof. destruct x as [| | |[] ? ?]; simpl; lia. Qed.
Lemma valid_opp x : valid (nopp x) <-> valid x.
Proof. destruct x; done. Qed.
Lemma finite_opp x : finite (nopp x) = finite x.
Proof. destruct x; done. Qed.

Lemma nsub_Rounds x y :
  valid x -> valid y -> finite x = true -> finite y = true ->
  Rounds (nsub x y) (V x - V y) 1.
Proof.
  intros. rewrite nsub_nadd, <- Z.add_opp_r, <- V_opp.
  apply nadd_Rounds; rewrite ?valid_opp, ?finite_opp; done.
Qed.

Lemma new_location_abs N D :
  0 < D -> abs_rec (shr_record_of_loc (N / D) (new_location D (N mod D))) N D.
Proof.
  intros HD. pose proof (Z.mod_pos_bound N D HD). set (k := N mod D) in *.
  unfold abs_rec. fold k. unfold new_location.
  assert (Hodd : Z.even D = false -> 2 * k <> D).
  { intros He Heq. rewrite <- Heq, Z.even_mul in He. done. }
  unfold new_location_even, new_location_odd. clearbody k.
  destruct (Z.even D), (Z.eqb_spec k 0) as [Hk0|Hk0];
    try destruct (Z.compare_spec (2 * k) D); try destruct (Z.compare_spec (2 * k + 1) D);
    destruct (Z.leb_spec D (2 * k)); try destruct (Z.eqb_spec (2 * k) D);
    split_and!; try reflexivity; try lia.
Qed.

Lemma ndiv_Rounds x y :
  valid x -> valid y -> finite x = true -> finite y = true -> V y <> 0 ->
  Rounds (ndiv x y) (Z.sgn (V y) * V x * 2 ^ 1074) (Z.abs (V y)).
Proof.
  intros Hx Hy Fx Fy Hy0.
  assert (H1074 : 0 < 2 ^ 1074) by (by apply pow2_pos).
  destruct y as [sy|?| |sy my ey]; try done. pose proof (pos_val_pos _ _ Hy) as Hyp.
  destruct x as [sx|?| |sx mx ex]; try done.
  { unfold V at 2. rewrite Z.mul_0_r, Z.mul_0_l. apply Rounds_zero. lia. }
  pose proof (bounded_exp _ _ Hx). pose proof (bounded_exp _ _ Hy).
  pose proof (pow2_pos (ex + 1074) ltac:(lia)). pose proof (pow2_pos (ey + 1074) ltac:(lia)).
  pose proof (digits_spec mx) as [Hmx _]. pose proof (digits_spec my) as [_ Hmy].
  set (d1 := Z.pos (digits2_pos mx)) in *. set (d2 := Z.pos (digits2_pos my)) in *.
  set (e' := Z.min (fx (d1 + ex - (d2 + ey))) (ex - ey)).
  set (s := ex - ey - e'). assert (Hs : 0 <= s) by (unfold s, e'; lia).
  set (N := Z.pos mx * 2 ^ s). pose proof (pow2_pos s Hs) as Hps.
  assert (Hcore : ndiv (S754_finite sx mx ex) (S754_finite sy my ey) =
    binary_round_aux 53 1024 (xorb sx sy) (N / Z.pos my) e'
      (new_location (Z.pos my) (N mod Z.pos my))).
  { unfold ndiv, SFdiv, SFdiv_core_binary. rewrite fexp_fx. simpl Zdigits2. fold d1 d2 e' s.
    assert (HN : match s with 0 => Z.pos mx | Z.pos _ => Z.shiftl (Z.pos mx) s | Z.neg _ => 0 end = N).
    { unfold N. destruct s as [|p|p] eqn:E; [lia| |lia]. by rewrite Z.shiftl_mul_pow2 by lia. }
    rewrite HN. unfold Z.div, Z.modulo. by destruct (Z.div_eucl N (Z.pos my)). }
  rewrite Hcore. clear Hcore.
  set (N' := Z.pos mx * 2 ^ (ex + 1074) * 2 ^ 1074).
  assert (Hle : e' <= fx (Zdigits2 (N / Z.pos my) + e')).
  { assert (Hd : d1 + s - d2 <= Zdigits2 (N / Z.pos my)).
    { destruct (decide (0 <= d1 - 1 + s - d2)) as [Hk|]; [|destruct (N / Z.pos my); simpl; lia].
      assert (2 ^ (d1 - 1 + s - d2) <= N / Z.pos my).
      { apply Z.div_le_lower_bound; [lia|]. unfold N.
        apply Z.le_trans with (2 ^ d2 * 2 ^ (d1 - 1 + s - d2)).
        - apply Z.mul_le_mono_nonneg_r; [apply Z.pow_nonneg|]; lia.
        - rewrite <- Z.pow_add_r by lia. replace (d2 + (d1 - 1 + s - d2)) with (d1 - 1 + s) by lia.
          rewrite Z.pow_add_r by lia. apply Z.mul_le_mono_nonneg_r; lia. }
      pose proof (pow2_pos _ Hk). destruct (N / Z.pos my) as [|p|p] eqn:E; try lia.
      simpl Zdigits2. pose proof (digits_ge p (d1 - 1 + s - d2) Hk ltac:(lia)). lia. }
    unfold e' at 1. unfold fx. unfold s in Hd. unfold fx in *. lia. }
  destruct (round_aux_mag (xorb sx sy) (N / Z.pos my) e' (new_location (Z.pos my) (N mod Z.pos my))
    N (Z.pos my) N' (Z.pos my * 2 ^ (ey + 1074))) as (w & Hw & Hr & Hf); try done.
  - unfold N. lia.
  - by apply new_location_abs.
  - set (E := fx (Zdigits2 (N / Z.pos my) + e')) in *.
    assert (HE : -1074 <= E) by (unfold E, fx; lia). clearbody E. unfold N', N.
    replace (Z.pos mx * 2 ^ (ex + 1074) * 2 ^ 1074 * (Z.pos my * 2 ^ (E - e')))
      with (Z.pos mx * Z.pos my * (2 ^ (ex + 1074) * 2 ^ 1074 * 2 ^ (E - e'))) by ring.
    replace (Z.pos mx * 2 ^ s * (Z.pos my * 2 ^ (ey + 1074) * 2 ^ (E + 1074)))
      with (Z.pos mx * Z.pos my * (2 ^ s * 2 ^ (ey + 1074) * 2 ^ (E + 1074))) by ring.
    apply (f_equal (Z.mul (Z.pos mx * Z.pos my))).
    rewrite <- !Z.pow_add_r by lia. apply (f_equal (Z.pow 2)). unfold s. lia.
  - replace (Z.abs _) with (Z.pos my * 2 ^ (ey + 1074)) by (simpl V; destruct sy; lia).
    replace (Z.sgn _ * _ * _) with (if xorb sx sy then - N' else N').
    + eapply Rounds_mag; eauto. unfold N'. lia.
    + unfold N'. simpl V. destruct sx, sy; simpl xorb; rewrite <- ?Pos2Z.opp_pos, ?Z.mul_opp_l,
        ?Z.sgn_opp; rewrite (Z.sgn_pos (Z.pos my * _)) by lia; lia.
Qed.

(** * Facts on the rounded operations

    What the components use of NumFacts.v: a sum with a non-negative operand does
    not go below the other operand, rounding to cents keeps a lot inside its
    clamp. *)
From S2P Require Import Prelude JsNum.
From Stdlib Require Import SpecFloat.
#[local] Transparent nadd nsub nmul ndiv nopp nsqrt nltb nleb neqb of_Z lit Math_round Math_min Math_max.

(** A double that is not NaN and not negative. *)
Definition nonneg (x : num) : bool := nleb (of_Z 0) x.

Lemma nonneg_cases x :
  valid x -> nonneg x = true -> x = Infinity \/ finite x = true /\ 0 <= V x.
Proof.
  intros Hv Hn. destruct x as [s|[]| |[] m e]; try done; [by right|by left|].
  right. split; [done|]. simpl. pose proof (pos_val_pos _ _ Hv). lia.
Qed.

(** [x <= x + y] and [x - y <= x] for [y >= 0]: rounding does not lose it. *)
Lemma nadd_ge x y :
  valid x -> finite x = true -> valid y -> nonneg y = true -> nleb x (nadd x y) = true.
Proof.
  intros Hx Fx Hy Hn. destruct (nonneg_cases y Hy Hn) as [->|[Fy HV]].
  - destruct x as [s|s| |s m e]; try done; by destruct s.
  - destruct (nadd_Rounds x y Hx Hy Fx Fy) as (_ & _ & H).
    apply (H x Hx Fx). lia.
Qed.

Lemma nsub_le x y :
  valid x -> finite x = true -> valid y -> nonneg y = true -> nleb (nsub x y) x = true.
Proof.
  intros Hx Fx Hy Hn. destruct (nonneg_cases y Hy Hn) as [->|[Fy HV]].
  - destruct x as [s|s| |s m e]; try done; by destruct s.
  - destruct (nsub_Rounds x y Hx Hy Fx Fy) as (_ & _ & H).
    apply (H x Hx Fx). lia.
Qed.

Lemma nabs_valid x : valid x -> valid (nabs x).
Proof. by destruct x. Qed.

Lemma nabs_sub_nonneg x y :
  valid x -> valid y -> finite x = true -> finite y = true ->
  valid (nabs (nsub x y)) /\ nonneg (nabs (nsub x y)) = true.
Proof.
  intros Hx Hy Fx Fy. destruct (nsub_Rounds x y Hx Hy Fx Fy) as (Hv & Hn & _).
  split; [by apply nabs_valid|]. by destruct (nsub x y).
Qed.

(** A non-negative number times a positive finite one. *)
Lemma nmul_nonneg x y :
  valid x -> nonneg x = true -> valid y -> finite y = true -> 0 < V y ->
  valid (nmul x y) /\ nonneg (nmul x y) = true.
Proof.
  intros Hx Hn Hy Fy HV. destruct (nonneg_cases x Hx Hn) as [->|[Fx HVx]].
  - destruct y as [s|s| |[] m e]; try done; simpl in HV; pose proof (pos_val_pos _ _ Hy); lia.
  - destruct (nmul_Rounds x y Hx Hy Fx Fy) as (Hv & _ & H). split; [done|].
    apply (H (of_Z 0)); [done|done|]. change (V (of_Z 0)) with 0. nia.
Qed.

(** ** Rounding to cents *)

(** The integer [Math.round] answers, for a number up to 100. *)
Lemma Math_round_finite m e :
  bounded 53 1024 m e = true -> nleb (S754_finite false m e) (of_Z 100) = true ->
  let n := (2 * Z.pos m + 2 ^ (- e)) / 2 ^ (- e + 1) in
  0 <= n <= 100 /\ (nleb (of_Z 1) (S754_finite false m e) = true -> 1 <= n) /\
  Math_round (S754_finite false m e) = of_Z n.
Proof.
  intros Hv Hu n. assert (HF : finite (S754_finite false m e) = true) by done.
  apply nleb_V in Hu; [|done..]. change (V (of_Z 100)) with (100 * 2 ^ 1074) in Hu.
  simpl V in Hu. pose proof (bounded_exp _ _ Hv) as He.
  assert (He0 : e < 0).
  { destruct (decide (e < 0)) as [|He0]; [done|exfalso].
    apply bounded_spec in Hv as [Hb _]. unfold fx in Hb.
    pose proof (digits_spec m) as [Hm _].
    assert (Hd : Z.pos (digits2_pos m) = 53) by lia. rewrite Hd in Hm.
    change (2 ^ (53 - 1)) with 4503599627370496 in Hm.
    rewrite Z.pow_add_r in Hu by lia.
    pose proof (pow2_pos e ltac:(lia)). pose proof (pow2_pos 1074 ltac:(lia)). nia. }
  assert (HA : 2 ^ 1074 = 2 ^ (- e) * 2 ^ (e + 1074)) by (rewrite <- Z.pow_add_r by lia; f_equal; lia).
  pose proof (pow2_pos (e + 1074) ltac:(lia)) as Hp. pose proof (pow2_pos (- e) ltac:(lia)) as Hq.
  rewrite HA in Hu. assert (Hm2 : Z.pos m <= 100 * 2 ^ (- e)) by nia.
  assert (H2 : 2 ^ (- e + 1) = 2 * 2 ^ (- e)) by (rewrite Z.pow_add_r by lia; lia).
  assert (Hn : 0 <= n <= 100).
  { unfold n. rewrite H2. split; [apply Z.div_pos; lia|]. apply Z.lt_succ_r, Z.div_lt_upper_bound; lia. }
  split_and!; [lia|lia|..].
  - intros Hl. apply nleb_V in Hl; [|done..]. change (V (of_Z 1)) with (2 ^ 1074) in Hl.
    simpl V in Hl. rewrite HA in Hl. unfold n. rewrite H2. apply Z.div_le_lower_bound; nia.
  - unfold Math_round. destruct (Z.leb_spec 0 e); [lia|]. fold n.
    destruct (Z.eqb_spec n 0) as [->|]; done.
Qed.

Lemma Math_round_range x :
  valid x -> nleb (of_Z 1) x = true -> nleb x (of_Z 100) = true ->
  exists n, 1 <= n <= 100 /\ Math_round x = of_Z n.
Proof.
  intros Hv Hl Hu. destruct x as [[]|[]| |[] m e]; try done.
  destruct (Math_round_finite m e Hv Hu) as (H1 & H2 & H3). eexists. split; [|exact H3].
  specialize (H2 Hl). lia.
Qed.

(** From 0: the answer compares equal to an integer (it may be [-0]). *)
Lemma Math_round_percent x :
  nonneg x = true -> valid x -> nleb x (of_Z 100) = true ->
  exists n, 0 <= n <= 100 /\ neqb (Math_round x) (of_Z n) = true.
Proof.
  intros Hl Hv Hu. destruct x as [[]|[]| |[] m e]; try done; try by (exists 0).
  destruct (Math_round_finite m e Hv Hu) as (H1 & H2 & H3). eexists. split; [exact H1|].
  rewrite H3. apply neqb_refl. destruct (binary_normalize_Rounds ((2 * Z.pos m + 2 ^ (- e)) / 2 ^ (- e + 1)) 0 false ltac:(lia)) as (_ & Hn & _). exact Hn.
Qed.

(** The cents a lot can hold. *)
Definition cents (n : Z) : num := ndiv (of_Z n) (of_Z 100).

Lemma round2_clamped x :
  valid x -> nleb (lit 1 2) x = true -> nleb x (of_Z 1) = true ->
  exists n, 1 <= n <= 100 /\ ndiv (Math_round (nmul x (of_Z 100))) (of_Z 100) = cents n.
Proof.
  intros Hv Hl Hu.
  assert (HF : finite x = true) by (destruct x as [[]|[]| |[] m e]; done).
  destruct (nmul_Rounds x (of_Z 100) Hv eq_refl HF eq_refl) as (Hr & _ & H).
  apply nleb_V in Hl; [|done..]. apply nleb_V in Hu; [|done..].
  destruct (Math_round_range (nmul x (of_Z 100))) as (n & Hn & ->); [done|..].
  - apply (H (of_Z 1)); [done|done|]. change (V (of_Z 100)) with (100 * V (of_Z 1)).
    assert (2 ^ 1074 <= V (lit 1 2) * 100) by (by vm_compute). 
    assert (0 < V (of_Z 1)) by (by vm_compute). nia.
  - apply (H (of_Z 100)); [done|done|]. change (2 ^ 1074) with (V (of_Z 1)).
    assert (0 < V (of_Z 100)) by (by vm_compute). nia.
  - by exists n.
Qed.

(** Every such lot is a number in [0.01, 1]. *)
Lemma cents_range n : 1 <= n <= 100 ->
  nleb (lit 1 2) (cents n) = true /\ nleb (cents n) (of_Z 1) = true.
Proof.
  intros Hn.
  assert (Hall : forallb (fun k => nleb (lit 1 2) (cents k) && nleb (cents k) (of_Z 1)) (up_from 1 100) = true)
    by (vm_compute; reflexivity).
  rewrite forallb_forall in Hall. specialize (Hall n).
  rewrite andb_true_iff in Hall. apply Hall. apply list_elem_of_In. by apply elem_of_up_from.
Qed.

Lemma Math_min_spec x y : is_nan x = false -> is_nan y = false ->
  (Math_min x y = x \/ Math_min x y = y) /\
  nleb (Math_min x y) x = true /\ nleb (Math_min x y) y = true.
Proof.
  intros Hx Hy. unfold Math_min. rewrite Hx, Hy. simpl orb. cbv iota.
  destruct (nltb x y) eqn:E1; [|destruct (nltb y x) eqn:E2].
  - split_and!; [by left|num_order|num_order].
  - split_and!; [by right|num_order|num_order].
  - destruct x as [[]|[]| |[] ? ?]; (split_and!; [eauto|num_order|num_order]).
Qed.

Lemma Math_max_spec x y : is_nan x = false -> is_nan y = false ->
  (Math_max x y = x \/ Math_max x y = y) /\
  nleb x (Math_max x y) = true /\ nleb y (Math_max x y) = true.
Proof.
  intros Hx Hy. unfold Math_max. rewrite Hx, Hy. simpl orb. cbv iota.
  destruct (nltb x y) eqn:E1; [|destruct (nltb y x) eqn:E2].
  - split_and!; [by right|num_order|num_order].
  - split_and!; [by left|num_order|num_order].
  - destruct x as [[]|[]| |[] ? ?]; (split_and!; [eauto|num_order|num_order]).
Qed.

(** [Math.max(lo, Math.min(hi, x))] of a number that is not NaN. *)
Lemma clamp_range lo hi x :
  nleb lo hi = true -> is_nan x = false -> valid lo -> valid hi -> valid x ->
  let y := Math_max lo (Math_min hi x) in
  valid y /\ nleb lo y = true /\ nleb y hi = true.
Proof.
  intros Hlh Hx Vl Vh Vx y. pose proof (nleb_not_nan _ _ Hlh) as [Hl Hh].
  destruct (Math_min_spec hi x Hh Hx) as (Hm & Hm1 & Hm2).
  pose proof (nleb_not_nan _ _ Hm1) as [Hn _].
  destruct (Math_max_spec lo (Math_min hi x) Hl Hn) as (Hy & Hy1 & Hy2).
  fold y in Hy, Hy1, Hy2. split_and!; [|done|].
  - destruct Hy as [->| ->]; [done|]. by destruct Hm as [->| ->].
  - destruct Hy as [->| ->]; done.
Qed.

(** ** Signs *)
Lemma nsub_nonneg x y :
  valid x -> valid y -> finite x = true -> finite y = true -> nleb y x = true ->
  valid (nsub x y) /\ nonneg (nsub x y) = true.
Proof.
  intros Hx Hy Fx Fy Hle. destruct (nsub_Rounds x y Hx Hy Fx Fy) as (Hv & _ & H). split; [done|].
  apply (H (of_Z 0)); [done|done|]. apply nleb_V in Hle; [|done..].
  change (V (of_Z 0)) with 0. lia.
Qed.

Lemma Math_round_nonneg x :
  valid x -> nonneg x = true -> valid (Math_round x) /\ nonneg (Math_round x) = true.
Proof.
  intros Hv Hn. destruct x as [s|s| |[] m e]; try done. unfold Math_round.
  case_match; [done|]. cbv zeta. case_match; [done|].
  set (n := _ / _). assert (0 <= n).
  { pose proof (pow2_pos (- e) ltac:(lia)). pose proof (pow2_pos (- e + 1) ltac:(lia)).
    apply Z.div_pos; lia. }
  destruct (binary_normalize_Rounds n 0 false ltac:(lia)) as (Hr & _ & Hf). split; [done|].
  apply (Hf (of_Z 0)); [done|done|]. change (V (of_Z 0)) with 0.
  pose proof (pow2_pos (0 + 1074) ltac:(lia)). nia.
Qed.

Lemma ndiv_nonneg x y :
  valid x -> nonneg x = true -> valid y -> finite y = true -> 0 < V y ->
  valid (ndiv x y) /\ nonneg (ndiv x y) = true.
Proof.
  intros Hx Hn Hy Fy HV. destruct (nonneg_cases x Hx Hn) as [->|[Fx HVx]].
  - destruct y as [s|s| |[] m e]; try done; simpl in HV; pose proof (pos_val_pos _ _ Hy); lia.
  - destruct (ndiv_Rounds x y Hx Hy Fx Fy ltac:(lia)) as (Hv & _ & H). split; [done|].
    apply (H (of_Z 0)); [done|done|]. change (V (of_Z 0)) with 0.
    rewrite Z.sgn_pos by done. pose proof (pow2_pos 1074 ltac:(lia)). nia.
Qed.

(** [x - 0] for a number that is not negative. *)
Lemma nsub_zero x : valid x -> nonneg x = true ->
  valid (nsub x (of_Z 0)) /\ nonneg (nsub x (of_Z 0)) = true.
Proof.
  intros Hx Hn. destruct (nonneg_cases x Hx Hn) as [->|[Fx HV]]; [done|].
  apply nsub_nonneg; done.
Qed.

Lemma nltb_V x y : valid x -> valid y -> finite x = true -> finite y = true ->
  nltb x y = true -> V x < V y.
Proof.
  intros Hx Hy Fx Fy H. apply nltb_not_nleb in H. 
  destruct (Z.lt_ge_cases (V x) (V y)) as [|Hge]; [done|].
  apply (nleb_V y x) in Hge; [congruence|done..].
Qed.

Lemma nsub_nonpos x y :
  valid x -> valid y -> finite x = true -> finite y = true -> nleb x y = true ->
  valid (nsub x y) /\ nleb (nsub x y) (of_Z 0) = true.
Proof.
  intros Hx Hy Fx Fy Hle. destruct (nsub_Rounds x y Hx Hy Fx Fy) as (Hv & _ & H). split; [done|].
  apply (H (of_Z 0)); [done|done|]. apply nleb_V in Hle; [|done..].
  change (V (of_Z 0)) with 0. lia.
Qed.

Lemma nmul_neg_one x :
  valid x -> nleb x (of_Z 0) = true ->
  valid (nmul x (of_Z (-1))) /\ nonneg (nmul x (of_Z (-1))) = true.
Proof.
  intros Hv Hn. destruct (finite x) eqn:Fx.
  - destruct (nmul_Rounds x (of_Z (-1)) Hv eq_refl Fx eq_refl) as (Hr & _ & H). split; [done|].
    apply (H (of_Z 0)); [done|done|]. apply nleb_V in Hn; [|done..].
    change (V (of_Z 0)) with 0 in *. change (V (of_Z (-1))) with (- 2 ^ 1074).
    pose proof (pow2_pos 1074 ltac:(lia)). nia.
  - by destruct x as [|[]| |].
Qed.

(** Rounding to cents keeps the sign. *)
Lemma round2_nonneg x : valid x -> nonneg x = true ->
  nonneg (ndiv (Math_round (nmul x (of_Z 100))) (of_Z 100)) = true.
Proof.
  intros Hx Hn.
  assert (H100 : valid (of_Z 100) /\ finite (of_Z 100) = true /\ 0 < V (of_Z 100)) by (by vm_compute).
  destruct H100 as (H1 & H2 & H3).
  destruct (nmul_nonneg x (of_Z 100) Hx Hn H1 H2 H3) as [V1 N1].
  destruct (Math_round_nonneg _ V1 N1) as [V2 N2].
  exact (proj2 (ndiv_nonneg _ (of_Z 100) V2 N2 H1 H2 H3)).
Qed.
