(* ===== verification/JsDate.v ===== *)
(** * JavaScript dates

    The part of [Date] and of ISO strings the program uses.  A time value is the
    number of milliseconds since 1970-01-01T00:00:00Z; [None] is the NaN time
    value of an invalid date.  The local-time methods ([getDay], [setDate], ...)
    use the offset of the process' time zone, [local_offset]: the container
    images of the repository (docker/Dockerfile.nestjs, node:20-alpine, no TZ)
    run in UTC, offset 0. *)
From S2P Require Import Prelude.
From Stdlib Require Import Ascii.
Open Scope list_scope.

Definition ms_day : Z := 86400000.
Definition ms_hour : Z := 3600000.
Definition local_offset : Z := 0.

(** ** The proleptic Gregorian calendar *)

(** Days since 1970-01-01 of year [y], month [m] (1-12), day [d]; a day past the
    end of the month rolls over. *)
Definition days_from_civil (y m d : Z) : Z :=
  let y' := if m <=? 2 then y - 1 else y in
  let era := y' / 400 in
  let yoe := y' - era * 400 in
  let mp := if 2 <? m then m - 3 else m + 9 in
  let doy := (153 * mp + 2) / 5 + d - 1 in
  let doe := yoe * 365 + yoe / 4 - yoe / 100 + doy in
  era * 146097 + doe - 719468.

Definition civil_from_days (z0 : Z) : Z * Z * Z :=
  let z := z0 + 719468 in
  let era := z / 146097 in
  let doe := z - era * 146097 in
  let yoe := (doe - doe / 1460 + doe / 36524 - doe / 146096) / 365 in
  let doy := doe - (365 * yoe + yoe / 4 - yoe / 100) in
  let mp := (5 * doy + 2) / 153 in
  let d := doy - (153 * mp + 2) / 5 + 1 in
  let m := if mp <? 10 then mp + 3 else mp - 9 in
  let y := yoe + era * 400 + (if m <=? 2 then 1 else 0) in
  (y, m, d).

(** ** Reading a date string

    The ECMAScript date-time format: [YYYY-MM-DD] (UTC midnight) or
    [YYYY-MM-DDTHH:mm[:ss[.sss]]] followed by [Z], an offset, or nothing (local
    time).  Any other string is an invalid date here; engines may accept more
    (implementation-defined), the program only builds ISO strings. *)
Definition digit (c : ascii) : option Z :=
  let n := Z.of_N (N_of_ascii c) - 48 in
  if (0 <=? n) && (n <=? 9) then Some n else None.

Fixpoint digits (acc : Z) (l : list ascii) : option Z :=
  match l with
  | [] => Some acc
  | c :: l' => match digit c with Some d => digits (10 * acc + d) l' | None => None end
  end.

Definition in_range (lo hi : Z) (o : option Z) : option Z :=
  match o with Some n => if (lo <=? n) && (n <=? hi) then Some n else None | None => None end.

(** [Z], [+hh:mm], [-hh:mm] or nothing: the milliseconds to subtract. *)
Definition parse_zone (l : list ascii) : option Z :=
  match l with
  | [] => Some local_offset
  | ["Z"%char] => Some 0
  | [sg; h1; h2; ":"%char; n1; n2] =>
      h ← in_range 0 23 (digits 0 [h1; h2]);
      n ← in_range 0 59 (digits 0 [n1; n2]);
      let off := (h * 60 + n) * 60000 in
      if Ascii.eqb sg "+" then Some off
      else if Ascii.eqb sg "-" then Some (- off) else None
  | _ => None
  end.

(** The milliseconds of a fraction, digits past the third dropped. *)
Fixpoint parse_frac (scale acc : Z) (l : list ascii) : Z * list ascii :=
  match l with
  | c :: l' => match digit c with
               | Some d => parse_frac (scale / 10) (acc + d * scale) l'
               | None => (acc, l)
               end
  | [] => (acc, [])
  end.

Definition parse_seconds (l : list ascii) : option (Z * list ascii) :=
  match l with
  | ":"%char :: s1 :: s2 :: l' =>
      s ← in_range 0 59 (digits 0 [s1; s2]);
      match l' with
      | "."%char :: c :: l'' =>
          _ ← digit c;
          let '(ms, rest) := parse_frac 100 0 (c :: l'') in
          Some (s * 1000 + ms, rest)
      | _ => Some (s * 1000, l')
      end
  | _ => Some (0, l)
  end.

Definition parse_clock (l : list ascii) : option Z :=
  match l with
  | h1 :: h2 :: ":"%char :: n1 :: n2 :: l' =>
      h ← in_range 0 24 (digits 0 [h1; h2]);
      n ← in_range 0 59 (digits 0 [n1; n2]);
      '(ms, rest) ← parse_seconds l';
      off ← parse_zone rest;
      let t := (h * 60 + n) * 60000 + ms in
      if t <=? ms_day then Some (t - off) else None
  | _ => None
  end.

(** [Date.parse(s)], [new Date(s).getTime()] *)
Definition Date_parse (s : string) : option Z :=
  match String.list_ascii_of_string s with
  | y1 :: y2 :: y3 :: y4 :: "-"%char :: m1 :: m2 :: "-"%char :: d1 :: d2 :: l =>
      y ← digits 0 [y1; y2; y3; y4];
      m ← in_range 1 12 (digits 0 [m1; m2]);
      d ← in_range 1 31 (digits 0 [d1; d2]);
      let day := days_from_civil y m d * ms_day in
      match l with
      | [] => Some day
      | "T"%char :: l' => t ← parse_clock l'; Some (day + t)
      | _ => None
      end
  | _ => None
  end.

(** ** Fields *)
Definition day_of (t : Z) : Z := t / ms_day.
Definition getUTCHours (t : Z) : Z := (t / ms_hour) mod 24.
(** 0 = Sunday *)
Definition getUTCDay (t : Z) : Z := (day_of t + 4) mod 7.
Definition getDay (t : Z) : Z := getUTCDay (t + local_offset).
Definition getFullYear (t : Z) : Z := (civil_from_days (day_of (t + local_offset))).1.1.
(** [d.setDate(d.getDate() + n)], [d.setUTCDate(d.getUTCDate() + n)]: [n] days on. *)
Definition addDays (n t : Z) : Z := t + n * ms_day.
(** [d.setUTCHours(h, 0, 0, 0)] *)
Definition setUTCHours0 (h t : Z) : Z := day_of t * ms_day + h * ms_hour.
(** [new Date(y, 0, 1)] (local midnight) and [Date.UTC(y, m0, d)]. *)
Definition year_start (y : Z) : Z := days_from_civil y 1 1 * ms_day - local_offset.
Definition Date_UTC (y m0 d : Z) : Z := days_from_civil y (m0 + 1) d * ms_day.

(** ** Writing *)
Definition digit_char (n : Z) : ascii := ascii_of_N (Z.to_N (48 + n mod 10)).

(** [n] as [w] decimal digits, zero-padded. *)
Fixpoint padded (w : nat) (n : Z) : list ascii :=
  match w with
  | O => []
  | S w' => padded w' (n / 10) ++ [digit_char n]
  end.

Definition iso_year (y : Z) : list ascii :=
  if (0 <=? y) && (y <=? 9999) then padded 4 y
  else (if y <? 0 then "-"%char else "+"%char) :: padded 6 (Z.abs y).

Definition iso_date (t : Z) : list ascii :=
  let '(y, m, d) := civil_from_days (day_of t) in
  iso_year y ++ ["-"%char] ++ padded 2 m ++ ["-"%char] ++ padded 2 d.

(** [d.toISOString()] *)
Definition toISOString (t : Z) : string :=
  let r := t mod ms_day in
  String.string_of_list_ascii
    (iso_date t ++ ["T"%char] ++ padded 2 (r / ms_hour) ++ [":"%char]
     ++ padded 2 (r / 60000 mod 60) ++ [":"%char] ++ padded 2 (r / 1000 mod 60)
     ++ ["."%char] ++ padded 3 (r mod 1000) ++ ["Z"%char]).

(** [s.substring(0, 10)] *)
Definition substring10 (s : string) : string := String.substring 0 10 s.

(** [a < b] on strings (code units, that is ASCII here). *)
Definition str_lt (a b : string) : bool := String.ltb a b.

(** [String(n)] for an integer. *)
Fixpoint dec_digits (fuel : nat) (n : Z) (acc : list ascii) : list ascii :=
  match fuel with
  | O => acc
  | S f => let acc' := digit_char n :: acc in
           if n <? 10 then acc' else dec_digits f (n / 10) acc'
  end.
Definition dec_nat (n : Z) : list ascii := dec_digits (S (Z.to_nat (Z.log2 n))) n [].
Definition dec_string (n : Z) : string :=
  String.string_of_list_ascii (if n <? 0 then "-"%char :: dec_nat (- n) else dec_nat n).

(** ** Comparisons of time values: false as soon as one is NaN *)
Definition tv_le (a b : option Z) : bool :=
  match a, b with Some x, Some y => x <=? y | _, _ => false end.
Definition tv_lt (a b : option Z) : bool :=
  match a, b with Some x, Some y => x <? y | _, _ => false end.

Example parse_ex1 : Date_parse "2024-03-10" = Some 1710028800000.
Proof. reflexivity. Qed.
Example parse_ex2 : Date_parse "2024-03-10T13:45:30.250Z" = Some 1710078330250.
Proof. reflexivity. Qed.
Example iso_ex : toISOString 1710078330250 = "2024-03-10T13:45:30.250Z"%string.
Proof. reflexivity. Qed.
Example day_ex : getUTCDay 1710078330250 = 0.
Proof. reflexivity. Qed.
Example dec_ex : dec_string (-1203) = "-1203"%string /\ dec_string 0 = "0"%string.
Proof. done. Qed.

(** ** Facts *)
Lemma str_lt_trans a b c : str_lt a b = true -> str_lt b c = true -> str_lt a c = true.
Proof.
  unfold str_lt, String.ltb. revert b c.
  induction a as [|x a IH]; intros [|y b] [|z c]; simpl; try done.
  unfold Ascii.compare.
  destruct (N.compare_spec (N_of_ascii x) (N_of_ascii y)),
           (N.compare_spec (N_of_ascii y) (N_of_ascii z)),
           (N.compare_spec (N_of_ascii x) (N_of_ascii z)); try done; try lia; eauto.
Qed.

Lemma str_lt_irrefl a : str_lt a a = false.
Proof.
  unfold str_lt, String.ltb. induction a as [|x a IH]; simpl; [done|].
  unfold Ascii.compare. by rewrite N.compare_refl.
Qed.

Lemma getUTCHours_range t : 0 <= getUTCHours t < 24.
Proof. unfold getUTCHours. apply Z.mod_pos_bound. lia. Qed.

Lemma getUTCDay_range t : 0 <= getUTCDay t < 7.
Proof. unfold getUTCDay. apply Z.mod_pos_bound. lia. Qed.

Lemma day_of_addDays n t : day_of (addDays n t) = day_of t + n.
Proof. unfold day_of, addDays, ms_day. rewrite Z.div_add by lia. lia. Qed.

Lemma addDays_addDays n m t : addDays n (addDays m t) = addDays (n + m) t.
Proof. unfold addDays. lia. Qed.

(** * JavaScript strings

    The string methods the live services use, on ASCII text. *)
From S2P Require Import Prelude.
From Stdlib Require Import Ascii.
Definition in_code (lo hi : N) (c : ascii) : bool :=
  (lo <=? N_of_ascii c)%N && (N_of_ascii c <=? hi)%N.

Definition upper_char (c : ascii) : ascii :=
  if in_code 97 122 c then ascii_of_N (N_of_ascii c - 32) else c.
Definition lower_char (c : ascii) : ascii :=
  if in_code 65 90 c then ascii_of_N (N_of_ascii c + 32) else c.

Definition map_string (f : ascii -> ascii) (s : string) : string :=
  String.string_of_list_ascii (f <$> String.list_ascii_of_string s).
Definition toUpperCase : string -> string := map_string upper_char.
Definition toLowerCase : string -> string := map_string lower_char.

(** [s.trim()]: white space is tab, line feed, vertical tab, form feed, carriage return,
    space and the no-break space. *)
Definition is_space (c : ascii) : bool :=
  in_code 9 13 c || in_code 32 32 c || in_code 160 160 c.
Fixpoint drop_spaces (l : list ascii) : list ascii :=
  match l with c :: l' => if is_space c then drop_spaces l' else l | [] => [] end.
Definition trim (s : string) : string :=
  String.string_of_list_ascii (reverse (drop_spaces (reverse (drop_spaces (String.list_ascii_of_string s))))).

(** [s.split(',')] *)
Fixpoint split_on (sep : ascii) (acc : list ascii) (l : list ascii) : list string :=
  match l with
  | [] => [String.string_of_list_ascii (reverse acc)]
  | c :: l' => if Ascii.eqb c sep then String.string_of_list_ascii (reverse acc) :: split_on sep [] l'
               else split_on sep (c :: acc) l'
  end.
Definition split_comma (s : string) : list string := split_on ","%char [] (String.list_ascii_of_string s).

(** [s.includes(sub)] *)
Definition includes (sub s : string) : bool :=
  match String.index 0 sub s with Some _ => true | None => false end.
(** [s.startsWith(pre)] *)
Definition startsWith (pre s : string) : bool := String.prefix pre s.

(** [/^\d+$/.test(s)], and then [Number(s)] *)
Definition all_digits (s : string) : option Z :=
  match String.list_ascii_of_string s with [] => None | l => digits 0 l end.

(** [s.slice(0, n)] *)
Definition slice0 (n : nat) (s : string) : string := String.substring 0 n s.

(** [new Date(t)]: a time value beyond 100,000,000 days is NaN. *)
Definition TimeClip (t : Z) : option Z := if Z.abs t <=? 8640000000000000 then Some t else None.

(** [o ?? d] and truthiness of a string. *)
Definition truthy_string (s : string) : bool := negb (String.eqb s "").

Example upper_ex : toUpperCase "Sl_hit" = "SL_HIT"%string /\ includes "STOP" "SL/STOP_OUT" = true
  /\ includes "TP" "SL" = false /\ all_digits "1710" = Some 1710 /\ all_digits "17x" = None.
Proof. repeat split; reflexivity. Qed.
