(* ===== verification/Types.v ===== *)
(** * Data types of the engine

    src/backtest/engine/types.ts, src/backtest/engine/smc/types.ts and the signal
    types of src/strategy/live/smc-live-evaluator.ts.  Interfaces are records,
    string unions are inductive types, an optional field is an [option]. *)
From Stdlib Require Import SpecFloat.
From S2P Require Import Prelude JsNum JsDate.

(** ** Unions *)
Inductive Side := BUY | SELL.
Inductive D1Bias := BULLISH | BEARISH | NEUTRAL.
Inductive TradingMode := AGGRESSIVE | NORMAL | DEFENSIVE.
Inductive DetailedRegime := STRONG_TREND | WEAK_TREND | RANGING | VOLATILE | TRANSITIONING.
Inductive EngineType := TREND_PULLBACK | FVG_FILL | RANGE_ENGINE | BB_REVERSAL | SMC.
Inductive ExitReason := SL | TP | BREAKEVEN | FORCED_CLOSE.
Inductive SmcMode := REVERSAL | CONTINUATION.
Inductive AnchorType := PDH | PDL | ASIAN_H | ASIAN_L | WEEKLY_H | WEEKLY_L.

#[export] Instance Side_eq_dec : EqDecision Side.
Proof. solve_decision. Defined.
#[export] Instance D1Bias_eq_dec : EqDecision D1Bias.
Proof. solve_decision. Defined.
#[export] Instance TradingMode_eq_dec : EqDecision TradingMode.
Proof. solve_decision. Defined.
#[export] Instance EngineType_eq_dec : EqDecision EngineType.
Proof. solve_decision. Defined.
#[export] Instance ExitReason_eq_dec : EqDecision ExitReason.
Proof. solve_decision. Defined.
#[export] Instance SmcMode_eq_dec : EqDecision SmcMode.
Proof. solve_decision. Defined.

#[export] Instance EngineType_countable : Countable EngineType.
Proof.
  refine (inj_countable'
    (fun e => match e with TREND_PULLBACK => 0%nat | FVG_FILL => 1%nat
              | RANGE_ENGINE => 2%nat | BB_REVERSAL => 3%nat | SMC => 4%nat end)
    (fun n => match n with 0%nat => TREND_PULLBACK | 1%nat => FVG_FILL
              | 2%nat => RANGE_ENGINE | 3%nat => BB_REVERSAL | _ => SMC end) _).
  by intros [].
Defined.

(** The strings the program compares or prints for the unions. *)
Definition side_string (s : Side) : string := match s with BUY => "BUY" | SELL => "SELL" end.
Definition mode_string (m : SmcMode) : string :=
  match m with REVERSAL => "REVERSAL" | CONTINUATION => "CONTINUATION" end.
Definition bias_string (b : D1Bias) : string :=
  match b with BULLISH => "BULLISH" | BEARISH => "BEARISH" | NEUTRAL => "NEUTRAL" end.

(** [isSmcV2] *)
Definition isSmcV2 (v : option string) : bool :=
  match v with
  | Some s => bool_decide (s = "GIDEON"%string) || bool_decide (s = "SMC-V2"%string)
              || bool_decide (s = "V6-alt"%string)
  | None => false
  end.

(** ** Market data *)
Record BacktestCandle := {
  c_symbol : string;
  timeframe : string;
  openTime : string;
  open : num;
  high : num;
  low : num;
  close : num;
  volume : num;
}.

Record IndicatorState := {
  ema20 : list num;
  ema50 : list num;
  ema200 : list num;
  rsi14 : list num;
  atr14 : list num;
  adx14 : list num;
  plusDI14 : list num;
  minusDI14 : list num;
  atrBaseline : list num;
}.

(** [new Date(c.openTime).getTime()] *)
Definition candle_ms (c : BacktestCandle) : option Z := Date_parse (openTime c).

(** An indicator read used only through [isNaN] and comparisons: [undefined]
    behaves there as NaN does. *)
Definition ind (l : list num) (i : Z) : num := default NaN (zlookup l i).

(** ** Trades *)
Record RegimeTradeParams := {
  trendTpR : num;
  fvgTpR : num;
  beThresholdR : num;
  tpRemovalR : num;
  slClampMaxAtr : num;
  trailWidthMult : option num;
}.

Record SimulatedPosition := {
  side : Side;
  entryPrice : num;
  slPrice : num;
  tpPrice : option num;
  originalSlPrice : num;
  breakevenActivated : bool;
  peakFavorablePrice : num;
  lotSize : num;
  entryTime : string;
  entryIndex : Z;
  setupTags : list string;
  h1Bias : string;
  rsiAtEntry : num;
  atrAtEntry : num;
  trailConfig : option RegimeTradeParams;
  regimeAtEntry : option DetailedRegime;
}.

Record ClosedTrade := {
  ct_side : Side;
  ct_entryPrice : num;
  exitPrice : num;
  ct_slPrice : num;
  ct_tpPrice : option num;
  ct_lotSize : num;
  pnl : num;
  commission : num;
  ct_setupTags : list string;
  ct_entryTime : string;
  exitTime : string;
  exitReason : ExitReason;
  ct_h1Bias : string;
  ct_rsiAtEntry : num;
  ct_atrAtEntry : num;
  rMultiple : option num;
  ct_regimeAtEntry : option DetailedRegime;
  engineType : option EngineType;
}.

Record EngineConfig := {
  symbol : string;
  initialBalance : num;
  riskPercent : num;
  maxDailyLossPercent : num;
  maxConsecutiveLosses : Z;
  maxOpenPositions : Z;
}.

(** ** SMC setups and per-pair configuration *)
Record PendingSetup := {
  direction : Side;
  sweepLevel : num;
  sweepWick : num;
  sweepMid : num;
  sweepCandleAtr : num;
  sweepCandleHigh : num;
  sweepCandleLow : num;
  detectedAtH1Idx : Z;
  expiresAtH1Idx : Z;
  mode : SmcMode;
  sweepTime : string;
  anchorType : option AnchorType;
}.

Record ConvictionSizing := { tightRatio : num; tightMult : num; looseMult : num }.

Record SmcPairConfig := {
  cfg_symbol : string;
  sweepBufferAtr : num;
  slBufferAtrM15 : num;
  setupExpiryH1Bars : Z;
  atrSpikeLimit : num;
  trendingD1Adx : num;
  d1AdxFloor : num;
  recentSwingLookbackH1 : Z;
  slCooldownBars : Z;
  killzones : list (Z * Z);
  disableContinuation : option bool;
  skipEntryDows : option (list Z);
  maxSlSweepRatio : option num;
  convictionSizing : option ConvictionSizing;
  tp1PartialFraction : num;
  tp1R : num;
  tp2R : num;
  disabledModes : option (list SmcMode);
  autoModeFilter : option bool;
  useAnchorSweeps : option bool;
  anchorDisplacementAtr : option num;
  newsBlackoutMinutes : option Z;
  maxSlAtrM15 : option num;
  useFvgGate : option bool;
  fvgGateMaxDistanceAtr : option num;
  fvgGateMinHeightAtr : option num;
  useObGate : option bool;
  obGateDisplacementAtrMult : option num;
  obGateMaxDistanceAtr : option num;
  useBosGate : option bool;
  bosGateSwingLookback : option Z;
  useObOriginGate : option bool;
  obOriginLookback : option Z;
  obOriginDisplacementAtr : option num;
  useImpulseFvgGate : option bool;
  impulseFvgLookback : option Z;
  useBosOriginGate : option bool;
  bosOriginLookback : option Z;
}.

(** [if (cfg.flag)] *)
Definition flag (o : option bool) : bool := default false o.

(** ** Signals *)
Record SmcLiveSignalLeg := {
  leg_lotSize : num;
  leg_tpPrice : num;
  leg_setupTags : list string;
}.

Record GateZone := { gz_top : num; gz_bottom : num; gz_candleTime : string; gz_isBullish : bool }.
Record GateBos := { gb_level : num; gb_brokenAtTime : string }.

Record SmcContext := {
  ctx_anchorType : option AnchorType;
  sweptLevel : num;
  sweptHigh : num;
  sweptLow : num;
  sweepCandleTime : string;
  ctx_d1Bias : D1Bias;
  ctx_fvg : option GateZone;
  ctx_ob : option GateZone;
  ctx_bos : option GateBos;
  ctx_obOrigin : option GateZone;
  ctx_impulseFvg : option GateZone;
  ctx_bosOrigin : option GateBos;
}.

Record SmcLiveSignal := {
  sig_symbol : string;
  sig_side : Side;
  sig_entryPrice : num;
  sig_slPrice : num;
  sig_tpPrice : num;
  totalLot : num;
  legs : list SmcLiveSignalLeg;
  sig_mode : SmcMode;
  h1SweepTime : string;
  reason : string;
  smcContext : option SmcContext;
}.

(** ** Symbols *)

(** [symbol.endsWith('JPY')] *)
Definition ends_with_JPY (s : string) : bool :=
  let n := String.length s in
  if (n <? 3)%nat then false else String.eqb (String.substring (n - 3) 3 s) "JPY".

(** [Math.round(x * 100) / 100] *)
Definition round2 (x : num) : num := (Math_round (x * of_Z 100) / of_Z 100)%num.

(** [x.toFixed(d)] for [|x| < 10^21]: the decimal with [d] digits nearest to [x], the larger
    one on a tie. *)
Definition toFixed (d : nat) (x : num) : string :=
  let p := 10 ^ Z.of_nat d in
  let body n := dec_string (n / p) +:+ "." +:+ String.string_of_list_ascii (padded d (n mod p)) in
  match x with
  | S754_nan => "NaN"
  | S754_infinity s => if s then "-Infinity" else "Infinity"
  | S754_zero _ => body 0
  | S754_finite s m e =>
      let n := if 0 <=? e then p * Z.pos m * 2 ^ e else (2 * p * Z.pos m + 2 ^ (- e)) / 2 ^ (- e + 1) in
      if s then "-" +:+ body n else body n
  end.
Definition toFixed1 : num -> string := toFixed 1.
Definition toFixed2 : num -> string := toFixed 2.

Example toFixed1_ex : toFixed1 (lit 2275 2) = "22.8"%string /\ toFixed1 (of_Z 18) = "18.0"%string /\ toFixed2 (lit (-5) 3) = "-0.01"%string.
Proof. repeat split; vm_compute; reflexivity. Qed.

(** The integer a number is. *)
Definition int_of (x : num) : Z :=
  match x with
  | S754_finite s m e => let n := if 0 <=? e then Z.pos m * 2 ^ e else Z.pos m / 2 ^ (- e) in if s then - n else n
  | _ => 0
  end.

(** [String(x)] of a number of at most fifteen significant digits, [10^-6 <= |x| < 10^15]:
    the shortest decimal that reads back as [x]. *)
Fixpoint shortest (fuel p : nat) (x : num) : string :=
  let scaled := Math_round (x * of_Z (10 ^ Z.of_nat p)%Z)%num in
  match fuel with
  | O => "NaN"
  | S fuel =>
      if (scaled / of_Z (10 ^ Z.of_nat p)%Z =? x)%num then
        let n := int_of scaled in
        let frac := String.string_of_list_ascii (padded p (n mod 10 ^ Z.of_nat p)) in
        dec_string (n / 10 ^ Z.of_nat p) +:+ (if (p =? 0)%nat then "" else "." +:+ frac)
      else shortest fuel (S p) x
  end.
Definition num_string (x : num) : string :=
  if (x <? of_Z 0)%num then "-" +:+ shortest 22 0 (nopp x) else shortest 22 0 x.
Example num_string_ex : num_string (of_Z 18) = "18"%string /\ num_string (lit (-25) 1) = "-2.5"%string.
Proof. split; vm_compute; reflexivity. Qed.
