(* ===== verification/Instruments.v ===== *)
(** * Instruments, spreads, pair configurations, news calendar

    src/backtest/engine/instrument-config.ts, spread-model.ts, news-calendar.ts,
    smc/trail-config.ts and smc/pairs/. *)
From S2P Require Import Prelude JsNum JsDate Types.
From Stdlib Require Import Ascii.
Open Scope list_scope.

(** ** Instrument registry *)
Record Spreads := {
  londonNyOverlap : num; london : num; nyExtended : num; asian : num; offHours : num }.

Record InstrumentConfig := {
  lotSizeUnits : num;
  commissionPerLot : num;
  minAtr : num;
  pricePrecision : Z;
  spreads : Spreads;
}.

(** [registry[key]] on an object literal. *)
Fixpoint assoc {A} (l : list (string * A)) (k : string) : option A :=
  match l with
  | [] => None
  | (k', a) :: l' => if String.eqb k' k then Some a else assoc l' k
  end.

(** A row of the table: the spreads are [m / 10^d]. *)
Definition spreads_of (d a b c e f : Z) : Spreads :=
  {| londonNyOverlap := lit a d; london := lit b d; nyExtended := lit c d;
     asian := lit e d; offHours := lit f d |}.

Definition INSTRUMENT_CONFIGS : list (string * InstrumentConfig) := [
  ("XAUUSD"%string, {| lotSizeUnits := of_Z 100; commissionPerLot := of_Z 7; minAtr := lit 35 1;
     pricePrecision := 2; spreads := spreads_of 2 20 25 30 50 40 |});
  ("GBPUSD"%string, {| lotSizeUnits := of_Z 100000; commissionPerLot := of_Z 7; minAtr := lit 20 4;
     pricePrecision := 5; spreads := spreads_of 5 20 25 30 50 40 |});
  ("EURUSD"%string, {| lotSizeUnits := of_Z 100000; commissionPerLot := of_Z 7; minAtr := lit 18 4;
     pricePrecision := 5; spreads := spreads_of 5 15 20 25 45 35 |});
  ("USDJPY"%string, {| lotSizeUnits := of_Z 100000; commissionPerLot := of_Z 7; minAtr := lit 15 2;
     pricePrecision := 3; spreads := spreads_of 3 15 20 25 40 30 |});
  ("AUDUSD"%string, {| lotSizeUnits := of_Z 100000; commissionPerLot := of_Z 7; minAtr := lit 15 4;
     pricePrecision := 5; spreads := spreads_of 5 18 25 30 35 40 |});
  ("USDCAD"%string, {| lotSizeUnits := of_Z 100000; commissionPerLot := of_Z 7; minAtr := lit 15 4;
     pricePrecision := 5; spreads := spreads_of 5 20 30 25 60 45 |});
  ("EURJPY"%string, {| lotSizeUnits := of_Z 100000; commissionPerLot := of_Z 7; minAtr := lit 20 2;
     pricePrecision := 3; spreads := spreads_of 3 20 25 30 45 40 |});
  ("US30"%string, {| lotSizeUnits := of_Z 1; commissionPerLot := of_Z 0; minAtr := of_Z 30;
     pricePrecision := 1; spreads := spreads_of 1 24 36 24 80 48 |});
  ("NAS100"%string, {| lotSizeUnits := of_Z 1; commissionPerLot := of_Z 0; minAtr := of_Z 20;
     pricePrecision := 1; spreads := spreads_of 1 10 19 10 40 19 |})].

Definition getInstrumentConfig (sym : string) : Res InstrumentConfig :=
  match assoc INSTRUMENT_CONFIGS sym with
  | Some c => Ok c
  | None => Throw ("Unknown instrument: " +:+ sym +:+ ". Supported: "
                   +:+ String.concat ", " (map fst INSTRUMENT_CONFIGS))
  end.

(** [Math.pow(10, precision)], exact at the precisions of the table. *)
Definition price_factor (c : InstrumentConfig) : num := of_Z (10 ^ pricePrecision c).

(** ** Spread by time of day *)
Definition getSpread (sym openTime : string) : Res num :=
  (c <-! getInstrumentConfig sym ;;
   let s := spreads c in
   match Date_parse openTime with
   | None => Ok (offHours s)   (* NaN hour: every comparison fails *)
   | Some t =>
       let hour := getUTCHours t in
       Ok (if (12 <=? hour) && (hour <=? 15) then londonNyOverlap s
           else if (7 <=? hour) && (hour <=? 11) then london s
           else if (16 <=? hour) && (hour <=? 17) then nyExtended s
           else if (22 <=? hour) || (hour <=? 6) then asian s
           else offHours s)
   end)%js.

(** ** Trail presets of the two legs *)
Definition SMC_TP1_TRAIL : RegimeTradeParams := {|
  trendTpR := lit 8 1; fvgTpR := lit 8 1; beThresholdR := lit 6 1;
  tpRemovalR := of_Z 0; slClampMaxAtr := of_Z 3; trailWidthMult := None |}.

Definition SMC_RUNNER_TRAIL : RegimeTradeParams := {|
  trendTpR := of_Z 4; fvgTpR := lit 8 1; beThresholdR := lit 15 1;
  tpRemovalR := of_Z 3; slClampMaxAtr := of_Z 4; trailWidthMult := None |}.

(** ** SMC pair configurations *)
Definition XAUUSD_SMC_CONFIG : SmcPairConfig := {|
  cfg_symbol := "XAUUSD"; sweepBufferAtr := lit 10 2; slBufferAtrM15 := lit 20 2;
  setupExpiryH1Bars := 8; atrSpikeLimit := lit 25 1; trendingD1Adx := of_Z 22;
  d1AdxFloor := of_Z 18; recentSwingLookbackH1 := 24; slCooldownBars := 4;
  killzones := [(6, 12); (12, 18)];
  disableContinuation := None; skipEntryDows := None;
  maxSlSweepRatio := Some (lit 5 1); convictionSizing := None;
  tp1PartialFraction := lit 30 2; tp1R := lit 8 1; tp2R := of_Z 4;
  disabledModes := None; autoModeFilter := Some true; useAnchorSweeps := Some true;
  anchorDisplacementAtr := Some (of_Z 0); newsBlackoutMinutes := None;
  maxSlAtrM15 := Some (of_Z 2);
  useFvgGate := None; fvgGateMaxDistanceAtr := None; fvgGateMinHeightAtr := None;
  useObGate := None; obGateDisplacementAtrMult := None; obGateMaxDistanceAtr := None;
  useBosGate := None; bosGateSwingLookback := None;
  useObOriginGate := None; obOriginLookback := None; obOriginDisplacementAtr := None;
  useImpulseFvgGate := None; impulseFvgLookback := None;
  useBosOriginGate := None; bosOriginLookback := None |}.

Definition EURUSD_SMC_CONFIG : SmcPairConfig := {|
  cfg_symbol := "EURUSD"; sweepBufferAtr := lit 25 2; slBufferAtrM15 := lit 30 2;
  setupExpiryH1Bars := 12; atrSpikeLimit := of_Z 2; trendingD1Adx := of_Z 22;
  d1AdxFloor := of_Z 10; recentSwingLookbackH1 := 32; slCooldownBars := 6;
  killzones := [(7, 11); (13, 17)];
  disableContinuation := None; skipEntryDows := None;
  maxSlSweepRatio := Some (lit 5 1); convictionSizing := None;
  tp1PartialFraction := lit 30 2; tp1R := lit 8 1; tp2R := lit 35 1;
  disabledModes := None; autoModeFilter := Some true; useAnchorSweeps := Some true;
  anchorDisplacementAtr := Some (of_Z 0); newsBlackoutMinutes := Some 15;
  maxSlAtrM15 := None;
  useFvgGate := None; fvgGateMaxDistanceAtr := None; fvgGateMinHeightAtr := None;
  useObGate := None; obGateDisplacementAtrMult := None; obGateMaxDistanceAtr := None;
  useBosGate := None; bosGateSwingLookback := None;
  useObOriginGate := None; obOriginLookback := None; obOriginDisplacementAtr := None;
  useImpulseFvgGate := None; impulseFvgLookback := None;
  useBosOriginGate := None; bosOriginLookback := None |}.

Definition GBPUSD_SMC_CONFIG : SmcPairConfig := {|
  cfg_symbol := "GBPUSD"; sweepBufferAtr := lit 25 2; slBufferAtrM15 := lit 30 2;
  setupExpiryH1Bars := 10; atrSpikeLimit := lit 22 1; trendingD1Adx := of_Z 22;
  d1AdxFloor := of_Z 10; recentSwingLookbackH1 := 28; slCooldownBars := 6;
  killzones := [(7, 11); (13, 17)];
  disableContinuation := None; skipEntryDows := None;
  maxSlSweepRatio := Some (lit 5 1); convictionSizing := None;
  tp1PartialFraction := lit 30 2; tp1R := lit 8 1; tp2R := lit 35 1;
  disabledModes := None; autoModeFilter := Some true; useAnchorSweeps := Some true;
  anchorDisplacementAtr := Some (of_Z 0); newsBlackoutMinutes := Some 15;
  maxSlAtrM15 := None;
  useFvgGate := None; fvgGateMaxDistanceAtr := None; fvgGateMinHeightAtr := None;
  useObGate := None; obGateDisplacementAtrMult := None; obGateMaxDistanceAtr := None;
  useBosGate := None; bosGateSwingLookback := None;
  useObOriginGate := None; obOriginLookback := None; obOriginDisplacementAtr := None;
  useImpulseFvgGate := None; impulseFvgLookback := None;
  useBosOriginGate := None; bosOriginLookback := None |}.

Definition USDJPY_SMC_CONFIG : SmcPairConfig := {|
  cfg_symbol := "USDJPY"; sweepBufferAtr := lit 25 2; slBufferAtrM15 := lit 30 2;
  setupExpiryH1Bars := 10; atrSpikeLimit := lit 35 1; trendingD1Adx := of_Z 22;
  d1AdxFloor := of_Z 10; recentSwingLookbackH1 := 28; slCooldownBars := 6;
  killzones := [(0, 3); (7, 11); (13, 17)];
  disableContinuation := None; skipEntryDows := None;
  maxSlSweepRatio := Some (lit 5 1); convictionSizing := None;
  tp1PartialFraction := lit 30 2; tp1R := lit 8 1; tp2R := lit 35 1;
  disabledModes := None; autoModeFilter := Some true; useAnchorSweeps := Some true;
  anchorDisplacementAtr := Some (of_Z 0); newsBlackoutMinutes := Some 15;
  maxSlAtrM15 := None;
  useFvgGate := None; fvgGateMaxDistanceAtr := None; fvgGateMinHeightAtr := None;
  useObGate := None; obGateDisplacementAtrMult := None; obGateMaxDistanceAtr := None;
  useBosGate := None; bosGateSwingLookback := None;
  useObOriginGate := None; obOriginLookback := None; obOriginDisplacementAtr := None;
  useImpulseFvgGate := None; impulseFvgLookback := None;
  useBosOriginGate := None; bosOriginLookback := None |}.

(** [{ ...cfg, symbol }] *)
Definition with_symbol (s : string) (c : SmcPairConfig) : SmcPairConfig := {|
  cfg_symbol := s; sweepBufferAtr := sweepBufferAtr c; slBufferAtrM15 := slBufferAtrM15 c;
  setupExpiryH1Bars := setupExpiryH1Bars c; atrSpikeLimit := atrSpikeLimit c;
  trendingD1Adx := trendingD1Adx c; d1AdxFloor := d1AdxFloor c;
  recentSwingLookbackH1 := recentSwingLookbackH1 c; slCooldownBars := slCooldownBars c;
  killzones := killzones c; disableContinuation := disableContinuation c;
  skipEntryDows := skipEntryDows c; maxSlSweepRatio := maxSlSweepRatio c;
  convictionSizing := convictionSizing c; tp1PartialFraction := tp1PartialFraction c;
  tp1R := tp1R c; tp2R := tp2R c; disabledModes := disabledModes c;
  autoModeFilter := autoModeFilter c; useAnchorSweeps := useAnchorSweeps c;
  anchorDisplacementAtr := anchorDisplacementAtr c;
  newsBlackoutMinutes := newsBlackoutMinutes c; maxSlAtrM15 := maxSlAtrM15 c;
  useFvgGate := useFvgGate c; fvgGateMaxDistanceAtr := fvgGateMaxDistanceAtr c;
  fvgGateMinHeightAtr := fvgGateMinHeightAtr c; useObGate := useObGate c;
  obGateDisplacementAtrMult := obGateDisplacementAtrMult c;
  obGateMaxDistanceAtr := obGateMaxDistanceAtr c; useBosGate := useBosGate c;
  bosGateSwingLookback := bosGateSwingLookback c; useObOriginGate := useObOriginGate c;
  obOriginLookback := obOriginLookback c; obOriginDisplacementAtr := obOriginDisplacementAtr c;
  useImpulseFvgGate := useImpulseFvgGate c; impulseFvgLookback := impulseFvgLookback c;
  useBosOriginGate := useBosOriginGate c; bosOriginLookback := bosOriginLookback c |}.

Definition AUDUSD_SMC_CONFIG : SmcPairConfig := with_symbol "AUDUSD" GBPUSD_SMC_CONFIG.
Definition USDCAD_SMC_CONFIG : SmcPairConfig := with_symbol "USDCAD" GBPUSD_SMC_CONFIG.
Definition EURJPY_SMC_CONFIG : SmcPairConfig := with_symbol "EURJPY" USDJPY_SMC_CONFIG.

Definition SMC_PAIR_REGISTRY : list (string * SmcPairConfig) := [
  ("XAUUSD"%string, XAUUSD_SMC_CONFIG); ("EURUSD"%string, EURUSD_SMC_CONFIG);
  ("GBPUSD"%string, GBPUSD_SMC_CONFIG); ("USDJPY"%string, USDJPY_SMC_CONFIG);
  ("AUDUSD"%string, AUDUSD_SMC_CONFIG); ("USDCAD"%string, USDCAD_SMC_CONFIG);
  ("EURJPY"%string, EURJPY_SMC_CONFIG)].

(** [s.toUpperCase()] on ASCII. *)
Definition upper_char (c : ascii) : ascii :=
  let n := N_of_ascii c in
  if (97 <=? n)%N && (n <=? 122)%N then ascii_of_N (n - 32) else c.
Fixpoint toUpperCase (s : string) : string :=
  match s with
  | String.EmptyString => String.EmptyString
  | String.String c s' => String.String (upper_char c) (toUpperCase s')
  end.

(** The module-level [overrides] table: a [Partial<SmcPairConfig>] is the update
    that spreading it over a configuration performs. *)
Definition Partial := SmcPairConfig -> SmcPairConfig.
Definition Overrides := gmap string Partial.

(** [overrides[SYM] = { ...overrides[SYM], ...partial }] *)
Definition setSmcPairConfigOverride (sym : string) (partial : Partial) (ov : Overrides) : Overrides :=
  let k := toUpperCase sym in
  <[k := match ov !! k with Some p => fun c => partial (p c) | None => partial end]> ov.

Definition clearSmcPairConfigOverrides (ov : Overrides) : Overrides := ∅.

Definition getSmcPairConfig (ov : Overrides) (sym : string) : Res SmcPairConfig :=
  let k := toUpperCase sym in
  match assoc SMC_PAIR_REGISTRY k with
  | None => Throw ("No SMC pair config for " +:+ sym +:+ ". Available: "
                   +:+ String.concat ", " (map fst SMC_PAIR_REGISTRY) +:+ ". "
                   +:+ "Add a config file in src/backtest/engine/smc/pairs/ and register it in pairs/index.ts.")
  | Some cfg => Ok (match ov !! k with Some p => p cfg | None => cfg end)
  end.
