(* ===== verification/NewsCalendar.v ===== *)
(** * News blackout calendar

    src/backtest/engine/news-calendar.ts: the event table built when the module
    loads, and the binary search [isInBlackout] over its sorted times. *)
From S2P Require Import Prelude JsNum JsDate Types.
From Stdlib Require Import Ascii.
Open Scope list_scope.

Definition FOMC_DATES_UTC : list string := [
  "2023-02-01T19:00:00Z"; "2023-03-22T18:00:00Z"; "2023-05-03T18:00:00Z";
  "2023-06-14T18:00:00Z"; "2023-07-26T18:00:00Z"; "2023-09-20T18:00:00Z";
  "2023-11-01T18:00:00Z"; "2023-12-13T19:00:00Z"; "2024-01-31T19:00:00Z";
  "2024-03-20T18:00:00Z"; "2024-05-01T18:00:00Z"; "2024-06-12T18:00:00Z";
  "2024-07-31T18:00:00Z"; "2024-09-18T18:00:00Z"; "2024-11-07T19:00:00Z";
  "2024-12-18T19:00:00Z"; "2025-01-29T19:00:00Z"; "2025-03-19T18:00:00Z";
  "2025-05-07T18:00:00Z"; "2025-06-18T18:00:00Z"; "2025-07-30T18:00:00Z";
  "2025-09-17T18:00:00Z"; "2025-10-29T18:00:00Z"; "2025-12-10T19:00:00Z";
  "2026-01-28T19:00:00Z"; "2026-03-18T18:00:00Z"; "2026-04-29T18:00:00Z";
  "2026-06-17T18:00:00Z"; "2026-07-29T18:00:00Z"; "2026-09-16T18:00:00Z";
  "2026-11-04T19:00:00Z"; "2026-12-16T19:00:00Z"]%string.

Definition ECB_DATES_UTC : list string := [
  "2023-02-02T13:15:00Z"; "2023-03-16T13:15:00Z"; "2023-05-04T12:15:00Z";
  "2023-06-15T12:15:00Z"; "2023-07-27T12:15:00Z"; "2023-09-14T12:15:00Z";
  "2023-10-26T12:15:00Z"; "2023-12-14T13:15:00Z"; "2024-01-25T13:15:00Z";
  "2024-03-07T13:15:00Z"; "2024-04-11T12:15:00Z"; "2024-06-06T12:15:00Z";
  "2024-07-18T12:15:00Z"; "2024-09-12T12:15:00Z"; "2024-10-17T12:15:00Z";
  "2024-12-12T13:15:00Z"; "2025-01-30T13:15:00Z"; "2025-03-06T13:15:00Z";
  "2025-04-17T12:15:00Z"; "2025-06-05T12:15:00Z"; "2025-07-24T12:15:00Z";
  "2025-09-11T12:15:00Z"; "2025-10-30T13:15:00Z"; "2025-12-18T13:15:00Z";
  "2026-01-29T13:15:00Z"; "2026-03-12T13:15:00Z"; "2026-04-23T12:15:00Z";
  "2026-06-11T12:15:00Z"; "2026-07-23T12:15:00Z"; "2026-09-10T12:15:00Z";
  "2026-10-29T13:15:00Z"; "2026-12-17T13:15:00Z"]%string.

Record NewsEvent := { time : string; title : string; currency : string }.

Definition firstFridayOfMonth (year month0 : Z) : Z :=
  let d := Date_UTC year month0 1 in
  let offset := (5 - getUTCDay d + 7) mod 7 in
  Date_UTC year month0 (1 + offset).

(** NFP and CPI of one month, in the order they are pushed. *)
Definition month_events (y m : Z) : list NewsEvent :=
  let nfp := setUTCHours0 12 (firstFridayOfMonth y m) + 30 * 60000 in
  let cpi := Date_UTC y m 12 + 12 * ms_hour + 30 * 60000 in
  [{| time := toISOString nfp; title := "NFP — US Non-Farm Payrolls"; currency := "USD" |};
   {| time := toISOString cpi; title := "US CPI"; currency := "USD" |}].

Definition generatePatternEvents (startYear endYear : Z) : list NewsEvent :=
  flat_map (fun y => flat_map (month_events y) (up_from 0 11)) (up_from startYear endYear).

(** [a.time.localeCompare(b.time) <= 0]: the times agree on the layout of their
    first 19 characters, so the collation is the order of the characters there,
    and two times equal there are the same instant. *)
Definition time_le (a b : NewsEvent) : bool := String.leb (time a) (time b).

Definition ALL_EVENTS : list NewsEvent :=
  sort_by time_le
    (generatePatternEvents 2023 2026
     ++ map (fun t => {| time := t; title := "FOMC Rate Decision"; currency := "USD" |}) FOMC_DATES_UTC
     ++ map (fun t => {| time := t; title := "ECB Rate Decision"; currency := "EUR" |}) ECB_DATES_UTC).

Definition EVENT_TIMES_MS : list Z := map (fun e => default 0 (Date_parse (time e))) ALL_EVENTS.

(** The [while (lo <= hi)] loop of [isInBlackout]; the fuel bounds the number of
    halvings (see [blackout_loop_spec]). *)
Fixpoint blackout_loop (fuel : nat) (times : list Z) (t window lo hi : Z) : bool :=
  match fuel with
  | O => false
  | S f =>
      if lo <=? hi then
        let mid := (lo + hi) / 2 in
        match zlookup times mid with
        | None => false
        | Some et =>
            if Z.abs (et - t) <=? window then true
            else if et <? t then blackout_loop f times t window (mid + 1) hi
            else blackout_loop f times t window lo (mid - 1)
        end
      else false
  end.

Definition isInBlackout (utcTime : string) (windowMinutes : Z) : bool :=
  match Date_parse utcTime with
  | None => false
  | Some t => blackout_loop (S (length EVENT_TIMES_MS)) EVENT_TIMES_MS t
                (windowMinutes * 60 * 1000) 0 (zlen EVENT_TIMES_MS - 1)
  end.

(** ** The search is exact *)
Section search.
Context (times : list Z) (t window : Z).
Hypothesis times_sorted :
  forall i j x y, i <= j -> zlookup times i = Some x -> zlookup times j = Some y -> x <= y.

(** Some event of [times[lo..hi]] lies in the window. *)
Definition hit (lo hi : Z) : Prop :=
  exists i et, lo <= i <= hi /\ zlookup times i = Some et /\ Z.abs (et - t) <= window.

Lemma hit_right lo mid hi et :
  lo <= mid <= hi -> zlookup times mid = Some et -> window < Z.abs (et - t) -> et < t ->
  hit lo hi <-> hit (mid + 1) hi.
Proof.
  intros Hmid Het Hw Hlt. split; intros (i & x & Hi & Hx & Hd); exists i, x.
  - split_and!; try done; [|lia]. destruct (decide (mid + 1 <= i)); [done|].
    assert (x <= et) by (eapply times_sorted; [|exact Hx|exact Het]; lia). lia.
  - split_and!; try done; lia.
Qed.

Lemma hit_left lo mid hi et :
  lo <= mid <= hi -> zlookup times mid = Some et -> window < Z.abs (et - t) -> t <= et ->
  hit lo hi <-> hit lo (mid - 1).
Proof.
  intros Hmid Het Hw Hlt. split; intros (i & x & Hi & Hx & Hd); exists i, x.
  - split_and!; try done; [lia|]. destruct (decide (i <= mid - 1)); [done|].
    assert (et <= x) by (eapply times_sorted; [|exact Het|exact Hx]; lia). lia.
  - split_and!; try done; lia.
Qed.

Lemma blackout_loop_spec fuel lo hi :
  0 <= lo -> hi < zlen times -> (Z.to_nat (hi - lo + 1) < fuel)%nat ->
  blackout_loop fuel times t window lo hi = true <-> hit lo hi.
Proof.
  revert lo hi. induction fuel as [|f IH]; intros lo hi Hlo Hhi Hf; [lia|]. simpl.
  destruct (Z.leb_spec lo hi) as [Hle|Hgt].
  2:{ split; [done|]. intros (i & x & ? & _). lia. }
  assert (Hmid : lo <= (lo + hi) / 2 <= hi).
  { split; [apply Z.div_le_lower_bound|apply Z.div_le_upper_bound]; lia. }
  destruct (zlookup_is_Some times ((lo + hi) / 2)) as [et Het]; [lia|]. rewrite Het.
  destruct (Z.leb_spec (Z.abs (et - t)) window) as [Hin|Hout].
  { split; [|done]. intros _. exists ((lo + hi) / 2), et. done. }
  destruct (Z.ltb_spec et t) as [Hlt|Hge].
  - rewrite IH by lia. symmetry. eapply hit_right; done.
  - rewrite IH by lia. symmetry. eapply hit_left; done.
Qed.
End search.

Fixpoint nondecreasing (l : list Z) : bool :=
  match l with
  | x :: ((y :: _) as l') => (x <=? y) && nondecreasing l'
  | _ => true
  end.

Lemma nondecreasing_sorted l : nondecreasing l = true -> StronglySorted Z.le l.
Proof.
  intros Hnd. apply Sorted.Sorted_StronglySorted; [intros ???; lia|].
  induction l as [|x [|y l] IH]; [constructor|repeat constructor|].
  simpl in Hnd. bool_hyps. constructor; [by apply IH|]. by constructor.
Qed.

Lemma nondecreasing_lookup l :
  nondecreasing l = true ->
  forall i j x y, i <= j -> zlookup l i = Some x -> zlookup l j = Some y -> x <= y.
Proof.
  intros Hs%nondecreasing_sorted. intros i j x y Hij Hi Hj.
  pose proof (zlookup_Some _ _ _ Hi). pose proof (zlookup_Some _ _ _ Hj).
  replace i with (Z.of_nat (Z.to_nat i)) in Hi by lia.
  replace j with (Z.of_nat (Z.to_nat j)) in Hj by lia.
  rewrite zlookup_nth in Hi, Hj.
  destruct (decide (i = j)) as [->|]; [simplify_eq; lia|].
  eapply (StronglySorted_lookup Z.le); [exact Hs|exact Hi|exact Hj|lia].
Qed.

Lemma search_exact times t window :
  nondecreasing times = true ->
  blackout_loop (S (length times)) times t window 0 (zlen times - 1) = true <->
  exists et, et ∈ times /\ Z.abs (et - t) <= window.
Proof.
  intros Hs. rewrite blackout_loop_spec.
  - split.
    + intros (i & et & Hi & Hl & Hd). exists et. split; [|done].
      replace i with (Z.of_nat (Z.to_nat i)) in Hl by lia. rewrite zlookup_nth in Hl.
      by eapply list_elem_of_lookup_2.
    + intros (et & (i & Hi)%list_elem_of_lookup & Hd).
      exists (Z.of_nat i), et. rewrite zlookup_nth. split_and!; try done; [lia|].
      apply lookup_lt_Some in Hi. unfold zlen. lia.
  - by apply nondecreasing_lookup.
  - lia.
  - lia.
  - unfold zlen. lia.
Qed.

Lemma events_sorted : nondecreasing EVENT_TIMES_MS = true.
Proof. vm_compute. reflexivity. Qed.

(** The bar-time blackout test answers exactly whether a scheduled event lies within the
    window: the binary search never misses one, although it probes only
    logarithmically many. *)
Theorem isInBlackout_exact (utcTime : string) (windowMinutes t : Z) :
  Date_parse utcTime = Some t ->
  isInBlackout utcTime windowMinutes = true <->
  exists et, et ∈ EVENT_TIMES_MS /\ Z.abs (et - t) <= windowMinutes * 60 * 1000.
Proof.
  intros Hp. unfold isInBlackout. rewrite Hp. apply search_exact, events_sorted.
Qed.

Lemma isInBlackout_exact_witness :
  Date_parse "2024-06-12T18:10:00.000Z" = Some 1718215800000 /\
  (isInBlackout "2024-06-12T18:10:00.000Z" 15 = true <->
   exists et, et ∈ EVENT_TIMES_MS /\ Z.abs (et - 1718215800000) <= 15 * 60 * 1000).
Proof.
  assert (Hp : Date_parse "2024-06-12T18:10:00.000Z" = Some 1718215800000) by reflexivity.
  exact (conj Hp (isInBlackout_exact _ 15 _ Hp)).
Defined.
