(* ===== verification/RiskManager.v ===== *)
(** * RiskManager

    src/backtest/engine/risk-manager.ts.  The class is the record [RiskManager];
    each method is a function of it.  [canTrade] and [recordTrade] change the
    object and may throw (an invalid date reaches [toISOString]): they are in the
    monad [M], which keeps the mutations made before the throw. *)
From Stdlib Require Import SpecFloat.
From S2P Require Import Prelude JsNum JsDate Types Instruments.
Local Open Scope num_scope.

Definition WEEKLY_DD_THRESHOLD : num := of_Z 8.
Definition WEEKLY_DD_PAUSE_DAYS : Z := 5.
Definition TRADE_LOG_KEEP : nat := 30.
Definition HARD_KILL_DD_PERCENT : num := of_Z 40.

Record BacktestRiskState := {
  balance : num;
  equity : num;
  dailyPnl : num;
  consecutiveLosses : Z;
  consecutiveWins : Z;
  lastTradeDate : option string;
}.

Record TradeLogEntry := { date : string; tl_pnl : num; isLoss : bool }.

(** [currentWeekNumber] is [None] when it is NaN (a week of an invalid date). *)
Record RiskManager := {
  config : EngineConfig;
  rm_lotSizeUnits : num;
  state : BacktestRiskState;
  weeklyPeakEquity : num;
  currentWeekNumber : option Z;
  pauseUntilDate : option string;
  consecutiveLossPauseUntil : option string;
  awaitingPostPauseTrade : bool;
  overallPeakEquity : num;
  tradeLog : list TradeLogEntry;
  equityDdPauseUntil : option string;
  lastDdTierTriggered : Z;
  rolling7DayPauseUntil : option string;
  hardKilled : bool;
}.

(** Field assignments. *)
Definition set_state (v : BacktestRiskState) (r : RiskManager) : RiskManager :=
  {| config := config r; rm_lotSizeUnits := rm_lotSizeUnits r; state := v;
     weeklyPeakEquity := weeklyPeakEquity r; currentWeekNumber := currentWeekNumber r;
     pauseUntilDate := pauseUntilDate r;
     consecutiveLossPauseUntil := consecutiveLossPauseUntil r;
     awaitingPostPauseTrade := awaitingPostPauseTrade r;
     overallPeakEquity := overallPeakEquity r; tradeLog := tradeLog r;
     equityDdPauseUntil := equityDdPauseUntil r;
     lastDdTierTriggered := lastDdTierTriggered r;
     rolling7DayPauseUntil := rolling7DayPauseUntil r; hardKilled := hardKilled r |}.
Definition set_weeklyPeakEquity (v : num) (r : RiskManager) : RiskManager :=
  {| config := config r; rm_lotSizeUnits := rm_lotSizeUnits r; state := state r;
     weeklyPeakEquity := v; currentWeekNumber := currentWeekNumber r;
     pauseUntilDate := pauseUntilDate r;
     consecutiveLossPauseUntil := consecutiveLossPauseUntil r;
     awaitingPostPauseTrade := awaitingPostPauseTrade r;
     overallPeakEquity := overallPeakEquity r; tradeLog := tradeLog r;
     equityDdPauseUntil := equityDdPauseUntil r;
     lastDdTierTriggered := lastDdTierTriggered r;
     rolling7DayPauseUntil := rolling7DayPauseUntil r; hardKilled := hardKilled r |}.
Definition set_pauseUntilDate (v : option string) (r : RiskManager) : RiskManager :=
  {| config := config r; rm_lotSizeUnits := rm_lotSizeUnits r; state := state r;
     weeklyPeakEquity := weeklyPeakEquity r; currentWeekNumber := currentWeekNumber r;
     pauseUntilDate := v; consecutiveLossPauseUntil := consecutiveLossPauseUntil r;
     awaitingPostPauseTrade := awaitingPostPauseTrade r;
     overallPeakEquity := overallPeakEquity r; tradeLog := tradeLog r;
     equityDdPauseUntil := equityDdPauseUntil r;
     lastDdTierTriggered := lastDdTierTriggered r;
     rolling7DayPauseUntil := rolling7DayPauseUntil r; hardKilled := hardKilled r |}.
Definition set_consecutiveLossPauseUntil (v : option string) (r : RiskManager) : RiskManager :=
  {| config := config r; rm_lotSizeUnits := rm_lotSizeUnits r; state := state r;
     weeklyPeakEquity := weeklyPeakEquity r; currentWeekNumber := currentWeekNumber r;
     pauseUntilDate := pauseUntilDate r; consecutiveLossPauseUntil := v;
     awaitingPostPauseTrade := awaitingPostPauseTrade r;
     overallPeakEquity := overallPeakEquity r; tradeLog := tradeLog r;
     equityDdPauseUntil := equityDdPauseUntil r;
     lastDdTierTriggered := lastDdTierTriggered r;
     rolling7DayPauseUntil := rolling7DayPauseUntil r; hardKilled := hardKilled r |}.
Definition set_awaitingPostPauseTrade (v : bool) (r : RiskManager) : RiskManager :=
  {| config := config r; rm_lotSizeUnits := rm_lotSizeUnits r; state := state r;
     weeklyPeakEquity := weeklyPeakEquity r; currentWeekNumber := currentWeekNumber r;
     pauseUntilDate := pauseUntilDate r;
     consecutiveLossPauseUntil := consecutiveLossPauseUntil r;
     awaitingPostPauseTrade := v; overallPeakEquity := overallPeakEquity r;
     tradeLog := tradeLog r; equityDdPauseUntil := equityDdPauseUntil r;
     lastDdTierTriggered := lastDdTierTriggered r;
     rolling7DayPauseUntil := rolling7DayPauseUntil r; hardKilled := hardKilled r |}.
Definition set_overallPeakEquity (v : num) (r : RiskManager) : RiskManager :=
  {| config := config r; rm_lotSizeUnits := rm_lotSizeUnits r; state := state r;
     weeklyPeakEquity := weeklyPeakEquity r; currentWeekNumber := currentWeekNumber r;
     pauseUntilDate := pauseUntilDate r;
     consecutiveLossPauseUntil := consecutiveLossPauseUntil r;
     awaitingPostPauseTrade := awaitingPostPauseTrade r; overallPeakEquity := v;
     tradeLog := tradeLog r; equityDdPauseUntil := equityDdPauseUntil r;
     lastDdTierTriggered := lastDdTierTriggered r;
     rolling7DayPauseUntil := rolling7DayPauseUntil r; hardKilled := hardKilled r |}.
Definition set_tradeLog (v : list TradeLogEntry) (r : RiskManager) : RiskManager :=
  {| config := config r; rm_lotSizeUnits := rm_lotSizeUnits r; state := state r;
     weeklyPeakEquity := weeklyPeakEquity r; currentWeekNumber := currentWeekNumber r;
     pauseUntilDate := pauseUntilDate r;
     consecutiveLossPauseUntil := consecutiveLossPauseUntil r;
     awaitingPostPauseTrade := awaitingPostPauseTrade r;
     overallPeakEquity := overallPeakEquity r; tradeLog := v;
     equityDdPauseUntil := equityDdPauseUntil r;
     lastDdTierTriggered := lastDdTierTriggered r;
     rolling7DayPauseUntil := rolling7DayPauseUntil r; hardKilled := hardKilled r |}.
Definition set_equityDdPauseUntil (v : option string) (r : RiskManager) : RiskManager :=
  {| config := config r; rm_lotSizeUnits := rm_lotSizeUnits r; state := state r;
     weeklyPeakEquity := weeklyPeakEquity r; currentWeekNumber := currentWeekNumber r;
     pauseUntilDate := pauseUntilDate r;
     consecutiveLossPauseUntil := consecutiveLossPauseUntil r;
     awaitingPostPauseTrade := awaitingPostPauseTrade r;
     overallPeakEquity := overallPeakEquity r; tradeLog := tradeLog r;
     equityDdPauseUntil := v; lastDdTierTriggered := lastDdTierTriggered r;
     rolling7DayPauseUntil := rolling7DayPauseUntil r; hardKilled := hardKilled r |}.
Definition set_lastDdTierTriggered (v : Z) (r : RiskManager) : RiskManager :=
  {| config := config r; rm_lotSizeUnits := rm_lotSizeUnits r; state := state r;
     weeklyPeakEquity := weeklyPeakEquity r; currentWeekNumber := currentWeekNumber r;
     pauseUntilDate := pauseUntilDate r;
     consecutiveLossPauseUntil := consecutiveLossPauseUntil r;
     awaitingPostPauseTrade := awaitingPostPauseTrade r;
     overallPeakEquity := overallPeakEquity r; tradeLog := tradeLog r;
     equityDdPauseUntil := equityDdPauseUntil r; lastDdTierTriggered := v;
     rolling7DayPauseUntil := rolling7DayPauseUntil r; hardKilled := hardKilled r |}.
Definition set_rolling7DayPauseUntil (v : option string) (r : RiskManager) : RiskManager :=
  {| config := config r; rm_lotSizeUnits := rm_lotSizeUnits r; state := state r;
     weeklyPeakEquity := weeklyPeakEquity r; currentWeekNumber := currentWeekNumber r;
     pauseUntilDate := pauseUntilDate r;
     consecutiveLossPauseUntil := consecutiveLossPauseUntil r;
     awaitingPostPauseTrade := awaitingPostPauseTrade r;
     overallPeakEquity := overallPeakEquity r; tradeLog := tradeLog r;
     equityDdPauseUntil := equityDdPauseUntil r;
     lastDdTierTriggered := lastDdTierTriggered r; rolling7DayPauseUntil := v;
     hardKilled := hardKilled r |}.
Definition set_hardKilled (v : bool) (r : RiskManager) : RiskManager :=
  {| config := config r; rm_lotSizeUnits := rm_lotSizeUnits r; state := state r;
     weeklyPeakEquity := weeklyPeakEquity r; currentWeekNumber := currentWeekNumber r;
     pauseUntilDate := pauseUntilDate r;
     consecutiveLossPauseUntil := consecutiveLossPauseUntil r;
     awaitingPostPauseTrade := awaitingPostPauseTrade r;
     overallPeakEquity := overallPeakEquity r; tradeLog := tradeLog r;
     equityDdPauseUntil := equityDdPauseUntil r;
     lastDdTierTriggered := lastDdTierTriggered r;
     rolling7DayPauseUntil := rolling7DayPauseUntil r; hardKilled := v |}.
Definition set_currentWeekNumber (v : option Z) (r : RiskManager) : RiskManager :=
  {| config := config r; rm_lotSizeUnits := rm_lotSizeUnits r; state := state r;
     weeklyPeakEquity := weeklyPeakEquity r; currentWeekNumber := v;
     pauseUntilDate := pauseUntilDate r;
     consecutiveLossPauseUntil := consecutiveLossPauseUntil r;
     awaitingPostPauseTrade := awaitingPostPauseTrade r;
     overallPeakEquity := overallPeakEquity r; tradeLog := tradeLog r;
     equityDdPauseUntil := equityDdPauseUntil r;
     lastDdTierTriggered := lastDdTierTriggered r;
     rolling7DayPauseUntil := rolling7DayPauseUntil r; hardKilled := hardKilled r |}.

Definition upd_state (f : BacktestRiskState -> BacktestRiskState) (r : RiskManager) : RiskManager :=
  set_state (f (state r)) r.
Definition st_dailyPnl (v : num) (s : BacktestRiskState) : BacktestRiskState :=
  {| balance := balance s; equity := equity s; dailyPnl := v;
     consecutiveLosses := consecutiveLosses s; consecutiveWins := consecutiveWins s;
     lastTradeDate := lastTradeDate s |}.
Definition st_streaks (losses wins : Z) (s : BacktestRiskState) : BacktestRiskState :=
  {| balance := balance s; equity := equity s; dailyPnl := dailyPnl s;
     consecutiveLosses := losses; consecutiveWins := wins; lastTradeDate := lastTradeDate s |}.
Definition st_lastTradeDate (d : string) (s : BacktestRiskState) : BacktestRiskState :=
  {| balance := balance s; equity := equity s; dailyPnl := dailyPnl s;
     consecutiveLosses := consecutiveLosses s; consecutiveWins := consecutiveWins s;
     lastTradeDate := Some d |}.
(** [balance += pnl; equity = balance; dailyPnl += pnl] *)
Definition st_book (p : num) (s : BacktestRiskState) : BacktestRiskState :=
  {| balance := balance s + p; equity := balance s + p; dailyPnl := dailyPnl s + p;
     consecutiveLosses := consecutiveLosses s; consecutiveWins := consecutiveWins s;
     lastTradeDate := lastTradeDate s |}.

(** [new RiskManager(config)]: throws on an unknown instrument. *)
Definition new_RiskManager (cfg : EngineConfig) : Res RiskManager :=
  res_map (fun ic =>
    {| config := cfg; rm_lotSizeUnits := lotSizeUnits ic;
       state := {| balance := initialBalance cfg; equity := initialBalance cfg;
                   dailyPnl := of_Z 0; consecutiveLosses := 0; consecutiveWins := 0;
                   lastTradeDate := None |};
       weeklyPeakEquity := initialBalance cfg; currentWeekNumber := Some (-1)%Z;
       pauseUntilDate := None; consecutiveLossPauseUntil := None;
       awaitingPostPauseTrade := false; overallPeakEquity := initialBalance cfg;
       tradeLog := []; equityDdPauseUntil := None; lastDdTierTriggered := 0;
       rolling7DayPauseUntil := None; hardKilled := false |})
    (getInstrumentConfig (symbol cfg)).

(** ** Dates *)

(** [getISOWeek]: [None] is NaN. *)
Definition getISOWeek (dateStr : string) : option Z :=
  t ← Date_parse dateStr;
  let dayOfYear := ((t - year_start (getFullYear t)) / ms_day + 1)%Z in
  Some ((dayOfYear + 6) / 7)%Z.

Definition same_week (a b : option Z) : bool :=
  match a, b with Some x, Some y => (x =? y)%Z | _, _ => false end.

Definition is_weekend (t : Z) : bool := (getDay t =? 0)%Z || (getDay t =? 6)%Z.

(** The loop [while (added < days)] of [addTradingDays]; [None]: out of fuel. *)
Fixpoint trading_days_loop (fuel : nat) (days t : Z) : option Z :=
  if (days <=? 0)%Z then Some t
  else match fuel with
       | O => None
       | S f => let t' := addDays 1 t in
                trading_days_loop f (if is_weekend t' then days else (days - 1)%Z) t'
       end.

(** Three iterations per trading day are enough ([trading_days_loop_total]). *)
Definition addTradingDays (dateStr : string) (days : Z) : Res string :=
  match Date_parse dateStr with
  | None => Throw "Invalid time value"
  | Some t => match trading_days_loop (3 * Z.to_nat days) days t with
              | Some t' => Ok (substring10 (toISOString t'))
              | None => Throw "unreachable"
              end
  end.

(** ** Derived quantities *)
Definition getEquityDdPercent (r : RiskManager) : num :=
  if overallPeakEquity r >? of_Z 0
  then ((overallPeakEquity r - equity (state r)) / overallPeakEquity r) * of_Z 100
  else of_Z 0.

Definition seven_days_ms : Z := (7 * 24 * 60 * 60 * 1000)%Z.

Definition within_7_days (current : option Z) (e : TradeLogEntry) : bool :=
  isLoss e &&
  match current, Date_parse (date e) with
  | Some c, Some t => (c - t <=? seven_days_ms)%Z
  | _, _ => false
  end.

Definition getRolling7DayLosses (currentDate : string) (r : RiskManager) : Z :=
  zlen (filter (fun e => within_7_days (Date_parse currentDate) e = true) (tradeLog r)).

Definition getTradingMode (r : RiskManager) : TradingMode :=
  let ddPercent := getEquityDdPercent r in
  let rolling7dLosses := getRolling7DayLosses (from_option substring10 "" (lastTradeDate (state r))) r in
  if ddPercent >=? of_Z 15 then DEFENSIVE
  else if (4 <=? consecutiveLosses (state r))%Z then DEFENSIVE
  else if (5 <=? rolling7dLosses)%Z then DEFENSIVE
  else if (ddPercent <? of_Z 5) && (2 <=? consecutiveWins (state r))%Z then AGGRESSIVE
  else NORMAL.

Definition canPyramid (r : RiskManager) : bool :=
  negb (bool_decide (getTradingMode r = DEFENSIVE))
  && negb (getEquityDdPercent r >=? of_Z 10)
  && negb (2 <=? consecutiveLosses (state r))%Z.

(** ** Lot sizing *)
Definition getRegimeMultiplier (regime : option DetailedRegime) : num :=
  match regime with
  | None => of_Z 1
  | Some STRONG_TREND => lit 12 1
  | Some WEAK_TREND => lit 9 1
  | Some RANGING => lit 7 1
  | Some VOLATILE => lit 6 1
  | Some TRANSITIONING => lit 8 1
  end.

Definition getQualityMultiplier (quality : option num) : num :=
  match quality with
  | None => of_Z 1
  | Some q =>
      if q >=? of_Z 75 then lit 13 1 else if q >=? of_Z 65 then lit 115 2
      else if q >=? of_Z 55 then of_Z 1 else if q >=? of_Z 45 then lit 85 2
      else if q >=? of_Z 35 then lit 7 1 else lit 5 1
  end.

Definition getDdMultiplier (ddPercent : num) : num :=
  if ddPercent <? of_Z 10 then of_Z 1
  else if ddPercent <? of_Z 20 then lit 5 1
  else if ddPercent <? of_Z 30 then lit 25 2
  else lit 10 2.

Definition getConfidenceMultiplier (confidence : option num) : num :=
  match confidence with
  | None => of_Z 1
  | Some c =>
      if c >=? of_Z 70 then lit 12 1 else if c >=? of_Z 60 then lit 11 1
      else if c >=? of_Z 50 then of_Z 1 else if c >=? of_Z 40 then lit 9 1
      else if c >=? of_Z 30 then lit 8 1 else lit 7 1
  end.

(** The risk percentage after every multiplier and the clamp to [0.5, 4]. *)
Definition effective_risk (qualityScore : option num) (regime : option DetailedRegime)
    (engineConfidence : option num) (r : RiskManager) : num :=
  let e := riskPercent (config r) * getRegimeMultiplier regime in
  let e := e * getQualityMultiplier qualityScore in
  let e := e * getConfidenceMultiplier engineConfidence in
  let e := e * getDdMultiplier (getEquityDdPercent r) in
  let e := if bool_decide (getTradingMode r = DEFENSIVE) && (consecutiveWins (state r) <? 3)%Z
           then e * lit 5 1 else e in
  Math_max (lit 5 1) (Math_min (of_Z 4) e).

(** USD at risk per lot; a JPY quote is converted at the current price. *)
Definition usd_per_lot (slPoints : num) (currentPrice : option num) (r : RiskManager) : num :=
  match currentPrice with
  | Some p => if ends_with_JPY (symbol (config r)) && truthy p
              then (slPoints * rm_lotSizeUnits r) / p
              else slPoints * rm_lotSizeUnits r
  | None => slPoints * rm_lotSizeUnits r
  end.

(** [riskAmount / usdPerLot] *)
Definition ideal_lot (slPoints : num) (qualityScore : option num)
    (regime : option DetailedRegime) (engineConfidence currentPrice : option num)
    (r : RiskManager) : num :=
  balance (state r) * (effective_risk qualityScore regime engineConfidence r / of_Z 100)
  / usd_per_lot slPoints currentPrice r.

(** The risk, in percent of the balance, of trading [lotSize]. *)
Definition actual_risk_pct (lotSize slPoints : num) (currentPrice : option num)
    (r : RiskManager) : num :=
  lotSize * usd_per_lot slPoints currentPrice r / balance (state r) * of_Z 100.

Definition calculateLotSize (slPoints : num) (qualityScore : option num)
    (regime : option DetailedRegime) (engineConfidence currentPrice : option num)
    (r : RiskManager) : num :=
  let effectiveRisk := effective_risk qualityScore regime engineConfidence r in
  let idealLot := ideal_lot slPoints qualityScore regime engineConfidence currentPrice r in
  let lotSize := round2 (Math_max (lit 1 2) (Math_min (of_Z 1) idealLot)) in
  let actualRiskPct := actual_risk_pct lotSize slPoints currentPrice r in
  if actualRiskPct >? effectiveRisk * lit 110 2 then of_Z 0 else lotSize.

(** ** Gate *)

(** [if (p && ...)] on a nullable string. *)
Definition truthy_str (o : option string) : bool :=
  match o with Some s => negb (String.eqb s "") | None => false end.

(** [until && dateStr < until] *)
Definition before (dateStr : string) (until : option string) : bool :=
  truthy_str until && str_lt dateStr (default ""%string until).

Definition maybeResetDaily (currentDate : string) (r : RiskManager) : RiskManager :=
  let lastDate := substring10 <$> lastTradeDate (state r) in
  if truthy_str lastDate && negb (String.eqb (substring10 currentDate) (default ""%string lastDate))
  then upd_state (st_dailyPnl (of_Z 0)) r else r.

Definition maybeResetWeekly (currentDate : string) (r : RiskManager) : RiskManager :=
  let weekNum := getISOWeek currentDate in
  if same_week weekNum (currentWeekNumber r) then r
  else set_weeklyPeakEquity (equity (state r)) (set_currentWeekNumber weekNum r).

(** The rest of [canTrade] once the drawdown pause has been dealt with:
    the daily-loss cap, the consecutive-loss pause, the position cap. *)
Definition canTrade_losses (dateStr : string) (openPositionCount : Z) : M RiskManager bool := fun r =>
  let dailyLossPercent := (dailyPnl (state r) / balance (state r)) * of_Z 100 in
  if dailyLossPercent <=? nopp (maxDailyLossPercent (config r)) then (r, Ok false)
  else if negb (awaitingPostPauseTrade r)
          && (maxConsecutiveLosses (config r) <=? consecutiveLosses (state r))%Z then
    let excess := (consecutiveLosses (state r) - maxConsecutiveLosses (config r))%Z in
    let pauseDays := if (2 <=? excess)%Z then 5%Z else if (1 <=? excess)%Z then 3%Z else 1%Z in
    match addTradingDays dateStr pauseDays with
    | Ok d => (set_consecutiveLossPauseUntil (Some d) r, Ok false)
    | Throw e => (r, Throw e)
    end
  else if (maxOpenPositions (config r) <=? openPositionCount)%Z then (r, Ok false)
  else (r, Ok true).

Definition canTrade_rolling (dateStr : string) (openPositionCount : Z) : M RiskManager bool := fun r =>
  if before dateStr (rolling7DayPauseUntil r) then (r, Ok false)
  else if (4 <=? getRolling7DayLosses dateStr r)%Z then
    match addTradingDays dateStr 5 with
    | Ok d => (set_rolling7DayPauseUntil (Some d) r, Ok false)
    | Throw e => (r, Throw e)
    end
  else if truthy_str (consecutiveLossPauseUntil r) then
    if before dateStr (consecutiveLossPauseUntil r) then (r, Ok false)
    else canTrade_losses dateStr openPositionCount
           (set_awaitingPostPauseTrade true (set_consecutiveLossPauseUntil None r))
  else canTrade_losses dateStr openPositionCount r.

Definition canTrade (currentDate : string) (openPositionCount : Z) : M RiskManager bool := fun r =>
  if hardKilled r then (r, Ok false)
  else
    let r := maybeResetWeekly currentDate (maybeResetDaily currentDate r) in
    let dateStr := substring10 currentDate in
    if before dateStr (pauseUntilDate r) then (r, Ok false)
    else if truthy_str (equityDdPauseUntil r) then
      if before dateStr (equityDdPauseUntil r) then (r, Ok false)
      else canTrade_rolling dateStr openPositionCount (set_equityDdPauseUntil None r)
    else canTrade_rolling dateStr openPositionCount r.

(** ** Booking a trade *)
Definition streak_update (p : num) (reason : option ExitReason) (s : BacktestRiskState) : BacktestRiskState :=
  match reason with
  | Some BREAKEVEN => st_streaks 0 (consecutiveWins s) s
  | Some TP => st_streaks 0 (consecutiveWins s + 1) s
  | _ => if p <? of_Z 0 then st_streaks (consecutiveLosses s + 1) 0 s else s
  end.

Definition peak_update (r : RiskManager) : RiskManager :=
  let r := if equity (state r) >? weeklyPeakEquity r
           then set_weeklyPeakEquity (equity (state r)) r else r in
  if equity (state r) >? overallPeakEquity r
  then set_lastDdTierTriggered 0 (set_overallPeakEquity (equity (state r)) r) else r.

(** The tier the drawdown has reached and not yet triggered, with its pause. *)
Definition dd_tier (ddPercent : num) (last : Z) : option (Z * Z) :=
  if (ddPercent >=? of_Z 35) && (last <? 35)%Z then Some (35, 30)%Z
  else if (ddPercent >=? of_Z 25) && (last <? 25)%Z then Some (25, 7)%Z
  else if (ddPercent >=? of_Z 15) && (last <? 15)%Z then Some (15, 3)%Z
  else None.

Definition tier_pause (dateStr : string) : M RiskManager unit := fun r =>
  match dd_tier (getEquityDdPercent r) (lastDdTierTriggered r) with
  | None => (r, Ok tt)
  | Some (tier, days) =>
      let r := set_lastDdTierTriggered tier r in
      match addTradingDays dateStr days with
      | Ok d => (set_equityDdPauseUntil (Some d) r, Ok tt)
      | Throw e => (r, Throw e)
      end
  end.

Definition weekly_pause (dateStr : string) : M RiskManager unit := fun r =>
  let weeklyDDPercent :=
    ((weeklyPeakEquity r - equity (state r)) / weeklyPeakEquity r) * of_Z 100 in
  if weeklyDDPercent >=? WEEKLY_DD_THRESHOLD then
    match addTradingDays dateStr WEEKLY_DD_PAUSE_DAYS with
    | Ok d => (set_pauseUntilDate (Some d) r, Ok tt)
    | Throw e => (r, Throw e)
    end
  else (r, Ok tt).

(** The part of [recordTrade] before the first date computation. *)
Definition book_trade (p : num) (tradeDate : string) (reason : option ExitReason)
    (r : RiskManager) : RiskManager :=
  let r := maybeResetWeekly tradeDate (maybeResetDaily tradeDate r) in
  let r := set_awaitingPostPauseTrade false r in
  let r := upd_state (st_book p) r in
  let r := set_tradeLog (tradeLog r ++ [{| date := substring10 tradeDate; tl_pnl := p;
             isLoss := (p <? of_Z 0) && negb (bool_decide (reason = Some BREAKEVEN)) |}]) r in
  let r := upd_state (streak_update p reason) r in
  let r := peak_update r in
  if getEquityDdPercent r >=? HARD_KILL_DD_PERCENT then set_hardKilled true r else r.

Definition recordTrade (p : num) (tradeDate : string) (reason : option ExitReason) : M RiskManager unit :=
  (do! m_modify (book_trade p tradeDate reason) ;;
   do! tier_pause (substring10 tradeDate) ;;
   do! weekly_pause (substring10 tradeDate) ;;
   m_modify (upd_state (st_lastTradeDate tradeDate)))%js.

Definition getBalance (r : RiskManager) : num := balance (state r).
Definition isHardKilled (r : RiskManager) : bool := hardKilled r.
Definition getState (r : RiskManager) : BacktestRiskState := state r.

(** ** Persistence

    [RiskManagerSnapshot] and [Partial<RiskManagerSnapshot>] (what comes back
    from Redis).  A nullable field is an option in both; in the partial one
    [None] is an absent or null field. *)
Record RiskManagerSnapshot := {
  s_balance : num;
  s_equity : num;
  s_dailyPnl : num;
  s_consecutiveLosses : Z;
  s_consecutiveWins : Z;
  s_lastTradeDate : option string;
  s_weeklyPeakEquity : num;
  s_currentWeekNumber : option Z;
  s_pauseUntilDate : option string;
  s_consecutiveLossPauseUntil : option string;
  s_awaitingPostPauseTrade : bool;
  s_overallPeakEquity : num;
  s_tradeLog : list TradeLogEntry;
  s_equityDdPauseUntil : option string;
  s_lastDdTierTriggered : Z;
  s_rolling7DayPauseUntil : option string;
  s_hardKilled : bool;
}.

Record PartialSnapshot := {
  p_balance : option num;
  p_equity : option num;
  p_dailyPnl : option num;
  p_consecutiveLosses : option Z;
  p_consecutiveWins : option Z;
  p_lastTradeDate : option string;
  p_weeklyPeakEquity : option num;
  p_currentWeekNumber : option Z;
  p_pauseUntilDate : option string;
  p_consecutiveLossPauseUntil : option string;
  p_awaitingPostPauseTrade : option bool;
  p_overallPeakEquity : option num;
  p_tradeLog : option (list TradeLogEntry);
  p_equityDdPauseUntil : option string;
  p_lastDdTierTriggered : option Z;
  p_rolling7DayPauseUntil : option string;
  p_hardKilled : option bool;
}.

(** [snapshot()] *)
Definition snapshot (r : RiskManager) : RiskManagerSnapshot := {|
  s_balance := balance (state r); s_equity := equity (state r); s_dailyPnl := dailyPnl (state r);
  s_consecutiveLosses := consecutiveLosses (state r);
  s_consecutiveWins := consecutiveWins (state r);
  s_lastTradeDate := lastTradeDate (state r);
  s_weeklyPeakEquity := weeklyPeakEquity r; s_currentWeekNumber := currentWeekNumber r;
  s_pauseUntilDate := pauseUntilDate r;
  s_consecutiveLossPauseUntil := consecutiveLossPauseUntil r;
  s_awaitingPostPauseTrade := awaitingPostPauseTrade r;
  s_overallPeakEquity := overallPeakEquity r;
  s_tradeLog := last_n TRADE_LOG_KEEP (tradeLog r);
  s_equityDdPauseUntil := equityDdPauseUntil r;
  s_lastDdTierTriggered := lastDdTierTriggered r;
  s_rolling7DayPauseUntil := rolling7DayPauseUntil r; s_hardKilled := hardKilled r |}.

(** [JSON.parse(JSON.stringify(x))] on a number: a NaN or infinity is written
    [null], [-0] is written [0].  The [pnl] of a log entry is never read back;
    a [null] there is kept as NaN. *)
Definition json_num (x : num) : option num :=
  match x with
  | S754_nan | S754_infinity _ => None
  | S754_zero _ => Some (S754_zero false)
  | _ => Some x
  end.

Definition json_entry (e : TradeLogEntry) : TradeLogEntry :=
  {| date := date e; tl_pnl := default NaN (json_num (tl_pnl e)); isLoss := isLoss e |}.

Definition json_snapshot (s : RiskManagerSnapshot) : PartialSnapshot := {|
  p_balance := json_num (s_balance s); p_equity := json_num (s_equity s);
  p_dailyPnl := json_num (s_dailyPnl s);
  p_consecutiveLosses := Some (s_consecutiveLosses s);
  p_consecutiveWins := Some (s_consecutiveWins s); p_lastTradeDate := s_lastTradeDate s;
  p_weeklyPeakEquity := json_num (s_weeklyPeakEquity s);
  p_currentWeekNumber := s_currentWeekNumber s; p_pauseUntilDate := s_pauseUntilDate s;
  p_consecutiveLossPauseUntil := s_consecutiveLossPauseUntil s;
  p_awaitingPostPauseTrade := Some (s_awaitingPostPauseTrade s);
  p_overallPeakEquity := json_num (s_overallPeakEquity s);
  p_tradeLog := Some (json_entry <$> s_tradeLog s);
  p_equityDdPauseUntil := s_equityDdPauseUntil s;
  p_lastDdTierTriggered := Some (s_lastDdTierTriggered s);
  p_rolling7DayPauseUntil := s_rolling7DayPauseUntil s; p_hardKilled := Some (s_hardKilled s) |}.

(** [restore(snap)] *)
Definition restore (s : PartialSnapshot) (r : RiskManager) : RiskManager := {|
  config := config r; rm_lotSizeUnits := rm_lotSizeUnits r;
  state := {| balance := default (balance (state r)) (p_balance s);
              equity := default (equity (state r)) (p_equity s);
              dailyPnl := default (of_Z 0) (p_dailyPnl s);
              consecutiveLosses := default 0%Z (p_consecutiveLosses s);
              consecutiveWins := default 0%Z (p_consecutiveWins s);
              lastTradeDate := p_lastTradeDate s |};
  weeklyPeakEquity := default (weeklyPeakEquity r) (p_weeklyPeakEquity s);
  currentWeekNumber := Some (default (-1)%Z (p_currentWeekNumber s));
  pauseUntilDate := p_pauseUntilDate s;
  consecutiveLossPauseUntil := p_consecutiveLossPauseUntil s;
  awaitingPostPauseTrade := default false (p_awaitingPostPauseTrade s);
  overallPeakEquity := default (overallPeakEquity r) (p_overallPeakEquity s);
  tradeLog := default [] (p_tradeLog s);
  equityDdPauseUntil := p_equityDdPauseUntil s;
  lastDdTierTriggered := default 0%Z (p_lastDdTierTriggered s);
  rolling7DayPauseUntil := p_rolling7DayPauseUntil s;
  hardKilled := default false (p_hardKilled s) |}.
