(* ===== verification/RiskFacts.v ===== *)
(** * Properties of RiskManager

    The brakes of src/backtest/engine/risk-manager.ts as theorems about
    sequences of calls: the hard kill is absorbing, the bookkeeping is exact, a
    pause is honoured, a permission to trade means that every guard passed, and
    a snapshot brings every brake back. *)
From Stdlib Require Import SpecFloat.
From S2P Require Import Prelude JsNum NumFacts JsDate Types Instruments RiskManager.

(** ** Sequences of calls *)
Inductive rm_op :=
| OpCanTrade (currentDate : string) (openPositionCount : Z)
| OpRecordTrade (p : num) (tradeDate : string) (reason : option ExitReason).

(** The state a call leaves behind, thrown exceptions caught by the caller. *)
Definition rm_step (r : RiskManager) (o : rm_op) : RiskManager :=
  match o with
  | OpCanTrade d n => (canTrade d n r).1
  | OpRecordTrade p d x => (recordTrade p d x r).1
  end.
Definition rm_run (r : RiskManager) (ops : list rm_op) : RiskManager := fold_left rm_step ops r.

Definition booked (o : rm_op) : list num :=
  match o with OpCanTrade _ _ => [] | OpRecordTrade p _ _ => [p] end.

(** ** What each step leaves alone

    [keeps f] : neither method writes [f] except where [book_trade] does. *)
Section frame.
Context {A : Type} (f : RiskManager -> A).
Hypothesis f_daily : forall d r, f (maybeResetDaily d r) = f r.
Hypothesis f_weekly : forall d r, f (maybeResetWeekly d r) = f r.
Hypothesis f_pause : forall v r, f (set_pauseUntilDate v r) = f r.
Hypothesis f_dd : forall v r, f (set_equityDdPauseUntil v r) = f r.
Hypothesis f_roll : forall v r, f (set_rolling7DayPauseUntil v r) = f r.
Hypothesis f_loss : forall v r, f (set_consecutiveLossPauseUntil v r) = f r.
Hypothesis f_await : forall v r, f (set_awaitingPostPauseTrade v r) = f r.

Lemma canTrade_losses_frame d n r : f (canTrade_losses d n r).1 = f r.
Proof using f_loss. unfold canTrade_losses. repeat case_match; simpl; congruence. Qed.

Lemma canTrade_rolling_frame d n r : f (canTrade_rolling d n r).1 = f r.
Proof using f_loss f_await f_roll.
  unfold canTrade_rolling. repeat case_match; simpl; rewrite ?canTrade_losses_frame; congruence.
Qed.

Lemma canTrade_frame d n r : f (canTrade d n r).1 = f r.
Proof using f_daily f_weekly f_dd f_loss f_await f_roll.
  unfold canTrade. repeat case_match; simpl; rewrite ?canTrade_rolling_frame; congruence.
Qed.
End frame.

(** Discharge a frame hypothesis by computation. *)
Ltac frame := intros; unfold maybeResetDaily, maybeResetWeekly; repeat case_match; reflexivity.

Lemma peak_update_frame r :
  hardKilled (peak_update r) = hardKilled r /\ state (peak_update r) = state r.
Proof. unfold peak_update. repeat case_match; done. Qed.

Lemma resets_frame d r :
  let r' := maybeResetWeekly d (maybeResetDaily d r) in
  hardKilled r' = hardKilled r /\ balance (state r') = balance (state r).
Proof. unfold maybeResetWeekly, maybeResetDaily. simpl. repeat case_match; done. Qed.

Lemma recordTrade_tail p d x r :
  exists r1, r1 = book_trade p d x r /\
    let r' := (recordTrade p d x r).1 in
    balance (state r') = balance (state r1) /\ equity (state r') = equity (state r1) /\
    consecutiveLosses (state r') = consecutiveLosses (state r1) /\
    consecutiveWins (state r') = consecutiveWins (state r1) /\
    overallPeakEquity r' = overallPeakEquity r1 /\ weeklyPeakEquity r' = weeklyPeakEquity r1 /\
    hardKilled r' = hardKilled r1 /\ tradeLog r' = tradeLog r1 /\ config r' = config r1 /\
    (lastDdTierTriggered r' = lastDdTierTriggered r1 \/
     exists t k, dd_tier (getEquityDdPercent r1) (lastDdTierTriggered r1) = Some (t, k) /\
       lastDdTierTriggered r' = t).
Proof.
  exists (book_trade p d x r). split; [reflexivity|].
  unfold recordTrade, m_bind, m_modify. generalize (book_trade p d x r). intros r1.
  unfold tier_pause, weekly_pause.
  destruct (dd_tier _ _) as [[t k]|] eqn:?; repeat case_match; simplify_eq/=;
    split_and!; eauto.
Qed.

(** ** The hard kill *)
Lemma book_trade_hardKilled p d x r :
  hardKilled (book_trade p d x r) =
  hardKilled r || nleb HARD_KILL_DD_PERCENT (getEquityDdPercent (book_trade p d x r)).
Proof.
  unfold book_trade.
  match goal with |- context [peak_update ?a] => set (q0 := a) end.
  assert (Hq : hardKilled (peak_update q0) = hardKilled r).
  { rewrite (proj1 (peak_update_frame q0)). apply (resets_frame d r). }
  set (q := peak_update q0) in *. clearbody q.
  destruct (nleb HARD_KILL_DD_PERCENT (getEquityDdPercent q)) eqn:E.
  - change (getEquityDdPercent (set_hardKilled true q)) with (getEquityDdPercent q).
    rewrite E, orb_true_r. reflexivity.
  - rewrite E, orb_false_r. done.
Qed.

Lemma rm_step_hardKilled r o : hardKilled r = true -> hardKilled (rm_step r o) = true.
Proof.
  intros Hk. destruct o as [d n|p d x]; simpl.
  - rewrite (canTrade_frame hardKilled); [done|frame..].
  - destruct (recordTrade_tail p d x r) as (r1 & -> & H). simpl in H.
    destruct H as (_ & _ & _ & _ & _ & _ & -> & _).
    by rewrite book_trade_hardKilled, Hk.
Qed.

Lemma rm_run_hardKilled r ops : hardKilled r = true -> hardKilled (rm_run r ops) = true.
Proof.
  revert r. induction ops as [|o ops IH]; intros r Hk; simpl; [done|].
  apply IH. by apply rm_step_hardKilled.
Qed.

(** Once the 40% hard-kill switch has tripped, no sequence of further calls ever
    re-arms the manager: whatever trades are booked afterwards, [canTrade]
    answers false for every date and position count and changes nothing. *)
Theorem hard_kill_absorbing (r : RiskManager) (ops : list rm_op) (d : string) (n : Z) :
  hardKilled r = true ->
  canTrade d n (rm_run r ops) = (rm_run r ops, Ok false).
Proof.
  intros Hk. unfold canTrade. by rewrite (rm_run_hardKilled r ops Hk).
Qed.

(** A booked trade trips the hard kill exactly when the drawdown it leaves reaches
    40% of the peak equity; the switch is never cleared by a booking, also when
    the booking throws on an invalid date. *)
Theorem hard_kill_trips (p : num) (d : string) (x : option ExitReason) (r : RiskManager) :
  hardKilled (recordTrade p d x r).1 =
  hardKilled r || nleb HARD_KILL_DD_PERCENT (getEquityDdPercent (recordTrade p d x r).1).
Proof.
  destruct (recordTrade_tail p d x r) as (r1 & -> & H). simpl in H.
  destruct H as (_ & He & _ & _ & Hp & _ & -> & _).
  unfold getEquityDdPercent at 1. rewrite He, Hp. apply book_trade_hardKilled.
Qed.

(** ** The invariant of a manager in use *)
Definition rm_inv (r : RiskManager) : Prop :=
  equity (state r) = balance (state r) /\
  nltb (overallPeakEquity r) (equity (state r)) = false /\
  nltb (weeklyPeakEquity r) (equity (state r)) = false /\
  0 <= consecutiveLosses (state r) /\ 0 <= consecutiveWins (state r) /\
  lastDdTierTriggered r ∈ [0; 15; 25; 35].

Lemma maybeResetWeekly_inv d r : rm_inv r -> rm_inv (maybeResetWeekly d r).
Proof.
  intros (? & ? & ? & ? & ? & ?). unfold maybeResetWeekly. case_match; [done|].
  unfold rm_inv. simpl. split_and!; try done. apply nltb_irrefl.
Qed.

Lemma maybeResetDaily_inv d r : rm_inv r -> rm_inv (maybeResetDaily d r).
Proof. intros H. unfold maybeResetDaily. case_match; done. Qed.

Lemma canTrade_inv d n r : rm_inv r -> rm_inv (canTrade d n r).1.
Proof.
  intros Hr. unfold canTrade. case_match; [done|].
  assert (Hr1 : rm_inv (maybeResetWeekly d (maybeResetDaily d r)))
    by auto using maybeResetWeekly_inv, maybeResetDaily_inv.
  set (r1 := maybeResetWeekly d (maybeResetDaily d r)) in *. clearbody r1.
  unfold canTrade_rolling, canTrade_losses.
  repeat case_match; simplify_eq/=; done.
Qed.

Lemma peak_update_inv r :
  equity (state r) = balance (state r) -> 0 <= consecutiveLosses (state r) ->
  0 <= consecutiveWins (state r) -> lastDdTierTriggered r ∈ [0; 15; 25; 35] ->
  rm_inv (peak_update r).
Proof.
  intros He Hl Hw Ht. unfold peak_update.
  destruct (nltb (weeklyPeakEquity r) (equity (state r))) eqn:Ew; simpl;
  destruct (nltb (overallPeakEquity r) (equity (state r))) eqn:Eo; simpl;
    unfold rm_inv; simpl; rewrite ?nltb_irrefl; split_and!; try done; left.
Qed.

Lemma dd_tier_in dd last t k : dd_tier dd last = Some (t, k) -> t ∈ [0; 15; 25; 35].
Proof. unfold dd_tier. intros H. repeat case_match; simplify_eq; set_solver. Qed.

Lemma streak_update_nonneg p x s :
  0 <= consecutiveLosses s -> 0 <= consecutiveWins s ->
  0 <= consecutiveLosses (streak_update p x s) /\ 0 <= consecutiveWins (streak_update p x s).
Proof. intros. destruct x as [[]|]; simpl; repeat case_match; simpl; lia. Qed.

Lemma streak_update_money p x s :
  balance (streak_update p x s) = balance s /\ equity (streak_update p x s) = equity s.
Proof. destruct x as [[]|]; simpl; repeat case_match; done. Qed.

Lemma book_trade_inv p d x r : rm_inv r -> rm_inv (book_trade p d x r).
Proof.
  intros Hr. unfold book_trade.
  assert (Hr1 : rm_inv (maybeResetWeekly d (maybeResetDaily d r)))
    by auto using maybeResetWeekly_inv, maybeResetDaily_inv.
  set (r1 := maybeResetWeekly d (maybeResetDaily d r)) in *. clearbody r1.
  match goal with |- context [peak_update ?a] => set (q := a) end.
  assert (Hq : rm_inv (peak_update q)).
  { destruct Hr1 as (_ & _ & _ & Hl & Hw & Ht). subst q.
    apply peak_update_inv; simpl; try done.
    - by destruct (streak_update_money p x (st_book p (state r1))) as [-> ->].
    - by apply streak_update_nonneg.
    - by apply streak_update_nonneg. }
  case_match; done.
Qed.

Lemma recordTrade_inv p d x r : rm_inv r -> rm_inv (recordTrade p d x r).1.
Proof.
  intros Hr%(book_trade_inv p d x). destruct (recordTrade_tail p d x r) as (r1 & -> & H).
  simpl in H. destruct H as (Hb & He & Hl & Hw & Ho & Hwk & _ & _ & _ & Ht).
  destruct Hr as (? & ? & ? & ? & ? & ?). unfold rm_inv.
  rewrite Hb, He, Hl, Hw, Ho, Hwk. split_and!; try done.
  destruct Ht as [->|(t & k & Htk & ->)]; [done|]. by eapply dd_tier_in.
Qed.

Lemma new_RiskManager_inv cfg r : new_RiskManager cfg = Ok r -> rm_inv r.
Proof.
  unfold new_RiskManager, res_map. destruct (getInstrumentConfig _); [|done]. intros [= <-].
  unfold rm_inv. simpl. rewrite nltb_irrefl. split_and!; try done. left.
Qed.

Lemma rm_run_inv r ops : rm_inv r -> rm_inv (rm_run r ops).
Proof.
  revert r. induction ops as [|[d n|p d x] ops IH]; intros r Hr; simpl; [done|..]; apply IH.
  - by apply canTrade_inv.
  - by apply recordTrade_inv.
Qed.

(** C28: a manager built by the constructor and driven by any sequence of [canTrade] and
    [recordTrade] calls keeps its books straight: equity is the balance, no peak
    is below the equity it is the peak of, the streak counters are not negative
    and the last triggered drawdown tier is one of the four tiers. *)
Theorem risk_manager_invariant (cfg : EngineConfig) (r : RiskManager) (ops : list rm_op) :
  new_RiskManager cfg = Ok r -> rm_inv (rm_run r ops).
Proof. intros H. by apply rm_run_inv, (new_RiskManager_inv cfg). Qed.

Lemma book_trade_balance p d x r : balance (state (book_trade p d x r)) = nadd (balance (state r)) p.
Proof.
  unfold book_trade.
  match goal with |- context [peak_update ?a] => set (q := a) end.
  transitivity (balance (state q)).
  - destruct (peak_update_frame q) as [_ Hq]. case_match; simpl; by rewrite Hq.
  - subst q. simpl. rewrite (proj1 (streak_update_money _ _ _)). simpl. f_equal.
    apply (resets_frame d r).
Qed.

Lemma rm_run_balance r ops :
  balance (state (rm_run r ops)) = nsum (balance (state r)) (flat_map booked ops).
Proof.
  revert r. induction ops as [|[d n|p d x] ops IH]; intros r; simpl; [done|..]; rewrite IH.
  - f_equal. apply (canTrade_frame (fun r => balance (state r))); frame.
  - destruct (recordTrade_tail p d x r) as (r1 & -> & H). simpl in H.
    destruct H as (-> & _). by rewrite book_trade_balance.
Qed.

(** The balance is the initial balance plus every booked profit or loss, added in
    the order of the calls: no call skips, repeats or reorders a booking, and an
    exception after the booking does not undo it. *)
Theorem balance_is_booked_pnl (cfg : EngineConfig) (r : RiskManager) (ops : list rm_op) :
  new_RiskManager cfg = Ok r ->
  balance (state (rm_run r ops)) = nsum (initialBalance cfg) (flat_map booked ops).
Proof.
  intros H. rewrite rm_run_balance. f_equal. unfold new_RiskManager, res_map in H.
  destruct (getInstrumentConfig _); [|done]. by simplify_eq.
Qed.

(** ** Permission to trade *)

(** The guards [canTrade] leaves satisfied in the state [r'] it returns, for a
    call in state [r] on the day [ds] with [n] positions open. *)
Record permitted (ds : string) (n : Z) (r r' : RiskManager) : Prop := {
  p_not_killed : hardKilled r = false;
  p_weekly : before ds (pauseUntilDate r) = false;
  p_drawdown : before ds (equityDdPauseUntil r) = false;
  p_rolling : before ds (rolling7DayPauseUntil r) = false;
  p_losses : before ds (consecutiveLossPauseUntil r) = false;
  p_rolling_count : getRolling7DayLosses ds r < 4;
  p_daily : nleb ((dailyPnl (state r') / balance (state r')) * of_Z 100)%num
                 (nopp (maxDailyLossPercent (config r))) = false;
  p_streak : awaitingPostPauseTrade r' = true \/
             consecutiveLosses (state r') < maxConsecutiveLosses (config r);
  p_open : n < maxOpenPositions (config r);
}.

Lemma before_falsy ds o : truthy_str o = false -> before ds o = false.
Proof. unfold before. by intros ->. Qed.

Lemma canTrade_losses_sound ds n r r' :
  canTrade_losses ds n r = (r', Ok true) ->
  r' = r /\
  nleb ((dailyPnl (state r) / balance (state r)) * of_Z 100)%num
       (nopp (maxDailyLossPercent (config r))) = false /\
  (awaitingPostPauseTrade r = true \/
   consecutiveLosses (state r) < maxConsecutiveLosses (config r)) /\
  n < maxOpenPositions (config r).
Proof.
  unfold canTrade_losses. intros Hc. repeat case_match; simplify_eq.
  bool_hyps. split_and!; try done.
  destruct (awaitingPostPauseTrade r'); [by left|right]. simpl in *. bool_hyps. lia.
Qed.

Lemma canTrade_rolling_sound ds n r r' :
  canTrade_rolling ds n r = (r', Ok true) ->
  before ds (rolling7DayPauseUntil r) = false /\ getRolling7DayLosses ds r < 4 /\
  before ds (consecutiveLossPauseUntil r) = false /\
  state r' = state r /\
  nleb ((dailyPnl (state r') / balance (state r')) * of_Z 100)%num
       (nopp (maxDailyLossPercent (config r))) = false /\
  (awaitingPostPauseTrade r' = true \/
   consecutiveLosses (state r') < maxConsecutiveLosses (config r)) /\
  n < maxOpenPositions (config r).
Proof.
  unfold canTrade_rolling. intros Hc. repeat case_match; simplify_eq; bool_hyps;
    apply canTrade_losses_sound in Hc as (-> & ? & ? & ?); simpl in *;
    split_and!; auto using before_falsy.
Qed.

Lemma resets_pauses d r :
  let r' := maybeResetWeekly d (maybeResetDaily d r) in
  pauseUntilDate r' = pauseUntilDate r /\ equityDdPauseUntil r' = equityDdPauseUntil r /\
  rolling7DayPauseUntil r' = rolling7DayPauseUntil r /\
  consecutiveLossPauseUntil r' = consecutiveLossPauseUntil r /\
  tradeLog r' = tradeLog r /\ config r' = config r /\ hardKilled r' = hardKilled r.
Proof. unfold maybeResetWeekly, maybeResetDaily. simpl. repeat case_match; done. Qed.

Lemma rolling_losses_log d r r' :
  tradeLog r = tradeLog r' -> getRolling7DayLosses d r = getRolling7DayLosses d r'.
Proof. unfold getRolling7DayLosses. by intros ->. Qed.

(** C6: [canTrade] answers true only when every brake is off on that day: no hard kill, no
    weekly, drawdown, rolling or streak pause still running, fewer than four losses
    in seven days, the daily loss above its cap, the loss streak below its limit
    unless a pause has just been served, and a position slot free. *)
Theorem canTrade_permits (d : string) (n : Z) (r r' : RiskManager) :
  canTrade d n r = (r', Ok true) -> permitted (substring10 d) n r r'.
Proof.
  unfold canTrade. intros Hc. case_match eqn:Hk; [done|].
  pose proof (resets_pauses d r) as Hr.
  set (r1 := maybeResetWeekly d (maybeResetDaily d r)) in *. clearbody r1. simpl in Hr.
  destruct Hr as (Hp & Hd & Hro & Hl & Hlog & Hcfg & _).
  assert (Hloss := rolling_losses_log (substring10 d) r1 r Hlog).
  repeat case_match; simplify_eq;
    apply canTrade_rolling_sound in Hc as (? & ? & ? & ? & ? & ? & ?); simpl in *;
    split; try congruence; rewrite <- ?Hp, <- ?Hd, <- ?Hro, <- ?Hl, <- ?Hcfg, <- ?Hloss;
    auto using before_falsy.
Qed.

(** ** Pauses are honoured *)

(** The answers of successive [canTrade] calls. *)
Fixpoint canTrade_all (calls : list (string * Z)) (r : RiskManager) : list (Res bool) :=
  match calls with
  | [] => []
  | (d, n) :: calls' => (canTrade d n r).2 :: canTrade_all calls' (canTrade d n r).1
  end.

Lemma str_lt_nonempty a b : str_lt a b = true -> truthy_str (Some b) = true.
Proof. destruct b; simpl; [|done]. destruct a; done. Qed.

Lemma canTrade_dd_paused d n u r :
  equityDdPauseUntil r = Some u -> str_lt (substring10 d) u = true ->
  (canTrade d n r).2 = Ok false /\ equityDdPauseUntil (canTrade d n r).1 = Some u.
Proof.
  intros Hu Hlt. unfold canTrade. case_match; [done|].
  destruct (resets_pauses d r) as (_ & Hd & _). simpl in Hd.
  set (r1 := maybeResetWeekly d (maybeResetDaily d r)) in *. clearbody r1.
  case_match; [simpl; by rewrite Hd|]. rewrite Hd, Hu.
  unfold before. rewrite (str_lt_nonempty _ _ Hlt). simpl. rewrite Hlt. simpl. by rewrite Hd.
Qed.

Lemma canTrade_all_dd_paused u calls r :
  equityDdPauseUntil r = Some u ->
  Forall (fun c => str_lt (substring10 c.1) u = true) calls ->
  Forall (fun a => a = Ok false) (canTrade_all calls r).
Proof.
  intros Hu Hc. revert r Hu. induction Hc as [|[d n] calls Hd Hc IH]; intros r Hu; simpl; [done|].
  destruct (canTrade_dd_paused d n u r Hu Hd). constructor; auto.
Qed.

(** A trade that takes the drawdown into a tier not yet triggered (15%, 25%, 35%)
    stops trading for the tier's 3, 7 or 30 trading days: every later request for a
    day before the computed resumption date is refused, however often it is made. *)
Theorem drawdown_pause_honoured (p : num) (d : string) (x : option ExitReason)
    (r r' : RiskManager) (tier days : Z) (until : string) (calls : list (string * Z)) :
  recordTrade p d x r = (r', Ok tt) ->
  dd_tier (getEquityDdPercent (book_trade p d x r)) (lastDdTierTriggered (book_trade p d x r))
    = Some (tier, days) ->
  addTradingDays (substring10 d) days = Ok until ->
  Forall (fun c => str_lt (substring10 c.1) until = true) calls ->
  Forall (fun a => a = Ok false) (canTrade_all calls r').
Proof.
  intros Hrec Htier Hadd. apply canTrade_all_dd_paused.
  unfold recordTrade, m_bind, m_modify in Hrec.
  set (r1 := book_trade p d x r) in *. clearbody r1.
  unfold tier_pause in Hrec. rewrite Htier in Hrec.
  change (substring10 d) with (substring10 d) in Hadd. rewrite Hadd in Hrec.
  unfold weekly_pause in Hrec. repeat case_match; simplify_eq/=; done.
Qed.

(** ** Trading days *)

(** How many of the [k] days after [t] are working days. *)
Definition workdays (t k : Z) : Z :=
  zlen (filter (fun i => is_weekend (addDays i t) = false) (up_from 1 k)).

Lemma getDay_next t : getDay (addDays 1 t) = (getDay t + 1) mod 7.
Proof.
  unfold getDay, getUTCDay, addDays. change local_offset with 0.
  change (t + 1 * ms_day + 0) with (addDays 1 t + 0). rewrite Z.add_0_r, day_of_addDays.
  rewrite !Z.add_0_r. rewrite Zplus_mod_idemp_l. f_equal. lia.
Qed.

Lemma getDay_range t : 0 <= getDay t < 7.
Proof. apply getUTCDay_range. Qed.

(** Weekend days directly after [t]. *)
Definition weekend_ahead (t : Z) : Z :=
  if getDay t =? 5 then 2 else if getDay t =? 6 then 1 else 0.

Lemma trading_days_loop_total fuel days t :
  0 < days -> 3 * (days - 1) + 1 + weekend_ahead t <= Z.of_nat fuel ->
  is_Some (trading_days_loop fuel days t).
Proof.
  revert days t. induction fuel as [|f IH]; intros days t Hd Hf.
  { unfold weekend_ahead in Hf. repeat case_match; lia. }
  simpl. destruct (Z.leb_spec days 0); [lia|].
  pose proof (getDay_next t) as Hn. pose proof (getDay_range t).
  assert (0 <= weekend_ahead (addDays 1 t) <= 2)
    by (unfold weekend_ahead; repeat case_match; lia).
  unfold is_weekend. destruct (getDay (addDays 1 t) =? 0) eqn:E0,
    (getDay (addDays 1 t) =? 6) eqn:E6; simpl; bool_hyps.
  4: { destruct (decide (days = 1)) as [->|].
       { destruct f; simpl; eauto. }
       apply IH; [lia|]. unfold weekend_ahead in *. repeat case_match; bool_hyps; lia. }
  all: apply IH; [lia|].
  all: assert (weekend_ahead (addDays 1 t) + 1 = weekend_ahead t); [|lia].
  all: unfold weekend_ahead; rewrite Hn in *;
    assert (getDay t = 5 \/ getDay t = 6) as [Hg|Hg] by
      (destruct (decide (getDay t = 6)); [lia|]; rewrite Z.mod_small in * by lia; lia);
    rewrite Hg in *; simpl in *; try done; try lia.
Qed.

Lemma workdays_first t k :
  0 < k -> workdays t k =
  (if is_weekend (addDays 1 t) then 0 else 1) + workdays (addDays 1 t) (k - 1).
Proof.
  intros Hk. unfold workdays. rewrite up_from_cons by lia. rewrite filter_cons.
  assert (Hs : zlen (filter (fun i => is_weekend (addDays i t) = false) (up_from 2 k)) =
               zlen (filter (fun i => is_weekend (addDays i (addDays 1 t)) = false) (up_from 1 (k - 1)))).
  { unfold up_from. replace (k - 2 + 1) with (k - 1 - 1 + 1) by lia.
    change 2 with (1 + 1). rewrite <- (fmap_add_seqZ 1 1).
    unfold zlen. rewrite filter_fmap_len. do 2 f_equal. apply list_filter_iff.
    intros i. rewrite addDays_addDays. by rewrite (Z.add_comm i). }
  change (1 + 1) with 2. destruct (is_weekend (addDays 1 t)); case_decide; try done.
  unfold zlen in *. simpl length. lia.
Qed.

Lemma trading_days_loop_spec fuel days t t' :
  trading_days_loop fuel days t = Some t' -> 0 < days ->
  exists k, 0 < k <= Z.of_nat fuel /\ t' = addDays k t /\ workdays t k = days /\ is_weekend t' = false.
Proof.
  revert days t. induction fuel as [|f IH]; intros days t; simpl;
    (destruct (Z.leb_spec days 0); [lia|]); [done|]. intros Hl _.
  destruct (is_weekend (addDays 1 t)) eqn:Hw.
  - destruct (IH _ _ Hl) as (k & Hk & -> & Hc & He); [lia|].
    exists (k + 1). rewrite addDays_addDays in *. split_and!; try done; [lia|lia|].
    rewrite workdays_first, Hw by lia. replace (k + 1 - 1) with k by lia. lia.
  - destruct (decide (days = 1)) as [->|].
    + assert (t' = addDays 1 t) as ->. { destruct f; simpl in Hl; by simplify_eq. }
      exists 1. split_and!; try done; [lia|]. rewrite workdays_first, Hw by lia.
      unfold workdays. by rewrite up_from_nil by lia.
    + destruct (IH _ _ Hl) as (k & Hk & -> & Hc & He); [lia|].
      exists (k + 1). rewrite addDays_addDays in *. split_and!; try done; [lia|lia|].
      rewrite workdays_first, Hw by lia. replace (k + 1 - 1) with k by lia. lia.
Qed.

Lemma addTradingDays_lands (dateStr : string) (days t : Z) :
  Date_parse dateStr = Some t -> 0 < days ->
  exists k, 0 < k <= 3 * days /\ workdays t k = days /\ is_weekend (addDays k t) = false /\
    addTradingDays dateStr days = Ok (substring10 (toISOString (addDays k t))).
Proof.
  intros Hp Hd. unfold addTradingDays. rewrite Hp.
  destruct (trading_days_loop_total (3 * Z.to_nat days) days t) as [t' Ht']; [done| |].
  { unfold weekend_ahead. repeat case_match; lia. }
  rewrite Ht'. destruct (trading_days_loop_spec _ _ _ _ Ht' Hd) as (k & Hk & -> & Hc & He).
  exists k. split_and!; try done; lia.
Qed.

(** Adding trading days to a valid date always succeeds and lands on the working day
    that leaves exactly that many working days behind; the loop never needs more
    than three iterations per trading day. *)
Theorem addTradingDays_spec (dateStr : string) (days t : Z) :
  Date_parse dateStr = Some t -> 0 < days ->
  exists k, 0 < k <= 3 * days /\ workdays t k = days /\ is_weekend (addDays k t) = false /\
    addTradingDays dateStr days = Ok (substring10 (toISOString (addDays k t))).
Proof. apply addTradingDays_lands. Qed.

(** *** On a valid date neither method throws *)
Lemma addTradingDays_ok dateStr days :
  is_Some (Date_parse dateStr) -> 0 < days -> exists d, addTradingDays dateStr days = Ok d.
Proof. intros [t Ht] Hd. destruct (addTradingDays_lands _ _ _ Ht Hd) as (k & _ & _ & _ & ->). eauto. Qed.

(** The day of a bar can be read. *)
Definition dated (c : BacktestCandle) : Prop := is_Some (Date_parse (substring10 (openTime c))).

Lemma recordTrade_ok p d x r :
  is_Some (Date_parse (substring10 d)) -> exists r', recordTrade p d x r = (r', Ok tt).
Proof.
  intros Hd. unfold recordTrade, m_bind, m_modify. generalize (book_trade p d x r). intros r1.
  assert (Ht : exists r2, tier_pause (substring10 d) r1 = (r2, Ok tt)).
  { unfold tier_pause. destruct (dd_tier _ _) as [[t k]|] eqn:E; [|eauto].
    destruct (addTradingDays_ok (substring10 d) k Hd) as [d2 Hd2]; [|rewrite Hd2; eauto].
    unfold dd_tier in E. repeat case_match; simplify_eq; lia. }
  destruct Ht as [r2 ->]. unfold weekly_pause. cbv zeta.
  destruct (addTradingDays_ok (substring10 d) WEEKLY_DD_PAUSE_DAYS Hd) as [d' ->]; [done|].
  match goal with |- context [if ?b then _ else _] => destruct b end; eauto.
Qed.

Lemma substring_idem n s : String.substring 0 n (String.substring 0 n s) = String.substring 0 n s.
Proof. revert s. induction n as [|n IH]; intros [|c s]; simpl; f_equal; auto. Qed.

Lemma canTrade_ok d n r :
  is_Some (Date_parse (substring10 d)) -> exists r' b, canTrade d n r = (r', Ok b).
Proof.
  intros Hd.
  assert (Hl : forall r, exists r' b, canTrade_losses (substring10 d) n r = (r', Ok b)).
  { intros r0. unfold canTrade_losses. case_match; [eauto|]. case_match; [|case_match; eauto].
    match goal with |- context [addTradingDays _ ?k] => destruct (addTradingDays_ok (substring10 d) k Hd) as [d' ->] end;
      [repeat case_match; lia|eauto]. }
  assert (Hr : forall r, exists r' b, canTrade_rolling (substring10 d) n r = (r', Ok b)).
  { intros r0. unfold canTrade_rolling. case_match; [eauto|]. case_match.
    - destruct (addTradingDays_ok (substring10 d) 5 Hd) as [d' ->]; [done|eauto].
    - repeat case_match; eauto. }
  unfold canTrade. repeat case_match; eauto.
Qed.

(** ** Snapshots *)

(** The numbers JSON can carry unchanged: finite, and not [-0]. *)
Definition json_safe (x : num) : Prop := json_num x = Some x.

Definition rm_json_safe (r : RiskManager) : Prop :=
  json_safe (balance (state r)) /\ json_safe (equity (state r)) /\
  json_safe (dailyPnl (state r)) /\ json_safe (weeklyPeakEquity r) /\
  json_safe (overallPeakEquity r) /\ is_Some (currentWeekNumber r) /\
  Forall (fun e => json_safe (tl_pnl e)) (tradeLog r).

Lemma json_entries_safe l :
  Forall (fun e => json_safe (tl_pnl e)) l -> json_entry <$> l = l.
Proof.
  induction 1 as [|e l He Hl IH]; [done|]. rewrite fmap_cons, IH. f_equal.
  unfold json_entry. rewrite He. by destruct e.
Qed.

Lemma last_n_Forall {A} (P : A -> Prop) n l : Forall P l -> Forall P (last_n n l).
Proof. apply Forall_drop. Qed.

Lemma snapshot_roundtrip_eq (r fresh : RiskManager) :
  rm_json_safe r ->
  config fresh = config r -> rm_lotSizeUnits fresh = rm_lotSizeUnits r ->
  restore (json_snapshot (snapshot r)) fresh =
  set_tradeLog (last_n TRADE_LOG_KEEP (tradeLog r)) r.
Proof.
  intros (Hb & He & Hd & Hw & Ho & [w Hwk] & Hl) Hcfg Hu.
  unfold restore, json_snapshot, snapshot, set_tradeLog. simpl.
  rewrite Hb, He, Hd, Hw, Ho, Hwk, Hcfg, Hu. simpl.
  rewrite json_entries_safe by (by apply last_n_Forall). by destruct r as [? ? []].
Qed.

(** A manager written to Redis and read back into a fresh manager of the same pair is
    the manager that was written, except that its trade log is cut to the last 30
    entries: balances, peaks, streaks, every pause and the kill switch survive a
    restart. *)
Theorem snapshot_roundtrip (r fresh : RiskManager) :
  rm_json_safe r ->
  config fresh = config r -> rm_lotSizeUnits fresh = rm_lotSizeUnits r ->
  restore (json_snapshot (snapshot r)) fresh =
  set_tradeLog (last_n TRADE_LOG_KEEP (tradeLog r)) r.
Proof. apply snapshot_roundtrip_eq. Qed.

Lemma rolling_json d e : within_7_days d (json_entry e) = within_7_days d e.
Proof. done. Qed.

(** The brakes survive persistence whatever the numbers are (also a NaN balance, which
    JSON turns into null): the kill switch, the four pauses, the loss streak, and the
    count of losses of the last seven days among the last 30 trades. *)
Theorem snapshot_keeps_brakes (r fresh : RiskManager) (d : string) :
  let r' := restore (json_snapshot (snapshot r)) fresh in
  hardKilled r' = hardKilled r /\ pauseUntilDate r' = pauseUntilDate r /\
  equityDdPauseUntil r' = equityDdPauseUntil r /\
  rolling7DayPauseUntil r' = rolling7DayPauseUntil r /\
  consecutiveLossPauseUntil r' = consecutiveLossPauseUntil r /\
  awaitingPostPauseTrade r' = awaitingPostPauseTrade r /\
  consecutiveLosses (state r') = consecutiveLosses (state r) /\
  lastDdTierTriggered r' = lastDdTierTriggered r /\
  getRolling7DayLosses d r' =
    getRolling7DayLosses d (set_tradeLog (last_n TRADE_LOG_KEEP (tradeLog r)) r).
Proof.
  intros r'. split_and!; try reflexivity.
  unfold getRolling7DayLosses, r'. simpl. unfold zlen. by rewrite filter_fmap_len.
Qed.

(** ** Sizing *)








(** ** A concrete manager *)
Definition demo_cfg : EngineConfig := {|
  symbol := "XAUUSD"; initialBalance := of_Z 10000; riskPercent := lit 15 1;
  maxDailyLossPercent := of_Z 4; maxConsecutiveLosses := 5; maxOpenPositions := 4 |}.

Definition demo_rm : RiskManager :=
  Eval vm_compute in
  match new_RiskManager demo_cfg with
  | Ok r => r
  | Throw _ => {| config := demo_cfg; rm_lotSizeUnits := NaN;
      state := {| balance := NaN; equity := NaN; dailyPnl := NaN; consecutiveLosses := 0;
                  consecutiveWins := 0; lastTradeDate := None |};
      weeklyPeakEquity := NaN; currentWeekNumber := None; pauseUntilDate := None;
      consecutiveLossPauseUntil := None; awaitingPostPauseTrade := false;
      overallPeakEquity := NaN; tradeLog := []; equityDdPauseUntil := None;
      lastDdTierTriggered := 0; rolling7DayPauseUntil := None; hardKilled := false |}
  end.

Lemma demo_rm_new : new_RiskManager demo_cfg = Ok demo_rm.
Proof. vm_compute. reflexivity. Qed.

(** A $10,000 account loses $1,600: the 15% tier. *)
Definition demo_hit : RiskManager * Res unit :=
  Eval vm_compute in recordTrade (of_Z (-1600)) "2024-03-14T10:00:00Z" (Some SL) demo_rm.

(** and then $4,500 of what is left: the kill switch. *)
Definition demo_killed : RiskManager :=
  Eval vm_compute in (recordTrade (of_Z (-4500)) "2024-03-15T10:00:00Z" (Some SL) demo_hit.1).1.

Lemma hard_kill_absorbing_witness :
  hardKilled demo_killed = true /\
  let r := rm_run demo_killed [OpRecordTrade (of_Z 9000) "2024-04-02T10:00:00Z" (Some TP)] in
  canTrade "2024-06-03T10:00:00Z" 0 r = (r, Ok false).
Proof. split; [reflexivity|]. apply hard_kill_absorbing. reflexivity. Defined.

Lemma risk_manager_invariant_witness :
  new_RiskManager demo_cfg = Ok demo_rm /\
  rm_inv (rm_run demo_rm [OpRecordTrade (of_Z (-1600)) "2024-03-14T10:00:00Z" (Some SL);
                          OpCanTrade "2024-03-15T10:00:00Z" 0]).
Proof. split; [exact demo_rm_new|]. exact (risk_manager_invariant demo_cfg demo_rm _ demo_rm_new). Defined.

Lemma balance_is_booked_pnl_witness :
  new_RiskManager demo_cfg = Ok demo_rm /\
  balance (state (rm_run demo_rm [OpRecordTrade (of_Z 25) "bad date" (Some TP)])) =
  nsum (initialBalance demo_cfg) [of_Z 25].
Proof. split; [exact demo_rm_new|]. exact (balance_is_booked_pnl demo_cfg demo_rm _ demo_rm_new). Defined.

Lemma canTrade_permits_witness :
  let r := demo_rm in
  (canTrade "2024-03-13T10:00:00Z" 1 r).2 = Ok true /\
  permitted (substring10 "2024-03-13T10:00:00Z") 1 r (canTrade "2024-03-13T10:00:00Z" 1 r).1.
Proof.
  assert (H : (canTrade "2024-03-13T10:00:00Z" 1 demo_rm).2 = Ok true) by (vm_compute; reflexivity).
  split; [exact H|]. apply canTrade_permits.
  destruct (canTrade "2024-03-13T10:00:00Z" 1 demo_rm) as [r' a]. simpl in *. congruence.
Defined.

Lemma drawdown_pause_honoured_witness :
  addTradingDays "2024-03-14" 3 = Ok "2024-03-19"%string /\
  Forall (fun a => a = Ok false)
    (canTrade_all [("2024-03-15T09:00:00Z"%string, 0); ("2024-03-18T23:45:00Z"%string, 0)] demo_hit.1).
Proof.
  split; [vm_compute; reflexivity|].
  apply (drawdown_pause_honoured (of_Z (-1600)) "2024-03-14T10:00:00Z" (Some SL) demo_rm demo_hit.1
           15 3 "2024-03-19"); [vm_compute; reflexivity..|].
  repeat constructor.
Defined.

Lemma addTradingDays_spec_witness :
  Date_parse "2024-03-14" = Some 1710374400000 /\
  exists k, 0 < k <= 3 * 3 /\ workdays 1710374400000 k = 3 /\
    is_weekend (addDays k 1710374400000) = false /\
    addTradingDays "2024-03-14" 3 = Ok (substring10 (toISOString (addDays k 1710374400000))).
Proof. split; [reflexivity|]. apply addTradingDays_spec; [reflexivity|done]. Defined.

Lemma snapshot_roundtrip_witness :
  rm_json_safe demo_hit.1 /\
  restore (json_snapshot (snapshot demo_hit.1)) demo_rm =
  set_tradeLog (last_n TRADE_LOG_KEEP (tradeLog demo_hit.1)) demo_hit.1.
Proof.
  assert (H : rm_json_safe demo_hit.1).
  { unfold rm_json_safe, json_safe. split_and!; try reflexivity; [eexists; reflexivity|].
    repeat constructor. }
  split; [exact H|]. apply snapshot_roundtrip; [exact H|reflexivity..].
Defined.

