(* ===== verification/PositionSimulator.v ===== *)
(** * Position simulator

    src/backtest/engine/position-simulator.ts: breakeven, trailing stop and
    target removal of an open position ([updatePositionManagement]), the stop and
    target test of a bar ([checkPositionExit]), the forced close, the profit. *)
From S2P Require Import Prelude JsNum JsDate Types Instruments.
Local Open Scope num_scope.

Definition DEFAULT_TRAIL_CONFIG : RegimeTradeParams := {|
  trendTpR := of_Z 2; fvgTpR := of_Z 1; beThresholdR := of_Z 1;
  tpRemovalR := of_Z 2; slClampMaxAtr := of_Z 3; trailWidthMult := None |}.

(** [setupTags.includes(tag)] *)
Definition has_tag (tag : string) (l : list string) : bool := bool_decide (tag ∈ l).

Definition computeTrailDistance (favorableMove risk : num) (config : RegimeTradeParams)
    (isFVG : bool) : num :=
  let tightnessFactor := Math_min (of_Z 1) (slClampMaxAtr config / of_Z 3) in
  let widthMult := default (of_Z 1) (trailWidthMult config) in
  if isFVG then
    if favorableMove >=? risk * of_Z 3 then widthMult * risk * (lit 4 1 + lit 1 1 * tightnessFactor)
    else if favorableMove >=? risk * of_Z 2 then widthMult * risk * (lit 5 1 + lit 1 1 * tightnessFactor)
    else if favorableMove >=? risk * lit 15 1 then widthMult * risk * (lit 6 1 + lit 1 1 * tightnessFactor)
    else widthMult * risk
  else
    if favorableMove >=? risk * of_Z 5 then widthMult * risk * (lit 3 1 + lit 1 1 * tightnessFactor)
    else if favorableMove >=? risk * of_Z 4 then widthMult * risk * (lit 4 1 + lit 1 1 * tightnessFactor)
    else if favorableMove >=? risk * of_Z 3 then widthMult * risk * (lit 5 1 + lit 1 1 * tightnessFactor)
    else if favorableMove >=? risk * of_Z 2 then widthMult * risk * (lit 6 1 + lit 15 2 * tightnessFactor)
    else widthMult * risk.

(** The four fields trade management writes. *)
Record Managed := { m_peak : num; m_sl : num; m_be : bool; m_tp : option num }.

Definition pos_risk (p : SimulatedPosition) : num := nabs (entryPrice p - originalSlPrice p).
Definition pos_trail (p : SimulatedPosition) : RegimeTradeParams :=
  default DEFAULT_TRAIL_CONFIG (trailConfig p).

(** [tpRemovalR > 0 ? risk * tpRemovalR : Infinity] *)
Definition tp_removal (p : SimulatedPosition) : num :=
  if tpRemovalR (pos_trail p) >? of_Z 0 then pos_risk p * tpRemovalR (pos_trail p) else Infinity.

Definition drop_tp (favorableMove : num) (p : SimulatedPosition) : option num :=
  if favorableMove >=? tp_removal p then None else tpPrice p.

(** The BUY branch. *)
Definition manage_buy (p : SimulatedPosition) (c : BacktestCandle) (spread : num) : Managed :=
  let risk := pos_risk p in
  let config := pos_trail p in
  let currentBid := high c - spread / of_Z 2 in
  let updatedPeak := if currentBid >? peakFavorablePrice p then currentBid else peakFavorablePrice p in
  let activate := negb (breakevenActivated p)
                  && (updatedPeak >=? entryPrice p + risk * beThresholdR config) in
  let newBreakeven := breakevenActivated p || activate in
  let newSl := if activate then entryPrice p + risk * lit 1 1 else slPrice p in
  if newBreakeven then
    let favorableMove := updatedPeak - entryPrice p in
    let trailDistance := computeTrailDistance favorableMove risk config (has_tag "FVG_FILL" (setupTags p)) in
    let trailSl := updatedPeak - trailDistance in
    {| m_peak := updatedPeak; m_sl := if trailSl >? newSl then trailSl else newSl;
       m_be := true; m_tp := drop_tp favorableMove p |}
  else {| m_peak := updatedPeak; m_sl := newSl; m_be := false; m_tp := tpPrice p |}.

(** The SELL branch. *)
Definition manage_sell (p : SimulatedPosition) (c : BacktestCandle) (spread : num) : Managed :=
  let risk := pos_risk p in
  let config := pos_trail p in
  let currentAsk := low c + spread / of_Z 2 in
  let updatedPeak := if currentAsk <? peakFavorablePrice p then currentAsk else peakFavorablePrice p in
  let activate := negb (breakevenActivated p)
                  && (updatedPeak <=? entryPrice p - risk * beThresholdR config) in
  let newBreakeven := breakevenActivated p || activate in
  let newSl := if activate then entryPrice p - risk * lit 1 1 else slPrice p in
  if newBreakeven then
    let favorableMove := entryPrice p - updatedPeak in
    let trailDistance := computeTrailDistance favorableMove risk config (has_tag "FVG_FILL" (setupTags p)) in
    let trailSl := updatedPeak + trailDistance in
    {| m_peak := updatedPeak; m_sl := if trailSl <? newSl then trailSl else newSl;
       m_be := true; m_tp := drop_tp favorableMove p |}
  else {| m_peak := updatedPeak; m_sl := newSl; m_be := false; m_tp := tpPrice p |}.

(** [===] on [number | null]. *)
Definition opt_num_eqb (a b : option num) : bool :=
  match a, b with
  | Some x, Some y => x =? y
  | None, None => true
  | _, _ => false
  end.

(** [{ ...position, peakFavorablePrice, slPrice, breakevenActivated, tpPrice }] *)
Definition set_managed (m : Managed) (p : SimulatedPosition) : SimulatedPosition := {|
  side := side p; entryPrice := entryPrice p; slPrice := m_sl m; tpPrice := m_tp m;
  originalSlPrice := originalSlPrice p; breakevenActivated := m_be m;
  peakFavorablePrice := m_peak m; lotSize := lotSize p; entryTime := entryTime p;
  entryIndex := entryIndex p; setupTags := setupTags p; h1Bias := h1Bias p;
  rsiAtEntry := rsiAtEntry p; atrAtEntry := atrAtEntry p; trailConfig := trailConfig p;
  regimeAtEntry := regimeAtEntry p |}.

Definition updatePositionManagement (p : SimulatedPosition) (c : BacktestCandle) (spread : num)
    : SimulatedPosition :=
  if has_tag "RANGE_ENGINE" (setupTags p) then p
  else
    let m := match side p with BUY => manage_buy p c spread | SELL => manage_sell p c spread end in
    if (m_peak m =? peakFavorablePrice p) && (m_sl m =? slPrice p)
       && Bool.eqb (m_be m) (breakevenActivated p) && opt_num_eqb (m_tp m) (tpPrice p)
    then p
    else set_managed m p.

(** ** Closing *)

(** [calculatePnl] *)
Definition calculatePnl (sd : Side) (entry exit lot comm units : num) (sym : option string) : num :=
  let direction := match sd with BUY => of_Z 1 | SELL => of_Z (-1) end in
  let priceDiff := (exit - entry) * direction in
  let rawPnl := priceDiff * lot * units in
  let rawPnl := match sym with
                | Some s => if negb (String.eqb s "") && ends_with_JPY s then rawPnl / exit else rawPnl
                | None => rawPnl
                end in
  round2 (rawPnl - comm).

(** The R-multiple of a close, rounded to cents. *)
Definition r_multiple (p : SimulatedPosition) (pl comm units : num) (sym : option string) : num :=
  let riskPerUnit := nabs (entryPrice p - originalSlPrice p) in
  let isJpyPair := match sym with Some s => negb (String.eqb s "") && ends_with_JPY s | None => false end in
  let usdRiskPerLot := if isJpyPair && (entryPrice p >? of_Z 0)
                       then (riskPerUnit * units) / entryPrice p else riskPerUnit * units in
  let r := if usdRiskPerLot >? of_Z 0 then (pl + comm) / (usdRiskPerLot * lotSize p) else of_Z 0 in
  round2 r.

Definition closed_engine (p : SimulatedPosition) : EngineType :=
  if has_tag "RANGE_ENGINE" (setupTags p) then RANGE_ENGINE
  else if has_tag "FVG_FILL" (setupTags p) then FVG_FILL
  else TREND_PULLBACK.

(** The trade record both closing paths build. *)
Definition close_trade (p : SimulatedPosition) (exit : num) (time : string) (why : ExitReason)
    (comm units : num) (sym : option string) : ClosedTrade :=
  let pl := calculatePnl (side p) (entryPrice p) exit (lotSize p) comm units sym in
  {| ct_side := side p; ct_entryPrice := entryPrice p; exitPrice := exit;
     ct_slPrice := slPrice p; ct_tpPrice := tpPrice p; ct_lotSize := lotSize p; pnl := pl;
     commission := comm; ct_setupTags := setupTags p; ct_entryTime := entryTime p;
     exitTime := time; exitReason := why; ct_h1Bias := h1Bias p;
     ct_rsiAtEntry := rsiAtEntry p; ct_atrAtEntry := atrAtEntry p;
     rMultiple := Some (r_multiple p pl comm units sym);
     ct_regimeAtEntry := regimeAtEntry p; engineType := Some (closed_engine p) |}.

Definition sl_hit (p : SimulatedPosition) (c : BacktestCandle) (spread : num) : bool :=
  match side p with
  | BUY => low c - spread / of_Z 2 <=? slPrice p
  | SELL => high c + spread / of_Z 2 >=? slPrice p
  end.

Definition tp_hit (p : SimulatedPosition) (c : BacktestCandle) (spread : num) : bool :=
  match tpPrice p with
  | None => false
  | Some tp => match side p with
               | BUY => high c - spread / of_Z 2 >=? tp
               | SELL => low c + spread / of_Z 2 <=? tp
               end
  end.

Definition exit_reason (p : SimulatedPosition) (slHit tpHit : bool) : ExitReason :=
  if slHit && tpHit then if breakevenActivated p then TP else SL
  else if slHit then if breakevenActivated p then BREAKEVEN else SL
  else TP.

Definition checkPositionExit (p : SimulatedPosition) (c : BacktestCandle)
    (spread comm units : num) (sym : option string) : option ClosedTrade :=
  let slHit := sl_hit p c spread in
  let tpHit := tp_hit p c spread in
  if negb slHit && negb tpHit then None
  else
    let why := exit_reason p slHit tpHit in
    let exit := match why with TP => default NaN (tpPrice p) | _ => slPrice p end in
    Some (close_trade p exit (openTime c) why comm units sym).

Definition forceClosePosition (p : SimulatedPosition) (closePrice : num) (closeTime : string)
    (comm units : num) (sym : option string) : ClosedTrade :=
  close_trade p closePrice closeTime FORCED_CLOSE comm units sym.

(** * Properties of the position simulator

    Trade management over any sequence of bars: the stop only tightens, the
    breakeven flag latches, the target is only ever removed; the decision table
    of an exit; a stop hit after breakeven does not lose. *)
Local Close Scope num_scope.
From S2P Require Import Prelude JsNum NumFacts JsDate Types Instruments.
(** [updatePositionManagement] over a sequence of bars. *)
Definition manage_all (p : SimulatedPosition) (bars : list (BacktestCandle * num)) : SimulatedPosition :=
  fold_left (fun q b => updatePositionManagement q b.1 b.2) bars p.

(** [b] is at least as tight a stop as [a]. *)
Definition tighter (sd : Side) (a b : num) : Prop :=
  match sd with BUY => nleb a b = true | SELL => nleb b a = true end.

Lemma tighter_refl sd a : is_nan a = false -> tighter sd a a.
Proof. intros. by destruct sd; apply nleb_refl. Qed.
Lemma tighter_trans sd a b c : tighter sd a b -> tighter sd b c -> tighter sd a c.
Proof. destruct sd; simpl; intros; eauto using nleb_trans. Qed.

(** A position as the program opens it: real prices, and a stop on the losing
    side of the entry until breakeven. *)
Definition wf_pos (p : SimulatedPosition) : Prop :=
  valid (entryPrice p) /\ finite (entryPrice p) = true /\
  valid (originalSlPrice p) /\ finite (originalSlPrice p) = true /\
  is_nan (slPrice p) = false /\
  (breakevenActivated p = false -> tighter (side p) (slPrice p) (entryPrice p)).

(** What one bar of management may change, [p] before and [q] after. *)
Record managed_from (p q : SimulatedPosition) : Prop := {
  mf_same : set_managed {| m_peak := peakFavorablePrice p; m_sl := slPrice p;
                           m_be := breakevenActivated p; m_tp := tpPrice p |} q = p;
  mf_latch : breakevenActivated p = true -> breakevenActivated q = true;
  mf_sl : tighter (side p) (slPrice p) (slPrice q);
  mf_locked : breakevenActivated p = false -> breakevenActivated q = true ->
              tighter (side p) (entryPrice p) (slPrice q);
  mf_still : breakevenActivated q = false -> slPrice q = slPrice p;
  mf_tp : tpPrice q = tpPrice p \/ tpPrice q = None /\ breakevenActivated q = true;
}.

Lemma risk_cushion p : wf_pos p ->
  valid (nmul (pos_risk p) (lit 1 1)) /\ nonneg (nmul (pos_risk p) (lit 1 1)) = true.
Proof.
  intros (Ve & Fe & Vo & Fo & _). unfold pos_risk.
  destruct (nabs_sub_nonneg _ _ Ve Vo Fe Fo). apply nmul_nonneg; [done|done|by vm_compute..].
Qed.

Lemma drop_tp_spec p m : drop_tp m p = tpPrice p \/ drop_tp m p = None.
Proof. unfold drop_tp. case_match; auto. Qed.

(** The four written fields satisfy the step relation. *)
Definition step_ok (p : SimulatedPosition) (m : Managed) : Prop :=
  (breakevenActivated p = true -> m_be m = true) /\
  tighter (side p) (slPrice p) (m_sl m) /\
  (breakevenActivated p = false -> m_be m = true -> tighter (side p) (entryPrice p) (m_sl m)) /\
  (m_be m = false -> m_sl m = slPrice p) /\
  (m_tp m = tpPrice p \/ m_tp m = None /\ m_be m = true).

(** The choice between the running stop and the trailing one. *)
Lemma tighten sd a b c :
  tighter sd c a -> tighter sd c (match sd with
    | BUY => if nltb a b then b else a | SELL => if nltb b a then b else a end).
Proof. destruct sd; simpl; intros; case_match; try done; num_order. Qed.

Lemma manage_buy_ok p c s : wf_pos p -> side p = BUY -> step_ok p (manage_buy p c s).
Proof.
  intros Hwf Hsd. pose proof (risk_cushion p Hwf) as [Vr Nr].
  destruct Hwf as (Ve & Fe & _ & _ & Hn & Hbe). rewrite Hsd in Hbe.
  pose proof (nadd_ge _ _ Ve Fe Vr Nr) as Hge.
  unfold manage_buy, step_ok. cbv zeta. rewrite Hsd.
  set (activate := negb _ && _).
  set (fav := nsub _ (entryPrice p)). pose proof (drop_tp_spec p fav).
  destruct (breakevenActivated p) eqn:Eb; simpl.
  - split_and!; try done.
    + apply (tighten BUY). by apply nleb_refl.
    + tauto.
  - destruct activate; simpl; split_and!; try done; try (by left); try by apply nleb_refl.
    + apply (tighten BUY). simpl in *. eauto using nleb_trans.
    + intros _ _. by apply (tighten BUY).
    + tauto.
Qed.

Lemma manage_sell_ok p c s : wf_pos p -> side p = SELL -> step_ok p (manage_sell p c s).
Proof.
  intros Hwf Hsd. pose proof (risk_cushion p Hwf) as [Vr Nr].
  destruct Hwf as (Ve & Fe & _ & _ & Hn & Hbe). rewrite Hsd in Hbe.
  pose proof (nsub_le _ _ Ve Fe Vr Nr) as Hge.
  unfold manage_sell, step_ok. cbv zeta. rewrite Hsd.
  set (activate := negb _ && _).
  set (fav := nsub (entryPrice p) _). pose proof (drop_tp_spec p fav).
  destruct (breakevenActivated p) eqn:Eb; simpl.
  - split_and!; try done; [|tauto].
    apply (tighten SELL). by apply nleb_refl.
  - destruct activate; simpl; split_and!; try done; try (by left); try by apply nleb_refl.
    + apply (tighten SELL). simpl in *. eauto using nleb_trans.
    + intros _ _. by apply (tighten SELL).
    + tauto.
Qed.

Lemma manage_ok p c s :
  wf_pos p -> step_ok p (match side p with BUY => manage_buy p c s | SELL => manage_sell p c s end).
Proof. intros. destruct (side p) eqn:E; [by apply manage_buy_ok|by apply manage_sell_ok]. Qed.

Lemma managed_from_refl p : is_nan (slPrice p) = false -> managed_from p p.
Proof.
  intros Hn. constructor; auto using tighter_refl; [by destruct p|congruence].
Qed.

Lemma update_managed_from p c s : wf_pos p -> managed_from p (updatePositionManagement p c s).
Proof.
  intros Hwf. assert (is_nan (slPrice p) = false) by apply Hwf.
  unfold updatePositionManagement. case_match; [by apply managed_from_refl|].
  pose proof (manage_ok p c s Hwf) as Hm. set (m := match side p with BUY => _ | SELL => _ end) in *.
  clearbody m. destruct Hm as (H1 & H2 & H3 & H4 & H5). cbv zeta.
  destruct (_ && opt_num_eqb _ _); [by apply managed_from_refl|].
  constructor; simpl; try done. by destruct p.
Qed.

Lemma managed_from_wf p q : wf_pos p -> managed_from p q -> wf_pos q.
Proof.
  intros (Ve & Fe & Vo & Fo & Hn & Hbe) [Hs Hl Hsl Hlk Hst Ht].
  assert (He : entryPrice q = entryPrice p /\ originalSlPrice q = originalSlPrice p /\ side q = side p)
    by (rewrite <- Hs; done).
  destruct He as (He & Ho & Hd). unfold wf_pos. rewrite He, Ho, Hd. split_and!; try done.
  - destruct (side p); simpl in Hsl; by apply nleb_not_nan in Hsl as [].
  - intros Hb. rewrite (Hst Hb). apply Hbe.
    destruct (breakevenActivated p); [|done]. by rewrite Hl in Hb.
Qed.

Lemma managed_from_trans p q r : managed_from p q -> managed_from q r -> managed_from p r.
Proof.
  intros [Hs Hl Hsl Hlk Hst Ht] [Hs' Hl' Hsl' Hlk' Hst' Ht'].
  assert (He : entryPrice q = entryPrice p /\ side q = side p) by (rewrite <- Hs; done).
  destruct He as (He & Hd). rewrite ?He, ?Hd in *.
  constructor.
  - rewrite <- Hs, <- Hs'. done.
  - auto.
  - eauto using tighter_trans.
  - intros Hp Hr. destruct (breakevenActivated q) eqn:Hq.
    + specialize (Hlk Hp eq_refl). eauto using tighter_trans.
    + auto.
  - intros Hr. destruct (breakevenActivated q) eqn:Hq; [by rewrite Hl' in Hr|].
    rewrite Hst', Hst; done.
  - destruct Ht' as [->|[-> ?]]; [|by right]. destruct Ht as [->|[-> ?]]; [by left|right; auto].
Qed.

Lemma manage_all_from p bars : wf_pos p -> managed_from p (manage_all p bars).
Proof.
  revert p. induction bars as [|[c s] bars IH]; intros p Hwf.
  - apply managed_from_refl, Hwf.
  - pose proof (update_managed_from p c s Hwf) as H1.
    eapply managed_from_trans; [exact H1|]. apply IH. by eapply managed_from_wf.
Qed.

(** *** Without any condition on the position *)

(** [b] is the stop [a], or strictly tighter. *)
Definition never_looser (sd : Side) (a b : num) : Prop :=
  b = a \/ match sd with BUY => nltb a b = true | SELL => nltb b a = true end.

Lemma never_looser_trans sd a b c : never_looser sd a b -> never_looser sd b c -> never_looser sd a c.
Proof. intros [->|H1] [->|H2]; [by left|by right..|]. right. destruct sd; simpl in *; num_order. Qed.

Lemma never_looser_choice sd a b :
  never_looser sd a (match sd with BUY => if nltb a b then b else a | SELL => if nltb b a then b else a end).
Proof. destruct sd; simpl; case_match; [by right|by left|by right|by left]. Qed.

(** A tenth of the original risk beyond the entry. *)
Definition breakeven_stop (p : SimulatedPosition) : num :=
  match side p with
  | BUY => nadd (entryPrice p) (nmul (pos_risk p) (lit 1 1))
  | SELL => nsub (entryPrice p) (nmul (pos_risk p) (lit 1 1))
  end.

(** What management may change of any position, [p] before and [q] after: nothing but peak,
    stop, breakeven flag and target; the flag latches; the stop stays until the flag is set, is
    then put a tenth of the original risk beyond the entry or tighter, and never loosens from
    then on; the target is kept, or removed once the flag is set. *)
Record managed_frame (p q : SimulatedPosition) : Prop := {
  fr_same : set_managed {| m_peak := peakFavorablePrice p; m_sl := slPrice p;
                           m_be := breakevenActivated p; m_tp := tpPrice p |} q = p;
  fr_latch : breakevenActivated p = true -> breakevenActivated q = true;
  fr_still : breakevenActivated q = false -> slPrice q = slPrice p;
  fr_set : breakevenActivated p = false -> breakevenActivated q = true ->
           never_looser (side p) (breakeven_stop p) (slPrice q);
  fr_after : breakevenActivated p = true -> never_looser (side p) (slPrice p) (slPrice q);
  fr_tp : tpPrice q = tpPrice p \/ tpPrice q = None /\ breakevenActivated q = true;
}.

Lemma managed_frame_refl p : managed_frame p p.
Proof. constructor; try done; [by destruct p|congruence|by left|by left]. Qed.

Lemma manage_frame p c s :
  let m := match side p with BUY => manage_buy p c s | SELL => manage_sell p c s end in
  (breakevenActivated p = true -> m_be m = true) /\
  (m_be m = false -> m_sl m = slPrice p) /\
  (breakevenActivated p = false -> m_be m = true -> never_looser (side p) (breakeven_stop p) (m_sl m)) /\
  (breakevenActivated p = true -> never_looser (side p) (slPrice p) (m_sl m)) /\
  (m_tp m = tpPrice p \/ m_tp m = None /\ m_be m = true).
Proof.
  unfold manage_buy, manage_sell, breakeven_stop. cbv zeta.
  destruct (side p); set (activate := negb _ && _);
    match goal with |- context [drop_tp ?f p] => pose proof (drop_tp_spec p f) as Ht; generalize dependent f end;
    intros fav Ht; destruct (breakevenActivated p); simpl; [|destruct activate; simpl| |destruct activate; simpl];
    split_and!; try done; try (by left); try tauto; intros;
    first [apply (never_looser_choice BUY)|apply (never_looser_choice SELL)].
Qed.

Lemma update_managed_frame p c s : managed_frame p (updatePositionManagement p c s).
Proof.
  unfold updatePositionManagement. case_match; [apply managed_frame_refl|].
  pose proof (manage_frame p c s) as (H1 & H2 & H3 & H4 & H5).
  set (m := match side p with BUY => _ | SELL => _ end) in *. clearbody m. cbv zeta.
  destruct (_ && opt_num_eqb _ _); [apply managed_frame_refl|].
  constructor; simpl; try done. by destruct p.
Qed.

Lemma managed_frame_trans p q r : managed_frame p q -> managed_frame q r -> managed_frame p r.
Proof.
  intros [Hs Hl Ht Hset Ha Htp] [Hs' Hl' Ht' Hset' Ha' Htp'].
  assert (He : side q = side p /\ breakeven_stop q = breakeven_stop p) by (rewrite <- Hs; done).
  destruct He as [Hd Hb]. rewrite Hd in Hset', Ha'. rewrite Hb in Hset'. constructor.
  - rewrite <- Hs, <- Hs'. done.
  - auto.
  - intros Hr. destruct (breakevenActivated q) eqn:Hq; [by rewrite Hl' in Hr|]. rewrite Ht', Ht; done.
  - intros Hp Hr. destruct (breakevenActivated q) eqn:Hq; [|by auto]. eauto using never_looser_trans.
  - intros Hp. eauto using never_looser_trans.
  - destruct Htp' as [->|[-> ?]]; [|by right]. destruct Htp as [->|[-> ?]]; [by left|right; auto].
Qed.

Lemma manage_all_frame bars : forall p, managed_frame p (manage_all p bars).
Proof.
  induction bars as [|[c s] bars IH]; intros p; [apply managed_frame_refl|].
  eapply managed_frame_trans; [apply update_managed_frame|apply IH].
Qed.

(** A position whose entry and original stop are finite prices. *)
Definition priced (p : SimulatedPosition) : Prop :=
  valid (entryPrice p) /\ finite (entryPrice p) = true /\
  valid (originalSlPrice p) /\ finite (originalSlPrice p) = true.

Lemma wf_priced p : wf_pos p -> priced p.
Proof. intros (? & ? & ? & ? & _). by split_and!. Qed.

(** The breakeven stop of such a position does not lose. *)
Lemma breakeven_stop_tight p : priced p -> tighter (side p) (entryPrice p) (breakeven_stop p).
Proof.
  intros (Ve & Fe & Vo & Fo). destruct (nabs_sub_nonneg _ _ Ve Vo Fe Fo) as [Vn Nn].
  fold (pos_risk p) in Vn, Nn.
  destruct (nmul_nonneg (pos_risk p) (lit 1 1)) as [Vr Nr]; [done|done|by vm_compute..|].
  unfold breakeven_stop. destruct (side p); simpl; [by apply nadd_ge|by apply nsub_le].
Qed.

Lemma tighter_never_looser sd a b c : tighter sd a b -> never_looser sd b c -> tighter sd a c.
Proof. intros H1 [->|H2]; [done|]. destruct sd; simpl in *; num_order. Qed.

(** Breakeven means the entry or better. *)
Lemma frame_locks p q :
  managed_frame p q -> priced p -> breakevenActivated p = false -> breakevenActivated q = true ->
  tighter (side p) (entryPrice p) (slPrice q).
Proof. intros Hf Hp H1 H2. eapply tighter_never_looser; [by apply breakeven_stop_tight|by apply Hf]. Qed.

(** C33: the ratchet of position management, over any sequence of bars.  Of any position only
    peak, stop, breakeven flag and target change; the flag is never undone; the stop stays where
    it is until the flag is set, is then put a tenth of the original risk beyond the entry or
    tighter, and never loosens from then on; the target is kept, or removed once the flag is set.
    A position whose entry and original stop are finite prices has its stop at the entry or
    better from the bar that sets the flag.  Of a position whose stop, moreover, is not beyond
    its entry while the flag is off ([wf_pos]), the stop never loosens at all, and it stays
    such a position.  (Without that condition the bar that sets the flag can loosen the stop.) *)
Theorem management_ratchet (p : SimulatedPosition) (bars : list (BacktestCandle * num)) :
  let q := manage_all p bars in
  managed_frame p q /\
  (priced p -> breakevenActivated p = false -> breakevenActivated q = true ->
     tighter (side p) (entryPrice p) (slPrice q)) /\
  (wf_pos p -> managed_from p q /\ wf_pos q).
Proof.
  intros q. pose proof (manage_all_frame bars p) as Hf. split_and!; [done|by apply frame_locks|].
  intros Hwf. pose proof (manage_all_from p bars Hwf). split; [done|]. by eapply managed_from_wf.
Qed.

(** The decision table of a bar's exit test.  No trade closes unless the bar reached the
    stop or the target; the stop wins an ambiguous bar unless breakeven is active, in which
    case the target does; a stop after breakeven is reported as BREAKEVEN; the fill is the
    level that was hit, at the bar's time. *)
Theorem checkPositionExit_table (p : SimulatedPosition) (c : BacktestCandle) (spread comm units : num)
    (sym : option string) :
  let fill why price := Some (close_trade p price (openTime c) why comm units sym) in
  checkPositionExit p c spread comm units sym =
  match sl_hit p c spread, tp_hit p c spread, breakevenActivated p with
  | false, false, _ => None
  | true, false, false | true, true, false => fill SL (slPrice p)
  | true, false, true => fill BREAKEVEN (slPrice p)
  | false, true, _ | true, true, true => fill TP (default NaN (tpPrice p))
  end /\
  (forall t, checkPositionExit p c spread comm units sym = Some t -> exitReason t = TP ->
     tpPrice p = Some (exitPrice t)).
Proof.
  cbv zeta. unfold checkPositionExit. cbv zeta. unfold exit_reason.
  destruct (sl_hit p c spread), (tp_hit p c spread) eqn:Ht, (breakevenActivated p); (split; [done|]);
    intros t [= <-]; simpl; try done; intros _;
    unfold tp_hit in Ht; by destruct (tpPrice p).
Qed.

(** The profit of closing a winning move, before commission. *)
Lemma price_move_nonneg sd entry exit :
  valid entry -> finite entry = true -> valid exit -> finite exit = true -> tighter sd entry exit ->
  valid (nmul (nsub exit entry) (match sd with BUY => of_Z 1 | SELL => of_Z (-1) end)) /\
  nonneg (nmul (nsub exit entry) (match sd with BUY => of_Z 1 | SELL => of_Z (-1) end)) = true.
Proof.
  intros Ve Fe Vx Fx Ht. destruct sd; simpl in Ht.
  - destruct (nsub_nonneg exit entry) as [? ?]; try done. apply nmul_nonneg; done.
  - destruct (nsub_nonpos exit entry) as [? ?]; try done. by apply nmul_neg_one.
Qed.

Lemma calculatePnl_nonneg sd entry exit lot units sym :
  valid entry -> finite entry = true -> valid exit -> finite exit = true ->
  tighter sd entry exit ->
  valid lot -> finite lot = true -> 0 < V lot ->
  valid units -> finite units = true -> 0 < V units -> 0 < V exit ->
  nonneg (calculatePnl sd entry exit lot (of_Z 0) units sym) = true.
Proof.
  intros Ve Fe Vx Fx Ht Vl Fl Pl Vu Fu Pu Px. unfold calculatePnl, round2. cbv zeta.
  destruct (price_move_nonneg sd entry exit) as [Vm Nm]; try done.
  destruct (nmul_nonneg _ lot Vm Nm Vl Fl Pl) as [Vm2 Nm2].
  destruct (nmul_nonneg _ units Vm2 Nm2 Vu Fu Pu) as [Vm3 Nm3].
  set (raw := match sym with Some _ => _ | None => _ end).
  assert (Hraw : valid raw /\ nonneg raw = true).
  { unfold raw. destruct sym as [y|]; [|done]. destruct (_ && _); [|done]. by apply ndiv_nonneg. }
  destruct Hraw as [Vr Nr]. destruct (nsub_zero raw Vr Nr) as [V0 N0].
  exact (round2_nonneg _ V0 N0).
Qed.

(** A stop hit after breakeven does not lose.  A position opened with its stop on the
    losing side, managed over any bars and then closed by its stop once breakeven is active,
    books a profit that is not negative before commission. *)
Theorem breakeven_exit_never_loses (p : SimulatedPosition) (bars : list (BacktestCandle * num))
    (c : BacktestCandle) (spread units : num) (sym : option string) (t : ClosedTrade) :
  wf_pos p -> breakevenActivated p = false ->
  valid (lotSize p) -> finite (lotSize p) = true -> 0 < V (lotSize p) ->
  valid units -> finite units = true -> 0 < V units ->
  let q := manage_all p bars in
  valid (slPrice q) -> finite (slPrice q) = true -> 0 < V (slPrice q) ->
  checkPositionExit q c spread (of_Z 0) units sym = Some t ->
  exitReason t = BREAKEVEN ->
  exitPrice t = slPrice q /\ nonneg (pnl t) = true.
Proof.
  intros Hwf Hb Vl Fl Pl Vu Fu Pu q Vs Fs Ps Hc Hr.
  destruct (manage_all_from p bars Hwf) as [Hs _ _ Hlk _ _]. fold q in Hs, Hlk.
  assert (He : entryPrice q = entryPrice p /\ side q = side p /\ lotSize q = lotSize p)
    by (rewrite <- Hs; done). destruct He as (He & Hd & Hlot).
  unfold checkPositionExit in Hc. cbv zeta in Hc. unfold exit_reason in Hc.
  destruct (sl_hit q c spread), (tp_hit q c spread), (breakevenActivated q) eqn:Hbq;
    simplify_eq/=; (split; [done|]).
  destruct Hwf as (Ve & Fe & _). rewrite He, Hd, Hlot. apply calculatePnl_nonneg; auto.
Qed.

(** ** A concrete position: gold bought at 2000 with a ten-dollar stop. *)
Definition demo_pos : SimulatedPosition := {|
  side := BUY; entryPrice := of_Z 2000; slPrice := of_Z 1990; tpPrice := Some (of_Z 2030);
  originalSlPrice := of_Z 1990; breakevenActivated := false; peakFavorablePrice := of_Z 2000;
  lotSize := lit 1 1; entryTime := "2024-03-14T10:00:00.000Z"; entryIndex := 0;
  setupTags := ["SMC"]; h1Bias := "BULLISH"; rsiAtEntry := of_Z 50; atrAtEntry := of_Z 5;
  trailConfig := None; regimeAtEntry := None |}.

Definition demo_bar (h l : Z) : BacktestCandle := {|
  c_symbol := "XAUUSD"; timeframe := "M15"; openTime := "2024-03-14T10:15:00.000Z";
  open := of_Z l; high := of_Z h; low := of_Z l; close := of_Z h; volume := of_Z 1 |}.

Lemma demo_pos_wf : wf_pos demo_pos.
Proof. unfold wf_pos, valid. split_and!; try reflexivity. Qed.

Lemma management_ratchet_witness :
  let q := manage_all demo_pos [(demo_bar 2012 2001, of_Z 0)] in
  wf_pos demo_pos /\ managed_from demo_pos q /\ breakevenActivated q = true /\
  tighter BUY (of_Z 2000) (slPrice q).
Proof.
  cbv zeta. destruct (management_ratchet demo_pos [(demo_bar 2012 2001, of_Z 0)]) as (_ & Hlock & Hwf).
  assert (Hb : breakevenActivated (manage_all demo_pos [(demo_bar 2012 2001, of_Z 0)]) = true)
    by (vm_compute; reflexivity).
  split; [exact demo_pos_wf|]. split; [exact (proj1 (Hwf demo_pos_wf))|]. split; [exact Hb|].
  exact (Hlock (wf_priced _ demo_pos_wf) eq_refl Hb).
Defined.

Definition demo_exit : option ClosedTrade :=
  checkPositionExit (manage_all demo_pos [(demo_bar 2012 2001, of_Z 0)]) (demo_bar 2005 2000)
    (of_Z 0) (of_Z 0) (of_Z 100) (Some "XAUUSD"%string).

Lemma demo_exit_breakeven : option_map exitReason demo_exit = Some BREAKEVEN.
Proof. vm_compute. reflexivity. Qed.

Lemma breakeven_exit_never_loses_witness :
  exists t, demo_exit = Some t /\ exitReason t = BREAKEVEN /\ nonneg (pnl t) = true.
Proof.
  pose proof demo_exit_breakeven as H. destruct demo_exit as [t|] eqn:E; [|discriminate H].
  injection H as H. exists t. split; [reflexivity|]. split; [exact H|].
  apply (breakeven_exit_never_loses demo_pos [(demo_bar 2012 2001, of_Z 0)] (demo_bar 2005 2000)
    (of_Z 0) (of_Z 100) (Some "XAUUSD"%string) t demo_pos_wf); [..|exact E|exact H];
    vm_compute; reflexivity.
Defined.
