(* ===== verification/PerformanceTracker.v ===== *)
(** * Rolling statistics and backtest metrics

    src/backtest/engine/performance-tracker.ts (class PerformanceTracker) and
    src/backtest/engine/metrics-calculator.ts ([calculateMetrics]). *)
From S2P Require Import Prelude JsNum NumFacts JsDate Types PositionSimulator.
Local Open Scope num_scope.

(** ** PerformanceTracker *)
Record TrackedTrade := {
  tt_engineType : EngineType;
  tt_rMultiple : num;
  won : bool;
  tt_pnl : num;
  weekKey : string;
}.

Record EngineStats := {
  winRate : num;
  avgR : num;
  expectancy : num;
  hotStreak : Z;
  profitFactor : num;
  tradeCount : Z;
}.

Definition ENGINE_WINDOW_SIZE : Z := 30.
Definition GLOBAL_WINDOW_SIZE : Z := 60.
Definition MIN_TRADES_FOR_CONFIDENCE : Z := 10.

Record PerformanceTracker := {
  engineWindows : gmap EngineType (list TrackedTrade);
  globalWindow : list TrackedTrade;
  weeklyTradeCounts : gmap string Z;
}.

Definition new_PerformanceTracker : PerformanceTracker := {|
  engineWindows := list_to_map ((fun e => (e, [])) <$> [TREND_PULLBACK; FVG_FILL; RANGE_ENGINE; BB_REVERSAL; SMC]);
  globalWindow := []; weeklyTradeCounts := ∅ |}.

Definition deriveEngineType (t : ClosedTrade) : EngineType :=
  match engineType t with
  | Some e => e
  | None => if has_tag "RANGE_ENGINE" (ct_setupTags t) then RANGE_ENGINE
            else if has_tag "FVG_FILL" (ct_setupTags t) then FVG_FILL
            else TREND_PULLBACK
  end.

(** [String(n).padStart(2, '0')] *)
Definition pad2 (n : Z) : string :=
  let s := dec_string n in
  if (String.length s <? 2)%nat then String.append "0" s else s.

(** [getISOWeekKey]: an unreadable date gives the text of NaN. *)
Definition getISOWeekKey (dateStr : string) : string :=
  match Date_parse dateStr with
  | None => "NaN-WNaN"
  | Some d =>
      let dow := getDay d in
      let thursday := addDays (4 - (if (dow =? 0)%Z then 7 else dow)) d in
      let elapsed := (thursday - year_start (getFullYear thursday))%Z in
      let weekNum := ((elapsed + ms_day + (7 * ms_day - 1)) / (7 * ms_day))%Z in
      String.append (dec_string (getFullYear thursday)) (String.append "-W" (pad2 weekNum))
  end.

Definition track (t : ClosedTrade) : TrackedTrade := {|
  tt_engineType := deriveEngineType t;
  tt_rMultiple := default (of_Z 0) (rMultiple t);
  won := (pnl t >? of_Z 0) && negb (bool_decide (exitReason t = BREAKEVEN));
  tt_pnl := pnl t;
  weekKey := getISOWeekKey (exitTime t) |}.

(** [push], and [shift] when the window is too long. *)
Definition push_window (size : Z) (x : TrackedTrade) (w : list TrackedTrade) : list TrackedTrade :=
  let w' := w ++ [x] in
  if (size <? zlen w')%Z then drop 1 w' else w'.

Definition recordTrade (t : ClosedTrade) (p : PerformanceTracker) : PerformanceTracker :=
  let tracked := track t in
  let e := tt_engineType tracked in
  {| engineWindows := <[e := push_window ENGINE_WINDOW_SIZE tracked (default [] (engineWindows p !! e))]> (engineWindows p);
     globalWindow := push_window GLOBAL_WINDOW_SIZE tracked (globalWindow p);
     weeklyTradeCounts :=
       <[weekKey tracked := (default 0 (weeklyTradeCounts p !! weekKey tracked) + 1)%Z]> (weeklyTradeCounts p) |}.

(** The wins at the tail of the window. *)
Fixpoint streak_rev (l : list TrackedTrade) : Z :=
  match l with
  | [] => 0
  | t :: l' => if won t then (1 + streak_rev l')%Z else 0
  end.

Definition computeStats (trades : list TrackedTrade) : EngineStats :=
  if (zlen trades =? 0)%Z then
    {| winRate := of_Z 0; avgR := of_Z 0; expectancy := of_Z 0; hotStreak := 0;
       profitFactor := of_Z 0; tradeCount := 0 |}
  else
    let wins := List.filter won trades in
    let losses := List.filter (fun t => negb (won t)) trades in
    let n := of_Z (zlen trades) in
    let nw := of_Z (zlen wins) in
    let nl := of_Z (zlen losses) in
    let grossWin := nsum (of_Z 0) (tt_pnl <$> wins) in
    let grossLoss := nabs (nsum (of_Z 0) (tt_pnl <$> losses)) in
    let avgWinR := if (0 <? zlen wins)%Z then nsum (of_Z 0) (tt_rMultiple <$> wins) / nw else of_Z 0 in
    let avgLossR := if (0 <? zlen losses)%Z
                    then nabs (nsum (of_Z 0) (tt_rMultiple <$> losses) / nl) else of_Z 0 in
    {| winRate := (nw / n) * of_Z 100;
       avgR := nsum (of_Z 0) (tt_rMultiple <$> trades) / n;
       expectancy := (avgWinR * nw - avgLossR * nl) / n;
       hotStreak := streak_rev (reverse trades);
       profitFactor := if grossLoss >? of_Z 0 then grossWin / grossLoss
                       else if grossWin >? of_Z 0 then of_Z 999 else of_Z 0;
       tradeCount := zlen trades |}.

Definition getEngineStats (e : EngineType) (p : PerformanceTracker) : EngineStats :=
  computeStats (default [] (engineWindows p !! e)).
Definition getGlobalStats (p : PerformanceTracker) : EngineStats := computeStats (globalWindow p).

(** The three components of the score before the last clamp. *)
Definition raw_score (s : EngineStats) : num :=
  let wrScore := Math_min (of_Z 50) (winRate s * lit 5 1) in
  let expScore := Math_min (of_Z 30) (Math_max (of_Z 0) (expectancy s * of_Z 30)) in
  let streakScore := Math_min (of_Z 20) (of_Z (hotStreak s) * of_Z 4) in
  wrScore + expScore + streakScore.

(** The body [getEngineConfidence] and [getGlobalConfidence] share. *)
Definition confidence (s : EngineStats) : num :=
  if (tradeCount s <? MIN_TRADES_FOR_CONFIDENCE)%Z then of_Z 50
  else Math_round (Math_min (of_Z 100) (Math_max (of_Z 0) (raw_score s))).

Definition getEngineConfidence (e : EngineType) (p : PerformanceTracker) : num :=
  confidence (getEngineStats e p).
Definition getGlobalConfidence (p : PerformanceTracker) : num := confidence (getGlobalStats p).

Definition getWeeklyTradeCount (currentTime : string) (p : PerformanceTracker) : Z :=
  default 0%Z (weeklyTradeCounts p !! getISOWeekKey currentTime).
Definition getWeeklyTradeDeficit (currentTime : string) (p : PerformanceTracker) : Z :=
  Z.max 0 (3 - getWeeklyTradeCount currentTime p).

(** ** calculateMetrics *)
Record BacktestMetrics := {
  totalTrades : Z; winCount : Z; lossCount : Z; breakevenCount : Z;
  bm_winRate : num; totalPnl : num; bm_profitFactor : num;
  maxDrawdown : num; maxDrawdownPercent : num; sharpeRatio : num;
  avgWin : num; avgLoss : num; avgRR : num; largestWin : num; largestLoss : num;
  maxConsecutiveWins : Z; maxConsecutiveLosses : Z;
  totalCommission : num; finalBalance : num; returnPercent : num;
}.

(** The drawdown loop: running balance, peak, deepest drawdown and its percentage. *)
Record Drawdown := { dd_running : num; dd_peak : num; dd_max : num; dd_pct : num }.

Definition drawdown_step (d : Drawdown) (p : num) : Drawdown :=
  let running := dd_running d + p in
  let peak := if running >? dd_peak d then running else dd_peak d in
  let dd := peak - running in
  if dd >? dd_max d
  then {| dd_running := running; dd_peak := peak; dd_max := dd; dd_pct := (dd / peak) * of_Z 100 |}
  else {| dd_running := running; dd_peak := peak; dd_max := dd_max d; dd_pct := dd_pct d |}.

Definition drawdown (initial : num) (pnls : list num) : Drawdown :=
  fold_left drawdown_step pnls
    {| dd_running := initial; dd_peak := initial; dd_max := of_Z 0; dd_pct := of_Z 0 |}.

(** The streak loop over the results of the trades that are not breakeven exits. *)
Record Streaks := { cur_w : Z; cur_l : Z; max_w : Z; max_l : Z }.

Definition streak_step (s : Streaks) (win : bool) : Streaks :=
  if win then
    {| cur_w := cur_w s + 1; cur_l := 0; max_w := Z.max (max_w s) (cur_w s + 1); max_l := max_l s |}
  else
    {| cur_w := 0; cur_l := cur_l s + 1; max_w := max_w s; max_l := Z.max (max_l s) (cur_l s + 1) |}.

Definition is_be (t : ClosedTrade) : bool := bool_decide (exitReason t = BREAKEVEN).
Definition is_win (t : ClosedTrade) : bool := pnl t >? of_Z 0.
Definition is_loss (t : ClosedTrade) : bool := pnl t <=? of_Z 0.

Definition streaks (trades : list ClosedTrade) : Streaks :=
  fold_left (fun s t => if is_be t then s else streak_step s (is_win t)) trades
    {| cur_w := 0; cur_l := 0; max_w := 0; max_l := 0 |}.

(** [Math.round(x * 10000) / 100] *)
Definition round_pct (x : num) : num := Math_round (x * of_Z 10000) / of_Z 100.

Definition sq_dev (avg s r : num) : num := s + (r - avg) * (r - avg).

Definition sharpe (pnls : list num) : num :=
  let n := of_Z (zlen pnls) in
  let avgReturn := nsum (of_Z 0) pnls / n in
  let variance := fold_left (sq_dev avgReturn) pnls (of_Z 0) / n in
  let stdDev := nsqrt variance in
  if stdDev >? of_Z 0 then (avgReturn / stdDev) * nsqrt (of_Z 252) else of_Z 0.

(** [Math.max(...l)] and [Math.min(...l)] *)
Definition max_of (l : list num) : num := fold_left Math_max l neg_Infinity.
Definition min_of (l : list num) : num := fold_left Math_min l Infinity.

Definition empty_metrics (initial : num) : BacktestMetrics := {|
  totalTrades := 0; winCount := 0; lossCount := 0; breakevenCount := 0;
  bm_winRate := of_Z 0; totalPnl := of_Z 0; bm_profitFactor := of_Z 0;
  maxDrawdown := of_Z 0; maxDrawdownPercent := of_Z 0; sharpeRatio := of_Z 0;
  avgWin := of_Z 0; avgLoss := of_Z 0; avgRR := of_Z 0; largestWin := of_Z 0; largestLoss := of_Z 0;
  maxConsecutiveWins := 0; maxConsecutiveLosses := 0; totalCommission := of_Z 0;
  finalBalance := initial; returnPercent := of_Z 0 |}.

Definition calculateMetrics (trades : list ClosedTrade) (initial : num) : BacktestMetrics :=
  if (zlen trades =? 0)%Z then empty_metrics initial
  else
    let wins := List.filter is_win trades in
    let losses := List.filter is_loss trades in
    let nw := zlen wins in
    let nl := zlen losses in
    let total := nsum (of_Z 0) (pnl <$> trades) in
    let grossProfit := nsum (of_Z 0) (pnl <$> wins) in
    let grossLoss := nabs (nsum (of_Z 0) (pnl <$> losses)) in
    let dd := drawdown initial (pnl <$> trades) in
    let st := streaks trades in
    let final := initial + total in
    {| totalTrades := zlen trades; winCount := nw; lossCount := nl;
       breakevenCount := zlen (List.filter is_be trades);
       bm_winRate := if (0 <? zlen trades)%Z then round_pct (of_Z nw / of_Z (zlen trades)) else of_Z 0;
       totalPnl := round2 total;
       bm_profitFactor := if grossLoss >? of_Z 0 then round2 (grossProfit / grossLoss)
                          else if grossProfit >? of_Z 0 then Infinity else of_Z 0;
       maxDrawdown := round2 (dd_max dd);
       maxDrawdownPercent := round2 (dd_pct dd);
       sharpeRatio := round2 (sharpe (pnl <$> trades));
       avgWin := if (0 <? nw)%Z then round2 (grossProfit / of_Z nw) else of_Z 0;
       avgLoss := if (0 <? nl)%Z then round2 (grossLoss / of_Z nl) else of_Z 0;
       avgRR := if (0 <? nl)%Z && (grossLoss >? of_Z 0)
                then round2 (or_zero (grossProfit / of_Z nw) / (grossLoss / of_Z nl)) else of_Z 0;
       largestWin := if (0 <? nw)%Z then round2 (max_of (pnl <$> wins)) else of_Z 0;
       largestLoss := if (0 <? nl)%Z then round2 (min_of (pnl <$> losses)) else of_Z 0;
       maxConsecutiveWins := max_w st; maxConsecutiveLosses := max_l st;
       totalCommission := round2 (nsum (of_Z 0) (commission <$> trades));
       finalBalance := round2 final;
       returnPercent := round_pct ((final - initial) / initial) |}.

(** ** The windows *)
Definition record_all (ts : list ClosedTrade) : PerformanceTracker :=
  fold_left (fun p t => recordTrade t p) ts new_PerformanceTracker.

Lemma record_all_snoc ts t : record_all (ts ++ [t]) = recordTrade t (record_all ts).
Proof. unfold record_all. by rewrite fold_left_app. Qed.

Lemma last_n_snoc {A} n (l : list A) x :
  last_n n (l ++ [x]) = drop (length (last_n n l) + 1 - n) (last_n n l ++ [x]).
Proof.
  rewrite length_last_n. unfold last_n. rewrite length_app. simpl.
  destruct (decide (length l < n)%nat).
  - replace (length l + 1 - n)%nat with 0%nat by lia.
    replace (length l - n)%nat with 0%nat by lia.
    replace (n `min` length l + 1 - n)%nat with 0%nat by lia. done.
  - replace (n `min` length l + 1 - n)%nat with 1%nat by lia.
    rewrite <- (drop_app_le l [x] (length l - n)) by lia. rewrite drop_drop. f_equal. lia.
Qed.

(** A window never holds more than its size, so one [shift] is enough. *)
Lemma push_window_last_n (n : nat) x l :
  push_window (Z.of_nat n) x (last_n n l) = last_n n (l ++ [x]).
Proof.
  unfold push_window, zlen. rewrite last_n_snoc, length_app. simpl.
  pose proof (length_last_n n l). case_match; bool_hyps.
  - replace (length (last_n n l) + 1 - n)%nat with 1%nat by lia. done.
  - replace (length (last_n n l) + 1 - n)%nat with 0%nat by lia. done.
Qed.

Definition of_engine (e : EngineType) (ts : list ClosedTrade) : list TrackedTrade :=
  filter (fun t => tt_engineType t = e) (track <$> ts).

Lemma of_engine_snoc e ts t :
  of_engine e (ts ++ [t]) =
  if decide (tt_engineType (track t) = e) then of_engine e ts ++ [track t] else of_engine e ts.
Proof.
  unfold of_engine. rewrite fmap_app, filter_app. simpl. rewrite filter_cons, filter_nil. simpl.
  repeat case_decide; by rewrite ?app_nil_r.
Qed.

(** After any sequence of recorded trades the global window is exactly the last 60 of
    them, the window of an engine exactly the last 30 trades of that engine, and the
    count of a week the number of its trades since the start. *)
Theorem windows_are_the_last_trades (ts : list ClosedTrade) (e : EngineType) (w : string) :
  let p := record_all ts in
  globalWindow p = last_n 60 (track <$> ts) /\
  default [] (engineWindows p !! e) = last_n 30 (of_engine e ts) /\
  default 0 (weeklyTradeCounts p !! w) =
    zlen (filter (fun t => weekKey t = w) (track <$> ts)).
Proof.
  induction ts as [|t ts IH] using rev_ind; cbv zeta in *.
  - split_and!; [done|by destruct e|done].
  - rewrite record_all_snoc. destruct IH as (Hg & He & Hw). simpl. split_and!.
    + rewrite Hg, fmap_app. apply (push_window_last_n 60).
    + rewrite of_engine_snoc. case_decide as Hd.
      * fold (tt_engineType (track t)). subst e. rewrite lookup_insert_eq. simpl.
        change (deriveEngineType t) with (tt_engineType (track t)). rewrite He.
        apply (push_window_last_n 30).
      * by rewrite lookup_insert_ne.
    + rewrite fmap_app, filter_app. simpl. rewrite filter_cons, filter_nil. simpl.
      unfold zlen in *. rewrite length_app. case_decide as Hd.
      * subst w. rewrite lookup_insert_eq. simpl. rewrite Hw. lia.
      * rewrite lookup_insert_ne by done. simpl. lia.
Qed.

(** ** The confidence score *)

(** An engine with fewer than 10 trades on record is neutral (50); otherwise the
    confidence is a whole number between 0 and 100. *)
Theorem confidence_range (ts : list ClosedTrade) (e : EngineType) :
  let s := getEngineStats e (record_all ts) in
  valid (raw_score s) -> is_nan (raw_score s) = false ->
  let c := getEngineConfidence e (record_all ts) in
  (zlen (of_engine e ts) < 10 -> c = of_Z 50) /\
  exists n, 0 <= n <= 100 /\ neqb c (of_Z n) = true.
Proof.
  intros s Hv Hn c.
  assert (Hc : tradeCount s = zlen (last_n 30 (of_engine e ts))).
  { unfold s, getEngineStats. destruct (windows_are_the_last_trades ts e "") as (_ & -> & _).
    unfold computeStats. case_match eqn:E; [|done]. apply Z.eqb_eq in E. done. }
  unfold zlen in *. rewrite length_last_n in Hc. unfold c, getEngineConfidence. fold s.
  unfold confidence, MIN_TRADES_FOR_CONFIDENCE. case_match; bool_hyps; (split; [intros ?|]).
  - done.
  - exists 50. split; [done|]. by vm_compute.
  - lia.
  - assert (H0 : is_nan (of_Z 0) = false) by (by vm_compute).
    assert (H1 : is_nan (of_Z 100) = false) by (by vm_compute).
    destruct (Math_max_spec (of_Z 0) (raw_score s) H0 Hn) as (Hm & Hm1 & _).
    set (m := Math_max _ _) in *. clearbody m. pose proof (nleb_not_nan _ _ Hm1) as [_ Hmn].
    destruct (Math_min_spec (of_Z 100) m H1 Hmn) as (Hk & Hk1 & _).
    set (k := Math_min _ _) in *. clearbody k. apply Math_round_percent; [..|done].
    + unfold nonneg. destruct Hk as [->| ->]; [by vm_compute|done].
    + destruct Hk as [->| ->]; [by vm_compute|]. destruct Hm as [->| ->]; [by vm_compute|done].
Qed.

(** ** The metrics *)

(** [n] is the length of the longest stretch of consecutive [v] in [l]. *)
Definition longest_run (v : bool) (l : list bool) (n : Z) : Prop :=
  (exists a s b, l = a ++ s ++ b /\ Forall (eq v) s /\ zlen s = n) /\
  (forall a s b, l = a ++ s ++ b -> Forall (eq v) s -> zlen s <= n).

(** One side of the streak loop: the current run and the longest so far. *)
Definition run_step (v : bool) (cm : Z * Z) (b : bool) : Z * Z :=
  if Bool.eqb b v then ((cm.1 + 1)%Z, Z.max cm.2 (cm.1 + 1)) else (0%Z, cm.2).

Definition runs (v : bool) (l : list bool) : Z * Z := fold_left (run_step v) l (0, 0).

Lemma runs_snoc v l b : runs v (l ++ [b]) = run_step v (runs v l) b.
Proof. unfold runs. by rewrite fold_left_app. Qed.

Lemma runs_spec v l :
  ((exists a s, l = a ++ s /\ Forall (eq v) s /\ zlen s = (runs v l).1) /\
   (forall a s, l = a ++ s -> Forall (eq v) s -> zlen s <= (runs v l).1)) /\
  longest_run v l (runs v l).2 /\ (runs v l).1 <= (runs v l).2.
Proof.
  induction l as [|x l IH] using rev_ind.
  - split; [split|split; [split|done]].
    + by exists [], [].
    + intros a s Hs _. by destruct a, s.
    + by exists [], [], [].
    + intros a s b Hs _. by destruct a, s.
  - rewrite runs_snoc. destruct IH as [[(a & s & Hl & Hs & Hn) Hmax] [[(a2 & s2 & b2 & Hl2 & Hs2 & Hn2) Hmax2] Hle]].
    destruct (runs v l) as [cur m]. simpl in *. unfold run_step. simpl.
    assert (Hsuf : forall a s, l ++ [x] = a ++ s -> Forall (eq v) s ->
              zlen s <= if Bool.eqb x v then (cur + 1)%Z else 0%Z).
    { intros a' s' Hs' Hv. destruct s' as [|y s' _] using rev_ind.
      - assert (0 <= cur) by (specialize (Hmax l [] ltac:(by rewrite app_nil_r) ltac:(done)); done).
        unfold zlen. case_match; simpl; lia.
      - rewrite app_assoc in Hs'. apply app_inj_tail in Hs' as [-> ->].
        apply Forall_app in Hv as [Hv Hx]. inversion Hx; subst.
        rewrite Bool.eqb_reflx. specialize (Hmax a' s' eq_refl Hv).
        unfold zlen in *. rewrite length_app. simpl. lia. }
    assert (Hseg : forall a s b, l ++ [x] = a ++ s ++ b -> Forall (eq v) s ->
              zlen s <= Z.max m (if Bool.eqb x v then (cur + 1)%Z else 0%Z)).
    { intros a' s' b' Hs' Hv. destruct b' as [|y b' _] using rev_ind.
      - rewrite app_nil_r in Hs'. specialize (Hsuf _ _ Hs' Hv). lia.
      - rewrite !app_assoc in Hs'. apply app_inj_tail in Hs' as [Hs' ->].
        rewrite <- app_assoc in Hs'. specialize (Hmax2 _ _ _ Hs' Hv). lia. }
    assert (0 <= m) by (specialize (Hmax2 [] [] l eq_refl ltac:(done)); done).
    assert (Hx : Bool.eqb x v = true -> l ++ [x] = a ++ (s ++ [x]) /\ Forall (eq v) (s ++ [x]) /\ zlen (s ++ [x]) = (cur + 1)%Z).
    { intros ->%Bool.eqb_prop. rewrite Hl, <- app_assoc. split; [done|]. split.
      - apply Forall_app. auto.
      - unfold zlen in *. rewrite length_app. simpl. lia. }
    assert (Hold : exists a s b, l ++ [x] = a ++ s ++ b /\ Forall (eq v) s /\ zlen s = m).
    { exists a2, s2, (b2 ++ [x]). by rewrite Hl2, <- !app_assoc. }
    assert (Hend : exists a s, l ++ [x] = a ++ s /\ Forall (eq v) s /\
              zlen s = if Bool.eqb x v then (cur + 1)%Z else 0%Z).
    { destruct (Bool.eqb x v); [eexists _, _; by apply Hx|].
      exists (l ++ [x]), []. by rewrite app_nil_r. }
    assert (Htop : exists a s b, l ++ [x] = a ++ s ++ b /\ Forall (eq v) s /\
              zlen s = Z.max m (if Bool.eqb x v then (cur + 1)%Z else 0%Z)).
    { destruct (Z.max_spec m (if Bool.eqb x v then (cur + 1)%Z else 0%Z)) as [[_ ->]|[_ ->]]; [|done].
      destruct Hend as (a' & s' & -> & H1 & H2). exists a', s', []. by rewrite app_nil_r. }
    replace (if Bool.eqb x v then _ else _)
      with (if Bool.eqb x v then (cur + 1)%Z else 0%Z, Z.max m (if Bool.eqb x v then (cur + 1)%Z else 0%Z))
      by (destruct (Bool.eqb x v); f_equal; lia).
    simpl. split; [done|]. split; [done|]. lia.
Qed.

(** The results the streak loop looks at, in order. *)
Definition results (trades : list ClosedTrade) : list bool :=
  is_win <$> List.filter (fun t => negb (is_be t)) trades.

Lemma streaks_runs trades :
  streaks trades =
  {| cur_w := (runs true (results trades)).1; cur_l := (runs false (results trades)).1;
     max_w := (runs true (results trades)).2; max_l := (runs false (results trades)).2 |}.
Proof.
  unfold streaks. induction trades as [|t ts IH] using rev_ind; [done|].
  rewrite fold_left_app, IH. simpl. unfold results. rewrite List.filter_app, fmap_app. simpl.
  destruct (is_be t); simpl; [by rewrite app_nil_r|]. rewrite !runs_snoc.
  unfold streak_step, run_step. by destruct (is_win t).
Qed.

(** The reported streaks are the longest runs of consecutive winning and losing trades,
    breakeven exits left out. *)
Theorem streaks_are_longest_runs (trades : list ClosedTrade) (initial : num) :
  let m := calculateMetrics trades initial in
  longest_run true (results trades) (maxConsecutiveWins m) /\
  longest_run false (results trades) (maxConsecutiveLosses m).
Proof.
  unfold calculateMetrics. case_match eqn:E; cbv zeta.
  - destruct trades; [|done]. split; apply (runs_spec _ []).
  - simpl. rewrite streaks_runs. simpl. split; apply runs_spec.
Qed.

(** Every trade with a profit that is a number is counted once, as a win or as a loss,
    breakeven exits included. *)
Theorem win_loss_partition (trades : list ClosedTrade) (initial : num) :
  Forall (fun t => is_nan (pnl t) = false) trades ->
  let m := calculateMetrics trades initial in
  (winCount m + lossCount m)%Z = totalTrades m /\ totalTrades m = zlen trades /\
  breakevenCount m <= totalTrades m.
Proof.
  intros Hn. unfold calculateMetrics. case_match eqn:E; cbv zeta.
  - apply Z.eqb_eq in E. simpl. lia.
  - simpl. clear E. unfold zlen. split_and!; [|done|].
    + induction Hn as [|t ts Ht Hts IH]; simpl; [done|]. unfold is_win, is_loss in *.
      destruct (nltb (of_Z 0) (pnl t)) eqn:Hw.
      * rewrite (nltb_not_nleb _ _ Hw). simpl. lia.
      * rewrite (nltb_false_nleb (of_Z 0) (pnl t)) by (done || by vm_compute). simpl. lia.
    + pose proof (List.filter_length_le is_be trades). lia.
Qed.

(** The balance and its peak after a sequence of profits. *)
Definition balance_after (initial : num) (pnls : list num) : num := nsum initial pnls.
Fixpoint peak_after (running peak : num) (pnls : list num) : num :=
  match pnls with
  | [] => peak
  | p :: l => let running' := running + p in
              peak_after running' (if running' >? peak then running' else peak) l
  end.
Definition drawdown_after (initial : num) (pnls : list num) : num :=
  peak_after initial initial pnls - balance_after initial pnls.

Lemma peak_after_snoc l p : forall r k,
  peak_after r k (l ++ [p]) =
  let running := nsum r l + p in
  if running >? peak_after r k l then running else peak_after r k l.
Proof. induction l as [|x l IH]; intros r k; [done|]. simpl. by rewrite IH. Qed.

Lemma drawdown_snoc i l p : drawdown i (l ++ [p]) = drawdown_step (drawdown i l) p.
Proof. unfold drawdown. by rewrite fold_left_app. Qed.

Lemma drawdown_state i l :
  dd_running (drawdown i l) = nsum i l /\ dd_peak (drawdown i l) = peak_after i i l.
Proof.
  induction l as [|p l IH] using rev_ind; [done|]. rewrite drawdown_snoc, peak_after_snoc.
  destruct IH as [Hr Hp]. unfold nsum. rewrite fold_left_app. fold (nsum i l). simpl.
  rewrite <- Hr, <- Hp. unfold drawdown_step. by destruct (nltb (dd_max _) _).
Qed.

Lemma dd_step_max i l p :
  let d := drawdown_after i (l ++ [p]) in
  dd_max (drawdown i (l ++ [p])) = if d >? dd_max (drawdown i l) then d else dd_max (drawdown i l).
Proof.
  cbv zeta. rewrite drawdown_snoc. unfold drawdown_after, balance_after.
  rewrite peak_after_snoc. destruct (drawdown_state i l) as [Hr Hp].
  unfold nsum. rewrite fold_left_app. fold (nsum i l). simpl. rewrite <- Hr, <- Hp.
  unfold drawdown_step. by destruct (nltb (dd_max _) _).
Qed.

(** The reported maximum drawdown (before rounding to cents) is the deepest fall from the
    running peak: no trade leaves the balance further below its peak, and the value is
    either 0 or reached after some trade. *)
Theorem maxDrawdown_is_deepest (initial : num) (pnls : list num) :
  (forall k, nltb (dd_max (drawdown initial pnls)) (drawdown_after initial (take (S k) pnls)) = false \/
             (length pnls <= k)%nat) /\
  (dd_max (drawdown initial pnls) = of_Z 0 \/
   exists k, (k < length pnls)%nat /\
     dd_max (drawdown initial pnls) = drawdown_after initial (take (S k) pnls)).
Proof.
  induction pnls as [|p l [IH1 IH2]] using rev_ind.
  - split; [intros k; right; simpl; lia|by left].
  - rewrite dd_step_max. set (d := drawdown_after initial (l ++ [p])).
    assert (Htake : forall k, (k < length l)%nat -> take (S k) (l ++ [p]) = take (S k) l)
      by (intros; apply take_app_le; lia).
    assert (Hlast : take (S (length l)) (l ++ [p]) = l ++ [p])
      by (apply take_ge; rewrite length_app; simpl; lia).
    split.
    + intros k. rewrite length_app. simpl. destruct (decide (k < length l)%nat) as [Hk|Hk].
      * rewrite Htake by done. destruct (IH1 k) as [Hd|]; [left|lia].
        destruct (nltb (dd_max _) d) eqn:E; [|done]. num_order.
      * destruct (decide (k = length l)) as [->|]; [left|right; lia]. rewrite Hlast. fold d.
        destruct (nltb (dd_max _) d) eqn:E; [apply nltb_irrefl|done].
    + destruct (nltb (dd_max _) d).
      * right. exists (length l). rewrite length_app. simpl. split; [lia|]. by rewrite Hlast.
      * destruct IH2 as [|(k & Hk & IH2)]; [by left|right]. exists k. rewrite length_app.
        simpl. split; [lia|]. by rewrite Htake.
Qed.

(** The reported maximum drawdown percentage belongs to the drawdown that is largest in
    money, and is not the largest percentage: a 50% drawdown of a small account is
    reported as 6% when a later, larger account loses more money. *)
Theorem maxDrawdownPercent_is_not_the_deepest :
  exists initial pnls,
    drawdown_after initial (take 1 pnls) / peak_after initial initial (take 1 pnls) * of_Z 100 = of_Z 50 /\
    dd_pct (drawdown initial pnls) = of_Z 6.
Proof. exists (of_Z 1000), [of_Z (-500); of_Z 9500; of_Z (-600)]. split; vm_compute; reflexivity. Qed.

(** ** Concrete inputs *)
Definition demo_trade (p : Z) : ClosedTrade := {|
  ct_side := BUY; ct_entryPrice := of_Z 2000; exitPrice := of_Z 2010; ct_slPrice := of_Z 1990;
  ct_tpPrice := None; ct_lotSize := lit 1 1; pnl := of_Z p; commission := of_Z 0;
  ct_setupTags := []; ct_entryTime := "2024-03-14T10:00:00.000Z"; exitTime := "2024-03-14T12:00:00.000Z";
  exitReason := TP; ct_h1Bias := "BULLISH"; ct_rsiAtEntry := of_Z 50; ct_atrAtEntry := of_Z 5;
  rMultiple := Some (of_Z 1); ct_regimeAtEntry := None; engineType := Some SMC |}.

Lemma confidence_range_witness :
  let s := getEngineStats SMC (record_all (repeat (demo_trade 10) 12)) in
  valid (raw_score s) /\
  exists n, 0 <= n <= 100 /\
    neqb (getEngineConfidence SMC (record_all (repeat (demo_trade 10) 12))) (of_Z n) = true.
Proof.
  assert (H : valid (raw_score (getEngineStats SMC (record_all (repeat (demo_trade 10) 12)))))
    by (vm_compute; reflexivity).
  split; [exact H|].
  apply (confidence_range (repeat (demo_trade 10) 12) SMC H). vm_compute. reflexivity.
Defined.

Lemma win_loss_partition_witness :
  winCount (calculateMetrics [demo_trade 10; demo_trade (-5)] (of_Z 1000)) = 1 /\
  (winCount (calculateMetrics [demo_trade 10; demo_trade (-5)] (of_Z 1000)) +
   lossCount (calculateMetrics [demo_trade 10; demo_trade (-5)] (of_Z 1000)))%Z = 2.
Proof.
  split; [vm_compute; reflexivity|].
  destruct (win_loss_partition [demo_trade 10; demo_trade (-5)] (of_Z 1000)) as (H & H' & _).
  - repeat constructor.
  - rewrite H, H'. reflexivity.
Defined.
