(* ===== verification/SweepDetector.v ===== *)
(** * Sweep detector and anchor levels

    src/backtest/engine/smc/sweep-detector.ts, src/backtest/engine/smc/anchor-levels.ts
    and [getD1Bias] of src/backtest/engine/strategy-evaluator.ts. *)
From S2P Require Import Prelude JsNum JsDate Types.
Local Open Scope num_scope.

(** ** The bar at a time

    The binary search [getD1Bias], [isContinuationSafe] and the engines share: the
    last index whose open time is at or before [t], [-1] when there is none.  The fuel
    is the number of candles; each turn removes at least one. *)
Fixpoint bsearch (fuel : nat) (cs : list BacktestCandle) (t : option Z) (lo hi idx : Z) : Z :=
  match fuel with
  | O => idx
  | S f =>
      if (lo <=? hi)%Z then
        let m := Z.shiftr (lo + hi) 1 in
        if tv_le (zlookup cs m ≫= candle_ms) t
        then bsearch f cs t (m + 1) hi m
        else bsearch f cs t lo (m - 1) idx
      else idx
  end.

Definition index_at (cs : list BacktestCandle) (t : option Z) : Z :=
  bsearch (length cs) cs t 0 (zlen cs - 1) (-1).

(** ** Swings *)

(** A strict three-bar fractal at [k]. *)
Definition swing_high_at (cs : list BacktestCandle) (k : Z) : option num :=
  match zlookup cs (k - 1), zlookup cs k, zlookup cs (k + 1) with
  | Some a, Some b, Some c => if (high b >? high a) && (high b >? high c) then Some (high b) else None
  | _, _, _ => None
  end.

Definition swing_low_at (cs : list BacktestCandle) (k : Z) : option num :=
  match zlookup cs (k - 1), zlookup cs k, zlookup cs (k + 1) with
  | Some a, Some b, Some c => if (low b <? low a) && (low b <? low c) then Some (low b) else None
  | _, _, _ => None
  end.

Definition findRecentSwingHigh (h1Candles : list BacktestCandle) (h1Idx lookback : Z) : option num :=
  first_some (swing_high_at h1Candles) (down_from (h1Idx - 1) (Z.max 1 (h1Idx - lookback))).

Definition findRecentSwingLow (h1Candles : list BacktestCandle) (h1Idx lookback : Z) : option num :=
  first_some (swing_low_at h1Candles) (down_from (h1Idx - 1) (Z.max 1 (h1Idx - lookback))).

(** The extreme a trade of side [sd] sweeps. *)
Definition swept_extreme (sd : Side) (c : BacktestCandle) : num :=
  match sd with BUY => low c | SELL => high c end.

(** [findSweptSwingIdx]: reading past the array throws. *)
Definition findSweptSwingIdx (h1Candles : list BacktestCandle) (sweepCandleIdx : Z) (sd : Side)
    (level : num) (searchBack : Z) : Res (option Z) :=
  let minIdx := Z.max 1 (sweepCandleIdx - searchBack) in
  if (minIdx <=? sweepCandleIdx - 1)%Z && (zlen h1Candles <=? sweepCandleIdx - 1)%Z
  then Throw "TypeError: Cannot read properties of undefined"
  else Ok (first_some (fun k => c ← zlookup h1Candles k;
                                if swept_extreme sd c =? level then Some k else None)
                      (down_from (sweepCandleIdx - 1) minIdx)).

(** ** D1 context *)
Definition getD1Bias (d1Candles : list BacktestCandle) (d1 : IndicatorState) (currentTime : string)
    : D1Bias :=
  let idx := index_at d1Candles (Date_parse currentTime) in
  if (idx <? 5)%Z then NEUTRAL
  else match zlookup d1Candles idx with
  | None => NEUTRAL
  | Some c =>
      let e := ind (ema50 d1) idx in
      let ePrev := ind (ema50 d1) (idx - 5) in
      if is_nan e || is_nan ePrev then NEUTRAL
      else
        let slope := e - ePrev in
        let slopePct := nabs slope / Math_max (of_Z 1) (close c) in
        if slopePct <? lit 3 3 then NEUTRAL
        else
          let above := close c >? e in
          if (slope >? of_Z 0) && above then BULLISH
          else if (slope <? of_Z 0) && negb above then BEARISH
          else NEUTRAL
  end.

(** The four checks of [isContinuationSafe] at the D1 bar [idx]. *)
Definition continuation_checks (c : BacktestCandle) (d1 : IndicatorState) (idx : Z) (bias : D1Bias) : bool :=
  let adxNow := ind (adx14 d1) idx in
  let adxPrev := ind (adx14 d1) (idx - 3) in
  if is_nan adxNow || is_nan adxPrev then false
  else if adxNow <=? adxPrev then false
  else if adxNow >? of_Z 50 then false
  else
    let e20 := ind (ema20 d1) idx in
    let e50 := ind (ema50 d1) idx in
    if is_nan e20 || is_nan e50 then false
    else if bool_decide (bias = BULLISH) && (e20 <=? e50) then false
    else if bool_decide (bias = BEARISH) && (e20 >=? e50) then false
    else if close c <=? of_Z 0 then false
    else negb (nabs (close c - e50) / close c >? lit 6 2).

Definition isContinuationSafe (d1Candles : list BacktestCandle) (d1 : option IndicatorState)
    (currentTime : string) (bias : D1Bias) : bool :=
  match d1 with
  | None => true
  | Some d =>
      if (zlen d1Candles =? 0)%Z then true
      else
        let idx := index_at d1Candles (Date_parse currentTime) in
        if (idx <? 50)%Z then false
        else match zlookup d1Candles idx with
             | Some c => continuation_checks c d idx bias
             | None => false
             end
  end.

(** ** Anchor levels *)
Record AnchorLevels := {
  pdh : option num; pdl : option num;
  asianHigh : option num; asianLow : option num;
  weeklyHigh : option num; weeklyLow : option num;
}.

(** A high, a low, and whether any bar was seen. *)
Record Range := { r_high : num; r_low : num; r_found : bool }.
Definition empty_range : Range := {| r_high := neg_Infinity; r_low := Infinity; r_found := false |}.
Definition extend (r : Range) (c : BacktestCandle) : Range := {|
  r_high := if high c >? r_high r then high c else r_high r;
  r_low := if low c <? r_low r then low c else r_low r;
  r_found := true |}.
Definition extend_if (b : bool) (r : Range) (c : BacktestCandle) : Range := if b then extend r c else r.

(** The instants [getAnchorLevels] computes from the current time. *)
Definition anchor_yKey (t : Z) : string := substring10 (toISOString (addDays (-1) t)).
Definition asianStart (t : Z) : Z := setUTCHours0 22 (addDays (-1) (setUTCHours0 0 t)).
Definition asianEnd (t : Z) : Z := setUTCHours0 6 t.
Definition thisWeekStart (t : Z) : Z := addDays (- ((getUTCDay t + 6) mod 7)) (setUTCHours0 0 t).
Definition lastWeekStart (t : Z) : Z := addDays (-7) (thisWeekStart t).

Definition in_prev_day (t : Z) (c : BacktestCandle) : bool :=
  String.eqb (substring10 (openTime c)) (anchor_yKey t).
Definition in_asian (t : Z) (c : BacktestCandle) : bool :=
  tv_le (Some (asianStart t)) (candle_ms c) && tv_lt (candle_ms c) (Some (asianEnd t)).
Definition in_last_week (t : Z) (c : BacktestCandle) : bool :=
  tv_le (Some (lastWeekStart t)) (candle_ms c) && tv_lt (candle_ms c) (Some (thisWeekStart t)).

(** The reverse pass, [cs] being the candles from the last one back. *)
Fixpoint anchor_pass (t : Z) (cs : list BacktestCandle) (pd asian week : Range) : Range * Range * Range :=
  match cs with
  | [] => (pd, asian, week)
  | c :: cs' =>
      if tv_le (Some t) (candle_ms c) then anchor_pass t cs' pd asian week
      else
        let pd := extend_if (in_prev_day t c) pd c in
        let asian := extend_if (in_asian t c) asian c in
        let week := extend_if (in_last_week t c) week c in
        if tv_lt (candle_ms c) (Some (lastWeekStart t - 2 * ms_day)%Z) then (pd, asian, week)
        else anchor_pass t cs' pd asian week
  end.

Definition found_high (r : Range) : option num := if r_found r then Some (r_high r) else None.
Definition found_low (r : Range) : option num := if r_found r then Some (r_low r) else None.

Definition levels_of (r : Range * Range * Range) : AnchorLevels :=
  let '(pd, asian, week) := r in
  {| pdh := found_high pd; pdl := found_low pd;
     asianHigh := found_high asian; asianLow := found_low asian;
     weeklyHigh := found_high week; weeklyLow := found_low week |}.

(** [getAnchorLevels]: [toISOString] throws on an unreadable time. *)
Definition getAnchorLevels (h1Candles : list BacktestCandle) (currentTime : string) : Res AnchorLevels :=
  match Date_parse currentTime with
  | None => Throw "RangeError: Invalid time value"
  | Some t => Ok (levels_of (anchor_pass t (reverse h1Candles) empty_range empty_range empty_range))
  end.

Definition withinTolerance (price level toleranceAtr atr : num) : bool :=
  nabs (price - level) <=? toleranceAtr * atr.

(** ** Sweeps *)

(** The volatility gate: an ATR, and no news spike. *)
Definition atr_gate (atr baseline : num) (cfg : SmcPairConfig) : bool :=
  negb (is_nan atr || (atr <=? of_Z 0)) &&
  negb (negb (is_nan baseline) && (baseline >? of_Z 0) && (atr / baseline >? atrSpikeLimit cfg)).

Definition sweep_mode (d1Adx : num) (cfg : SmcPairConfig) : SmcMode :=
  if d1Adx >=? trendingD1Adx cfg then CONTINUATION else REVERSAL.

(** [autoFilter && mode === 'CONTINUATION' && d1Candles && currentTime] and the check fails. *)
Definition auto_rejects (cfg : SmcPairConfig) (m : SmcMode) (d1Candles : option (list BacktestCandle))
    (d1 : option IndicatorState) (currentTime : option string) (bias : D1Bias) : bool :=
  default true (autoModeFilter cfg) && bool_decide (m = CONTINUATION) &&
  match d1Candles, currentTime with
  | Some ds, Some ct => negb (String.eqb ct "") && negb (isContinuationSafe ds d1 ct bias)
  | _, _ => false
  end.

Definition make_setup (bar : BacktestCandle) (atr : num) (h1Idx : Z) (m : SmcMode) (cfg : SmcPairConfig)
    (dir : Side) (level wick : num) (a : option AnchorType) : PendingSetup := {|
  direction := dir; sweepLevel := level; sweepWick := wick;
  sweepMid := (high bar + low bar) / of_Z 2; sweepCandleAtr := atr;
  sweepCandleHigh := high bar; sweepCandleLow := low bar;
  detectedAtH1Idx := h1Idx; expiresAtH1Idx := (h1Idx + setupExpiryH1Bars cfg)%Z;
  mode := m; sweepTime := openTime bar; anchorType := a |}.

(** The wick pierces [level] by the buffer and the body closes back inside. *)
Definition sweeps_high (bar : BacktestCandle) (level buffer : num) : bool :=
  (high bar >? level + buffer) && (close bar <? level).
Definition sweeps_low (bar : BacktestCandle) (level buffer : num) : bool :=
  (low bar <? level - buffer) && (close bar >? level).

Definition bias_allows (m : SmcMode) (bias : D1Bias) (dir : Side) : bool :=
  match m with
  | REVERSAL => true
  | CONTINUATION => match dir with
                    | BUY => bool_decide (bias = BULLISH)
                    | SELL => bool_decide (bias = BEARISH)
                    end
  end.

(** The displacement confirmation by the next bar. *)
Definition passesDisplacement (nextBar : option BacktestCandle) (dispAtr atr : num) (dir : Side) : bool :=
  if dispAtr <=? of_Z 0 then true
  else match nextBar with
       | None => false
       | Some n => let body := match dir with BUY => close n - open n | SELL => open n - close n end in
                   body >=? dispAtr * atr
       end.

Definition anchor_highs (a : AnchorLevels) : list (option num * AnchorType) :=
  [(pdh a, PDH); (asianHigh a, ASIAN_H); (weeklyHigh a, WEEKLY_H)].
Definition anchor_lows (a : AnchorLevels) : list (option num * AnchorType) :=
  [(pdl a, PDL); (asianLow a, ASIAN_L); (weeklyLow a, WEEKLY_L)].

(** One turn of the two anchor loops. *)
Definition try_anchor (bar : BacktestCandle) (nextBar : option BacktestCandle) (atr : num) (h1Idx : Z)
    (m : SmcMode) (bias : D1Bias) (cfg : SmcPairConfig) (dir : Side)
    (a : option num * AnchorType) : option PendingSetup :=
  let buffer := atr * sweepBufferAtr cfg in
  level ← a.1;
  let hit := match dir with SELL => sweeps_high bar level buffer | BUY => sweeps_low bar level buffer end in
  if hit && passesDisplacement nextBar (default (of_Z 0) (anchorDisplacementAtr cfg)) atr dir
     && bias_allows m bias dir
  then Some (make_setup bar atr h1Idx m cfg dir level
               (match dir with SELL => high bar | BUY => low bar end) (Some a.2))
  else None.

(** [a ?? b] on answers. *)
Definition or_else {A} (a b : option A) : option A := match a with Some _ => a | None => b end.

Definition detectAnchorSweep (h1Candles : list BacktestCandle) (h1 : IndicatorState) (h1Idx : Z)
    (bias : D1Bias) (d1Adx : num) (cfg : SmcPairConfig) (d1Candles : option (list BacktestCandle))
    (d1 : option IndicatorState) (currentTime : option string) : Res (option PendingSetup) :=
  if (h1Idx <? 5)%Z then Ok None
  else match zlookup h1Candles h1Idx with
  | None => Ok None
  | Some bar =>
      let atr := ind (atr14 h1) h1Idx in
      if negb (atr_gate atr (ind (atrBaseline h1) h1Idx) cfg) then Ok None
      else match getAnchorLevels h1Candles (openTime bar) with
      | Throw e => Throw e
      | Ok anchors =>
          let m := sweep_mode d1Adx cfg in
          if auto_rejects cfg m d1Candles d1 currentTime bias then Ok None
          else
            let try := try_anchor bar (zlookup h1Candles (h1Idx + 1)) atr h1Idx m bias cfg in
            Ok (or_else (first_some (try SELL) (anchor_highs anchors))
                        (first_some (try BUY) (anchor_lows anchors)))
      end
  end.

(** The two tests of the generic variant. *)
Definition try_high (h1Candles : list BacktestCandle) (bar : BacktestCandle) (atr : num) (h1Idx : Z)
    (m : SmcMode) (cfg : SmcPairConfig) : option PendingSetup :=
  level ← findRecentSwingHigh h1Candles h1Idx (recentSwingLookbackH1 cfg);
  if sweeps_high bar level (atr * sweepBufferAtr cfg)
  then Some (make_setup bar atr h1Idx m cfg SELL level (high bar) None) else None.

Definition try_low (h1Candles : list BacktestCandle) (bar : BacktestCandle) (atr : num) (h1Idx : Z)
    (m : SmcMode) (cfg : SmcPairConfig) : option PendingSetup :=
  level ← findRecentSwingLow h1Candles h1Idx (recentSwingLookbackH1 cfg);
  if sweeps_low bar level (atr * sweepBufferAtr cfg)
  then Some (make_setup bar atr h1Idx m cfg BUY level (low bar) None) else None.

Definition detectSweep (h1Candles : list BacktestCandle) (h1 : IndicatorState) (h1Idx : Z)
    (bias : D1Bias) (d1Adx : num) (cfg : SmcPairConfig) (d1Candles : option (list BacktestCandle))
    (d1 : option IndicatorState) (currentTime : option string) : Res (option PendingSetup) :=
  if flag (useAnchorSweeps cfg)
  then detectAnchorSweep h1Candles h1 h1Idx bias d1Adx cfg d1Candles d1 currentTime
  else if (h1Idx <? 5)%Z then Ok None
  else match zlookup h1Candles h1Idx with
  | None => Ok None
  | Some bar =>
      let atr := ind (atr14 h1) h1Idx in
      if negb (atr_gate atr (ind (atrBaseline h1) h1Idx) cfg) then Ok None
      else
        let m := sweep_mode d1Adx cfg in
        if auto_rejects cfg m d1Candles d1 currentTime bias then Ok None
        else
          let sell := try_high h1Candles bar atr h1Idx m cfg in
          let buy := try_low h1Candles bar atr h1Idx m cfg in
          Ok match m, bias with
             | CONTINUATION, BULLISH => buy
             | CONTINUATION, BEARISH => sell
             | CONTINUATION, NEUTRAL => None
             | REVERSAL, _ => or_else sell buy
             end
  end.
