(* ===== verification/SweepFacts.v ===== *)
(** * Properties of the sweep detector

    The binary search finds the last bar at or before the time and never sees a
    later bar; the anchor levels are the extremes of the bars of their window; a
    detected sweep is a sweep; the swept swing is found again by its level. *)
From S2P Require Import Prelude JsNum NumFacts JsDate Types SweepDetector Instruments.

(** ** The binary search *)

(** Candles with readable times in non-decreasing order. *)
Definition chronological (cs : list BacktestCandle) : Prop :=
  exists ts, candle_ms <$> cs = Some <$> ts /\ StronglySorted Z.le ts.

Lemma chronological_at cs i c :
  chronological cs -> zlookup cs i = Some c -> exists ms, candle_ms c = Some ms.
Proof.
  intros (ts & Hts & _) Hc. unfold zlookup in Hc. destruct (i <? 0); [done|].
  assert (Hl : (candle_ms <$> cs) !! Z.to_nat i = Some (candle_ms c)) by (by rewrite list_lookup_fmap, Hc).
  rewrite Hts, list_lookup_fmap in Hl. destruct (ts !! Z.to_nat i); simplify_eq/=. eauto.
Qed.

Lemma chronological_le cs i j a b x y :
  chronological cs -> i <= j -> zlookup cs i = Some a -> zlookup cs j = Some b ->
  candle_ms a = Some x -> candle_ms b = Some y -> x <= y.
Proof.
  intros (ts & Hts & Hs) Hij Ha Hb Hx Hy. unfold zlookup in *.
  destruct (Z.ltb_spec i 0), (Z.ltb_spec j 0); try done.
  assert (Hl : forall k c m, cs !! k = Some c -> candle_ms c = Some m -> ts !! k = Some m).
  { intros k c m Hk Hm. assert (E : (candle_ms <$> cs) !! k = Some (Some m)) by (by rewrite list_lookup_fmap, Hk; simpl; rewrite Hm).
    rewrite Hts, list_lookup_fmap in E. by destruct (ts !! k); simplify_eq/=. }
  apply (Hl _ _ _ Ha) in Hx. apply (Hl _ _ _ Hb) in Hy.
  destruct (decide (i = j)) as [->|]; [simplify_eq; lia|].
  eapply (StronglySorted_lookup Z.le ts); eauto. lia.
Qed.

(** [idx] is the last index with a time at or before [t]. *)
Definition last_at_or_before (cs : list BacktestCandle) (t idx : Z) : Prop :=
  -1 <= idx < zlen cs /\
  forall i c ms, zlookup cs i = Some c -> candle_ms c = Some ms -> (i <= idx <-> ms <= t).

Lemma bsearch_spec cs t fuel lo hi :
  chronological cs -> 0 <= lo -> hi < zlen cs -> lo <= hi + 1 -> (Z.to_nat (hi - lo + 1) <= fuel)%nat ->
  (forall i c ms, zlookup cs i = Some c -> candle_ms c = Some ms -> i < lo -> ms <= t) ->
  (forall i c ms, zlookup cs i = Some c -> candle_ms c = Some ms -> hi < i -> t < ms) ->
  last_at_or_before cs t (bsearch fuel cs (Some t) lo hi (lo - 1)).
Proof.
  intros Hc. revert lo hi. induction fuel as [|f IH]; intros lo hi Hlo Hhi Hle Hf Hbelow Habove.
  - simpl. split; [lia|]. intros i c ms Hi Hm. split; intros.
    + eapply Hbelow; eauto. lia.
    + apply Z.nlt_ge. intros Hlt. specialize (Habove _ _ _ Hi Hm). lia.
  - simpl bsearch. destruct (Z.leb_spec lo hi) as [Hl|Hl].
    + rewrite Z.shiftr_div_pow2 by done. change (2 ^ 1) with 2. set (m := (lo + hi) / 2).
      assert (Hm : lo <= m <= hi) by (unfold m; split; [apply Z.div_le_lower_bound|apply Z.div_le_upper_bound]; lia).
      destruct (zlookup_is_Some cs m) as [c Hcm]; [lia|].
      destruct (chronological_at _ _ _ Hc Hcm) as [ms Hms]. rewrite Hcm. simpl. rewrite Hms. simpl.
      destruct (Z.leb_spec ms t).
      * replace m with (m + 1 - 1) at 2 by lia. apply IH; [lia..| |done].
        intros i c' ms' Hi Hm' Hlt. assert (ms' <= ms); [|lia].
        eapply (chronological_le cs i m); eauto. lia.
      * apply IH; [lia..|done|]. intros i c' ms' Hi Hm' Hlt. assert (ms <= ms'); [|lia].
        eapply (chronological_le cs m i); eauto. lia.
    + split; [lia|]. intros i c ms Hi Hm. split; intros.
      * eapply Hbelow; eauto. lia.
      * apply Z.nlt_ge. intros Hlt. specialize (Habove _ _ _ Hi Hm). lia.
Qed.

Lemma index_at_last cs t : chronological cs -> last_at_or_before cs t (index_at cs (Some t)).
Proof.
  intros Hc. unfold index_at. apply (bsearch_spec cs t (length cs) 0 (zlen cs - 1)); try done;
    unfold zlen; try lia.
  - intros i c ms Hi _ Hlt. apply zlookup_Some in Hi. lia.
  - intros i c ms Hi _ Hlt. apply zlookup_Some in Hi. unfold zlen in Hi. lia.
Qed.

(** On candles in time order the binary search returns the last bar opened at or before
    the time: every bar up to it is, no later bar is, and -1 means there is none. *)
Theorem index_at_spec (cs : list BacktestCandle) (t : Z) :
  chronological cs -> last_at_or_before cs t (index_at cs (Some t)).
Proof. apply index_at_last. Qed.

Lemma last_at_or_before_unique cs t i j :
  chronological cs -> last_at_or_before cs t i -> last_at_or_before cs t j -> i = j.
Proof.
  intros Hc [Hi Hi'] [Hj Hj'].
  assert (forall a b, -1 <= a < zlen cs -> -1 <= b < zlen cs ->
     (forall i c ms, zlookup cs i = Some c -> candle_ms c = Some ms -> i <= a -> ms <= t) ->
     (forall i c ms, zlookup cs i = Some c -> candle_ms c = Some ms -> ms <= t -> i <= b) -> a <= b) as Hab.
  { intros a b Ha Hb H1 H2. destruct (decide (a = -1)); [lia|].
    destruct (zlookup_is_Some cs a) as [c Hc']; [lia|].
    destruct (chronological_at _ _ _ Hc Hc') as [ms Hms]. eapply H2; eauto. eapply H1; eauto. lia. }
  apply Z.le_antisymm; apply Hab; try lia; intros k c ms H1 H2 H3;
    first [by apply (Hi' k c ms) | by apply (Hj' k c ms)].
Qed.

(** Bars that open after [t] do not change the answer. *)
Lemma index_at_app cs fs t :
  chronological (cs ++ fs) ->
  Forall (fun c => exists ms, candle_ms c = Some ms /\ t < ms) fs ->
  index_at (cs ++ fs) (Some t) = index_at cs (Some t).
Proof.
  intros Hc Hf. pose proof (index_at_last _ t Hc) as H1.
  assert (Hcs : chronological cs).
  { destruct Hc as (ts & Hts & Hs). exists (take (length cs) ts). split.
    - assert (E : take (length cs) (candle_ms <$> cs ++ fs) = take (length cs) (Some <$> ts)) by (by rewrite Hts).
      rewrite fmap_app, take_app_le in E by (by rewrite length_fmap).
      rewrite take_ge in E by (by rewrite length_fmap). by rewrite E, <- fmap_take.
    - by apply StronglySorted_take. }
  eapply (last_at_or_before_unique (cs ++ fs) t); [done..|].
  destruct (index_at_last cs t Hcs) as [Hr Hs]. split.
  - unfold zlen in *. rewrite length_app. lia.
  - intros i c ms Hi Hm. destruct (decide (i < zlen cs)) as [Hlt|Hge].
    + apply (Hs i c ms); [|done]. pose proof (zlookup_Some _ _ _ Hi). unfold zlookup, zlen in *.
      destruct (Z.ltb_spec i 0); [done|]. by rewrite lookup_app_l in Hi by lia.
    + assert (t < ms); [|lia]. rewrite Forall_forall in Hf.
      assert (Hin : c ∈ fs).
      { pose proof (zlookup_Some _ _ _ Hi). unfold zlookup, zlen in *.
        destruct (Z.ltb_spec i 0); [done|]. rewrite lookup_app_r in Hi by lia.
        by eapply list_elem_of_lookup_2. }
      destruct (Hf _ Hin) as (ms' & Hm' & ?). simplify_eq. done.
Qed.

(** ** The D1 context *)

(** Two indicator sets that agree on the first [n] bars. *)
Definition agree_upto (n : Z) (a b : IndicatorState) : Prop :=
  forall i, i < n ->
    ind (ema20 a) i = ind (ema20 b) i /\ ind (ema50 a) i = ind (ema50 b) i /\
    ind (adx14 a) i = ind (adx14 b) i.

Lemma zlookup_app_l {A} (l k : list A) i : i < zlen l -> zlookup (l ++ k) i = zlookup l i.
Proof.
  intros. unfold zlookup, zlen in *. destruct (Z.ltb_spec i 0); [done|]. apply lookup_app_l. lia.
Qed.

(** The D1 bias and the continuation check do not look ahead: bars that open after the
    current time, and the indicator values at those bars, change neither answer. *)
Theorem d1_context_no_lookahead (cs fs : list BacktestCandle) (d d' : IndicatorState)
    (now : string) (t : Z) (bias : D1Bias) :
  Date_parse now = Some t -> cs <> [] -> chronological (cs ++ fs) ->
  Forall (fun c => exists ms, candle_ms c = Some ms /\ t < ms) fs ->
  agree_upto (zlen cs) d d' ->
  getD1Bias (cs ++ fs) d' now = getD1Bias cs d now /\
  isContinuationSafe (cs ++ fs) (Some d') now bias = isContinuationSafe cs (Some d) now bias.
Proof.
  intros Hnow Hne Hc Hf Hag. unfold getD1Bias, isContinuationSafe. rewrite Hnow.
  rewrite (index_at_app cs fs t Hc Hf).
  assert (Hidx : index_at cs (Some t) < zlen cs).
  { destruct (decide (index_at cs (Some t) = -1)) as [->|Hi]; [unfold zlen; lia|].
    rewrite <- (index_at_app cs fs t Hc Hf). rewrite <- (index_at_app cs fs t Hc Hf) in Hi.
    destruct (index_at_last _ t Hc) as [Hr Hs]. destruct (Z.lt_ge_cases (index_at (cs ++ fs) (Some t)) (zlen cs)) as [|Hge]; [done|].
    destruct (zlookup_is_Some (cs ++ fs) (index_at (cs ++ fs) (Some t))) as [c Hcx]; [lia|].
    destruct (chronological_at _ _ _ Hc Hcx) as [ms Hms]. destruct (Hs _ _ _ Hcx Hms) as [Hle _].
    specialize (Hle ltac:(lia)). rewrite Forall_forall in Hf.
    assert (Hin : c ∈ fs).
    { unfold zlookup, zlen in *. destruct (Z.ltb_spec (index_at (cs ++ fs) (Some t)) 0); [done|].
      rewrite lookup_app_r in Hcx by lia. by eapply list_elem_of_lookup_2. }
    destruct (Hf _ Hin) as (? & ? & ?). simplify_eq. lia. }
  set (idx := index_at cs (Some t)) in *. clearbody idx. rewrite zlookup_app_l by done.
  destruct (Hag idx Hidx) as (H1 & H2 & H3).
  destruct (Hag (idx - 5) ltac:(lia)) as (_ & H4 & _).
  destruct (Hag (idx - 3) ltac:(lia)) as (_ & _ & H5).
  assert (Hz : (zlen (cs ++ fs) =? 0) = (zlen cs =? 0)).
  { unfold zlen. rewrite length_app. destruct cs; [done|]. simpl.
    destruct (Z.eqb_spec (Z.of_nat (S (length cs + length fs))) 0); destruct (Z.eqb_spec (Z.of_nat (S (length cs))) 0); lia. }
  rewrite Hz. split.
  - rewrite H2, H4. done.
  - unfold continuation_checks. by rewrite H1, H2, H3, H5.
Qed.

(** ** Swings *)
Lemma swing_high_at_Some cs k x :
  swing_high_at cs k = Some x -> exists c, zlookup cs k = Some c /\ high c = x /\ is_nan x = false.
Proof.
  unfold swing_high_at. intros. repeat case_match; simplify_eq. bool_hyps. eexists. split_and!; [done..|].
  by destruct (nltb_not_nan _ _ H3).
Qed.
Lemma swing_low_at_Some cs k x :
  swing_low_at cs k = Some x -> exists c, zlookup cs k = Some c /\ low c = x /\ is_nan x = false.
Proof.
  unfold swing_low_at. intros. repeat case_match; simplify_eq. bool_hyps. eexists. split_and!; [done..|].
  by destruct (nltb_not_nan _ _ H3).
Qed.

(** The level of a generic sweep is the extreme of a candle before the sweep bar. *)
Lemma recent_swing_candle cs i lb sd x :
  match sd with BUY => findRecentSwingLow cs i lb | SELL => findRecentSwingHigh cs i lb end = Some x ->
  exists k c, Z.max 1 (i - lb) <= k <= i - 1 /\ zlookup cs k = Some c /\ swept_extreme sd c = x /\ is_nan x = false.
Proof.
  destruct sd; intros (k & Hk & Hx & _)%first_some_down.
  - apply swing_low_at_Some in Hx as (c & ? & ? & ?). by exists k, c.
  - apply swing_high_at_Some in Hx as (c & ? & ? & ?). by exists k, c.
Qed.

(** The swing the sweep took out is found again.  A generic sweep looks back at most
    [searchBack] bars for its swing, so [findSweptSwingIdx] answers an index before the
    sweep bar whose extreme is the swept level, and never throws or gives up. *)
Theorem swept_swing_is_found (cs : list BacktestCandle) (i lookback searchBack : Z) (sd : Side) (level : num) :
  i < zlen cs -> lookback <= searchBack ->
  match sd with
  | BUY => findRecentSwingLow cs i lookback
  | SELL => findRecentSwingHigh cs i lookback
  end = Some level ->
  exists k c, findSweptSwingIdx cs i sd level searchBack = Ok (Some k) /\
    1 <= k < i /\ zlookup cs k = Some c /\ neqb (swept_extreme sd c) level = true.
Proof.
  intros Hi Hlb Hx. apply recent_swing_candle in Hx as (k & c & Hk & Hc & He & Hn).
  unfold findSweptSwingIdx. cbv zeta. destruct (Z.leb_spec (zlen cs) (i - 1)); [lia|].
  rewrite andb_false_r.
  set (f := fun k => c ← zlookup cs k; if neqb (swept_extreme sd c) level then Some k else None).
  assert (Hf : f k = Some k).
  { unfold f. rewrite Hc. simpl. rewrite He, neqb_refl by done. done. }
  assert (Hin : k ∈ down_from (i - 1) (Z.max 1 (i - searchBack))) by (apply elem_of_down_from; lia).
  destruct (first_some_is_Some f _ k Hin) as [j Hj]; [eauto|]. rewrite Hj.
  apply first_some_down in Hj as (j' & Hj' & Hfj & _). unfold f in Hfj.
  destruct (zlookup cs j') as [c'|] eqn:Hc'; simplify_eq/=.
  case_match eqn:Heq; simplify_eq. exists j, c'. split_and!; try done; lia.
Qed.

(** ** What a detected sweep is *)

(** The swept level of [s] is the most recent swing (generic), or one of the anchor
    levels at the bar's own time, under the anchor's name (anchor variant). *)
Definition level_source (cs : list BacktestCandle) (cfg : SmcPairConfig) (bar : BacktestCandle)
    (i : Z) (s : PendingSetup) : Prop :=
  if flag (useAnchorSweeps cfg) then
    exists a ty, getAnchorLevels cs (openTime bar) = Ok a /\ anchorType s = Some ty /\
      (Some (sweepLevel s), ty) ∈ match direction s with SELL => anchor_highs a | BUY => anchor_lows a end
  else
    anchorType s = None /\
    match direction s with
    | SELL => findRecentSwingHigh cs i (recentSwingLookbackH1 cfg) = Some (sweepLevel s)
    | BUY => findRecentSwingLow cs i (recentSwingLookbackH1 cfg) = Some (sweepLevel s)
    end.

(** The wick goes beyond the level by more than the buffer, the close is back inside. *)
Definition pierces (d : Side) (bar : BacktestCandle) (level buffer : num) : Prop :=
  match d with
  | SELL => (high bar >? level + buffer)%num = true /\ (close bar <? level)%num = true
  | BUY => (low bar <? level - buffer)%num = true /\ (close bar >? level)%num = true
  end.

Lemma sweeps_pierces d bar level buffer :
  match d with SELL => sweeps_high bar level buffer | BUY => sweeps_low bar level buffer end = true ->
  pierces d bar level buffer.
Proof. destruct d; apply andb_prop. Qed.

(** [s] is a sweep made by the bar at [i]: the wick pierced the level by the buffer, the
    body closed back inside, the volatility gate passed, the mode is the ADX regime's, a
    continuation goes with the D1 bias and was not rejected by the automatic filter (on the D1
    bars [ds] with the indicators [d1] at [now]), and the next bar confirmed the sweep of an
    anchor by its displacement. *)
Record sweep_at (cs : list BacktestCandle) (h1 : IndicatorState) (cfg : SmcPairConfig)
    (ds : option (list BacktestCandle)) (d1 : option IndicatorState) (now : option string)
    (bias : D1Bias) (adx : num) (i : Z) (s : PendingSetup) : Prop := {
  sw_idx : detectedAtH1Idx s = i /\ expiresAtH1Idx s = i + setupExpiryH1Bars cfg /\ 5 <= i;
  sw_gate : sweepCandleAtr s = ind (atr14 h1) i /\
            atr_gate (sweepCandleAtr s) (ind (atrBaseline h1) i) cfg = true;
  sw_mode : mode s = sweep_mode adx cfg;
  sw_bias : bias_allows (mode s) bias (direction s) = true;
  sw_bar : exists bar, zlookup cs i = Some bar /\ sweepTime s = openTime bar /\
    sweepCandleHigh s = high bar /\ sweepCandleLow s = low bar /\
    sweepWick s = swept_extreme (direction s) bar /\
    pierces (direction s) bar (sweepLevel s) (sweepCandleAtr s * sweepBufferAtr cfg)%num /\
    level_source cs cfg bar i s;
  sw_auto : default true (autoModeFilter cfg) = true -> mode s = CONTINUATION ->
    forall days t, ds = Some days -> now = Some t -> t <> ""%string ->
    isContinuationSafe days d1 t bias = true;
  sw_displaced : flag (useAnchorSweeps cfg) = true ->
    (default (of_Z 0) (anchorDisplacementAtr cfg) >? of_Z 0)%num = true ->
    exists next, zlookup cs (i + 1) = Some next /\
      nleb (default (of_Z 0) (anchorDisplacementAtr cfg) * sweepCandleAtr s)%num
        (match direction s with BUY => close next - open next | SELL => open next - close next end)%num = true;
}.

(** What a filter that did not reject means. *)
Lemma auto_passed cfg m ds d1 now bias :
  auto_rejects cfg m ds d1 now bias = false ->
  default true (autoModeFilter cfg) = true -> m = CONTINUATION ->
  forall days t, ds = Some days -> now = Some t -> t <> ""%string -> isContinuationSafe days d1 t bias = true.
Proof.
  unfold auto_rejects. intros H Hon -> days t -> -> Ht. rewrite Hon in H. simpl in H.
  destruct (String.eqb_spec t ""); [done|]. simpl in H. by apply negb_false_iff in H.
Qed.

Lemma displacement_passed nb d atr dir :
  passesDisplacement nb d atr dir = true -> (d >? of_Z 0)%num = true ->
  exists next, nb = Some next /\
    nleb (d * atr)%num (match dir with BUY => close next - open next | SELL => open next - close next end)%num = true.
Proof.
  unfold passesDisplacement. intros H Hd.
  destruct (nleb d (of_Z 0)) eqn:E; [exfalso; num_order|].
  destruct nb as [next|]; [|done]. exists next. by destruct dir.
Qed.

Lemma try_high_Some cs bar atr i m cfg s :
  try_high cs bar atr i m cfg = Some s ->
  exists l, findRecentSwingHigh cs i (recentSwingLookbackH1 cfg) = Some l /\
    pierces SELL bar l (atr * sweepBufferAtr cfg)%num /\
    s = make_setup bar atr i m cfg SELL l (high bar) None.
Proof.
  unfold try_high. destruct (findRecentSwingHigh _ _ _) as [l|]; simpl; [|done].
  case_match eqn:E; [|done]. intros [= <-]. exists l. split; [done|]. split; [by apply (sweeps_pierces SELL)|done].
Qed.

Lemma try_low_Some cs bar atr i m cfg s :
  try_low cs bar atr i m cfg = Some s ->
  exists l, findRecentSwingLow cs i (recentSwingLookbackH1 cfg) = Some l /\
    pierces BUY bar l (atr * sweepBufferAtr cfg)%num /\
    s = make_setup bar atr i m cfg BUY l (low bar) None.
Proof.
  unfold try_low. destruct (findRecentSwingLow _ _ _) as [l|]; simpl; [|done].
  case_match eqn:E; [|done]. intros [= <-]. exists l. split; [done|]. split; [by apply (sweeps_pierces BUY)|done].
Qed.

Lemma try_anchor_Some bar nb atr i m bias cfg dir a s :
  try_anchor bar nb atr i m bias cfg dir a = Some s ->
  exists l, a.1 = Some l /\
    pierces dir bar l (atr * sweepBufferAtr cfg)%num /\
    passesDisplacement nb (default (of_Z 0) (anchorDisplacementAtr cfg)) atr dir = true /\
    bias_allows m bias dir = true /\
    s = make_setup bar atr i m cfg dir l (swept_extreme dir bar) (Some a.2).
Proof.
  unfold try_anchor. destruct a as [[l|] ty]; simpl; [|done]. case_match eqn:E; [|done].
  bool_hyps. intros [= <-]. exists l. split_and!; try done. by apply sweeps_pierces.
Qed.

Lemma generic_sweep cs h1 i bias adx cfg ds d1 now s bar (sell buy : option PendingSetup) :
  flag (useAnchorSweeps cfg) = false -> zlookup cs i = Some bar -> 5 <= i ->
  atr_gate (ind (atr14 h1) i) (ind (atrBaseline h1) i) cfg = true ->
  sell = try_high cs bar (ind (atr14 h1) i) i (sweep_mode adx cfg) cfg ->
  buy = try_low cs bar (ind (atr14 h1) i) i (sweep_mode adx cfg) cfg ->
  auto_rejects cfg (sweep_mode adx cfg) ds d1 now bias = false ->
  (sell = Some s /\ bias_allows (sweep_mode adx cfg) bias SELL = true \/
   buy = Some s /\ bias_allows (sweep_mode adx cfg) bias BUY = true) ->
  sweep_at cs h1 cfg ds d1 now bias adx i s.
Proof.
  intros Ha Hb H5 Hg -> -> Hauto [[Hs Hbias]|[Hs Hbias]].
  - apply try_high_Some in Hs as (l & Hl & Hsw & ->).
    constructor; try done; [|by apply auto_passed|by rewrite Ha].
    exists bar. unfold level_source. rewrite Ha. split_and!; done.
  - apply try_low_Some in Hs as (l & Hl & Hsw & ->).
    constructor; try done; [|by apply auto_passed|by rewrite Ha].
    exists bar. unfold level_source. rewrite Ha. split_and!; done.
Qed.

Lemma anchor_sweep cs h1 i bias adx cfg ds d1 now s bar a dir x :
  flag (useAnchorSweeps cfg) = true -> zlookup cs i = Some bar -> 5 <= i ->
  atr_gate (ind (atr14 h1) i) (ind (atrBaseline h1) i) cfg = true ->
  getAnchorLevels cs (openTime bar) = Ok a ->
  x ∈ match dir with SELL => anchor_highs a | BUY => anchor_lows a end ->
  auto_rejects cfg (sweep_mode adx cfg) ds d1 now bias = false ->
  try_anchor bar (zlookup cs (i + 1)) (ind (atr14 h1) i) i (sweep_mode adx cfg) bias cfg dir x = Some s ->
  sweep_at cs h1 cfg ds d1 now bias adx i s.
Proof.
  intros Ha Hb H5 Hg Hanch Hin Hauto Hs. destruct x as [o ty].
  apply try_anchor_Some in Hs as (l & Hl & Hsw & Hd & Hbias & ->). simpl in Hl. subst o.
  constructor; try done; [|by apply auto_passed|intros _; by apply displacement_passed]. exists bar. unfold level_source. rewrite Ha.
  split_and!; try done; exists a, ty; done.
Qed.

Lemma detectSweep_sound_at (cs : list BacktestCandle) (h1 : IndicatorState) (i : Z) (bias : D1Bias)
    (adx : num) (cfg : SmcPairConfig) (ds : option (list BacktestCandle)) (d1 : option IndicatorState)
    (now : option string) (s : PendingSetup) :
  detectSweep cs h1 i bias adx cfg ds d1 now = Ok (Some s) -> sweep_at cs h1 cfg ds d1 now bias adx i s.
Proof.
  unfold detectSweep. destruct (flag (useAnchorSweeps cfg)) eqn:Ha.
  - unfold detectAnchorSweep. destruct (Z.ltb_spec i 5); [done|].
    destruct (zlookup cs i) as [bar|] eqn:Hb; [|done]. cbv zeta.
    destruct (atr_gate _ _ _) eqn:Hg; cbn [negb]; [|done].
    destruct (getAnchorLevels cs (openTime bar)) as [a|] eqn:Hanch; [|done].
    destruct (auto_rejects _ _ _ _ _ _) eqn:Hauto; [done|]. intros Hs%Ok_inj.
    unfold or_else in Hs. destruct (first_some _ (anchor_highs a)) as [s'|] eqn:Hh; simplify_eq.
    + apply first_some_elem in Hh as (x & Hx & Hs). by eapply (anchor_sweep _ _ _ _ _ _ _ _ _ _ bar a SELL x).
    + apply first_some_elem in Hs as (x & Hx & Hs). by eapply (anchor_sweep _ _ _ _ _ _ _ _ _ _ bar a BUY x).
  - destruct (Z.ltb_spec i 5); [done|].
    destruct (zlookup cs i) as [bar|] eqn:Hb; [|done]. cbv zeta.
    destruct (atr_gate _ _ _) eqn:Hg; cbn [negb]; [|done].
    destruct (auto_rejects _ _ _ _ _ _) eqn:Hauto; [done|]. intros Hs%Ok_inj.
    eapply (generic_sweep cs h1 i bias adx cfg ds d1 now s bar); eauto; [].
    destruct (sweep_mode adx cfg), bias; simpl in *; try done; auto;
      unfold or_else in Hs; case_match; simplify_eq; auto.
Qed.

(** C17: a setup the detector returns is a liquidity sweep made by that H1 bar: its wick pierced
    the level by the configured ATR buffer and its body closed back inside; the level is the
    most recent fractal swing, or a session anchor of that bar's time for the anchor variant;
    the volatility gate passed; the mode is the ADX regime's; a continuation trade goes with the
    D1 bias and, while the automatic filter is on and D1 bars and the time are given, the D1
    trend was found safe; in the anchor variant with a displacement configured the next bar's
    body moved that many ATRs in the trade's direction; the expiry is the configured number of
    bars. *)
Theorem detectSweep_sound (cs : list BacktestCandle) (h1 : IndicatorState) (i : Z) (bias : D1Bias)
    (adx : num) (cfg : SmcPairConfig) (ds : option (list BacktestCandle)) (d1 : option IndicatorState)
    (now : option string) (s : PendingSetup) :
  detectSweep cs h1 i bias adx cfg ds d1 now = Ok (Some s) -> sweep_at cs h1 cfg ds d1 now bias adx i s.
Proof. apply detectSweep_sound_at. Qed.

(** ** Anchor levels *)

(** [o] is the extreme of [f] (by [better]) over the bars of [cs] that satisfy [p]; absent
    exactly when no bar does. *)
Definition extreme_of (better : num -> num -> bool) (f : BacktestCandle -> num)
    (p : BacktestCandle -> bool) (cs : list BacktestCandle) (o : option num) : Prop :=
  match o with
  | None => forall c, c ∈ cs -> p c = false
  | Some x => (exists c, c ∈ cs /\ p c = true /\ f c = x) /\
              forall c, c ∈ cs -> p c = true -> better (f c) x = false
  end.
Definition above (x y : num) : bool := nltb y x.
Definition below (x y : num) : bool := nltb x y.

(** What the reverse pass has collected over the bars [seen]. *)
Definition collected (p : BacktestCandle -> bool) (seen : list BacktestCandle) (r : Range) : Prop :=
  extreme_of above high p seen (found_high r) /\ extreme_of below low p seen (found_low r) /\
  (r_found r = false -> r = empty_range).

Lemma neg_Infinity_least x : is_nan x = false -> nltb neg_Infinity x = false -> x = neg_Infinity.
Proof. intros Hn H. destruct x as [[]|[]| |[] ? ?]; try done; num_order; simpl in *; lia. Qed.
Lemma Infinity_most x : is_nan x = false -> nltb x Infinity = false -> x = Infinity.
Proof. intros Hn H. destruct x as [[]|[]| |[] ? ?]; try done; num_order; simpl in *; lia. Qed.

Lemma extreme_of_skip b f p seen o c :
  p c = false -> extreme_of b f p seen o -> extreme_of b f p (c :: seen) o.
Proof.
  intros Hp. destruct o as [x|]; simpl.
  - intros [(c0 & Hc0 & H0) H1]. split; [exists c0; split; [by right|done]|].
    intros c' [->|Hc']%elem_of_cons Hp'; [congruence|auto].
  - intros H1 c' [->|Hc']%elem_of_cons; auto.
Qed.

Lemma extreme_of_perm b f p seen seen' o :
  seen ≡ₚ seen' -> extreme_of b f p seen o -> extreme_of b f p seen' o.
Proof.
  intros Hp. destruct o as [x|]; simpl.
  - intros [(c0 & Hc0 & H0) H1]. split; [exists c0; by rewrite <- Hp|]. intros c'. rewrite <- Hp. auto.
  - intros H1 c'. rewrite <- Hp. auto.
Qed.

Lemma collected_skip p seen r c : p c = false -> collected p seen r -> collected p (c :: seen) r.
Proof.
  intros Hp (H1 & H2 & H3). split; [|split]; auto using extreme_of_skip.
Qed.

Lemma collected_extend p seen r c :
  p c = true -> is_nan (high c) = false -> is_nan (low c) = false ->
  collected p seen r -> collected p (c :: seen) (extend r c).
Proof.
  intros Hp Nh Nl (H1 & H2 & H3). unfold collected, found_high, found_low in *. simpl.
  split; [|split; [|done]].
  - destruct (r_found r) eqn:Hf.
    + destruct H1 as [(c0 & Hc0 & Hp0 & Hx0) H1]. unfold above in *.
      destruct (nltb (r_high r) (high c)) eqn:E; split.
      * exists c. split_and!; [left|done..].
      * intros c' [->|Hc']%elem_of_cons Hp'; [apply nltb_irrefl|]. specialize (H1 c' Hc' Hp'). num_order.
      * exists c0. split_and!; [by right|done..].
      * intros c' [->|Hc']%elem_of_cons Hp'; [done|auto].
    + rewrite (H3 eq_refl). simpl. unfold above. split.
      * exists c. split_and!; [left|done|]. case_match eqn:E; [done|]. by apply neg_Infinity_least.
      * intros c' [->|Hc']%elem_of_cons Hp'; [case_match eqn:E; [apply nltb_irrefl|done]|].
        simpl in H1. rewrite H1 in Hp' by done. done.
  - destruct (r_found r) eqn:Hf.
    + destruct H2 as [(c0 & Hc0 & Hp0 & Hx0) H2]. unfold below in *.
      destruct (nltb (low c) (r_low r)) eqn:E; split.
      * exists c. split_and!; [left|done..].
      * intros c' [->|Hc']%elem_of_cons Hp'; [apply nltb_irrefl|]. specialize (H2 c' Hc' Hp'). num_order.
      * exists c0. split_and!; [by right|done..].
      * intros c' [->|Hc']%elem_of_cons Hp'; [done|auto].
    + rewrite (H3 eq_refl). simpl. unfold below. split.
      * exists c. split_and!; [left|done|]. case_match eqn:E; [done|]. by apply Infinity_most.
      * intros c' [->|Hc']%elem_of_cons Hp'; [case_match eqn:E; [apply nltb_irrefl|done]|].
        simpl in H1. rewrite H1 in Hp' by done. done.
Qed.

Lemma collected_perm p seen seen' r : seen ≡ₚ seen' -> collected p seen r -> collected p seen' r.
Proof.
  intros Hp (H1 & H2 & H3). split; [|split]; eauto using extreme_of_perm.
Qed.

(** The bars of the previous UTC day, of the Asian session and of last week that
    opened before [t]. *)
Definition prev_day_bar (t : Z) (c : BacktestCandle) : bool :=
  match candle_ms c with Some m => day_of m =? day_of t - 1 | None => false end.
Definition asian_bar (t : Z) (c : BacktestCandle) : bool :=
  match candle_ms c with Some m => (asianStart t <=? m) && (m <? Z.min t (asianEnd t)) | None => false end.
Definition last_week_bar (t : Z) (c : BacktestCandle) : bool :=
  match candle_ms c with Some m => (lastWeekStart t <=? m) && (m <? thisWeekStart t) | None => false end.

Definition all_collected (t : Z) (seen : list BacktestCandle) (r : Range * Range * Range) : Prop :=
  collected (prev_day_bar t) seen r.1.1 /\ collected (asian_bar t) seen r.1.2 /\
  collected (last_week_bar t) seen r.2.

(** The week and session boundaries around [t]. *)
Lemma anchor_bounds t :
  lastWeekStart t = thisWeekStart t - 7 * ms_day /\ thisWeekStart t <= t /\
  t < thisWeekStart t + 7 * ms_day /\
  lastWeekStart t <= asianStart t /\ lastWeekStart t <= (day_of t - 1) * ms_day.
Proof.
  unfold lastWeekStart, thisWeekStart, asianStart, setUTCHours0, addDays, day_of, ms_day, ms_hour.
  pose proof (getUTCDay_range t). pose proof (Z.mod_pos_bound (getUTCDay t + 6) 7 ltac:(lia)).
  set (w := (getUTCDay t + 6) mod 7) in *.
  pose proof (Z.mod_pos_bound t 86400000 ltac:(lia)). pose proof (Z.div_mod t 86400000 ltac:(lia)).
  replace ((t / 86400000 * 86400000 + 0 * 3600000 + -1 * 86400000) / 86400000) with (t / 86400000 - 1).
  - lia.
  - apply (Z.div_unique_exact); lia.
Qed.

(** A bar the pass can read: its time, prices that are numbers, and a date text that is the
    date of its time as far as the previous day is concerned. *)
Definition readable (t : Z) (c : BacktestCandle) : Prop :=
  is_nan (high c) = false /\ is_nan (low c) = false /\
  exists m, candle_ms c = Some m /\ in_prev_day t c = (day_of m =? day_of t - 1).

Definition not_after (a b : BacktestCandle) : Prop :=
  exists x y, candle_ms a = Some x /\ candle_ms b = Some y /\ y <= x.

Lemma collected_extend_if p seen r c b :
  p c = b -> is_nan (high c) = false -> is_nan (low c) = false ->
  collected p seen r -> collected p (c :: seen) (extend_if b r c).
Proof. intros <- Hh Hl Hr. unfold extend_if. case_match; auto using collected_extend, collected_skip. Qed.

Lemma collected_skip_all p seen r cs :
  Forall (fun c => p c = false) cs -> collected p seen r -> collected p (cs ++ seen) r.
Proof. induction 1; simpl; auto using collected_skip. Qed.

(** A bar older than last week's start belongs to no anchor. *)
Lemma stale_bar t c m : candle_ms c = Some m -> m < lastWeekStart t ->
  prev_day_bar t c = false /\ asian_bar t c = false /\ last_week_bar t c = false.
Proof.
  intros Hm Hlt. destruct (anchor_bounds t) as (H1 & H2 & H3 & H4 & H5).
  unfold prev_day_bar, asian_bar, last_week_bar. rewrite Hm. unfold day_of, ms_day in *.
  split_and!; apply not_true_iff_false; intros Ht; bool_hyps; try lia.
  pose proof (Z.mul_div_le m 86400000 ltac:(lia)). lia.
Qed.

(** A bar that has not opened yet belongs to no anchor. *)
Lemma future_bar t c m : candle_ms c = Some m -> t <= m ->
  prev_day_bar t c = false /\ asian_bar t c = false /\ last_week_bar t c = false.
Proof.
  intros Hm Hle. destruct (anchor_bounds t) as (H1 & H2 & H3 & H4 & H5).
  unfold prev_day_bar, asian_bar, last_week_bar. rewrite Hm. unfold day_of, ms_day in *.
  pose proof (Z.div_le_mono t m 86400000 ltac:(lia) Hle).
  split_and!; apply not_true_iff_false; intros Ht; bool_hyps; lia.
Qed.

Lemma past_bar t c m : candle_ms c = Some m -> m < t ->
  in_asian t c = asian_bar t c /\ in_last_week t c = last_week_bar t c.
Proof.
  intros Hm Hlt. unfold in_asian, in_last_week, asian_bar, last_week_bar. rewrite Hm. simpl.
  split; [|done]. f_equal. destruct (Z.ltb_spec m (asianEnd t)), (Z.ltb_spec m (Z.min t (asianEnd t))); lia.
Qed.

Lemma anchor_pass_spec t cs : forall seen pd asian week,
  StronglySorted not_after cs -> Forall (readable t) cs ->
  all_collected t seen (pd, asian, week) ->
  all_collected t (cs ++ seen) (anchor_pass t cs pd asian week).
Proof.
  induction cs as [|c cs IH]; intros seen pd asian week Hs Hr Hc; [done|].
  inversion Hs as [|? ? Hs' Hlate]; subst. inversion Hr as [|? ? Hrc Hr']; subst.
  destruct Hrc as (Hh & Hl & m & Hm & Hday). destruct Hc as (C1 & C2 & C3). simpl in C1, C2, C3.
  assert (Hperm : cs ++ c :: seen ≡ₚ (c :: cs) ++ seen) by (symmetry; apply Permutation_middle).
  simpl anchor_pass. rewrite Hm. simpl tv_le. simpl tv_lt. destruct (Z.leb_spec t m) as [Ht|Ht].
  - destruct (future_bar t c m Hm Ht) as (F1 & F2 & F3).
    destruct (IH (c :: seen) pd asian week Hs' Hr') as (D1 & D2 & D3).
    { split; [|split]; by apply collected_skip. }
    split; [|split]; eapply collected_perm; eauto.
  - destruct (past_bar t c m Hm Ht) as [P1 P2].
    assert (E : all_collected t (c :: seen) (extend_if (in_prev_day t c) pd c,
              extend_if (in_asian t c) asian c, extend_if (in_last_week t c) week c)).
    { split; [|split]; simpl; apply collected_extend_if; try done. unfold prev_day_bar. by rewrite Hm. }
    destruct (Z.ltb_spec m (lastWeekStart t - 2 * ms_day)) as [Hb|Hb].
    + assert (Hst : Forall (fun c' => prev_day_bar t c' = false /\ asian_bar t c' = false /\
                last_week_bar t c' = false) cs).
      { eapply Forall_impl; [exact Hlate|]. intros c' (x & y & Hx & Hy & Hle). simplify_eq.
        apply (stale_bar t c' y Hy). unfold ms_day in Hb. lia. }
      destruct E as (E1 & E2 & E3).
      split; [|split]; simpl; eapply collected_perm; try exact Hperm; apply collected_skip_all; try done;
        (eapply Forall_impl; [exact Hst|]); intros c' (Q1 & Q2 & Q3); assumption.
    + destruct (IH _ _ _ _ Hs' Hr' E) as (D1 & D2 & D3).
      split; [|split]; eapply collected_perm; eauto.
Qed.

Lemma reverse_sorted cs : StronglySorted (flip not_after) cs -> StronglySorted not_after (reverse cs).
Proof.
  induction 1 as [|c cs Hs IH Hc]; [constructor|]. rewrite reverse_cons.
  clear Hs. assert (Hr : Forall (flip not_after c) (reverse cs)) by (by apply Forall_reverse).
  clear Hc. induction IH as [|x l Hl IHl Hx]; simpl; [repeat constructor|].
  inversion Hr; subst. constructor; [auto|]. apply Forall_app. auto.
Qed.

Lemma chronological_sorted cs : chronological cs -> StronglySorted (flip not_after) cs.
Proof.
  intros (ts & Hts & Hs). revert cs Hts. induction Hs as [|x ts Hs IH Hx]; intros [|c cs] Hts; try done.
  - constructor.
  - simpl in Hts. injection Hts as Hc Hts. constructor; [auto|].
    apply Forall_forall. intros c' Hc'.
    assert (Hin : candle_ms c' ∈ Some <$> ts) by (change (Some <$> ts) with (list_fmap _ _ Some ts); rewrite <- Hts; by apply list_elem_of_fmap_2).
    apply list_elem_of_fmap in Hin as (y & Hy & Hin). rewrite Forall_forall in Hx.
    exists y, x. auto.
Qed.

(** The anchor levels are what they are named after.  On readable bars in time order,
    PDH/PDL are the highest high and lowest low of the previous UTC day, the Asian levels
    those of 22:00-06:00 UTC up to now, the weekly levels those of the previous
    Monday-to-Monday week; a level is null exactly when its window has no bar.  The early
    exit of the reverse pass loses nothing. *)
Theorem anchor_levels_are_extremes (cs : list BacktestCandle) (now : string) (t : Z) :
  Date_parse now = Some t -> StronglySorted (flip not_after) cs -> Forall (readable t) cs ->
  exists a, getAnchorLevels cs now = Ok a /\
    extreme_of above high (prev_day_bar t) cs (pdh a) /\
    extreme_of below low (prev_day_bar t) cs (pdl a) /\
    extreme_of above high (asian_bar t) cs (asianHigh a) /\
    extreme_of below low (asian_bar t) cs (asianLow a) /\
    extreme_of above high (last_week_bar t) cs (weeklyHigh a) /\
    extreme_of below low (last_week_bar t) cs (weeklyLow a).
Proof.
  intros Hnow Hs Hr. unfold getAnchorLevels. rewrite Hnow. eexists. split; [done|].
  assert (Hc : all_collected t (reverse cs ++ [])
    (anchor_pass t (reverse cs) empty_range empty_range empty_range)).
  { apply anchor_pass_spec; [by apply reverse_sorted|by apply Forall_reverse|].
    split; [|split]; (split; [|split; [|done]]); by intros c Hc%elem_of_nil. }
  destruct (anchor_pass _ _ _ _ _) as [[pd asian] week]. destruct Hc as (C1 & C2 & C3).
  rewrite app_nil_r in C1, C2, C3. pose proof (reverse_Permutation cs) as Hp.
  apply (collected_perm _ _ _ _ Hp) in C1 as (? & ? & _).
  apply (collected_perm _ _ _ _ Hp) in C2 as (? & ? & _).
  apply (collected_perm _ _ _ _ Hp) in C3 as (? & ? & _). repeat split; assumption.
Qed.

(** ** Concrete bars: gold trades between 1990 and 2010 on 13 March 2024, and the bar of
    07:00 on the 14th spikes to 2013 and closes back at 2008. *)
Definition demo_bar_at (tf : string) (ms : Z) (o h l c : Z) : BacktestCandle := {|
  c_symbol := "XAUUSD"; timeframe := tf; openTime := toISOString ms;
  open := of_Z o; high := of_Z h; low := of_Z l; close := of_Z c; volume := of_Z 1 |}.

Definition demo_day : Z := 1710288000000.

Definition demo_h1 : list BacktestCandle :=
  Eval vm_compute in
  ((fun k => demo_bar_at "H1" (demo_day + (17 + k) * ms_hour) 2000 (if k =? 3 then 2010 else 2005)
               (if k =? 4 then 1990 else 1995) 2000) <$> up_from 1 13) ++
  [demo_bar_at "H1" (demo_day + 31 * ms_hour) 2000 2013 1999 2008].

Definition flat_indicators (atr adx : num) (n : nat) : IndicatorState := {|
  ema20 := repeat (of_Z 2000) n; ema50 := repeat (of_Z 2000) n; ema200 := repeat (of_Z 2000) n;
  rsi14 := repeat (of_Z 50) n; atr14 := repeat atr n; adx14 := repeat adx n;
  plusDI14 := repeat (of_Z 20) n; minusDI14 := repeat (of_Z 20) n; atrBaseline := repeat atr n |}.

Definition demo_h1_ind : IndicatorState := flat_indicators (of_Z 5) (of_Z 20) 14.

Definition demo_detect : Res (option PendingSetup) :=
  detectSweep demo_h1 demo_h1_ind 13 NEUTRAL (of_Z 20) XAUUSD_SMC_CONFIG None None None.

Lemma demo_detect_some : match demo_detect with
  | Ok (Some s) => direction s = SELL /\ anchorType s = Some PDH /\ sweepLevel s = of_Z 2010
  | _ => False end.
Proof. vm_compute. auto. Qed.

Lemma detectSweep_sound_witness :
  exists s, demo_detect = Ok (Some s) /\
    sweep_at demo_h1 demo_h1_ind XAUUSD_SMC_CONFIG None None None NEUTRAL (of_Z 20) 13 s.
Proof.
  pose proof demo_detect_some as H. destruct demo_detect as [[s|]|] eqn:E; [|contradiction H..].
  exists s. split; [reflexivity|].
  apply (detectSweep_sound demo_h1 demo_h1_ind 13 NEUTRAL (of_Z 20) XAUUSD_SMC_CONFIG None None None s E).
Defined.

Lemma demo_chronological : chronological demo_h1.
Proof.
  exists (((fun k => demo_day + (17 + k) * ms_hour) <$> up_from 1 13) ++ [demo_day + 31 * ms_hour]).
  split; [vm_compute; reflexivity|]. 
  apply Sorted_StronglySorted; [intros ?????; lia|]. vm_compute. repeat constructor; discriminate.
Qed.

Lemma index_at_spec_witness :
  chronological demo_h1 /\
  last_at_or_before demo_h1 (demo_day + 24 * ms_hour) (index_at demo_h1 (Some (demo_day + 24 * ms_hour))) /\
  index_at demo_h1 (Some (demo_day + 24 * ms_hour)) = 6.
Proof.
  split; [exact demo_chronological|]. split; [|vm_compute; reflexivity].
  apply index_at_spec. exact demo_chronological.
Defined.

Lemma anchor_levels_are_extremes_witness :
  exists a, getAnchorLevels demo_h1 "2024-03-14T07:00:00.000Z" = Ok a /\
    extreme_of above high (prev_day_bar (demo_day + 31 * ms_hour)) demo_h1 (pdh a) /\ pdh a = Some (of_Z 2010).
Proof.
  destruct (anchor_levels_are_extremes demo_h1 "2024-03-14T07:00:00.000Z" (demo_day + 31 * ms_hour))
    as (a & Ha & Hh & _).
  - vm_compute. reflexivity.
  - apply chronological_sorted. exact demo_chronological.
  - unfold demo_h1. repeat (constructor; [split; [vm_compute; reflexivity|]; split; [vm_compute; reflexivity|];
      eexists; split; [vm_compute; reflexivity|vm_compute; reflexivity]|]). constructor.
  - exists a. split; [exact Ha|]. split; [exact Hh|].
    assert (H : res_map pdh (getAnchorLevels demo_h1 "2024-03-14T07:00:00.000Z") = Ok (Some (of_Z 2010)))
      by (vm_compute; reflexivity).
    rewrite Ha in H. injection H as H. exact H.
Defined.

Lemma swept_swing_is_found_witness :
  findRecentSwingHigh demo_h1 13 24 = Some (of_Z 2010) /\
  exists k c, findSweptSwingIdx demo_h1 13 SELL (of_Z 2010) 50 = Ok (Some k) /\
    1 <= k < 13 /\ zlookup demo_h1 k = Some c /\ neqb (swept_extreme SELL c) (of_Z 2010) = true.
Proof.
  assert (H : findRecentSwingHigh demo_h1 13 24 = Some (of_Z 2010)) by (vm_compute; reflexivity).
  split; [exact H|].
  apply (swept_swing_is_found demo_h1 13 24 50 SELL (of_Z 2010)); [reflexivity|discriminate|exact H].
Defined.

Lemma d1_context_no_lookahead_witness :
  getD1Bias (take 8 demo_h1 ++ drop 8 demo_h1) demo_h1_ind "2024-03-14T01:30:00.000Z" =
  getD1Bias (take 8 demo_h1) demo_h1_ind "2024-03-14T01:30:00.000Z".
Proof.
  apply (d1_context_no_lookahead (take 8 demo_h1) (drop 8 demo_h1) demo_h1_ind demo_h1_ind
           "2024-03-14T01:30:00.000Z" (demo_day + 25 * ms_hour + 1800000) NEUTRAL).
  - vm_compute. reflexivity.
  - discriminate.
  - rewrite take_drop. exact demo_chronological.
  - unfold demo_h1. simpl drop. repeat (constructor; [eexists; split; [vm_compute; reflexivity|vm_compute; reflexivity]|]). constructor.
  - intros i _. repeat split.
Defined.
