(* ===== verification/Structure.v ===== *)
(** * Structure detectors

    src/backtest/engine/smc/fvg-detector.ts, order-block-detector.ts and
    bos-detector.ts: fair value gaps, order blocks and breaks of structure, with the
    gates built on them.  A gate answers [Some] of its evidence ([ok: true]) or
    [None] ([ok: false]). *)
From S2P Require Import Prelude JsNum JsDate Types SweepDetector.
Local Open Scope num_scope.

(** [atr[i] ?? 0] *)
Definition num_at (l : list num) (i : Z) : num := default (of_Z 0) (zlookup l i).

(** The first bar from [from] to [endIdx] on which [touch] holds: the mitigation loops. *)
Definition first_touch (touch : BacktestCandle -> bool) (cs : list BacktestCandle) (from endIdx : Z)
    : option Z :=
  first_some (fun k => c ← zlookup cs k; if touch c then Some k else None) (up_from from endIdx).

(** A zone entered from above (bullish) or from below. *)
Definition enters (isBullish : bool) (top bottom : num) (c : BacktestCandle) : bool :=
  if isBullish then low c <=? top else high c >=? bottom.

(** ** Fair value gaps *)
Module Fvg.
Record Fvg := {
  top : num;
  bottom : num;
  candleIdx : Z;
  candleTime : string;
  isBullish : bool;
  mitigated : bool;
  mitigatedAtIdx : Z;
  height : num;
}.

Record DetectFvgsOptions := {
  lookback : option Z;
  endIdx : option Z;
  minHeightAtrFraction : option num;
  atr : option (list num);
}.

(** The scan window: [endIdx] and [startIdx]. *)
Definition fvg_end (cs : list BacktestCandle) (o : DetectFvgsOptions) : Z :=
  Z.min (default (zlen cs - 1)%Z (endIdx o)) (zlen cs - 1).
Definition fvg_start (cs : list BacktestCandle) (o : DetectFvgsOptions) : Z :=
  Z.max 1 (fvg_end cs o - default (fvg_end cs o) (lookback o)).

Definition makeFvg (cs : list BacktestCandle) (i : Z) (time : string) (bot tp : num) (bull : bool)
    (end_ : Z) : Fvg :=
  let at_ := first_touch (enters bull tp bot) cs (i + 2) end_ in
  {| top := tp; bottom := bot; candleIdx := i; candleTime := time; isBullish := bull;
     mitigated := match at_ with Some _ => true | None => false end;
     mitigatedAtIdx := default (-1)%Z at_;
     height := tp - bot |}.

Definition passesAtrFilter (f : Fvg) (i : Z) (minAtrFrac : num) (a : option (list num)) : bool :=
  if minAtrFrac <=? of_Z 0 then true
  else match a with
       | None | Some [] => true
       | Some l => let localAtr := num_at l i in
                   if localAtr <=? of_Z 0 then true else height f >=? minAtrFrac * localAtr
       end.

(** The gap whose middle bar is [i], if there is one. *)
Definition gap_at (cs : list BacktestCandle) (end_ i : Z) : option Fvg :=
  match zlookup cs (i - 1), zlookup cs i, zlookup cs (i + 1) with
  | Some prev, Some c, Some next =>
      if low next >? high prev then Some (makeFvg cs i (openTime c) (high prev) (low next) true end_)
      else if high next <? low prev then Some (makeFvg cs i (openTime c) (high next) (low prev) false end_)
      else None
  | _, _, _ => None
  end.

Definition detectFvgs (cs : list BacktestCandle) (o : DetectFvgsOptions) : list Fvg :=
  omap (fun i => f ← gap_at cs (fvg_end cs o) i;
                 if passesAtrFilter f i (default (of_Z 0) (minHeightAtrFraction o)) (atr o)
                 then Some f else None)
       (up_from (fvg_start cs o + 1) (fvg_end cs o - 1)).

Definition wants (sd : Side) (bull : bool) : bool := Bool.eqb bull (bool_decide (sd = BUY)).

Definition nearestUnmitigatedFvg (cs : list BacktestCandle) (sd : Side) (o : DetectFvgsOptions)
    : option Fvg :=
  first_some (fun f => if mitigated f then None
                       else if negb (wants sd (isBullish f)) then None else Some f)
             (reverse (detectFvgs cs o)).

Definition hasSupportingFvg (cs : list BacktestCandle) (sd : Side) (entryPrice maxDistanceAtr : num)
    (a : list num) (end_ : Z) : option Fvg :=
  f ← nearestUnmitigatedFvg cs sd {| lookback := None; endIdx := Some end_;
                                     minHeightAtrFraction := None; atr := Some a |};
  let currentAtr := num_at a end_ in
  if currentAtr <=? of_Z 0 then Some f
  else if (entryPrice >=? bottom f) && (entryPrice <=? top f) then Some f
  else
    let distance := if entryPrice >? top f then entryPrice - top f else bottom f - entryPrice in
    if distance <=? maxDistanceAtr * currentAtr then Some f else None.

Definition sweptMoveLeftFvg (h1Candles : list BacktestCandle) (swingIdx : Z) (sd : Side) (lb : Z)
    (a : option (list num)) : option Fvg :=
  if (swingIdx <? 2)%Z then None
  else
    let all := detectFvgs h1Candles {| lookback := Some lb; endIdx := Some swingIdx;
                                       minHeightAtrFraction := None; atr := a |} in
    let minIdx := Z.max 0 (swingIdx - lb) in
    (fix walk (l : list Fvg) : option Fvg :=
       match l with
       | [] => None
       | f :: l' =>
           if (candleIdx f <? minIdx)%Z then None
           else if (swingIdx <=? candleIdx f)%Z then walk l'
           else if negb (Bool.eqb (isBullish f) (bool_decide (sd = SELL))) then walk l'
           else Some f
       end) (reverse all).
End Fvg.

(** ** Order blocks *)
Module OrderBlock.
Record OrderBlock := {
  top : num;
  bottom : num;
  candleTime : string;
  candleIdx : Z;
  isBullish : bool;
  displacement : num;
  mitigated : bool;
  mitigatedAtIdx : Z;
}.

Record DetectObOptions := {
  endIdx : option Z;
  lookForwardMax : option Z;
  displacementAtrMult : option num;
  atr : option (list num);
}.

Definition makeOb (cs : list BacktestCandle) (i : Z) (c : BacktestCandle) (bull : bool)
    (disp : num) (end_ : Z) : OrderBlock :=
  let at_ := first_touch (enters bull (high c) (low c)) cs (i + 2) end_ in
  {| top := high c; bottom := low c; candleTime := openTime c; candleIdx := i; isBullish := bull;
     displacement := disp;
     mitigated := match at_ with Some _ => true | None => false end;
     mitigatedAtIdx := default (-1)%Z at_ |}.

Definition ob_end (cs : list BacktestCandle) (o : DetectObOptions) : Z :=
  Z.min (default (zlen cs - 1)%Z (endIdx o)) (zlen cs - 1).
Definition disp_mult (o : DetectObOptions) : num := default (lit 15 1) (displacementAtrMult o).

(** The displacement of bar [fwd] away from the candidate [c]. *)
Definition move (isDown : bool) (c fwd : BacktestCandle) : num :=
  if isDown then high fwd - low c else high c - low fwd.

(** One turn of the outer loop. *)
Definition block_at (cs : list BacktestCandle) (o : DetectObOptions) (i : Z) : option OrderBlock :=
  c ← zlookup cs i;
  let isDown := close c <? open c in
  let isUp := close c >? open c in
  let localAtr := match atr o with Some l => num_at l i | None => of_Z 0 end in
  if negb isDown && negb isUp then None
  else if (localAtr <=? of_Z 0) && (disp_mult o >? of_Z 0) then None
  else
    first_some (fun k => fwd ← zlookup cs k;
                         if move isDown c fwd >=? disp_mult o * localAtr
                         then Some (makeOb cs i c isDown (move isDown c fwd) (ob_end cs o))
                         else None)
               (up_from (i + 1) (Z.min (i + default 4%Z (lookForwardMax o)) (ob_end cs o))).

Definition detectOrderBlocks (cs : list BacktestCandle) (o : DetectObOptions) : list OrderBlock :=
  omap (block_at cs o) (up_from 1 (ob_end cs o - 1)).

Definition nearestUnmitigatedOb (cs : list BacktestCandle) (sd : Side) (o : DetectObOptions)
    : option OrderBlock :=
  first_some (fun b => if mitigated b then None
                       else if negb (Fvg.wants sd (isBullish b)) then None else Some b)
             (reverse (detectOrderBlocks cs o)).

Definition hasSupportingOb (cs : list BacktestCandle) (sd : Side) (entryPrice maxDistanceAtr : num)
    (a : list num) (end_ : Z) : option OrderBlock :=
  b ← nearestUnmitigatedOb cs sd {| endIdx := Some end_; lookForwardMax := None;
                                    displacementAtrMult := None; atr := Some a |};
  if (entryPrice >=? bottom b) && (entryPrice <=? top b) then Some b
  else
    let localAtr := num_at a end_ in
    if localAtr <=? of_Z 0 then Some b
    else
      let distance := if entryPrice >? top b then entryPrice - top b else bottom b - entryPrice in
      if distance <=? maxDistanceAtr * localAtr then Some b else None.

(** One turn of the walk back from the swing. *)
Definition origin_at (h1Candles : list BacktestCandle) (sd : Side) (swingLevel : num) (a : list num)
    (dispMult : num) (k : Z) : option OrderBlock :=
  c ← zlookup h1Candles k;
  let cAtr := num_at a k in
  if cAtr <=? of_Z 0 then None
  else
    let isLowSwing := bool_decide (sd = BUY) in
    if isLowSwing && negb (close c >? open c) then None
    else if negb isLowSwing && negb (close c <? open c) then None
    else
      let impulseSize := if isLowSwing then high c - swingLevel else swingLevel - low c in
      if impulseSize <? of_Z 0 then None
      else if impulseSize >=? dispMult * cAtr then
        Some {| top := high c; bottom := low c; candleTime := openTime c; candleIdx := k;
                isBullish := negb isLowSwing; displacement := impulseSize;
                mitigated := false; mitigatedAtIdx := -1 |}
      else None.

Definition hasFreshObAtSweptLevel (h1Candles : list BacktestCandle) (swingIdx : Z) (sd : Side)
    (lb : Z) (a : list num) (dispMult : num) : option OrderBlock :=
  if (swingIdx <? 1)%Z then None
  else
    s ← zlookup h1Candles swingIdx;
    first_some (origin_at h1Candles sd (swept_extreme sd s) a dispMult)
               (down_from (swingIdx - 1) (Z.max 1 (swingIdx - lb))).
End OrderBlock.

(** ** Breaks of structure *)
Module Bos.
Record Bos := {
  level : num;
  brokenAtIdx : Z;
  brokenAtTime : string;
  isBullish : bool;
}.

(** The swing a close must break: a high for BUY, a low for SELL. *)
Definition break_level (cs : list BacktestCandle) (sd : Side) (k lb : Z) : option num :=
  match sd with BUY => findRecentSwingHigh cs k lb | SELL => findRecentSwingLow cs k lb end.
Definition breaks (sd : Side) (c : BacktestCandle) (swing : num) : bool :=
  match sd with BUY => close c >? swing | SELL => close c <? swing end.

(** One turn of the walk; reading past the array throws. *)
Definition bos_at (cs : list BacktestCandle) (sd : Side) (swingLookback k : Z) : Res (option Bos) :=
  match break_level cs sd k swingLookback with
  | None => Ok None
  | Some swing =>
      match zlookup cs k with
      | None => Throw "TypeError: Cannot read properties of undefined"
      | Some c => Ok (if breaks sd c swing
                      then Some {| level := swing; brokenAtIdx := k; brokenAtTime := openTime c;
                                   isBullish := bool_decide (sd = BUY) |}
                      else None)
      end
  end.

Definition detectBos (cs : list BacktestCandle) (sd : Side) (endIdx lookback swingLookback : Z)
    : Res (option Bos) :=
  if (zlen cs <? swingLookback + 2)%Z then Ok None
  else
    let startIdx := Z.max swingLookback (endIdx - lookback) in
    first_res (bos_at cs sd swingLookback) (down_from endIdx (Z.max 1 startIdx)).

Definition hasBosAfter (cs : list BacktestCandle) (sd : Side) (sinceIdx endIdx swingLookback : Z)
    : Res (option Bos) :=
  let lookback := Z.max 1 (endIdx - sinceIdx) in
  match detectBos cs sd endIdx lookback swingLookback with
  | Ok (Some b) => Ok (if (sinceIdx <=? brokenAtIdx b)%Z then Some b else None)
  | r => r
  end.

(** The prior swing of the same kind as the swept one. *)
Definition prior_swing (cs : list BacktestCandle) (sd : Side) (k lb : Z) : option num :=
  match sd with BUY => findRecentSwingLow cs k lb | SELL => findRecentSwingHigh cs k lb end.
Definition extends_past (sd : Side) (x prior : num) : bool :=
  match sd with BUY => x <? prior | SELL => x >? prior end.

Definition sweptLevelWasItselfABos (h1Candles : list BacktestCandle) (swingIdx : Z) (sd : Side)
    (lb swingFractalLookback : Z) : Res (option (num * string)) :=
  if (swingIdx <? 2)%Z then Ok None
  else match zlookup h1Candles swingIdx with
  | None => Throw "TypeError: Cannot read properties of undefined"
  | Some s =>
      Ok (first_some (fun k =>
            prior ← prior_swing h1Candles sd (k + 1) swingFractalLookback;
            if extends_past sd (swept_extreme sd s) prior then Some (prior, openTime s) else None)
          (down_from (swingIdx - 2) (Z.max 1 (swingIdx - lb))))
  end.
End Bos.

(** * Properties of the structure detectors

    Soundness and completeness of the gap scan and of the mitigation status, the
    choice of the nearest active zone, what a break of structure is. *)
Local Close Scope num_scope.
From S2P Require Import Prelude JsNum JsDate Types SweepDetector SweepFacts.
(** ** Scans *)
Lemma elem_of_omap_up {B} (f : Z -> option B) m n b :
  b ∈ omap f (up_from m n) <-> exists i, m <= i <= n /\ f i = Some b.
Proof.
  rewrite list_elem_of_omap. setoid_rewrite elem_of_up_from. done.
Qed.

(** The first touch is the first bar on which the test holds. *)
Lemma first_touch_Some t cs from n k :
  first_touch t cs from n = Some k ->
  from <= k <= n /\ (exists c, zlookup cs k = Some c /\ t c = true) /\
  forall j c, from <= j < k -> zlookup cs j = Some c -> t c = false.
Proof.
  unfold first_touch. intros (k' & Hk & Hf & Hj)%first_some_up.
  destruct (zlookup cs k') as [c|] eqn:Hc; simpl in Hf; [|done].
  destruct (t c) eqn:Ht; simplify_eq. split_and!; try lia; [by exists c|].
  intros j c' Hj' Hc'. specialize (Hj j Hj'). rewrite Hc' in Hj. simpl in Hj. by destruct (t c').
Qed.

Lemma first_touch_None t cs from n :
  first_touch t cs from n = None ->
  forall j c, from <= j <= n -> zlookup cs j = Some c -> t c = false.
Proof.
  unfold first_touch. rewrite first_some_None, Forall_forall. intros H j c Hj Hc.
  specialize (H j). rewrite elem_of_up_from, Hc in H. simpl in H. specialize (H Hj). by destruct (t c).
Qed.

(** The mitigation status of a zone as of [n]: untouched, or touched first at [k]. *)
Definition status_of (t : BacktestCandle -> bool) (cs : list BacktestCandle) (from n : Z)
    (mit : bool) (at_ : Z) : Prop :=
  if mit then
    from <= at_ <= n /\ (exists c, zlookup cs at_ = Some c /\ t c = true) /\
    forall j c, from <= j < at_ -> zlookup cs j = Some c -> t c = false
  else at_ = -1 /\ forall j c, from <= j <= n -> zlookup cs j = Some c -> t c = false.

Lemma first_touch_status t cs from n :
  status_of t cs from n (match first_touch t cs from n with Some _ => true | None => false end)
    (default (-1) (first_touch t cs from n)).
Proof.
  destruct (first_touch t cs from n) eqn:E; simpl.
  - by apply first_touch_Some.
  - split; [done|]. by apply first_touch_None.
Qed.

(** The newest element of a scan that passes a test. *)
Lemma first_some_reverse_omap {B} (f : Z -> option B) (p : B -> bool) m n b :
  first_some (fun x => if p x then Some x else None) (reverse (omap f (up_from m n))) = Some b ->
  exists i, m <= i <= n /\ f i = Some b /\ p b = true /\
    forall j b', i < j <= n -> f j = Some b' -> p b' = false.
Proof.
  remember (Z.to_nat (n - m + 1)) as c eqn:Hc. revert n Hc.
  induction c as [|c IH]; intros n Hc.
  - rewrite up_from_nil by lia. done.
  - rewrite up_from_snoc by lia. rewrite omap_app, reverse_app. simpl.
    destruct (f n) as [x|] eqn:Hn; simpl; [destruct (p x) eqn:Hp|].
    + intros [= <-]. exists n. split_and!; try lia; try done.
    + intros H. destruct (IH (n - 1)) as (i & Hi & Hf & Hpb & Hj); [lia|done|].
      exists i. split_and!; try lia; try done. intros j b' Hj' Hb'.
      destruct (decide (j = n)) as [->|]; [congruence|]. eapply Hj; [|done]. lia.
    + intros H. destruct (IH (n - 1)) as (i & Hi & Hf & Hpb & Hj); [lia|done|].
      exists i. split_and!; try lia; try done. intros j b' Hj' Hb'.
      destruct (decide (j = n)) as [->|]; [congruence|]. eapply Hj; [|done]. lia.
Qed.

(** ** Fair value gaps *)
Module FvgFacts.
Import Structure.Fvg.

(** [f] is the gap between the wicks of the bars around [i], with its status. *)
Record is_gap (cs : list BacktestCandle) (n i : Z) (f : Fvg) : Prop := {
  ig_idx : candleIdx f = i;
  ig_bars : exists a b c, zlookup cs (i - 1) = Some a /\ zlookup cs i = Some b /\
    zlookup cs (i + 1) = Some c /\ candleTime f = openTime b /\
    if isBullish f
    then bottom f = high a /\ top f = low c
    else bottom f = high c /\ top f = low a;
  ig_zone : nltb (bottom f) (top f) = true;
  ig_status : status_of (enters (isBullish f) (top f) (bottom f)) cs (i + 2) n
                (mitigated f) (mitigatedAtIdx f);
}.

Lemma gap_at_sound cs n i f : gap_at cs n i = Some f -> is_gap cs n i f.
Proof.
  unfold gap_at. destruct (zlookup cs (i - 1)) as [a|] eqn:Ha; [|done].
  destruct (zlookup cs i) as [b|] eqn:Hb; [|done].
  destruct (zlookup cs (i + 1)) as [c|] eqn:Hc; [|done].
  destruct (nltb (high a) (low c)) eqn:H1; [|destruct (nltb (high c) (low a)) eqn:H2; [|done]];
    intros [= <-]; (constructor; simpl; [done|by exists a, b, c|done|apply first_touch_status]).
Qed.

(** The gap scan is sound and complete.  Without a size filter it reports exactly the
    three-candle imbalances whose middle bar lies strictly inside the window: the zone is
    the space between the two wicks, it is not empty, and it is marked mitigated exactly
    when a later bar up to the end re-entered it, at the first such bar. *)
Theorem detectFvgs_exact (cs : list BacktestCandle) (o : DetectFvgsOptions) :
  minHeightAtrFraction o = None ->
  (forall f, f ∈ detectFvgs cs o ->
     exists i, fvg_start cs o < i < fvg_end cs o /\ is_gap cs (fvg_end cs o) i f) /\
  (forall i a b c, fvg_start cs o < i < fvg_end cs o ->
     zlookup cs (i - 1) = Some a -> zlookup cs i = Some b -> zlookup cs (i + 1) = Some c ->
     nltb (high a) (low c) = true \/ nltb (high c) (low a) = true ->
     exists f, f ∈ detectFvgs cs o /\ is_gap cs (fvg_end cs o) i f).
Proof.
  intros Hfrac. assert (Hpass : forall f i, passesAtrFilter f i (default (of_Z 0) (minHeightAtrFraction o)) (atr o) = true)
    by (intros; by rewrite Hfrac).
  split.
  - intros f Hf. apply elem_of_omap_up in Hf as (i & Hi & Hf). exists i.
    destruct (gap_at cs (fvg_end cs o) i) as [g|] eqn:Hg; simpl in Hf; [|done].
    rewrite Hpass in Hf. injection Hf as ->. split; [lia|]. by apply gap_at_sound.
  - intros i a b c Hi Ha Hb Hc Hgap.
    assert (Hg : is_Some (gap_at cs (fvg_end cs o) i)).
    { unfold gap_at. rewrite Ha, Hb, Hc. destruct (nltb (high a) (low c)); [eauto|].
      destruct Hgap as [?| ->]; [done|eauto]. }
    destruct Hg as [f Hf]. exists f. split; [|by apply gap_at_sound].
    apply elem_of_omap_up. exists i. split; [lia|]. rewrite Hf. simpl. by rewrite Hpass.
Qed.

(** The gate zone is the newest active one.  The gap [nearestUnmitigatedFvg] returns
    points in the trade's direction, no bar since has re-entered it, and every newer gap in
    that direction has been re-entered. *)
Theorem nearestUnmitigatedFvg_newest (cs : list BacktestCandle) (sd : Side) (o : DetectFvgsOptions) (f : Fvg) :
  nearestUnmitigatedFvg cs sd o = Some f ->
  is_gap cs (fvg_end cs o) (candleIdx f) f /\
  isBullish f = bool_decide (sd = BUY) /\
  (forall j c, candleIdx f + 2 <= j <= fvg_end cs o -> zlookup cs j = Some c ->
     enters (isBullish f) (top f) (bottom f) c = false) /\
  forall g, g ∈ detectFvgs cs o -> candleIdx f < candleIdx g ->
    isBullish g = isBullish f -> mitigated g = true.
Proof.
  set (pick := fun i => g ← gap_at cs (fvg_end cs o) i;
    if passesAtrFilter g i (default (of_Z 0) (minHeightAtrFraction o)) (atr o) then Some g else None).
  assert (Hpick : forall i g, pick i = Some g -> is_gap cs (fvg_end cs o) i g).
  { intros i g Hg. unfold pick in Hg. destruct (gap_at cs (fvg_end cs o) i) as [h|] eqn:E; simpl in Hg; [|done].
    destruct (passesAtrFilter _ _ _ _); simplify_eq. by apply gap_at_sound. }
  unfold nearestUnmitigatedFvg, detectFvgs. fold pick.
  replace (first_some _ _) with (first_some (fun g : Fvg => if negb (mitigated g) && wants sd (isBullish g) then Some g else None)
            (reverse (omap pick (up_from (fvg_start cs o + 1) (fvg_end cs o - 1))))).
  2:{ generalize (reverse (omap pick (up_from (fvg_start cs o + 1) (fvg_end cs o - 1)))).
      induction l as [|x l IH]; [done|]. simpl. rewrite IH.
      by destruct (mitigated x), (wants sd (isBullish x)). }
  intros (i & Hi & Hf & Hp & Hnew)%first_some_reverse_omap. bool_hyps.
  pose proof (Hpick _ _ Hf) as Hg. pose proof (ig_idx _ _ _ _ Hg) as <-.
  unfold wants in *. split_and!; [done|by apply Bool.eqb_prop|..].
  - pose proof (ig_status _ _ _ _ Hg) as Hs. rewrite H in Hs. apply Hs.
  - intros g Hg' Hlt Hd. apply elem_of_omap_up in Hg' as (j & Hj & Hpj).
    pose proof (ig_idx _ _ _ _ (Hpick _ _ Hpj)) as Hij. specialize (Hnew j g ltac:(lia) Hpj).
    rewrite Hd, H0, andb_true_r in Hnew. by apply negb_false_iff.
Qed.
End FvgFacts.

(** ** Order blocks *)
Module ObFacts.
Import Structure.OrderBlock.

(** [b] is the range of the opposing bar [i], confirmed by a displacement within the
    look-forward window, with its status. *)
Record is_block (cs : list BacktestCandle) (o : DetectObOptions) (i : Z) (b : OrderBlock) : Prop := {
  ib_idx : candleIdx b = i;
  ib_bar : exists c, zlookup cs i = Some c /\ candleTime b = openTime c /\
    top b = high c /\ bottom b = low c /\
    (if isBullish b then nltb (close c) (open c) else nltb (open c) (close c)) = true /\
    exists k fwd, i < k <= Z.min (i + default 4 (lookForwardMax o)) (ob_end cs o) /\
      zlookup cs k = Some fwd /\ displacement b = move (isBullish b) c fwd /\
      nleb (disp_mult o * match atr o with Some l => num_at l i | None => of_Z 0 end)%num
           (displacement b) = true;
  ib_status : status_of (enters (isBullish b) (top b) (bottom b)) cs (i + 2) (ob_end cs o)
                (mitigated b) (mitigatedAtIdx b);
}.

Lemma block_at_sound cs o i b : block_at cs o i = Some b -> is_block cs o i b.
Proof.
  unfold block_at. destruct (zlookup cs i) as [c|] eqn:Hc; simpl; [|done].
  destruct (nltb (close c) (open c)) eqn:Hd; simpl.
  - destruct (_ && _); [done|]. intros (k & Hk & Hf & _)%first_some_up.
    destruct (zlookup cs k) as [fwd|] eqn:Hfwd; simpl in Hf; [|done].
    destruct (nleb _ _) eqn:Hm; [|done]. injection Hf as <-. constructor; simpl.
    + done.
    + exists c. split_and!; try done. exists k, fwd. split_and!; try done; lia.
    + apply first_touch_status.
  - destruct (nltb (open c) (close c)) eqn:Hu; simpl; [|done].
    destruct (_ && _); [done|]. intros (k & Hk & Hf & _)%first_some_up.
    destruct (zlookup cs k) as [fwd|] eqn:Hfwd; simpl in Hf; [|done].
    destruct (nleb _ _) eqn:Hm; [|done]. injection Hf as <-. constructor; simpl.
    + done.
    + exists c. split_and!; try done. exists k, fwd. split_and!; try done; lia.
    + apply first_touch_status.
Qed.

(** The order block offered to a trade is the range of an opposing candle that was followed,
    within the look-forward window, by a displacement of the required size; it points in the
    trade's direction, no bar from the second after it on re-entered it, and every newer
    block in that direction was re-entered. *)
Theorem nearestUnmitigatedOb_newest (cs : list BacktestCandle) (sd : Side) (o : DetectObOptions) (b : OrderBlock) :
  nearestUnmitigatedOb cs sd o = Some b ->
  is_block cs o (candleIdx b) b /\ isBullish b = bool_decide (sd = BUY) /\
  (forall j c, candleIdx b + 2 <= j <= ob_end cs o -> zlookup cs j = Some c ->
     enters (isBullish b) (top b) (bottom b) c = false) /\
  forall b', b' ∈ detectOrderBlocks cs o -> candleIdx b < candleIdx b' ->
    isBullish b' = isBullish b -> mitigated b' = true.
Proof.
  unfold nearestUnmitigatedOb, detectOrderBlocks.
  replace (first_some _ _) with (first_some (fun g : OrderBlock => if negb (mitigated g) && Fvg.wants sd (isBullish g) then Some g else None)
            (reverse (omap (block_at cs o) (up_from 1 (ob_end cs o - 1))))).
  2:{ generalize (reverse (omap (block_at cs o) (up_from 1 (ob_end cs o - 1)))).
      induction l as [|x l IH]; [done|]. simpl. rewrite IH.
      by destruct (mitigated x), (Fvg.wants sd (isBullish x)). }
  intros (i & Hi & Hf & Hp & Hnew)%first_some_reverse_omap. bool_hyps.
  pose proof (block_at_sound _ _ _ _ Hf) as Hg. pose proof (ib_idx _ _ _ _ Hg) as <-.
  unfold Fvg.wants in *. split_and!; [done|by apply Bool.eqb_prop|..].
  - pose proof (ib_status _ _ _ _ Hg) as Hs. rewrite H in Hs. apply Hs.
  - intros g Hg' Hlt Hd. apply elem_of_omap_up in Hg' as (j & Hj & Hpj).
    pose proof (ib_idx _ _ _ _ (block_at_sound _ _ _ _ Hpj)) as Hij. specialize (Hnew j g ltac:(lia) Hpj).
    rewrite Hd, H0, andb_true_r in Hnew. by apply negb_false_iff.
Qed.
End ObFacts.

(** ** Breaks of structure *)
Module BosFacts.
Import Structure.Bos.

(** A loop with throwing turns that walks down and answers at [k]. *)
Lemma first_res_down {B} (f : Z -> Res (option B)) n m b :
  first_res f (down_from n m) = Ok (Some b) ->
  exists k, m <= k <= n /\ f k = Ok (Some b) /\ forall j, k < j <= n -> f j = Ok None.
Proof.
  remember (Z.to_nat (n - m + 1)) as c eqn:Hc. revert n Hc.
  induction c as [|c IH]; intros n Hc; [by rewrite down_from_nil by lia|].
  rewrite down_from_cons by lia. simpl. destruct (f n) as [[x|]|] eqn:Hn; [| |done].
  - intros [= <-]. exists n. split_and!; try lia; try done.
  - intros H. destruct (IH (n - 1)) as (k & Hk & Hf & Hj); [lia|done|].
    exists k. split_and!; try lia; try done. intros j Hj'.
    destruct (decide (j = n)) as [->|]; [done|]. apply Hj. lia.
Qed.

Lemma first_res_no_throw {A B} (f : A -> Res (option B)) l :
  (forall x, x ∈ l -> exists r, f x = Ok r) -> exists r, first_res f l = Ok r.
Proof.
  induction l as [|x l IH]; simpl; intros H; [eauto|].
  destruct (H x) as [[b|] ->]; [left|eauto|]. apply IH. intros y Hy. apply H. by right.
Qed.

(** The bar [k] closes beyond the swing that stood before it. *)
Definition broke_at (cs : list BacktestCandle) (sd : Side) (lb k : Z) (lvl : num) : Prop :=
  exists c, zlookup cs k = Some c /\ break_level cs sd k lb = Some lvl /\ breaks sd c lvl = true.

(** A break of structure reported after the sweep happened at or after [sinceIdx] and not
    after the end: that bar closed beyond the swing standing before it, no later bar up to
    the end broke its own, and the test never reads past the array. *)
Theorem hasBosAfter_sound (cs : list BacktestCandle) (sd : Side) (sinceIdx endIdx lb : Z) :
  endIdx < zlen cs ->
  exists r, hasBosAfter cs sd sinceIdx endIdx lb = Ok r /\
  forall b, r = Some b ->
    sinceIdx <= brokenAtIdx b <= endIdx /\ isBullish b = bool_decide (sd = BUY) /\
    broke_at cs sd lb (brokenAtIdx b) (level b) /\
    forall j lvl, brokenAtIdx b < j <= endIdx -> ~ broke_at cs sd lb j lvl.
Proof.
  intros Hend. unfold hasBosAfter, detectBos. cbv zeta.
  destruct (zlen cs <? lb + 2); [by exists None|].
  set (lo := Z.max 1 _). destruct (first_res_no_throw (bos_at cs sd lb) (down_from endIdx lo)) as [r Hr].
  { intros k Hk%elem_of_down_from. unfold bos_at. destruct (break_level cs sd k lb); [|eauto].
    destruct (zlookup_is_Some cs k) as [c ->]; [unfold lo in Hk; lia|eauto]. }
  rewrite Hr. destruct r as [b|]; [|by exists None].
  eexists. split; [done|]. intros b' Hb'. destruct (Z.leb_spec sinceIdx (brokenAtIdx b)); [|done].
  injection Hb' as <-. apply first_res_down in Hr as (k & Hk & Hf & Hj).
  assert (Hsome : forall j x, bos_at cs sd lb j = Ok x -> match x with
      | Some b => brokenAtIdx b = j /\ isBullish b = bool_decide (sd = BUY) /\ broke_at cs sd lb j (level b)
      | None => forall lvl, ~ broke_at cs sd lb j lvl end).
  { intros j x. unfold bos_at, broke_at. destruct (break_level cs sd j lb) as [s|] eqn:Hs.
    - destruct (zlookup cs j) as [c|] eqn:Hc; [|done]. destruct (breaks sd c s) eqn:Hbr; intros [= <-].
      + split_and!; try done. by exists c.
      + intros lvl (c' & Hc' & Hl & Hb). simplify_eq. congruence.
    - intros [= <-] lvl (c & _ & ? & _). done. }
  destruct (Hsome _ _ Hf) as (Hidx & Hbull & Hbroke). subst k. split_and!; try done; try lia.
  intros j lvl Hjj. by apply (Hsome j None), Hj.
Qed.

(** A swept level that passes the origin gate really extended past an earlier swing: some
    candle before it made that swing, and the swept extreme lies beyond it. *)
Theorem sweptLevelWasItselfABos_sound (cs : list BacktestCandle) (swingIdx lookback fractal : Z) (sd : Side)
    (prior : num) (time : string) :
  sweptLevelWasItselfABos cs swingIdx sd lookback fractal = Ok (Some (prior, time)) ->
  exists s j c, zlookup cs swingIdx = Some s /\ time = openTime s /\ 1 <= j < swingIdx - 1 /\
    zlookup cs j = Some c /\ swept_extreme sd c = prior /\
    extends_past sd (swept_extreme sd s) prior = true.
Proof.
  unfold sweptLevelWasItselfABos. destruct (Z.ltb_spec swingIdx 2); [done|].
  destruct (zlookup cs swingIdx) as [s|] eqn:Hs; [|done]. intros Hr%Ok_inj.
  apply first_some_down in Hr as (k & Hk & Hf & _).
  destruct (prior_swing cs sd (k + 1) fractal) as [x|] eqn:Hx; simpl in Hf; [|done].
  destruct (extends_past _ _ _) eqn:He; simplify_eq.
  apply recent_swing_candle in Hx as (j & c & Hj & Hc & Hext & _).
  exists s, j, c. split_and!; try done; lia.
Qed.
End BosFacts.

(** ** What the code does that its comments do not say *)

(** The first imbalance of a series is never reported: a series of three bars has one middle
    bar, and the scan starts past it. *)
Theorem three_bars_have_no_gap (cs : list BacktestCandle) (mn : option num) (a : option (list num)) :
  zlen cs = 3 ->
  Fvg.detectFvgs cs {| Fvg.lookback := None; Fvg.endIdx := None; Fvg.minHeightAtrFraction := mn;
                       Fvg.atr := a |} = [].
Proof.
  intros Hlen. unfold Fvg.detectFvgs, Fvg.fvg_start, Fvg.fvg_end. simpl. rewrite Hlen. done.
Qed.

Definition h1_bar (k o h l c : Z) : BacktestCandle := demo_bar_at "H1" (demo_day + k * ms_hour) o h l c.

Definition gap_bars : list BacktestCandle :=
  Eval vm_compute in
  [h1_bar 0 2000 2001 1999 2000; h1_bar 1 2000 2001 1999 2000; h1_bar 2 2001 2005 2000 2004;
   h1_bar 3 2004 2008 2004 2007; h1_bar 4 2007 2009 2006 2008].

(** A down candle, two bars that stay in its range, then the impulse. *)
Definition block_bars : list BacktestCandle :=
  Eval vm_compute in
  [h1_bar 0 2002 2003 2001 2002; h1_bar 1 2002 2003 1999 2000; h1_bar 2 2000 2003 2000 2002;
   h1_bar 3 2002 2004 2001 2003; h1_bar 4 2004 2010 2004 2009; h1_bar 5 2009 2011 2008 2010].
Definition block_opts : OrderBlock.DetectObOptions := {|
  OrderBlock.endIdx := None; OrderBlock.lookForwardMax := None; OrderBlock.displacementAtrMult := None;
  OrderBlock.atr := Some (repeat (of_Z 4) 6) |}.

(** An order block can be marked mitigated by the bars between the block and the impulse that
    confirms it: the walk starts two bars after the block, not after the move. *)
Theorem ob_mitigated_before_its_impulse :
  exists cs o b, b ∈ OrderBlock.detectOrderBlocks cs o /\ OrderBlock.mitigated b = true /\
    forall k c fwd, OrderBlock.candleIdx b < k <= OrderBlock.mitigatedAtIdx b ->
      zlookup cs (OrderBlock.candleIdx b) = Some c -> zlookup cs k = Some fwd ->
      nltb (OrderBlock.move (OrderBlock.isBullish b) c fwd) (OrderBlock.disp_mult o * of_Z 4)%num = true.
Proof.
  destruct (OrderBlock.detectOrderBlocks block_bars block_opts) as [|b l] eqn:E; [by vm_compute in E|].
  assert (Hb : OrderBlock.candleIdx b = 1 /\ OrderBlock.isBullish b = true /\
               OrderBlock.mitigated b = true /\ OrderBlock.mitigatedAtIdx b = 3)
    by (vm_compute in E; injection E as <- _; auto).
  destruct Hb as (Hi & Hbull & Hm & Hk).
  exists block_bars, block_opts, b. rewrite E, Hi, Hbull, Hk. split; [by left|]. split; [done|].
  intros k c fwd Hr Hc Hf. assert (k = 2 \/ k = 3) as [->| ->] by lia;
    injection Hc as <-; injection Hf as <-; vm_compute; reflexivity.
Qed.

(** ** Witnesses *)
Definition gap_opts : Fvg.DetectFvgsOptions := {|
  Fvg.lookback := None; Fvg.endIdx := None; Fvg.minHeightAtrFraction := None; Fvg.atr := None |}.

Lemma three_bars_have_no_gap_witness :
  zlen (drop 2 gap_bars) = 3 /\ Fvg.detectFvgs (drop 2 gap_bars) gap_opts = [].
Proof. split; [reflexivity|]. apply three_bars_have_no_gap. reflexivity. Defined.

Lemma detectFvgs_exact_witness :
  exists f, f ∈ Fvg.detectFvgs gap_bars gap_opts /\ FvgFacts.is_gap gap_bars 4 2 f.
Proof.
  destruct (FvgFacts.detectFvgs_exact gap_bars gap_opts eq_refl) as [_ H].
  apply (H 2 (h1_bar 1 2000 2001 1999 2000) (h1_bar 2 2001 2005 2000 2004) (h1_bar 3 2004 2008 2004 2007)).
  - vm_compute. split; reflexivity.
  - vm_compute. reflexivity.
  - vm_compute. reflexivity.
  - vm_compute. reflexivity.
  - left. vm_compute. reflexivity.
Defined.

Lemma nearestUnmitigatedFvg_newest_witness :
  exists f, Fvg.nearestUnmitigatedFvg gap_bars BUY gap_opts = Some f /\
    Fvg.isBullish f = bool_decide (BUY = BUY).
Proof.
  destruct (Fvg.nearestUnmitigatedFvg gap_bars BUY gap_opts) as [f|] eqn:E; [|vm_compute in E; discriminate E].
  exists f. split; [reflexivity|].
  apply (FvgFacts.nearestUnmitigatedFvg_newest gap_bars BUY gap_opts f E).
Defined.

Definition clean_block_bars : list BacktestCandle :=
  Eval vm_compute in
  [h1_bar 0 2002 2003 2001 2002; h1_bar 1 2002 2003 1999 2000; h1_bar 2 2001 2012 2001 2011;
   h1_bar 3 2011 2014 2010 2013; h1_bar 4 2013 2016 2012 2015; h1_bar 5 2015 2017 2014 2016].

Lemma nearestUnmitigatedOb_newest_witness :
  exists b, OrderBlock.nearestUnmitigatedOb clean_block_bars BUY block_opts = Some b /\
    OrderBlock.isBullish b = bool_decide (BUY = BUY).
Proof.
  destruct (OrderBlock.nearestUnmitigatedOb clean_block_bars BUY block_opts) as [b|] eqn:E;
    [|vm_compute in E; discriminate E].
  exists b. split; [reflexivity|].
  apply (ObFacts.nearestUnmitigatedOb_newest clean_block_bars BUY block_opts b E).
Defined.

Lemma hasBosAfter_sound_witness :
  13 < zlen demo_h1 /\ exists r, Bos.hasBosAfter demo_h1 BUY 10 13 3 = Ok r.
Proof.
  split; [reflexivity|].
  destruct (BosFacts.hasBosAfter_sound demo_h1 BUY 10 13 3 eq_refl) as (r & Hr & _).
  exists r. exact Hr.
Defined.

(** Lows 1995, 1990, 1995 and then 1985: the second low takes out the first. *)
Definition bos_bars : list BacktestCandle :=
  Eval vm_compute in
  [h1_bar 0 2000 2003 1996 2000; h1_bar 1 2000 2003 1990 2000; h1_bar 2 2000 2003 1996 2000;
   h1_bar 3 2000 2003 1996 2000; h1_bar 4 2000 2003 1985 2000; h1_bar 5 2000 2003 1996 2000].

Lemma sweptLevelWasItselfABos_sound_witness :
  exists s j c, zlookup bos_bars 4 = Some s /\ 1 <= j < 4 - 1 /\ zlookup bos_bars j = Some c /\
    Bos.extends_past BUY (swept_extreme BUY s) (of_Z 1990) = true.
Proof.
  destruct (BosFacts.sweptLevelWasItselfABos_sound bos_bars 4 20 5 BUY (of_Z 1990)
              "2024-03-13T04:00:00.000Z") as (s & j & c & H1 & _ & H2 & H3 & _ & H4).
  - vm_compute. reflexivity.
  - exists s, j, c. auto.
Defined.
