(* ===== verification/Indicators.v ===== *)
(** * Indicator calculator

    src/backtest/engine/indicator-calculator.ts.  The moving averages and oscillators
    come from the third-party package technicalindicators, whose functions are the
    fields of a class: the theorems hold for any of them that obeys the documented
    length law. *)
From S2P Require Import Prelude JsNum JsDate Types.

(** The functions of the package this program calls, [X.calculate({ period, ... })]. *)
Class TechnicalIndicators := {
  EMA : Z -> list num -> list num;
  SMA : Z -> list num -> list num;
  RSI : Z -> list num -> list num;
  ATR : Z -> list num -> list num -> list num -> list num;
  (** [adx], [pdi], [mdi] *)
  ADX : Z -> list num -> list num -> list num -> list (num * num * num);
}.

(** An indicator has no more values than its input. *)
Class TechnicalIndicatorsLaws (T : TechnicalIndicators) : Prop := {
  EMA_length p l : (length (EMA p l) <= length l)%nat;
  SMA_length p l : (length (SMA p l) <= length l)%nat;
  RSI_length p l : (length (RSI p l) <= length l)%nat;
  ATR_length p h l c : (length (ATR p h l c) <= length c)%nat;
  ADX_length p h l c : (length (ADX p h l c) <= length c)%nat;
}.

Section compute.
Context {T : TechnicalIndicators}.

(** [pad]: [Array(offset)] throws when [offset] is negative. *)
Definition pad (n : nat) (arr : list num) : Res (list num) :=
  if (n <? length arr)%nat then Throw "RangeError: Invalid array length"
  else Ok (replicate (n - length arr) NaN ++ arr).

Definition computeIndicators (candles : list BacktestCandle) : Res IndicatorState :=
  let closes := close <$> candles in
  let highs := high <$> candles in
  let lows := low <$> candles in
  let n := length closes in
  let atr14Raw := ATR 14 highs lows closes in
  let adxRaw := ADX 14 highs lows closes in
  (e20 <-! pad n (EMA 20 closes) ;;
   e50 <-! pad n (EMA 50 closes) ;;
   e200 <-! pad n (EMA 200 closes) ;;
   rsi <-! pad n (RSI 14 closes) ;;
   atr <-! pad n atr14Raw ;;
   adx <-! pad n ((fun v => v.1.1) <$> adxRaw) ;;
   pdi <-! pad n ((fun v => v.1.2) <$> adxRaw) ;;
   mdi <-! pad n (snd <$> adxRaw) ;;
   base <-! pad n (SMA 20 atr14Raw) ;;
   Ok {| ema20 := e20; ema50 := e50; ema200 := e200; rsi14 := rsi; atr14 := atr; adx14 := adx;
         plusDI14 := pdi; minusDI14 := mdi; atrBaseline := base |})%js.

Context {L : TechnicalIndicatorsLaws T}.

Lemma pad_ok n arr : (length arr <= n)%nat ->
  exists l, pad n arr = Ok l /\ length l = n /\
    forall i, (i < n - length arr)%nat -> l !! i = Some NaN.
Proof.
  intros Hle. unfold pad. destruct (Nat.ltb_spec n (length arr)); [lia|]. eexists. split; [done|].
  rewrite length_app, length_replicate. split; [lia|]. intros i Hi.
  rewrite lookup_app_l by (rewrite length_replicate; lia). by apply lookup_replicate_2.
Qed.

(** Every array of [s] has one entry per candle. *)
Definition aligned (n : nat) (s : IndicatorState) : Prop :=
  length (ema20 s) = n /\ length (ema50 s) = n /\ length (ema200 s) = n /\ length (rsi14 s) = n /\
  length (atr14 s) = n /\ length (adx14 s) = n /\ length (plusDI14 s) = n /\
  length (minusDI14 s) = n /\ length (atrBaseline s) = n.

(** The indicator arrays are aligned with the candles: for any indicator library that never
    returns more values than it was given, the computation does not throw, every array has
    exactly one entry per candle, and the entries before the first value are NaN. *)
Theorem computeIndicators_aligned (candles : list BacktestCandle) :
  exists s, computeIndicators candles = Ok s /\ aligned (length candles) s /\
    forall i, (i < length candles - length (ATR 14 (high <$> candles) (low <$> candles) (close <$> candles)))%nat ->
      atr14 s !! i = Some NaN.
Proof.
  unfold computeIndicators. cbv zeta.
  set (n := length (close <$> candles)). assert (Hn : n = length candles) by apply length_fmap.
  set (H := high <$> candles). set (W := low <$> candles). set (C := close <$> candles).
  destruct (pad_ok n (EMA 20 C)) as (l1 & -> & E1 & _); [apply EMA_length|].
  destruct (pad_ok n (EMA 50 C)) as (l2 & -> & E2 & _); [apply EMA_length|].
  destruct (pad_ok n (EMA 200 C)) as (l3 & -> & E3 & _); [apply EMA_length|].
  destruct (pad_ok n (RSI 14 C)) as (l4 & -> & E4 & _); [apply RSI_length|].
  destruct (pad_ok n (ATR 14 H W C)) as (l5 & -> & E5 & N5); [apply ATR_length|].
  destruct (pad_ok n ((fun v => v.1.1) <$> ADX 14 H W C)) as (l6 & -> & E6 & _); [rewrite length_fmap; apply ADX_length|].
  destruct (pad_ok n ((fun v => v.1.2) <$> ADX 14 H W C)) as (l7 & -> & E7 & _); [rewrite length_fmap; apply ADX_length|].
  destruct (pad_ok n (snd <$> ADX 14 H W C)) as (l8 & -> & E8 & _); [rewrite length_fmap; apply ADX_length|].
  destruct (pad_ok n (SMA 20 (ATR 14 H W C))) as (l9 & -> & E9 & _).
  { etrans; [apply SMA_length|apply ATR_length]. }
  simpl. eexists. split; [done|]. rewrite <- Hn. unfold aligned. simpl. auto 20.
Qed.
End compute.

(** ** A concrete library: the identity averages, and none of the others. *)
#[local] Instance demo_lib : TechnicalIndicators := {|
  EMA _ l := l; SMA _ l := l; RSI _ _ := []; ATR _ _ _ c := drop 14 c; ADX _ _ _ _ := [] |}.
#[local] Instance demo_laws : TechnicalIndicatorsLaws demo_lib.
Proof. constructor; intros; simpl; rewrite ?length_drop; lia. Qed.

Lemma computeIndicators_aligned_witness :
  exists s, computeIndicators (repeat {| c_symbol := "XAUUSD"; timeframe := "H1"; openTime := "";
      open := NaN; high := NaN; low := NaN; close := NaN; volume := NaN |} 20) = Ok s /\
    length (atr14 s) = 20%nat.
Proof.
  destruct (@computeIndicators_aligned demo_lib demo_laws
    (repeat {| c_symbol := "XAUUSD"; timeframe := "H1"; openTime := "";
      open := NaN; high := NaN; low := NaN; close := NaN; volume := NaN |} 20)) as (s & Hs & Ha & _).
  exists s. split; [exact Hs|]. apply Ha.
Defined.
