(* ===== verification/Orchestrator.v ===== *)
(** * The live SMC orchestrator

    src/strategy/live/live-smc-orchestrator.ts (class LiveSmcOrchestrator): the queue of
    pending sweeps of each pair, the gates, the signal, the commit of an entry and of
    an exit, persistence, telemetry. *)
From S2P Require Import Prelude JsNum JsDate Types Instruments NewsCalendar RiskManager SweepDetector Structure.
From S2P Require Import Indicators.
Local Open Scope num_scope.

(** ** State *)
Record OrchestratorState := {
  pending : list PendingSetup;
  lastProcessedH1Time : option string;
  cooldownBarsRemaining : Z;
  actionedSweeps : gset string;
  riskManager : RiskManager;
}.

Definition set_pending (p : list PendingSetup) (s : OrchestratorState) : OrchestratorState := {|
  pending := p; lastProcessedH1Time := lastProcessedH1Time s;
  cooldownBarsRemaining := cooldownBarsRemaining s; actionedSweeps := actionedSweeps s;
  riskManager := riskManager s |}.
Definition set_lastProcessed (t : option string) (s : OrchestratorState) : OrchestratorState := {|
  pending := pending s; lastProcessedH1Time := t;
  cooldownBarsRemaining := cooldownBarsRemaining s; actionedSweeps := actionedSweeps s;
  riskManager := riskManager s |}.
Definition set_cooldown (n : Z) (s : OrchestratorState) : OrchestratorState := {|
  pending := pending s; lastProcessedH1Time := lastProcessedH1Time s;
  cooldownBarsRemaining := n; actionedSweeps := actionedSweeps s; riskManager := riskManager s |}.
Definition set_actioned (a : gset string) (s : OrchestratorState) : OrchestratorState := {|
  pending := pending s; lastProcessedH1Time := lastProcessedH1Time s;
  cooldownBarsRemaining := cooldownBarsRemaining s; actionedSweeps := a; riskManager := riskManager s |}.
Definition set_rm (r : RiskManager) (s : OrchestratorState) : OrchestratorState := {|
  pending := pending s; lastProcessedH1Time := lastProcessedH1Time s;
  cooldownBarsRemaining := cooldownBarsRemaining s; actionedSweeps := actionedSweeps s; riskManager := r |}.

Record RiskCfg := { rc_initialBalance : num; rc_riskPercent : num; rc_maxOpenPositions : Z }.

Record LiveSmcOrchestrator := {
  states : gmap string OrchestratorState;
  defaultRiskCfg : RiskCfg;
}.

(** [new LiveSmcOrchestrator()] *)
Definition new_LiveSmcOrchestrator : LiveSmcOrchestrator := {|
  states := ∅;
  defaultRiskCfg := {| rc_initialBalance := of_Z 10000; rc_riskPercent := lit 15 1; rc_maxOpenPositions := 4 |} |}.

Definition set_states (m : gmap string OrchestratorState) (o : LiveSmcOrchestrator) : LiveSmcOrchestrator :=
  {| states := m; defaultRiskCfg := defaultRiskCfg o |}.
Definition setDefaultRiskCfg (c : RiskCfg) (o : LiveSmcOrchestrator) : LiveSmcOrchestrator :=
  {| states := states o; defaultRiskCfg := c |}.
Definition reset (sym : string) (o : LiveSmcOrchestrator) : LiveSmcOrchestrator :=
  set_states (delete sym (states o)) o.
Definition resetAll (o : LiveSmcOrchestrator) : LiveSmcOrchestrator := set_states ∅ o.
Definition getState (sym : string) (o : LiveSmcOrchestrator) : option OrchestratorState := states o !! sym.

Definition buildRiskManager (sym : string) (o : LiveSmcOrchestrator) : Res RiskManager :=
  new_RiskManager {| symbol := sym; initialBalance := rc_initialBalance (defaultRiskCfg o);
    riskPercent := rc_riskPercent (defaultRiskCfg o); maxDailyLossPercent := of_Z 4;
    maxConsecutiveLosses := 5; maxOpenPositions := rc_maxOpenPositions (defaultRiskCfg o) |}.

Definition fresh_state (r : RiskManager) : OrchestratorState := {|
  pending := []; lastProcessedH1Time := None; cooldownBarsRemaining := 0;
  actionedSweeps := ∅; riskManager := r |}.

Definition getOrCreateState (sym : string) : M LiveSmcOrchestrator OrchestratorState := fun o =>
  match states o !! sym with
  | Some s => (o, Ok s)
  | None => match buildRiskManager sym o with
            | Ok r => let s := fresh_state r in (set_states (<[sym := s]> (states o)) o, Ok s)
            | Throw e => (o, Throw e)
            end
  end.

(** Run a method body on the pair's state object, which it mutates in place. *)
Definition with_state {A} (sym : string) (m : M OrchestratorState A) : M LiveSmcOrchestrator A := fun o =>
  match getOrCreateState sym o with
  | (o', Ok s) => let '(s', r) := m s in (set_states (<[sym := s']> (states o')) o', r)
  | (o', Throw e) => (o', Throw e)
  end.

(** ** Inputs of one evaluation *)
Record PrecomputedIndicators := {
  pre_m15 : IndicatorState; pre_h1 : IndicatorState; pre_d1 : option IndicatorState }.
Record LiveContext := {
  accountEquity : num;
  openDirections : list Side;
  totalOpenPositions : Z;
  ctx_riskPercent : option num;
  nowIso : string;
  ctx_maxOpenPositions : option Z;
}.
Record Cursor := { cu_m15 : Z; cu_h1 : Z; cu_d1 : Z }.

(** What [evaluate] computes before it touches the queue: the pair's configuration,
    the arrays with their effective lengths, the indicators, the D1 context. *)
Record View := {
  v_symbol : string;
  v_cfg : SmcPairConfig;
  v_factor : num;
  v_m15 : list BacktestCandle; v_h1 : list BacktestCandle; v_d1 : list BacktestCandle;
  v_m15Len : Z; v_h1Len : Z; v_d1Len : Z;
  v_m15Ind : IndicatorState; v_h1Ind : IndicatorState; v_d1Ind : option IndicatorState;
  v_lastM15 : BacktestCandle;
  v_bias : D1Bias;
  v_adx : num;
}.

(** ** 1. Sweep detection *)

(** [findH1IdxAfter] *)
Definition findH1IdxAfter (h1 : list BacktestCandle) (afterIso : string) (maxIdx : Z) : Z :=
  let afterMs := Date_parse afterIso in
  default maxIdx (first_some (fun i => c ← zlookup h1 i;
                                       if tv_lt afterMs (candle_ms c) then Some i else None)
                             (up_from 0 maxIdx)).

(** The tests on a detected setup before it is queued. *)
Definition accepts (cfg : SmcPairConfig) (actioned : gset string) (s : PendingSetup) : bool :=
  negb (bool_decide (mode s ∈ default [] (disabledModes cfg))) &&
  negb (bool_decide (sweepTime s ∈ actioned)) &&
  negb (bool_decide (mode s = CONTINUATION) && flag (disableContinuation cfg)).

(** One turn of the catch-up loop. *)
Definition detect_at (v : View) (idx : Z) : M OrchestratorState unit := fun st =>
  if v_adx v >=? d1AdxFloor (v_cfg v) then
    match detectSweep (v_h1 v) (v_h1Ind v) idx (v_bias v) (v_adx v) (v_cfg v)
            (Some (v_d1 v)) (v_d1Ind v) (Some (openTime (v_lastM15 v))) with
    | Throw e => (st, Throw e)
    | Ok (Some s) => (if accepts (v_cfg v) (actionedSweeps st) s
                      then set_pending (pending st ++ [s]) st else st, Ok tt)
    | Ok None => (st, Ok tt)
    end
  else (st, Ok tt).

Fixpoint detect_loop (v : View) (idxs : list Z) : M OrchestratorState unit :=
  match idxs with
  | [] => m_ret tt
  | i :: rest => (do! detect_at v i ;; detect_loop v rest)%js
  end.

Definition opt_str_eqb (a : option string) (b : string) : bool :=
  match a with Some x => String.eqb x b | None => false end.

Definition process_sweeps (v : View) : M OrchestratorState unit := fun st =>
  let lastUsableH1Idx := (v_h1Len v - 1 - 1)%Z in
  match zlookup (v_h1 v) lastUsableH1Idx with
  | Some lastUsableH1 =>
      if opt_str_eqb (lastProcessedH1Time st) (openTime lastUsableH1) then (st, Ok tt)
      else
        let first := if truthy_str (lastProcessedH1Time st)
                     then findH1IdxAfter (v_h1 v) (default ""%string (lastProcessedH1Time st)) lastUsableH1Idx
                     else lastUsableH1Idx in
        (do! detect_loop v (up_from first lastUsableH1Idx) ;;
         m_modify (set_lastProcessed (Some (openTime lastUsableH1))))%js st
  | None => (st, Ok tt)
  end.

(** ** 2. Expiry *)
Definition expire (v : View) (st : OrchestratorState) : OrchestratorState :=
  set_pending (List.filter (fun s => (v_h1Len v - 1 <=? expiresAtH1Idx s)%Z) (pending st)) st.

(** ** 3. Gates *)
Definition utc_hour (v : View) : option Z := getUTCHours <$> candle_ms (v_lastM15 v).

Definition in_zone (v : View) : bool :=
  match utc_hour v with
  | Some h => existsb (fun z => (z.1 <=? h)%Z && (h <? z.2)%Z) (killzones (v_cfg v))
  | None => false
  end.

Definition news_blocked (v : View) : bool :=
  let minutes := default 0%Z (newsBlackoutMinutes (v_cfg v)) in
  (0 <? minutes)%Z && isInBlackout (openTime (v_lastM15 v)) minutes.

Definition dow_skipped (v : View) : bool :=
  match skipEntryDows (v_cfg v), candle_ms (v_lastM15 v) with
  | Some l, Some t => bool_decide (getUTCDay t ∈ l)
  | _, _ => false
  end.

(** [canTrade] of the pair's own risk manager. *)
Definition rm_gate (v : View) (ctx : LiveContext) : M OrchestratorState bool := fun st =>
  let '(r, a) := canTrade (openTime (v_lastM15 v)) (totalOpenPositions ctx) (riskManager st) in
  (set_rm r st, a).

(** [true]: go on to the queue.  The cooldown counts down once per call. *)
Definition trade_gates (v : View) (ctx : LiveContext) : M OrchestratorState bool := fun st =>
  if (0 <? cooldownBarsRemaining st)%Z then (set_cooldown (cooldownBarsRemaining st - 1) st, Ok false)
  else if news_blocked v then (st, Ok false)
  else if negb (in_zone v) then (st, Ok false)
  else if dow_skipped v then (st, Ok false)
  else rm_gate v ctx st.

(** ** 4. A pending setup *)
Inductive Verdict :=
| Skip                       (* [continue]: the setup stays queued *)
| Drop                       (* [splice] and [continue] *)
| Fire (sig : SmcLiveSignal).

Definition m15_atr (v : View) : num := ind (atr14 (v_m15Ind v)) (v_m15Len v - 1).

Definition sl_buffer (v : View) (s : PendingSetup) : num :=
  let a := m15_atr v in
  if negb (is_nan a) && (a >? of_Z 0) then a * slBufferAtrM15 (v_cfg v)
  else sweepCandleAtr s * slBufferAtrM15 (v_cfg v).

Definition entry_price (v : View) (s : PendingSetup) (spread : num) : num :=
  let halfSpread := spread / of_Z 2 in
  match direction s with
  | BUY => close (v_lastM15 v) + halfSpread
  | SELL => close (v_lastM15 v) - halfSpread
  end.

Definition sl_price (v : View) (s : PendingSetup) : num :=
  match mode s, direction s with
  | CONTINUATION, BUY => sweepCandleLow s - sl_buffer v s
  | CONTINUATION, SELL => sweepCandleHigh s + sl_buffer v s
  | REVERSAL, BUY => sweepWick s - sl_buffer v s
  | REVERSAL, SELL => sweepWick s + sl_buffer v s
  end.

Definition sweep_range (s : PendingSetup) : num := sweepCandleHigh s - sweepCandleLow s.

(** The tight-stop gate: [true] when the bar must be skipped. *)
Definition too_loose (cfg : SmcPairConfig) (s : PendingSetup) (slPoints : num) : bool :=
  match maxSlSweepRatio cfg with
  | Some m => (m >? of_Z 0) && (sweep_range s >? of_Z 0) && (slPoints / sweep_range s >? m)
  | None => false
  end.

Definition sl_protective (d : Side) (entry sl : num) : bool :=
  match d with BUY => sl <? entry | SELL => sl >? entry end.

(** The wide-stop filter. *)
Definition too_wide (v : View) (slPoints : num) : bool :=
  match maxSlAtrM15 (v_cfg v) with
  | Some m => (m >? of_Z 0) && negb (is_nan (m15_atr v)) && (m15_atr v >? of_Z 0)
              && (slPoints / m15_atr v >? m)
  | None => false
  end.

(** *** Structure gates: [Ok None] rejects the bar for this setup *)
Record Gates := {
  g_fvg : option GateZone; g_ob : option GateZone; g_bos : option GateBos;
  g_obOrigin : option GateZone; g_impulseFvg : option GateZone; g_bosOrigin : option GateBos }.

Definition gate_bind {A B} (m : Res (option A)) (k : A -> Res (option B)) : Res (option B) :=
  match m with
  | Ok (Some a) => k a
  | Ok None => Ok None
  | Throw e => Throw e
  end.
Notation "x <-? m ;; k" := (gate_bind m (fun x => k))
  (at level 100, m at next level, right associativity) : js_scope.

(** [if (cfg.useX) { ...; if (!result.ok) continue; gate = result }] *)
Definition gate {A B} (on : option bool) (r : Res (option A)) (f : A -> B) : Res (option (option B)) :=
  if flag on then (a <-? r ;; Ok (Some (Some (f a))))%js else Ok (Some None).

Definition zone_of_fvg (f : Fvg.Fvg) : GateZone := {|
  gz_top := Fvg.top f; gz_bottom := Fvg.bottom f; gz_candleTime := Fvg.candleTime f;
  gz_isBullish := Fvg.isBullish f |}.
Definition zone_of_ob (b : OrderBlock.OrderBlock) : GateZone := {|
  gz_top := OrderBlock.top b; gz_bottom := OrderBlock.bottom b;
  gz_candleTime := OrderBlock.candleTime b; gz_isBullish := OrderBlock.isBullish b |}.
Definition gate_of_bos (b : Bos.Bos) : GateBos := {|
  gb_level := Bos.level b; gb_brokenAtTime := Bos.brokenAtTime b |}.

(** The swept swing, when one of the origin gates needs it. *)
Definition swept_idx (v : View) (s : PendingSetup) : Res (option Z) :=
  let cfg := v_cfg v in
  if flag (useObOriginGate cfg) || flag (useImpulseFvgGate cfg) || flag (useBosOriginGate cfg)
  then findSweptSwingIdx (v_h1 v) (detectedAtH1Idx s) (direction s) (sweepLevel s) (recentSwingLookbackH1 cfg)
  else Ok (Some (-1)%Z).   (* not read: the three gates are off *)

Definition structure_gates (v : View) (s : PendingSetup) (entryPrice : num) : Res (option Gates) :=
  let cfg := v_cfg v in
  let h1 := v_h1 v in
  let d := direction s in
  (fvg <-? gate (useFvgGate cfg)
     (Ok (Fvg.hasSupportingFvg (v_m15 v) d entryPrice (default (lit 15 1) (fvgGateMaxDistanceAtr cfg))
            (atr14 (v_m15Ind v)) (v_m15Len v - 1))) zone_of_fvg ;;
   ob <-? gate (useObGate cfg)
     (Ok (OrderBlock.hasSupportingOb h1 d entryPrice (default (of_Z 2) (obGateMaxDistanceAtr cfg))
            (atr14 (v_h1Ind v)) (v_h1Len v - 1))) zone_of_ob ;;
   bos <-? gate (useBosGate cfg)
     (Bos.hasBosAfter h1 d (detectedAtH1Idx s) (v_h1Len v - 1)
        (default (recentSwingLookbackH1 cfg) (bosGateSwingLookback cfg))) gate_of_bos ;;
   idx <-? swept_idx v s ;;
   obO <-? gate (useObOriginGate cfg)
     (Ok (OrderBlock.hasFreshObAtSweptLevel h1 idx d (default 12%Z (obOriginLookback cfg))
            (atr14 (v_h1Ind v)) (default (lit 12 1) (obOriginDisplacementAtr cfg)))) zone_of_ob ;;
   imp <-? gate (useImpulseFvgGate cfg)
     (Ok (Fvg.sweptMoveLeftFvg h1 idx d (default 5%Z (impulseFvgLookback cfg))
            (Some (atr14 (v_h1Ind v))))) zone_of_fvg ;;
   bosO <-? gate (useBosOriginGate cfg)
     (Bos.sweptLevelWasItselfABos h1 idx d (default 24%Z (bosOriginLookback cfg)) 5)
     (fun r => {| gb_level := r.1; gb_brokenAtTime := r.2 |}) ;;
   Ok (Some {| g_fvg := fvg; g_ob := ob; g_bos := bos; g_obOrigin := obO; g_impulseFvg := imp;
               g_bosOrigin := bosO |}))%js.

(** *** Size and signal *)

(** The throw-away [RiskManager] of one sizing: only the balance and the risk percentage
    differ from a fresh one. *)
Definition sizing_config (v : View) (ctx : LiveContext) (envRisk : num) : EngineConfig := {|
  symbol := v_symbol v; initialBalance := accountEquity ctx;
  riskPercent := default envRisk (ctx_riskPercent ctx); maxDailyLossPercent := of_Z 4;
  maxConsecutiveLosses := 5; maxOpenPositions := default 4%Z (ctx_maxOpenPositions ctx) |}.

(** The conviction multiplier. *)
Definition conviction (cfg : SmcPairConfig) (s : PendingSetup) (slPoints totalLot : num) : num :=
  match convictionSizing cfg with
  | Some cs =>
      if sweep_range s >? of_Z 0 then
        let mult := if slPoints / sweep_range s <? tightRatio cs then tightMult cs else looseMult cs in
        round2 (totalLot * mult)
      else totalLot
  | None => totalLot
  end.

Definition total_lot (v : View) (ctx : LiveContext) (envRisk : num) (s : PendingSetup)
    (entryPrice slPoints : num) : Res num :=
  (r <-! new_RiskManager (sizing_config v ctx envRisk) ;;
   Ok (conviction (v_cfg v) s slPoints
         (calculateLotSize slPoints (Some (of_Z 60)) (Some WEAK_TREND) (Some (of_Z 50))
            (Some entryPrice) r)))%js.

(** [entryPrice ± slPoints * r] *)
Definition target (d : Side) (entryPrice slPoints r : num) : num :=
  match d with BUY => entryPrice + slPoints * r | SELL => entryPrice - slPoints * r end.

Definition session (v : View) : string :=
  match utc_hour v with Some h => if (h <? 12)%Z then "LONDON" else "NY" | None => "NY" end.

Definition formatReason (s : PendingSetup) (sym : string) (adx : num) (bias : D1Bias)
    (ses : string) (ladder : bool) : string :=
  mode_string (mode s) +:+ " " +:+ side_string (direction s) +:+ " on " +:+ sym +:+ " — D1 ADX="
  +:+ toFixed1 adx +:+ ", bias=" +:+ bias_string bias +:+ ", " +:+ ses
  +:+ (if ladder then ", ladder" else "").

Definition smc_context (v : View) (s : PendingSetup) (g : Gates) : option SmcContext :=
  c ← zlookup (v_h1 v) (detectedAtH1Idx s);
  Some {| ctx_anchorType := anchorType s; sweptLevel := sweepLevel s; sweptHigh := sweepCandleHigh s;
          sweptLow := sweepCandleLow s; sweepCandleTime := openTime c; ctx_d1Bias := v_bias v;
          ctx_fvg := g_fvg g; ctx_ob := g_ob g; ctx_bos := g_bos g; ctx_obOrigin := g_obOrigin g;
          ctx_impulseFvg := g_impulseFvg g; ctx_bosOrigin := g_bosOrigin g |}.

(** [Math.round(n * factor) / factor] *)
Definition round_price (v : View) (n : num) : num := Math_round (n * v_factor v) / v_factor v.

Definition uses_ladder (cfg : SmcPairConfig) : bool := tp1PartialFraction cfg >? of_Z 0.

Definition tp1_lot (cfg : SmcPairConfig) (totalLot : num) : num :=
  Math_max (lit 1 2) (round2 (totalLot * tp1PartialFraction cfg)).
Definition runner_lot (cfg : SmcPairConfig) (totalLot : num) : num :=
  Math_max (lit 1 2) (round2 (totalLot - tp1_lot cfg totalLot)).

Definition make_signal (v : View) (s : PendingSetup) (g : Gates) (entryPrice slPoints totalLot : num)
    (tp : num) (ls : list SmcLiveSignalLeg) : SmcLiveSignal := {|
  sig_symbol := v_symbol v; sig_side := direction s; sig_entryPrice := round_price v entryPrice;
  sig_slPrice := round_price v (sl_price v s); sig_tpPrice := round_price v tp; totalLot := totalLot;
  legs := ls; sig_mode := mode s; h1SweepTime := sweepTime s;
  reason := formatReason s (cfg_symbol (v_cfg v)) (v_adx v) (v_bias v) (session v) (uses_ladder (v_cfg v));
  smcContext := smc_context v s g |}.

Definition build_signal (v : View) (s : PendingSetup) (g : Gates) (entryPrice slPoints lot : num) : Verdict :=
  let cfg := v_cfg v in
  let d := direction s in
  let baseTags := ["SMC"; "SWEEP"; session v; mode_string (mode s)]%string in
  let tp2 := target d entryPrice slPoints (tp2R cfg) in
  if negb (uses_ladder cfg) then
    Fire (make_signal v s g entryPrice slPoints lot tp2
      [{| leg_lotSize := lot; leg_tpPrice := round_price v tp2;
          leg_setupTags := baseTags ++ ["RUNNER"%string] |}])
  else
    let tp1 := target d entryPrice slPoints (tp1R cfg) in
    if (tp1_lot cfg lot <? lit 1 2) || (runner_lot cfg lot <? lit 1 2) then Skip
    else
      Fire (make_signal v s g entryPrice slPoints lot tp1
        [{| leg_lotSize := tp1_lot cfg lot; leg_tpPrice := round_price v tp1;
            leg_setupTags := baseTags ++ ["TP1"%string] |};
         {| leg_lotSize := runner_lot cfg lot; leg_tpPrice := round_price v tp2;
            leg_setupTags := baseTags ++ ["RUNNER"%string] |}]).

(** Too small to trade. *)
Definition too_small (cfg : SmcPairConfig) (lot : num) : bool :=
  if uses_ladder cfg then lot <? lit 2 2 else lot <? lit 1 2.

(** The checks on prices, in the order of the source: [None] goes on. *)
Definition price_checks (v : View) (s : PendingSetup) (entryPrice : num) : option Verdict :=
  let sl := sl_price v s in
  let slPoints := nabs (entryPrice - sl) in
  if slPoints <=? of_Z 0 then Some Drop
  else if too_loose (v_cfg v) s slPoints then Some Skip
  else if negb (sl_protective (direction s) entryPrice sl) then Some Drop
  else if too_wide v slPoints then Some Drop
  else None.

(** One turn of the queue loop. *)
Definition try_setup (v : View) (ctx : LiveContext) (envRisk : num) (actioned : gset string)
    (s : PendingSetup) : Res Verdict :=
  if bool_decide (direction s ∈ openDirections ctx) then Ok Skip
  else if bool_decide (sweepTime s ∈ actioned) then Ok Drop
  else
    (spread <-! getSpread (v_symbol v) (openTime (v_lastM15 v)) ;;
     let entryPrice := entry_price v s spread in
     match price_checks v s entryPrice with
     | Some verdict => Ok verdict
     | None =>
         let slPoints := nabs (entryPrice - sl_price v s) in
         gates <-! structure_gates v s entryPrice ;;
         match gates with
         | None => Ok Skip
         | Some g =>
             lot <-! total_lot v ctx envRisk s entryPrice slPoints ;;
             if too_small (v_cfg v) lot then Ok Skip
             else Ok (build_signal v s g entryPrice slPoints lot)
         end
     end)%js.

(** The loop from the newest setup to the oldest; [splice] drops at the current index. *)
Fixpoint fire_loop (v : View) (ctx : LiveContext) (envRisk : num) (actioned : gset string)
    (idxs : list Z) (queue : list PendingSetup) : list PendingSetup * Res (option SmcLiveSignal) :=
  match idxs with
  | [] => (queue, Ok None)
  | i :: rest =>
      match zlookup queue i with
      | None => (queue, Throw "TypeError: Cannot read properties of undefined")
      | Some s =>
          match try_setup v ctx envRisk actioned s with
          | Throw e => (queue, Throw e)
          | Ok Skip => fire_loop v ctx envRisk actioned rest queue
          | Ok Drop => fire_loop v ctx envRisk actioned rest (splice1 i queue)
          | Ok (Fire sig) => (queue, Ok (Some sig))
          end
      end
  end.

Definition fire (v : View) (ctx : LiveContext) (envRisk : num) : M OrchestratorState (option SmcLiveSignal) :=
  fun st =>
    let '(queue, r) := fire_loop v ctx envRisk (actionedSweeps st) (down_from (zlen (pending st) - 1) 0)
                         (pending st) in
    (set_pending queue st, r).

(** ** evaluate *)
Definition evaluate_state (v : View) (ctx : LiveContext) (envRisk : num)
    : M OrchestratorState (option SmcLiveSignal) :=
  (do! process_sweeps v ;;
   do! m_modify (expire v) ;;
   go <-- trade_gates v ctx ;;
   if go then fire v ctx envRisk else m_ret None)%js.

Section evaluate.
(** The indicator library, the configuration overrides and [RISK_PERCENT] of the process. *)
Context `{TechnicalIndicators} (ov : Overrides) (envRisk : num).

Definition indicators_or (p : option IndicatorState) (cs : list BacktestCandle) : Res IndicatorState :=
  match p with Some s => Ok s | None => computeIndicators cs end.

(** A cursor past the M15 array reads [undefined]: the read of its [openTime] throws. *)
Definition make_view (sym : string) (cfg : SmcPairConfig) (factor : num)
    (m15 h1 d1 : list BacktestCandle) (pre : option PrecomputedIndicators)
    (m15Len h1Len d1Len : Z) : Res View :=
  (mi <-! indicators_or (pre_m15 <$> pre) m15 ;;
   hi <-! indicators_or (pre_h1 <$> pre) h1 ;;
   di <-! match pre with
          | Some p => Ok (pre_d1 p)
          | None => if (30 <? zlen d1)%Z then res_map Some (computeIndicators d1) else Ok None
          end ;;
   match zlookup m15 (m15Len - 1) with
   | None => Throw "TypeError: Cannot read properties of undefined"
   | Some lastM15 =>
       Ok {| v_symbol := sym; v_cfg := cfg; v_factor := factor;
             v_m15 := m15; v_h1 := h1; v_d1 := d1;
             v_m15Len := m15Len; v_h1Len := h1Len; v_d1Len := d1Len;
             v_m15Ind := mi; v_h1Ind := hi; v_d1Ind := di; v_lastM15 := lastM15;
             v_bias := match di with Some d => getD1Bias d1 d (openTime lastM15) | None => NEUTRAL end;
             v_adx := match di with Some d => or_zero (ind (adx14 d) (d1Len - 1)) | None => of_Z 0 end |}
   end)%js.

Definition evaluate (sym : string) (m15 h1 d1 : list BacktestCandle) (ctx : LiveContext)
    (pre : option PrecomputedIndicators) (cursor : option Cursor)
    : M LiveSmcOrchestrator (option SmcLiveSignal) :=
  let m15Len := match cursor with Some c => cu_m15 c | None => zlen m15 end in
  let h1Len := match cursor with Some c => cu_h1 c | None => zlen h1 end in
  let d1Len := match cursor with Some c => cu_d1 c | None => zlen d1 end in
  if (m15Len <? 30)%Z || (h1Len <? 30)%Z then m_ret None
  else
    (cfg <-- m_lift (getSmcPairConfig ov sym) ;;
     ic <-- m_lift (getInstrumentConfig sym) ;;
     with_state sym
       (v <-- m_lift (make_view sym cfg (price_factor ic) m15 h1 d1 pre m15Len h1Len d1Len) ;;
        evaluate_state v ctx envRisk))%js.
End evaluate.

(** ** Entry and exit *)
Definition recordEntry (sym : string) (sig : SmcLiveSignal) : M LiveSmcOrchestrator unit :=
  with_state sym (m_modify (fun st =>
    set_cooldown 1 (set_actioned ({[ h1SweepTime sig ]} ∪ actionedSweeps st)
      (set_pending (List.filter (fun p => negb (String.eqb (sweepTime p) (h1SweepTime sig))) (pending st)) st)))).

Inductive OrchExit := ExSL | ExTP | ExOther.

Definition exit_bars (cfg : SmcPairConfig) (why : OrchExit) : Z :=
  match why with ExTP => 2 | ExSL => slCooldownBars cfg | ExOther => 1 end.
Definition rm_reason (why : OrchExit) : ExitReason :=
  match why with ExSL => SL | ExTP => TP | ExOther => FORCED_CLOSE end.

Definition recordExit (ov : Overrides) (sym : string) (why : OrchExit) (exitTimeIso : string)
    (p : option num) : M LiveSmcOrchestrator unit :=
  with_state sym
    (cfg <-- m_lift (getSmcPairConfig ov sym) ;;
     do! m_modify (fun st => set_cooldown (Z.max (cooldownBarsRemaining st) (exit_bars cfg why)) st) ;;
     match p with
     | Some x => fun st => let '(r, a) := recordTrade x exitTimeIso (Some (rm_reason why)) (riskManager st) in
                           (set_rm r st, a)
     | None => m_ret tt
     end)%js.

(** ** Telemetry *)
Record TelemetryPending := {
  tp_direction : Side; tp_mode : SmcMode; entryHint : num;
  tp_detectedAtH1Idx : Z; tp_expiresAtH1Idx : Z }.
Record OrchestratorTelemetry := {
  pendingCount : Z; tel_lastProcessedH1Time : option string; tel_cooldownBarsRemaining : Z;
  tel_pending : list TelemetryPending }.

Definition telemetry_of (s : OrchestratorState) : OrchestratorTelemetry := {|
  pendingCount := zlen (pending s); tel_lastProcessedH1Time := lastProcessedH1Time s;
  tel_cooldownBarsRemaining := cooldownBarsRemaining s;
  tel_pending := (fun p => {| tp_direction := direction p; tp_mode := mode p; entryHint := sweepMid p;
                              tp_detectedAtH1Idx := detectedAtH1Idx p;
                              tp_expiresAtH1Idx := expiresAtH1Idx p |}) <$> pending s |}.
Definition getTelemetry (o : LiveSmcOrchestrator) : gmap string OrchestratorTelemetry :=
  telemetry_of <$> states o.

(** ** Persistence

    [serialize] gives the entries of the snapshot object; [StateSnapshot] is one value.
    [json_*] is what comes back from [JSON.parse(JSON.stringify(...))]; a missing or null
    field is [None]. *)
Record StateSnapshot := {
  ss_pending : list PendingSetup; ss_lastProcessedH1Time : option string;
  ss_cooldownBarsRemaining : Z; ss_actionedSweeps : list string; ss_riskManager : RiskManagerSnapshot }.

Definition snapshot_of (s : OrchestratorState) : StateSnapshot := {|
  ss_pending := pending s; ss_lastProcessedH1Time := lastProcessedH1Time s;
  ss_cooldownBarsRemaining := cooldownBarsRemaining s;
  ss_actionedSweeps := elements (actionedSweeps s);
  ss_riskManager := RiskManager.snapshot (riskManager s) |}.
Definition serialize (o : LiveSmcOrchestrator) : list (string * StateSnapshot) :=
  map_to_list (snapshot_of <$> states o).

(** A queued setup of a snapshot: [sweepTime] is absent from old ones. *)
Record RawPending := { rp_base : PendingSetup; rp_sweepTime : option string }.
Record RawState := {
  raw_pending : option (list RawPending); raw_lastProcessedH1Time : option string;
  raw_cooldownBarsRemaining : option Z; raw_actionedSweeps : option (list string);
  raw_riskManager : option PartialSnapshot }.

(** A number that is not finite comes back as null, which counts as 0 in arithmetic. *)
Definition json_read (x : num) : num := default (of_Z 0) (json_num x).
Definition json_setup (p : PendingSetup) : PendingSetup := {|
  direction := direction p; sweepLevel := json_read (sweepLevel p); sweepWick := json_read (sweepWick p);
  sweepMid := json_read (sweepMid p); sweepCandleAtr := json_read (sweepCandleAtr p);
  sweepCandleHigh := json_read (sweepCandleHigh p); sweepCandleLow := json_read (sweepCandleLow p);
  detectedAtH1Idx := detectedAtH1Idx p; expiresAtH1Idx := expiresAtH1Idx p; mode := mode p;
  sweepTime := sweepTime p; anchorType := anchorType p |}.
Definition json_state (s : StateSnapshot) : RawState := {|
  raw_pending := Some ((fun p => {| rp_base := json_setup p; rp_sweepTime := Some (sweepTime p) |}) <$> ss_pending s);
  raw_lastProcessedH1Time := ss_lastProcessedH1Time s;
  raw_cooldownBarsRemaining := Some (ss_cooldownBarsRemaining s);
  raw_actionedSweeps := Some (ss_actionedSweeps s);
  raw_riskManager := Some (json_snapshot (ss_riskManager s)) |}.

Definition with_sweepTime (t : string) (p : PendingSetup) : PendingSetup := {|
  direction := direction p; sweepLevel := sweepLevel p; sweepWick := sweepWick p; sweepMid := sweepMid p;
  sweepCandleAtr := sweepCandleAtr p; sweepCandleHigh := sweepCandleHigh p;
  sweepCandleLow := sweepCandleLow p; detectedAtH1Idx := detectedAtH1Idx p;
  expiresAtH1Idx := expiresAtH1Idx p; mode := mode p; sweepTime := t; anchorType := anchorType p |}.

(** The filter on [typeof p.sweepTime === 'string' && p.sweepTime.length > 0]. *)
Definition restore_pending (p : RawPending) : option PendingSetup :=
  t ← rp_sweepTime p;
  if String.eqb t "" then None else Some (with_sweepTime t (rp_base p)).

Definition restored (r : RawState) (fresh : RiskManager) : OrchestratorState := {|
  pending := omap restore_pending (default [] (raw_pending r));
  lastProcessedH1Time := raw_lastProcessedH1Time r;
  cooldownBarsRemaining := default 0%Z (raw_cooldownBarsRemaining r);
  actionedSweeps := list_to_set (default [] (raw_actionedSweeps r));
  riskManager := match raw_riskManager r with Some p => RiskManager.restore p fresh | None => fresh end |}.

Fixpoint restore_loop (l : list (string * RawState)) : M LiveSmcOrchestrator unit :=
  match l with
  | [] => m_ret tt
  | (sym, raw) :: l' => fun o =>
      match buildRiskManager sym o with
      | Throw e => (o, Throw e)
      | Ok fresh => restore_loop l' (set_states (<[sym := restored raw fresh]> (states o)) o)
      end
  end.

Definition restore (snap : list (string * RawState)) : M LiveSmcOrchestrator unit :=
  (do! m_modify resetAll ;; restore_loop snap)%js.

(** *** Redis *)

(** A stored text: the JSON of a snapshot, or something [JSON.parse] rejects. *)
Inductive StoredText := JsonText (s : list (string * RawState)) | BadText.

(** The two calls of the injected RedisService. *)
Class RedisService (Store : Type) := {
  redis_get : string -> Store -> Res (option StoredText);
  redis_set : string -> StoredText -> Store -> Res Store }.

Definition state_key (accountId : option string) : string :=
  match accountId with
  | Some a => if String.eqb a "" then "live:orchestrator:state" else "live:orchestrator:state:" +:+ a
  | None => "live:orchestrator:state"
  end.

Section redis.
Context {Store : Type} `{!RedisService Store}.

(** Errors are logged and swallowed; a failed restore keeps what it had restored. *)
Definition restoreFromRedis (accountId : option string) (st : Store) (o : LiveSmcOrchestrator)
    : LiveSmcOrchestrator :=
  match redis_get (state_key accountId) st with
  | Ok (Some (JsonText s)) => (restore s o).1
  | _ => o
  end.

Definition stringify (o : LiveSmcOrchestrator) : StoredText :=
  JsonText ((fun e => (e.1, json_state e.2)) <$> serialize o).

Definition persistToRedis (accountId : option string) (o : LiveSmcOrchestrator) (st : Store) : Store :=
  match redis_set (state_key accountId) (stringify o) st with
  | Ok st' => st'
  | Throw _ => st
  end.

Definition migrateLegacyKeyOnce (defaultAccountId : string) (st : Store) : Store :=
  let suffixed := "live:orchestrator:state:" +:+ defaultAccountId in
  match redis_get suffixed st with
  | Ok None =>
      match redis_get "live:orchestrator:state" st with
      | Ok (Some legacy) => match redis_set suffixed legacy st with Ok st' => st' | Throw _ => st end
      | _ => st
      end
  | _ => st
  end.
End redis.
