(* ===== verification/LiveTypes.v ===== *)
(** * The live services: rows, messages, memory, effects

    The rows of the Trade table (libs/prisma/schema.prisma), the answers of the
    execution service (src/strategy/live/broker-http-client.ts), the state the live
    services keep in memory, and the effects their methods await.  The database, Redis,
    the broker and the mail server are third-party: an effect only says what is asked,
    and its answer is whatever they give, an error included. *)
From S2P Require Import Prelude Async JsNum JsDate Types Orchestrator.

(** ** The Trade table *)
Inductive TradeStatus := PENDING | OPEN | CLOSED | CANCELLED.
Inductive TrailKey := KeyTP1 | KeyRUNNER.
#[export] Instance TradeStatus_eq_dec : EqDecision TradeStatus.
Proof. solve_decision. Defined.
#[export] Instance TrailKey_eq_dec : EqDecision TrailKey.
Proof. solve_decision. Defined.

(** The JSON column [managementState]; any key may be missing. *)
Record ManagementJson := {
  ms_breakevenActivated : option bool;
  ms_peakFavorablePrice : option num;
  ms_originalSlPrice : option num;
  ms_trailKey : option TrailKey }.

Record StatusEntry := {
  se_status : TradeStatus; se_timestamp : string;
  se_ticket : option Z; se_orderId : option string; se_reason : option string }.

(** The columns the services write. *)
Record TradeData := {
  t_candidateId : string;
  t_clientOrderId : option string;
  t_mt5Ticket : option Z;
  t_sessionId : option string;
  t_accountId : option string;
  t_symbol : string;
  t_side : Side;
  t_lotSize : num;
  t_entryPrice : num;
  t_closePrice : option num;
  t_slPrice : num;
  t_tpPrice : num;
  t_status : TradeStatus;
  t_exitReason : option string;
  t_entryType : string;
  t_brokerOrderId : option string;
  t_limitPrice : option num;
  t_orderExpiresAt : option Z;
  t_pnl : option num;
  t_closedAt : option Z;
  t_statusHistory : list StatusEntry;
  t_managementState : ManagementJson;
  t_sweptLevel : option num;
  t_sweptHigh : option num;
  t_sweptLow : option num;
  t_sweepCandleTime : option Z;
  t_d1Bias : option D1Bias;
  t_originalSlPrice : option num;
  t_strategyName : option string }.

Record Trade := { t_id : string; t_createdAt : Z; t_data : TradeData }.

Definition status (t : Trade) : TradeStatus := t_status (t_data t).
Definition ticket (t : Trade) : option Z := t_mt5Ticket (t_data t).
Definition account (t : Trade) : option string := t_accountId (t_data t).
Definition trade_symbol (t : Trade) : string := t_symbol (t_data t).

(** The [data] object of an update: [None] leaves the column alone. *)
Record TradePatch := {
  p_status : option TradeStatus;
  p_mt5Ticket : option Z;
  p_entryPrice : option num;
  p_closePrice : option num;
  p_slPrice : option num;
  p_tpPrice : option num;
  p_exitReason : option string;
  p_pnl : option num;
  p_closedAt : option Z;
  p_statusHistory : option (list StatusEntry);
  p_managementState : option ManagementJson }.

Definition no_patch : TradePatch := {|
  p_status := None; p_mt5Ticket := None; p_entryPrice := None; p_closePrice := None;
  p_slPrice := None; p_tpPrice := None; p_exitReason := None; p_pnl := None;
  p_closedAt := None; p_statusHistory := None; p_managementState := None |}.

Definition write {A} (new : option A) (old : option A) : option A :=
  match new with Some a => Some a | None => old end.

Definition patch_data (p : TradePatch) (d : TradeData) : TradeData := {|
  t_candidateId := t_candidateId d; t_clientOrderId := t_clientOrderId d;
  t_mt5Ticket := write (p_mt5Ticket p) (t_mt5Ticket d);
  t_sessionId := t_sessionId d; t_accountId := t_accountId d; t_symbol := t_symbol d;
  t_side := t_side d; t_lotSize := t_lotSize d;
  t_entryPrice := default (t_entryPrice d) (p_entryPrice p);
  t_closePrice := write (p_closePrice p) (t_closePrice d);
  t_slPrice := default (t_slPrice d) (p_slPrice p);
  t_tpPrice := default (t_tpPrice d) (p_tpPrice p);
  t_status := default (t_status d) (p_status p);
  t_exitReason := write (p_exitReason p) (t_exitReason d);
  t_entryType := t_entryType d; t_brokerOrderId := t_brokerOrderId d;
  t_limitPrice := t_limitPrice d; t_orderExpiresAt := t_orderExpiresAt d;
  t_pnl := write (p_pnl p) (t_pnl d);
  t_closedAt := write (p_closedAt p) (t_closedAt d);
  t_statusHistory := default (t_statusHistory d) (p_statusHistory p);
  t_managementState := default (t_managementState d) (p_managementState p);
  t_sweptLevel := t_sweptLevel d; t_sweptHigh := t_sweptHigh d; t_sweptLow := t_sweptLow d;
  t_sweepCandleTime := t_sweepCandleTime d; t_d1Bias := t_d1Bias d;
  t_originalSlPrice := t_originalSlPrice d; t_strategyName := t_strategyName d |}.

Definition patch_row (p : TradePatch) (t : Trade) : Trade :=
  {| t_id := t_id t; t_createdAt := t_createdAt t; t_data := patch_data p (t_data t) |}.

(** A row of CandidateTrade, created with each Trade. *)
Record CandidateTrade := {
  ca_symbol : string; ca_side : Side; ca_entryPrice : num; ca_slPrice : num; ca_tpPrice : num;
  ca_slPoints : num; ca_tpPoints : num; ca_setupTags : list string; ca_h1Bias : D1Bias;
  ca_status : string }.

(** ** Accounts and presets *)
Inductive PresetKey := CONSERVATIVE | BALANCED | AGGRESSIVE_PRESET.
Record User := { u_email : string; u_botEnabled : bool; u_isActive : bool; u_presetKey : PresetKey }.
Record BrokerAccount := {
  a_id : string; a_name : string; a_broker : string; a_isEnabled : bool; a_user : option User }.

(** ** Messages of the execution service *)
Record BrokerPosition := {
  bp_ticket : Z; bp_symbol : string; bp_side : Side; bp_entryPrice : option num;
  bp_sl : num; bp_tp : num }.

Record OrderBody := {
  ob_symbol : string; ob_side : Side; ob_lotSize : num; ob_entryPrice : num;
  ob_slPrice : num; ob_tpPrice : num; ob_limit : option (num * option Z) }.

Record OrderReply := {
  or_mt5Ticket : option Z; or_entryPrice : option num;
  or_status : option string; or_orderId : option string }.

(** The promise of an HTTP request: a rejection may carry a response status. *)
Inductive HttpRes (A : Type) := HttpOk (a : A) | HttpErr (code : option Z) (msg : string).
Arguments HttpOk {A} a.
Arguments HttpErr {A} code msg.

Record OrderStatus := {
  os_status : string; os_positionId : option Z; os_executionPrice : option num }.

Inductive CloseTime := ct_number (z : Z) | ct_string (s : string).
(** A field is [None] when it is missing, null or not of the type the code tests for. *)
Record PositionHistory := {
  ph_closePrice : option num; ph_realizedPnl : option num; ph_pnl : option num;
  ph_exitReason : option string; ph_reason : option string; ph_closeTime : option CloseTime }.

Record AccountInfo := { ai_balance : num; ai_equity : num }.

(** ** State in memory *)
Record BreakerState := {
  br_tripped : bool; br_trippedAt : option string; br_rollingPnl : num; br_threshold : num }.

Inductive EvalDecision := NoSweep | PendingOnly | Cooldown.
Inductive TelemetryEvent :=
| EvEval (ts sym : string) (decision : EvalDecision)
| EvSweepDetected (ts sym : string) (dir : Side) (m : SmcMode) (hint : num)
| EvSignalFired (ts sym : string) (sd : Side) (m : SmcMode) (entry : num)
| EvLimitParked (ts sym : string) (sd : Side) (limit : num) (expires : option string)
| EvLimitFilled (ts sym : string) (sd : Side) (entry : num)
| EvLimitExpired (ts sym : string) (sd : Side) (limit : option num).
Record Counters := { cn_date : string; cn_evals : Z; cn_sweeps : Z; cn_signals : Z }.
Record Feed := {
  fd_events : list TelemetryEvent;
  fd_lastEval : gmap string (string * EvalDecision);
  fd_counters : Counters }.
(** The flags of the persistence scheduler of the live strategy service. *)
Record PersistFlags := { pf_dirty : bool; pf_debounce : bool; pf_inFlight : bool }.

(** The [context] object of a decision record, a free-form note for the operator, is
    left out. *)
Record DecisionRecord := {
  dr_accountId : option string; dr_symbol : string; dr_barTime : option Z;
  dr_decision : string; dr_signalSide : option Side }.
Record DecisionBuffer := { db_rows : list DecisionRecord; db_timer : bool }.

Record ControlState := { ct_running : bool; ct_riskPercent : option num; ct_sessionId : option string }.

Record Mem := {
  m_orchestrator : LiveSmcOrchestrator;
  m_registry : gmap string LiveSmcOrchestrator;
  m_creating : gset string;
  m_absence : gmap string Z;
  m_breaker : option BreakerState;
  m_feed : Feed;
  m_persist : PersistFlags;
  m_lastTelemetryBar : gmap string string;
  m_decisions : DecisionBuffer;
  m_control : ControlState }.

Definition set_orchestrator (o : LiveSmcOrchestrator) (m : Mem) : Mem := {|
  m_orchestrator := o; m_registry := m_registry m; m_creating := m_creating m;
  m_absence := m_absence m; m_breaker := m_breaker m; m_feed := m_feed m; m_persist := m_persist m;
  m_lastTelemetryBar := m_lastTelemetryBar m; m_decisions := m_decisions m; m_control := m_control m |}.
Definition set_registry (r : gmap string LiveSmcOrchestrator) (c : gset string) (m : Mem) : Mem := {|
  m_orchestrator := m_orchestrator m; m_registry := r; m_creating := c;
  m_absence := m_absence m; m_breaker := m_breaker m; m_feed := m_feed m; m_persist := m_persist m;
  m_lastTelemetryBar := m_lastTelemetryBar m; m_decisions := m_decisions m; m_control := m_control m |}.
Definition set_absence (a : gmap string Z) (m : Mem) : Mem := {|
  m_orchestrator := m_orchestrator m; m_registry := m_registry m; m_creating := m_creating m;
  m_absence := a; m_breaker := m_breaker m; m_feed := m_feed m; m_persist := m_persist m;
  m_lastTelemetryBar := m_lastTelemetryBar m; m_decisions := m_decisions m; m_control := m_control m |}.
Definition set_breaker (b : option BreakerState) (m : Mem) : Mem := {|
  m_orchestrator := m_orchestrator m; m_registry := m_registry m; m_creating := m_creating m;
  m_absence := m_absence m; m_breaker := b; m_feed := m_feed m; m_persist := m_persist m;
  m_lastTelemetryBar := m_lastTelemetryBar m; m_decisions := m_decisions m; m_control := m_control m |}.
Definition set_feed (f : Feed) (p : PersistFlags) (m : Mem) : Mem := {|
  m_orchestrator := m_orchestrator m; m_registry := m_registry m; m_creating := m_creating m;
  m_absence := m_absence m; m_breaker := m_breaker m; m_feed := f; m_persist := p;
  m_lastTelemetryBar := m_lastTelemetryBar m; m_decisions := m_decisions m; m_control := m_control m |}.
Definition set_lastTelemetryBar (l : gmap string string) (m : Mem) : Mem := {|
  m_orchestrator := m_orchestrator m; m_registry := m_registry m; m_creating := m_creating m;
  m_absence := m_absence m; m_breaker := m_breaker m; m_feed := m_feed m; m_persist := m_persist m;
  m_lastTelemetryBar := l; m_decisions := m_decisions m; m_control := m_control m |}.
Definition set_decisions (d : DecisionBuffer) (m : Mem) : Mem := {|
  m_orchestrator := m_orchestrator m; m_registry := m_registry m; m_creating := m_creating m;
  m_absence := m_absence m; m_breaker := m_breaker m; m_feed := m_feed m; m_persist := m_persist m;
  m_lastTelemetryBar := m_lastTelemetryBar m; m_decisions := d; m_control := m_control m |}.

(** The re-entrance flags [sweeping] of the two sweeping services. *)
Inductive Lock := PendingSweep | ExitSweep.
#[export] Instance Lock_eq_dec : EqDecision Lock.
Proof. solve_decision. Defined.

(** What the persistence scheduler writes to Redis. *)
Record FeedSnapshot := {
  fs_events : list TelemetryEvent; fs_lastEval : list (string * (string * EvalDecision));
  fs_counters : Counters }.

(** The text found under the key of the feed: a JSON object, any field of which may be
    missing, or something without fields. *)
Record RawFeed := {
  rf_events : option (list TelemetryEvent); rf_lastEval : option (list (string * (string * EvalDecision)));
  rf_counters : option Counters }.
Inductive FeedText := FeedJson (f : RawFeed) | FeedBad.

(** ** Effects

    [TradeUpdateManyStale] restricts an update to the rows of accounts without an equity
    snapshot since [cutoff], a filter on another table.  An account of [None] is the legacy route without account. *)
Inductive Action :=
(* clock and identifiers *)
| Now
| RandomUUID
| RandomSuffix
| Sleep (ms : Z)
(* database *)
| TradeFindMany (where_ : Trade -> bool) (take : option nat)
| TradeFindFirst (where_ : Trade -> bool)
| TradeCount (where_ : Trade -> bool)
| TradeSumPnl (where_ : Trade -> bool)
| TradeUpdate (id : string) (data : TradePatch)
| TradeCreate (data : TradeData)
| CandidateCreate (data : CandidateTrade)
| CandleFindMany (sym tf : string) (take : nat)
| TradeUpdateManyStale (where_ : Trade -> bool) (cutoff : Z) (data : TradePatch)
| LatestEquities
| SuperAdminEmails
| ClosedWithoutJournal
| EnabledAccounts
| DecisionCreateMany (rows : list DecisionRecord)
| DecisionDeleteBefore (cutoff : Z)
(* the execution service *)
| BrokerPositions (acct : option string) (sym : option string)
| BrokerPlaceOrder (acct : option string) (body : OrderBody)
| BrokerModify (acct : option string) (ticket : Z) (sl tp : num)
| BrokerClose (acct : option string) (ticket : Z)
| BrokerOrderStatus (acct : string) (orderId sym : string)
| BrokerHistory (acct : option string) (ticket : Z)
| BrokerAccountInfo (acct : option string)
| BrokerCandles (sym tf : string) (count : nat)
(* redis *)
| BreakerGet
| BreakerSet (s : BreakerState)
| BreakerDel
| StateGet (key : string)
| StateSet (key : string) (s : StoredText)
| FeedSet (f : FeedSnapshot)
| FeedGet
| SubscribeCandles
| Publish (channel : string) (tradeId sym : string)
(* other services *)
| JournalEnrich (tradeId : string)
| JournalCreate (sig : SmcLiveSignal) (evalTs : string)
| MailAlert (to_ : string) (rollingPnl threshold : num)
| MailTradeOpened (to_ : string) (sig : SmcLiveSignal)
(* this process *)
| TryLock (l : Lock)
| Unlock (l : Lock)
| AwaitCreation (accountId : string)
| Sync (X : Type) (f : Mem -> Mem * X).

Definition answer (e : Action) : Type :=
  match e with
  | Now => Z
  | RandomUUID | RandomSuffix => string
  | Sleep _ => unit
  | TradeFindMany _ _ => Res (list Trade)
  | TradeFindFirst _ => Res (option Trade)
  | TradeCount _ => Res Z
  | TradeSumPnl _ => Res (option num)
  | TradeUpdate _ _ => Res unit
  | TradeCreate _ => Res string
  | CandidateCreate _ => Res string
  | CandleFindMany _ _ _ => Res (list BacktestCandle)
  | TradeUpdateManyStale _ _ _ => Res Z
  | LatestEquities => Res (list num)
  | SuperAdminEmails | ClosedWithoutJournal => Res (list string)
  | EnabledAccounts => Res (list BrokerAccount)
  | DecisionCreateMany _ => Res unit
  | DecisionDeleteBefore _ => Res Z
  | BrokerPositions _ _ => Res (list BrokerPosition)
  | BrokerPlaceOrder _ _ => HttpRes OrderReply
  | BrokerModify _ _ _ _ | BrokerClose _ _ => Res unit
  | BrokerOrderStatus _ _ _ => Res OrderStatus
  | BrokerHistory _ _ => Res (option PositionHistory)
  | BrokerAccountInfo _ => Res AccountInfo
  | BrokerCandles _ _ _ => Res (list BacktestCandle)
  | BreakerGet => Res (option BreakerState)
  | BreakerSet _ | BreakerDel | StateSet _ _ | FeedSet _ | Publish _ _ _ => Res unit
  | StateGet _ => Res (option StoredText)
  | FeedGet => Res (option FeedText)
  | SubscribeCandles => Res unit
  | JournalEnrich _ | JournalCreate _ _ | MailAlert _ _ _ | MailTradeOpened _ _ => Res unit
  | TryLock _ => bool
  | Unlock _ => unit
  | AwaitCreation _ => unit
  | Sync X _ => X
  end.

(** A method of a service. *)
Abbreviation IO := (Async (act := Action) (result := answer)).

Definition io {A} (e : Action) (cast : answer e -> Res A) : IO A := pbind (perform e) (fun x => Ret (cast x)).
(** An effect that answers with a promise, or always. *)
Notation "'call' e" := (@io _ e (fun x => x)) (at level 10, e at level 9).
Notation "'get' e" := (@io _ e (fun x => Ok x)) (at level 10, e at level 9).
(** Code between two awaits. *)
Definition sync {X} (f : Mem -> Mem * X) : IO X := io (Sync X f) (fun x => Ok x).
Definition sync_res {X} (f : Mem -> Mem * Res X) : IO X := io (Sync (Res X) f) (fun x => x).
(** A promise nobody awaits. *)
Definition forget (e : Action) : IO unit := io e (fun _ => Ok tt).
