(* ===== verification/EngineMemory.v ===== *)
(** * Circuit breaker, telemetry and persistence

    circuit-breaker.service.ts, and of live-strategy.service.ts the events, counters and
    debounced writes of the engine's state, what a start restores from it, with
    decision-log.service.ts. *)
From S2P Require Import Prelude Async JsNum JsDate Types LiveTypes.
Local Open Scope num_scope.

Definition ROLLING_DAYS : Z := 60.

(** [CIRCUIT_BREAKER] and the number [parseFloat] reads from [CIRCUIT_BREAKER_LOSS_PCT]. *)
Record BreakerConfig := { bc_flag : option string; bc_lossPct : num }.

Section breaker.
Context (cfg : BreakerConfig).

Definition enabled : bool :=
  let raw := match bc_flag cfg with
             | Some s => if truthy_string s then s else "true"%string
             | None => "true"%string
             end in
  String.eqb (toLowerCase raw) "true".

Definition lossPct : num :=
  let v := bc_lossPct cfg in
  if is_nan v || (v <=? of_Z 0) then of_Z 15 else v.

Definition isTripped : IO bool :=
  if negb enabled then resolve false
  else
    (cached <~ sync (fun m => (m, m_breaker m)) ;;
     match cached with
     | Some s => resolve (br_tripped s)
     | None =>
         raw <~ call BreakerGet ;;
         await! sync (fun m => (set_breaker raw m, tt)) ;;
         resolve (match raw with Some s => br_tripped s | None => false end)
     end)%async.

Definition untripped : BreakerState :=
  {| br_tripped := false; br_trippedAt := None; br_rollingPnl := of_Z 0; br_threshold := of_Z 0 |}.

Definition getState : IO BreakerState :=
  (raw <~ call BreakerGet ;; resolve (default untripped raw))%async.

Definition reset : IO unit :=
  (await! call BreakerDel ;;
   sync (fun m => (set_breaker None m, tt)))%async.

(** The realized rows of the window: [closedAt] since [since], a booked profit, a real
    fill. *)
Definition counted (since : Z) (t : Trade) : bool :=
  let d := t_data t in
  bool_decide (t_status d = CLOSED) && bool_decide (is_Some (t_pnl d)) &&
  tv_le (Some since) (t_closedAt d) &&
  match t_exitReason d with
  | None => true
  | Some r => negb (String.eqb r "ORPHAN" || String.eqb r "STALE_BROKER")
  end.

(** The state a check leaves, from the sums and the state before. *)
Definition next_state (prev : BreakerState) (rollingPnl equity : num) (now : string) : BreakerState :=
  let threshold := nopp (lossPct / of_Z 100) * equity in
  {| br_tripped := br_tripped prev || (rollingPnl <=? threshold);
     br_trippedAt := if br_tripped prev then br_trippedAt prev
                     else if rollingPnl <=? threshold then Some now else None;
     br_rollingPnl := round2 rollingPnl;
     br_threshold := round2 threshold |}.

Definition equity_basis (snaps : list num) : num :=
  let e := nsum (of_Z 0) snaps in if truthy e then e else of_Z 1000.

Definition checkOnce : IO BreakerState :=
  (now <~ get Now ;;
   agg <~ call (TradeSumPnl (counted (now - ROLLING_DAYS * 24 * 3600 * 1000))) ;;
   snaps <~ call LatestEquities ;;
   prev <~ getState ;;
   at_ <~ get Now ;;
   let state := next_state prev (default (of_Z 0) agg) (equity_basis snaps) (toISOString at_) in
   await! call (BreakerSet state) ;;
   await! sync (fun m => (set_breaker (Some state) m, tt)) ;;
   await! (if br_tripped state && negb (br_tripped prev) then
             admins <~ call SuperAdminEmails ;;
             for_each (fun a => call (MailAlert a (br_rollingPnl state) (br_threshold state))) admins
           else resolve tt) ;;
   resolve state)%async.

Definition check : IO unit :=
  if negb enabled then resolve tt else swallow checkOnce.
End breaker.

(** * Telemetry feed, persistence scheduler, decision log

    The parts of src/strategy/live/live-strategy.service.ts (class LiveStrategyService)
    every other method uses: the ring of dashboard events with the counters of the UTC
    day, and the debounced write of the state to Redis; and
    src/strategy/live/decision-log.service.ts. *)
Local Close Scope num_scope.
From S2P Require Import Prelude Async JsNum JsDate Types Orchestrator LiveTypes.
(** ** Events *)
Definition TELEMETRY_RING_SIZE : nat := 200.

Definition event_ts (ev : TelemetryEvent) : string :=
  match ev with
  | EvEval ts _ _ | EvSweepDetected ts _ _ _ _ | EvSignalFired ts _ _ _ _
  | EvLimitParked ts _ _ _ _ | EvLimitFilled ts _ _ _ | EvLimitExpired ts _ _ _ => ts
  end.

Definition count_event (ev : TelemetryEvent) (c : Counters) : Counters :=
  match ev with
  | EvEval _ _ _ => {| cn_date := cn_date c; cn_evals := cn_evals c + 1;
                       cn_sweeps := cn_sweeps c; cn_signals := cn_signals c |}
  | EvSweepDetected _ _ _ _ _ => {| cn_date := cn_date c; cn_evals := cn_evals c;
                       cn_sweeps := cn_sweeps c + 1; cn_signals := cn_signals c |}
  | EvSignalFired _ _ _ _ _ => {| cn_date := cn_date c; cn_evals := cn_evals c;
                       cn_sweeps := cn_sweeps c; cn_signals := cn_signals c + 1 |}
  | _ => c
  end.

(** The counters restart at the first event of another day. *)
Definition roll_day (today : string) (c : Counters) : Counters :=
  if String.eqb (cn_date c) today then c
  else {| cn_date := today; cn_evals := 0; cn_sweeps := 0; cn_signals := 0 |}.

Definition push_event (ev : TelemetryEvent) (f : Feed) : Feed := {|
  fd_events := last_n TELEMETRY_RING_SIZE (fd_events f ++ [ev]);
  fd_lastEval := match ev with
                 | EvEval ts sym d => <[sym := (ts, d)]> (fd_lastEval f)
                 | _ => fd_lastEval f
                 end;
  fd_counters := count_event ev (roll_day (slice0 10 (event_ts ev)) (fd_counters f)) |}.

(** ** Persistence scheduler *)
Definition ORCHESTRATOR_STATE_KEY : string := "live:orchestrator:state".

(** [markPersistDirty]: the debounce timer is armed once. *)
Definition mark_dirty (p : PersistFlags) : PersistFlags :=
  {| pf_dirty := true; pf_debounce := true; pf_inFlight := pf_inFlight p |}.

Definition markPersistDirty : IO unit :=
  sync (fun m => (set_feed (m_feed m) (mark_dirty (m_persist m)) m, tt)).

Definition pushEvent (ev : TelemetryEvent) : IO unit :=
  sync (fun m => (set_feed (push_event ev (m_feed m)) (mark_dirty (m_persist m)) m, tt)).

Definition pushExternalEvent (ev : TelemetryEvent) : IO unit := pushEvent ev.

Definition feed_snapshot (f : Feed) : FeedSnapshot := {|
  fs_events := fd_events f; fs_lastEval := map_to_list (fd_lastEval f); fs_counters := fd_counters f |}.

(** The guard and the code up to the first await: [None] when there is nothing to do,
    otherwise the snapshot, with the flags already changed. *)
Definition begin_flush (m : Mem) : Mem * option StoredText :=
  let p := m_persist m in
  if negb (pf_dirty p) || pf_inFlight p then (m, None)
  else (set_feed (m_feed m) {| pf_dirty := false; pf_debounce := pf_debounce p; pf_inFlight := true |} m,
        Some (stringify (m_orchestrator m))).

(** The feed is read when the first write has been answered. *)
Definition read_feed (m : Mem) : Mem * FeedSnapshot := (m, feed_snapshot (m_feed m)).

Definition end_flush (failed : bool) (m : Mem) : Mem * unit :=
  let p := m_persist m in
  (set_feed (m_feed m) {| pf_dirty := pf_dirty p || failed; pf_debounce := pf_debounce p;
                          pf_inFlight := false |} m, tt).

Definition flushOrchestratorState : IO unit :=
  (snap <~ sync begin_flush ;;
   match snap with
   | None => resolve tt
   | Some s =>
       r <~ settle (await! call (StateSet ORCHESTRATOR_STATE_KEY s) ;;
                    feed <~ sync read_feed ;;
                    call (FeedSet feed)) ;;
       sync (end_flush (negb (is_ok r)))
   end)%async.

(** The debounce timer fires. *)
Definition debounce_fires : IO unit :=
  (await! sync (fun m => (set_feed (m_feed m)
             {| pf_dirty := pf_dirty (m_persist m); pf_debounce := false;
                pf_inFlight := pf_inFlight (m_persist m) |} m, tt)) ;;
   swallow flushOrchestratorState)%async.

(** ** Read-only views *)
Record PairPulse := { pp_lastEvalAt : option string; pp_lastDecision : option EvalDecision }.

Definition getPublicPulse (pairs : list string) (m : Mem) : list (string * PairPulse) * Counters * bool :=
  ((fun sym => let e := fd_lastEval (m_feed m) !! sym in
               (sym, {| pp_lastEvalAt := fst <$> e; pp_lastDecision := snd <$> e |})) <$> pairs,
   fd_counters (m_feed m), ct_running (m_control m)).

Definition recent_events (m : Mem) : list TelemetryEvent := reverse (last_n 50 (fd_events (m_feed m))).

(** What [onModuleInit] takes back from the stored feed: the fields that are there. *)
Definition restore_feed (s : RawFeed) (f : Feed) : Feed := {|
  fd_events := match rf_events s with Some l => last_n TELEMETRY_RING_SIZE l | None => fd_events f end;
  fd_lastEval := match rf_lastEval s with Some l => list_to_map l | None => fd_lastEval f end;
  fd_counters := default (fd_counters f) (rf_counters s) |}.

(** ** Decision log *)
Definition FLUSH_THRESHOLD : nat := 50.

Definition push_decision (rec : DecisionRecord) (b : DecisionBuffer) : DecisionBuffer * list DecisionRecord :=
  let rows := db_rows b ++ [rec] in
  if (FLUSH_THRESHOLD <=? length rows)%nat
  then ({| db_rows := []; db_timer := false |}, rows)
  else ({| db_rows := rows; db_timer := true |}, []).

(** The batch a full buffer hands over is inserted without being awaited. *)
Definition insert_batch (batch : list DecisionRecord) : IO unit :=
  match batch with [] => resolve tt | _ => forget (DecisionCreateMany batch) end.

Definition record (rec : DecisionRecord) : IO unit :=
  (batch <~ sync (fun m => let '(b, out) := push_decision rec (m_decisions m) in (set_decisions b m, out)) ;;
   insert_batch batch)%async.

Definition flush_decisions : IO unit :=
  (batch <~ sync (fun m => (set_decisions {| db_rows := []; db_timer := false |} m, db_rows (m_decisions m))) ;;
   insert_batch batch)%async.

Definition recordBatch (recs : list DecisionRecord) : IO Z :=
  match recs with
  | [] => resolve 0
  | _ => await (call (DecisionCreateMany recs)) (fun _ => resolve (zlen recs))
  end.

(** The nightly deletion of old rows. *)
Definition RETENTION_DAYS : Z := 45.
Definition prune : IO unit :=
  (now <~ get Now ;;
   swallow (call (DecisionDeleteBefore (now - RETENTION_DAYS * 24 * 3600 * 1000))))%async.
