(* ===== verification/PendingEntry.v ===== *)
(** * Pending entry monitor

    src/strategy/live/pending-entry-monitor.service.ts (class PendingEntryMonitorService):
    what becomes of a parked limit order. *)
From S2P Require Import Prelude Async JsNum JsDate Types LiveTypes EngineMemory.

(** The rows of a sweep. *)
Definition parked (t : Trade) : bool :=
  let d := t_data t in
  bool_decide (t_status d = PENDING) && String.eqb (t_entryType d) "RETRACE_LIMIT" &&
  bool_decide (is_Some (t_brokerOrderId d)) && bool_decide (is_Some (t_accountId d)).

Definition status_entry (s : TradeStatus) (now : Z) (tk : option Z) (why : option string) : StatusEntry :=
  {| se_status := s; se_timestamp := toISOString now; se_ticket := tk; se_orderId := None; se_reason := why |}.

Definition with_peak (p : num) (m : ManagementJson) : ManagementJson := {|
  ms_breakevenActivated := ms_breakevenActivated m; ms_peakFavorablePrice := Some p;
  ms_originalSlPrice := ms_originalSlPrice m; ms_trailKey := ms_trailKey m |}.

(** The fill, or the limit when the broker gives no price; the column cannot take a null. *)
Definition fill_price (st : OrderStatus) (t : Trade) : option num :=
  match os_executionPrice st with
  | Some x => if nltb (of_Z 0) x then Some x else t_limitPrice (t_data t)
  | None => t_limitPrice (t_data t)
  end.

Definition filled_patch (t : Trade) (pos : Z) (fill : num) (now : Z) : TradePatch := {|
  p_status := Some OPEN; p_mt5Ticket := Some pos; p_entryPrice := Some fill;
  p_closePrice := None; p_slPrice := None; p_tpPrice := None; p_exitReason := None;
  p_pnl := None; p_closedAt := None;
  p_statusHistory := Some (t_statusHistory (t_data t) ++ [status_entry OPEN now (Some pos) None]);
  p_managementState := Some (with_peak fill (t_managementState (t_data t))) |}.

Definition expired_patch (t : Trade) (closed now : Z) : TradePatch := {|
  p_status := Some CANCELLED; p_mt5Ticket := None; p_entryPrice := None;
  p_closePrice := None; p_slPrice := None; p_tpPrice := None; p_exitReason := Some "EXPIRED"%string;
  p_pnl := None; p_closedAt := Some closed;
  p_statusHistory := Some (t_statusHistory (t_data t) ++ [status_entry CANCELLED now None (Some "EXPIRED"%string)]);
  p_managementState := None |}.

(** Truthiness of a number id. *)
Definition truthy_id (o : option Z) : option Z :=
  match o with Some z => if z =? 0 then None else Some z | None => None end.

Record SweepCount := { sc_filled : Z; sc_expired : Z }.

(** The body of the [try]: which counter the row moves. *)
Definition sweep_row (t : Trade) : IO (Z * Z) :=
  (st <~ call (BrokerOrderStatus (default "" (account t)) (default "" (t_brokerOrderId (t_data t)))
                                 (trade_symbol t)) ;;
   match String.eqb (os_status st) "FILLED", truthy_id (os_positionId st) with
   | true, Some pos =>
       now <~ get Now ;;
       fill <~ match fill_price st t with
               | Some p => resolve p
               | None => reject "Argument entryPrice must not be null"
               end ;;
       await! call (TradeUpdate (t_id t) (filled_patch t pos fill now)) ;;
       ts <~ get Now ;;
       await! pushExternalEvent (EvLimitFilled (toISOString ts) (trade_symbol t) (t_side (t_data t)) fill) ;;
       resolve (1, 0)
   | _, _ =>
       if String.eqb (os_status st) "GONE" then
         closed <~ get Now ;;
         now <~ get Now ;;
         await! call (TradeUpdate (t_id t) (expired_patch t closed now)) ;;
         ts <~ get Now ;;
         await! pushExternalEvent (EvLimitExpired (toISOString ts) (trade_symbol t) (t_side (t_data t))
                                     (t_limitPrice (t_data t))) ;;
         resolve (0, 1)
       else resolve (0, 0)
   end)%async.

Definition sweepOnce : IO SweepCount :=
  (rows <~ call (TradeFindMany parked (Some 50%nat)) ;;
   fold_each (fun n t =>
       r <~ try_catch (sweep_row t) (fun _ => resolve (0, 0)) ;;
       resolve {| sc_filled := sc_filled n + r.1; sc_expired := sc_expired n + r.2 |})
     rows {| sc_filled := 0; sc_expired := 0 |})%async.

(** The cron: one sweep at a time. *)
Definition sweep : IO unit :=
  (free <~ get (TryLock PendingSweep) ;;
   if free then finally (swallow sweepOnce) (perform (Unlock PendingSweep))
   else resolve tt)%async.
