(* ===== verification/ExitReconciliation.v ===== *)
(** * Closing deals

    How the answers of the broker's history are read: the shared part of
    src/strategy/live/exit-reconciliation.service.ts (fetchCloseInfo) and
    src/strategy/live/position-monitor.service.ts (finalizeClosedTrade). *)
From S2P Require Import Prelude Async JsNum JsDate Types LiveTypes.
Local Open Scope num_scope.

(** [realizedPnl] of MetaApi, or [pnl] of the account route. *)
Definition history_pnl (h : PositionHistory) : option num :=
  match ph_realizedPnl h with Some x => Some x | None => ph_pnl h end.

(** [h.exitReason ?? h.reason] *)
Definition history_reason (h : PositionHistory) : option string :=
  match ph_exitReason h with Some r => Some r | None => ph_reason h end.

(** TP or SL when the broker's word names one of them. *)
Definition known_reason (upper : string) : option string :=
  if includes "TP" upper || includes "TAKE" upper then Some "TP"%string
  else if includes "SL" upper || includes "STOP" upper then Some "SL"%string
  else None.

(** Epoch milliseconds (a number or a string of digits) or an ISO date; falsy and
    non-positive times are dropped. *)
Definition close_time (c : option CloseTime) : option Z :=
  let valid t := match TimeClip t with Some t' => if (0 <? t')%Z then Some t' else None | None => None end in
  match c with
  | None => None
  | Some (ct_number z) => valid z
  | Some (ct_string s) =>
      if truthy_string s then
        match all_digits s with
        | Some z => valid z
        | None => match Date_parse s with Some t => valid t | None => None end
        end
      else None
  end.

(** [Math.round(x * 1e5) / 1e5] *)
Definition round5 (x : num) : num := Math_round (x * of_Z 100000) / of_Z 100000.

(** The trade's own account first, its errors swallowed, then the legacy route. *)
Definition account_history (accountId : option string) (tk : Z) : IO (option PositionHistory) :=
  match accountId with
  | Some a => if truthy_string a
              then try_catch (call (BrokerHistory (Some a) tk)) (fun _ => resolve None)
              else resolve None
  | None => resolve None
  end.

(** * Exit reconciliation

    src/strategy/live/exit-reconciliation.service.ts (class ExitReconciliationService):
    estimated exits are replaced by what the broker's history says, and trades of
    unreachable brokers are closed without a profit. *)
Local Close Scope num_scope.
From S2P Require Import Prelude Async JsNum JsDate Types LiveTypes.
Definition LOOKBACK_HOURS : Z := 72.
Definition STALE_BROKER_DAYS : Z := 7.

Record BrokerCloseInfo := {
  bi_closePrice : num; bi_pnl : num; bi_reason : string; bi_closedAt : option Z }.

(** The broker's word, never another estimate. *)
Definition normalized_reason (h : PositionHistory) : string :=
  default "CLOSED"%string (known_reason (toUpperCase (default ""%string (history_reason h)))).

Definition close_info (h : PositionHistory) : option BrokerCloseInfo :=
  c ← ph_closePrice h;
  p ← history_pnl h;
  Some {| bi_closePrice := c; bi_pnl := p; bi_reason := normalized_reason h;
          bi_closedAt := close_time (ph_closeTime h) |}.

Definition fetchCloseInfo (accountId : option string) (tk : Z) : IO (option BrokerCloseInfo) :=
  (h <~ account_history accountId tk ;;
   h' <~ match h with
         | Some _ => resolve h
         | None => try_catch (call (BrokerHistory None tk)) (fun _ => resolve None)
         end ;;
   resolve (h' ≫= close_info))%async.

(** ** The sweep *)
Definition is_estimate (r : option string) : bool :=
  match r with Some s => String.eqb s "TP_EST" || String.eqb s "SL_EST" | None => false end.

Definition estimated (since : Z) (t : Trade) : bool :=
  let d := t_data t in
  bool_decide (t_status d = CLOSED) && is_estimate (t_exitReason d) &&
  tv_le (Some since) (t_closedAt d) && bool_decide (is_Some (t_mt5Ticket d)).

Definition reconciled_patch (i : BrokerCloseInfo) : TradePatch := {|
  p_status := None; p_mt5Ticket := None; p_entryPrice := None;
  p_closePrice := Some (round5 (bi_closePrice i)); p_slPrice := None; p_tpPrice := None;
  p_exitReason := Some (bi_reason i); p_pnl := Some (round2 (bi_pnl i));
  p_closedAt := bi_closedAt i; p_statusHistory := None; p_managementState := None |}.

(** Whether the row was corrected. *)
Definition reconcile_row (t : Trade) : IO bool :=
  (info <~ fetchCloseInfo (account t) (default 0 (ticket t)) ;;
   match info with
   | None => resolve false
   | Some i => await! call (TradeUpdate (t_id t) (reconciled_patch i)) ;; resolve true
   end)%async.

Definition sweepOnce : IO Z :=
  (now <~ get Now ;;
   rows <~ call (TradeFindMany (estimated (now - LOOKBACK_HOURS * 3600 * 1000)) (Some 50%nat)) ;;
   fold_each (fun n t =>
       ok <~ try_catch (reconcile_row t) (fun _ => resolve false) ;;
       resolve (if ok then n + 1 else n)) rows 0)%async.

Definition sweep : IO unit :=
  (free <~ get (TryLock ExitSweep) ;;
   if free then finally (await sweepOnce (fun _ => resolve tt)) (perform (Unlock ExitSweep))
   else resolve tt)%async.

(** ** Trades nobody can manage any more *)
Definition stale_candidate (cutoff : Z) (t : Trade) : bool :=
  bool_decide (status t = OPEN) && (t_createdAt t <? cutoff) && bool_decide (is_Some (account t)).

Definition stale_patch (now : Z) : TradePatch := {|
  p_status := Some CLOSED; p_mt5Ticket := None; p_entryPrice := None; p_closePrice := None;
  p_slPrice := None; p_tpPrice := None; p_exitReason := Some "STALE_BROKER"%string; p_pnl := None;
  p_closedAt := Some now; p_statusHistory := None; p_managementState := None |}.

Definition staleSweepOnce : IO Z :=
  (now <~ get Now ;;
   let cutoff := now - STALE_BROKER_DAYS * 24 * 3600 * 1000 in
   closed <~ get Now ;;
   call (TradeUpdateManyStale (stale_candidate cutoff) cutoff (stale_patch closed)))%async.

Definition staleSweep : IO unit := swallow staleSweepOnce.
