(* ===== verification/PositionMonitor.v ===== *)
(** * Position monitor

    src/strategy/live/position-monitor.service.ts (class PositionMonitorService): a
    trade the broker no longer reports is closed in the table, after three passes
    without a sighting. *)
From S2P Require Import Prelude Async JsNum JsDate Types Instruments Orchestrator LiveTypes ExitReconciliation.
Local Open Scope num_scope.

(** [isFinite] *)
Definition is_finite (x : num) : bool :=
  match x with SpecFloat.S754_nan | SpecFloat.S754_infinity _ => false | _ => true end.

Definition inferExitReason (closePrice slPrice tpPrice : num) : string :=
  let span := nabs (tpPrice - slPrice) in
  if negb (is_finite span) || (span <=? of_Z 0) then "CLOSED"
  else
    let tol := span * lit 25 2 in
    if nabs (closePrice - tpPrice) <=? tol then "TP"
    else if nabs (closePrice - slPrice) <=? tol then "SL"
    else "CLOSED".

Definition ABSENCE_CONFIRMATIONS : Z := 3.

Section monitor.
(** The overrides of the pair configurations, and what the constructor reads from the
    environment: [STRATEGY_PAIRS], [ENABLE_MULTI_ACCOUNT_FANOUT]. *)
Context (ov : Overrides) (pairs : list string) (fanOut : bool).

(** ** Absence counters *)
Inductive Sighting := Seen | Missing.

(** One observation of a trade: is it to be finalized? *)
Definition observe (id : string) (o : Sighting) (counts : gmap string Z) : gmap string Z * bool :=
  match o with
  | Seen => (delete id counts, false)
  | Missing =>
      let misses := (default 0 (counts !! id) + 1)%Z in
      if (misses <? ABSENCE_CONFIRMATIONS)%Z then (<[id := misses]> counts, false)
      else (delete id counts, true)
  end.

(** [trade.mt5Ticket && brokerTicketSet.has(trade.mt5Ticket)] *)
Definition sighting (tickets : list Z) (t : Trade) : Sighting :=
  match ticket t with
  | Some z => if negb (z =? 0)%Z && bool_decide (z ∈ tickets) then Seen else Missing
  | None => Missing
  end.

(** ** Finalizing a closed trade *)
Record CloseFacts := {
  cf_closePrice : option num; cf_pnl : option num; cf_exitReason : string; cf_closedAt : Z }.

(** What the broker's history changes in the defaults. *)
Definition read_history (h : PositionHistory) (now : Z) : CloseFacts := {|
  cf_closePrice := ph_closePrice h;
  cf_pnl := history_pnl h;
  cf_exitReason := match history_reason h with
                   | Some r => if truthy_string r then default r (known_reason (toUpperCase r)) else "CLOSED"
                   | None => "CLOSED"
                   end;
  cf_closedAt := default now (close_time (ph_closeTime h)) |}.

Definition no_history (now : Z) : CloseFacts :=
  {| cf_closePrice := None; cf_pnl := None; cf_exitReason := "CLOSED"; cf_closedAt := now |}.

Definition infer_reason (d : TradeData) (f : CloseFacts) : string :=
  match cf_closePrice f with
  | Some c => if String.eqb (cf_exitReason f) "TP" || String.eqb (cf_exitReason f) "SL"
              then cf_exitReason f else inferExitReason c (t_slPrice d) (t_tpPrice d)
  | None => cf_exitReason f
  end.

(** The midpoint estimate of the profit when the broker gave no price or no profit. *)
Definition estimated_pnl (d : TradeData) (c : num) : num :=
  let diff := match t_side d with BUY => c - t_entryPrice d | SELL => t_entryPrice d - c end in
  let lotUnits := if String.eqb (t_symbol d) "XAUUSD" then of_Z 100 else of_Z 100000 in
  let raw := diff * t_lotSize d * lotUnits in
  round2 (if ends_with_JPY (t_symbol d) then raw / c else raw).

Definition estimated_reason (d : TradeData) (c : num) : string :=
  let tp := match t_side d with BUY => c >=? t_entryPrice d | SELL => c <=? t_entryPrice d end in
  if tp then "TP_EST" else "SL_EST".

(** The final price, profit, reason and time of the exit. *)
Definition close_facts (d : TradeData) (f : CloseFacts) : num * num * string * Z :=
  let why := infer_reason d f in
  match cf_closePrice f, cf_pnl f with
  | Some c, Some p => (c, p, why, cf_closedAt f)
  | oc, _ =>
      let c := default ((t_slPrice d + t_tpPrice d) / of_Z 2) oc in
      (c, estimated_pnl d c,
       if String.eqb why "CLOSED" then estimated_reason d c else why, cf_closedAt f)
  end.

Definition closed_patch (x : num * num * string * Z) : TradePatch :=
  let '(c, p, why, at_) := x in {|
  p_status := Some CLOSED; p_mt5Ticket := None; p_entryPrice := None;
  p_closePrice := Some (round5 c); p_slPrice := None; p_tpPrice := None;
  p_exitReason := Some why; p_pnl := Some (round2 p); p_closedAt := Some at_;
  p_statusHistory := None; p_managementState := None |}.

Definition orch_exit (why : string) : OrchExit :=
  if startsWith "SL" why then ExSL else if startsWith "TP" why then ExTP else ExOther.

(** The history as the inner [try] reads it: an error of the legacy route keeps the
    defaults. *)
Definition fetch_history (accountId : option string) (tk : Z) : IO (option PositionHistory) :=
  try_catch
    (h <~ account_history accountId tk ;;
     match h with Some _ => resolve h | None => call (BrokerHistory None tk) end)%async
    (fun _ => resolve None).

(** ** The sister runner *)

(** The sister of a closed TP1 leg: same position, opened within five seconds. *)
Definition sister_of (closed : Trade) (t : Trade) : bool :=
  let c := t_data closed in
  let d := t_data t in
  String.eqb (t_symbol d) (t_symbol c) && bool_decide (t_side d = t_side c) &&
  (t_entryPrice d =? t_entryPrice c) && bool_decide (t_status d = OPEN) &&
  bool_decide (is_Some (t_mt5Ticket d)) && negb (String.eqb (t_id t) (t_id closed)) &&
  bool_decide (t_accountId d = t_accountId c) &&
  (t_createdAt closed - 5000 <=? t_createdAt t)%Z && (t_createdAt t <=? t_createdAt closed + 5000)%Z.

(** Breakeven plus a tenth of the original risk. *)
Definition sister_stop (s : Trade) : num :=
  let d := t_data s in
  let originalSl := default (t_slPrice d) (ms_originalSlPrice (t_managementState d)) in
  let buffer := nabs (t_entryPrice d - originalSl) * lit 1 1 in
  match t_side d with BUY => t_entryPrice d + buffer | SELL => t_entryPrice d - buffer end.

Definition with_breakeven (m : ManagementJson) : ManagementJson := {|
  ms_breakevenActivated := Some true; ms_peakFavorablePrice := ms_peakFavorablePrice m;
  ms_originalSlPrice := ms_originalSlPrice m; ms_trailKey := ms_trailKey m |}.

Definition sister_patch (s : Trade) : TradePatch := {|
  p_status := None; p_mt5Ticket := None; p_entryPrice := None; p_closePrice := None;
  p_slPrice := Some (sister_stop s); p_tpPrice := None; p_exitReason := None; p_pnl := None;
  p_closedAt := None; p_statusHistory := None;
  p_managementState := Some (with_breakeven (t_managementState (t_data s))) |}.

(** An account id, when it is not empty: the route of a broker call. *)
Definition route (a : option string) : option string :=
  match a with Some x => if truthy_string x then Some x else None | None => None end.

Definition maybeTriggerSisterRunnerBe (closedTradeId : string) : IO unit :=
  (oc <~ call (TradeFindFirst (fun t => String.eqb (t_id t) closedTradeId)) ;;
   match oc with
   | None => resolve tt
   | Some closed =>
       if bool_decide (ms_trailKey (t_managementState (t_data closed)) = Some KeyTP1) then
         os <~ call (TradeFindFirst (sister_of closed)) ;;
         match os with
         | None => resolve tt
         | Some s =>
             let ms := t_managementState (t_data s) in
             if negb (bool_decide (ms_trailKey ms = Some KeyRUNNER))
                || bool_decide (ms_breakevenActivated ms = Some true)
             then resolve tt
             else
               r <~ settle (call (BrokerModify (route (account s)) (default 0%Z (ticket s))
                                    (sister_stop s) (t_tpPrice (t_data s)))) ;;
               match r with
               | Throw _ => resolve tt
               | Ok _ => call (TradeUpdate (t_id s) (sister_patch s))
               end
         end
       else resolve tt
   end)%async.

(** ** One finalization *)
Definition finalizeClosedTrade (t : Trade) (accountId : option string) : IO unit :=
  swallow
    (now <~ get Now ;;
     h <~ fetch_history accountId (default 0%Z (ticket t)) ;;
     let facts := match h with Some x => read_history x now | None => no_history now end in
     let x := close_facts (t_data t) facts in
     let '(c, p, why, at_) := x in
     await! call (TradeUpdate (t_id t) (closed_patch x)) ;;
     await! forget (JournalEnrich (t_id t)) ;;
     await! call (Publish "trade:closed" (t_id t) (trade_symbol t)) ;;
     await! sync_res (fun m =>
       let '(o, r) := recordExit ov (trade_symbol t) (orch_exit why) (toISOString at_) (Some p)
                        (m_orchestrator m) in (set_orchestrator o m, r)) ;;
     if startsWith "SL" why then resolve tt
     else if startsWith "TP" why then swallow (maybeTriggerSisterRunnerBe (t_id t))
     else resolve tt)%async.

(** ** Passes *)
Definition observe_trade (tickets : list Z) (t : Trade) (m : Mem) : Mem * bool :=
  let '(counts, fin) := observe (t_id t) (sighting tickets t) (m_absence m) in (set_absence counts m, fin).

Definition reconcile_one (tickets : list Z) (accountId : option string) (t : Trade) : IO unit :=
  (close <~ sync (observe_trade tickets t) ;;
   if close then finalizeClosedTrade t accountId else resolve tt)%async.

Definition reconcileTrades (rows : list Trade) (tickets : list Z) (accountId : option string) : IO unit :=
  for_each (reconcile_one tickets accountId) rows.

(** The OPEN rows of a symbol that carry a ticket, of one account or of all. *)
Definition open_rows (sym : string) (accountId : option string) (t : Trade) : bool :=
  String.eqb (trade_symbol t) sym && bool_decide (status t = OPEN) && bool_decide (is_Some (ticket t)) &&
  match accountId with Some a => bool_decide (account t = Some a) | None => true end.

(** One symbol, of one account or (legacy) of all. *)
Definition reconcilePair (sym : string) (accountId : option string) : IO unit :=
  (positions <~ call (BrokerPositions accountId (Some sym)) ;;
   rows <~ call (TradeFindMany (open_rows sym accountId) None) ;;
   reconcileTrades rows (bp_ticket <$> positions) accountId)%async.

Definition reconcilePairForAccount (sym : string) (a : BrokerAccount) : IO unit :=
  reconcilePair sym (Some (a_id a)).

Definition journal_safety_net : IO unit :=
  (orphans <~ call ClosedWithoutJournal ;;
   for_each (fun id => call (JournalEnrich id)) orphans)%async.

Definition reconcileAll : IO unit :=
  (await! (if fanOut then
             accounts <~ call EnabledAccounts ;;
             for_each (fun a => for_each (fun sym => swallow (reconcilePairForAccount sym a)) pairs) accounts
           else for_each (fun sym => swallow (reconcilePair sym None)) pairs) ;;
   swallow journal_safety_net)%async.

(** The handler of a CANDLE_STORED message, of whatever symbol: [None] when it starts
    nothing. *)
Definition on_candle_stored (tf : string) (running : bool) : option (IO unit) :=
  if negb (String.eqb tf "M15") then None
  else if negb running then None
  else Some reconcileAll.
End monitor.
