(* ===== verification/PositionManager.v ===== *)
(** * Live position manager

    src/strategy/live/live-position-manager.service.ts (class LivePositionManagerService):
    on each M15 close the backtest's position management is applied to the open
    positions; the broker is told first, the table follows. *)
From S2P Require Import Prelude Async JsNum JsDate Types Instruments PositionSimulator LiveTypes.
From S2P Require Import PositionMonitor.
Local Open Scope num_scope.

(** [minSlChangeAbs[symbol] ?? 0.0001] *)
Definition minSlChangeAbs (sym : string) : num :=
  default (lit 1 4) (assoc [("XAUUSD"%string, lit 5 2); ("EURUSD"%string, lit 1 4);
                            ("GBPUSD"%string, lit 1 4); ("USDJPY"%string, lit 1 2)] sym).

(** The complete management state of a position. *)
Record ManagementState := {
  mg_breakevenActivated : bool; mg_peakFavorablePrice : num;
  mg_originalSlPrice : num; mg_trailKey : TrailKey }.

(** [parseState].  A Trade row has no [setupTags] column, so without a stored trail key
    the leg counts as a runner. *)
Definition parseState (t : Trade) (b : BrokerPosition) : ManagementState :=
  let d := t_data t in
  let raw := t_managementState d in {|
  mg_breakevenActivated := default false (ms_breakevenActivated raw);
  mg_peakFavorablePrice := default (default (t_entryPrice d) (bp_entryPrice b)) (ms_peakFavorablePrice raw);
  mg_originalSlPrice := default (t_slPrice d) (ms_originalSlPrice raw);
  mg_trailKey := default KeyRUNNER (ms_trailKey raw) |}.

Definition trail_of (k : TrailKey) : RegimeTradeParams :=
  match k with KeyTP1 => SMC_TP1_TRAIL | KeyRUNNER => SMC_RUNNER_TRAIL end.

(** The position handed to the simulator: stop and target as the broker has them. *)
Definition position_of (t : Trade) (b : BrokerPosition) (s : ManagementState) : SimulatedPosition :=
  let d := t_data t in {|
  side := t_side d;
  entryPrice := t_entryPrice d;
  slPrice := if bp_sl b >? of_Z 0 then bp_sl b else t_slPrice d;
  tpPrice := Some (if bp_tp b >? of_Z 0 then bp_tp b else t_tpPrice d);
  originalSlPrice := mg_originalSlPrice s;
  breakevenActivated := mg_breakevenActivated s;
  peakFavorablePrice := mg_peakFavorablePrice s;
  lotSize := t_lotSize d;
  entryTime := toISOString (t_createdAt t);
  entryIndex := 0;
  setupTags := match mg_trailKey s with KeyTP1 => ["SMC"; "TP1"] | KeyRUNNER => ["SMC"; "RUNNER"] end%string;
  h1Bias := match t_side d with BUY => "BULLISH" | SELL => "BEARISH" end;
  rsiAtEntry := of_Z 50;
  atrAtEntry := of_Z 0;
  trailConfig := Some (trail_of (mg_trailKey s));
  regimeAtEntry := Some WEAK_TREND |}.

(** [updated !== pos]: the simulator returns its argument when no field changes. *)
Definition management_changed (p q : SimulatedPosition) : bool :=
  negb ((peakFavorablePrice q =? peakFavorablePrice p) && (slPrice q =? slPrice p)
        && Bool.eqb (breakevenActivated q) (breakevenActivated p)
        && opt_num_eqb (tpPrice q) (tpPrice p)).

(** Whether the broker must be told. *)
Definition must_modify (sym : string) (p q : SimulatedPosition) : bool :=
  let slChanged := nabs (slPrice q - slPrice p) >=? minSlChangeAbs sym in
  let tpRemoved := match tpPrice p, tpPrice q with Some _, None => true | _, _ => false end in
  let tpChanged := match tpPrice q, tpPrice p with
                   | Some a, Some b => nabs (a - b) >=? minSlChangeAbs sym
                   | _, _ => false
                   end in
  slChanged || tpRemoved || tpChanged.

Definition management_patch (t : Trade) (s : ManagementState) (q : SimulatedPosition) : TradePatch := {|
  p_status := None; p_mt5Ticket := None; p_entryPrice := None; p_closePrice := None;
  p_slPrice := Some (slPrice q);
  p_tpPrice := Some (default (t_tpPrice (t_data t)) (tpPrice q));
  p_exitReason := None; p_pnl := None; p_closedAt := None; p_statusHistory := None;
  p_managementState := Some {| ms_breakevenActivated := Some (breakevenActivated q);
                               ms_peakFavorablePrice := Some (peakFavorablePrice q);
                               ms_originalSlPrice := Some (mg_originalSlPrice s);
                               ms_trailKey := Some (mg_trailKey s) |} |}.

(** [byTicket.get(trade.mt5Ticket!)]: a Map keeps the last position of a ticket. *)
Definition by_ticket (l : list BrokerPosition) (tk : option Z) : option BrokerPosition :=
  last (List.filter (fun b => bool_decide (Some (bp_ticket b) = tk)) l).

(** The body of the loop over the open trades. *)
Definition manage_trade (sym : string) (accountId : option string) (positions : list BrokerPosition)
    (c : BacktestCandle) (spread : num) (t : Trade) : IO unit :=
  match by_ticket positions (ticket t) with
  | None => resolve tt
  | Some b =>
      let s := parseState t b in
      let p := position_of t b s in
      let q := updatePositionManagement p c spread in
      if negb (management_changed p q) then resolve tt
      else
        (ok <~ (if must_modify sym p q
                then r <~ settle (call (BrokerModify accountId (default 0%Z (ticket t)) (slPrice q)
                                          (default (of_Z 0) (tpPrice q)))) ;;
                     resolve (is_ok r)
                else resolve true) ;;
         if ok then call (TradeUpdate (t_id t) (management_patch t s q)) else resolve tt)%async
  end.

(** [fetchLatestM15] *)
Definition fetchLatestM15 (sym : string) : IO (option BacktestCandle) :=
  (rows <~ call (CandleFindMany sym "M15" 1) ;; resolve (head rows))%async.

(** One symbol, of one account or (legacy) of all. *)
Definition manageSymbol (sym : string) (accountId : option string) : IO unit :=
  (rows <~ call (TradeFindMany (open_rows sym accountId) None) ;;
   match rows with
   | [] => resolve tt
   | _ =>
       positions <~ call (BrokerPositions accountId (Some sym)) ;;
       latest <~ fetchLatestM15 sym ;;
       match latest with
       | None => resolve tt
       | Some c =>
           match getSpread sym (openTime c) with
           | Throw e => reject e
           | Ok spread => for_each (manage_trade sym accountId positions c spread) rows
           end
       end
   end)%async.

Definition manageSymbolForAccount (sym : string) (a : BrokerAccount) : IO unit :=
  manageSymbol sym (Some (a_id a)).

(** [manageSymbolAllAccounts]: the accounts side by side, each error caught. *)
Definition manageSymbolAllAccounts (sched : list nat) (sym : string) : IO unit :=
  (accounts <~ call EnabledAccounts ;;
   pbind (par_all sched ((fun a => swallow (manageSymbolForAccount sym a)) <$> accounts))
         (fun _ => resolve tt))%async.

(** The handler of a CANDLE_STORED message. *)
Definition manager_on_candle (pairs : list string) (fanOut : bool) (sched : list nat)
    (tf sym : string) (running : bool) : option (IO unit) :=
  if negb (String.eqb tf "M15") then None
  else if negb running then None
  else if negb (bool_decide (sym ∈ pairs)) then None
  else Some (if fanOut then manageSymbolAllAccounts sched sym else manageSymbol sym None).
