(* ===== verification/LiveExecution.v ===== *)
(** * Order execution

    The order placement of src/strategy/live/live-strategy.service.ts: market legs with
    their compensations ([placeOrder], [placeOrderForAccount]), retrace limits
    ([placeRetraceOrderForAccount]), retries, compensating closes, audit rows.  The
    legacy methods and their per-account twins differ in the route of the broker calls:
    an account of [None] is the legacy route. *)
From S2P Require Import Prelude Async JsNum JsDate Types LiveTypes ExitReconciliation PositionMonitor EngineMemory.
Local Open Scope num_scope.

(** ** Sending an order *)

(** [status && status >= 400 && status < 500] *)
Definition permanent (code : option Z) : bool :=
  match code with Some c => (400 <=? c)%Z && (c <? 500)%Z | None => false end.

(** [left] attempts remain after this one. *)
Fixpoint place_attempts (acct : option string) (body : OrderBody) (left : nat) (attempt : Z) : IO OrderReply :=
  pbind (perform (BrokerPlaceOrder acct body)) (fun r =>
    match r with
    | HttpOk x => resolve x
    | HttpErr code msg =>
        if permanent code then reject msg
        else match left with
             | O => reject msg
             | S left' => await (get (Sleep (attempt * 500)%Z)) (fun _ =>
                            place_attempts acct body left' (attempt + 1)%Z)
             end
    end).

(** [postOrderWithRetry], [placeOrderForAccountWithRetry]: three attempts. *)
Definition placeOrderWithRetry (acct : option string) (body : OrderBody) : IO OrderReply :=
  place_attempts acct body 2 1.

(** [bestEffortClose], [bestEffortCloseForAccount] *)
Definition bestEffortClose (acct : option string) (tk : Z) : IO unit :=
  if (tk =? 0)%Z then resolve tt else swallow (call (BrokerClose acct tk)).

(** ** Rows *)
Definition trail_key (leg : SmcLiveSignalLeg) : TrailKey :=
  if bool_decide ("TP1"%string ∈ leg_setupTags leg) then KeyTP1 else KeyRUNNER.

Definition candidate_row (sig : SmcLiveSignal) (leg : SmcLiveSignalLeg) (entry : num) (st : string)
    : CandidateTrade := {|
  ca_symbol := sig_symbol sig; ca_side := sig_side sig; ca_entryPrice := entry;
  ca_slPrice := sig_slPrice sig; ca_tpPrice := leg_tpPrice leg;
  ca_slPoints := nabs (entry - sig_slPrice sig); ca_tpPoints := nabs (leg_tpPrice leg - entry);
  ca_setupTags := leg_setupTags leg;
  ca_h1Bias := match sig_side sig with BUY => BULLISH | SELL => BEARISH end;
  ca_status := st |}.

Definition seed_management (peak : num) (sig : SmcLiveSignal) (leg : SmcLiveSignalLeg) : ManagementJson := {|
  ms_breakevenActivated := Some false; ms_peakFavorablePrice := Some peak;
  ms_originalSlPrice := Some (sig_slPrice sig); ms_trailKey := Some (trail_key leg) |}.

Definition history_entry (s : TradeStatus) (now : Z) (tk : option Z) (oid why : option string) : StatusEntry :=
  {| se_status := s; se_timestamp := toISOString now; se_ticket := tk; se_orderId := oid; se_reason := why |}.

(** The columns every created row has in common. *)
Definition base_row (sig : SmcLiveSignal) (leg : SmcLiveSignalLeg) (candidateId clientOrderId : string)
    (sessionId acct : option string) (tk : option Z) (entry : num) (st : TradeStatus)
    (history : list StatusEntry) : TradeData := {|
  t_candidateId := candidateId; t_clientOrderId := Some clientOrderId; t_mt5Ticket := tk;
  t_sessionId := sessionId; t_accountId := acct; t_symbol := sig_symbol sig; t_side := sig_side sig;
  t_lotSize := leg_lotSize leg; t_entryPrice := entry; t_closePrice := None;
  t_slPrice := sig_slPrice sig; t_tpPrice := leg_tpPrice leg; t_status := st; t_exitReason := None;
  t_entryType := "MARKET"; t_brokerOrderId := None; t_limitPrice := None; t_orderExpiresAt := None;
  t_pnl := None; t_closedAt := None; t_statusHistory := history;
  t_managementState := seed_management entry sig leg;
  t_sweptLevel := sweptLevel <$> smcContext sig; t_sweptHigh := sweptHigh <$> smcContext sig;
  t_sweptLow := sweptLow <$> smcContext sig;
  t_sweepCandleTime := smcContext sig ≫= (fun c => Date_parse (sweepCandleTime c));
  t_d1Bias := ctx_d1Bias <$> smcContext sig;
  t_originalSlPrice := Some (sig_slPrice sig); t_strategyName := Some "GIDEON"%string |}.

(** A filled market leg. *)
Definition open_row (sig : SmcLiveSignal) (leg : SmcLiveSignalLeg) (candidateId clientOrderId : string)
    (sessionId acct : option string) (tk : Z) (n1 n2 : Z) : TradeData :=
  base_row sig leg candidateId clientOrderId sessionId acct (Some tk) (sig_entryPrice sig) OPEN
    [history_entry PENDING n1 None None None; history_entry OPEN n2 (Some tk) None None].

(** The audit row of a fill that was closed at once; it carries no account. *)
Definition audit_row (sig : SmcLiveSignal) (leg : SmcLiveSignalLeg) (candidateId clientOrderId : string)
    (sessionId : option string) (tk : Z) (fill : num) (why : string) (closed n1 n2 n3 : Z) : TradeData :=
  let d := base_row sig leg candidateId clientOrderId sessionId None (Some tk) fill CLOSED
    [history_entry PENDING n1 None None None; history_entry OPEN n2 (Some tk) None None;
     history_entry CLOSED n3 None None (Some why)] in
  patch_data {| p_status := None; p_mt5Ticket := None; p_entryPrice := None; p_closePrice := Some fill;
                p_slPrice := None; p_tpPrice := None; p_exitReason := Some why; p_pnl := Some (of_Z 0);
                p_closedAt := Some closed; p_statusHistory := None; p_managementState := None |} d.

Definition currentSessionId : IO (option string) := sync (fun m => (m, ct_sessionId (m_control m))).

Definition writeAuditTradeRow (sig : SmcLiveSignal) (leg : SmcLiveSignalLeg) (clientOrderId : string)
    (tk : Z) (fill : num) (why : string) : IO unit :=
  swallow
    (cid <~ call (CandidateCreate (candidate_row sig leg (sig_entryPrice sig) "REJECTED")) ;;
     sid <~ currentSessionId ;;
     closed <~ get Now ;; n1 <~ get Now ;; n2 <~ get Now ;; n3 <~ get Now ;;
     call (TradeCreate (audit_row sig leg cid clientOrderId sid tk fill why closed n1 n2 n3)))%async.

(** ** Market orders *)
Definition MAX_SLIPPAGE_FRACTION : num := lit 30 2.

(** A ticket the broker really gave. *)
Definition granted (r : OrderReply) : option Z :=
  match or_mt5Ticket r with Some z => if (z <=? 0)%Z then None else Some z | None => None end.

Definition fill_of (r : OrderReply) (sig : SmcLiveSignal) : num :=
  match or_entryPrice r with
  | Some x => if x >? of_Z 0 then x else sig_entryPrice sig
  | None => sig_entryPrice sig
  end.

Definition excessive_slippage (sig : SmcLiveSignal) (fill : num) : bool :=
  let slPoints := nabs (sig_entryPrice sig - sig_slPrice sig) in
  let slippage := nabs (fill - sig_entryPrice sig) in
  let frac := if slPoints >? of_Z 0 then slippage / slPoints else of_Z 0 in
  frac >? MAX_SLIPPAGE_FRACTION.

Definition market_body (sig : SmcLiveSignal) (leg : SmcLiveSignalLeg) : OrderBody := {|
  ob_symbol := sig_symbol sig; ob_side := sig_side sig; ob_lotSize := leg_lotSize leg;
  ob_entryPrice := sig_entryPrice sig; ob_slPrice := sig_slPrice sig; ob_tpPrice := leg_tpPrice leg;
  ob_limit := None |}.

(** The rows of a filled leg, and the message: the id of the trade. *)
Definition persist_leg (sig : SmcLiveSignal) (acct : option string) (leg : SmcLiveSignalLeg)
    (clientOrderId : string) (tk : Z) : IO string :=
  (cid <~ call (CandidateCreate (candidate_row sig leg (sig_entryPrice sig) "APPROVED")) ;;
   sid <~ currentSessionId ;;
   n1 <~ get Now ;; n2 <~ get Now ;;
   tradeId <~ call (TradeCreate (open_row sig leg cid clientOrderId sid acct tk n1 n2)) ;;
   await! call (Publish "trade:opened" tradeId (sig_symbol sig)) ;;
   resolve tradeId)%async.

(** A granted order: kept with its rows, or closed again. *)
Definition keep_or_close (sig : SmcLiveSignal) (acct : option string) (leg : SmcLiveSignalLeg)
    (clientOrderId : string) (order : OrderReply) (tk : Z) : IO (option (Z * string)) :=
  let fill := fill_of order sig in
  (if excessive_slippage sig fill then
     await! bestEffortClose acct tk ;;
     await! writeAuditTradeRow sig leg clientOrderId tk fill "EXCESSIVE_SLIPPAGE" ;;
     resolve None
   else
     saved <~ settle (persist_leg sig acct leg clientOrderId tk) ;;
     match saved with
     | Ok tradeId => resolve (Some (tk, tradeId))
     | Throw _ => await! bestEffortClose acct tk ;; resolve None
     end)%async.

(** One turn of the loop over the legs: the ticket and the row of a leg that succeeded. *)
Definition place_leg (sig : SmcLiveSignal) (acct : option string) (leg : SmcLiveSignalLeg)
    : IO (option (Z * string)) :=
  (cid <~ get RandomUUID ;;
   dupe <~ call (TradeFindFirst (fun t => bool_decide (t_clientOrderId (t_data t) = Some cid))) ;;
   match dupe with
   | Some _ => resolve None
   | None =>
       sent <~ settle (placeOrderWithRetry acct (market_body sig leg)) ;;
       match sent with
       | Throw _ => resolve None
       | Ok order =>
           match granted order with
           | None => resolve None
           | Some tk => keep_or_close sig acct leg cid order tk
           end
       end
   end)%async.

Definition rollback_patch (now : Z) : TradePatch := {|
  p_status := Some CLOSED; p_mt5Ticket := None; p_entryPrice := None; p_closePrice := None;
  p_slPrice := None; p_tpPrice := None; p_exitReason := Some "PARTIAL_FILL_ROLLBACK"%string;
  p_pnl := None; p_closedAt := Some now; p_statusHistory := None; p_managementState := None |}.

Definition rollback_one (acct : option string) (p : Z * string) : IO unit :=
  (await! bestEffortClose acct p.1 ;;
   now <~ get Now ;;
   swallow (call (TradeUpdate p.2 (rollback_patch now))))%async.

(** The number of legs that fully succeeded: all of them, or none. *)
Definition placeOrder (sig : SmcLiveSignal) (acct : option string) : IO Z :=
  (placed <~ fold_each (fun acc leg =>
                r <~ place_leg sig acct leg ;;
                resolve (match r with Some p => acc ++ [p] | None => acc end)) (legs sig) [] ;;
   if (0 <? zlen placed)%Z && (zlen placed <? zlen (legs sig))%Z then
     await! for_each (rollback_one acct) placed ;;
     resolve 0%Z
   else resolve (zlen placed))%async.

Definition placeOrderForAccount (sig : SmcLiveSignal) (accountId : string) : IO Z :=
  placeOrder sig (Some accountId).

(** ** Retrace limits *)
Definition RETRACE_FRAC : num := lit 5 1.
Definition RETRACE_EXPIRY_BARS : Z := 12.
Definition RETRACE_LOT_MULT : num := of_Z 1 / (of_Z 1 - RETRACE_FRAC).

Definition retrace_price (sig : SmcLiveSignal) : num :=
  let dist := nabs (sig_entryPrice sig - sig_slPrice sig) in
  round5 (match sig_side sig with
          | BUY => sig_entryPrice sig - dist * RETRACE_FRAC
          | SELL => sig_entryPrice sig + dist * RETRACE_FRAC
          end).

Definition retrace_expiry (evalTs : string) : option Z :=
  t ← Date_parse evalTs; Some (t + RETRACE_EXPIRY_BARS * 15 * 60000)%Z.

Definition limit_body (sig : SmcLiveSignal) (leg : SmcLiveSignalLeg) (limit : num) (expires : option Z)
    : OrderBody := {|
  ob_symbol := sig_symbol sig; ob_side := sig_side sig; ob_lotSize := leg_lotSize leg;
  ob_entryPrice := sig_entryPrice sig; ob_slPrice := sig_slPrice sig; ob_tpPrice := leg_tpPrice leg;
  ob_limit := Some (limit, expires) |}.

(** The ticket of an instant fill. *)
Definition instant_fill (r : OrderReply) : option Z :=
  if String.eqb (toUpperCase (default "" (or_status r))) "FILLED" then granted r else None.

Definition limit_row (sig : SmcLiveSignal) (leg : SmcLiveSignalLeg) (candidateId clientOrderId : string)
    (sessionId : option string) (acct : string) (limit : num) (expires : option Z) (r : OrderReply)
    (n1 n2 : Z) : TradeData :=
  let tk := instant_fill r in
  let d := base_row sig leg candidateId clientOrderId sessionId (Some acct) tk limit
             (match tk with Some _ => OPEN | None => PENDING end)
             (history_entry PENDING n1 None (or_orderId r) None ::
              match tk with Some z => [history_entry OPEN n2 (Some z) None None] | None => [] end) in {|
  t_candidateId := t_candidateId d; t_clientOrderId := t_clientOrderId d; t_mt5Ticket := t_mt5Ticket d;
  t_sessionId := t_sessionId d; t_accountId := t_accountId d; t_symbol := t_symbol d; t_side := t_side d;
  t_lotSize := t_lotSize d; t_entryPrice := t_entryPrice d; t_closePrice := t_closePrice d;
  t_slPrice := t_slPrice d; t_tpPrice := t_tpPrice d; t_status := t_status d;
  t_exitReason := t_exitReason d;
  t_entryType := "RETRACE_LIMIT";
  t_brokerOrderId := match or_orderId r with Some s => if truthy_string s then Some s else None | None => None end;
  t_limitPrice := Some limit; t_orderExpiresAt := expires;
  t_pnl := t_pnl d; t_closedAt := t_closedAt d; t_statusHistory := t_statusHistory d;
  t_managementState := t_managementState d; t_sweptLevel := t_sweptLevel d; t_sweptHigh := t_sweptHigh d;
  t_sweptLow := t_sweptLow d; t_sweepCandleTime := t_sweepCandleTime d; t_d1Bias := t_d1Bias d;
  t_originalSlPrice := t_originalSlPrice d; t_strategyName := t_strategyName d |}.

Definition persist_limit (sig : SmcLiveSignal) (acct : string) (leg : SmcLiveSignalLeg)
    (clientOrderId : string) (limit : num) (expires : option Z) (r : OrderReply) : IO unit :=
  (cid <~ call (CandidateCreate (candidate_row sig leg limit "APPROVED")) ;;
   sid <~ currentSessionId ;;
   n1 <~ get Now ;; n2 <~ get Now ;;
   await! call (TradeCreate (limit_row sig leg cid clientOrderId sid acct limit expires r n1 n2)) ;;
   resolve tt)%async.

(** One leg: whether it counts. *)
Definition place_limit_leg (sig : SmcLiveSignal) (acct : string) (limit : num) (expires : option Z)
    (leg : SmcLiveSignalLeg) : IO bool :=
  (now <~ get Now ;;
   suffix <~ get RandomSuffix ;;
   let clientOrderId := (sig_symbol sig +:+ "-" +:+ dec_string now +:+ "-" +:+ suffix)%string in
   sent <~ settle (placeOrderWithRetry (Some acct) (limit_body sig leg limit expires)) ;;
   match sent with
   | Throw _ => resolve false
   | Ok r =>
       if negb (String.eqb (toUpperCase (default "" (or_status r))) "PENDING")
          && bool_decide (instant_fill r = None)
       then resolve false
       else
         saved <~ settle (persist_limit sig acct leg clientOrderId limit expires r) ;;
         resolve (is_ok saved)
   end)%async.

Definition placeRetraceOrderForAccount (sig : SmcLiveSignal) (acct evalTs : string) : IO Z :=
  let limit := retrace_price sig in
  let expires := retrace_expiry evalTs in
  (n <~ fold_each (fun n leg =>
          ok <~ place_limit_leg sig acct limit expires leg ;;
          resolve (if ok then n + 1 else n)%Z) (legs sig) 0%Z ;;
   await! (if (0 <? n)%Z then
             match expires with
             | Some e => pushEvent (EvLimitParked evalTs (sig_symbol sig) (sig_side sig) limit
                                      (Some (toISOString e)))
             | None => reject "RangeError: Invalid time value"
             end
           else resolve tt) ;;
   resolve n)%async.
