(* ===== verification/LiveStrategy.v ===== *)
(** * Live strategy service

    src/strategy/live/live-strategy.service.ts (class LiveStrategyService): candle
    reads, the three evaluation paths (legacy, per account, shared signal), sizing per
    account, the registry of per-account orchestrators
    (src/strategy/live/live-smc-orchestrator-registry.ts), the presets
    (src/strategy/presets.ts), start and stop of the process, the view of the telemetry and
    the test trade. *)
From S2P Require Import Prelude Async JsNum JsDate Types Instruments Indicators Orchestrator.
From S2P Require Import LiveTypes EngineMemory LiveExecution.
Local Open Scope num_scope.

(** ** Presets *)
Record StrategyPreset := {
  pr_riskPercent : num; pr_maxDailyLossPercent : num; pr_maxOpenPositions : Z; pr_pairs : list string }.

Definition getPreset (k : PresetKey) : StrategyPreset :=
  match k with
  | CONSERVATIVE => {| pr_riskPercent := lit 5 1; pr_maxDailyLossPercent := of_Z 2;
      pr_maxOpenPositions := 2; pr_pairs := ["EURUSD"; "GBPUSD"]%string |}
  | BALANCED => {| pr_riskPercent := of_Z 1; pr_maxDailyLossPercent := of_Z 3;
      pr_maxOpenPositions := 3; pr_pairs := ["XAUUSD"; "EURUSD"; "GBPUSD"; "USDJPY"]%string |}
  | AGGRESSIVE_PRESET => {| pr_riskPercent := lit 15 1; pr_maxDailyLossPercent := of_Z 5;
      pr_maxOpenPositions := 3; pr_pairs := ["XAUUSD"; "EURUSD"; "GBPUSD"; "USDJPY"]%string |}
  end.

(** ** Candles *)
Definition M15_BUFFER : nat := 100.
Definition H1_BUFFER : nat := 500.
Definition D1_BUFFER : nat := 400.

Definition TIMEFRAME_DURATION_MS (tf : string) : Z :=
  default 0%Z (assoc [("M15"%string, 15 * 60 * 1000)%Z; ("H1"%string, 60 * 60 * 1000)%Z;
                      ("H4"%string, 4 * 60 * 60 * 1000)%Z; ("D1"%string, 24 * 60 * 60 * 1000)%Z] tf).

(** The newest stored bar is recent enough. *)
Definition is_fresh (tf : string) (rows : list BacktestCandle) (now : Z) : bool :=
  match last rows with
  | None => false
  | Some newest =>
      let tfMs := TIMEFRAME_DURATION_MS tf in
      (0 <? tfMs)%Z &&
      match candle_ms newest with Some t => (now - t <=? 2 * tfMs + 120000)%Z | None => false end
  end.

(** The broker's bars without the one in progress. *)
Definition closed_bars (tf : string) (now : Z) (rows : list BacktestCandle) : list BacktestCandle :=
  let tfMs := TIMEFRAME_DURATION_MS tf in
  List.filter (fun c => (tfMs =? 0)%Z ||
    match candle_ms c with Some t => (t + tfMs <=? now)%Z | None => false end) rows.

Definition relabel (sym tf : string) (c : BacktestCandle) : BacktestCandle := {|
  c_symbol := sym; timeframe := tf; openTime := openTime c; open := open c; high := high c;
  low := low c; close := close c; volume := volume c |}.

Definition fetchCandles (sym tf : string) (count : nat) : IO (list BacktestCandle) :=
  (rows <~ call (CandleFindMany sym tf count) ;;
   let mapped := reverse rows in
   if String.eqb tf "D1" then resolve mapped
   else
     now <~ get Now ;;
     if is_fresh tf mapped now then resolve mapped
     else
       fallback <~ call (BrokerCandles sym tf count) ;;
       now' <~ get Now ;;
       resolve (relabel sym tf <$> closed_bars tf now' fallback))%async.

(** The three reads of an evaluation and the time it is stamped with. *)
Definition fetch_all (sym : string) : IO (list BacktestCandle * list BacktestCandle * list BacktestCandle) :=
  (m15 <~ fetchCandles sym "M15" M15_BUFFER ;;
   h1 <~ fetchCandles sym "H1" H1_BUFFER ;;
   d1 <~ fetchCandles sym "D1" D1_BUFFER ;;
   resolve (m15, h1, d1))%async.

Definition eval_time (m15 : list BacktestCandle) : IO string :=
  match last m15 with
  | Some c => resolve (openTime c)
  | None => await (get Now) (fun now => resolve (toISOString now))
  end.

Definition classifyKillzone (iso : string) : option string :=
  match Date_parse iso with
  | None => None
  | Some t =>
      let hour := getUTCHours t in
      if (6 <=? hour)%Z && (hour <? 12)%Z then Some "LONDON"%string
      else if (12 <=? hour)%Z && (hour <? 18)%Z then Some "NY"%string
      else if (22 <=? hour)%Z || (hour <? 6)%Z then Some "ASIAN"%string
      else None
  end.

Section strategy.
(** The indicator library, the overrides and [RISK_PERCENT]; the flags the getters read
    from the environment. *)
Context `{TechnicalIndicators} (ov : Overrides) (envRisk : num).
Context (breaker : BreakerConfig) (sharedSignals retraceEntry : bool).

(** [liveControl.getRiskPercent()] *)
Definition getRiskPercent (m : Mem) : num := default envRisk (ct_riskPercent (m_control m)).

(** ** One evaluation of an orchestrator with the telemetry around it *)
Record Evaluation := {
  ev_signal : option SmcLiveSignal;
  ev_before : Z;
  ev_after : option OrchestratorTelemetry }.

Definition pending_count (sym : string) (o : LiveSmcOrchestrator) : Z :=
  match getTelemetry o !! sym with Some t => pendingCount t | None => 0 end.

(** Code between two awaits: pending count, [evaluate], telemetry.  An error of
    [evaluate] leaves the state it had reached. *)
Definition evaluate_now (sym : string) (m15 h1 d1 : list BacktestCandle) (ctx : LiveContext)
    (o : LiveSmcOrchestrator) : LiveSmcOrchestrator * Res Evaluation :=
  let before := pending_count sym o in
  let '(o', r) := evaluate ov envRisk sym m15 h1 d1 ctx None None o in
  (o', res_map (fun s => {| ev_signal := s; ev_before := before; ev_after := getTelemetry o' !! sym |}) r).

Definition ev_pending (e : Evaluation) : Z :=
  match ev_after e with Some t => pendingCount t | None => 0 end.

Definition eval_decision (e : Evaluation) : EvalDecision :=
  if (0 <? match ev_after e with Some t => tel_cooldownBarsRemaining t | None => 0 end)%Z then Cooldown
  else if (0 <? ev_pending e)%Z then PendingOnly
  else NoSweep.

Definition decision_string (d : EvalDecision) : string :=
  match d with NoSweep => "no-sweep" | PendingOnly => "pending-only" | Cooldown => "cooldown" end.

Definition sweep_event (ts sym : string) (e : Evaluation) : list TelemetryEvent :=
  if (ev_before e <? ev_pending e)%Z then
    match ev_after e ≫= (fun t => last (tel_pending t)) with
    | Some p => [EvSweepDetected ts sym (tp_direction p) (tp_mode p) (entryHint p)]
    | None => []
    end
  else [].

Definition outcome_event (ts sym : string) (e : Evaluation) : TelemetryEvent :=
  match ev_signal e with
  | Some s => EvSignalFired ts sym (sig_side s) (sig_mode s) (sig_entryPrice s)
  | None => EvEval ts sym (eval_decision e)
  end.

Definition push_all (evs : list TelemetryEvent) : IO unit := for_each pushEvent evs.

Definition decision_record (acct : option string) (sym ts decision : string) (sd : option Side)
    : DecisionRecord := {|
  dr_accountId := acct; dr_symbol := sym; dr_barTime := Date_parse ts; dr_decision := decision;
  dr_signalSide := sd |}.

Definition evaluation_record (acct : option string) (sym ts : string) (e : Evaluation) : DecisionRecord :=
  decision_record acct sym ts
    (match ev_signal e with Some _ => "SIGNAL" | None => decision_string (eval_decision e) end)
    (sig_side <$> ev_signal e).

(** ** The legacy single-account path *)
Definition singleton_evaluate (sym : string) (m15 h1 d1 : list BacktestCandle) (mk : num -> LiveContext)
    : IO Evaluation :=
  sync_res (fun m =>
    let '(o, r) := evaluate_now sym m15 h1 d1 (mk (getRiskPercent m)) (m_orchestrator m) in
    (set_orchestrator o m, r)).

Definition commit_entry (sym : string) (sig : SmcLiveSignal) : IO unit :=
  sync_res (fun m => let '(o, r) := recordEntry sym sig (m_orchestrator m) in (set_orchestrator o m, r)).

Definition evaluatePair (sym : string) : IO (option SmcLiveSignal) :=
  (bars <~ fetch_all sym ;;
   let '(m15, h1, d1) := bars in
   here <~ call (BrokerPositions None (Some sym)) ;;
   all <~ call (BrokerPositions None None) ;;
   acct <~ call (BrokerAccountInfo None) ;;
   ts <~ eval_time m15 ;;
   e <~ singleton_evaluate sym m15 h1 d1 (fun risk => {|
          accountEquity := ai_equity acct; openDirections := bp_side <$> here;
          totalOpenPositions := zlen all; ctx_riskPercent := Some risk; nowIso := ts;
          ctx_maxOpenPositions := Some 4%Z |}) ;;
   await! push_all (sweep_event ts sym e) ;;
   await! pushEvent (outcome_event ts sym e) ;;
   match ev_signal e with
   | None => await! markPersistDirty ;; resolve None
   | Some sig =>
       n <~ placeOrder sig None ;;
       if (n =? 0)%Z then await! markPersistDirty ;; resolve None
       else
         await! commit_entry sym sig ;;
         await! markPersistDirty ;;
         await! forget (JournalCreate sig ts) ;;
         resolve (Some sig)
   end)%async.

(** ** The shared-signal path *)
Definition SHARED_SIGNAL_NOTIONAL_EQUITY : num := of_Z 10000.
Definition MIN_LOT_RISK_TOLERANCE : num := lit 625 3.

(** [(info.equity * preset.riskPercent) / (notional * engineRisk)] *)
Definition size_factor (equity : num) (preset : StrategyPreset) (engineRisk : num) : num :=
  (equity * pr_riskPercent preset) / (SHARED_SIGNAL_NOTIONAL_EQUITY * engineRisk).

Definition min_total (sig : SmcLiveSignal) : num := of_Z (zlen (legs sig)) * lit 1 2.
Definition scaled_total (sig : SmcLiveSignal) (factor mult : num) : num := totalLot sig * factor * mult.

Definition resize_leg (factor mult : num) (l : SmcLiveSignalLeg) : SmcLiveSignalLeg := {|
  leg_lotSize := Math_max (lit 1 2) (Math_round (leg_lotSize l * factor * mult * of_Z 100) / of_Z 100);
  leg_tpPrice := leg_tpPrice l; leg_setupTags := leg_setupTags l |}.

Definition resize (factor mult : num) (sig : SmcLiveSignal) : SmcLiveSignal :=
  let ls := resize_leg factor mult <$> legs sig in {|
  sig_symbol := sig_symbol sig; sig_side := sig_side sig; sig_entryPrice := sig_entryPrice sig;
  sig_slPrice := sig_slPrice sig; sig_tpPrice := sig_tpPrice sig;
  totalLot := round2 (nsum (of_Z 0) (leg_lotSize <$> ls)); legs := ls; sig_mode := sig_mode sig;
  h1SweepTime := h1SweepTime sig; reason := reason sig; smcContext := smcContext sig |}.

(** [dayStart.setUTCHours(0, 0, 0, 0)] *)
Definition closed_today (acct : string) (now : Z) (t : Trade) : bool :=
  bool_decide (account t = Some acct) && bool_decide (status t = CLOSED) &&
  tv_le (Some (setUTCHours0 0 now)) (t_closedAt (t_data t)).

Definition open_of (acct : string) (t : Trade) : bool :=
  bool_decide (account t = Some acct) && bool_decide (status t = OPEN).

Definition skip (sig : SmcLiveSignal) (acct : BrokerAccount) (ts why : string) : IO bool :=
  (await! record (decision_record (Some (a_id acct)) (sig_symbol sig) ts why (Some (sig_side sig))) ;;
   resolve false)%async.

(** The user and preset an account may trade with. *)
Definition eligible (acct : BrokerAccount) (sym : string) : option (User * StrategyPreset) :=
  u ← a_user acct;
  if u_botEnabled u && u_isActive u && a_isEnabled acct then
    let p := getPreset (u_presetKey u) in
    if bool_decide (sym ∈ pr_pairs p) then Some (u, p) else None
  else None.

Definition executeSharedSignalForAccount (sig : SmcLiveSignal) (acct : BrokerAccount) (ts : string) : IO bool :=
  match eligible acct (sig_symbol sig) with
  | None => resolve false
  | Some (u, preset) =>
      (positions <~ call (BrokerPositions (Some (a_id acct)) (Some (sig_symbol sig))) ;;
       info <~ call (BrokerAccountInfo (Some (a_id acct))) ;;
       openCount <~ call (TradeCount (open_of (a_id acct))) ;;
       if bool_decide (sig_side sig ∈ bp_side <$> positions) then skip sig acct ts "SKIPPED_SAME_DIRECTION"
       else if (pr_maxOpenPositions preset <=? openCount)%Z then skip sig acct ts "SKIPPED_MAX_OPEN"
       else
         now <~ get Now ;;
         agg <~ call (TradeSumPnl (closed_today (a_id acct) now)) ;;
         let dayPnl := default (of_Z 0) agg in
         let cap := pr_maxDailyLossPercent preset / of_Z 100 * ai_equity info in
         if dayPnl <=? nopp cap then skip sig acct ts "SKIPPED_DAILY_LOSS"
         else
           engineRisk <~ sync (fun m => (m, getRiskPercent m)) ;;
           let useRetrace := retraceEntry && String.eqb (a_broker acct) "CTRADER" in
           let mult := if useRetrace then RETRACE_LOT_MULT else of_Z 1 in
           let factor := size_factor (ai_equity info) preset engineRisk in
           if scaled_total sig factor mult <? min_total sig * MIN_LOT_RISK_TOLERANCE
           then skip sig acct ts "SKIPPED_MIN_LOT"
           else
             let sized := resize factor mult sig in
             n <~ (if useRetrace then placeRetraceOrderForAccount sized (a_id acct) ts
                   else placeOrderForAccount sized (a_id acct)) ;;
             if (n =? 0)%Z then skip sig acct ts "SKIPPED_PLACE_FAILED"
             else
               await! record (decision_record (Some (a_id acct)) (sig_symbol sig) ts "EXECUTED"
                                (Some (sig_side sig))) ;;
               await! forget (MailTradeOpened (u_email u) sized) ;;
               resolve true)%async
  end.

(** The sides and the number of distinct symbols of the OPEN rows. *)
Definition open_on (sym : string) (t : Trade) : bool :=
  String.eqb (trade_symbol t) sym && bool_decide (status t = OPEN).
Definition distinct_symbols (rows : list Trade) : Z :=
  Z.of_nat (size (list_to_set (trade_symbol <$> rows) : gset string)).

Definition evaluatePairSharedSignal (sched : list nat) (sym : string) (accounts : list BrokerAccount) : IO unit :=
  (bars <~ fetch_all sym ;;
   let '(m15, h1, d1) := bars in
   ts <~ eval_time m15 ;;
   openHere <~ call (TradeFindMany (open_on sym) None) ;;
   openAll <~ call (TradeFindMany (fun t => bool_decide (status t = OPEN)) None) ;;
   e <~ singleton_evaluate sym m15 h1 d1 (fun risk => {|
          accountEquity := SHARED_SIGNAL_NOTIONAL_EQUITY;
          openDirections := (fun t => t_side (t_data t)) <$> openHere;
          totalOpenPositions := distinct_symbols openAll; ctx_riskPercent := Some risk; nowIso := ts;
          ctx_maxOpenPositions := Some 4%Z |}) ;;
   await! markPersistDirty ;;
   await! push_all (sweep_event ts sym e) ;;
   await! pushEvent (outcome_event ts sym e) ;;
   await! record (evaluation_record None sym ts e) ;;
   match ev_signal e with
   | None => resolve tt
   | Some sig =>
       tripped <~ isTripped breaker ;;
       if tripped then
         record (decision_record None sym ts "SKIPPED_CIRCUIT_BREAKER" (Some (sig_side sig)))
       else
         results <~ pbind (par_all sched
             ((fun a => try_catch (executeSharedSignalForAccount sig a ts) (fun _ => resolve false)) <$> accounts))
             (fun rs => Ret (Ok rs)) ;;
         if existsb (fun r => match r with Ok b => b | Throw _ => false end) results then
           await! commit_entry sym sig ;; markPersistDirty
         else resolve tt
   end)%async.

(** ** Per-account orchestrators *)
Section registry.

(** [getOrCreate]: an instance, a creation in flight to wait for, or one to start. *)
Inductive Lookup := HasInstance | InFlight | Create.

Definition lookup_instance (id : string) (m : Mem) : Mem * Lookup :=
  match m_registry m !! id with
  | Some _ => (m, HasInstance)
  | None => if bool_decide (id ∈ m_creating m) then (m, InFlight)
            else (set_registry (m_registry m) ({[id]} ∪ m_creating m) m, Create)
  end.

Definition install (id : string) (raw : Res (option StoredText)) (m : Mem) : Mem * unit :=
  let inst := match raw with
              | Ok (Some (JsonText s)) => (Orchestrator.restore s new_LiveSmcOrchestrator).1
              | _ => new_LiveSmcOrchestrator
              end in
  (set_registry (<[id := inst]> (m_registry m)) (m_creating m ∖ {[id]}) m, tt).

Definition getOrCreate (id : string) : IO unit :=
  (found <~ sync (lookup_instance id) ;;
   match found with
   | HasInstance => resolve tt
   | InFlight => get (AwaitCreation id)
   | Create => raw <~ settle (call (StateGet (state_key (Some id)))) ;; sync (install id raw)
   end)%async.

(** A step of the account's own orchestrator. *)
Definition on_instance {A} (id : string) (f : LiveSmcOrchestrator -> LiveSmcOrchestrator * Res A)
    (m : Mem) : Mem * Res A :=
  match m_registry m !! id with
  | Some o => let '(o', r) := f o in (set_registry (<[id := o']> (m_registry m)) (m_creating m) m, r)
  | None => (m, Throw "TypeError: Cannot read properties of undefined")
  end.

(** [persistAll]: every instance is written as it is when its turn comes; the count of
    the writes that succeeded. *)
Definition persistAll : IO Z :=
  (ids <~ sync (fun m => (m, (map_to_list (m_registry m)).*1)) ;;
   fold_each (fun n id =>
     snap <~ sync (fun m => (m, option_map stringify (m_registry m !! id))) ;;
     match snap with
     | Some s => r <~ settle (call (StateSet (state_key (Some id)) s)) ;;
                 resolve (if is_ok r then n + 1 else n)%Z
     | None => resolve n
     end) ids 0%Z)%async.
End registry.

(** ** The per-account path *)

(** The first account to finish a bar tells the dashboard. *)
Definition claim_bar (sym ts : string) (m : Mem) : Mem * bool :=
  if bool_decide (m_lastTelemetryBar m !! sym = Some ts) then (m, false)
  else (set_lastTelemetryBar (<[sym := ts]> (m_lastTelemetryBar m)) m, true).

Definition evaluatePairForAccountInternal (sym : string) (acct : BrokerAccount) (u : User)
    (preset : StrategyPreset) (emitTelemetry : bool) : IO (option SmcLiveSignal) :=
  (bars <~ fetch_all sym ;;
   let '(m15, h1, d1) := bars in
   here <~ call (BrokerPositions (Some (a_id acct)) (Some sym)) ;;
   all <~ call (BrokerPositions (Some (a_id acct)) None) ;;
   info <~ call (BrokerAccountInfo (Some (a_id acct))) ;;
   ts <~ eval_time m15 ;;
   await! getOrCreate (a_id acct) ;;
   e <~ sync_res (on_instance (a_id acct) (evaluate_now sym m15 h1 d1 {|
          accountEquity := ai_equity info; openDirections := bp_side <$> here;
          totalOpenPositions := zlen all; ctx_riskPercent := Some (pr_riskPercent preset); nowIso := ts;
          ctx_maxOpenPositions := Some (pr_maxOpenPositions preset) |})) ;;
   await! (if emitTelemetry then
             first <~ sync (claim_bar sym ts) ;;
             if first then await! push_all (sweep_event ts sym e) ;; pushEvent (outcome_event ts sym e)
             else resolve tt
           else resolve tt) ;;
   await! record (evaluation_record (Some (a_id acct)) sym ts e) ;;
   match ev_signal e with
   | None => resolve None
   | Some sig =>
       n <~ placeOrderForAccount sig (a_id acct) ;;
       if (n =? 0)%Z then resolve None
       else
         await! sync_res (on_instance (a_id acct) (recordEntry sym sig)) ;;
         await! forget (MailTradeOpened (u_email u) sig) ;;
         resolve (Some sig)
   end)%async.

Definition evaluatePairForAccount (sym : string) (acct : BrokerAccount) (emitTelemetry : bool)
    : IO (option SmcLiveSignal) :=
  match eligible acct sym with
  | None => resolve None
  | Some (u, preset) => evaluatePairForAccountInternal sym acct u preset emitTelemetry
  end.

Definition evaluatePairAllAccounts (sched : list nat) (sym : string) : IO unit :=
  (accounts <~ call EnabledAccounts ;;
   match accounts with
   | [] => resolve tt
   | _ =>
       if sharedSignals then evaluatePairSharedSignal sched sym accounts
       else pbind (par_all sched ((fun a => swallow (evaluatePairForAccount sym a true)) <$> accounts))
                  (fun _ => resolve tt)
   end)%async.

(** The handler of a CANDLE_STORED message. *)
Definition strategy_on_candle (pairs : list string) (fanOut : bool) (sched : list nat)
    (tf sym : string) (running : bool) : option (IO unit) :=
  let sym := toUpperCase sym in
  if negb (String.eqb tf "M15") then None
  else if negb (bool_decide (sym ∈ pairs)) then None
  else if negb running then None
  else Some (if fanOut then evaluatePairAllAccounts sched sym
             else await (evaluatePair sym) (fun _ => resolve tt)).

(** ** Start and stop of the process *)

(** The long-lived risk manager takes the broker's equity for its balance. *)
Definition seed_risk : IO unit :=
  (acct <~ call (BrokerAccountInfo None) ;;
   sync (fun m => (set_orchestrator (setDefaultRiskCfg {|
     rc_initialBalance := ai_equity acct; rc_riskPercent := getRiskPercent m; rc_maxOpenPositions := 4 |}
     (m_orchestrator m)) m, tt)))%async.
(** A restore that throws leaves what it had restored so far. *)
Definition restore_state : IO unit :=
  (raw <~ call (StateGet ORCHESTRATOR_STATE_KEY) ;;
   match raw with
   | None => resolve tt
   | Some BadText => reject "SyntaxError"
   | Some (JsonText s) =>
       sync_res (fun m => let '(o, r) := Orchestrator.restore s (m_orchestrator m) in (set_orchestrator o m, r))
   end)%async.
Definition restore_telemetry : IO unit :=
  (raw <~ call FeedGet ;;
   match raw with
   | None => resolve tt
   | Some FeedBad => reject "SyntaxError"
   | Some (FeedJson f) => sync (fun m => (set_feed (restore_feed f (m_feed m)) (m_persist m) m, tt))
   end)%async.

Definition onModuleInit (liveMode : bool) : IO unit :=
  if negb liveMode then resolve tt
  else
    (await! swallow seed_risk ;;
     await! swallow restore_state ;;
     await! swallow restore_telemetry ;;
     call SubscribeCandles)%async.

Definition onModuleDestroy : IO unit :=
  (await! sync (fun m => (set_feed (m_feed m) {| pf_dirty := pf_dirty (m_persist m); pf_debounce := false;
                                                pf_inFlight := pf_inFlight (m_persist m) |} m, tt)) ;;
   flushOrchestratorState)%async.

(** The subscriber of CANDLE_STORED; a payload that is no object with a timeframe is [None]. *)
Definition candle_stored (pairs : list string) (fanOut : bool) (sched : list nat)
    (payload : option (string * option string)) : IO unit :=
  match payload with
  | None => resolve tt
  | Some (tf, sym) =>
      (running <~ sync (fun m => (m, ct_running (m_control m))) ;;
       match strategy_on_candle pairs fanOut sched tf (default "" sym) running with
       | Some p => swallow p
       | None => resolve tt
       end)%async
  end.

(** ** The engine worker view *)
Record PairTelemetry := {
  pt_lastEvalAt : option string; pt_lastDecision : option EvalDecision; pt_cooldownBarsRemaining : Z;
  pt_pendingCount : Z; pt_pending : list TelemetryPending }.
Record TelemetryView := {
  tv_serverNowIso : string; tv_pairs : list (string * PairTelemetry); tv_counters : Counters;
  tv_recentEvents : list TelemetryEvent; tv_isRunning : bool }.
Definition pair_telemetry (m : Mem) (sym : string) : PairTelemetry :=
  let e := fd_lastEval (m_feed m) !! sym in
  let o := Orchestrator.getTelemetry (m_orchestrator m) !! sym in {|
  pt_lastEvalAt := fst <$> e; pt_lastDecision := snd <$> e;
  pt_cooldownBarsRemaining := default 0%Z (tel_cooldownBarsRemaining <$> o);
  pt_pendingCount := default 0%Z (pendingCount <$> o); pt_pending := default [] (tel_pending <$> o) |}.
Definition telemetry_view (pairs : list string) (now : Z) (m : Mem) : TelemetryView := {|
  tv_serverNowIso := toISOString now; tv_pairs := (fun sym => (sym, pair_telemetry m sym)) <$> pairs;
  tv_counters := fd_counters (m_feed m); tv_recentEvents := recent_events m; tv_isRunning := ct_running (m_control m) |}.

(** ** The test trade *)
Record TestTrade := {
  to_symbol : string; to_side : option Side; to_lotSize : option num; to_slAtrMult : option num; to_tpRMult : option num }.
Definition true_range (prev c : BacktestCandle) : num :=
  Math_max (Math_max (high c - low c) (nabs (high c - close prev))) (nabs (low c - close prev)).
Fixpoint range_sum (sum : num) (prev : BacktestCandle) (l : list BacktestCandle) : num :=
  match l with [] => sum | c :: l' => range_sum (sum + true_range prev c) c l' end.
(** Over the last 14 bars, the first of which has no range of its own. *)
Definition crude_atr (m15 : list BacktestCandle) : num :=
  match last_n 14 m15 with [] => of_Z 0 | c :: l => range_sum (of_Z 0) c l end / of_Z 13.
Definition test_round (sym : string) (n : num) : num :=
  let factor := of_Z (10 ^ (if String.eqb sym "XAUUSD" then 2 else if ends_with_JPY sym then 3 else 5))%Z in
  Math_round (n * factor) / factor.

Definition test_signal (o : TestTrade) (last_ : BacktestCandle) (m15 : list BacktestCandle) (now : Z) : SmcLiveSignal :=
  let sym := toUpperCase (to_symbol o) in
  let sd := default BUY (to_side o) in
  let lot := default (lit 1 2) (to_lotSize o) in
  let mult := default (of_Z 1) (to_slAtrMult o) in
  let atr := crude_atr m15 in
  let entry := close last_ in
  let slDistance := atr * mult in
  let reach := slDistance * default (of_Z 2) (to_tpRMult o) in
  let sl := match sd with BUY => entry - slDistance | SELL => entry + slDistance end in
  let tp := match sd with BUY => entry + reach | SELL => entry - reach end in
  let round := test_round sym in {|
  sig_symbol := sym; sig_side := sd; sig_entryPrice := round entry; sig_slPrice := round sl; sig_tpPrice := round tp;
  totalLot := lot;
  legs := [{| leg_lotSize := lot; leg_tpPrice := round tp; leg_setupTags := ["TEST"%string; "MANUAL"%string; side_string sd] |}];
  sig_mode := REVERSAL; h1SweepTime := toISOString now;
  reason := "TEST trade: " +:+ side_string sd +:+ " " +:+ sym +:+ " " +:+ num_string lot +:+ " lot @ " +:+
            num_string (round entry) +:+ " SL=" +:+ num_string (round sl) +:+ " TP=" +:+ num_string (round tp) +:+
            " (ATR=" +:+ toFixed 5 atr +:+ " × " +:+ num_string mult +:+ ")";
  smcContext := None |}.

(** The signal is handed back whether its order was placed or not. *)
Definition fireTestTrade (pairs : list string) (o : TestTrade) : IO SmcLiveSignal :=
  let sym := toUpperCase (to_symbol o) in
  (running <~ sync (fun m => (m, ct_running (m_control m))) ;;
   if negb running then reject "Engine is not running. Start a session first."
   else if negb (bool_decide (sym ∈ pairs)) then reject ("Pair " +:+ sym +:+ " not in STRATEGY_PAIRS=" +:+ String.concat "," pairs)
   else
     m15 <~ fetchCandles sym "M15" 50 ;;
     match last m15 with
     | Some c =>
         if (length m15 <? 20)%nat then reject ("Not enough M15 candles for " +:+ sym)
         else
           now <~ get Now ;;
           let sig := test_signal o c m15 now in
           await! placeOrder sig None ;;
           resolve sig
     | None => reject ("Not enough M15 candles for " +:+ sym)
     end)%async.
End strategy.
