(* ===== verification/Lifecycle.v ===== *)
(** * The life of a trade

    The abstract contract of the Trade table and the proof that the live services,
    running side by side in any interleaving and with any answers of the broker and the
    database, implement it: a row is never deleted, its status only moves along
    PENDING -> OPEN -> CLOSED and PENDING -> CANCELLED, its identity never changes, its
    history only grows, an OPEN row always carries the broker's ticket. *)
From S2P Require Import Prelude Async JsNum JsDate Types Orchestrator LiveTypes.
From S2P Require PendingEntry ExitReconciliation PositionMonitor PositionManager.
From S2P Require Import ExitReconciliation EngineMemory LiveExecution LiveStrategy.

(** ** The abstract automaton *)
Inductive life : TradeStatus -> TradeStatus -> Prop :=
| life_fill : life PENDING OPEN
| life_expire : life PENDING CANCELLED
| life_close : life OPEN CLOSED.

(** ** The shared table

    [owner] says which thread has set a re-entrance flag. *)
Record Shared := { tbl : gmap string Trade; owner : Lock -> option nat }.

Definition set_tbl (m : gmap string Trade) (s : Shared) : Shared := {| tbl := m; owner := owner s |}.
Definition set_owner (l : Lock) (o : option nat) (s : Shared) : Shared :=
  {| tbl := tbl s; owner := fun l' => if decide (l' = l) then o else owner s l' |}.

(** What the effects do to it.  A failing write may have taken place all the same; reads
    give rows of the table, each once; everything else leaves the table alone and may
    answer anything. *)
Definition either_way {A} (x : Res A) (applied same : Prop) : Prop :=
  match x with Ok _ => applied | Throw _ => applied \/ same end.

Definition sem (i : nat) (e : Action) (s s' : Shared) : answer e -> Prop :=
  match e with
  | TradeFindMany q _ => fun x => s' = s /\
      match x with
      | Ok l => NoDup (t_id <$> l) /\ Forall (fun t => tbl s !! t_id t = Some t /\ q t = true) l
      | Throw _ => True
      end
  | TradeFindFirst q => fun x => s' = s /\
      match x with Ok (Some t) => tbl s !! t_id t = Some t /\ q t = true | _ => True end
  | TradeUpdate id p => fun x =>
      either_way x (is_Some (tbl s !! id) /\ s' = set_tbl (alter (patch_row p) id (tbl s)) s) (s' = s)
  | TradeUpdateManyStale q _ p => fun x =>
      either_way x (exists sel : Trade -> bool, (forall t, sel t = true -> q t = true) /\
                      s' = set_tbl ((fun t => if sel t then patch_row p t else t) <$> tbl s) s) (s' = s)
  | TradeCreate d => fun x =>
      match x with
      | Ok id => tbl s !! id = None /\
          exists now, s' = set_tbl (<[id := {| t_id := id; t_createdAt := now; t_data := d |}]> (tbl s)) s
      | Throw _ => s' = s \/ exists id now, tbl s !! id = None /\
          s' = set_tbl (<[id := {| t_id := id; t_createdAt := now; t_data := d |}]> (tbl s)) s
      end
  | TryLock l => fun b =>
      match owner s l with
      | None => b = true /\ s' = set_owner l (Some i) s
      | Some _ => b = false /\ s' = s
      end
  | Unlock l => fun _ => s' = set_owner l None s
  | _ => fun _ => s' = s
  end.

(** Effects that cannot change the table or the flags. *)
Definition neutral (e : Action) : Prop :=
  match e with
  | TradeUpdate _ _ | TradeUpdateManyStale _ _ _ | TradeCreate _ | TryLock _ | Unlock _ => False
  | _ => True
  end.

(** ** The contract *)

(** How a row may change. *)
Record row_evolves (t t' : Trade) : Prop := {
  re_id : t_id t' = t_id t;
  re_createdAt : t_createdAt t' = t_createdAt t;
  re_symbol : trade_symbol t' = trade_symbol t;
  re_side : t_side (t_data t') = t_side (t_data t);
  re_lot : t_lotSize (t_data t') = t_lotSize (t_data t);
  re_account : account t' = account t;
  re_client : t_clientOrderId (t_data t') = t_clientOrderId (t_data t);
  re_originalSl : t_originalSlPrice (t_data t') = t_originalSlPrice (t_data t);
  re_status : rtc life (status t) (status t');
  re_ticket : status t <> PENDING -> ticket t' = ticket t;
  re_history : t_statusHistory (t_data t) `prefix_of` t_statusHistory (t_data t') }.

Definition evolves (s s' : Shared) : Prop :=
  forall id t, tbl s !! id = Some t -> exists t', tbl s' !! id = Some t' /\ row_evolves t t'.

(** What every row satisfies in every state. *)
Definition row_ok (t : Trade) : Prop :=
  let d := t_data t in
  match status t with
  | PENDING => ticket t = None /\ t_closedAt d = None /\ t_pnl d = None /\ t_exitReason d = None
  | OPEN => is_Some (ticket t) /\ t_closedAt d = None /\ t_pnl d = None /\ t_exitReason d = None
  | CLOSED => is_Some (ticket t) /\ is_Some (t_closedAt d) /\ is_Some (t_exitReason d)
  | CANCELLED => ticket t = None /\ is_Some (t_closedAt d) /\ t_exitReason d = Some "EXPIRED"%string
                 /\ t_pnl d = None
  end.

Definition table_ok (s : Shared) : Prop :=
  forall id t, tbl s !! id = Some t -> t_id t = id /\ row_ok t.

(** Nobody touches the parked orders. *)
Definition parked_kept (s s' : Shared) : Prop :=
  forall id t, tbl s !! id = Some t -> status t = PENDING -> tbl s' !! id = Some t.

Definition guar (i : nat) (s s' : Shared) : Prop :=
  evolves s s' /\ (table_ok s -> table_ok s') /\
  (owner s PendingSweep <> Some i -> parked_kept s s') /\
  (forall l j, j <> i -> owner s l = Some j -> owner s' l = Some j).

Definition rely (i : nat) (s s' : Shared) : Prop :=
  evolves s s' /\ (table_ok s -> table_ok s') /\
  (owner s PendingSweep = Some i -> parked_kept s s') /\
  (forall l, owner s l = Some i -> owner s' l = Some i).

(** The guarantee of a program that holds no flag: it never touches a parked order. *)
Definition guar0 (s s' : Shared) : Prop :=
  evolves s s' /\ (table_ok s -> table_ok s') /\ parked_kept s s' /\
  (forall l j, owner s l = Some j -> owner s' l = Some j).

(** A guarantee a program may be checked against. *)
Record Guarantee := {
  steps :> Shared -> Shared -> Prop;
  guarantee_of s s' : guar0 s s' -> steps s s';
  guarantee_evolves s s' : steps s s' -> evolves s s' }.

Lemma guar0_guar i s s' : guar0 s s' -> guar i s s'.
Proof. intros (? & ? & ? & ?). split_and!; auto. Qed.

Definition flagless : Guarantee :=
  {| steps := guar0; guarantee_of := fun _ _ H => H; guarantee_evolves := fun _ _ H => proj1 H |}.
Definition thread (i : nat) : Guarantee :=
  {| steps := guar i; guarantee_of := guar0_guar i; guarantee_evolves := fun _ _ H => proj1 H |}.

(** ** The contract is a preorder *)
#[export] Instance row_evolves_po : PreOrder row_evolves.
Proof.
  split.
  - intros t. by constructor.
  - intros t u v [] []. constructor; try congruence.
    + by etrans.
    + intros Ht. rewrite re_ticket1, re_ticket0; [done|done|].
      intros Hu. apply Ht. rewrite Hu in re_status0.
      apply rtc_inv_r in re_status0 as [|(y & _ & H)]; [done|inversion H].
    + by etrans.
Qed.

#[export] Instance evolves_po : PreOrder evolves.
Proof.
  split.
  - intros s id t H. by exists t.
  - intros s s' s'' H H' id t Ht. destruct (H id t Ht) as (t' & Ht' & E).
    destruct (H' id t' Ht') as (t'' & Ht'' & E'). exists t''. split; [done|]. by etrans.
Qed.

#[export] Instance rely_preorder i : PreOrder (rely i).
Proof.
  split.
  - intros s. split_and!; [reflexivity|done| |done]. by intros _ id t.
  - intros s s' s'' (E & O & P & L) (E' & O' & P' & L'). split_and!; [by etrans|auto| |auto].
    intros Hi id t Ht Hp. apply P'; [by apply L|by apply P|done].
Qed.

Lemma guar0_rely i s s' : guar0 s s' -> rely i s s'.
Proof. intros (? & ? & ? & ?). split_and!; auto. Qed.

Lemma guar_rely i j s s' : i <> j -> guar i s s' -> rely j s s'.
Proof.
  intros Hij (E & O & P & L). split_and!; [done|done| |].
  - intros Hj. apply P. congruence.
  - intros l. apply L. congruence.
Qed.

(** ** Reasoning rules

    [spec G i L P m Q]: thread [i], holding the flags [L], runs [m] from [P] within the
    guarantee [G] and ends in [Q] of its value (or has been rejected), still holding [L]. *)
Definition holds (i : nat) (L : list Lock) (s : Shared) : Prop := forall l, l ∈ L -> owner s l = Some i.

Definition spec {A} (G : Guarantee) (i : nat) (L : list Lock) (P : Shared -> Prop) (m : IO A) (Q : A -> Shared -> Prop) : Prop :=
  forall s, holds i L s -> P s ->
    safe sem (fun _ => G) rely i m
      (fun r s' => holds i L s' /\ match r with Ok a => Q a s' | Throw _ => True end) s.

(** A fact that no service can undo. *)
Definition lasting (F : Shared -> Prop) : Prop := forall s s', F s -> evolves s s' -> F s'.

Lemma holds_rely i L s s' : holds i L s -> rely i s s' -> holds i L s'.
Proof. intros H (_ & _ & _ & Hl) l Hin. apply Hl. by apply H. Qed.

Section rules.
Context (G : Guarantee).

Lemma spec_resolve {A} i L P (a : A) Q : (forall s, P s -> Q a s) -> spec G i L P (resolve a) Q.
Proof. intros H s Hh HP. simpl. auto. Qed.

Lemma spec_reject {A} i L P e (Q : A -> Shared -> Prop) : spec G i L P (reject e) Q.
Proof. intros s Hh _. simpl. auto. Qed.

Lemma spec_await {A B} i L P (m : IO A) (k : A -> IO B) R Q :
  spec G i L P m R -> (forall a, spec G i L (R a) (k a) Q) -> spec G i L P (await m k) Q.
Proof.
  intros Hm Hk s Hh HP. apply safe_await. eapply safe_mono; [|by apply Hm].
  intros [a|e] s' [Hh' HR]; simpl; [by apply Hk|auto].
Qed.

Lemma spec_conseq {A} i L (P P' : Shared -> Prop) (m : IO A) (Q Q' : A -> Shared -> Prop) :
  (forall s, P' s -> P s) -> (forall a s, Q a s -> Q' a s) -> spec G i L P m Q -> spec G i L P' m Q'.
Proof.
  intros HP HQ H s Hh HP'. eapply safe_mono; [|by apply H; auto].
  intros [a|e] s' [? ?]; simpl; auto.
Qed.

Lemma safe_lasting {A} i (m : Prog A) Q F s :
  lasting F -> F s -> safe sem (fun _ => G) rely i m Q s ->
  safe sem (fun _ => G) rely i m (fun a s' => Q a s' /\ F s') s.
Proof.
  intros HF. revert s. induction m as [a|e k IH]; simpl; intros s Hs H; [done|].
  intros s1 Hr s2 x Hsem. destruct (H s1 Hr s2 x Hsem) as [Hg Hk]. split; [done|].
  apply IH; [|done]. eapply HF; [|by eapply guarantee_evolves]. eapply HF; [done|apply Hr].
Qed.

(** A lasting fact survives any program. *)
Lemma spec_frame {A} i L P F (m : IO A) Q :
  lasting F -> spec G i L P m Q -> spec G i L (fun s => P s /\ F s) m (fun a s => Q a s /\ F s).
Proof.
  intros HF H s Hh [HP Hs]. eapply safe_mono; [|apply (safe_lasting _ _ _ _ _ HF Hs (H s Hh HP))].
  intros [a|e] s' [[? ?] ?]; auto.
Qed.

Lemma spec_swallow {A} i L P (m : IO A) Q : spec G i L P m Q -> spec G i L P (swallow m) (fun _ _ => True).
Proof.
  intros H s Hh HP. apply safe_bind. eapply safe_mono; [|by apply H].
  intros r s' [? _]. simpl. auto.
Qed.

Lemma spec_settle {A} i L P (m : IO A) Q :
  spec G i L P m Q -> spec G i L P (settle m) (fun r s => match r with Ok a => Q a s | Throw _ => True end).
Proof.
  intros H s Hh HP. apply safe_bind. eapply safe_mono; [|by apply H].
  intros r s' [? ?]. simpl. auto.
Qed.

Lemma spec_try_catch {A} i L P (m : IO A) h Q :
  spec G i L P m Q -> (forall e, spec G i L (fun _ => True) (h e) Q) -> spec G i L P (try_catch m h) Q.
Proof.
  intros H Hh s Hl HP. apply safe_bind. eapply safe_mono; [|by apply H].
  intros [a|e] s' [? ?]; simpl; [auto|]. by apply Hh.
Qed.

(** A loop whose every turn starts from a lasting fact. *)
Lemma spec_for_each {A} i L F (body : A -> IO unit) l :
  lasting F -> (forall x, x ∈ l -> spec G i L F (body x) (fun _ _ => True)) ->
  spec G i L F (for_each body l) (fun _ => F).
Proof.
  intros HF H s Hh HP.
  apply (safe_fold_each _ _ _ _ _ _ _ (fun s => holds i L s /\ F s)); [|by intros _ s' [? ?]|done].
  intros x t s' Hx [Hh' HF']. eapply safe_mono; [|apply (safe_lasting _ _ _ _ _ HF HF' (H x Hx s' Hh' HF'))].
  intros [a|e] s'' [[? ?] ?]; auto.
Qed.

Lemma spec_fold_each {A T} i L F (body : T -> A -> IO T) (l : list A) (t0 : T) (J : T -> Shared -> Prop) :
  lasting F -> (forall x t, x ∈ l -> spec G i L (fun s => J t s /\ F s) (body t x) J) ->
  spec G i L (fun s => J t0 s /\ F s) (fold_each body l t0) (fun t s => J t s /\ F s).
Proof.
  intros HF. revert t0. induction l as [|x l IH]; intros t0 H; simpl; [by apply spec_resolve|].
  eapply spec_await with (R := fun t s => J t s /\ F s).
  - intros s Hh [HJ Hs].
    eapply safe_mono; [|apply (safe_lasting _ _ _ _ _ HF Hs (H x t0 (list_elem_of_here _ _) s Hh (conj HJ Hs)))].
    intros [a|e] s' [[? ?] ?]; auto.
  - intros t. apply IH. intros y t' Hy. apply H. by right.
Qed.

(** Programs side by side within one thread. *)
Lemma safe_par_all {A} i (ps : list (Prog A)) sched s :
  (forall p, p ∈ ps -> safe sem (fun _ => guar0) rely i p (fun _ _ => True) s) ->
  safe sem (fun _ => guar0) rely i (par_all sched ps) (fun _ _ => True) s.
Proof. intros H. apply (safe_together sem); [apply _|intros s1 s2; apply guar0_rely|exact H]. Qed.

(** A program checked without flags runs in any thread. *)
Lemma safe_guar0 {A} i (p : Prog A) Q s :
  safe sem (fun _ => guar0) rely i p Q s -> safe sem (fun _ => G) rely i p Q s.
Proof.
  revert s. induction p as [a|e k IH]; simpl; intros s H; [done|].
  intros s1 Hr s2 x Hsem. destruct (H s1 Hr s2 x Hsem). split; [by apply guarantee_of|auto].
Qed.
End rules.
