(* ===== verification/LifecycleFacts.v ===== *)
(** * Every live service keeps the contract of the Trade table

    The rules for reads and writes, each service's program against the contract of
    [Lifecycle], and their parallel composition. *)
From S2P Require Import Prelude Async JsNum JsDate Types Instruments Indicators Orchestrator LiveTypes.
From S2P Require PendingEntry ExitReconciliation PositionMonitor PositionManager.
From S2P Require Import ExitReconciliation EngineMemory LiveExecution LiveStrategy Lifecycle.

(** ** Effects that leave the table alone *)
Lemma neutral_sem i e s s' x : neutral e -> sem i e s s' x -> s' = s.
Proof. destruct e; simpl; try done; try (by intros _ [-> _]); try (by intros _ ->). Qed.

Lemma neutral_guar s : guar0 s s.
Proof. split_and!; [reflexivity|done|by intros id t|done]. Qed.

Lemma lasting_True : lasting (fun _ => True).
Proof. done. Qed.

Lemma lasting_and F F' : lasting F -> lasting F' -> lasting (fun s => F s /\ F' s).
Proof. intros HF HF' s s' [H1 H2] He. split; [by eapply HF|by eapply HF']. Qed.

Lemma lasting_Forall {A} (F : A -> Shared -> Prop) l :
  (forall x, lasting (F x)) -> lasting (fun s => Forall (fun x => F x s) l).
Proof. intros H s s' Hl He. eapply Forall_impl; [exact Hl|]. intros x Hx. exact (H x s s' Hx He). Qed.

(** ** Lasting facts about rows *)
Definition closable (id : string) (s : Shared) : Prop :=
  exists t, tbl s !! id = Some t /\ (status t = OPEN \/ status t = CLOSED).
Definition is_closed (id : string) (s : Shared) : Prop :=
  exists t, tbl s !! id = Some t /\ status t = CLOSED.

Lemma life_from_closed x : rtc life CLOSED x -> x = CLOSED.
Proof. intros H. apply rtc_inv in H as [|(y & H & _)]; [done|inversion H]. Qed.

Lemma life_from_open x : rtc life OPEN x -> x = OPEN \/ x = CLOSED.
Proof.
  intros H. apply rtc_inv in H as [|(y & H & H')]; [auto|]. inversion H; subst.
  right. by apply life_from_closed.
Qed.

Lemma lasting_closable id : lasting (closable id).
Proof.
  intros s s' (t & Ht & Hst) He. destruct (He id t Ht) as (t' & Ht' & E). exists t'. split; [done|].
  pose proof (re_status _ _ E) as Hs. destruct Hst as [H|H]; rewrite H in Hs.
  - by apply life_from_open.
  - right. by apply life_from_closed.
Qed.

Lemma lasting_closed id : lasting (is_closed id).
Proof.
  intros s s' (t & Ht & Hst) He. destruct (He id t Ht) as (t' & Ht' & E). exists t'. split; [done|].
  apply life_from_closed. rewrite <- Hst. apply E.
Qed.

Create HintDb life.
#[export] Hint Resolve lasting_True lasting_and lasting_closable lasting_closed : life.

(** ** Writes *)

(** An update is within the contract at the row it meets. *)
Definition write_ok (p : TradePatch) (t : Trade) : Prop :=
  row_evolves t (patch_row p t) /\ (row_ok t -> row_ok (patch_row p t)) /\ status t <> PENDING.

Lemma alter_guar id p t s :
  tbl s !! id = Some t -> write_ok p t -> guar0 s (set_tbl (alter (patch_row p) id (tbl s)) s).
Proof.
  intros Ht (E & O & P). split_and!.
  - intros id' u Hu. simpl. destruct (decide (id' = id)) as [->|Hne].
    + rewrite lookup_alter_eq, Hu. simplify_eq/=. eauto.
    + rewrite lookup_alter_ne by done. exists u. split; [done|reflexivity].
  - intros Hok id' u. simpl. intros Hu. apply lookup_alter_Some in Hu as [(<- & v & Hv & ->)|[? Hu]].
    + simplify_eq. destruct (Hok _ _ Ht) as [Hid Hr]. split; [by rewrite (re_id _ _ E)|auto].
    + by apply Hok.
  - intros id' u Hu Hp. simpl. rewrite lookup_alter_ne; [done|]. intros ->. by simplify_eq.
  - done.
Qed.

(** *** The patches of the services *)
Definition keeps_status (p : TradePatch) : Prop :=
  p_status p = None /\ p_mt5Ticket p = None /\ p_statusHistory p = None.

Lemma rows_same_history (p : TradePatch) (t : Trade) :
  p_statusHistory p = None -> t_statusHistory (t_data t) `prefix_of` t_statusHistory (t_data (patch_row p t)).
Proof. intros H. simpl. by rewrite H. Qed.

(** Stop, target or management state of a live row. *)
Lemma touch_ok p t :
  keeps_status p -> p_exitReason p = None -> p_pnl p = None -> p_closedAt p = None ->
  status t = OPEN \/ status t = CLOSED -> write_ok p t.
Proof.
  intros (Hs & Hk & Hh) Hx Hp Hc Hst. split_and!.
  - constructor; unfold status, ticket in *; simpl; rewrite ?Hs, ?Hk, ?Hh; simpl; try done.
  - unfold row_ok, status, ticket in *. simpl. rewrite Hs, Hk, Hx, Hp, Hc. simpl. done.
  - destruct Hst; congruence.
Qed.

(** A live row is closed, or closed again. *)
Lemma close_ok p t :
  p_status p = Some CLOSED -> p_mt5Ticket p = None -> p_statusHistory p = None ->
  is_Some (p_closedAt p) -> is_Some (p_exitReason p) ->
  status t = OPEN \/ status t = CLOSED -> write_ok p t.
Proof.
  intros Hs Hk Hh [c Hc] [x Hx] Hst. split_and!.
  - constructor; unfold status, ticket in *; simpl; rewrite ?Hs, ?Hk, ?Hh; simpl; try done.
    destruct Hst as [-> | ->]; [by apply rtc_once, life_close|reflexivity].
  - unfold row_ok, status, ticket in *. simpl. rewrite Hs, Hk, Hx, Hc. simpl.
    destruct Hst as [-> | ->]; intros H; split_and!; try done; apply H.
  - destruct Hst; congruence.
Qed.

(** The record of a closed row is corrected. *)
Lemma correct_ok p t :
  keeps_status p -> is_Some (p_exitReason p) -> status t = CLOSED -> write_ok p t.
Proof.
  intros (Hs & Hk & Hh) [x Hx] Hst. split_and!.
  - constructor; unfold status, ticket in *; simpl; rewrite ?Hs, ?Hk, ?Hh; simpl; try done.
  - unfold row_ok, status, ticket in *. simpl. rewrite Hs, Hk, Hx. simpl. rewrite Hst.
    intros (? & [c Hc] & ?). split_and!; [done| |done]. rewrite Hc. by destruct (p_closedAt p).
  - congruence.
Qed.

(** A new row. *)
Lemma create_guar id now d s :
  tbl s !! id = None -> row_ok {| t_id := id; t_createdAt := now; t_data := d |} ->
  guar0 s (set_tbl (<[id := {| t_id := id; t_createdAt := now; t_data := d |}]> (tbl s)) s).
Proof.
  intros Hid Hok. split_and!.
  - intros id' u Hu. simpl. rewrite lookup_insert_ne by congruence. exists u. split; [done|reflexivity].
  - intros H id' u. simpl. intros Hu. apply lookup_insert_Some in Hu as [[<- <-]|[? Hu]]; [done|by apply H].
  - intros id' u Hu _. simpl. by rewrite lookup_insert_ne by congruence.
  - done.
Qed.

(** The state of a row only depends on its columns. *)
Definition data_ok (d : TradeData) : Prop := row_ok {| t_id := ""; t_createdAt := 0; t_data := d |}.

(** ** Programs that never write the table *)
Create HintDb neutral.

Ltac emits_auto :=
  repeat match goal with
  | |- emits _ (await _ _) => apply emits_await; [|intros ?]
  | |- emits _ (for_each _ _) => apply emits_fold_each; intros ? ? _
  | |- emits _ (fold_each _ _ _) => apply emits_fold_each; intros ? ? _
  | |- emits _ (io _ _) => split; [exact I|intros ?; exact I]
  | |- emits _ (sync _) => split; [exact I|intros ?; exact I]
  | |- emits _ (sync_res _) => split; [exact I|intros ?; exact I]
  | |- emits _ (forget _) => split; [exact I|intros ?; exact I]
  | |- emits _ (resolve _) => exact I
  | |- emits _ (reject _) => exact I
  | |- emits _ (swallow _) => apply emits_bind; [|intros ?; exact I]
  | |- emits _ (settle _) => apply emits_bind; [|intros ?; exact I]
  | |- emits _ (try_catch _ _) => apply emits_bind; [|intros []]
  | |- emits _ (match ?x with _ => _ end) => destruct x
  | |- emits _ (if ?b then _ else _) => destruct b
  | |- emits _ (let '_ := ?x in _) => destruct x
  | |- emits _ (Ret _) => exact I
  | |- context [let '_ := ?x in _] => destruct x
  end; try (by auto with neutral).


Lemma neutral_pushEvent ev : emits neutral (pushEvent ev).
Proof. emits_auto. Qed.
Lemma neutral_markPersistDirty : emits neutral markPersistDirty.
Proof. emits_auto. Qed.
Lemma neutral_record rec : emits neutral (record rec).
Proof. unfold record, insert_batch. emits_auto. Qed.
Lemma neutral_flush : emits neutral flushOrchestratorState.
Proof. unfold flushOrchestratorState. emits_auto. Qed.
Lemma neutral_isTripped cfg : emits neutral (isTripped cfg).
Proof. unfold isTripped. emits_auto. Qed.
Lemma neutral_account_history a tk : emits neutral (account_history a tk).
Proof. unfold account_history. emits_auto. Qed.
#[export] Hint Resolve neutral_pushEvent neutral_markPersistDirty neutral_record neutral_flush
  neutral_isTripped neutral_account_history : neutral.

Lemma neutral_check cfg : emits neutral (check cfg).
Proof. unfold check, checkOnce, getState. emits_auto. Qed.
Lemma neutral_fetchCloseInfo a tk : emits neutral (ExitReconciliation.fetchCloseInfo a tk).
Proof. unfold ExitReconciliation.fetchCloseInfo. emits_auto. Qed.
Lemma neutral_fetch_history a tk : emits neutral (PositionMonitor.fetch_history a tk).
Proof. unfold PositionMonitor.fetch_history. emits_auto. Qed.
Lemma neutral_safety_net : emits neutral PositionMonitor.journal_safety_net.
Proof. unfold PositionMonitor.journal_safety_net. emits_auto. Qed.
Lemma neutral_place_attempts acct body n k : emits neutral (place_attempts acct body n k).
Proof.
  revert k. induction n as [|n IH]; intros k; simpl; (split; [done|]); intros [x|code msg]; simpl; try done;
    destruct (permanent code); try done.
  emits_auto.
Qed.
Lemma neutral_bestEffortClose acct tk : emits neutral (bestEffortClose acct tk).
Proof. unfold bestEffortClose. emits_auto. Qed.
Lemma neutral_fetchCandles sym tf n : emits neutral (fetchCandles sym tf n).
Proof. unfold fetchCandles. emits_auto. Qed.
Lemma neutral_eval_time m15 : emits neutral (eval_time m15).
Proof. unfold eval_time. emits_auto. Qed.
#[export] Hint Resolve neutral_check neutral_fetchCloseInfo neutral_fetch_history neutral_safety_net
  neutral_place_attempts neutral_bestEffortClose neutral_fetchCandles neutral_eval_time : neutral.
Lemma neutral_fetch_all sym : emits neutral (fetch_all sym).
Proof. unfold fetch_all. emits_auto. Qed.
Lemma neutral_push_all evs : emits neutral (push_all evs).
Proof. unfold push_all. emits_auto. Qed.
Lemma neutral_getOrCreate id : emits neutral (getOrCreate id).
Proof. unfold getOrCreate. emits_auto. Qed.
Lemma neutral_skip sig a ts why : emits neutral (skip sig a ts why).
Proof. unfold skip. emits_auto. Qed.
#[export] Hint Resolve neutral_fetch_all neutral_push_all neutral_getOrCreate neutral_skip : neutral.

Section rules.
Context (G : Guarantee).


(** ** Rules *)
Lemma spec_read {A} i L P e (cast : answer e -> Res A) Q :
  neutral e -> lasting P ->
  (forall x s, P s -> sem i e s s x -> match cast x with Ok a => Q a s | Throw _ => True end) ->
  spec G i L P (io e cast) Q.
Proof.
  intros He HP HQ s Hh Hs s1 Hr s2 x Hsem. simpl.
  pose proof (neutral_sem _ _ _ _ _ He Hsem) as ->. split; [apply guarantee_of, neutral_guar|].
  split; [by eapply holds_rely|]. apply HQ; [|done]. eapply HP; [done|apply Hr].
Qed.

Lemma emits_neutral {A} i L F (m : IO A) : emits neutral m -> lasting F -> spec G i L F m (fun _ => F).
Proof.
  intros Hm HF. red. induction m as [r|e k IH]; simpl; intros s Hh Hs.
  - split; [done|]. by destruct r.
  - destruct Hm as [He Hk]. intros s1 Hr s2 x Hsem.
    pose proof (neutral_sem _ _ _ _ _ He Hsem) as ->. split; [apply guarantee_of, neutral_guar|].
    apply IH; [done|by eapply holds_rely|]. eapply HF; [done|apply Hr].
Qed.

Lemma spec_update i L P id p :
  lasting P ->
  (forall s t, P s -> tbl s !! id = Some t -> write_ok p t) ->
  spec G i L P (call (TradeUpdate id p)) (fun _ => P).
Proof.
  intros HP Hw s Hh Hs s1 Hr s2 x Hsem. simpl in Hsem.
  assert (Hs1 : P s1) by (eapply HP; [done|apply Hr]).
  assert (Hh1 : holds i L s1) by (by eapply holds_rely).
  assert (H : G s1 s2 /\ holds i L s2).
  { assert (Hsame : G s1 s1 /\ holds i L s1) by (split; [apply guarantee_of, neutral_guar|done]).
    assert (Happ : is_Some (tbl s1 !! id) /\ s2 = set_tbl (alter (patch_row p) id (tbl s1)) s1 ->
                   G s1 s2 /\ holds i L s2).
    { intros [[t Ht] ->]. split; [|done]. eapply guarantee_of, alter_guar; eauto. }
    destruct x; simpl in Hsem; [auto|]. destruct Hsem as [H| ->]; auto. }
  destruct H as [Hg Hh2]. split; [done|]. simpl. split; [done|].
  destruct x; [|done]. eapply HP; [exact Hs1|by eapply guarantee_evolves].
Qed.

Lemma spec_update_closable i L id p :
  (forall t, status t = OPEN \/ status t = CLOSED -> write_ok p t) ->
  spec G i L (closable id) (call (TradeUpdate id p)) (fun _ _ => True).
Proof.
  intros H. eapply spec_conseq; [| |apply spec_update with (P := closable id)]; auto with life.
  intros s t (u & Hu & Hst) Ht. simplify_eq. auto.
Qed.

Lemma spec_create i L d :
  data_ok d ->
  spec G i L (fun _ => True) (call (TradeCreate d))
    (fun id s => exists t, tbl s !! id = Some t /\ t_data t = d).
Proof.
  intros Hd s Hh _ s1 Hr s2 x Hsem. simpl in Hsem.
  assert (Hh1 : holds i L s1) by (by eapply holds_rely).
  destruct x as [id|e]; simpl.
  - destruct Hsem as (Hid & now & ->). split; [by apply guarantee_of, create_guar|]. split; [done|].
    eexists. simpl. rewrite lookup_insert_eq. done.
  - destruct Hsem as [-> |(id & now & Hid & ->)]; (split; [|split; [done|done]]);
      [apply guarantee_of, neutral_guar|by apply guarantee_of, create_guar].
Qed.

(** A table-neutral prefix of a program. *)
Lemma spec_skip {A B} i L F (m : IO A) (k : A -> IO B) Q :
  emits neutral m -> lasting F -> (forall a, spec G i L F (k a) Q) -> spec G i L F (await m k) Q.
Proof.
  intros Hm HF Hk. eapply spec_await with (R := fun _ => F); [by apply emits_neutral|done].
Qed.

(** Nothing is known after a program that is within the contract. *)
Lemma spec_True {A} i L P (m : IO A) Q : spec G i L P m Q -> spec G i L P m (fun _ _ => True).
Proof. apply spec_conseq; auto. Qed.

(** A program that ends without writing the table. *)
Lemma spec_tail {A} i L P (m : IO A) : emits neutral m -> spec G i L P m (fun _ _ => True).
Proof.
  intros Hm. apply spec_conseq with (P := fun _ => True) (Q := fun _ _ => True); [done|done|].
  by apply emits_neutral.
Qed.
End rules.

(** The steps of a proof about a program that carries a lasting fact. *)
Ltac spec_step :=
  match goal with
  | |- spec _ _ _ _ (await _ _) _ => apply spec_skip; [solve [emits_auto]|by auto with life|intros ?]
  | |- spec _ _ _ _ (resolve _) _ => apply spec_resolve; by auto
  | |- spec _ _ _ _ (reject _) _ => apply spec_reject
  | |- spec _ _ _ _ (match ?x with _ => _ end) _ => destruct x eqn:?
  | |- spec _ _ _ _ (if ?b then _ else _) _ => destruct b eqn:?
  | |- spec _ _ _ _ (let '_ := ?x in _) _ => destruct x
  | |- spec _ _ _ _ _ (fun _ _ => True) => apply spec_tail; solve [emits_auto]
  end.

(** ** Exit reconciliation *)
Section services.
Context (G : Guarantee).

Lemma spec_reconcile_row i L t :
  spec G i L (is_closed (t_id t)) (ExitReconciliation.reconcile_row t) (fun _ _ => True).
Proof.
  unfold ExitReconciliation.reconcile_row. spec_step. spec_step; [|spec_step].
  eapply spec_await with (R := fun _ => is_closed (t_id t)); [|intros; spec_step].
  apply spec_update; [by auto with life|].
  intros s u (v & Hv & Hst) Hu. simplify_eq. by apply correct_ok.
Qed.

Lemma spec_rows {A} i L (F : Trade -> Shared -> Prop) q n (k : list Trade -> IO A) Q :
  (forall t s, tbl s !! t_id t = Some t -> q t = true -> F t s) ->
  (forall l, spec G i L (fun s => Forall (fun t => F t s) l) (k l) Q) ->
  spec G i L (fun _ => True) (await (call (TradeFindMany q n)) k) Q.
Proof.
  intros HF Hk. eapply spec_await; [|exact Hk]. apply spec_read; [done|by auto with life|].
  intros x s _ Hsem. destruct Hsem as [_ Hx]. destruct x as [l|e]; [|done].
  destruct Hx as [_ Hl]. eapply Forall_impl; [exact Hl|]. intros t [? ?]. auto.
Qed.

(** A row of the loop keeps its lasting fact through the turns of the others. *)
Lemma spec_fold_rows {A T} i L (F : A -> Shared -> Prop) (body : T -> A -> IO T) l t0 :
  (forall x, lasting (F x)) ->
  (forall x t, spec G i L (F x) (body t x) (fun _ _ => True)) ->
  spec G i L (fun s => Forall (fun x => F x s) l) (fold_each body l t0) (fun _ _ => True).
Proof.
  intros HF Hb.
  apply spec_conseq with (P := fun s => True /\ Forall (fun x => F x s) l)
    (Q := fun _ s => True /\ Forall (fun x => F x s) l); [by split|done|].
  apply (spec_fold_each G i L (fun s => Forall (fun x => F x s) l) body l t0 (fun _ _ => True));
    [by apply lasting_Forall|].
  intros x t Hx. eapply spec_conseq; [|auto|apply (Hb x t)].
  intros s [_ H]. simpl in *. by apply (proj1 (Forall_forall _ _) H).
Qed.

Lemma spec_exit_sweepOnce i L :
  spec G i L (fun _ => True) ExitReconciliation.sweepOnce (fun _ _ => True).
Proof.
  unfold ExitReconciliation.sweepOnce. spec_step.
  apply spec_rows with (F := fun t => is_closed (t_id t)).
  - intros t s Ht Hq. exists t. split; [done|]. unfold ExitReconciliation.estimated in Hq. bool_hyps.
    by apply bool_decide_eq_true in H.
  - intros l. apply spec_fold_rows; [by auto with life|]. intros t n.
    eapply spec_await with (R := fun _ _ => True); [|intros; spec_step].
    apply spec_try_catch; [apply spec_reconcile_row|intros; spec_step].
Qed.

Lemma stale_guar c n (sel : Trade -> bool) s :
  (forall t, sel t = true -> ExitReconciliation.stale_candidate c t = true) ->
  guar0 s (set_tbl ((fun t => if sel t then patch_row (ExitReconciliation.stale_patch n) t else t)
                       <$> tbl s) s).
Proof.
  intros Hsel.
  assert (Hok : forall t, sel t = true ->
    status t = OPEN /\ write_ok (ExitReconciliation.stale_patch n) t).
  { intros t Ht%Hsel. unfold ExitReconciliation.stale_candidate in Ht. bool_hyps.
    apply bool_decide_eq_true in H. split; [done|]. apply close_ok; by eauto. }
  split_and!.
  - intros id t Ht. simpl. rewrite lookup_fmap, Ht. simpl. eexists. split; [done|].
    destruct (sel t) eqn:E; [|reflexivity]. by apply (Hok t E).
  - intros H id t. simpl. intros (u & <- & Hu)%lookup_fmap_Some. destruct (H _ _ Hu) as [Hid Hr].
    destruct (sel u) eqn:E; [|done]. destruct (Hok u E) as [_ (Ev & Hw & _)].
    split; [by rewrite (re_id _ _ Ev)|auto].
  - intros id t Ht Hp. simpl. rewrite lookup_fmap, Ht. simpl.
    destruct (sel t) eqn:E; [|done]. destruct (Hok t E). congruence.
  - done.
Qed.

Lemma spec_stale i L : spec G i L (fun _ => True) ExitReconciliation.staleSweep (fun _ _ => True).
Proof.
  apply spec_swallow with (Q := fun _ _ => True). unfold ExitReconciliation.staleSweepOnce.
  spec_step. spec_step. intros s Hh _ s1 Hr s2 x Hsem. simpl in Hsem.
  assert (Hh1 : holds i L s1) by (by eapply holds_rely). destruct x; simpl in *.
  - destruct Hsem as (sel & Hsel & ->). split; [by eapply guarantee_of, stale_guar|done].
  - destruct Hsem as [(sel & Hsel & ->)| ->]; (split; [|done]); [by eapply guarantee_of, stale_guar|apply guarantee_of, neutral_guar].
Qed.

(** ** Position monitor *)
Section monitor.
Context (ov : Overrides) (pairs : list string) (fanOut : bool).

Lemma sister_closable c t s :
  tbl s !! t_id t = Some t -> PositionMonitor.sister_of c t = true -> closable (t_id t) s.
Proof.
  intros Ht Hq. exists t. split; [done|]. left. unfold PositionMonitor.sister_of in Hq. bool_hyps.
  repeat match goal with H : bool_decide _ = true |- _ => apply bool_decide_eq_true in H end. done.
Qed.

Lemma spec_sister i L id :
  spec G i L (fun _ => True) (PositionMonitor.maybeTriggerSisterRunnerBe id) (fun _ _ => True).
Proof.
  unfold PositionMonitor.maybeTriggerSisterRunnerBe. spec_step. spec_step; [|spec_step].
  spec_step; [|spec_step].
  eapply spec_await with (R := fun o s => match o with Some t => closable (t_id t) s | None => True end).
  - apply spec_read; [done|by auto with life|]. intros x s _ [_ Hx].
    destruct x as [[u|]|]; try done. destruct Hx. by eapply sister_closable.
  - intros [u|]; [|spec_step]. spec_step; [spec_step|]. spec_step. spec_step; [|spec_step].
    apply spec_update_closable. intros v Hv. by apply touch_ok.
Qed.

Lemma spec_finalize i L t acct :
  spec G i L (closable (t_id t)) (PositionMonitor.finalizeClosedTrade ov t acct) (fun _ _ => True).
Proof.
  apply spec_swallow with (Q := fun _ _ => True). spec_step. spec_step. cbv zeta.
  destruct (PositionMonitor.close_facts _ _) as [[[c p] why] at_] eqn:E.
  eapply spec_await with (R := fun _ _ => True).
  - apply spec_update_closable. intros u Hu. by apply close_ok; eauto.
  - intros _. spec_step. spec_step. spec_step. spec_step; [spec_step|]. spec_step; [|spec_step].
    eapply spec_swallow. apply spec_sister.
Qed.

Lemma open_rows_closable sym acct t s :
  tbl s !! t_id t = Some t -> PositionMonitor.open_rows sym acct t = true -> closable (t_id t) s.
Proof.
  intros Ht Hq. exists t. split; [done|]. left. unfold PositionMonitor.open_rows in Hq. bool_hyps.
  repeat match goal with H : bool_decide _ = true |- _ => apply bool_decide_eq_true in H end. done.
Qed.

Lemma spec_reconcile_one i L tickets acct t :
  spec G i L (closable (t_id t)) (PositionMonitor.reconcile_one ov tickets acct t) (fun _ _ => True).
Proof. unfold PositionMonitor.reconcile_one. spec_step. spec_step; [|spec_step]. apply spec_finalize. Qed.

Lemma spec_reconcilePair i L sym acct :
  spec G i L (fun _ => True) (PositionMonitor.reconcilePair ov sym acct) (fun _ _ => True).
Proof.
  unfold PositionMonitor.reconcilePair. spec_step.
  apply spec_rows with (F := fun t => closable (t_id t)).
  - intros t s. apply open_rows_closable.
  - intros l. apply spec_fold_rows; [by auto with life|]. intros t []. apply spec_reconcile_one.
Qed.

Lemma spec_loop {A} i L (body : A -> IO unit) l :
  (forall x, spec G i L (fun _ => True) (body x) (fun _ _ => True)) ->
  spec G i L (fun _ => True) (for_each body l) (fun _ _ => True).
Proof. intros H. apply (spec_for_each G i L (fun _ => True)); [done|]. intros x _. apply H. Qed.

Lemma spec_reconcileAll i L :
  spec G i L (fun _ => True) (PositionMonitor.reconcileAll ov pairs fanOut) (fun _ _ => True).
Proof.
  unfold PositionMonitor.reconcileAll. eapply spec_await with (R := fun _ _ => True).
  - destruct fanOut.
    + spec_step. apply spec_loop. intros acct. apply spec_loop. intros sym.
      eapply spec_swallow. apply spec_reconcilePair.
    + apply spec_loop. intros sym. eapply spec_swallow. apply spec_reconcilePair.
  - intros _. apply spec_swallow with (Q := fun _ _ => True). apply emits_neutral; [|done].
    auto with neutral.
Qed.
End monitor.

(** ** Position manager *)
Lemma spec_manage_trade i L sym acct positions c spread t :
  spec G i L (closable (t_id t)) (PositionManager.manage_trade sym acct positions c spread t) (fun _ _ => True).
Proof.
  unfold PositionManager.manage_trade. spec_step; [|spec_step]. spec_step; [spec_step|].
  spec_step. spec_step; [|spec_step]. apply spec_update_closable. intros u Hu. by apply touch_ok.
Qed.

Lemma spec_manageSymbol i L sym acct :
  spec G i L (fun _ => True) (PositionManager.manageSymbol sym acct) (fun _ _ => True).
Proof.
  unfold PositionManager.manageSymbol, PositionManager.fetchLatestM15.
  apply spec_rows with (F := fun t => closable (t_id t)); [intros t s; apply open_rows_closable|].
  intros [|t l]; [spec_step|].
  assert (Hl : lasting (fun s => Forall (fun t => closable (t_id t) s) (t :: l)))
    by (apply lasting_Forall; auto with life).
  apply spec_skip; [solve [emits_auto]|done|intros ?].
  apply spec_skip; [solve [emits_auto]|done|intros ?].
  spec_step; [|spec_step]. spec_step; [|spec_step].
  apply spec_fold_rows; [by auto with life|]. intros u []. apply spec_manage_trade.
Qed.

(** ** Order execution *)
Lemma data_open_ok sig leg cid oid sid acct tk n1 n2 :
  data_ok (open_row sig leg cid oid sid acct tk n1 n2).
Proof. unfold data_ok, row_ok. simpl. by eauto. Qed.

Lemma data_audit_ok sig leg cid oid sid tk fill why c n1 n2 n3 :
  data_ok (audit_row sig leg cid oid sid tk fill why c n1 n2 n3).
Proof. unfold data_ok, row_ok. simpl. by eauto. Qed.

Lemma data_limit_ok sig leg cid oid sid acct limit ex r n1 n2 :
  data_ok (limit_row sig leg cid oid sid acct limit ex r n1 n2).
Proof. unfold data_ok, row_ok, status, ticket. simpl. destruct (instant_fill r); simpl; by eauto. Qed.

Lemma spec_audit i L sig leg oid tk fill why :
  spec G i L (fun _ => True) (writeAuditTradeRow sig leg oid tk fill why) (fun _ _ => True).
Proof.
  unfold writeAuditTradeRow, currentSessionId. apply spec_swallow with (Q := fun _ _ => True).
  do 6 spec_step. eapply spec_True, spec_create, data_audit_ok.
Qed.

(** The row of a leg that succeeded can be rolled back. *)
Lemma spec_persist_leg i L sig acct leg oid tk :
  spec G i L (fun _ => True) (persist_leg sig acct leg oid tk) closable.
Proof.
  unfold persist_leg, currentSessionId. do 4 spec_step.
  eapply spec_await; [apply spec_create, data_open_ok|]. intros id.
  apply spec_conseq with (P := closable id) (Q := closable); [|done|].
  - intros s (t & Ht & Hd). exists t. split; [done|]. left. unfold status. by rewrite Hd.
  - spec_step. by apply spec_resolve.
Qed.

Definition placed_ok (o : option (Z * string)) (s : Shared) : Prop :=
  match o with Some p => closable p.2 s | None => True end.

Lemma spec_place_leg i L sig acct leg :
  spec G i L (fun _ => True) (place_leg sig acct leg) placed_ok.
Proof.
  unfold place_leg, placeOrderWithRetry, keep_or_close. spec_step. spec_step. spec_step; [by apply spec_resolve|].
  spec_step. spec_step; [|by apply spec_resolve]. spec_step; [|by apply spec_resolve]. spec_step.
  - spec_step. eapply spec_await; [apply spec_audit|]. intros ?. by apply spec_resolve.
  - eapply spec_await; [apply spec_settle, spec_persist_leg|]. intros r. destruct r as [id|e]; [by apply spec_resolve|].
    spec_step. by apply spec_resolve.
Qed.

Lemma spec_rollback i L acct p :
  spec G i L (closable p.2) (rollback_one acct p) (fun _ _ => True).
Proof.
  unfold rollback_one. spec_step. spec_step. eapply spec_swallow. apply spec_update_closable.
  intros t Ht. by apply close_ok; eauto.
Qed.

Lemma lasting_all_closable (l : list (Z * string)) : lasting (fun s => Forall (fun p => closable p.2 s) l).
Proof. apply lasting_Forall. auto with life. Qed.

Lemma spec_placeOrder i L sig acct :
  spec G i L (fun _ => True) (placeOrder sig acct) (fun _ _ => True).
Proof.
  unfold placeOrder.
  eapply spec_await with (R := fun placed s => Forall (fun p => closable p.2 s) placed).
  - apply spec_conseq with (P := fun s => Forall (fun p : Z * string => closable p.2 s) [] /\ True)
      (Q := fun placed s => Forall (fun p => closable p.2 s) placed /\ True); [by split|by intros ?? [? _]|].
    apply (spec_fold_each G i L (fun _ => True) _ _ _ (fun placed s => Forall (fun p => closable p.2 s) placed));
      [done|].
    intros leg placed _.
    eapply spec_await with (R := fun o s => placed_ok o s /\ Forall (fun p => closable p.2 s) placed).
    + apply spec_conseq with (P := fun s => True /\ Forall (fun p => closable p.2 s) placed)
        (Q := fun o s => placed_ok o s /\ Forall (fun p => closable p.2 s) placed); [by intros ? [? _]|done|].
      apply (spec_frame G i L _ _ _ _ (lasting_all_closable placed)). apply spec_place_leg.
    + intros [p|]; apply spec_resolve; intros s [Hp Hl]; [|done].
      apply Forall_app. split; [done|]. by repeat constructor.
  - intros placed. spec_step; [|by apply spec_resolve].
    eapply spec_await with (R := fun _ _ => True); [|intros; by apply spec_resolve].
    apply spec_fold_rows; [by auto with life|]. intros p []. apply spec_rollback.
Qed.

Lemma spec_limit_leg i L sig acct limit ex leg :
  spec G i L (fun _ => True) (place_limit_leg sig acct limit ex leg) (fun _ _ => True).
Proof.
  unfold place_limit_leg, placeOrderWithRetry. do 3 spec_step. spec_step; [|by apply spec_resolve].
  spec_step; [by apply spec_resolve|].
  eapply spec_await with (R := fun _ _ => True); [|intros; by apply spec_resolve].
  eapply spec_conseq with (P := fun _ => True); [done|by intros; exact I|].
  apply spec_settle with (Q := fun _ _ => True). unfold persist_limit, currentSessionId. do 4 spec_step.
  eapply spec_await; [apply spec_create, data_limit_ok|]. intros. by apply spec_resolve.
Qed.

Lemma spec_retrace i L sig acct ts :
  spec G i L (fun _ => True) (placeRetraceOrderForAccount sig acct ts) (fun _ _ => True).
Proof.
  unfold placeRetraceOrderForAccount. eapply spec_await with (R := fun _ _ => True).
  - apply spec_conseq with (P := fun s => True /\ True) (Q := fun _ s => True /\ True); [done|done|].
    apply (spec_fold_each G i L (fun _ => True) _ _ _ (fun _ _ => True)); [done|]. intros leg n _.
    eapply spec_await with (R := fun _ _ => True); [|intros; by apply spec_resolve].
    apply spec_conseq with (P := fun _ => True) (Q := fun _ _ => True); [done|done|]. apply spec_limit_leg.
  - intros n. spec_step. by apply spec_resolve.
Qed.

(** ** Programs side by side *)
Lemma spec_par {A B} i (ps : list (IO A)) sched (k : list (Res A) -> Res B) :
  (forall p, p ∈ ps -> spec flagless i [] (fun _ => True) p (fun _ _ => True)) ->
  spec G i [] (fun _ => True) (pbind (par_all sched ps) (fun rs => Ret (k rs))) (fun _ _ => True).
Proof.
  intros Hp s _ _. apply safe_bind. apply safe_guar0.
  eapply safe_mono; [|apply (safe_par_all i ps sched s)].
  - intros rs s' _. simpl. split; [by intros l ?%elem_of_nil|]. by destruct (k rs).
  - intros p Hin. eapply safe_mono; [|apply (Hp p Hin s); [by intros l ?%elem_of_nil|done]]. done.
Qed.
End services.

(** ** Live strategy *)
Section strategy.
Context `{TechnicalIndicators} (ov : Overrides) (envRisk : num).
Context (breaker : BreakerConfig) (shared retrace : bool).

Lemma spec_execute (G : Guarantee) i L sig acct ts :
  spec G i L (fun _ => True) (executeSharedSignalForAccount envRisk retrace sig acct ts) (fun _ _ => True).
Proof.
  unfold executeSharedSignalForAccount, placeOrderForAccount.
  destruct (eligible acct (sig_symbol sig)) as [[u preset]|]; [|spec_step].
  do 3 spec_step. spec_step; [spec_step|]. spec_step; [spec_step|]. do 2 spec_step. cbv zeta.
  spec_step; [spec_step|]. spec_step. spec_step; [spec_step|].
  eapply spec_await with (R := fun _ _ => True).
  - destruct (_ && _); [apply spec_retrace|apply spec_placeOrder].
  - intros n. apply spec_tail. emits_auto.
Qed.

Lemma spec_shared (G : Guarantee) i sched sym accounts :
  spec G i [] (fun _ => True) (evaluatePairSharedSignal ov envRisk breaker retrace sched sym accounts)
    (fun _ _ => True).
Proof.
  unfold evaluatePairSharedSignal. spec_step. destruct a as [[m15 h1] d1]. spec_step. spec_step. spec_step.
  apply spec_skip; [unfold singleton_evaluate; emits_auto|done|intros e].
  do 4 spec_step. spec_step; [|spec_step]. spec_step. spec_step; [spec_step|].
  eapply spec_await with (R := fun _ _ => True).
  - apply (spec_par G i _ sched (fun rs => Ok rs)). intros p Hp.
    apply list_elem_of_fmap in Hp as (acct & -> & _).
    apply spec_try_catch; [apply spec_execute|]. intros e'. spec_step.
  - intros rs. apply spec_tail. unfold commit_entry. emits_auto.
Qed.

Lemma spec_evaluatePair (G : Guarantee) i L sym :
  spec G i L (fun _ => True) (evaluatePair ov envRisk sym) (fun _ _ => True).
Proof.
  unfold evaluatePair. spec_step. destruct a as [[m15 h1] d1]. do 4 spec_step.
  apply spec_skip; [unfold singleton_evaluate; emits_auto|done|intros e].
  do 2 spec_step. spec_step; [|spec_step; spec_step].
  eapply spec_await; [apply spec_placeOrder|]. intros n. apply spec_tail. unfold commit_entry. emits_auto.
Qed.

Lemma spec_forAccount (G : Guarantee) i L sym acct emit :
  spec G i L (fun _ => True) (evaluatePairForAccount ov envRisk sym acct emit) (fun _ _ => True).
Proof.
  unfold evaluatePairForAccount, evaluatePairForAccountInternal, placeOrderForAccount.
  destruct (eligible acct sym) as [[u preset]|]; [|spec_step].
  spec_step. destruct a as [[m15 h1] d1]. do 5 spec_step.
  apply spec_skip; [emits_auto|done|intros e]. spec_step. spec_step. spec_step; [|spec_step].
  eapply spec_await; [apply spec_placeOrder|]. intros n. apply spec_tail. emits_auto.
Qed.

Lemma spec_allAccounts (G : Guarantee) i sched sym :
  spec G i [] (fun _ => True)
    (evaluatePairAllAccounts ov envRisk breaker shared retrace sched sym) (fun _ _ => True).
Proof.
  unfold evaluatePairAllAccounts. spec_step. spec_step; [spec_step|]. spec_step; [apply spec_shared|].
  apply (spec_par G i _ sched (fun _ => Ok tt)). intros p Hp.
  apply list_elem_of_fmap in Hp as (acct & -> & _). eapply spec_swallow, spec_forAccount.
Qed.

Lemma spec_candle_stored (G : Guarantee) i pairs fanOut sched payload :
  spec G i [] (fun _ => True)
    (candle_stored ov envRisk breaker shared retrace pairs fanOut sched payload) (fun _ _ => True).
Proof.
  unfold candle_stored, strategy_on_candle. destruct payload as [[tf sym]|]; [|spec_step]. spec_step.
  destruct (negb (String.eqb tf _)); [cbn match; spec_step|]. destruct (negb (bool_decide _)); [cbn match; spec_step|].
  destruct (negb a); [cbn match; spec_step|]. destruct fanOut; apply spec_swallow with (Q := fun _ _ => True); [apply spec_allAccounts|].
  eapply spec_await; [apply spec_evaluatePair|]. intros ?. spec_step.
Qed.

Lemma spec_fireTestTrade (G : Guarantee) i L pairs o :
  spec G i L (fun _ => True) (fireTestTrade pairs o) (fun _ _ => True).
Proof.
  unfold fireTestTrade. spec_step. destruct (negb a); [spec_step|]. destruct (negb (bool_decide _)); [spec_step|].
  apply spec_skip; [auto with neutral|done|intros m15]. destruct (last m15); [|spec_step]. destruct (_ <? _)%nat; [spec_step|].
  spec_step. eapply spec_await; [apply spec_placeOrder|]. intros ?. spec_step.
Qed.
End strategy.

Lemma spec_manageAll (G : Guarantee) i sched sym :
  spec G i [] (fun _ => True) (PositionManager.manageSymbolAllAccounts sched sym) (fun _ _ => True).
Proof.
  unfold PositionManager.manageSymbolAllAccounts. spec_step.
  apply (spec_par G i _ sched (fun _ => Ok tt)). intros p Hp.
  apply list_elem_of_fmap in Hp as (acct & -> & _). eapply spec_swallow, spec_manageSymbol.
Qed.

(** ** Re-entrance flags *)
Lemma flag_guar i l o s :
  owner s l = None \/ owner s l = Some i -> guar i s (set_owner l o s).
Proof.
  intros Hl. split_and!.
  - intros id t Ht. exists t. split; [done|reflexivity].
  - done.
  - by intros _ id t.
  - intros l' j Hj H. simpl. case_decide; [|done]. subst. destruct Hl; congruence.
Qed.

(** A sweep under a re-entrance flag.  The flag is only
    given back by the thread that took it. *)
Lemma spec_locked i l (body : IO unit) :
  spec (thread i) i [l] (fun _ => True) body (fun _ _ => True) ->
  spec (thread i) i [] (fun _ => True)
    (await (get (TryLock l)) (fun free =>
       if free then finally body (perform (Unlock l)) else resolve tt)) (fun _ _ => True).
Proof.
  intros Hb s Hh _. apply safe_await. intros s1 Hr s2 b Hsem. simpl in Hsem.
  destruct (owner s1 l) as [j|] eqn:Hl; destruct Hsem as [-> ->]; simpl.
  - split; [apply guar0_guar, neutral_guar|]. split; [|done]. by intros l' ?%elem_of_nil.
  - split.
    { apply flag_guar. by left. }
    apply safe_bind.
    assert (H2 : holds i [l] (set_owner l (Some i) s1)).
    { intros l' ->%list_elem_of_singleton. simpl. by rewrite decide_True. }
    eapply safe_mono; [|by apply Hb]. intros r s3 [H3 _] s4 Hr4 s5 [] ->.
    assert (Hown : owner s4 l = Some i).
    { apply (holds_rely _ _ _ _ H3 Hr4). by left. }
    split; [apply flag_guar; by right|]. split; [by intros l' ?%elem_of_nil|by destruct r].
Qed.

Lemma spec_exit_sweep i : spec (thread i) i [] (fun _ => True) ExitReconciliation.sweep (fun _ _ => True).
Proof.
  apply spec_locked. eapply spec_await; [apply spec_exit_sweepOnce|]. intros; spec_step.
Qed.


(** ** Pending entry monitor

    The one service that moves parked orders: under the flag, the rows it read stay as
    it read them until it writes them. *)
Definition still_parked (i : nat) (l : list Trade) (s : Shared) : Prop :=
  owner s PendingSweep = Some i /\
  Forall (fun t => tbl s !! t_id t = Some t /\ status t = PENDING) l.

Lemma still_parked_stable i l : stable rely i (still_parked i l).
Proof.
  intros s s' [Ho Hl] (_ & _ & Hk & Hown). split; [by apply Hown|].
  eapply Forall_impl; [exact Hl|]. intros t [Ht Hp]. split; [|done]. by apply Hk.
Qed.

Lemma safe_emits {A} i (m : Prog A) P s :
  emits neutral m -> stable rely i P -> P s ->
  safe sem (fun _ => guar i) rely i m (fun _ s' => P s') s.
Proof.
  intros Hm HP. revert s. induction m as [a|e k IH]; simpl; intros s Hs; [done|].
  destruct Hm as [He Hk]. intros s1 Hr s2 x Hsem.
  pose proof (neutral_sem _ _ _ _ _ He Hsem) as ->. split; [apply guar0_guar, neutral_guar|].
  apply IH; [done|]. by eapply HP.
Qed.

Lemma safe_skip {A B} i (m : IO A) (k : A -> IO B) (P : Shared -> Prop) s :
  emits neutral m -> stable rely i P -> P s ->
  (forall a s', P s' -> safe sem (fun _ => guar i) rely i (k a) (fun _ => P) s') ->
  safe sem (fun _ => guar i) rely i (await m k) (fun _ => P) s.
Proof.
  intros Hm HP Hs Hk. apply safe_await. eapply safe_mono; [|by apply (safe_emits i m P)].
  intros [a|e] s'; simpl; [apply Hk|done].
Qed.

(** A parked order is promoted or cancelled. *)
Lemma fill_ok t pos fill now :
  status t = PENDING ->
  let p := PendingEntry.filled_patch t pos fill now in
  row_evolves t (patch_row p t) /\ (row_ok t -> row_ok (patch_row p t)).
Proof.
  intros Hp. split.
  - constructor; try done; unfold status, ticket in *; simpl; try rewrite Hp; try done.
    + apply rtc_once, life_fill.
    + by apply prefix_app_r.
  - unfold row_ok, status, ticket. simpl. unfold status in Hp. rewrite Hp.
    intros (? & ? & ? & ?). split_and!; eauto.
Qed.

Lemma expire_ok t c now :
  status t = PENDING ->
  let p := PendingEntry.expired_patch t c now in
  row_evolves t (patch_row p t) /\ (row_ok t -> row_ok (patch_row p t)).
Proof.
  intros Hp. split.
  - constructor; try done; unfold status, ticket in *; simpl; try rewrite Hp; try done.
    + apply rtc_once, life_expire.
    + by apply prefix_app_r.
  - unfold row_ok, status, ticket. simpl. unfold status in Hp. rewrite Hp.
    intros (? & ? & ? & ?). split_and!; eauto.
Qed.

(** The holder of the flag writes one of its rows. *)
Lemma safe_parked_update i t l p s :
  NoDup (t_id <$> t :: l) -> still_parked i (t :: l) s ->
  row_evolves t (patch_row p t) -> (row_ok t -> row_ok (patch_row p t)) ->
  safe sem (fun _ => guar i) rely i (call (TradeUpdate (t_id t) p)) (fun _ => still_parked i l) s.
Proof.
  intros Hnd Hs Hev Hok s1 Hr s2 x Hsem.
  destruct (still_parked_stable i _ _ _ Hs Hr) as [Ho [[Ht Hp] Hl]%Forall_cons].
  apply NoDup_cons in Hnd as [Hnin _].
  assert (Hdone : guar i s1 (set_tbl (alter (patch_row p) (t_id t) (tbl s1)) s1) /\
                  still_parked i l (set_tbl (alter (patch_row p) (t_id t) (tbl s1)) s1)).
  { split; [split_and!|split; [done|]].
    - intros id u Hu. simpl. destruct (decide (id = t_id t)) as [->|Hne].
      + rewrite lookup_alter_eq, Hu. simplify_eq/=. eauto.
      + rewrite lookup_alter_ne by done. exists u. split; [done|reflexivity].
    - intros H id u. simpl. intros Hu. apply lookup_alter_Some in Hu as [(<- & v & Hv & ->)|[? Hu]].
      + simplify_eq. destruct (H _ _ Ht) as [Hid Hrow]. split; [by rewrite (re_id _ _ Hev)|auto].
      + by apply H.
    - intros Hn. congruence.
    - done.
    - apply Forall_forall. intros u Hu. pose proof (proj1 (Forall_forall _ _) Hl u Hu) as [Hlk ?].
      split; [|done]. simpl. rewrite lookup_alter_ne; [done|]. intros He. apply Hnin. rewrite He.
      by apply list_elem_of_fmap_2. }
  assert (Hsame : guar i s1 s1 /\ still_parked i l s1).
  { split; [apply guar0_guar, neutral_guar|]. by split. }
  simpl in *. destruct x; simpl in Hsem.
  - destruct Hsem as [_ ->]. exact Hdone.
  - destruct Hsem as [[_ ->]| ->]; [exact Hdone|exact Hsame].
Qed.

Lemma still_parked_tail i t l s : still_parked i (t :: l) s -> still_parked i l s.
Proof. intros [? [_ ?]%Forall_cons]. by split. Qed.

Lemma safe_sweep_row i t l s :
  NoDup (t_id <$> t :: l) -> still_parked i (t :: l) s ->
  safe sem (fun _ => guar i) rely i (PendingEntry.sweep_row t) (fun _ => still_parked i l) s.
Proof.
  intros Hnd Hs. pose proof (still_parked_stable i) as Hst.
  assert (Hrest : forall B (m : IO B) s', emits neutral m -> still_parked i (t :: l) s' ->
    safe sem (fun _ => guar i) rely i m (fun _ => still_parked i l) s').
  { intros B m s' Hm Hs'. apply safe_emits; [done|apply Hst|by eapply still_parked_tail]. }
  assert (Hwrite : forall B p (k : unit -> IO B) s', still_parked i (t :: l) s' ->
    row_evolves t (patch_row p t) /\ (row_ok t -> row_ok (patch_row p t)) ->
    (forall a, emits neutral (k a)) ->
    safe sem (fun _ => guar i) rely i (await (call (TradeUpdate (t_id t) p)) k) (fun _ => still_parked i l) s').
  { intros B p k s' Hs' [? ?] Hk. apply safe_await.
    eapply safe_mono; [|by apply safe_parked_update].
    intros [a|e] s'' Hq; simpl; [|done]. apply safe_emits; [done|apply Hst|done]. }
  assert (Hskip : forall A B (m : IO A) (k : A -> IO B) s', still_parked i (t :: l) s' -> emits neutral m ->
    (forall a s'', still_parked i (t :: l) s'' ->
       safe sem (fun _ => guar i) rely i (k a) (fun _ => still_parked i l) s'') ->
    safe sem (fun _ => guar i) rely i (await m k) (fun _ => still_parked i l) s').
  { intros A B m k s' Hs' Hm Hk. apply safe_await.
    eapply safe_mono; [|by apply (safe_emits i m (still_parked i (t :: l)))].
    intros [a|e] s'' Hq; simpl; [by apply Hk|by eapply still_parked_tail]. }
  assert (Hp : status t = PENDING) by (by destruct Hs as [_ [[_ ?] _]%Forall_cons]).
  unfold PendingEntry.sweep_row. apply Hskip; [done|emits_auto|]. intros st s1 Hs1.
  assert (Hgone : safe sem (fun _ => guar i) rely i
    (if String.eqb (os_status st) "GONE" then
       (closed <~ get Now ;; now <~ get Now ;;
        await! call (TradeUpdate (t_id t) (PendingEntry.expired_patch t closed now)) ;;
        ts <~ get Now ;;
        await! pushExternalEvent (EvLimitExpired (toISOString ts) (trade_symbol t) (t_side (t_data t))
                                    (t_limitPrice (t_data t))) ;;
        resolve (0, 1))%async
     else resolve (0, 0)) (fun _ => still_parked i l) s1).
  { destruct (String.eqb _ _); [|apply Hrest; [done|exact Hs1]].
    apply Hskip; [done|emits_auto|]. intros c s2 Hs2. apply Hskip; [done|emits_auto|]. intros n s3 Hs3.
    apply Hwrite; [done|by apply expire_ok|]. intros _. unfold pushExternalEvent. emits_auto. }
  destruct (String.eqb (os_status st) "FILLED"); [|exact Hgone].
  destruct (PendingEntry.truthy_id (os_positionId st)) as [pos|]; [|exact Hgone].
  apply Hskip; [done|emits_auto|]. intros now s2 Hs2.
  apply Hskip; [done|emits_auto|]. intros fill s3 Hs3.
  apply Hwrite; [done|by apply fill_ok|]. intros _. unfold pushExternalEvent. emits_auto.
Qed.

Lemma safe_pending_loop i l n s :
  NoDup (t_id <$> l) -> still_parked i l s ->
  safe sem (fun _ => guar i) rely i
    (fold_each (fun n t =>
       r <~ try_catch (PendingEntry.sweep_row t) (fun _ => resolve (0, 0)) ;;
       resolve {| PendingEntry.sc_filled := PendingEntry.sc_filled n + r.1;
                  PendingEntry.sc_expired := PendingEntry.sc_expired n + r.2 |})%async l n)
    (fun _ => still_parked i []) s.
Proof.
  revert n s. induction l as [|t l IH]; intros n s Hnd Hs; [done|]. cbn [fold_each].
  apply safe_await. apply safe_await. apply safe_bind.
  eapply safe_mono; [|by apply safe_sweep_row].
  intros [r|e] s' Hs'; simpl; (apply IH; [by apply NoDup_cons in Hnd as [_ ?]|done]).
Qed.

Lemma spec_pending_sweep i :
  spec (thread i) i [] (fun _ => True) PendingEntry.sweep (fun _ _ => True).
Proof.
  apply spec_locked. apply spec_swallow with (Q := fun _ _ => True).
  intros s Hh _. unfold PendingEntry.sweepOnce. apply safe_await. intros s1 Hr s2 x [-> Hx].
  pose proof (holds_rely _ _ _ _ Hh Hr) as Hh1.
  assert (Ho : owner s1 PendingSweep = Some i) by (apply Hh1; left).
  split; [apply guar0_guar, neutral_guar|]. destruct x as [l|e]; simpl; [|by split].
  destruct Hx as [Hnd Hl].
  eapply safe_mono; [|apply (safe_pending_loop i l); [exact Hnd|]].
  - intros r s' [Ho' _]. split; [by intros l' ->%list_elem_of_singleton|]. by destruct r.
  - split; [done|]. eapply Forall_impl; [exact Hl|]. intros t [Ht Hq]. split; [done|].
    unfold PendingEntry.parked in Hq. bool_hyps. by apply bool_decide_eq_true in H.
Qed.
