(* ===== verification/LiveSystem.v ===== *)
(** * The live services together

    Every program the live services start, run side by side on one Trade table: the
    parallel composition of the services and its refinement of the abstract life of a
    trade. *)
From S2P Require Import Prelude Async JsNum JsDate Types Instruments Indicators Orchestrator LiveTypes.
From S2P Require PendingEntry ExitReconciliation PositionMonitor PositionManager.
From S2P Require Import ExitReconciliation EngineMemory LiveExecution LiveStrategy Lifecycle LifecycleFacts.

Section system.
(** The configuration of the process. *)
Context `{TechnicalIndicators} (ov : Overrides) (envRisk : num) (breaker : BreakerConfig).
Context (pairs : list string) (fanOut sharedSignals retraceEntry : bool).

(** A promise nobody looks at any more. *)
Definition as_thread {A} (m : IO A) : Prog (act := Action) (result := answer) unit :=
  pbind m (fun _ => Ret tt).

(** What the crons, the CANDLE_STORED handlers and the operator start. *)
Inductive service : Prog unit -> Prop :=
| sv_pending_entries : service (as_thread PendingEntry.sweep)
| sv_exit_sweep : service (as_thread ExitReconciliation.sweep)
| sv_stale_sweep : service (as_thread ExitReconciliation.staleSweep)
| sv_reconcile : service (as_thread (PositionMonitor.reconcileAll ov pairs fanOut))
| sv_manage sched sym : service (as_thread (PositionManager.manageSymbolAllAccounts sched sym))
| sv_manage_legacy sym : service (as_thread (PositionManager.manageSymbol sym None))
| sv_strategy sched sym :
    service (as_thread (evaluatePairAllAccounts ov envRisk breaker sharedSignals retraceEntry sched sym))
| sv_strategy_legacy sym : service (as_thread (evaluatePair ov envRisk sym))
| sv_breaker : service (as_thread (check breaker))
| sv_breaker_reset : service (as_thread reset)
| sv_persist : service (as_thread flushOrchestratorState)
| sv_persist_accounts : service (as_thread persistAll)
| sv_candle sched payload :
    service (as_thread (candle_stored ov envRisk breaker sharedSignals retraceEntry pairs fanOut sched payload))
| sv_test_trade o : service (as_thread (fireTestTrade pairs o))
| sv_start liveMode : service (as_thread (onModuleInit envRisk liveMode))
| sv_stop : service (as_thread onModuleDestroy)
| sv_prune : service (as_thread prune).

(** A program checked against its own thread's guarantee. *)
Lemma safe_own {A} i (p : Prog A) Q s :
  safe sem (fun _ => thread i) rely i p Q s -> safe sem guar rely i p Q s.
Proof.
  revert s. induction p as [a|e k IH]; simpl; intros s Hp; [done|].
  intros s1 Hr s2 x Hs. destruct (Hp s1 Hr s2 x Hs). auto.
Qed.

Lemma thread_safe {A} i (m : IO A) s :
  spec (thread i) i [] (fun _ => True) m (fun _ _ => True) ->
  safe sem guar rely i (as_thread m) anything s.
Proof.
  intros H0. apply safe_own, safe_bind. eapply safe_mono; [|apply (H0 s); [by intros l ?%elem_of_nil|done]]. done.
Qed.

Lemma service_safe i p s : service p -> safe sem guar rely i p anything s.
Proof.
  destruct 1; apply thread_safe.
  - apply spec_pending_sweep.
  - apply spec_exit_sweep.
  - apply spec_stale.
  - apply spec_reconcileAll.
  - apply spec_manageAll.
  - apply spec_manageSymbol.
  - apply spec_allAccounts.
  - apply spec_evaluatePair.
  - apply spec_tail. auto with neutral.
  - apply spec_tail. unfold reset. emits_auto.
  - apply spec_tail. auto with neutral.
  - apply spec_tail. unfold persistAll. emits_auto.
  - apply spec_candle_stored.
  - apply spec_fireTestTrade.
  - apply spec_tail. unfold onModuleInit, seed_risk, restore_state, restore_telemetry. emits_auto.
  - apply spec_tail. unfold onModuleDestroy. emits_auto.
  - apply spec_tail. unfold prune. emits_auto.
Qed.

(** ** The running system *)
Definition Process : Type := Pool (act := Action) (result := answer) (S := Shared).
Definition step : Process -> Process -> Prop := pstep sem service.
Definition boot (s : Shared) : Process := {| shared := s; threads := [] |}.

Lemma reachable_guar s c : rtc step (boot s) c ->
  rtc (fun s s' => exists i, guar i s s') s (shared c).
Proof.
  intros Hc.
  destruct (pool_safe sem guar rely service guar_rely service_safe _ _ Hc) as [_ Hr]; [|exact Hr].
  intros i p Hp. by destruct i.
Qed.

Lemma reachable_evolves s c : rtc step (boot s) c -> evolves s (shared c).
Proof.
  intros Hr%reachable_guar. induction Hr as [|s s1 s2 [i Hg] _ IH]; [reflexivity|].
  etrans; [apply Hg|done].
Qed.

(** ** The abstract table: the status of every trade *)
Inductive abs_step : gmap string TradeStatus -> gmap string TradeStatus -> Prop :=
| abs_born m id st : m !! id = None -> abs_step m (<[id := st]> m)
| abs_move m id a b : m !! id = Some a -> life a b -> abs_step m (<[id := b]> m).

Definition abs (s : Shared) : gmap string TradeStatus := status <$> tbl s.

Lemma abs_step_frame m m' k a : abs_step m m' -> m' !! k = None -> abs_step (<[k := a]> m) (<[k := a]> m').
Proof.
  intros [m0 id st Hid|m0 id x y Hid Hl] Hk;
    (destruct (decide (k = id)) as [->|Hne]; [by rewrite lookup_insert_eq in Hk|]);
    rewrite insert_insert_ne by congruence.
  - apply abs_born. by rewrite lookup_insert_ne.
  - eapply abs_move; [by rewrite lookup_insert_ne|done].
Qed.

Lemma abs_step_keys m m' k : abs_step m m' -> m' !! k = None -> m !! k = None.
Proof.
  intros [m0 id st Hid|m0 id x y Hid Hl] Hk;
    (destruct (decide (id = k)) as [->|Hne]; [by rewrite lookup_insert_eq in Hk|]);
    by rewrite lookup_insert_ne in Hk.
Qed.

Lemma abs_steps_frame m m' k a :
  rtc abs_step m m' -> m' !! k = None -> m !! k = None /\ rtc abs_step (<[k := a]> m) (<[k := a]> m').
Proof.
  induction 1 as [m|m m1 m2 Hs _ IH]; intros Hk; [by split|]. destruct (IH Hk) as [Hk1 Hr].
  split; [by eapply abs_step_keys|]. eapply rtc_l; [|exact Hr]. by apply abs_step_frame.
Qed.

Lemma abs_steps_move m k a b : rtc life a b -> m !! k = None -> rtc abs_step (<[k := a]> m) (<[k := b]> m).
Proof.
  intros Hl Hk. induction Hl as [a|a a1 b Hs _ IH]; [done|]. eapply rtc_l; [|exact IH].
  replace (<[k := a1]> m) with (<[k := a1]> (<[k := a]> m)) by apply insert_insert_eq. eapply abs_move; [by rewrite lookup_insert_eq|done].
Qed.

(** Every row moved along the life cycle, and rows were only added. *)
Lemma abs_steps_pointwise m m' :
  (forall id a, m !! id = Some a -> exists b, m' !! id = Some b /\ rtc life a b) -> rtc abs_step m m'.
Proof.
  revert m. induction m' as [|k b m' Hk IH] using map_ind; intros m Hm.
  - replace m with (∅ : gmap string TradeStatus); [done|]. apply map_eq. intros id. rewrite lookup_empty.
    destruct (m !! id) eqn:E; [|done]. destruct (Hm _ _ E) as (b & Hb & _). by rewrite lookup_empty in Hb.
  - destruct (m !! k) as [a|] eqn:E.
    + destruct (Hm _ _ E) as (b' & Hb & Hl). rewrite lookup_insert_eq in Hb. simplify_eq.
      assert (Hd : rtc abs_step (delete k m) m').
      { apply IH. intros id x Hx. apply lookup_delete_Some in Hx as [Hne Hx].
        destruct (Hm _ _ Hx) as (y & Hy & Hxy). rewrite lookup_insert_ne in Hy by done. eauto. }
      destruct (abs_steps_frame _ _ k a Hd Hk) as [_ Hr]. rewrite insert_delete_eq in Hr.
      rewrite insert_id in Hr by done. etrans; [exact Hr|]. by apply abs_steps_move.
    + eapply rtc_r; [apply IH|by apply abs_born]. intros id x Hx.
      destruct (decide (id = k)) as [->|Hne]; [congruence|].
      destruct (Hm _ _ Hx) as (y & Hy & Hxy). rewrite lookup_insert_ne in Hy by done. eauto.
Qed.

(** C2: Refinement. Whatever the broker, the database and the scheduler do, a run of the
    live services side by side is, seen through the statuses of the Trade table, a run of
    the abstract life of a trade: rows are born and never deleted, and a status only moves
    PENDING to OPEN, PENDING to CANCELLED or OPEN to CLOSED. *)
Theorem services_refine_life s c :
  rtc step (boot s) c -> rtc abs_step (abs s) (abs (shared c)).
Proof.
  intros He%reachable_evolves. apply abs_steps_pointwise. unfold abs. intros id a Ha.
  rewrite lookup_fmap in Ha. destruct (tbl s !! id) as [t|] eqn:Ht; [|done]. simplify_eq/=.
  destruct (He id t Ht) as (t' & Ht' & E). exists (status t'). rewrite lookup_fmap, Ht'.
  split; [done|apply E].
Qed.

(** C5: Invariant of the Trade table under concurrency. In every state the live services
    can reach, an OPEN or CLOSED row carries a broker ticket, a CLOSED or CANCELLED row
    its closing time and reason, an unfilled order no profit; and a row that existed at
    the start is still there with the same identity, account, lot, original stop, ticket
    (once out of PENDING) and a history that extends the old one. *)
Theorem trade_table_invariant s c :
  rtc step (boot s) c -> table_ok s -> table_ok (shared c) /\ evolves s (shared c).
Proof.
  intros Hc Hs. split; [|by apply reachable_evolves]. apply reachable_guar in Hc.
  induction Hc as [|s s1 s2 [i Hg] _ IH]; [done|]. apply IH. by apply Hg.
Qed.
End system.
