(* ===== verification/LiveLab.v ===== *)
(** * An executable environment for the live services

    One concrete way the database, Redis, the broker and the clock may answer, so that
    the programs of the live services run inside Rocq: a table that answers truthfully, a
    Redis that always answers, a clock that advances by a fixed tick at each reading.
    What the broker says is a parameter.  [handle_sem] shows that it is one of the
    behaviours the concurrent theorems allow. *)
From S2P Require Import Prelude Async JsNum JsDate Types Orchestrator LiveTypes.
From S2P Require Import ExitReconciliation EngineMemory LiveExecution LiveStrategy Lifecycle LifecycleFacts.

Record Lab := {
  lab_tick : Z;
  lab_accounts : list BrokerAccount;
  lab_admins : list string;
  lab_candles : string -> string -> nat -> list BacktestCandle;
  lab_positions : option string -> option string -> Res (list BrokerPosition);
  lab_place : option string -> OrderBody -> Z -> HttpRes OrderReply;
  lab_modify : option string -> Z -> num -> num -> Res unit;
  lab_close : option string -> Z -> Res unit;
  lab_order_status : string -> string -> string -> Res OrderStatus;
  lab_history : option string -> Z -> Res (option PositionHistory);
  lab_account : option string -> Res AccountInfo;
  lab_equities : list num }.

Record World := {
  w_clock : Z;
  w_table : Shared;
  w_next : positive;
  w_mem : Mem;
  w_breaker : option BreakerState;
  w_state : gmap string StoredText }.

Definition with_clock (t : Z) (w : World) : World := {|
  w_clock := t; w_table := w_table w; w_next := w_next w; w_mem := w_mem w;
  w_breaker := w_breaker w; w_state := w_state w |}.
Definition with_table (s : Shared) (w : World) : World := {|
  w_clock := w_clock w; w_table := s; w_next := w_next w; w_mem := w_mem w;
  w_breaker := w_breaker w; w_state := w_state w |}.
Definition with_next (n : positive) (w : World) : World := {|
  w_clock := w_clock w; w_table := w_table w; w_next := n; w_mem := w_mem w;
  w_breaker := w_breaker w; w_state := w_state w |}.
Definition with_mem (m : Mem) (w : World) : World := {|
  w_clock := w_clock w; w_table := w_table w; w_next := w_next w; w_mem := m;
  w_breaker := w_breaker w; w_state := w_state w |}.
Definition with_redis (b : option BreakerState) (s : gmap string StoredText) (w : World) : World := {|
  w_clock := w_clock w; w_table := w_table w; w_next := w_next w; w_mem := w_mem w;
  w_breaker := b; w_state := s |}.

(** The rows a query selects. *)
Definition rows_where (q : Trade -> bool) (s : Shared) : list Trade :=
  List.filter q ((map_to_list (tbl s)).*2).
Definition taking (n : option nat) (l : list Trade) : list Trade :=
  match n with Some k => take k l | None => l end.

Section lab.
Context (i : nat) (lab : Lab).

Definition handle (e : Action) (w : World) : World * answer e :=
  match e return World * answer e with
  | Now => (with_clock (w_clock w + lab_tick lab) w, w_clock w)
  | RandomUUID | RandomSuffix => (with_next (Pos.succ (w_next w)) w, ("id-" +:+ dec_string (Zpos (w_next w)))%string)
  | Sleep ms => (with_clock (w_clock w + ms) w, tt)
  | TradeFindMany q n => (w, Ok (taking n (rows_where q (w_table w))))
  | TradeFindFirst q => (w, Ok (head (rows_where q (w_table w))))
  | TradeCount q => (w, Ok (zlen (rows_where q (w_table w))))
  | TradeSumPnl q =>
      let l := omap (fun t => t_pnl (t_data t)) (rows_where q (w_table w)) in
      (w, Ok (match l with [] => None | _ => Some (nsum (of_Z 0) l) end))
  | TradeUpdate id p =>
      match tbl (w_table w) !! id with
      | Some _ => (with_table (set_tbl (alter (patch_row p) id (tbl (w_table w))) (w_table w)) w, Ok tt)
      | None => (w, Throw "Record to update not found")
      end
  | TradeCreate d =>
      let id := ("id-" +:+ dec_string (Zpos (w_next w)))%string in
      match tbl (w_table w) !! id with
      | None => (with_next (Pos.succ (w_next w))
                  (with_table (set_tbl (<[id := {| t_id := id; t_createdAt := w_clock w; t_data := d |}]>
                                         (tbl (w_table w))) (w_table w)) w), Ok id)
      | Some _ => (w, Throw "Unique constraint failed")
      end
  | CandidateCreate _ => (with_next (Pos.succ (w_next w)) w, Ok ("id-" +:+ dec_string (Zpos (w_next w)))%string)
  | CandleFindMany sym tf n => (w, Ok (lab_candles lab sym tf n))
  | TradeUpdateManyStale q _ p =>
      (with_table (set_tbl ((fun t => if q t then patch_row p t else t) <$> tbl (w_table w)) (w_table w)) w,
       Ok (zlen (rows_where q (w_table w))))
  | LatestEquities => (w, Ok (lab_equities lab))
  | SuperAdminEmails => (w, Ok (lab_admins lab))
  | ClosedWithoutJournal => (w, Ok [])
  | EnabledAccounts => (w, Ok (lab_accounts lab))
  | DecisionCreateMany _ => (w, Ok tt)
  | DecisionDeleteBefore _ => (w, Ok 0%Z)
  | BrokerPositions a s => (w, lab_positions lab a s)
  | BrokerPlaceOrder a b => (with_next (Pos.succ (w_next w)) w, lab_place lab a b (Zpos (w_next w)))
  | BrokerModify a tk sl tp => (w, lab_modify lab a tk sl tp)
  | BrokerClose a tk => (w, lab_close lab a tk)
  | BrokerOrderStatus a o s => (w, lab_order_status lab a o s)
  | BrokerHistory a tk => (w, lab_history lab a tk)
  | BrokerAccountInfo a => (w, lab_account lab a)
  | BrokerCandles sym tf n => (w, Ok (lab_candles lab sym tf n))
  | BreakerGet => (w, Ok (w_breaker w))
  | BreakerSet s => (with_redis (Some s) (w_state w) w, Ok tt)
  | BreakerDel => (with_redis None (w_state w) w, Ok tt)
  | StateGet key => (w, Ok (w_state w !! key))
  | StateSet key s => (with_redis (w_breaker w) (<[key := s]> (w_state w)) w, Ok tt)
  | FeedGet => (w, Ok None)
  | FeedSet _ | SubscribeCandles | Publish _ _ _ | JournalEnrich _ | JournalCreate _ _ | MailAlert _ _ _ | MailTradeOpened _ _ => (w, Ok tt)
  | TryLock l =>
      match owner (w_table w) l with
      | None => (with_table (set_owner l (Some i) (w_table w)) w, true)
      | Some _ => (w, false)
      end
  | Unlock l => (with_table (set_owner l None (w_table w)) w, tt)
  | AwaitCreation _ => (w, tt)
  | Sync X f => let '(m, x) := f (w_mem w) in (with_mem m w, x)
  end.

(** Ids and keys agree, as the database's primary key makes them. *)
Definition keyed (s : Shared) : Prop := forall id t, tbl s !! id = Some t -> t_id t = id.

Lemma rows_where_spec q s t : keyed s -> t ∈ rows_where q s <-> tbl s !! t_id t = Some t /\ q t = true.
Proof.
  intros Hk. unfold rows_where. rewrite list_elem_of_In, List.filter_In, <- list_elem_of_In.
  split.
  - intros [Ht Hq]. split; [|done]. apply list_elem_of_fmap in Ht as ([id t'] & -> & Ht).
    apply elem_of_map_to_list in Ht. simpl. by rewrite (Hk _ _ Ht).
  - intros [Ht Hq]. split; [|done]. apply list_elem_of_fmap. exists (t_id t, t). split; [done|].
    by apply elem_of_map_to_list.
Qed.

Lemma rows_where_ids q s : keyed s -> NoDup (t_id <$> rows_where q s).
Proof.
  intros Hk. unfold rows_where.
  assert (Hids : t_id <$> (map_to_list (tbl s)).*2 = (map_to_list (tbl s)).*1).
  { rewrite <- list_fmap_compose. apply list_fmap_ext. intros j [id t] Hj. simpl. apply Hk.
    apply elem_of_map_to_list. by eapply list_elem_of_lookup_2. }
  pose proof (NoDup_fst_map_to_list (tbl s)) as Hn. rewrite <- Hids in Hn. clear Hids. revert Hn.
  induction ((map_to_list (tbl s)).*2) as [|t l IH]; simpl; [done|]. rewrite NoDup_cons. intros [Ht Hl].
  destruct (q t); [|auto]. simpl. apply NoDup_cons. split; [|auto]. intros Hin. apply Ht.
  apply list_elem_of_fmap in Hin as (u & E & Hu). apply list_elem_of_fmap. exists u. split; [done|].
  apply list_elem_of_In in Hu. apply List.filter_In in Hu as [Hu _]. by apply list_elem_of_In.
Qed.

Lemma handle_keyed e w : keyed (w_table w) -> keyed (w_table (handle e w).1).
Proof.
  intros Hk. destruct e; simpl; try done.
  - destruct (tbl (w_table w) !! id) as [row|] eqn:E; simpl; [|done]. intros id' t Ht. simpl in Ht.
    apply lookup_alter_Some in Ht as [(<- & u & Hu & ->)|[? Hu]]; [by apply (Hk _ u)|by apply Hk].
  - case_match; simpl; [done|]. intros id t Ht. simpl in Ht.
    apply lookup_insert_Some in Ht as [[<- <-]|[? Ht]]; [done|by apply Hk].
  - intros id t Ht. simpl in Ht. rewrite lookup_fmap in Ht. apply fmap_Some in Ht as (u & Hu & ->).
    destruct (where_ u); by apply (Hk _ u).
  - case_match; done.
  - by destruct (f (w_mem w)).
Qed.

(** The environment is one of the behaviours of [sem]. *)
Lemma handle_sem e w : keyed (w_table w) ->
  sem i e (w_table w) (w_table (handle e w).1) (handle e w).2.
Proof.
  intros Hk. destruct e; simpl; try done.
  - split; [done|]. split.
    + unfold taking. destruct take; [|by apply rows_where_ids]. rewrite fmap_take.
      eapply sublist_NoDup; [by apply rows_where_ids|apply sublist_take].
    + unfold taking. destruct take; [apply Forall_take|]; apply Forall_forall; intros t; by apply rows_where_spec.
  - split; [done|]. destruct (rows_where where_ (w_table w)) as [|t l] eqn:E; simpl; [done|].
    apply rows_where_spec; [done|]. rewrite E. left.
  - destruct (tbl (w_table w) !! id) eqn:E; simpl; [eauto|by right].
  - destruct (tbl (w_table w) !! _) eqn:E; simpl; [by left|eauto].
  - exists where_. split; [done|]. done.
  - destruct (owner (w_table w) l); done.
  - by destruct (f (w_mem w)).
Qed.

(** A program executed here, alone, is a run of its thread in the pool. *)
Lemma execute_reaches entry (p : Prog (act := Action) (result := answer) unit) w ts :
  keyed (w_table w) -> ts !! i = Some p ->
  exists ts', rtc (pstep sem entry) {| shared := w_table w; threads := ts |}
                  {| shared := w_table (execute handle p w).1; threads := ts' |}.
Proof.
  revert w ts. induction p as [a|e k IH]; simpl; intros w ts Hk Hi; [exists ts; constructor|].
  pose proof (handle_sem e w Hk) as Hs. pose proof (handle_keyed e w Hk) as Hk'.
  destruct (handle e w) as [w' x]. simpl in *.
  destruct (IH x w' _ Hk' (list_lookup_insert_eq ts i (k x) (lookup_lt_Some _ _ _ Hi))) as [ts' Hr].
  exists ts'. eapply rtc_l; [by apply pstep_run|exact Hr].
Qed.
End lab.
