(* ===== verification/ExecutionFacts.v ===== *)
(** * Order execution: what a finished run has done

    Theorems about the traces of LiveExecution: the retry discipline, the account given
    of every fill the broker granted, all legs or none. *)
From S2P Require Import Prelude Async JsNum JsDate Types Orchestrator LiveTypes.
From S2P Require Import ExitReconciliation EngineMemory LiveExecution LiveStrategy Lifecycle LifecycleFacts.

Abbreviation Trace := (list (Event (act := Action) (result := answer))).

(** ** Reading a trace *)

(** The order requests: account and body, and the answer. *)
Definition Order : Type := option string * OrderBody * HttpRes OrderReply.
Definition order_reply (ev : Event) : option Order :=
  match ev with
  | {| ev_act := e; ev_res := x |} =>
      match e return answer e -> option Order with
      | BrokerPlaceOrder a body => fun r => Some ((a, body), r)
      | _ => fun _ => None
      end x
  end.

(** The tickets the broker granted, in order. *)
Definition reply_ticket (r : Order) : option Z :=
  match r.2 with HttpOk o => granted o | HttpErr _ _ => None end.
Definition orders (tr : Trace) : list Order := omap order_reply tr.
Definition granted_tickets (tr : Trace) : list Z := omap reply_ticket (orders tr).

Definition close_requested (acct : option string) (tk : Z) (tr : Trace) : Prop :=
  BrokerClose acct tk ∈ ev_act <$> tr.

(** An OPEN row with this ticket was created under this id. *)
Definition open_row_written (acct : option string) (p : Z * string) (tr : Trace) : Prop :=
  exists d, {| ev_act := TradeCreate d; ev_res := Ok p.2 : answer (TradeCreate d) |} ∈ tr /\
            t_mt5Ticket d = Some p.1 /\ t_status d = OPEN /\ t_accountId d = acct.

Definition quiet (e : Action) : Prop := match e with BrokerPlaceOrder _ _ => False | _ => True end.

Lemma orders_app tr tr' : orders (tr ++ tr') = orders tr ++ orders tr'.
Proof. apply omap_app. Qed.

Lemma granted_app tr tr' : granted_tickets (tr ++ tr') = granted_tickets tr ++ granted_tickets tr'.
Proof. unfold granted_tickets. by rewrite orders_app, omap_app. Qed.

Lemma quiet_orders tr : Forall (fun ev => quiet (ev_act ev)) tr -> orders tr = [].
Proof.
  unfold orders. induction 1 as [|[e x] tr He _ IH]; [done|]. by destruct e.
Qed.

Lemma quiet_granted tr : Forall (fun ev => quiet (ev_act ev)) tr -> granted_tickets tr = [].
Proof. intros H. unfold granted_tickets. by rewrite quiet_orders. Qed.

Lemma close_requested_app acct z tr tr' :
  close_requested acct z (tr ++ tr') <-> close_requested acct z tr \/ close_requested acct z tr'.
Proof. unfold close_requested. by rewrite fmap_app, elem_of_app. Qed.

Lemma open_row_written_app acct p tr tr' :
  open_row_written acct p tr \/ open_row_written acct p tr' -> open_row_written acct p (tr ++ tr').
Proof. intros [(d & H & E)|(d & H & E)]; exists d; split; try done; apply elem_of_app; auto. Qed.

Lemma granted_positive o z : granted o = Some z -> 0 < z.
Proof. unfold granted. destruct (or_mt5Ticket o) as [k|]; [|done]. case_match; [done|]. intros. simplify_eq. lia. Qed.

(** ** Retries *)

(** Attempts at an order: all but the last failed, none of those for good; the outcome
    is that of the last. *)
Definition attempts_ok (sent : option string * OrderBody) (budget : nat) (l : list Order)
    (r : Res OrderReply) : Prop :=
  exists pre final, l = pre ++ [final] /\ (length l <= budget)%nat /\
    Forall (fun p => p.1 = sent) l /\
    Forall (fun p => match p.2 with HttpErr c _ => permanent c = false | HttpOk _ => False end) pre /\
    match final.2, r with
    | HttpOk o, Ok o' => o = o'
    | HttpErr c e, Throw e' => e = e' /\ (permanent c = true \/ length l = budget)
    | _, _ => False
    end.

Lemma place_attempts_spec acct body left k :
  wp (place_attempts acct body left k) (fun tr r => attempts_ok (acct, body) (S left) (orders tr) r).
Proof.
  revert k. induction left as [|left IH]; intros k; cbn [place_attempts pbind perform wp];
    intros [o|c msg]; cbn.
  1,3: eexists [], _; split_and!; [done|cbn; lia|by repeat constructor|constructor|reflexivity].
  - destruct (permanent c) eqn:Hc; cbn; eexists [], _;
      (split_and!; [done|cbn; lia|by repeat constructor|constructor|cbn; auto]).
  - destruct (permanent c) eqn:Hc; cbn; [eexists [], _; split_and!; [done|cbn; lia|by repeat constructor|constructor|cbn; auto]|].
    intros _. eapply wp_mono; [|apply IH]. intros tr r (pre & final & E & Hl & Hb & Hp & Hf).
    exists ((acct, body, HttpErr c msg) :: pre), final.
    change (omap order_reply tr) with (orders tr). rewrite E in *. split_and!; [reflexivity|cbn in *; lia| | |].
    + by constructor.
    + by constructor.
    + destruct (final.2), r; cbn in *; try done. destruct Hf as [-> [?|?]]; auto.
Qed.

(** ** One market leg *)

(** One effect and what follows it. *)
Lemma wp_call {A B} (e : Action) (cast : answer e -> Res A) (k : A -> IO B) (Q : Trace -> Res B -> Prop) :
  (forall x, match cast x with
             | Ok a => wp (k a) (fun tr r => Q ({| ev_act := e; ev_res := x |} :: tr) r)
             | Throw err => Q [{| ev_act := e; ev_res := x |}] (Throw err)
             end) -> wp (await (io e cast) k) Q.
Proof. intros H x. specialize (H x). simpl. by destruct (cast x). Qed.

Lemma wp_quiet {A} (m : IO A) Q :
  emits quiet m -> wp m (fun tr r => granted_tickets tr = [] -> orders tr = [] -> Q tr r) -> wp m Q.
Proof.
  intros He H. eapply wp_mono; [|apply wp_conj; [exact H|by apply wp_emits]].
  intros tr r [HQ Ht]. apply HQ; [by apply quiet_granted|by apply quiet_orders].
Qed.

Lemma quiet_close acct tk : emits quiet (bestEffortClose acct tk).
Proof. unfold bestEffortClose. emits_auto. Qed.
Lemma quiet_persist_leg sig acct leg oid tk : emits quiet (persist_leg sig acct leg oid tk).
Proof. unfold persist_leg, currentSessionId. emits_auto. Qed.
Lemma quiet_rollback acct p : emits quiet (rollback_one acct p).
Proof. unfold rollback_one. pose proof quiet_close. emits_auto. Qed.

(** The compensating close asks the broker, whatever it answers. *)
Lemma bestEffortClose_asks acct tk :
  0 < tk -> wp (bestEffortClose acct tk) (fun tr r => r = Ok tt /\ close_requested acct tk tr /\ orders tr = []).
Proof.
  intros Hpos. unfold bestEffortClose. rewrite (proj2 (Z.eqb_neq tk 0)) by lia.
  apply wp_swallow. cbn. intros r. split_and!; [done| |done]. unfold close_requested. cbn. left.
Qed.

Lemma persist_leg_writes sig acct leg oid tk :
  wp (persist_leg sig acct leg oid tk) (fun tr r =>
    orders tr = [] /\ match r with Ok id => open_row_written acct (tk, id) tr | Throw _ => True end).
Proof.
  apply wp_quiet; [apply quiet_persist_leg|]. unfold persist_leg. cbn.
  intros [cid|e]; cbn; [|done]. intros sid n1 n2 [id|e]; cbn; [|done]. intros [[]|e]; cbn; [|done].
  intros _ _. split; [done|]. eexists. split; [do 4 right; left|done].
Qed.

(** What a turn of the loop leaves behind. *)
Definition leg_outcome (sig : SmcLiveSignal) (acct : option string) (leg : SmcLiveSignalLeg)
    (tr : Trace) (r : Res (option (Z * string))) : Prop :=
  (length (orders tr) <= 3)%nat /\ Forall (fun p => p.1 = (acct, market_body sig leg)) (orders tr) /\
  match r with
  | Ok (Some p) => granted_tickets tr = [p.1] /\ 0 < p.1 /\ open_row_written acct p tr
  | Ok None => Forall (fun z => close_requested acct z tr) (granted_tickets tr)
  | Throw _ => granted_tickets tr = []
  end.

Lemma place_attempts_orders acct body :
  wp (placeOrderWithRetry acct body) (fun tr r =>
    (length (orders tr) <= 3)%nat /\ Forall (fun p => p.1 = (acct, body)) (orders tr) /\
    granted_tickets tr = match r with Ok o => option_list (granted o) | Throw _ => [] end).
Proof.
  eapply wp_mono; [|apply place_attempts_spec]. intros tr r (pre & final & E & Hl & Hb & Hp & Hf).
  split_and!; [done|done|]. unfold granted_tickets. rewrite E, omap_app.
  assert (Hpre : omap reply_ticket pre = []).
  { clear -Hp. induction Hp as [|[b [o|c e]] l H _ IH]; done. }
  rewrite Hpre. destruct final as [b [o|c e]], r as [o'|e']; simpl in Hf; try done.
  subst o'. unfold omap, list_omap, reply_ticket. simpl. by destruct (granted o).
Qed.

Lemma close_requested_l acct tr tr' l :
  Forall (fun z => close_requested acct z tr) l -> Forall (fun z => close_requested acct z (tr ++ tr')) l.
Proof. intros H. eapply Forall_impl; [exact H|]. intros z ?. apply close_requested_app. auto. Qed.
Lemma close_requested_r acct tr tr' l :
  Forall (fun z => close_requested acct z tr') l -> Forall (fun z => close_requested acct z (tr ++ tr')) l.
Proof. intros H. eapply Forall_impl; [exact H|]. intros z ?. apply close_requested_app. auto. Qed.

(** Either the row is written or the ticket is given back. *)
Lemma keep_or_close_outcome sig acct leg cid order tk :
  0 < tk -> wp (keep_or_close sig acct leg cid order tk) (fun tr r => orders tr = [] /\
    match r with
    | Ok (Some p) => p.1 = tk /\ open_row_written acct p tr
    | Ok None => close_requested acct tk tr
    | Throw _ => False
    end).
Proof.
  intros Hpos. unfold keep_or_close. destruct (excessive_slippage _ _).
  - apply wp_await. eapply wp_mono; [|by apply bestEffortClose_asks]. intros tr r (-> & Hc & Hg).
    unfold writeAuditTradeRow, currentSessionId. apply wp_await, wp_swallow.
    eapply wp_mono; [|apply (wp_emits quiet); emits_auto].
    intros tr' r' Hq%quiet_orders.
    cbn. rewrite !orders_app, Hg, Hq, app_nil_r. split; [done|]. apply close_requested_app. auto.
  - apply wp_await, wp_settle. eapply wp_mono; [|apply persist_leg_writes].
    intros tr [id|e] (Hg & Hw); cbn.
    + rewrite app_nil_r. done.
    + apply wp_await. eapply wp_mono; [|by apply bestEffortClose_asks]. intros tr' r' (-> & Hc & Hg').
        cbn. rewrite app_nil_r, orders_app, Hg, Hg'. split; [done|]. apply close_requested_app. auto.
Qed.

Lemma leg_outcome_after sig acct leg pre tr r :
  Forall (fun ev => quiet (ev_act ev)) pre -> leg_outcome sig acct leg tr r ->
  leg_outcome sig acct leg (pre ++ tr) r.
Proof.
  intros Hq (Hn & Hb & Hr). unfold leg_outcome.
  rewrite granted_app, orders_app, quiet_granted, quiet_orders by done. split_and!; [done|done|].
  destruct r as [[p|]|e]; [|by apply close_requested_r|done].
  destruct Hr as (? & ? & ?). split_and!; [done|done|]. apply open_row_written_app. auto.
Qed.

Lemma place_leg_outcome sig acct leg : wp (place_leg sig acct leg) (leg_outcome sig acct leg).
Proof.
  unfold place_leg. apply wp_call. intros cid. apply wp_call. intros [[dupe|]|e]; cbn -[keep_or_close placeOrderWithRetry wp].
  1,3: by split_and!; [cbn; lia|constructor|constructor].
  eapply wp_mono; [intros tr r H; apply (leg_outcome_after _ _ _ [_; _]); [by repeat constructor|exact H]|].
  apply wp_await, wp_settle. eapply wp_mono; [|apply place_attempts_orders].
  intros tr [order|e] (Hn & Hb & Hg).
  2: { cbn. rewrite app_nil_r. split_and!; [done|done|]. by rewrite Hg. }
  destruct (granted order) as [tk|] eqn:Htk.
  2: { cbn. rewrite app_nil_r. split_and!; [done|done|]. by rewrite Hg. }
  apply granted_positive in Htk as Hpos. eapply wp_mono; [|by apply keep_or_close_outcome].
  intros tr' r' [Hg' Hr'].
  unfold leg_outcome, granted_tickets. rewrite orders_app, Hg', app_nil_r. fold (granted_tickets tr). rewrite Hg.
  split_and!; [done|done|]. destruct r' as [[p|]|e]; [|by constructor; [apply close_requested_app; auto|]|done].
  destruct Hr' as [-> Hw]. split_and!; [done|done|]. apply open_row_written_app. auto.
Qed.


(** ** All the legs *)
Lemma rollback_closes acct placed :
  Forall (fun p => 0 < p.1) placed ->
  wp (for_each (rollback_one acct) placed) (fun tr r =>
    r = Ok tt /\ orders tr = [] /\ Forall (fun z => close_requested acct z tr) placed.*1).
Proof.
  intros Hpos.
  apply wp_loop with (I := fun tr l _ => orders tr = [] /\
    exists before, placed = before ++ l /\ Forall (fun z => close_requested acct z tr) before.*1).
  - split; [done|]. exists []. split; [done|constructor].
  - intros tr p l [] (Ho & before & -> & Hb). unfold rollback_one.
    apply Forall_app in Hpos as [_ [Hp _]%Forall_cons].
    apply wp_await. eapply wp_mono; [|by apply bestEffortClose_asks]. intros tr1 r1 (-> & Hc & Ho1).
    apply wp_call. intros now. apply wp_swallow. intros x. cbn.
    rewrite !orders_app, Ho, Ho1. split; [done|]. exists (before ++ [p]). rewrite <- (assoc (++)). split; [done|].
    rewrite fmap_app. apply Forall_app. split; [by apply close_requested_l|]. constructor; [|constructor].
    apply close_requested_app. right. apply close_requested_app. by left.
  - intros tr [] (Ho & before & -> & Hb). rewrite app_nil_r. done.
Qed.

Definition placing (sig : SmcLiveSignal) (acct : option string) (tr : Trace) (left_ : list SmcLiveSignalLeg)
    (acc : list (Z * string)) : Prop :=
  (length acc + length left_ <= length (legs sig))%nat /\
  (length (orders tr) + 3 * length left_ <= 3 * length (legs sig))%nat /\
  left_ ⊆ legs sig /\
  Forall (fun p => exists leg, leg ∈ legs sig /\ p.1 = (acct, market_body sig leg)) (orders tr) /\
  Forall (fun p => 0 < p.1 /\ open_row_written acct p tr) acc /\
  Forall (fun z => z ∈ acc.*1 \/ close_requested acct z tr) (granted_tickets tr) /\
  ((length acc + length left_ = length (legs sig))%nat -> granted_tickets tr = acc.*1).

Lemma placing_step sig acct tr leg left_ acc tr' o :
  placing sig acct tr (leg :: left_) acc -> leg_outcome sig acct leg tr' (Ok o) ->
  placing sig acct (tr ++ tr') left_ (match o with Some p => acc ++ [p] | None => acc end).
Proof.
  intros (Hl & Hn & Hs & Hb & Ha & Hg & He) (Hn' & Hb' & Ho).
  assert (Hrows : Forall (fun p => 0 < p.1 /\ open_row_written acct p (tr ++ tr')) acc).
  { eapply Forall_impl; [exact Ha|]. intros p [? ?]. split; [done|]. apply open_row_written_app. auto. }
  assert (Hbodies : Forall (fun p => exists leg, leg ∈ legs sig /\ p.1 = (acct, market_body sig leg)) (orders (tr ++ tr'))).
  { rewrite orders_app. apply Forall_app. split; [done|]. eapply Forall_impl; [exact Hb'|].
    intros p Hp. exists leg. split; [apply Hs; left|done]. }
  assert (Hold : forall l, acc.*1 ⊆ l ->
    Forall (fun z => z ∈ l \/ close_requested acct z (tr ++ tr')) (granted_tickets tr)).
  { intros l Hsub. eapply Forall_impl; [exact Hg|]. intros z [Hz|Hz].
    - left. by apply Hsub.
    - right. apply close_requested_app. auto. }
  assert (Hs' : left_ ⊆ legs sig) by (intros x Hx; apply Hs; by right).
  unfold placing. rewrite granted_app. cbn in Hl, Hn.
  assert (Hn2 : (length (orders (tr ++ tr')) + 3 * length left_ <= 3 * length (legs sig))%nat).
  { rewrite orders_app, length_app. lia. }
  destruct o as [p|].
  - destruct Ho as (Hgp & Hpos & Hw). rewrite Hgp, length_app, fmap_app. cbn.
    split_and!; [lia|done|done|done| | |].
    + apply Forall_app. split; [done|]. constructor; [|constructor]. split; [done|].
      apply open_row_written_app. auto.
    + apply Forall_app. split; [apply Hold; intros x Hx; apply elem_of_app; auto|].
      constructor; [|constructor]. left. apply elem_of_app. right. left.
    + intros E. rewrite He by (cbn; lia). done.
  - split_and!; [lia|done|done|done|done| |intros; lia].
    apply Forall_app. split; [by apply Hold|]. eapply Forall_impl; [exact Ho|]. intros z ?.
    right. apply close_requested_app. auto.
Qed.

Definition order_outcome (sig : SmcLiveSignal) (acct : option string) (tr : Trace) (r : Res Z) : Prop :=
  match r with
  | Ok n =>
      (n = 0 /\ Forall (fun z => close_requested acct z tr) (granted_tickets tr)) \/
      (n = zlen (legs sig) /\ exists placed, length placed = length (legs sig) /\
         granted_tickets tr = placed.*1 /\ Forall (fun p => open_row_written acct p tr) placed)
  | Throw _ =>
      Forall (fun z => close_requested acct z tr \/ exists id, open_row_written acct (z, id) tr) (granted_tickets tr)
  end.

(** A lookup that fails leaves the legs placed so far as they are. *)
Lemma placing_throw sig acct tr tr' left_ acc e :
  placing sig acct tr left_ acc -> granted_tickets tr' = [] ->
  order_outcome sig acct (tr ++ tr') (Throw e).
Proof.
  intros (_ & _ & _ & _ & Ha & Hg & _) Hg'. unfold order_outcome. rewrite granted_app, Hg', app_nil_r.
  eapply Forall_impl; [exact Hg|]. intros z [Hz|Hz]; [|left; apply close_requested_app; auto].
  apply list_elem_of_fmap in Hz as ([z' id] & -> & Hp). right. exists id.
  apply open_row_written_app. left. by apply (proj1 (Forall_forall _ _) Ha).
Qed.

Lemma placing_rollback sig acct tr tr' acc :
  placing sig acct tr [] acc -> orders tr' = [] -> Forall (fun z => close_requested acct z tr') acc.*1 ->
  order_outcome sig acct (tr ++ tr') (Ok 0).
Proof.
  intros (_ & _ & _ & _ & _ & Hg & _) Ho Hc. left. split; [done|].
  unfold granted_tickets. rewrite orders_app, Ho, app_nil_r. eapply Forall_impl; [exact Hg|].
  intros z [Hz|Hz]; apply close_requested_app; [right|auto]. by apply (proj1 (Forall_forall _ _) Hc).
Qed.

Lemma placing_done sig acct tr acc :
  placing sig acct tr [] acc -> (0 <? zlen acc) && (zlen acc <? zlen (legs sig)) = false ->
  order_outcome sig acct tr (Ok (zlen acc)).
Proof.
  unfold zlen. intros (Hl & _ & _ & _ & Ha & Hg & He) Hfull. cbn [length] in *. destruct acc as [|p acc].
  - left. split; [done|]. eapply Forall_impl; [exact Hg|]. intros z [Hz|Hz]; [by apply elem_of_nil in Hz|done].
  - right. assert (length (p :: acc) = length (legs sig)) as E.
    { apply andb_false_iff in Hfull. rewrite !Z.ltb_ge in Hfull. cbn [length] in *. lia. }
    split; [unfold zlen; lia|]. exists (p :: acc). split_and!; [done|apply He; lia|].
    eapply Forall_impl; [exact Ha|]. by intros ? [_ ?].
Qed.

Lemma placeOrder_outcome sig acct :
  wp (placeOrder sig acct) (fun tr r =>
  (length (orders tr) <= 3 * length (legs sig))%nat /\
  Forall (fun p => exists leg, leg ∈ legs sig /\ p.1 = (acct, market_body sig leg)) (orders tr) /\
  order_outcome sig acct tr r).
Proof.
  unfold placeOrder. apply wp_await.
  apply wp_loop with (I := placing sig acct).
  - split_and!; [cbn; lia|cbn; lia|done|constructor..|done].
  - intros tr leg left_ acc HI. apply wp_await. eapply wp_mono; [|apply place_leg_outcome].
    intros tr' [o|e] Ho; simpl; [rewrite app_nil_r; by eapply placing_step|].
    pose proof HI as (_ & Hn & Hs & Hb & _). destruct Ho as (Hn' & Hb' & Hg').
    split_and!; [rewrite orders_app, length_app; cbn in Hn; lia| |].
    + rewrite orders_app. apply Forall_app. split; [done|]. eapply Forall_impl; [exact Hb'|].
      intros p Hp. exists leg. split; [apply Hs; left|done].
    + by eapply (placing_throw _ _ _ _ _ _ e).
  - intros tr acc HI. pose proof HI as (Hl & Hn & _ & Hb & Ha & _). cbn in Hn.
    destruct ((0 <? zlen acc) && (zlen acc <? zlen (legs sig))) eqn:Hpartial.
    + apply wp_await. eapply wp_mono; [|apply rollback_closes].
      2: { eapply Forall_impl; [exact Ha|]. by intros ? [? ?]. }
      intros tr' r' (-> & Ho & Hc). cbn. rewrite app_nil_r. rewrite orders_app, Ho, app_nil_r.
      split_and!; [lia|done|]. by eapply placing_rollback.
    + cbn. rewrite app_nil_r. split_and!; [lia|done|]. by eapply placing_done.
Qed.

(** C3: An order is all legs or none. In every run of placeOrder, whatever the broker, the
    database and Redis answer: a result of 0 leaves no granted ticket without a close
    request; any other result is the number of legs, and then the granted tickets are
    exactly those of the OPEN rows written, one per leg; a rejection (only the lookup of
    the client order id can cause one) leaves every granted ticket either written as an
    OPEN row or asked to close.  Every order sent is the body of a leg, at most three
    per leg. *)
Theorem placeOrder_all_or_nothing sig acct tr r :
  runs (placeOrder sig acct) tr r ->
  (length (orders tr) <= 3 * length (legs sig))%nat /\
  Forall (fun p => exists leg, leg ∈ legs sig /\ p.1 = (acct, market_body sig leg)) (orders tr) /\
  order_outcome sig acct tr r.
Proof. revert tr r. apply wp_runs, placeOrder_outcome. Qed.

(** ** Retry discipline *)
Definition sleeps (tr : Trace) : list Z :=
  omap (fun ev => match ev_act ev with Sleep ms => Some ms | _ => None end) tr.

Lemma place_attempts_sleeps acct body left k :
  wp (place_attempts acct body left k) (fun tr _ =>
    sleeps tr = (fun j => (k + Z.of_nat j) * 500) <$> seq 0 (length (orders tr) - 1)).
Proof.
  revert k. induction left as [|left IH]; intros k; cbn [place_attempts pbind perform wp];
    intros [o|c msg]; cbn; [done| |done|]; destruct (permanent c); cbn; try done.
  intros _. eapply wp_mono; [|apply wp_conj; [apply IH|apply place_attempts_spec]].
  intros tr r [Hs (pre & final & E & _)]. cbn.
  change (omap order_reply tr) with (orders tr). change (omap _ tr) with (sleeps tr). rewrite Hs.
  assert (length (orders tr) = S (length (orders tr) - 1)) as -> by (rewrite E, length_app; cbn; lia).
  cbn. rewrite Nat.sub_0_r, Z.add_0_r. f_equal. rewrite <- fmap_S_seq, <- list_fmap_compose.
  apply list_fmap_ext. intros j x _. cbn. lia.
Qed.

(** Retries. placeOrderWithRetry sends the same order at most three times, 500 and
    1000 ms apart; it stops at the first answer that is not an error and returns it; it
    gives up only on a permanent (4xx) error or on the third failure, with that error. *)
Theorem placeOrderWithRetry_discipline acct body tr r :
  runs (placeOrderWithRetry acct body) tr r ->
  attempts_ok (acct, body) 3 (orders tr) r /\
  sleeps tr = take (length (orders tr) - 1) [500; 1000].
Proof.
  revert tr r. apply wp_runs. eapply wp_mono; [|apply wp_conj; [apply place_attempts_spec|apply place_attempts_sleeps]].
  intros tr r [Ha ->]. split; [done|]. destruct Ha as (pre & final & E & Hl & _).
  destruct (orders tr) as [|a [|b [|c [|d l]]]]; try done. cbn in Hl. lia.
Qed.

(** ** Retrace limits *)

(** The rows created in a trace. *)
Definition created_row (ev : Event) : option TradeData :=
  match ev with
  | {| ev_act := e; ev_res := x |} =>
      match e return answer e -> option TradeData with
      | TradeCreate d => fun r => match r with Ok _ => Some d | Throw _ => None end
      | _ => fun _ => None
      end x
  end.
Definition created_rows (tr : Trace) : list TradeData := omap created_row tr.

Lemma created_app tr tr' : created_rows (tr ++ tr') = created_rows tr ++ created_rows tr'.
Proof. apply omap_app. Qed.

Definition writeless (e : Action) : Prop := match e with TradeCreate _ => False | _ => True end.
Lemma writeless_created tr : Forall (fun ev => writeless (ev_act ev)) tr -> created_rows tr = [].
Proof. unfold created_rows. induction 1 as [|[e x] tr He _ IH]; [done|]. by destruct e. Qed.

Lemma writeless_place_attempts acct body n k : emits writeless (place_attempts acct body n k).
Proof.
  revert k. induction n as [|n IH]; intros k; cbn; (split; [done|]); intros [o|c m]; cbn; try done;
    destruct (permanent c); cbn; auto.
Qed.

(** The row of a limit order that the broker took. *)
Definition limit_recorded (sig : SmcLiveSignal) (acct : string) (limit : num) (expires : option Z)
    (leg : SmcLiveSignalLeg) (o : OrderReply) (d : TradeData) : Prop :=
  t_accountId d = Some acct /\ t_lotSize d = leg_lotSize leg /\ t_entryPrice d = limit /\
  t_slPrice d = sig_slPrice sig /\ t_tpPrice d = leg_tpPrice leg /\ t_limitPrice d = Some limit /\
  t_orderExpiresAt d = expires /\ t_entryType d = "RETRACE_LIMIT"%string /\
  ((t_status d = OPEN /\ is_Some (t_mt5Ticket d) /\ t_mt5Ticket d = granted o) \/
   (t_status d = PENDING /\ t_mt5Ticket d = None)).

Definition limit_leg_outcome (sig : SmcLiveSignal) (acct : string) (limit : num) (expires : option Z)
    (leg : SmcLiveSignalLeg) (tr : Trace) (r : Res bool) : Prop :=
  (length (orders tr) <= 3)%nat /\
  Forall (fun p => p.1 = (Some acct, limit_body sig leg limit expires)) (orders tr) /\
  match r with
  | Ok true => exists o d, created_rows tr = [d] /\ HttpOk o ∈ (orders tr).*2 /\
                 limit_recorded sig acct limit expires leg o d
  | Ok false => created_rows tr = []
  | Throw _ => False
  end.

Lemma persist_limit_writes sig acct leg oid limit ex o :
  wp (persist_limit sig acct leg oid limit ex o) (fun tr r => orders tr = [] /\
    match r with
    | Ok _ => exists d, created_rows tr = [d] /\ limit_recorded sig acct limit ex leg o d
    | Throw _ => created_rows tr = []
    end).
Proof.
  unfold persist_limit. apply wp_call. intros [cid|e]; [|done].
  apply wp_call. intros sid. apply wp_call. intros n1. apply wp_call. intros n2.
  apply wp_call. intros [id|e]; [|done]. cbn. split; [done|]. eexists. split; [done|].
  unfold limit_recorded. cbn. split_and!; try done. unfold instant_fill.
  destruct (String.eqb _ _); [|by right]. destruct (granted o); [left|right]; done.
Qed.

Lemma place_limit_leg_outcome sig acct limit ex leg :
  wp (place_limit_leg sig acct limit ex leg) (limit_leg_outcome sig acct limit ex leg).
Proof.
  unfold place_limit_leg. apply wp_call. intros now. apply wp_call. intros suffix.
  apply wp_mono with (Q := limit_leg_outcome sig acct limit ex leg); [intros tr r H; exact H|].
  apply wp_await, wp_settle.
  eapply wp_mono; [|apply wp_conj; [apply place_attempts_spec|apply (wp_emits writeless), writeless_place_attempts]].
  intros tr r [(pre & final & E & Hl & Hb & Hp & Hf) Hw%writeless_created].
  assert (Hrefused : limit_leg_outcome sig acct limit ex leg tr (Ok false)) by (split_and!; [lia|done|done]).
  destruct r as [o|e]; [|cbn; by rewrite app_nil_r].
  destruct final as [body [o'|]]; simpl in Hf; [subst o'|done].
  destruct (negb _ && _); [cbn; by rewrite app_nil_r|].
  apply wp_await, wp_settle. eapply wp_mono; [|apply persist_limit_writes].
  intros tr' r [Ho Hr].
  assert (Hlen : (length (orders (tr ++ tr')) <= 3)%nat /\
    Forall (fun p => p.1 = (Some acct, limit_body sig leg limit ex)) (orders (tr ++ tr'))).
  { rewrite orders_app, Ho, app_nil_r. done. }
  destruct r as [[]|e]; cbn; rewrite app_nil_r; (split; [apply Hlen|split; [apply Hlen|]]); rewrite created_app, Hw.
  - destruct Hr as (d & -> & Hd). exists o, d. split_and!; [done| |done].
    rewrite orders_app, Ho, app_nil_r, E, fmap_app. apply elem_of_app. right. left.
  - done.
Qed.

(** What the rows and orders of a run say, with the number of rows counted. *)
Definition limits_recorded (sig : SmcLiveSignal) (acct : string) (limit : num) (expires : option Z)
    (tr : Trace) (n : Z) : Prop :=
  n = zlen (created_rows tr) /\
  Forall (fun p => exists leg, leg ∈ legs sig /\ p.1 = (Some acct, limit_body sig leg limit expires)) (orders tr) /\
  Forall (fun d => exists leg o, leg ∈ legs sig /\ HttpOk o ∈ (orders tr).*2 /\
            limit_recorded sig acct limit expires leg o d) (created_rows tr).

Lemma limits_recorded_app sig acct limit ex tr tr' n m :
  limits_recorded sig acct limit ex tr n -> limits_recorded sig acct limit ex tr' m ->
  limits_recorded sig acct limit ex (tr ++ tr') (n + m).
Proof.
  intros (-> & Ho & Hd) (-> & Ho' & Hd'). unfold limits_recorded.
  rewrite created_app, orders_app. split_and!.
  - unfold zlen. rewrite length_app. lia.
  - by apply Forall_app.
  - rewrite fmap_app. apply Forall_app.
    split; (eapply Forall_impl; [eassumption|]); intros d (leg & o & ? & ? & ?); exists leg, o;
      rewrite elem_of_app; auto.
Qed.

Lemma limit_leg_recorded sig acct limit ex leg tr b :
  leg ∈ legs sig -> limit_leg_outcome sig acct limit ex leg tr (Ok b) ->
  limits_recorded sig acct limit ex tr (if b then 1 else 0).
Proof.
  intros Hleg (_ & Hb & Hr).
  assert (Hos : Forall (fun p => exists leg, leg ∈ legs sig /\ p.1 = (Some acct, limit_body sig leg limit ex)) (orders tr))
    by (eapply Forall_impl; [exact Hb|]; eauto).
  destruct b; unfold limits_recorded.
  - destruct Hr as (o & d & -> & Ho & Hd). split_and!; [done|done|]. constructor; [eauto|constructor].
  - rewrite Hr. split_and!; [done|done|constructor].
Qed.

Definition retrace_outcome (sig : SmcLiveSignal) (acct evalTs : string) (tr : Trace) (r : Res Z) : Prop :=
  (length (orders tr) <= 3 * length (legs sig))%nat /\
  exists n, limits_recorded sig acct (retrace_price sig) (retrace_expiry evalTs) tr n /\
            match r with Ok n' => n' = n | Throw _ => True end.

Lemma placeRetraceOrder_outcome sig acct evalTs :
  wp (placeRetraceOrderForAccount sig acct evalTs) (retrace_outcome sig acct evalTs).
Proof.
  unfold placeRetraceOrderForAccount, retrace_outcome.
  set (limit := retrace_price sig). set (ex := retrace_expiry evalTs).
  apply wp_await. apply wp_loop with (I := fun tr left_ n => left_ ⊆ legs sig /\
    (length (orders tr) + 3 * length left_ <= 3 * length (legs sig))%nat /\
    limits_recorded sig acct limit ex tr n).
  - split_and!; [done|cbn; lia|]. split_and!; [done|constructor..].
  - intros tr' leg left_ k (Hs & Hn & Hrec). apply wp_await.
    eapply wp_mono; [|apply place_limit_leg_outcome]. intros tr2 [b|e] Hout; cbn; [|by destruct Hout as (_ & _ & [])].
    rewrite app_nil_r. split_and!.
    + intros x Hx. apply Hs. by right.
    + rewrite orders_app, length_app. destruct Hout as [? _]. cbn in Hn. lia.
    + replace (if b then k + 1 else k) with (k + (if b then 1 else 0)) by (destruct b; lia).
      apply limits_recorded_app; [done|]. apply limit_leg_recorded with leg; [apply Hs; left|done].
  - intros tr' k (_ & Hn & Hrec). cbn in Hn.
    assert (Hpost : forall t' (r : Res Z), match r with Ok k' => k' = k | Throw _ => True end ->
      orders t' = [] -> created_rows t' = [] ->
      (length (orders (tr' ++ t')) <= 3 * length (legs sig))%nat /\
      exists n, limits_recorded sig acct limit ex (tr' ++ t') n /\ match r with Ok n' => n' = n | Throw _ => True end).
    { intros t' r Hr Ho Hc. split; [rewrite orders_app, Ho, app_nil_r; cbn; lia|]. exists k. split; [|done].
      rewrite <- (Z.add_0_r k). apply limits_recorded_app; [done|].
      unfold limits_recorded. rewrite Ho, Hc. split_and!; [done|constructor..]. }
    destruct (0 <? k); [destruct ex|].
    + unfold pushEvent, sync. apply wp_call. intros x. by apply (Hpost [_] (Ok k)).
    + by apply (Hpost [] (Throw "")).
    + by apply (Hpost [] (Ok k)).
Qed.

(** Retrace entries. placeRetraceOrderForAccount sends at most three LIMIT orders per
    leg, each for that account at the same limit price and expiry; the number it returns
    is the number of rows it created; and each of these records an order the broker took:
    its account, lot, limit price, stop, target and expiry, OPEN with the ticket of an
    instant fill or PENDING without a ticket. *)
Theorem retrace_orders_recorded sig acct evalTs tr n :
  runs (placeRetraceOrderForAccount sig acct evalTs) tr (Ok n) ->
  (length (orders tr) <= 3 * length (legs sig))%nat /\
  limits_recorded sig acct (retrace_price sig) (retrace_expiry evalTs) tr n.
Proof.
  intros Hr. destruct (proj1 (wp_runs _ _) (placeRetraceOrder_outcome sig acct evalTs) _ _ Hr) as (? & k & ? & ->).
  done.
Qed.
