(* ===== verification/SharedSignalFacts.v ===== *)
(** * The memory of the process during a method

    A method runs its code between two awaits on the memory of the process; at each
    await other methods may change it.  [during] quantifies over every such run: the
    memory may change by [R] before each effect, the answers of the outside world
    satisfy [allowed], and the trace so far is kept next to the memory. *)
From S2P Require Import Prelude Async JsNum JsDate Types Instruments Indicators Orchestrator LiveTypes.
From S2P Require Import ExitReconciliation EngineMemory LiveExecution LiveStrategy Lifecycle LifecycleFacts ExecutionFacts.
Record Moment := { mem : Mem; log : Trace }.

Section memory.
Context (allowed : forall e : Action, answer e -> Prop) (R : Mem -> Mem -> Prop).

Definition mem_step (i : nat) (e : Action) (s s' : Moment) (x : answer e) : Prop :=
  log s' = log s ++ [{| ev_act := e; ev_res := x |}] /\ allowed e x /\
  match e return answer e -> Prop with
  | Sync X f => fun x => (mem s', x) = f (mem s)
  | _ => fun _ => mem s' = mem s
  end x.

Definition interferes (i : nat) (s s' : Moment) : Prop := R (mem s) (mem s') /\ log s' = log s.

Definition during {A} (s : Moment) (m : IO A) (Q : Res A -> Moment -> Prop) : Prop :=
  safe mem_step (fun _ _ _ => True) interferes 0 m Q s.

Lemma during_mono {A} s (m : IO A) (Q Q' : Res A -> Moment -> Prop) :
  (forall r s', Q r s' -> Q' r s') -> during s m Q -> during s m Q'.
Proof. apply safe_mono. Qed.

Lemma during_await {A B} s (m : IO A) (k : A -> IO B) Q :
  during s m (fun r s' => match r with Ok a => during s' (k a) Q | Throw e => Q (Throw e) s' end) ->
  during s (await m k) Q.
Proof. apply safe_await. Qed.

Lemma during_sync {A X} m0 l (f : Mem -> Mem * X) (cast : X -> Res A) (Q : Res A -> Moment -> Prop) :
  (forall m1, R m0 m1 -> Q (cast (f m1).2)
     {| mem := (f m1).1; log := l ++ [{| ev_act := Sync X f; ev_res := (f m1).2 : answer (Sync X f) |}] |}) ->
  during {| mem := m0; log := l |} (io (Sync X f) cast) Q.
Proof.
  intros H [m1 l1] [Hr Hl] [m2 l2] x (E & _ & Hm). simpl in *. subst l1 l2. split; [done|].
  specialize (H m1 Hr). destruct (f m1) as [m' x']. simpl in H. by simplify_eq.
Qed.

(** Any other effect leaves the memory alone. *)
Lemma during_call {A} m0 l (e : Action) (cast : answer e -> Res A) (Q : Res A -> Moment -> Prop) :
  match e with Sync _ _ => False | _ => True end ->
  (forall m1 x, R m0 m1 -> allowed e x -> Q (cast x) {| mem := m1; log := l ++ [{| ev_act := e; ev_res := x |}] |}) ->
  during {| mem := m0; log := l |} (io e cast) Q.
Proof.
  intros He H [m1 l1] [Hr Hl] [m2 l2] x (E & Ha & Hm). simpl in *. subst l1 l2. split; [done|].
  specialize (H m1 x Hr Ha). clear Hr Ha. destruct e; simpl in Hm; try contradiction; by subst m2.
Qed.

Lemma during_settle {A} s (m : IO A) Q :
  during s m (fun r s' => Q (Ok r) s') -> during s (settle m) Q.
Proof. intros H. apply safe_bind. eapply safe_mono; [|exact H]. done. Qed.

(** What holds of every finished run holds here. *)
Lemma during_wp {A} s (m : IO A) (Q : Trace -> Res A -> Prop) :
  wp m Q -> during s m (fun r s' => exists tr, log s' = log s ++ tr /\ Q tr r).
Proof.
  unfold during. revert s Q. induction m as [a|e k IH]; simpl; intros s Q H.
  - exists []. by rewrite app_nil_r.
  - intros s1 [_ Hl] s2 x (E & _ & _). split; [done|]. eapply safe_mono; [|apply (IH x s2 _ (H x))].
    intros r s' (tr & Htr & HQ). eexists. split; [|exact HQ]. rewrite Htr, E, Hl, <- app_assoc. done.
Qed.

(** A fact of the memory that neither the others nor the program's own code undo, and
    trace facts of effects that a program performs. *)
Definition keeps (I : Mem -> Prop) (φ : Action -> Prop) (e : Action) : Prop :=
  φ e /\ match e with Sync X f => forall m, I m -> I (f m).1 | _ => True end.

Lemma during_emits {A} (I : Mem -> Prop) φ (m : IO A) s :
  (forall m m', I m -> R m m' -> I m') -> emits (keeps I φ) m -> I (mem s) ->
  during s m (fun _ s' => I (mem s') /\ exists tr, log s' = log s ++ tr /\ Forall (fun ev => φ (ev_act ev)) tr).
Proof.
  intros HR. revert s. unfold during. induction m as [a|e k IH]; simpl; intros s He HI.
  - split; [done|]. exists []. by rewrite app_nil_r.
  - destruct He as [[Hφ Hs] Hk]. intros s1 [Hr Hl] s2 x (E & _ & Hm). split; [done|].
    assert (HI2 : I (mem s2)).
    { pose proof (HR _ _ HI Hr) as HI1. clear IH k Hk E. destruct e; simpl in *; try (rewrite Hm; exact HI1).
      specialize (Hs _ HI1). rewrite <- Hm in Hs. exact Hs. }
    eapply safe_mono; [|apply (IH x s2 (Hk x) HI2)].
    intros r s' (HI' & tr & Htr & Ht). split; [done|]. eexists. split.
    + rewrite Htr, E, Hl, <- app_assoc. simpl. reflexivity.
    + by constructor.
Qed.
End memory.

(** * The shared-signal path: who may trade

    What must have been read, and what it must have said, before an account's orders
    leave for the broker; and that a tripped circuit breaker lets none leave. *)
From S2P Require Import Prelude Async JsNum NumFacts JsDate Types Instruments Indicators Orchestrator LiveTypes.
From S2P Require Import ExitReconciliation EngineMemory LiveExecution LiveStrategy Lifecycle LifecycleFacts ExecutionFacts.
Local Open Scope num_scope.

Section gates.
Context (envRisk : num) (retraceEntry : bool).

Definition reads (sig : SmcLiveSignal) (acct : BrokerAccount) (positions : list BrokerPosition)
    (info : AccountInfo) (n now : Z) (agg : option num) (risk : num) : Trace := [
  {| ev_act := BrokerPositions (Some (a_id acct)) (Some (sig_symbol sig)); ev_res := Ok positions : answer (BrokerPositions _ _) |};
  {| ev_act := BrokerAccountInfo (Some (a_id acct)); ev_res := Ok info : answer (BrokerAccountInfo _) |};
  {| ev_act := TradeCount (open_of (a_id acct)); ev_res := Ok n : answer (TradeCount _) |};
  {| ev_act := Now; ev_res := now : answer Now |};
  {| ev_act := TradeSumPnl (closed_today (a_id acct) now); ev_res := Ok agg : answer (TradeSumPnl _) |};
  {| ev_act := Sync num (fun m => (m, getRiskPercent envRisk m)); ev_res := risk : answer (Sync num _) |}].

(** The body of an order for a resized leg. *)
Definition sized_order (sig : SmcLiveSignal) (acct : BrokerAccount) (ts : string) (factor : num)
    (o : Order) : Prop :=
  let useRetrace := retraceEntry && String.eqb (a_broker acct) "CTRADER" in
  let mult := if useRetrace then RETRACE_LOT_MULT else of_Z 1 in
  exists leg, leg ∈ legs sig /\
    o.1 = (Some (a_id acct),
           if useRetrace then limit_body sig (resize_leg factor mult leg) (retrace_price sig) (retrace_expiry ts)
           else market_body sig (resize_leg factor mult leg)).

(** An account that may trade this signal, by what was read. *)
Definition permitted (sig : SmcLiveSignal) (acct : BrokerAccount) (preset : StrategyPreset)
    (positions : list BrokerPosition) (info : AccountInfo) (n : Z) (agg : option num) (risk : num) : Prop :=
  let mult := if retraceEntry && String.eqb (a_broker acct) "CTRADER" then RETRACE_LOT_MULT else of_Z 1 in
  sig_side sig ∉ bp_side <$> positions /\ (n < pr_maxOpenPositions preset)%Z /\
  ((default (of_Z 0) agg) <=? nopp (pr_maxDailyLossPercent preset / of_Z 100 * ai_equity info)) = false /\
  (scaled_total sig (size_factor (ai_equity info) preset risk) mult <? min_total sig * MIN_LOT_RISK_TOLERANCE) = false.

Lemma quiet_record rec : emits quiet (record rec).
Proof. unfold record, insert_batch. emits_auto. Qed.
Lemma quiet_skip sig a ts why : emits quiet (skip sig a ts why).
Proof. unfold skip. pose proof quiet_record. emits_auto. Qed.

Definition gated (sig : SmcLiveSignal) (acct : BrokerAccount) (ts : string) (tr : Trace) : Prop :=
  orders tr = [] \/
  exists u preset positions info n now agg risk rest,
    eligible acct (sig_symbol sig) = Some (u, preset) /\
    tr = reads sig acct positions info n now agg risk ++ rest /\
    permitted sig acct preset positions info n agg risk /\
    (length (orders tr) <= 3 * length (legs sig))%nat /\
    Forall (sized_order sig acct ts (size_factor (ai_equity info) preset risk)) (orders tr).

(** What a placement of the resized signal sends. *)
Lemma sized_orders_sent sig acct ts factor :
  let useRetrace := retraceEntry && String.eqb (a_broker acct) "CTRADER" in
  let mult := if useRetrace then RETRACE_LOT_MULT else of_Z 1 in
  let sized := resize factor mult sig in
  wp (if useRetrace then placeRetraceOrderForAccount sized (a_id acct) ts else placeOrderForAccount sized (a_id acct))
     (fun tr _ => (length (orders tr) <= 3 * length (legs sig))%nat /\ Forall (sized_order sig acct ts factor) (orders tr)).
Proof.
  cbv zeta. unfold sized_order. destruct (retraceEntry && String.eqb (a_broker acct) "CTRADER").
  - eapply wp_mono; [|apply placeRetraceOrder_outcome]. intros tr r (Hn & n & (_ & Ho & _) & _).
    simpl in Hn. rewrite length_fmap in Hn. split; [done|]. eapply Forall_impl; [exact Ho|].
    intros o (leg' & Hl & E). apply list_elem_of_fmap in Hl as (leg & -> & Hl). exists leg. split; [done|]. exact E.
  - eapply wp_mono; [|apply placeOrder_outcome]. intros tr r (Hn & Ho & _).
    simpl in Hn. rewrite length_fmap in Hn. split; [done|]. eapply Forall_impl; [exact Ho|].
    intros o (leg' & Hl & E). apply list_elem_of_fmap in Hl as (leg & -> & Hl). exists leg. split; [done|]. exact E.
Qed.

Lemma orders_reads sig acct positions info n now agg risk rest :
  orders (reads sig acct positions info n now agg risk ++ rest) = orders rest.
Proof. done. Qed.

(** C8: The gates of an account on the shared-signal path. In every run of
    executeSharedSignalForAccount, an order leaves only after the account's positions,
    equity, open-trade count and day's profit have been read, for an enabled account of
    an active user with the bot on whose preset trades the symbol, and these answers
    permit it: no position of the same side, fewer open trades than the preset's maximum,
    the day's loss short of its cap, a scaled lot above the minimum-lot tolerance.  Every
    order is then for that account, a leg of the signal with its lot resized by the
    account's factor, at most three requests per leg. *)
Theorem shared_execution_gated sig acct ts tr r :
  runs (executeSharedSignalForAccount envRisk retraceEntry sig acct ts) tr r -> gated sig acct ts tr.
Proof.
  revert tr r. apply wp_runs. unfold executeSharedSignalForAccount.
  destruct (eligible acct (sig_symbol sig)) as [[u preset]|] eqn:Hel; [|by left].
  apply wp_call. intros [positions|e]; [|by left]. apply wp_call. intros [info|e]; [|by left].
  apply wp_call. intros [n|e]; [|by left].
  assert (Hskip : forall (pre : Trace) why, orders pre = [] ->
    wp (skip sig acct ts why) (fun tr _ => gated sig acct ts (pre ++ tr))).
  { intros pre why Hpre. apply wp_quiet; [apply quiet_skip|]. apply wp_runs. intros tr r _ _ Ho.
    left. by rewrite orders_app, Hpre, Ho. }
  destruct (bool_decide _) eqn:Hdir; [by apply (Hskip [_; _; _])|]. apply bool_decide_eq_false in Hdir.
  destruct (pr_maxOpenPositions preset <=? n)%Z eqn:Hmax; [by apply (Hskip [_; _; _])|]. apply Z.leb_gt in Hmax.
  apply wp_call. intros now. apply wp_call. intros [agg|e]; [|by left]. cbv zeta.
  destruct (default _ agg <=? _) eqn:Hday; [by apply (Hskip [_; _; _; _; _])|].
  apply wp_call. intros risk.
  set (useRetrace := retraceEntry && String.eqb (a_broker acct) "CTRADER").
  set (mult := if useRetrace then RETRACE_LOT_MULT else of_Z 1).
  destruct (scaled_total _ _ _ <? _) eqn:Hmin; [by apply (Hskip (reads sig acct positions info n now agg risk))|].
  set (pre := reads sig acct positions info n now agg risk).
  apply wp_mono with (Q := fun tr r => gated sig acct ts (pre ++ tr)); [by intros|].
  assert (Hper : permitted sig acct preset positions info n agg risk) by (split_and!; done).
  apply wp_await. eapply wp_mono; [|apply sized_orders_sent]. intros tr r [Hn Ho].
  assert (Hend : forall rest, orders rest = [] -> gated sig acct ts (pre ++ tr ++ rest)).
  { intros rest Hrest. right. exists u, preset, positions, info, n, now, agg, risk, (tr ++ rest).
    assert (orders (pre ++ tr ++ rest) = orders tr) as -> by (rewrite !orders_app, Hrest, app_nil_r; done).
    by split_and!. }
  destruct r as [k|e]; [|rewrite <- (app_nil_r tr); by apply Hend].
  assert (Hq : forall m : IO bool, emits quiet m -> wp m (fun tr' _ => gated sig acct ts (pre ++ tr ++ tr'))).
  { intros m Hm. apply wp_quiet; [done|]. apply wp_runs. intros tr' r' _ _ Ho'. by apply Hend. }
  destruct (k =? 0)%Z; apply Hq; [apply quiet_skip|]. pose proof quiet_record. emits_auto.
Qed.
End gates.

(** ** The circuit breaker *)
Section tripped.
Context `{TechnicalIndicators} (ov : Overrides) (envRisk : num) (cfg : BreakerConfig) (retraceEntry : bool).
(** What Redis holds. *)
Context (stored : option BreakerState).

(** The breaker is tripped: by the cached state, or by the stored one while none is cached. *)
Definition tripped (m : Mem) : Prop :=
  match m_breaker m with
  | Some b => br_tripped b = true
  | None => match stored with Some b => br_tripped b = true | None => False end
  end.

(** Redis answers with what it holds, or not at all; nobody resets the breaker. *)
Definition redis_answers (e : Action) : answer e -> Prop :=
  match e return answer e -> Prop with
  | BreakerGet => fun x => x = Ok stored \/ exists err, x = Throw err
  | _ => fun _ => True
  end.
Definition no_reset (m m' : Mem) : Prop := tripped m -> tripped m'.
Abbreviation during_trip := (during redis_answers no_reset).

Ltac keeps_io := split; [split; [exact I|first [exact I|done]]|intros ?; exact I].
Ltac keeps_auto := emits_auto; try keeps_io.

Lemma keeps_pushEvent ev : emits (keeps tripped quiet) (pushEvent ev).
Proof. keeps_io. Qed.
Lemma keeps_dirty : emits (keeps tripped quiet) markPersistDirty.
Proof. keeps_io. Qed.
Lemma keeps_push_all evs : emits (keeps tripped quiet) (push_all evs).
Proof. unfold push_all. apply emits_fold_each. intros ? ? _. keeps_io. Qed.
Lemma keeps_record rec : emits (keeps tripped quiet) (record rec).
Proof.
  unfold record, insert_batch. apply emits_await; [|intros []; [done|keeps_io]].
  split; [|done]. split; [exact I|]. intros m Hm. by destruct (push_decision _ _).
Qed.
Lemma keeps_fetch_all sym : emits (keeps tripped quiet) (fetch_all sym).
Proof. unfold fetch_all, fetchCandles. keeps_auto. Qed.
Lemma keeps_eval_time m15 : emits (keeps tripped quiet) (eval_time m15).
Proof. unfold eval_time. keeps_auto. Qed.
Lemma keeps_evaluate sym m15 h1 d1 mk : emits (keeps tripped quiet) (singleton_evaluate ov envRisk sym m15 h1 d1 mk).
Proof.
  split; [split; [exact I|]|intros ?; exact I]. intros m Hm. by destruct (evaluate_now _ _ _ _ _ _ _ _).
Qed.

(** Still tripped, and no order since the log [o]. *)
Definition blocked (o : list Order) (s : Moment) : Prop := tripped (mem s) /\ orders (log s) = o.

Lemma blocked_quiet {A} (m : IO A) o s :
  emits (keeps tripped quiet) m -> blocked o s -> during_trip s m (fun _ s' => blocked o s').
Proof.
  intros He [Ht Ho]. eapply during_mono; [|apply during_emits with (I := tripped) (φ := quiet); [|exact He|exact Ht]].
  - intros r s' (Ht' & tr & E & Hq%quiet_orders). split; [done|]. by rewrite E, orders_app, Hq, app_nil_r.
  - auto.
Qed.

Lemma blocked_await {A B} (m : IO A) (k : A -> IO B) o s :
  emits (keeps tripped quiet) m -> blocked o s ->
  (forall a s', blocked o s' -> during_trip s' (k a) (fun _ s'' => blocked o s'')) ->
  during_trip s (await m k) (fun _ s'' => blocked o s'').
Proof.
  intros He Hb Hk. apply during_await. eapply during_mono; [|by apply blocked_quiet].
  intros [a|e] s' Hs'; [by apply Hk|exact Hs'].
Qed.

Lemma isTripped_true o s : enabled cfg = true -> blocked o s ->
  during_trip s (isTripped cfg) (fun r s' => blocked o s' /\ match r with Ok b => b = true | Throw _ => True end).
Proof.
  intros Hen Hb. destruct s as [m l]. unfold isTripped. rewrite Hen. apply during_await, during_sync.
  intros m1 Hr. destruct Hb as [Ht Ho]. simpl in Ht, Ho. apply Hr in Ht as Ht1. simpl.
  assert (Hlog : orders (l ++ [{| ev_act := Sync (option BreakerState) (fun m => (m, m_breaker m));
                                 ev_res := m_breaker m1 : answer (Sync _ _) |}]) = o).
  { by rewrite orders_app, app_nil_r. }
  destruct (m_breaker m1) as [b|] eqn:Eb.
  { split; [by split|]. unfold tripped in Ht1. by rewrite Eb in Ht1. }
  apply during_await. intros [m2 l2] [Hr2 Hl2] [m3 l3] x (E & Hx & Hm). simpl in *. subst. split; [done|].
  assert (Ho3 : forall x : Res (option BreakerState), orders ((l ++ [{| ev_act := Sync (option BreakerState) (fun m => (m, m_breaker m));
                                 ev_res := None : answer (Sync _ _) |}]) ++ [{| ev_act := BreakerGet; ev_res := x : answer BreakerGet |}]) = orders l).
  { intros x'. by rewrite orders_app, app_nil_r. }
  destruct x as [raw|e]; [|split; [split; [by apply Hr2|apply Ho3]|done]].
  apply during_await, during_sync. intros m4 Hr4. simpl.
  destruct Hx as [[= ->]|[? ?]]; [|discriminate].
  unfold tripped in Ht1. rewrite Eb in Ht1. destruct stored as [b|] eqn:Es; [|done].
  split; [split|done].
  - unfold tripped. simpl. done.
  - simpl. by rewrite orders_app, Ho3, app_nil_r.
Qed.

(** C9: The circuit breaker on the shared-signal path. While the breaker is enabled and
    tripped, in the cache or, when nothing is cached, in Redis, and nobody resets it, no
    evaluation of a pair sends an order for any account, whatever the other methods do
    to the memory in between and whatever the database, Redis and the broker answer. *)
Theorem tripped_breaker_blocks_entries sched sym accounts s :
  enabled cfg = true -> tripped (mem s) ->
  during_trip s (evaluatePairSharedSignal ov envRisk cfg retraceEntry sched sym accounts)
    (fun _ s' => orders (log s') = orders (log s)).
Proof.
  intros Hen Ht. eapply during_mono with (Q := fun _ s' => blocked (orders (log s)) s'); [by intros ? ? []|].
  assert (Hb : blocked (orders (log s)) s) by (split; done).
  revert Hb. generalize (orders (log s)) as o. clear Ht. intros o Hb. unfold evaluatePairSharedSignal.
  apply blocked_await; [apply keeps_fetch_all|done|]. intros [[m15 h1] d1] s1 H1.
  apply blocked_await; [apply keeps_eval_time|done|]. intros ts s2 H2.
  apply blocked_await; [keeps_io|done|]. intros openHere s3 H3.
  apply blocked_await; [keeps_io|done|]. intros openAll s4 H4.
  apply blocked_await; [apply keeps_evaluate|done|]. intros e s5 H5.
  apply blocked_await; [apply keeps_dirty|done|]. intros [] s6 H6.
  apply blocked_await; [apply keeps_push_all|done|]. intros [] s7 H7.
  apply blocked_await; [apply keeps_pushEvent|done|]. intros [] s8 H8.
  apply blocked_await; [apply keeps_record|done|]. intros [] s9 H9.
  destruct (ev_signal e) as [sig|]; [|exact H9].
  apply during_await. eapply during_mono; [|by apply isTripped_true].
  intros [b|err] s10 [H10 Hr]; [|exact H10]. subst b. apply blocked_quiet; [apply keeps_record|exact H10].
Qed.
End tripped.
