(* ===== verification/ServiceFacts.v ===== *)
(** * Circuit breaker, telemetry feed, persistence scheduler: their contracts

    What a check of the breaker writes and when it alerts; what the feed shows after any
    events; that no change of the orchestrator's state is lost by the debounced writes. *)
From S2P Require Import Prelude Async JsNum JsDate Types Instruments Indicators Orchestrator LiveTypes.
From S2P Require Import ExitReconciliation EngineMemory LiveExecution LiveStrategy Lifecycle LifecycleFacts ExecutionFacts SharedSignalFacts.
Local Open Scope num_scope.

(** ** Circuit breaker *)
Section breaker.
Context (cfg : BreakerConfig).

(** The answers a check has read when it writes. *)
Definition check_reads (now : Z) (agg : option num) (snaps : list num) (raw : option BreakerState) (at_ : Z) : Trace := [
  {| ev_act := Now; ev_res := now : answer Now |};
  {| ev_act := TradeSumPnl (counted (now - ROLLING_DAYS * 24 * 3600 * 1000)); ev_res := Ok agg : answer (TradeSumPnl _) |};
  {| ev_act := LatestEquities; ev_res := Ok snaps : answer LatestEquities |};
  {| ev_act := BreakerGet; ev_res := Ok raw : answer BreakerGet |};
  {| ev_act := Now; ev_res := at_ : answer Now |}].

Definition alerts (tr : Trace) : list string :=
  omap (fun ev => match ev_act ev with MailAlert a _ _ => Some a | _ => None end) tr.
Definition breaker_writes (tr : Trace) : list BreakerState :=
  omap (fun ev => match ev_act ev with BreakerSet s => Some s | _ => None end) tr.

Lemma alerts_app tr tr' : alerts (tr ++ tr') = alerts tr ++ alerts tr'.
Proof. apply omap_app. Qed.
Lemma breaker_writes_app tr tr' : breaker_writes (tr ++ tr') = breaker_writes tr ++ breaker_writes tr'.
Proof. apply omap_app. Qed.

Definition check_outcome (tr : Trace) (r : Res unit) : Prop :=
  r = Ok tt /\
  ((breaker_writes tr = [] /\ alerts tr = []) \/
   exists now agg snaps raw at_ rest st,
     tr = check_reads now agg snaps raw at_ ++ rest /\ breaker_writes tr = [st] /\
     let prev := default untripped raw in
     let rolling := default (of_Z 0) agg in
     let threshold := nopp (lossPct cfg / of_Z 100) * equity_basis snaps in
     (br_tripped st = true <-> br_tripped prev = true \/ (rolling <=? threshold) = true) /\
     br_trippedAt st = (if br_tripped prev then br_trippedAt prev
                        else if br_tripped st then Some (toISOString at_) else None) /\
     br_rollingPnl st = round2 rolling /\ br_threshold st = round2 threshold /\
     (alerts tr <> [] -> br_tripped st = true /\ br_tripped prev = false)).

Lemma next_state_tripped prev rolling equity now :
  br_tripped (next_state cfg prev rolling equity now) = true <->
  br_tripped prev = true \/ (rolling <=? nopp (lossPct cfg / of_Z 100) * equity) = true.
Proof. simpl. apply orb_true_iff. Qed.

Definition alarmless (e : Action) : Prop := match e with BreakerSet _ => False | _ => True end.
Lemma alarmless_writes tr : Forall (fun ev => alarmless (ev_act ev)) tr -> breaker_writes tr = [].
Proof. unfold breaker_writes. induction 1 as [|[e x] tr He _ IH]; [done|]. by destruct e. Qed.

(** One check of the circuit breaker never rejects and writes Redis at most once; what
    it writes is tripped exactly when the stored state was tripped already or the realized
    profit of the last 60 days is at or below minus the loss percentage of the equity
    basis; the time of tripping is set once and then kept; administrators are alerted only
    by the check that trips it.  A disabled breaker does nothing. *)
Theorem breaker_check_latches tr r :
  runs (check cfg) tr r -> check_outcome tr r /\ (enabled cfg = false -> tr = []).
Proof.
  revert tr r. apply wp_runs. unfold check. destruct (enabled cfg); simpl negb; cbv iota.
  2: { split; [|done]. split; [done|]. by left. }
  apply wp_mono with (Q := check_outcome); [by intros|].
  apply wp_swallow. unfold checkOnce, getState.
  assert (Hstop : forall pre, breaker_writes pre = [] -> alerts pre = [] -> check_outcome pre (Ok tt)).
  { intros pre Hw Ha. split; [done|]. by left. }
  apply wp_call. intros now. apply wp_call. intros [agg|e]; [|by apply Hstop].
  apply wp_call. intros [snaps|e]; [|by apply Hstop].
  apply wp_await, wp_call. intros [raw|e]; [|by apply Hstop]. cbn [wp resolve].
  apply wp_call. intros at_. cbv zeta. set (st := next_state _ _ _ _ _).
  assert (Hgo : forall rest, breaker_writes rest = [st] ->
    (alerts rest <> [] -> br_tripped st = true /\ br_tripped (default untripped raw) = false) ->
    check_outcome (check_reads now agg snaps raw at_ ++ rest) (Ok tt)).
  { intros rest Hw Ha. split; [done|]. right. exists now, agg, snaps, raw, at_, rest, st.
    rewrite breaker_writes_app, Hw, alerts_app. split; [reflexivity|]. split; [reflexivity|]. cbv zeta. split; [apply next_state_tripped|]. split; [|by split].
    unfold st, next_state. generalize (default untripped raw). intros prev. cbn [br_tripped br_trippedAt].
    destruct (br_tripped prev); [reflexivity|]. cbn [orb]. match goal with |- (if ?b then _ else _) = _ => by destruct b end. }
  apply wp_call. intros [[]|e]; [|by apply (Hgo [_])].
  apply wp_call. intros [].
  destruct (br_tripped st && negb (br_tripped (default untripped raw))) eqn:Hnew.
  - apply andb_true_iff in Hnew as [Hst Hprev%negb_true_iff].
    apply wp_runs. intros tr r Hr.
    assert (Hq : breaker_writes tr = []).
    { apply alarmless_writes. eapply runs_emits; [|exact Hr]. emits_auto. }
    apply (Hgo (_ :: _ :: tr)); [|done]. change (breaker_writes (?a :: ?b :: tr)) with (st :: breaker_writes tr).
    by rewrite Hq.
  - cbn. by apply (Hgo [_; _]).
Qed.
End breaker.

(** ** Persistence scheduler *)

(** What the other methods may do to the scheduler while a flush is in flight: ask for
    another one, never take it over or forget it. *)
Definition flush_respected (m m' : Mem) : Prop :=
  pf_inFlight (m_persist m) = true ->
  pf_inFlight (m_persist m') = true /\ (pf_dirty (m_persist m) = true -> pf_dirty (m_persist m') = true).

(** What every other method does: mark, push an event, fire the timer, try to flush. *)
Lemma mark_respects m : flush_respected m (set_feed (m_feed m) (mark_dirty (m_persist m)) m).
Proof. done. Qed.
Lemma push_respects ev m : flush_respected m (set_feed (push_event ev (m_feed m)) (mark_dirty (m_persist m)) m).
Proof. done. Qed.
Lemma begin_flush_respects m : flush_respected m (begin_flush m).1.
Proof. intros H. unfold begin_flush. rewrite H, orb_true_r. done. Qed.

Definition due (m : Mem) : bool := pf_dirty (m_persist m) && negb (pf_inFlight (m_persist m)).

Definition state_writes (tr : Trace) : list StoredText :=
  omap (fun ev => match ev_act ev with StateSet _ s => Some s | _ => None end) tr.
Definition saved (ev : Event (act := Action) (result := answer)) : Prop :=
  match ev with
  | {| ev_act := e; ev_res := x |} =>
      match e return answer e -> Prop with
      | StateSet _ _ | FeedSet _ => fun r => is_ok r = true
      | _ => fun _ => True
      end x
  end.

Section flush.
Context (allowed : forall e : Action, answer e -> Prop).

Definition flushed (s : Moment) (m1 m4 : Mem) (tr : Trace) (s' : Moment) : Prop :=
  log s' = log s ++ tr /\
  if due m1 then
    state_writes tr = [stringify (m_orchestrator m1)] /\
    pf_inFlight (m_persist (mem s')) = false /\ m_orchestrator (mem s') = m_orchestrator m4 /\
    (pf_dirty (m_persist m4) = true \/ ~ Forall saved tr -> pf_dirty (m_persist (mem s')) = true)
  else mem s' = m1 /\ state_writes tr = [].

Lemma end_flush_flushed m0 l m1 m4 tr (ok : bool) ev :
  due m1 = true -> state_writes tr = [stringify (m_orchestrator m1)] -> state_writes [ev] = [] -> saved ev ->
  (ok = true -> Forall saved tr) ->
  flushed {| mem := m0; log := l |} m1 m4 (tr ++ [ev])
    {| mem := (end_flush (negb ok) m4).1; log := l ++ tr ++ [ev] |}.
Proof.
  intros Hd Hw Hev0 Hev Hs. split; [done|]. rewrite Hd. unfold state_writes in *. rewrite omap_app, Hw, Hev0.
  split_and!; [done|done|done|]. simpl. intros [-> |Hn]; [done|]. destruct ok; [|by rewrite orb_true_r].
  exfalso. apply Hn, Forall_app. auto.
Qed.

(** No change is lost by the debounced writes. A flush that finds nothing to do, or
    another flush in flight, touches nothing.  Any other flush writes the orchestrator as
    it was when the flush began, never rejects and leaves no flush in flight; when one of
    its writes failed, or the state was marked dirty again in the meantime, it is dirty
    when the flush ends, so that the next timer writes it again. *)
Theorem flush_loses_nothing s :
  during allowed flush_respected s flushOrchestratorState (fun r s' =>
    r = Ok tt /\ exists m1 m4 tr, flush_respected (mem s) m1 /\ flushed s m1 m4 tr s').
Proof.
  destruct s as [m0 l]. unfold flushOrchestratorState. apply during_await, during_sync. intros m1 Hr.
  assert (Hdue : begin_flush m1 = if due m1 then
     (set_feed (m_feed m1) {| pf_dirty := false; pf_debounce := pf_debounce (m_persist m1); pf_inFlight := true |} m1,
      Some (stringify (m_orchestrator m1))) else (m1, None)).
  { unfold begin_flush, due. by destruct (pf_dirty _), (pf_inFlight _). }
  destruct (due m1) eqn:Ed; rewrite Hdue; cbn [fst snd].
  2: { split; [done|]. eexists m1, m1, _. split; [done|]. split; [reflexivity|]. rewrite Ed. done. }
  apply during_await, during_settle, during_await, during_call; [exact I|]. intros m2 r2 Hr2 _.
  assert (Hend : forall m3 tr (r : Res unit), state_writes tr = [stringify (m_orchestrator m1)] ->
    (is_ok r = true -> Forall saved tr) ->
    during allowed flush_respected {| mem := m3; log := l ++ tr |} (sync (end_flush (negb (is_ok r))))
      (fun r s' => r = Ok tt /\ exists m1 m4 tr, flush_respected m0 m1 /\ flushed {| mem := m0; log := l |} m1 m4 tr s')).
  { intros m3 tr r Hw Hs. apply during_sync. intros m4 Hr4. split; [done|].
    eexists m1, m4, (tr ++ [_]). split; [done|]. rewrite <- app_assoc.
    by apply end_flush_flushed. }
  rewrite <- app_assoc.
  destruct r2 as [[]|e]; [|apply (Hend _ _ (Throw e)); done].
  apply during_await, during_sync. intros m3 Hr3. rewrite <- app_assoc.
  apply during_call; [exact I|]. intros m5 r5 Hr5 _. rewrite <- app_assoc.
  apply Hend; [done|]. intros Hok. repeat constructor; exact Hok.
Qed.
End flush.

(** ** The feed *)
Definition feed_after (evs : list TelemetryEvent) (f : Feed) : Feed := fold_left (fun f ev => push_event ev f) evs f.
Definition event_day (ev : TelemetryEvent) : string := slice0 10 (event_ts ev).

Definition is_eval (ev : TelemetryEvent) : bool := match ev with EvEval _ _ _ => true | _ => false end.
Definition is_sweep (ev : TelemetryEvent) : bool := match ev with EvSweepDetected _ _ _ _ _ => true | _ => false end.
Definition is_signal (ev : TelemetryEvent) : bool := match ev with EvSignalFired _ _ _ _ _ => true | _ => false end.

(** The counters of one day's events. *)
Definition tally (day : string) (evs : list TelemetryEvent) : Counters := {|
  cn_date := day; cn_evals := zlen (List.filter is_eval evs);
  cn_sweeps := zlen (List.filter is_sweep evs); cn_signals := zlen (List.filter is_signal evs) |}.

Lemma feed_after_snoc evs ev f : feed_after (evs ++ [ev]) f = push_event ev (feed_after evs f).
Proof. unfold feed_after. by rewrite fold_left_app. Qed.

Lemma last_n_last_n {A} n (l k : list A) : last_n n (last_n n l ++ k) = last_n n (l ++ k).
Proof.
  unfold last_n. rewrite <- drop_app_le by lia. rewrite drop_drop, !length_drop, length_app. f_equal. lia.
Qed.

Lemma feed_events evs f : (length (fd_events f) <= TELEMETRY_RING_SIZE)%nat ->
  fd_events (feed_after evs f) = last_n TELEMETRY_RING_SIZE (fd_events f ++ evs).
Proof.
  intros Hf. induction evs as [|ev evs IH] using rev_ind.
  - rewrite app_nil_r. symmetry. by apply last_n_all.
  - rewrite feed_after_snoc. cbn [push_event fd_events]. by rewrite IH, last_n_last_n, app_assoc.
Qed.

Lemma feed_date evs ev f : cn_date (fd_counters (feed_after (evs ++ [ev]) f)) = event_day ev.
Proof.
  rewrite feed_after_snoc. unfold push_event, roll_day. cbn [fd_counters]. fold (event_day ev).
  destruct (String.eqb_spec (cn_date (fd_counters (feed_after evs f))) (event_day ev)) as [E|E]; by destruct ev.
Qed.

Lemma tally_snoc day evs ev : tally day (evs ++ [ev]) = count_event ev (tally day evs).
Proof.
  unfold tally, zlen. rewrite !List.filter_app, !length_app. destruct ev; cbn; f_equal; lia.
Qed.

Lemma feed_counters day evs f :
  cn_date (fd_counters f) <> day -> Forall (fun ev => event_day ev = day) evs -> evs <> [] ->
  fd_counters (feed_after evs f) = tally day evs.
Proof.
  intros Hf Hd. induction evs as [|ev evs IH] using rev_ind; [done|]. intros _.
  apply Forall_app in Hd as [Hd [He _]%Forall_cons]. rewrite feed_after_snoc, tally_snoc.
  unfold push_event, roll_day. cbn [fd_counters]. fold (event_day ev). rewrite He.
  destruct evs as [|e0 evs0].
  - cbn [feed_after fold_left]. apply String.eqb_neq in Hf. by rewrite Hf.
  - rewrite IH by done. cbn [tally cn_date]. by rewrite String.eqb_refl.
Qed.

(** What the dashboard shows. After any sequence of telemetry events the feed holds
    the last 200 of them, in order, and the counters are the numbers of evaluations,
    sweeps and signals among the events since the last change of UTC day. *)
Theorem feed_shows_the_day pre evs day f :
  (length (fd_events f) <= TELEMETRY_RING_SIZE)%nat ->
  Forall (fun ev => event_day ev = day) evs -> evs <> [] ->
  match last pre with Some ev => event_day ev | None => cn_date (fd_counters f) end <> day ->
  fd_events (feed_after (pre ++ evs) f) = last_n TELEMETRY_RING_SIZE (fd_events f ++ pre ++ evs) /\
  fd_counters (feed_after (pre ++ evs) f) = tally day evs.
Proof.
  intros Hf Hd Hne Hpre. split; [by apply feed_events|].
  replace (feed_after (pre ++ evs) f) with (feed_after evs (feed_after pre f)) by (unfold feed_after; by rewrite fold_left_app).
  apply feed_counters; [|done|done]. destruct pre as [|ev pre] using rev_ind; [exact Hpre|].
  rewrite last_snoc in Hpre. by rewrite feed_date.
Qed.

(** A restart keeps what the feed shows. *)
Definition raw_feed (s : FeedSnapshot) : RawFeed := {|
  rf_events := Some (fs_events s); rf_lastEval := Some (fs_lastEval s); rf_counters := Some (fs_counters s) |}.
Lemma feed_roundtrip f f0 :
  (length (fd_events f) <= TELEMETRY_RING_SIZE)%nat -> restore_feed (raw_feed (feed_snapshot f)) f0 = f.
Proof.
  intros Hf. destruct f as [evs le c]. unfold restore_feed, feed_snapshot. simpl in *.
  by rewrite last_n_all, list_to_map_to_list.
Qed.
