(* ===== verification/MonitorFacts.v ===== *)
(** * Position monitor and position manager: their contracts

    When a trade counts as gone, what is booked for it, and that the table's stops follow
    the broker's. *)
From S2P Require Import Prelude Async JsNum NumFacts JsDate Types Instruments Indicators PositionSimulator.
From S2P Require Import Orchestrator LiveTypes ExitReconciliation EngineMemory LiveExecution LiveStrategy.
From S2P Require Import PositionMonitor PositionManager Lifecycle LifecycleFacts ExecutionFacts SharedSignalFacts.
Local Open Scope num_scope.

(** ** Three misses in a row *)

(** The observations so far, oldest first, with the answers of [observe]. *)
Fixpoint observe_all (os : list (string * Sighting)) (counts : gmap string Z) : gmap string Z * list bool :=
  match os with
  | [] => (counts, [])
  | (id, o) :: os' =>
      let '(counts', fin) := observe id o counts in
      let '(counts'', l) := observe_all os' counts' in (counts'', fin :: l)
  end.

(** The misses of a trade since it was last seen. *)
Definition misses_after (id : string) (n : Z) (o : string * Sighting) : Z :=
  if decide (o.1 = id) then match o.2 with Seen => 0%Z | Missing => (n + 1)%Z end else n.
Definition missed (id : string) (os : list (string * Sighting)) : Z := fold_left (misses_after id) os 0%Z.

(** The counter of a trade is the number of misses since it was seen or given up. *)
Definition counts_agree (os : list (string * Sighting)) (counts : gmap string Z) : Prop :=
  forall id, default 0%Z (counts !! id) = (missed id os mod 3)%Z.

Lemma missed_snoc id os o : missed id (os ++ [o]) = misses_after id (missed id os) o.
Proof. unfold missed. by rewrite fold_left_app. Qed.

Lemma observe_agrees os id o counts :
  counts_agree os counts ->
  counts_agree (os ++ [(id, o)]) (observe id o counts).1 /\
  (observe id o counts).2 = match o with Seen => false | Missing => bool_decide (missed id (os ++ [(id, o)]) mod 3 = 0)%Z end.
Proof.
  intros H. pose proof (H id) as Hid. pose proof (Z.mod_pos_bound (missed id os) 3 ltac:(lia)) as Hb.
  assert (Hother : forall k c, k <> id -> default 0%Z (counts !! k) = c -> c = (missed k (os ++ [(id, o)]) mod 3)%Z).
  { intros k c Hk <-. rewrite missed_snoc. unfold misses_after. simpl. rewrite decide_False by congruence. apply H. }
  assert (Hnext : missed id (os ++ [(id, Missing)]) = (missed id os + 1)%Z).
  { rewrite missed_snoc. unfold misses_after. simpl. by rewrite decide_True. }
  assert (Hmod : ((missed id os + 1) mod 3)%Z = if (missed id os mod 3 =? 2)%Z then 0%Z else (missed id os mod 3 + 1)%Z).
  { rewrite Z.add_mod by lia. destruct (Z.eqb_spec (missed id os mod 3) 2) as [->|]; [done|]. rewrite Z.mod_small; [done|]. 
    change (1 mod 3)%Z with 1%Z. lia. }
  destruct o; simpl.
  - split; [|done]. intros k. destruct (decide (k = id)) as [->|Hk].
    + rewrite lookup_delete_eq, missed_snoc. unfold misses_after. simpl. by rewrite decide_True.
    + rewrite lookup_delete_ne by done. by apply Hother.
  - rewrite Hid. unfold ABSENCE_CONFIRMATIONS. rewrite Hnext, Hmod.
    destruct (Z.ltb_spec (missed id os mod 3 + 1) 3), (Z.eqb_spec (missed id os mod 3) 2); try lia; simpl.
    + split; [|symmetry; apply bool_decide_eq_false; lia]. intros k. destruct (decide (k = id)) as [->|Hk].
      * rewrite lookup_insert_eq, Hnext, Hmod. simpl. destruct (Z.eqb_spec (missed id os mod 3) 2); lia.
      * rewrite lookup_insert_ne by done. by apply Hother.
    + split; [|reflexivity]. intros k. destruct (decide (k = id)) as [->|Hk].
      * rewrite lookup_delete_eq, Hnext, Hmod. simpl. destruct (Z.eqb_spec (missed id os mod 3) 2); lia.
      * rewrite lookup_delete_ne by done. by apply Hother.
Qed.

(** The absence counters are equivalent to counting misses. Over any sequence of
    observations of any trades, from empty counters, a trade is finalized by an
    observation exactly when this is a miss and the number of its misses since it was
    last seen is a multiple of three; observations of other trades do not matter. *)
Theorem observe_confirms_absence os id o :
  (observe_all (os ++ [(id, o)]) ∅).2 !! length os =
  Some match o with Seen => false | Missing => bool_decide (missed id (os ++ [(id, o)]) mod 3 = 0)%Z end.
Proof.
  assert (Hall : forall past os counts, counts_agree past counts ->
    counts_agree (past ++ os) (observe_all os counts).1 /\
    forall id o, (observe_all (os ++ [(id, o)]) counts).2 !! length os =
      Some match o with Seen => false | Missing => bool_decide (missed id (past ++ os ++ [(id, o)]) mod 3 = 0)%Z end).
  { intros past os0. revert past. induction os0 as [|[id0 o0] os0 IH]; intros past counts Hc; simpl.
    - rewrite app_nil_r. split; [done|]. intros id1 o1.
      destruct (observe_agrees past id1 o1 counts Hc) as [_ E]. destruct (observe id1 o1 counts). simpl in *. by rewrite E.
    - destruct (observe_agrees past id0 o0 counts Hc) as [Hc' _].
      destruct (observe id0 o0 counts) as [counts' fin]. simpl in Hc'.
      destruct (IH _ counts' Hc') as [IH1 IH2]. split.
      + destruct (observe_all os0 counts') as [c'' l]. simpl in *. by rewrite <- app_assoc in IH1.
      + intros id1 o1. specialize (IH2 id1 o1). destruct (observe_all (os0 ++ _) counts') as [c'' l]. simpl in *.
        rewrite IH2. by rewrite <- app_assoc. }
  apply (Hall [] os ∅). intros k. by rewrite lookup_empty.
Qed.

(** ** Updates in a trace *)
Definition answered (e : Action) (x : answer e) : Event := {| ev_act := e; ev_res := x |}.

Definition update_of (ev : Event (act := Action) (result := answer)) : option (string * TradePatch) :=
  match ev_act ev with TradeUpdate id p => Some (id, p) | _ => None end.
Definition updates (tr : Trace) : list (string * TradePatch) := omap update_of tr.

Lemma updates_app tr tr' : updates (tr ++ tr') = updates tr ++ updates tr'.
Proof. apply omap_app. Qed.

Definition updateless (e : Action) : Prop := match e with TradeUpdate _ _ => False | _ => True end.
Lemma updateless_updates tr : Forall (fun ev => updateless (ev_act ev)) tr -> updates tr = [].
Proof. unfold updates. induction 1 as [|[e x] tr He _ IH]; [done|]. by destruct e. Qed.

(** What the broker's history said: the first answer with a record. *)
Definition history_answer (ev : Event (act := Action) (result := answer)) : option PositionHistory :=
  match ev with
  | {| ev_act := e; ev_res := x |} =>
      match e return answer e -> option PositionHistory with
      | BrokerHistory _ _ => fun r => match r with Ok o => o | Throw _ => None end
      | _ => fun _ => None
      end x
  end.
Definition history_told (tr : Trace) : option PositionHistory := head (omap history_answer tr).

Lemma fetch_history_tells acct tk :
  wp (fetch_history acct tk) (fun tr r => updates tr = [] /\ r = Ok (history_told tr)).
Proof.
  unfold fetch_history, account_history, try_catch.
  destruct acct as [a|]; [destruct (truthy_string a)|]; cbn.
  - intros [[h|]|e]; cbn; [done| |]; intros [h'|e']; cbn; try done; by destruct h'.
  - intros [h'|e']; cbn; try done; by destruct h'.
  - intros [h'|e']; cbn; try done; by destruct h'.
Qed.

(** ** Closing a trade *)
Definition facts_of (h : option PositionHistory) (now : Z) : CloseFacts :=
  match h with Some x => read_history x now | None => no_history now end.

Definition sister_moved (tr : Trace) (u : string * TradePatch) : Prop :=
  exists s : Trade, u = (t_id s, sister_patch s) /\
    answered (BrokerModify (route (account s)) (default 0%Z (ticket s)) (sister_stop s) (t_tpPrice (t_data s))) (Ok tt) ∈ tr.

Lemma sister_trigger id :
  wp (maybeTriggerSisterRunnerBe id) (fun tr _ =>
    (length (updates tr) <= 1)%nat /\ Forall (sister_moved tr) (updates tr)).
Proof.
  unfold maybeTriggerSisterRunnerBe. apply wp_call. intros [[closed|]|e]; [|cbn; by split; [lia|]..].
  destruct (bool_decide _); [|cbn; by split; [lia|]].
  apply wp_call. intros [[s|]|e]; [|cbn; by split; [lia|]..]. cbv zeta.
  destruct (_ || _); [cbn; by split; [lia|]|].
  apply wp_await, wp_settle. intros [[]|e]; [|cbn; by split; [lia|]].
  cbn. intros x. split; [lia|]. constructor; [|constructor]. exists s. split; [done|]. do 2 right. left.
Qed.

(** The price, profit and reason that are booked. *)
Lemma close_facts_broker d h now c p :
  ph_closePrice h = Some c -> history_pnl h = Some p ->
  close_facts d (read_history h now) = (c, p, infer_reason d (read_history h now), cf_closedAt (read_history h now)) /\
  (infer_reason d (read_history h now) = "TP" \/ infer_reason d (read_history h now) = "SL" \/
   infer_reason d (read_history h now) = "CLOSED")%string.
Proof.
  intros Hc Hp. unfold close_facts, infer_reason, read_history. simpl. rewrite Hc, Hp. split; [done|].
  set (w := match history_reason h with Some _ => _ | None => _ end).
  destruct (String.eqb_spec w "TP") as [->|H1]; [auto|]. destruct (String.eqb_spec w "SL") as [->|H2]; [auto|].
  simpl. unfold inferExitReason. repeat case_match; auto.
Qed.

(** The writes of a finalization, given what the history told. *)
Definition booked (t : Trade) (tr : Trace) : Prop :=
  exists now sisters,
    let x := close_facts (t_data t) (facts_of (history_told tr) now) in
    updates tr = (t_id t, closed_patch x) :: sisters /\
    (forall h c p, history_told tr = Some h -> ph_closePrice h = Some c -> history_pnl h = Some p ->
       p_closePrice (closed_patch x) = Some (round5 c) /\ p_pnl (closed_patch x) = Some (round2 p) /\
       (p_exitReason (closed_patch x) = Some "TP" \/ p_exitReason (closed_patch x) = Some "SL" \/
        p_exitReason (closed_patch x) = Some "CLOSED")%string) /\
    (length sisters <= 1)%nat /\ Forall (sister_moved tr) sisters /\
    (sisters <> [] -> startsWith "TP" x.1.2 = true).

Lemma sister_moved_app tr tr' u : sister_moved tr' u -> sister_moved (tr ++ tr') u.
Proof. intros (s & -> & H). exists s. split; [done|]. apply elem_of_app. auto. Qed.

Lemma booked_intro t now tr rest sisters :
  let x := close_facts (t_data t) (facts_of (history_told tr) now) in
  updates tr = [] -> omap history_answer rest = [] ->
  updates rest = (t_id t, closed_patch x) :: sisters ->
  (length sisters <= 1)%nat -> Forall (sister_moved rest) sisters ->
  (sisters <> [] -> startsWith "TP" x.1.2 = true) ->
  booked t (answered Now now :: tr ++ rest).
Proof.
  cbv zeta. intros Hu Hh Hr Hl Hs Htp. exists now, sisters. cbv zeta.
  assert (E : history_told (answered Now now :: tr ++ rest) = history_told tr).
  { unfold history_told. cbn. by rewrite omap_app, Hh, app_nil_r. }
  rewrite E. split_and!; [| |done| |done].
  - change (updates (answered Now now :: tr ++ rest)) with (updates (tr ++ rest)). by rewrite updates_app, Hu.
  - intros h c p Ht Hc Hp. rewrite Ht. simpl facts_of.
    destruct (close_facts_broker (t_data t) h now c p Hc Hp) as [-> Hw].
    cbn [closed_patch p_closePrice p_pnl p_exitReason]. split_and!; [done|done|].
    destruct Hw as [Hw|[Hw|Hw]]; rewrite Hw; auto.
  - eapply Forall_impl; [exact Hs|]. intros u Hm. by apply (sister_moved_app (answered Now now :: tr)).
Qed.

Definition historyless (e : Action) : Prop := match e with BrokerHistory _ _ => False | _ => True end.
Lemma historyless_told tr : Forall (fun ev => historyless (ev_act ev)) tr -> omap history_answer tr = [].
Proof. induction 1 as [|[e x] tr He _ IH]; [done|]. by destruct e. Qed.

(** C31: Finalizing a trade. finalizeClosedTrade never rejects. Its first write closes the
    row with the price, profit, reason and time computed from what the broker's history
    told, the account's route first; when the history told a price and a profit, these
    are booked, rounded, with the reason TP, SL or CLOSED and never an estimate; the only
    other write moves the stop of a sister runner, after the broker accepted that stop,
    and only when the reason begins with TP. *)
Theorem finalize_books_the_exit ov t acct tr r :
  runs (finalizeClosedTrade ov t acct) tr r -> r = Ok tt /\ booked t tr.
Proof.
  revert tr r. apply wp_runs. unfold finalizeClosedTrade. apply wp_swallow.
  apply wp_call. intros now. apply wp_await. eapply wp_mono; [|apply fetch_history_tells].
  intros tr r [Hu ->]. cbv zeta. fold (facts_of (history_told tr) now).
  pose proof (booked_intro t now tr) as Hb. cbv zeta in Hb. revert Hb.
  destruct (close_facts (t_data t) (facts_of (history_told tr) now)) as [[[c p] why] at_] eqn:Ex. intros Hb.
  assert (Hone : forall rest, omap history_answer rest = [] -> updates rest = [(t_id t, closed_patch (c, p, why, at_))] ->
    Ok tt = Ok tt :> Res unit /\ booked t (answered Now now :: tr ++ rest)).
  { intros rest Hh Hr. split; [done|]. apply (Hb rest []); [done|done|done|simpl; lia|constructor|done]. }
  apply wp_call. intros [[]|e]; [|by apply (Hone [_])].
  apply wp_call. intros enriched. apply wp_call. intros [[]|e]; [|by apply (Hone [_; _; _])].
  unfold sync_res. apply wp_call. intros [[]|e]; [|by apply (Hone [_; _; _; _])].
  destruct (startsWith "SL" why); [cbn; by apply (Hone [_; _; _; _])|].
  destruct (startsWith "TP" why) eqn:Htp; [|cbn; by apply (Hone [_; _; _; _])].
  apply wp_swallow. eapply wp_mono; [|apply wp_conj; [apply sister_trigger|apply (wp_emits historyless)]].
  2: { unfold maybeTriggerSisterRunnerBe. emits_auto. }
  intros tr' r' [[Hl Hs] Hh%historyless_told]. split; [done|].
  apply (Hb (_ :: _ :: _ :: _ :: tr') (updates tr')); [done|done|done|done| |done].
  eapply Forall_impl; [exact Hs|]. intros u Hm. by apply (sister_moved_app [_; _; _; _]).
Qed.

(** ** A pass over the open rows *)

(** A row that may be closed: one of the rows read, its ticket not among the broker's
    positions, and its absence confirmed. *)
Definition closable_row (sym : string) (acct : option string) (tr : Trace) (t : Trade) : Prop :=
  exists positions rows,
    answered (BrokerPositions acct (Some sym)) (Ok positions) ∈ tr /\
    answered (TradeFindMany (open_rows sym acct) None) (Ok rows) ∈ tr /\ t ∈ rows /\
    sighting (bp_ticket <$> positions) t = Missing /\
    answered (Sync bool (observe_trade (bp_ticket <$> positions) t)) true ∈ tr.

Definition closing (u : string * TradePatch) : Prop := p_status u.2 = Some CLOSED.

Lemma observe_missing tickets t counts : (observe (t_id t) (sighting tickets t) counts).2 = true -> sighting tickets t = Missing.
Proof. by destruct (sighting tickets t). Qed.

Definition anything_allowed (e : Action) (x : answer e) : Prop := True.
Definition any_change (m m' : Mem) : Prop := True.
Abbreviation always := (during anything_allowed any_change).

(** The closes of a trace are of closable rows. *)
Definition closes_justified (sym : string) (acct : option string) (tr : Trace) : Prop :=
  Forall (fun u => closing u -> exists t, closable_row sym acct tr t /\ u.1 = t_id t) (updates tr).

Lemma closable_row_app sym acct tr tr' t : closable_row sym acct tr t -> closable_row sym acct (tr ++ tr') t.
Proof.
  intros (ps & rows & H1 & H2 & H3 & H4 & H5). exists ps, rows. rewrite !elem_of_app. auto 10.
Qed.

Lemma closes_justified_app sym acct tr tr' :
  closes_justified sym acct tr ->
  Forall (fun u => closing u -> exists t, closable_row sym acct (tr ++ tr') t /\ u.1 = t_id t) (updates tr') ->
  closes_justified sym acct (tr ++ tr').
Proof.
  intros H H'. unfold closes_justified. rewrite updates_app. apply Forall_app. split; [|done].
  eapply Forall_impl; [exact H|]. intros u Hu Hc. destruct (Hu Hc) as (t & Ht & E). exists t.
  split; [by apply closable_row_app|done].
Qed.

Lemma booked_closes t tr : booked t tr -> Forall (fun u => closing u -> u.1 = t_id t) (updates tr).
Proof.
  intros (now & sisters & -> & _ & _ & Hs & _). constructor; [done|].
  eapply Forall_impl; [exact Hs|]. intros u (s & -> & _) Hc. discriminate Hc.
Qed.

Lemma reconcile_one_justified ov sym acct positions rows t l tr :
  answered (BrokerPositions acct (Some sym)) (Ok positions) ∈ tr ->
  answered (TradeFindMany (open_rows sym acct) None) (Ok rows) ∈ tr -> t ∈ rows ->
  closes_justified sym acct tr ->
  forall m0, always {| mem := m0; log := l ++ tr |} (reconcile_one ov (bp_ticket <$> positions) acct t)
    (fun r s' => exists tr', log s' = l ++ tr ++ tr' /\ closes_justified sym acct (tr ++ tr')).
Proof.
  intros Hp Hr Ht Hj m0. unfold reconcile_one. apply during_await, during_sync. intros m1 _.
  destruct (observe_trade (bp_ticket <$> positions) t m1) as [m2 fin] eqn:Eo. cbn [fst snd].
  set (ev := answered (Sync bool (observe_trade (bp_ticket <$> positions) t)) fin).
  change {| ev_act := Sync bool _; ev_res := fin |} with ev. destruct fin.
  2: { exists [ev]. split; [by rewrite <- app_assoc|]. apply closes_justified_app; [done|constructor]. }
  eapply during_mono; [|apply during_wp, wp_runs, finalize_books_the_exit]. cbn.
  intros r s' (tr' & E & _ & Hb). exists (ev :: tr'). rewrite E, <- !app_assoc. split; [done|].
  apply closes_justified_app; [done|]. change (updates (ev :: tr')) with (updates tr').
  eapply Forall_impl; [by apply booked_closes|]. intros u Hu Hc. exists t. split; [|auto].
  exists positions, rows. rewrite !elem_of_app, elem_of_cons. split_and!; [auto|auto|done| |].
  - apply (observe_missing _ _ (m_absence m1)). revert Eo. unfold observe_trade. destruct (observe _ _ _). by intros [= _ ->].
  - right. by left.
Qed.

(** C13: A pass closes only what is gone. Whatever the broker, the database and the other
    methods do, every row that reconcilePair closes is one of the OPEN rows with a ticket
    it read for that symbol and account, its ticket is not among the positions the broker
    reported in this pass, and its absence counter confirmed it in this pass. *)
Theorem reconcile_closes_only_missing ov sym acct s :
  always s (reconcilePair ov sym acct) (fun _ s' =>
    exists tr, log s' = log s ++ tr /\ closes_justified sym acct tr).
Proof.
  destruct s as [m0 l]. unfold reconcilePair. apply during_await, during_call; [exact I|].
  intros m1 [positions|e] _ _; [|eexists [_]; split; [done|constructor]].
  apply during_await, during_call; [exact I|].
  intros m2 [rows|e] _ _; [|eexists [_; _]; split; [simpl; by rewrite <- app_assoc|constructor]].
  rewrite <- app_assoc. set (head := [_] ++ [_] : Trace).
  assert (Hhead : closes_justified sym acct head) by constructor.
  assert (Hp : answered (BrokerPositions acct (Some sym)) (Ok positions) ∈ head) by left.
  assert (Hr : answered (TradeFindMany (open_rows sym acct) None) (Ok rows) ∈ head) by (right; left).
  unfold reconcileTrades, for_each. unfold during.
  apply safe_fold_each with (I := fun s => exists tr, log s = l ++ head ++ tr /\ closes_justified sym acct (head ++ tr)).
  - intros t _ [m3 l3] Hin (tr & E & Hj). cbn [log] in E. subst l3.
    eapply safe_mono; [|apply (reconcile_one_justified ov sym acct positions rows t l (head ++ tr))]; try done.
    + intros r s' (tr' & E & Hj'). rewrite <- !app_assoc in *. destruct r; eexists; (split; [exact E|exact Hj']).
    + apply elem_of_app. by left.
    + apply elem_of_app. by left.
  - intros _ s' (tr & E & Hj). eauto.
  - exists []. by rewrite !app_nil_r.
Qed.

(** ** The manager *)

(** The stop or the target moved by the symbol's minimum change, or the target is gone. *)
Definition moved (sym : string) (p q : SimulatedPosition) : Prop :=
  (nabs (slPrice q - slPrice p) >=? minSlChangeAbs sym)%num = true \/
  exists a, tpPrice p = Some a /\
    match tpPrice q with Some b => (nabs (b - a) >=? minSlChangeAbs sym)%num = true | None => True end.

Lemma moved_must_modify sym p q : moved sym p q -> must_modify sym p q = true.
Proof.
  unfold must_modify. intros [->|(a & -> & H)]; [done|].
  destruct (tpPrice q) as [b|]; [by rewrite H, !orb_true_r|by rewrite orb_true_r].
Qed.

(** A stop and target the manager may write: computed by the position management from the
    broker's position, and accepted by the broker when they moved noticeably. *)
Definition follows_broker (sym : string) (acct : option string) (tr : Trace) (u : string * TradePatch) : Prop :=
  exists rows positions c older spread t b,
    answered (TradeFindMany (open_rows sym acct) None) (Ok rows) ∈ tr /\
    answered (BrokerPositions acct (Some sym)) (Ok positions) ∈ tr /\
    answered (CandleFindMany sym "M15" 1) (Ok (c :: older)) ∈ tr /\ getSpread sym (openTime c) = Ok spread /\
    t ∈ rows /\ by_ticket positions (ticket t) = Some b /\
    let p := position_of t b (parseState t b) in
    let q := updatePositionManagement p c spread in
    u = (t_id t, management_patch t (parseState t b) q) /\
    (moved sym p q ->
       answered (BrokerModify acct (default 0%Z (ticket t)) (slPrice q) (default (of_Z 0) (tpPrice q))) (Ok tt) ∈ tr) /\
    managed_frame p q /\
    (priced p -> breakevenActivated p = false -> breakevenActivated q = true ->
       tighter (side p) (entryPrice p) (slPrice q)) /\
    (wf_pos p -> managed_from p q).

Lemma manage_trade_follows sym acct positions c spread t :
  wp (manage_trade sym acct positions c spread t) (fun tr r =>
    match updates tr with
    | [] => True
    | us => exists b, by_ticket positions (ticket t) = Some b /\
        let p := position_of t b (parseState t b) in
        let q := updatePositionManagement p c spread in
        us = [(t_id t, management_patch t (parseState t b) q)] /\
        (must_modify sym p q = true ->
          answered (BrokerModify acct (default 0%Z (ticket t)) (slPrice q) (default (of_Z 0) (tpPrice q))) (Ok tt) ∈ tr)
    end).
Proof.
  unfold manage_trade. destruct (by_ticket positions (ticket t)) as [b|]; [|done]. cbv zeta.
  set (p := position_of t b (parseState t b)). set (q := updatePositionManagement p c spread).
  destruct (negb (management_changed p q)); [done|]. apply wp_await.
  destruct (must_modify sym p q) eqn:Em.
  - apply wp_await, wp_settle. intros [[]|e]; [|done]. cbn. intros x. exists b. split_and!; [done|done|].
    intros _. left.
  - cbn. intros x. exists b. split; [done|]. split; [done|].
    change (must_modify sym p q = true -> answered (BrokerModify acct (default 0%Z (ticket t)) (slPrice q)
      (default (of_Z 0) (tpPrice q))) (Ok tt) ∈ [answered (TradeUpdate (t_id t) (management_patch t (parseState t b) q)) x]).
    by rewrite Em.
Qed.

Lemma follows_broker_app sym acct tr tr' u : follows_broker sym acct tr u -> follows_broker sym acct (tr ++ tr') u.
Proof.
  intros (rows & ps & c & older & spread & t & b & H). exists rows, ps, c, older, spread, t, b. cbv zeta in *.
  rewrite !elem_of_app. destruct H as (H1 & H2 & H3 & H4 & H5 & H6 & H7 & H8 & H9 & H10 & H11). split_and!; auto.
Qed.

(** C14: The table follows the broker. Every row manageSymbol writes is one of the OPEN rows
    it read whose ticket the broker reported; what it writes is the position management
    applied, with the latest M15 bar and its spread, to the stop and target the broker
    has; when these moved by the minimum change, the broker accepted the same stop and
    target in that pass.  With respect to the broker's position, whatever it is: breakeven never
    goes back, the target is kept or removed, the stop stays until breakeven is set, is then put
    a tenth of the original risk beyond the entry or tighter, and never loosens once it is set
    ([managed_frame]).  When entry and original stop are finite prices the bar that sets
    breakeven puts the stop at the entry or better; when, moreover, the broker's stop is not
    beyond the entry before breakeven ([wf_pos]), the stop never loosens at all. *)
Theorem manager_follows_broker sym acct tr r :
  runs (manageSymbol sym acct) tr r -> Forall (follows_broker sym acct tr) (updates tr).
Proof.
  revert tr r. apply wp_runs. unfold manageSymbol.
  apply wp_call. intros [rows|e]; [|constructor]. destruct rows as [|t0 rows0]; [constructor|].
  set (rows := t0 :: rows0).
  apply wp_call. intros [positions|e]; [|constructor].
  unfold fetchLatestM15. apply wp_await, wp_call. intros [bars|e]; [|constructor]. cbn [wp resolve].
  destruct bars as [|c older]; [constructor|]. cbn [head].
  destruct (getSpread sym (openTime c)) as [spread|e] eqn:Es; [|constructor].
  set (pre := [answered (TradeFindMany (open_rows sym acct) None) (Ok rows);
               answered (BrokerPositions acct (Some sym)) (Ok positions);
               answered (CandleFindMany sym "M15" 1) (Ok (c :: older))]).
  apply wp_mono with (Q := fun tr r => Forall (follows_broker sym acct (pre ++ tr)) (updates (pre ++ tr))); [by intros|].
  assert (Hadd : forall tr t tr', t ∈ rows -> Forall (follows_broker sym acct (pre ++ tr)) (updates (pre ++ tr)) ->
    match updates tr' with
    | [] => True
    | us => exists b, by_ticket positions (ticket t) = Some b /\
        let p := position_of t b (parseState t b) in
        let q := updatePositionManagement p c spread in
        us = [(t_id t, management_patch t (parseState t b) q)] /\
        (must_modify sym p q = true ->
          answered (BrokerModify acct (default 0%Z (ticket t)) (slPrice q) (default (of_Z 0) (tpPrice q))) (Ok tt) ∈ tr')
    end -> Forall (follows_broker sym acct (pre ++ tr ++ tr')) (updates (pre ++ tr ++ tr'))).
  { intros tr t tr' Ht Hold Hnew. rewrite app_assoc, updates_app. apply Forall_app. split.
    - eapply Forall_impl; [exact Hold|]. intros u. apply follows_broker_app.
    - destruct (updates tr') as [|u us]; [constructor|]. destruct Hnew as (b & Hb & E & Hm). cbv zeta in *. rewrite E.
      constructor; [|constructor]. exists rows, positions, c, older, spread, t, b. cbv zeta.
      split_and!; try done;
        [left|right; left|do 2 right; left| |apply update_managed_frame
        |apply frame_locks, update_managed_frame|by apply update_managed_from].
      intros Hmust. apply elem_of_app. right. by apply Hm, moved_must_modify. }
  apply wp_loop with (I := fun tr left_ _ => left_ ⊆ rows /\ Forall (follows_broker sym acct (pre ++ tr)) (updates (pre ++ tr))).
  - split; [done|constructor].
  - intros tr t left_ [] [Hs Hf]. eapply wp_mono; [|apply manage_trade_follows]. intros tr' r Hnew.
    assert (Hf' := Hadd tr t tr' (Hs t (list_elem_of_here _ _)) Hf Hnew).
    destruct r as [[]|e]; [|done]. split; [|done]. intros x Hx. apply Hs. by right.
  - intros tr [] [_ Hf]. done.
Qed.
