(* ===== verification/ReconcileFacts.v ===== *)
(** * The sweeps: their contracts

    Every parked order is polled and only the broker's word moves it; a sweep gives its
    flag back; with a broker that answers, estimated exits are all corrected in the end. *)
From S2P Require Import Prelude Async JsNum JsDate Types Orchestrator LiveTypes.
From S2P Require Import ExitReconciliation EngineMemory LiveExecution LiveStrategy Lifecycle LifecycleFacts ExecutionFacts SharedSignalFacts LiveLab MonitorFacts.
From S2P Require PendingEntry ExitReconciliation.

(** ** Parked orders *)
Import PendingEntry.

Definition poll_of (t : Trade) : string * string * string :=
  (default "" (account t), default "" (t_brokerOrderId (t_data t)), trade_symbol t)%string.
Definition polls (tr : Trace) : list (string * string * string) :=
  omap (fun ev => match ev_act ev with BrokerOrderStatus a o s => Some (a, o, s) | _ => None end) tr.

(** The updates the database confirmed. *)
Definition confirmed (ev : Event (act := Action) (result := answer)) : option TradePatch :=
  match ev with
  | {| ev_act := e; ev_res := x |} =>
      match e return answer e -> option TradePatch with
      | TradeUpdate _ p => fun r => match r with Ok _ => Some p | Throw _ => None end
      | _ => fun _ => None
      end x
  end.
Definition count_confirmed (st : TradeStatus) (tr : Trace) : Z :=
  zlen (List.filter (fun p => bool_decide (p_status p = Some st)) (omap confirmed tr)).

Lemma polls_app tr tr' : polls (tr ++ tr') = polls tr ++ polls tr'.
Proof. apply omap_app. Qed.
Lemma count_confirmed_app st tr tr' : count_confirmed st (tr ++ tr') = count_confirmed st tr + count_confirmed st tr'.
Proof. unfold count_confirmed, zlen. rewrite omap_app, List.filter_app, length_app. lia. Qed.

Definition status_answer (t : Trade) (st : OrderStatus) : Event (act := Action) (result := answer) :=
  answered (BrokerOrderStatus (default "" (account t)) (default "" (t_brokerOrderId (t_data t))) (trade_symbol t)) (Ok st).

(** The broker's word for an update of a parked row. *)
Definition told (tr : Trace) (t : Trade) (u : string * TradePatch) : Prop :=
  exists st,
    status_answer t st ∈ tr /\
    u.1 = t_id t /\
    ((os_status st = "FILLED"%string /\ exists pos fill now, os_positionId st = Some pos /\ pos <> 0 /\
        fill_price st t = Some fill /\ u.2 = filled_patch t pos fill now) \/
     (os_status st = "GONE"%string /\ exists closed now, u.2 = expired_patch t closed now)).

Lemma told_app tr tr' t u : told tr t u \/ told tr' t u -> told (tr ++ tr') t u.
Proof. intros [(st & H & E)|(st & H & E)]; exists st; rewrite elem_of_app; auto. Qed.

Definition row_swept (t : Trade) (tr : Trace) (n : Z * Z) : Prop :=
  polls tr = [poll_of t] /\ Forall (told tr t) (updates tr) /\
  count_confirmed OPEN tr = n.1 /\ count_confirmed CANCELLED tr = n.2.

Lemma truthy_id_spec o z : truthy_id o = Some z -> o = Some z /\ z <> 0.
Proof. unfold truthy_id. destruct o as [k|]; [|done]. destruct (Z.eqb_spec k 0); [done|]. by intros [= ->]. Qed.

Lemma sweep_row_swept t :
  wp (sweep_row t) (fun tr r => row_swept t tr (match r with Ok n => n | Throw _ => (0, 0) end)).
Proof.
  unfold sweep_row. apply wp_call. intros [st|e]; [|by split_and!].
  destruct (String.eqb_spec (os_status st) "FILLED") as [Hf|Hf]; [destruct (truthy_id (os_positionId st)) as [pos|] eqn:Hp|].
  - apply truthy_id_spec in Hp as [Hp Hpos]. apply wp_call. intros now.
    destruct (fill_price st t) as [fill|] eqn:Hfill; [|by split_and!].
    apply wp_await. cbn [wp resolve]. apply wp_call. intros x.
    assert (Ht : forall rest, told (status_answer t st :: rest) t (t_id t, filled_patch t pos fill now)).
    { intros rest. exists st. split; [left|]. split; [done|]. left. split; [done|]. by exists pos, fill, now. }
    destruct x as [[]|e]; [|split_and!; [done|by constructor|done|done]].
    apply wp_call. intros ts. unfold pushExternalEvent, pushEvent, sync. apply wp_call. intros [].
    split_and!; [done|by constructor|done|done].
  - by destruct (String.eqb_spec (os_status st) "GONE"); [congruence|split_and!].
  - destruct (String.eqb_spec (os_status st) "GONE") as [Hg|Hg]; [|by split_and!].
    apply wp_call. intros closed. apply wp_call. intros now. apply wp_call. intros x.
    assert (Ht : forall rest, told (status_answer t st :: rest) t (t_id t, expired_patch t closed now)).
    { intros rest. exists st. split; [left|]. split; [done|]. right. split; [done|]. by exists closed, now. }
    destruct x as [[]|e]; [|split_and!; [done|by constructor|done|done]].
    apply wp_call. intros ts. unfold pushExternalEvent, pushEvent, sync. apply wp_call. intros [].
    split_and!; [done|by constructor|done|done].
Qed.

(** Parked orders. A sweep that ends has read the parked rows (at most 50) and asked
    the broker about each of them, in order, whatever went wrong with the others; every
    update makes a row OPEN with the position and fill price of a FILLED order, or
    CANCELLED because the order is GONE, on the broker's answer for that row; and the
    counters are the numbers of updates the database confirmed. *)
Theorem pending_sweep_follows_broker tr n :
  runs sweepOnce tr (Ok n) ->
  exists rows, head tr = Some (answered (TradeFindMany parked (Some 50%nat)) (Ok rows)) /\
    polls tr = poll_of <$> rows /\
    Forall (fun u => exists t, t ∈ rows /\ told tr t u) (updates tr) /\
    sc_filled n = count_confirmed OPEN tr /\ sc_expired n = count_confirmed CANCELLED tr.
Proof.
  set (Q := fun (tr : Trace) (r : Res SweepCount) => forall n, r = Ok n ->
    exists rows, head tr = Some (answered (TradeFindMany parked (Some 50%nat)) (Ok rows)) /\
    polls tr = poll_of <$> rows /\
    Forall (fun u => exists t, t ∈ rows /\ told tr t u) (updates tr) /\
    sc_filled n = count_confirmed OPEN tr /\ sc_expired n = count_confirmed CANCELLED tr).
  intros Hr. refine (proj1 (wp_runs _ Q) _ tr _ Hr n eq_refl). clear tr n Hr. unfold sweepOnce.
  apply wp_call. intros [rows|e]; [|by intros n]. 
  set (ev := answered (TradeFindMany parked (Some 50%nat)) (Ok rows)).
  apply wp_loop with (I := fun tr left_ n => exists before, rows = before ++ left_ /\ polls tr = poll_of <$> before /\
    Forall (fun u => exists t, t ∈ rows /\ told tr t u) (updates tr) /\
    sc_filled n = count_confirmed OPEN tr /\ sc_expired n = count_confirmed CANCELLED tr).
  - exists []. by split_and!.
  - intros tr t left_ n (before & E & Hp & Hu & Hf & He).
    apply wp_await, wp_try_catch. eapply wp_mono; [|apply sweep_row_swept].
    intros tr' r (Hp' & Hu' & Hf' & He').
    assert (Hnew : forall k, count_confirmed OPEN tr' = k.1 -> count_confirmed CANCELLED tr' = k.2 ->
      exists before', rows = before' ++ left_ /\ polls (tr ++ tr') = poll_of <$> before' /\
        Forall (fun u => exists t, t ∈ rows /\ told (tr ++ tr') t u) (updates (tr ++ tr')) /\
        sc_filled n + k.1 = count_confirmed OPEN (tr ++ tr') /\ sc_expired n + k.2 = count_confirmed CANCELLED (tr ++ tr')).
    { intros k <- <-. exists (before ++ [t]). rewrite <- app_assoc, polls_app, fmap_app, updates_app, !count_confirmed_app, Hp, Hp'.
      split_and!; [done|done| |lia|lia]. apply Forall_app. split.
      - eapply Forall_impl; [exact Hu|]. intros u (t' & ? & ?). exists t'. split; [done|]. apply told_app. auto.
      - eapply Forall_impl; [exact Hu'|]. intros u ?. exists t. split; [subst rows; apply elem_of_app; right; left|].
        apply told_app. auto. }
    destruct r as [k|e]; cbn; rewrite ?app_nil_r; [by apply Hnew|by apply (Hnew (0, 0))].
  - intros tr n (before & E & Hp & Hu & Hf & He) n' [= <-]. rewrite app_nil_r in E. subst before. exists rows.
    split; [done|]. change (polls (ev :: tr)) with (polls tr). change (updates (ev :: tr)) with (updates tr).
    split; [done|]. split; [|done]. eapply Forall_impl; [exact Hu|]. intros u (t & ? & ?). exists t. split; [done|].
    apply (told_app [ev]). auto.
Qed.

(** ** The flags *)
Definition released (l : Lock) (tr : Trace) : Prop :=
  tr = [answered (TryLock l) false] \/
  exists mid, tr = answered (TryLock l) true :: mid ++ [answered (Unlock l) tt].

Lemma guarded_releases l (body : IO unit) (Q : Res unit -> Prop) :
  wp body (fun _ r => Q r) -> Q (Ok tt) ->
  wp (await (get (TryLock l)) (fun free : bool => if free then finally body (perform (Unlock l)) else resolve tt))
     (fun tr r => Q r /\ released l tr).
Proof.
  intros Hb Hq. apply wp_call. intros [].
  - unfold finally. apply wp_bind. eapply wp_mono; [|exact Hb]. intros tr r Hr. cbn. intros []. split; [done|].
    right. by exists tr.
  - cbn. split; [done|]. by left.
Qed.

(** The re-entrance flags. However a sweep of parked orders or of estimated exits ends,
    errors included, it has given its flag back, and a sweep that found the flag taken
    did nothing at all; the sweep of parked orders never rejects. *)
Theorem sweeps_release_their_flag tr r :
  (runs PendingEntry.sweep tr r -> r = Ok tt /\ released PendingSweep tr) /\
  (runs ExitReconciliation.sweep tr r -> released ExitSweep tr).
Proof.
  split.
  - revert tr r. apply wp_runs. apply guarded_releases with (Q := fun r => r = Ok tt); [|done].
    apply wp_swallow. apply wp_runs. done.
  - revert tr r. apply wp_runs. eapply wp_mono; [|apply guarded_releases with (Q := fun _ => True)].
    + by intros tr r [_ ?].
    + apply wp_runs. done.
    + done.
Qed.

(** ** Estimated exits are corrected in the end *)
Import ExitReconciliation.
Section liveness.
Context (i : nat) (lab : Lab).

(** The broker answers every history query, with a price and a profit; time does not
    run backwards. *)
Hypothesis broker_tells : forall acct tk, exists h c p,
  lab_history lab acct tk = Ok (Some h) /\ ph_closePrice h = Some c /\ history_pnl h = Some p.
Hypothesis time_passes : 0 <= lab_tick lab.

(** The ids of the rows with an estimated exit in the window. *)
Definition estimates (since : Z) (s : Shared) : gset string :=
  dom (filter (fun kv : string * Trade => estimated since kv.2 = true) (tbl s)).

Definition window (w : World) : Z := w_clock w - LOOKBACK_HOURS * 3600 * 1000.

Lemma estimates_spec since s id :
  id ∈ estimates since s <-> exists t, tbl s !! id = Some t /\ estimated since t = true.
Proof.
  unfold estimates. rewrite elem_of_dom. unfold is_Some. setoid_rewrite map_lookup_filter_Some. naive_solver.
Qed.

(** The broker's word is never an estimate. *)
Lemma reason_is_known h : is_estimate (Some (normalized_reason h)) = false.
Proof.
  unfold normalized_reason, known_reason. destruct (includes _ _ || includes _ _); [done|].
  by destruct (includes _ _ || includes _ _).
Qed.

Lemma reconciled_not_estimated since inf t h :
  close_info h = Some inf -> estimated since (patch_row (reconciled_patch inf) t) = false.
Proof.
  unfold close_info. intros Hi. destruct (ph_closePrice h), (history_pnl h); simplify_eq/=.
  unfold estimated. simpl. pose proof (reason_is_known h) as Hr. simpl in Hr. rewrite Hr. by rewrite andb_false_r.
Qed.

Abbreviation exec := (execute (handle i lab)).

Lemma history_told_here acct tk w :
  exists h inf, exec (fetchCloseInfo acct tk) w = (w, Ok (Some inf)) /\ close_info h = Some inf.
Proof.
  unfold fetchCloseInfo, account_history.
  assert (Hinf : forall h c p, ph_closePrice h = Some c -> history_pnl h = Some p -> exists inf, close_info h = Some inf)
    by (intros h c p Hc Hp; unfold close_info; rewrite Hc; simpl; rewrite Hp; simpl; eauto).
  destruct acct as [a|]; [destruct (truthy_string a)|]; simpl.
  1: destruct (broker_tells (Some a) tk) as (h & c & p & -> & Hc & Hp).
  2-3: destruct (broker_tells None tk) as (h & c & p & -> & Hc & Hp).
  all: destruct (Hinf h c p Hc Hp) as [inf Hi]; exists h, inf; simpl; by rewrite Hi.
Qed.

Definition corrected (inf : BrokerCloseInfo) (id : string) (w : World) : World :=
  with_table (set_tbl (alter (patch_row (reconciled_patch inf)) id (tbl (w_table w))) (w_table w)) w.

Lemma reconcile_row_executes t w :
  is_Some (tbl (w_table w) !! t_id t) ->
  exists h inf, exec (reconcile_row t) w = (corrected inf (t_id t) w, Ok true) /\ close_info h = Some inf.
Proof.
  intros [t0 Ht]. destruct (history_told_here (account t) (default 0 (ticket t)) w) as (h & inf & E & Hi).
  exists h, inf. split; [|done]. unfold reconcile_row, await. rewrite execute_bind, E. simpl. by rewrite Ht.
Qed.

Lemma estimates_corrected since inf h id w :
  close_info h = Some inf ->
  estimates since (w_table (corrected inf id w)) = estimates since (w_table w) ∖ {[id]}.
Proof.
  intros Hi. apply set_eq. intros id'. rewrite elem_of_difference, elem_of_singleton, !estimates_spec. simpl.
  destruct (decide (id' = id)) as [->|Hne].
  - rewrite lookup_alter_eq. split; [|by intros [_ []]]. intros (t & Ht & He).
    destruct (tbl (w_table w) !! id) as [t0|]; simplify_eq/=. by erewrite reconciled_not_estimated in He.
  - rewrite lookup_alter_ne by done. naive_solver.
Qed.

(** The loop corrects every row it was given. *)
Lemma correct_rows since rows n w :
  Forall (fun t => is_Some (tbl (w_table w) !! t_id t)) rows ->
  exists w' k, exec (fold_each (fun n t =>
       ok <~ try_catch (reconcile_row t) (fun _ => resolve false) ;;
       resolve (if ok then n + 1 else n)) rows n)%async w = (w', Ok k) /\
    w_clock w' = w_clock w /\ (keyed (w_table w) -> keyed (w_table w')) /\
    estimates since (w_table w') = estimates since (w_table w) ∖ list_to_set (t_id <$> rows).
Proof.
  revert n w. induction rows as [|t rows IH]; intros n w Hrows.
  - exists w, n. split_and!; [done|done|done|set_solver].
  - apply Forall_cons in Hrows as [Ht Hrows].
    destruct (reconcile_row_executes t w Ht) as (h & inf & E & Hi).
    assert (Hrows2 : Forall (fun u => is_Some (tbl (w_table (corrected inf (t_id t) w)) !! t_id u)) rows).
    { eapply Forall_impl; [exact Hrows|]. intros u Hu. simpl. apply lookup_alter_is_Some. exact Hu. }
    destruct (IH (n + 1) _ Hrows2) as (w' & k & E' & Hc & Hk & He). exists w', k.
    split_and!; [|by rewrite Hc| |].
    + cbn [fold_each]. unfold await at 1 2, try_catch. rewrite !execute_bind, E. cbn [execute]. exact E'.
    + intros Hkey. apply Hk. destruct Ht as [t0 Ht].
      pose proof (handle_keyed i lab (TradeUpdate (t_id t) (reconciled_patch inf)) w Hkey) as Hkey'.
      simpl in Hkey'. by rewrite Ht in Hkey'.
    + rewrite He, (estimates_corrected _ _ h) by done. set_solver.
Qed.

Lemma estimates_rows since s : keyed s ->
  estimates since s = list_to_set (t_id <$> rows_where (estimated since) s).
Proof.
  intros Hk. apply set_eq. intros id. rewrite estimates_spec, elem_of_list_to_set, list_elem_of_fmap. split.
  - intros (t & Ht & He). exists t. pose proof (Hk _ _ Ht) as <-. split; [done|]. by apply rows_where_spec.
  - intros (t & -> & Ht). apply rows_where_spec in Ht as [Ht He]; [|done]. eauto.
Qed.

(** One sweep corrects fifty rows, or all of them. *)
Lemma sweepOnce_rows w :
  exec sweepOnce w =
  exec (fold_each (fun n t =>
       ok <~ try_catch (reconcile_row t) (fun _ => resolve false) ;;
       resolve (if ok then n + 1 else n))
    (take 50 (rows_where (estimated (window w)) (w_table w))) 0)%async (with_clock (w_clock w + lab_tick lab) w).
Proof. reflexivity. Qed.

(** One sweep corrects fifty rows, or all of them. *)
Lemma sweep_corrects w : keyed (w_table w) ->
  let w' := (exec sweepOnce w).1 in
  keyed (w_table w') /\ w_clock w <= w_clock w' /\
  (size (estimates (window w) (w_table w')) = size (estimates (window w) (w_table w)) - 50)%nat.
Proof.
  intros Hk. cbv zeta. rewrite sweepOnce_rows.
  set (rows := rows_where (estimated (window w)) (w_table w)).
  assert (Hall : Forall (fun t => is_Some (tbl (w_table (with_clock (w_clock w + lab_tick lab) w)) !! t_id t)) (take 50 rows)).
  { apply Forall_take, Forall_forall. intros t Ht. apply rows_where_spec in Ht as [Ht _]; [|done]. simpl. eauto. }
  destruct (correct_rows (window w) (take 50 rows) 0 _ Hall) as (w' & k & -> & Hc & Hk' & He).
  cbn [fst]. split; [by apply Hk'|]. split; [rewrite Hc; simpl; lia|].
  rewrite He. simpl w_table. rewrite estimates_rows by done. fold rows.
  pose proof (rows_where_ids (estimated (window w)) _ Hk) as Hnd. fold rows in Hnd.
  rewrite <- (take_drop 50 rows) in Hnd |- * at 1. rewrite fmap_app in Hnd |- *.
  apply NoDup_app in Hnd as (_ & Hdisj & Hdrop).
  rewrite list_to_set_app_L.
  replace ((list_to_set (t_id <$> take 50 rows) ∪ list_to_set (t_id <$> drop 50 rows)) ∖ list_to_set (t_id <$> take 50 rows) : gset string)
    with (list_to_set (t_id <$> drop 50 rows) : gset string).
  - rewrite size_list_to_set by done. rewrite length_fmap, length_drop.
    rewrite <- (length_fmap t_id rows). rewrite <- (size_list_to_set (C := gset string) (t_id <$> rows)); [done|].
    by apply rows_where_ids.
  - apply set_eq. intros id. rewrite elem_of_difference, elem_of_union, !elem_of_list_to_set. naive_solver.
Qed.

(** Sweep after sweep. *)
Definition sweeps (n : nat) (w : World) : World := Nat.iter n (fun w => (exec sweepOnce w).1) w.

Lemma estimates_later since since' s : since <= since' -> estimates since' s ⊆ estimates since s.
Proof.
  intros Hle id. rewrite !estimates_spec. intros (t & Ht & He). exists t. split; [done|].
  unfold estimated in *. rewrite !andb_true_iff in *. destruct He as [[[? ?] Hw] ?]. split_and!; [done..| |done].
  destruct (t_closedAt (t_data t)); [|done]. simpl in *. apply Z.leb_le in Hw. apply Z.leb_le. lia.
Qed.

Lemma sweeps_shrink w n : keyed (w_table w) ->
  keyed (w_table (sweeps n w)) /\
  (size (estimates (window (sweeps n w)) (w_table (sweeps n w))) <= size (estimates (window w) (w_table w)) - 50 * n)%nat.
Proof.
  intros Hk. induction n as [|n [IHk IH]]; [split; [done|cbn; lia]|].
  change (sweeps (S n) w) with (exec sweepOnce (sweeps n w)).1.
  destruct (sweep_corrects (sweeps n w) IHk) as (Hk' & Hc & Hs). split; [done|].
  etrans; [apply subseteq_size, (estimates_later (window (sweeps n w))); unfold window; lia|]. rewrite Hs. lia.
Qed.

(** C22: Progress. With a broker whose history answers every query with a price and a
    profit, repeated sweeps correct every estimated exit: from some number of sweeps on,
    no closed row of the look-back window carries an estimated reason. *)
Theorem estimates_are_corrected w : keyed (w_table w) ->
  exists k, forall n, (k <= n)%nat -> estimates (window (sweeps n w)) (w_table (sweeps n w)) = ∅.
Proof.
  intros Hk. exists (size (estimates (window w) (w_table w))). intros n Hn.
  destruct (sweeps_shrink w n Hk) as [_ Hs]. apply leibniz_equiv, size_empty_iff. lia.
Qed.
End liveness.
