(* ===== verification/LiveExamples.v ===== *)
(** * The live services on a concrete day

    Runs of the programs in the environment of LiveLab: the hypotheses of the theorems
    about the live services are met by real runs. *)
From S2P Require Import Prelude Async JsNum JsDate Types Instruments Indicators PositionSimulator Orchestrator LiveTypes.
From S2P Require PendingEntry ExitReconciliation PositionMonitor PositionManager.
From S2P Require Import ExitReconciliation EngineMemory LiveExecution LiveStrategy Lifecycle LifecycleFacts LiveSystem LiveLab.
From S2P Require Import ExecutionFacts SharedSignalFacts ServiceFacts MonitorFacts ReconcileFacts.

(** ** A broker, an account, a table *)
Definition lab_now : Z := 1710411300000.

Definition demo_user : User := {| u_email := "a@b"; u_botEnabled := true; u_isActive := true; u_presetKey := BALANCED |}.
Definition demo_account : BrokerAccount := {|
  a_id := "acc"; a_name := "demo"; a_broker := "MT5"; a_isEnabled := true; a_user := Some demo_user |}.
Definition demo_ctrader : BrokerAccount := {|
  a_id := "ct"; a_name := "demo"; a_broker := "CTRADER"; a_isEnabled := true; a_user := Some demo_user |}.

Definition demo_history : PositionHistory := {|
  ph_closePrice := Some (of_Z 1990); ph_realizedPnl := Some (of_Z 25); ph_pnl := None;
  ph_exitReason := Some "tp hit"; ph_reason := None; ph_closeTime := None |}.

Definition demo_candle : BacktestCandle := {|
  c_symbol := "XAUUSD"; timeframe := "M15"; openTime := "2024-03-14T10:00:00.000Z";
  open := of_Z 1996; high := of_Z 1997; low := of_Z 1984; close := of_Z 1985; volume := of_Z 1 |}.

(** A broker that grants every order with the next ticket, at the asked price. *)
Definition demo_lab : Lab := {|
  lab_tick := 1; lab_accounts := [demo_account]; lab_admins := ["admin@b"];
  lab_candles := fun _ _ _ => [demo_candle];
  lab_positions := fun _ _ => Ok [];
  lab_place := fun _ b n => HttpOk {| or_mt5Ticket := match ob_limit b with Some _ => None | None => Some n end;
     or_entryPrice := Some (ob_entryPrice b);
     or_status := match ob_limit b with Some _ => Some "PENDING" | None => None end; or_orderId := Some "o1" |};
  lab_modify := fun _ _ _ _ => Ok tt; lab_close := fun _ _ => Ok tt;
  lab_order_status := fun _ _ _ => Ok {| os_status := "FILLED"; os_positionId := Some 77; os_executionPrice := None |};
  lab_history := fun _ _ => Ok (Some demo_history);
  lab_account := fun _ => Ok {| ai_balance := of_Z 10000; ai_equity := of_Z 10000 |};
  lab_equities := [of_Z 10000] |}.

Definition demo_signal : SmcLiveSignal := {|
  sig_symbol := "XAUUSD"; sig_side := SELL; sig_entryPrice := of_Z 2000; sig_slPrice := of_Z 2010;
  sig_tpPrice := of_Z 1980; totalLot := lit 2 1;
  legs := [{| leg_lotSize := lit 1 1; leg_tpPrice := of_Z 1990; leg_setupTags := ["SMC"; "TP1"] |};
           {| leg_lotSize := lit 1 1; leg_tpPrice := of_Z 1980; leg_setupTags := ["SMC"; "RUNNER"] |}];
  sig_mode := REVERSAL; h1SweepTime := "2024-03-14T07:00:00.000Z"; reason := ""; smcContext := None |}.

Definition no_feed : Feed := {|
  fd_events := []; fd_lastEval := ∅;
  fd_counters := {| cn_date := ""; cn_evals := 0; cn_sweeps := 0; cn_signals := 0 |} |}.
Definition demo_mem : Mem := {|
  m_orchestrator := new_LiveSmcOrchestrator; m_registry := ∅; m_creating := ∅; m_absence := ∅;
  m_breaker := None; m_feed := no_feed;
  m_persist := {| pf_dirty := false; pf_debounce := false; pf_inFlight := false |};
  m_lastTelemetryBar := ∅; m_decisions := {| db_rows := []; db_timer := false |};
  m_control := {| ct_running := true; ct_riskPercent := Some (of_Z 1); ct_sessionId := None |} |}.

(** An OPEN row of ticket 5, two weeks old. *)
Definition demo_data (st : TradeStatus) : TradeData := {|
  t_candidateId := "c1"; t_clientOrderId := None;
  t_mt5Ticket := match st with PENDING | CANCELLED => None | _ => Some 5 end;
  t_sessionId := None; t_accountId := Some "acc"; t_symbol := "XAUUSD"; t_side := SELL;
  t_lotSize := lit 1 1; t_entryPrice := of_Z 2000;
  t_closePrice := None; t_slPrice := of_Z 2010; t_tpPrice := of_Z 1980; t_status := st;
  t_exitReason := match st with CLOSED => Some "TP_EST" | _ => None end;
  t_entryType := match st with PENDING => "RETRACE_LIMIT" | _ => "MARKET" end;
  t_brokerOrderId := Some "o1"; t_limitPrice := Some (of_Z 2000); t_orderExpiresAt := None; t_pnl := None;
  t_closedAt := match st with CLOSED => Some (lab_now - 3600000) | _ => None end;
  t_statusHistory := [];
  t_managementState := {| ms_breakevenActivated := Some false; ms_peakFavorablePrice := Some (of_Z 2000);
                          ms_originalSlPrice := Some (of_Z 2010); ms_trailKey := Some KeyRUNNER |};
  t_sweptLevel := None; t_sweptHigh := None; t_sweptLow := None; t_sweepCandleTime := None; t_d1Bias := None;
  t_originalSlPrice := Some (of_Z 2010); t_strategyName := Some "GIDEON" |}%string.
Definition demo_row (st : TradeStatus) : Trade := {|
  t_id := "t1"; t_createdAt := lab_now - 14 * 24 * 3600 * 1000; t_data := demo_data st |}.

Definition demo_table (st : TradeStatus) : Shared := {| tbl := {[ "t1"%string := demo_row st ]}; owner := fun _ => None |}.
Definition demo_world (st : TradeStatus) : World := {|
  w_clock := lab_now; w_table := demo_table st; w_next := 100; w_mem := demo_mem; w_breaker := None; w_state := ∅ |}.

Lemma demo_keyed st : keyed (demo_table st).
Proof. intros id t Ht. simpl in Ht. by apply lookup_singleton_Some in Ht as [<- <-]. Qed.

(** ** The services together *)
Section day.
#[local] Instance no_library : TechnicalIndicators := {|
  EMA _ _ := []; SMA _ _ := []; RSI _ _ := []; ATR _ _ _ _ := []; ADX _ _ _ _ := [] |}.
Definition demo_breaker : BreakerConfig := {| bc_flag := None; bc_lossPct := of_Z 15 |}.
Abbreviation day_step := (step ∅ (of_Z 1) demo_breaker ["XAUUSD"%string] true true false).

(** The stale sweep started on the table, run to its end. *)
Lemma demo_run_step : exists c, rtc day_step (boot (demo_table OPEN)) c /\
  shared c = w_table (execute (handle 0 demo_lab) (as_thread ExitReconciliation.staleSweep) (demo_world OPEN)).1.
Proof.
  destruct (execute_reaches 0 demo_lab (service ∅ (of_Z 1) demo_breaker ["XAUUSD"%string] true true false)
              (as_thread ExitReconciliation.staleSweep) (demo_world OPEN)
              [as_thread ExitReconciliation.staleSweep] (demo_keyed OPEN) eq_refl) as [ts Hts].
  exists {| shared := w_table (execute (handle 0 demo_lab) (as_thread ExitReconciliation.staleSweep) (demo_world OPEN)).1; threads := ts |}.
  split; [|reflexivity]. eapply rtc_l; [|exact Hts].
  apply (pstep_start _ _ _ []). apply sv_stale_sweep.
Qed.

Lemma services_refine_life_witness :
  exists c, rtc day_step (boot (demo_table OPEN)) c /\
    abs (demo_table OPEN) !! "t1"%string = Some OPEN /\ abs (shared c) !! "t1"%string = Some CLOSED /\
    rtc abs_step (abs (demo_table OPEN)) (abs (shared c)).
Proof.
  destruct demo_run_step as [c [Hc Hs]]. exists c. split; [exact Hc|]. split; [vm_compute; reflexivity|].
  split; [rewrite Hs; vm_compute; reflexivity|].
  exact (services_refine_life ∅ (of_Z 1) demo_breaker ["XAUUSD"%string] true true false (demo_table OPEN) c Hc).
Defined.

Lemma demo_table_ok : table_ok (demo_table OPEN).
Proof.
  intros id t Ht. simpl in Ht. apply lookup_singleton_Some in Ht as [<- <-]. split; [reflexivity|].
  split; [eexists; reflexivity|]. repeat split; reflexivity.
Qed.

Lemma trade_table_invariant_witness :
  exists c : Process, shared c <> demo_table OPEN /\ table_ok (demo_table OPEN) /\ table_ok (shared c) /\ evolves (demo_table OPEN) (shared c).
Proof.
  destruct demo_run_step as [c [Hc Hs]]. exists c. split.
  { rewrite Hs. intros E. apply (f_equal (fun s => status <$> tbl s !! "t1"%string)) in E. revert E. vm_compute. discriminate. }
  split; [exact demo_table_ok|].
  exact (trade_table_invariant ∅ (of_Z 1) demo_breaker ["XAUUSD"%string] true true false (demo_table OPEN) c Hc demo_table_ok).
Defined.
End day.

(** ** Orders *)
Definition demo_run {A} (m : IO A) (w : World) : Trace * Res A := trace_of (handle 0 demo_lab) m w.
Lemma demo_runs {A} (m : IO A) w : runs m (demo_run m w).1 (demo_run m w).2.
Proof. apply trace_of_runs. Defined.

Definition demo_order : Trace * Res Z := demo_run (placeOrder demo_signal (Some "acc"%string)) (demo_world OPEN).

Lemma placeOrder_all_or_nothing_witness :
  demo_order.2 = Ok 2 /\ granted_tickets demo_order.1 = [101; 105] /\
  order_outcome demo_signal (Some "acc"%string) demo_order.1 (Ok 2).
Proof.
  assert (H2 : demo_order.2 = Ok 2) by (vm_compute; reflexivity).
  split; [exact H2|]. split; [vm_compute; reflexivity|].
  pose proof (demo_runs (placeOrder demo_signal (Some "acc"%string)) (demo_world OPEN)) as Hr.
  change (runs (placeOrder demo_signal (Some "acc"%string)) demo_order.1 demo_order.2) in Hr. rewrite H2 in Hr.
  exact (proj2 (proj2 (placeOrder_all_or_nothing _ _ _ _ Hr))).
Defined.

(** A broker that is overloaded at first. *)
Definition busy_lab : Lab := {|
  lab_tick := 1; lab_accounts := []; lab_admins := []; lab_candles := fun _ _ _ => [];
  lab_positions := fun _ _ => Ok [];
  lab_place := fun _ b n => if n =? 102 then HttpOk {| or_mt5Ticket := Some 7; or_entryPrice := None; or_status := None; or_orderId := None |}
                            else HttpErr (Some 503) "overloaded";
  lab_modify := fun _ _ _ _ => Ok tt; lab_close := fun _ _ => Ok tt;
  lab_order_status := fun _ _ _ => Throw ""; lab_history := fun _ _ => Ok None;
  lab_account := fun _ => Throw ""; lab_equities := [] |}.

Lemma placeOrderWithRetry_discipline_witness :
  exists tr r, runs (placeOrderWithRetry None (market_body demo_signal (hd {| leg_lotSize := NaN; leg_tpPrice := NaN; leg_setupTags := [] |} (legs demo_signal)))) tr r /\
    length (orders tr) = 3%nat /\ sleeps tr = [500; 1000] /\
    attempts_ok (None, market_body demo_signal (hd {| leg_lotSize := NaN; leg_tpPrice := NaN; leg_setupTags := [] |} (legs demo_signal))) 3 (orders tr) r.
Proof.
  set (m := placeOrderWithRetry _ _).
  exists (trace_of (handle 0 busy_lab) m (demo_world OPEN)).1, (trace_of (handle 0 busy_lab) m (demo_world OPEN)).2.
  pose proof (trace_of_runs (handle 0 busy_lab) m (demo_world OPEN)) as Hr. split; [exact Hr|].
  split; [vm_compute; reflexivity|]. split; [vm_compute; reflexivity|].
  exact (proj1 (placeOrderWithRetry_discipline _ _ _ _ Hr)).
Defined.

Definition demo_retrace : Trace * Res Z :=
  demo_run (placeRetraceOrderForAccount demo_signal "ct" "2024-03-14T10:15:00.000Z") (demo_world OPEN).

Lemma retrace_orders_recorded_witness :
  demo_retrace.2 = Ok 2 /\ t_status <$> created_rows demo_retrace.1 = [PENDING; PENDING] /\
  limits_recorded demo_signal "ct" (retrace_price demo_signal) (retrace_expiry "2024-03-14T10:15:00.000Z") demo_retrace.1 2.
Proof.
  assert (H2 : demo_retrace.2 = Ok 2) by (vm_compute; reflexivity).
  split; [exact H2|]. split; [vm_compute; reflexivity|].
  assert (Hr : runs (placeRetraceOrderForAccount demo_signal "ct" "2024-03-14T10:15:00.000Z") demo_retrace.1 demo_retrace.2).
  { unfold demo_retrace. apply demo_runs. }
  rewrite H2 in Hr. exact (proj2 (retrace_orders_recorded _ _ _ _ _ Hr)).
Defined.

(** ** The shared signal *)
Definition demo_shared (a : BrokerAccount) : Trace * Res bool :=
  demo_run (executeSharedSignalForAccount (of_Z 1) true demo_signal a "2024-03-14T10:15:00.000Z") (demo_world OPEN).

Lemma shared_execution_gated_witness :
  (demo_shared demo_account).2 = Ok true /\ length (orders (demo_shared demo_account).1) = 2%nat /\
  gated (of_Z 1) true demo_signal demo_account "2024-03-14T10:15:00.000Z" (demo_shared demo_account).1.
Proof.
  split; [vm_compute; reflexivity|]. split; [vm_compute; reflexivity|].
  exact (shared_execution_gated (of_Z 1) true demo_signal demo_account _ _ _ (demo_runs _ _)).
Defined.

Definition tripped_state : BreakerState := {|
  br_tripped := true; br_trippedAt := Some "2024-03-01T00:00:00.000Z"%string; br_rollingPnl := of_Z (-2000);
  br_threshold := of_Z (-1500) |}.

Lemma tripped_breaker_blocks_entries_witness :
  enabled demo_breaker = true /\ tripped (Some tripped_state) demo_mem /\
  during (redis_answers (Some tripped_state)) (no_reset (Some tripped_state)) {| mem := demo_mem; log := [] |}
    (evaluatePairSharedSignal (H := no_library) ∅ (of_Z 1) demo_breaker false [] "XAUUSD" [demo_account])
    (fun _ s' => orders (log s') = []).
Proof.
  assert (He : enabled demo_breaker = true) by (vm_compute; reflexivity).
  assert (Ht : tripped (Some tripped_state) demo_mem) by reflexivity.
  split; [exact He|]. split; [exact Ht|].
  exact (tripped_breaker_blocks_entries (H := no_library) ∅ (of_Z 1) demo_breaker false (Some tripped_state) [] "XAUUSD"
           [demo_account] {| mem := demo_mem; log := [] |} He Ht).
Defined.

(** ** Breaker and feed *)
Definition demo_check : Trace * Res unit := demo_run (check demo_breaker) (demo_world OPEN).

Lemma breaker_check_latches_witness :
  length (breaker_writes demo_check.1) = 1%nat /\ check_outcome demo_breaker demo_check.1 demo_check.2.
Proof.
  split; [vm_compute; reflexivity|].
  exact (proj1 (breaker_check_latches demo_breaker _ _ (demo_runs _ _))).
Defined.

Definition demo_events : list TelemetryEvent :=
  [EvEval "2024-03-14T10:15:00.000Z" "XAUUSD" NoSweep; EvEval "2024-03-14T10:30:00.000Z" "XAUUSD" Cooldown].
Definition demo_yesterday : list TelemetryEvent := [EvEval "2024-03-13T10:15:00.000Z" "XAUUSD" NoSweep].

Lemma feed_shows_the_day_witness :
  fd_counters (feed_after (demo_yesterday ++ demo_events) no_feed) = tally "2024-03-14" demo_events /\
  cn_evals (tally "2024-03-14" demo_events) = 2.
Proof.
  split; [|vm_compute; reflexivity].
  refine (proj2 (feed_shows_the_day demo_yesterday demo_events "2024-03-14" no_feed _ _ _ _)).
  - simpl. lia.
  - repeat constructor.
  - discriminate.
  - simpl. vm_compute. discriminate.
Defined.

(** ** Monitor, manager, sweeps *)
Definition demo_finalize : Trace * Res unit :=
  demo_run (PositionMonitor.finalizeClosedTrade ∅ (demo_row OPEN) (Some "acc"%string)) (demo_world OPEN).

Lemma finalize_books_the_exit_witness :
  (p_exitReason ∘ snd) <$> updates demo_finalize.1 = [Some "TP"%string] /\ booked (demo_row OPEN) demo_finalize.1.
Proof.
  split; [vm_compute; reflexivity|].
  exact (proj2 (finalize_books_the_exit ∅ (demo_row OPEN) (Some "acc"%string) _ _ (demo_runs _ _))).
Defined.

(** A broker that still has the position, with a stop that breakeven will move. *)
Definition holding_lab : Lab := {|
  lab_tick := 1; lab_accounts := []; lab_admins := []; lab_candles := fun _ _ _ => [demo_candle];
  lab_positions := fun _ _ => Ok [{| bp_ticket := 5; bp_symbol := "XAUUSD"; bp_side := SELL;
                                     bp_entryPrice := Some (of_Z 2000); bp_sl := of_Z 2010; bp_tp := of_Z 1980 |}];
  lab_place := fun _ _ _ => HttpErr None ""; lab_modify := fun _ _ _ _ => Ok tt; lab_close := fun _ _ => Ok tt;
  lab_order_status := fun _ _ _ => Throw ""; lab_history := fun _ _ => Ok None;
  lab_account := fun _ => Throw ""; lab_equities := [] |}.

Definition demo_manage : Trace * Res unit :=
  trace_of (handle 0 holding_lab) (PositionManager.manageSymbol "XAUUSD" (Some "acc"%string)) (demo_world OPEN).

Lemma manager_follows_broker_witness :
  length (updates demo_manage.1) = 1%nat /\
  Forall (follows_broker "XAUUSD" (Some "acc"%string) demo_manage.1) (updates demo_manage.1).
Proof.
  split; [vm_compute; reflexivity|].
  exact (manager_follows_broker "XAUUSD" (Some "acc"%string) _ _ (trace_of_runs _ _ _)).
Defined.

Definition demo_pending : Trace * Res PendingEntry.SweepCount := demo_run PendingEntry.sweepOnce (demo_world PENDING).

Lemma pending_sweep_follows_broker_witness :
  demo_pending.2 = Ok {| PendingEntry.sc_filled := 1; PendingEntry.sc_expired := 0 |} /\
  exists rows, polls demo_pending.1 = poll_of <$> rows /\
    Forall (fun u => exists t, t ∈ rows /\ told demo_pending.1 t u) (updates demo_pending.1).
Proof.
  assert (H2 : demo_pending.2 = Ok {| PendingEntry.sc_filled := 1; PendingEntry.sc_expired := 0 |}) by (vm_compute; reflexivity).
  split; [exact H2|]. pose proof (demo_runs PendingEntry.sweepOnce (demo_world PENDING)) as Hr.
  change (runs PendingEntry.sweepOnce demo_pending.1 demo_pending.2) in Hr. rewrite H2 in Hr.
  destruct (pending_sweep_follows_broker _ _ Hr) as (rows & _ & Hp & Hu & _). exists rows. split; [exact Hp|exact Hu].
Defined.

Definition demo_sweep : Trace * Res unit := demo_run PendingEntry.sweep (demo_world PENDING).
Lemma sweeps_release_their_flag_witness : length demo_sweep.1 = 8%nat /\ demo_sweep.2 = Ok tt /\ released PendingSweep demo_sweep.1.
Proof.
  split; [vm_compute; reflexivity|].
  exact (proj1 (sweeps_release_their_flag demo_sweep.1 demo_sweep.2) (demo_runs PendingEntry.sweep (demo_world PENDING))).
Defined.

Lemma estimates_are_corrected_witness :
  estimates (window (demo_world CLOSED)) (demo_table CLOSED) <> ∅ /\
  exists k, forall n, (k <= n)%nat ->
    estimates (window (sweeps 0 demo_lab n (demo_world CLOSED))) (w_table (sweeps 0 demo_lab n (demo_world CLOSED))) = ∅.
Proof.
  split.
  { intros E. assert (Hin : "t1"%string ∈ estimates (window (demo_world CLOSED)) (demo_table CLOSED)).
    { apply estimates_spec. exists (demo_row CLOSED). split; [apply lookup_singleton_eq|vm_compute; reflexivity]. }
    rewrite E in Hin. by apply elem_of_empty in Hin. }
  apply (estimates_are_corrected 0 demo_lab).
  - intros acct tk. exists demo_history, (of_Z 1990), (of_Z 25). repeat split; reflexivity.
  - simpl. lia.
  - exact (demo_keyed CLOSED).
Defined.

(** ** The test trade *)
Definition twenty_bars (_ tf : string) (_ : nat) : list BacktestCandle := replicate 20 demo_candle.
Definition refusing_lab : Lab := {|
  lab_tick := 1; lab_accounts := [demo_account]; lab_admins := []; lab_candles := twenty_bars;
  lab_positions := fun _ _ => Ok []; lab_place := fun _ _ _ => HttpErr (Some 400) "not enough money";
  lab_modify := fun _ _ _ _ => Ok tt; lab_close := fun _ _ => Ok tt;
  lab_order_status := fun _ _ _ => Throw "no order"%string; lab_history := fun _ _ => Ok None;
  lab_account := fun _ => Throw "no account"%string; lab_equities := [] |}.
Definition gold_test : TestTrade := {|
  to_symbol := "xauusd"; to_side := Some SELL; to_lotSize := None; to_slAtrMult := None; to_tpRMult := None |}.

(** The broker refuses the order, and the caller is told the signal all the same. *)
Lemma test_trade_reports_success :
  let run := trace_of (handle 0 refusing_lab) (fireTestTrade ["XAUUSD"%string] gold_test) (demo_world OPEN) in
  match run.2 with
  | Ok sig => Some (sig_side sig, sig_entryPrice sig, sig_slPrice sig, sig_tpPrice sig)
  | Throw _ => None
  end = Some (SELL, of_Z 1985, of_Z 1998, of_Z 1959) /\ created_rows run.1 = [].
Proof. split; vm_compute; reflexivity. Qed.
