(* ===== verification/OrchestratorFacts.v ===== *)
(** * Properties of the orchestrator

    What a signal means, one-shot sweeps, the cooldown, the isolation of the pairs, the
    catch-up of missed bars, expiry, and the persistence round trip. *)
From S2P Require Import Prelude JsNum JsDate Types Instruments NewsCalendar RiskManager RiskFacts SweepDetector.
From S2P Require Import SweepFacts Structure Indicators Orchestrator.
(** ** State access *)

(** The state object a method of the pair works on. *)
Definition current (sym : string) (o : LiveSmcOrchestrator) : Res OrchestratorState :=
  match states o !! sym with
  | Some s => Ok s
  | None => res_map fresh_state (buildRiskManager sym o)
  end.

Lemma set_states_set_states m m' o : set_states m (set_states m' o) = set_states m o.
Proof. done. Qed.

(** [with_state] replaces the pair's entry and nothing else. *)
Lemma with_state_eq {A} sym (m : M OrchestratorState A) o :
  with_state sym m o =
  match current sym o with
  | Ok st => (set_states (<[sym := (m st).1]> (states o)) o, (m st).2)
  | Throw e => (o, Throw e)
  end.
Proof.
  unfold with_state, getOrCreateState, current.
  destruct (states o !! sym) as [st|]; simpl; [by destruct (m st)|].
  destruct (buildRiskManager sym o) as [r|e]; simpl; [|done].
  destruct (m (fresh_state r)). simpl. rewrite set_states_set_states. f_equal. f_equal.
  apply insert_insert_eq.
Qed.

(** The effective lengths of the arrays: the cursor's, or all of them. *)
Definition m15_len (m15 : list BacktestCandle) (cur : option Cursor) : Z :=
  match cur with Some c => cu_m15 c | None => zlen m15 end.
Definition h1_len (h1 : list BacktestCandle) (cur : option Cursor) : Z :=
  match cur with Some c => cu_h1 c | None => zlen h1 end.
Definition d1_len (d1 : list BacktestCandle) (cur : option Cursor) : Z :=
  match cur with Some c => cu_d1 c | None => zlen d1 end.

(** The view [evaluate] works on: the one its arguments determine, for the pair and its
    configuration, on at least 30 bars of each array. *)
Record view_of `{TechnicalIndicators} (ov : Overrides) (sym : string) (m15 h1 d1 : list BacktestCandle)
    (pre : option PrecomputedIndicators) (cur : option Cursor) (v : View) : Prop := {
  vo_cfg : getSmcPairConfig ov sym = Ok (v_cfg v);
  vo_made : exists ic, getInstrumentConfig sym = Ok ic /\ v_factor v = price_factor ic /\
    make_view sym (v_cfg v) (price_factor ic) m15 h1 d1 pre (m15_len m15 cur) (h1_len h1 cur) (d1_len d1 cur) = Ok v;
  vo_enough : 30 <= m15_len m15 cur /\ 30 <= h1_len h1 cur;
  vo_symbol : v_symbol v = sym;
  vo_arrays : v_m15 v = m15 /\ v_h1 v = h1 /\ v_d1 v = d1;
  vo_m15Len : v_m15Len v = m15_len m15 cur;
  vo_h1Len : v_h1Len v = h1_len h1 cur;
  vo_d1Len : v_d1Len v = d1_len d1 cur;
  vo_last : zlookup m15 (m15_len m15 cur - 1) = Some (v_lastM15 v);
}.

(** The arguments determine the view. *)
Lemma view_of_unique `{TechnicalIndicators} ov sym m15 h1 d1 pre cur v v' :
  view_of ov sym m15 h1 d1 pre cur v -> view_of ov sym m15 h1 d1 pre cur v' -> v = v'.
Proof.
  intros [Hc (ic & Hi & _ & Hm) _ _ _ _ _ _ _] [Hc' (ic' & Hi' & _ & Hm') _ _ _ _ _ _ _].
  rewrite Hc in Hc'. rewrite Hi in Hi'. injection Hc' as Hc'. injection Hi' as <-. rewrite <- Hc', Hm in Hm'.
  congruence.
Qed.

(** One call of [evaluate] either returns early or runs [evaluate_state] on the pair. *)
Lemma evaluate_inv `{TechnicalIndicators} ov envRisk sym m15 h1 d1 ctx pre cur o o' r :
  evaluate ov envRisk sym m15 h1 d1 ctx pre cur o = (o', r) ->
  (o' = o /\ r = Ok None) \/ (exists e, r = Throw e /\
      (o' = o \/ exists st, current sym o = Ok st /\ o' = set_states (<[sym := st]> (states o)) o)) \/
  exists st v, current sym o = Ok st /\ view_of ov sym m15 h1 d1 pre cur v /\
    o' = set_states (<[sym := (evaluate_state v ctx envRisk st).1]> (states o)) o /\
    r = (evaluate_state v ctx envRisk st).2.
Proof.
  unfold evaluate. fold (m15_len m15 cur) (h1_len h1 cur) (d1_len d1 cur).
  cbv zeta. destruct (_ || _) eqn:Hlen; [intros [= <- <-]; by left|].
  apply orb_false_iff in Hlen as [H15%Z.ltb_ge H1%Z.ltb_ge]. unfold m_bind, m_lift.
  destruct (getSmcPairConfig ov sym) as [cfg|e] eqn:Hcfg; [|intros [= <- <-]; right; left; eauto].
  destruct (getInstrumentConfig sym) as [ic|e] eqn:Hic; [|intros [= <- <-]; right; left; eauto].
  rewrite with_state_eq. destruct (current sym o) as [st|e] eqn:Hst; [|intros [= <- <-]; right; left; eauto].
  destruct (make_view _ _ _ _ _ _ _ _ _ _) as [v|e] eqn:Hv; simpl;
    [|intros [= <- <-]; right; left; eauto 10].
  intros [= <- <-]. right. right. exists st, v. split; [done|]. split; [|done]. pose proof Hv as Hmade.
  unfold make_view in Hv. destruct (indicators_or _ m15) as [mi|]; simpl in Hv; [|done].
  destruct (indicators_or _ h1) as [hi|]; simpl in Hv; [|done].
  destruct (match pre with Some _ => _ | None => _ end) as [di|]; simpl in Hv; [|done].
  destruct (zlookup m15 (m15_len m15 cur - 1)) as [lm|] eqn:Hl; [|done]. injection Hv as <-.
  split; try done. by exists ic.
Qed.

(** ** The queue *)
Lemma fire_loop_sound v ctx env actioned idxs : forall queue q sig,
  fire_loop v ctx env actioned idxs queue = (q, Ok (Some sig)) ->
  exists s, s ∈ queue /\ s ∈ q /\ try_setup v ctx env actioned s = Ok (Fire sig).
Proof.
  induction idxs as [|i rest IH]; intros queue q sig; simpl; [done|].
  destruct (zlookup queue i) as [s|] eqn:Hs; [|done].
  assert (Hin : s ∈ queue).
  { unfold zlookup in Hs. destruct (i <? 0); [done|]. by eapply list_elem_of_lookup_2. }
  destruct (try_setup v ctx env actioned s) as [[| |sig']|] eqn:Ht; [apply IH| | |done].
  - intros (s' & Hs' & Hq & Hf)%IH. exists s'. split; [|done].
    unfold splice1 in Hs'. destruct (i <? 0); [done|]. by eapply list_elem_of_delete_inv.
  - intros [= <- <-]. by exists s.
Qed.

(** The gates of one evaluation, on the state [st] they see. *)
Record gates_open (v : View) (ctx : LiveContext) (st : OrchestratorState) : Prop := {
  go_cooldown : cooldownBarsRemaining st <= 0;
  go_news : news_blocked v = false;
  go_zone : in_zone v = true;
  go_dow : dow_skipped v = false;
  go_risk : (canTrade (openTime (v_lastM15 v)) (totalOpenPositions ctx) (riskManager st)).2 = Ok true;
}.

Lemma trade_gates_open v ctx st st' :
  trade_gates v ctx st = (st', Ok true) ->
  gates_open v ctx st /\ pending st' = pending st /\ actionedSweeps st' = actionedSweeps st /\
  cooldownBarsRemaining st' = cooldownBarsRemaining st.
Proof.
  unfold trade_gates, rm_gate. destruct (Z.ltb_spec 0 (cooldownBarsRemaining st)); [done|].
  destruct (news_blocked v) eqn:Hn; [done|]. destruct (in_zone v) eqn:Hz; [|done].
  destruct (dow_skipped v) eqn:Hd; [done|]. simpl.
  destruct (canTrade _ _ _) as [r a] eqn:Hc. intros [= <- ->]. split; [|done].
  constructor; try done. by rewrite Hc.
Qed.

(** What makes a setup fire: every check of one turn of the queue loop passed. *)
Record setup_fires (v : View) (ctx : LiveContext) (env : num) (actioned : gset string)
    (s : PendingSetup) (sig : SmcLiveSignal) : Prop := {
  sf_stack : direction s ∉ openDirections ctx;
  sf_fresh : sweepTime s ∉ actioned;
  sf_symbol : sig_symbol sig = v_symbol v;
  sf_side : sig_side sig = direction s;
  sf_time : h1SweepTime sig = sweepTime s;
  sf_mode : sig_mode sig = mode s;
  sf_prices : exists spread, getSpread (v_symbol v) (openTime (v_lastM15 v)) = Ok spread /\
    let entry := entry_price v s spread in
    let sl := sl_price v s in
    let slPoints := nabs (entry - sl)%num in
    nleb slPoints (of_Z 0) = false /\
    too_loose (v_cfg v) s slPoints = false /\ sl_protective (direction s) entry sl = true /\
    too_wide v slPoints = false /\
    sig_entryPrice sig = round_price v entry /\ sig_slPrice sig = round_price v sl /\
    (exists g, structure_gates v s entry = Ok (Some g) /\ smcContext sig = smc_context v s g) /\
    total_lot v ctx env s entry slPoints = Ok (totalLot sig) /\
    too_small (v_cfg v) (totalLot sig) = false /\
    last (leg_tpPrice <$> legs sig) = Some (round_price v (target (direction s) entry slPoints (tp2R (v_cfg v))));
}.

Lemma try_setup_fires v ctx env actioned s sig :
  try_setup v ctx env actioned s = Ok (Fire sig) -> setup_fires v ctx env actioned s sig.
Proof.
  unfold try_setup. case_bool_decide as Hstack; [done|]. case_bool_decide as Hfresh; [done|].
  destruct (getSpread _ _) as [spread|] eqn:Hsp; simpl; [|done].
  unfold price_checks. cbv zeta. set (entry := entry_price v s spread).
  set (slPoints := nabs (entry - sl_price v s)%num).
  destruct (nleb slPoints (of_Z 0)) eqn:H1; [done|].
  destruct (too_loose (v_cfg v) s slPoints) eqn:H2; [done|].
  destruct (sl_protective (direction s) entry (sl_price v s)) eqn:H3; [|done]. simpl.
  destruct (too_wide v slPoints) eqn:H4; [done|].
  destruct (structure_gates v s entry) as [[g|]|] eqn:Hg; simpl; [|done|done].
  destruct (total_lot v ctx env s entry slPoints) as [lot|] eqn:Hlot; simpl; [|done].
  destruct (too_small (v_cfg v) lot) eqn:Hsmall; [done|]. intros Hb%Ok_inj.
  unfold build_signal in Hb. cbv zeta in Hb.
  destruct (uses_ladder (v_cfg v)); simpl negb in Hb; cbv iota in Hb;
    [destruct (_ || _); [done|]|]; injection Hb as <-;
    (constructor; try done; exists spread; cbv zeta; fold entry; fold slPoints;
     split_and!; try done; by exists g).
Qed.

(** [sweep_at] setups only ever enter the queue, so the state a gate sees is bounded by the
    state before. *)
Lemma evaluate_state_fires v ctx env st st' sig :
  evaluate_state v ctx env st = (st', Ok (Some sig)) ->
  exists st1 s, process_sweeps v st = (st1, Ok tt) /\ gates_open v ctx st1 /\
    s ∈ pending st1 /\ s ∈ pending st' /\ v_h1Len v - 1 <= expiresAtH1Idx s /\
    setup_fires v ctx env (actionedSweeps st1) s sig /\
    actionedSweeps st' = actionedSweeps st1.
Proof.
  unfold evaluate_state, m_bind, m_modify. destruct (process_sweeps v st) as [st1 [[]|]] eqn:Hp; [|done].
  destruct (trade_gates v ctx (expire v st1)) as [st2 [[]|]] eqn:Hg; [|done|done].
  apply trade_gates_open in Hg as ([G1 G2 G3 G4 G5] & Hpend & Hact & _).
  unfold fire. rewrite Hpend, Hact.
  destruct (fire_loop _ _ _ _ _ _) as [q r] eqn:Hf. intros [= <- ->].
  apply fire_loop_sound in Hf as (s & Hs & Hq & Ht). exists st1, s.
  apply list_elem_of_In, List.filter_In in Hs as [Hs He]; apply list_elem_of_In in Hs.
  apply Z.leb_le in He. split_and!; try done.
  - by apply try_setup_fires.
Qed.

Section theorems.
Context {T : TechnicalIndicators} (ov : Overrides) (env : num).

(** Nothing of an evaluation changes the dedup set. *)
Lemma detect_at_actioned v i st : actionedSweeps (detect_at v i st).1 = actionedSweeps st.
Proof. unfold detect_at. by repeat case_match. Qed.

Lemma detect_loop_actioned v idxs : forall st, actionedSweeps (detect_loop v idxs st).1 = actionedSweeps st.
Proof.
  induction idxs as [|i rest IH]; intros st; [done|]. simpl. unfold m_bind.
  pose proof (detect_at_actioned v i st). destruct (detect_at v i st) as [st' [u|]]; [|done].
  rewrite IH. done.
Qed.

Lemma process_sweeps_actioned v st : actionedSweeps (process_sweeps v st).1 = actionedSweeps st.
Proof.
  unfold process_sweeps. case_match; [|done]. case_match; [done|]. unfold m_bind, m_modify.
  match goal with |- context [detect_loop v ?l st] => pose proof (detect_loop_actioned v l st) as Hd;
    destruct (detect_loop v l st) as [st' [u|]] end; done.
Qed.

Lemma trade_gates_actioned v ctx st : actionedSweeps (trade_gates v ctx st).1 = actionedSweeps st.
Proof. unfold trade_gates, rm_gate. repeat case_match; simplify_eq/=; done. Qed.

Lemma evaluate_state_actioned v ctx st : actionedSweeps (evaluate_state v ctx env st).1 = actionedSweeps st.
Proof.
  unfold evaluate_state, m_bind, m_modify, m_ret. pose proof (process_sweeps_actioned v st) as H1.
  destruct (process_sweeps v st) as [st1 [u|]]; [|done]. simpl in H1.
  pose proof (trade_gates_actioned v ctx (expire v st1)) as H2.
  destruct (trade_gates v ctx (expire v st1)) as [st2 [[]|]]; simpl in *; try congruence.
  unfold fire. destruct (fire_loop _ _ _ _ _ _). simpl. congruence.
Qed.


(** ** One shot per sweep *)

(** The calls the engine and the position monitor make. *)
Inductive orch_op :=
| OpEvaluate (sym : string) (m15 h1 d1 : list BacktestCandle) (ctx : LiveContext)
    (pre : option PrecomputedIndicators) (cur : option Cursor)
| OpRecordEntry (sym : string) (sig : SmcLiveSignal)
| OpRecordExit (sym : string) (why : OrchExit) (time : string) (p : option num).

Definition orch_step (o : LiveSmcOrchestrator) (op : orch_op) : LiveSmcOrchestrator :=
  match op with
  | OpEvaluate sym m15 h1 d1 ctx pre cur => (evaluate ov env sym m15 h1 d1 ctx pre cur o).1
  | OpRecordEntry sym sig => (recordEntry sym sig o).1
  | OpRecordExit sym why time p => (recordExit ov sym why time p o).1
  end.
Definition orch_run (o : LiveSmcOrchestrator) (ops : list orch_op) : LiveSmcOrchestrator :=
  fold_left orch_step ops o.

Definition op_symbol (op : orch_op) : string :=
  match op with
  | OpEvaluate sym _ _ _ _ _ _ | OpRecordEntry sym _ | OpRecordExit sym _ _ _ => sym
  end.

(** A step rewrites at most the entry of its own pair. *)
Lemma orch_step_shape o op :
  orch_step o op = o \/
  exists st st', current (op_symbol op) o = Ok st /\ actionedSweeps st ⊆ actionedSweeps st' /\
    orch_step o op = set_states (<[op_symbol op := st']> (states o)) o.
Proof.
  destruct op as [sym m15 h1 d1 ctx pre cur|sym sig|sym why time p]; simpl.
  - destruct (evaluate ov env sym m15 h1 d1 ctx pre cur o) as [o' r] eqn:E.
    apply evaluate_inv in E as [[-> _]|[(e & _ & [->|(st & Hst & ->)])|
      (st & v & Hst & _ & -> & _)]]; simpl; [by left|by left|right..].
    + exists st, st. auto.
    + eexists st, _. split; [done|]. split; [|done]. by rewrite evaluate_state_actioned.
  - unfold recordEntry. rewrite with_state_eq. destruct (current sym o) as [st|]; [right|by left].
    eexists st, _. split; [done|]. split; [|done]. simpl. set_solver.
  - unfold recordExit. rewrite with_state_eq. destruct (current sym o) as [st|] eqn:Hst; [right|by left].
    eexists st, _. split; [done|]. split; [|done]. unfold m_bind, m_lift, m_modify, m_ret.
    destruct (getSmcPairConfig ov sym); [|done]. destruct p as [x|]; [|done].
    by destruct (recordTrade x time _ _).
Qed.

(** The pairs are isolated: a call for one pair leaves every other pair's queue, cooldown, dedup
    set and risk manager as they were. *)
Theorem pairs_isolated (o : LiveSmcOrchestrator) (op : orch_op) (sym : string) :
  sym <> op_symbol op ->
  getState sym (orch_step o op) = getState sym o.
Proof.
  intros Hne. unfold getState. destruct (orch_step_shape o op) as [->|(st & st' & _ & _ & ->)]; [done|].
  simpl. by rewrite lookup_insert_ne.
Qed.

(** The sweep [t] of [sym] has been taken. *)
Definition taken (t sym : string) (o : LiveSmcOrchestrator) : Prop :=
  exists st, states o !! sym = Some st /\ t ∈ actionedSweeps st.

Lemma taken_step t sym o op : taken t sym o -> taken t sym (orch_step o op).
Proof.
  intros (st & Hst & Ht). destruct (orch_step_shape o op) as [->|(s & s' & Hs & Hsub & ->)]; [by exists st|].
  unfold taken. simpl. destruct (decide (op_symbol op = sym)) as [Hop|Hop].
  - rewrite Hop in *. exists s'. rewrite lookup_insert_eq. split; [done|]. unfold current in Hs.
    rewrite Hst in Hs. simplify_eq. set_solver.
  - exists st. by rewrite lookup_insert_ne.
Qed.

(** Every public method that changes an orchestrator: the calls above, [setDefaultRiskCfg],
    [reset], [resetAll], [restore], and the restart of the process, which restores into a new
    orchestrator. *)
Inductive orch_call :=
| Call (op : orch_op)
| SetDefaultRiskCfg (c : RiskCfg)
| Reset (sym : string)
| ResetAll
| Restore (snap : list (string * RawState))
| Restart (c : RiskCfg) (snap : list (string * RawState)).

Definition call_step (o : LiveSmcOrchestrator) (c : orch_call) : LiveSmcOrchestrator :=
  match c with
  | Call op => orch_step o op
  | SetDefaultRiskCfg c => setDefaultRiskCfg c o
  | Reset sym => reset sym o
  | ResetAll => resetAll o
  | Restore snap => (restore snap o).1
  | Restart c snap => (restore snap (setDefaultRiskCfg c new_LiveSmcOrchestrator)).1
  end.
Definition call_run (o : LiveSmcOrchestrator) (cs : list orch_call) : LiveSmcOrchestrator :=
  fold_left call_step cs o.

Definition known (sym : string) : Prop := exists ic, getInstrumentConfig sym = Ok ic.

(** A snapshot that has the sweep [t] among the traded ones of [sym]: the pair's last entry
    lists it, and the entries up to it are of known instruments (the restore stops at the first
    that is not). *)
Definition remembers (t sym : string) (snap : list (string * RawState)) : Prop :=
  exists l1 raw l2, snap = l1 ++ (sym, raw) :: l2 /\ Forall (fun e => known e.1) l1 /\ known sym /\
    sym ∉ l2.*1 /\ exists ts, raw_actionedSweeps raw = Some ts /\ t ∈ ts.

(** The calls that do not throw away what the pair has traded. *)
Definition keeps (t sym : string) (c : orch_call) : Prop :=
  match c with
  | Call _ | SetDefaultRiskCfg _ => True
  | Reset s => s <> sym
  | ResetAll => False
  | Restore snap | Restart _ snap => remembers t sym snap
  end.

Lemma known_builds sym o : known sym -> exists r, buildRiskManager sym o = Ok r.
Proof. intros [ic Hic]. unfold buildRiskManager, new_RiskManager. simpl. rewrite Hic. eexists. done. Qed.

Lemma restore_loop_app l1 l2 o :
  Forall (fun e => known e.1) l1 ->
  exists o1, restore_loop l1 o = (o1, Ok tt) /\ restore_loop (l1 ++ l2) o = restore_loop l2 o1.
Proof.
  intros H. revert o. induction H as [|[s raw] l1 Hk Hl IH]; intros o; [by exists o|]. simpl in *.
  destruct (known_builds s o Hk) as [r ->]. apply IH.
Qed.

Lemma restore_loop_frame sym l : forall o,
  sym ∉ l.*1 -> states (restore_loop l o).1 !! sym = states o !! sym.
Proof.
  induction l as [|[s raw] l IH]; intros o Hn; [done|]. simpl in *.
  apply not_elem_of_cons in Hn as [Hne Hn]. destruct (buildRiskManager s o); [|done].
  rewrite IH by done. simpl. by rewrite lookup_insert_ne.
Qed.

Lemma taken_restore t sym snap o : remembers t sym snap -> taken t sym (restore snap o).1.
Proof.
  intros (l1 & raw & l2 & -> & Hl1 & Hk & Hn & ts & Hts & Ht). unfold restore, m_bind, m_modify.
  destruct (restore_loop_app l1 ((sym, raw) :: l2) (resetAll o) Hl1) as (o1 & _ & ->). simpl.
  destruct (known_builds sym o1 Hk) as [r ->]. unfold taken. rewrite restore_loop_frame by done. simpl.
  eexists. rewrite lookup_insert_eq. split; [done|]. simpl. rewrite Hts. simpl. by apply elem_of_list_to_set.
Qed.

(** A snapshot written while the sweep was among the traded ones has it. *)
Lemma own_snapshot_remembers t sym o :
  map_Forall (fun k _ => known k) (states o) -> taken t sym o ->
  remembers t sym ((fun e => (e.1, json_state e.2)) <$> serialize o).
Proof.
  intros Hk (st & Hst & Ht). unfold serialize.
  assert (Hin : (sym, snapshot_of st) ∈ map_to_list (snapshot_of <$> states o))
    by (apply elem_of_map_to_list; by rewrite lookup_fmap, Hst).
  pose proof (NoDup_fst_map_to_list (snapshot_of <$> states o)) as Hnd.
  assert (Hall : Forall (fun e : string * StateSnapshot => known e.1) (map_to_list (snapshot_of <$> states o))).
  { apply Forall_forall. intros [k ss] (s & _ & Hs)%elem_of_map_to_list%lookup_fmap_Some. by eapply Hk. }
  apply list_elem_of_split in Hin as (l1 & l2 & Hl). rewrite Hl in *.
  rewrite fmap_app in Hnd. apply NoDup_app in Hnd as (_ & _ & [Hn _]%NoDup_cons).
  apply Forall_app in Hall as [Hl1 _].
  exists ((fun e => (e.1, json_state e.2)) <$> l1), (json_state (snapshot_of st)), ((fun e => (e.1, json_state e.2)) <$> l2).
  split; [by rewrite fmap_app|]. split; [by apply Forall_fmap|]. split; [by eapply Hk|].
  split; [rewrite <- list_fmap_compose; exact Hn|]. simpl. exists (elements (actionedSweeps st)).
  split; [done|]. by apply elem_of_elements.
Qed.

Lemma taken_call t sym o c : keeps t sym c -> taken t sym o -> taken t sym (call_step o c).
Proof.
  destruct c as [op|c|s| |snap|c snap]; simpl; intros Hk Ht; [by apply taken_step|done| |done|by apply taken_restore..].
  destruct Ht as (st & Hst & Ht). exists st. simpl. by rewrite lookup_delete_ne.
Qed.

Lemma taken_run t sym cs : forall o, Forall (keeps t sym) cs -> taken t sym o -> taken t sym (call_run o cs).
Proof.
  induction cs as [|c cs IH]; intros o Hall Ht; [done|]. inversion Hall; subst. simpl. by apply IH, taken_call.
Qed.

(** C7: a sweep is traded once.  After [recordEntry] has committed a signal, no later evaluation
    of the pair fires the same sweep again, whatever calls of the orchestrator come in between:
    evaluations, entries and exits of any pair, changes of the risk defaults, resets of other
    pairs, and restores and restarts from a snapshot that has the sweep among the pair's traded
    ones, as every snapshot written after the entry has ([own_snapshot_remembers]).  The calls
    excluded are those that erase the record: a reset of this pair or of all of them, and the
    restore of a snapshot without the sweep. *)
Theorem sweep_fires_once (sym : string) (sig sig' : SmcLiveSignal) (o o1 o2 : LiveSmcOrchestrator)
    (cs : list orch_call) (m15 h1 d1 : list BacktestCandle) (ctx : LiveContext)
    (pre : option PrecomputedIndicators) (cur : option Cursor) :
  recordEntry sym sig o = (o1, Ok tt) -> Forall (keeps (h1SweepTime sig) sym) cs ->
  evaluate ov env sym m15 h1 d1 ctx pre cur (call_run o1 cs) = (o2, Ok (Some sig')) ->
  h1SweepTime sig' <> h1SweepTime sig.
Proof.
  intros He Hall Hev Heq. assert (Ht : taken (h1SweepTime sig) sym o1).
  { unfold recordEntry in He. rewrite with_state_eq in He. destruct (current sym o) as [st|]; [|done].
    simpl in He. injection He as <-. eexists. simpl. rewrite lookup_insert_eq. split; [done|].
    simpl. set_solver. }
  apply (taken_run _ _ cs _ Hall) in Ht as (st & Hst & Ht).
  apply evaluate_inv in Hev as [[_ [=]]|[(e & [=] & _)|(st' & v & Hst' & _ & _ & Hr)]].
  unfold current in Hst'. rewrite Hst in Hst'. injection Hst' as <-.
  destruct (evaluate_state v ctx env st) as [st2 r] eqn:E. simpl in Hr. subst r.
  apply evaluate_state_fires in E as (st1 & s & Hp & _ & _ & _ & _ & [_ Hf _ _ Htime _ _] & _).
  pose proof (process_sweeps_actioned v st) as Hact. rewrite Hp in Hact. simpl in Hact.
  rewrite Hact in Hf. congruence.
Qed.

(** ** The cooldown *)
Lemma detect_loop_cooldown v idxs : forall st,
  cooldownBarsRemaining (detect_loop v idxs st).1 = cooldownBarsRemaining st.
Proof.
  induction idxs as [|i rest IH]; intros st; [done|]. simpl. unfold m_bind.
  assert (Hd : cooldownBarsRemaining (detect_at v i st).1 = cooldownBarsRemaining st)
    by (unfold detect_at; by repeat case_match).
  destruct (detect_at v i st) as [st' [u|]]; [|done]. rewrite IH. done.
Qed.

Lemma process_sweeps_cooldown v st :
  cooldownBarsRemaining (process_sweeps v st).1 = cooldownBarsRemaining st.
Proof.
  unfold process_sweeps. case_match; [|done]. case_match; [done|]. unfold m_bind, m_modify.
  match goal with |- context [detect_loop v ?l st] => pose proof (detect_loop_cooldown v l st) as Hd;
    destruct (detect_loop v l st) as [st' [u|]] end; done.
Qed.

(** A call during the cooldown fires nothing and counts down by at most one. *)
Lemma evaluate_state_cooling v ctx st :
  0 < cooldownBarsRemaining st ->
  (forall sig, (evaluate_state v ctx env st).2 <> Ok (Some sig)) /\
  cooldownBarsRemaining st - 1 <= cooldownBarsRemaining (evaluate_state v ctx env st).1.
Proof.
  intros Hc. unfold evaluate_state, m_bind, m_modify, m_ret. pose proof (process_sweeps_cooldown v st) as H1.
  destruct (process_sweeps v st) as [st1 [u|]]; simpl in H1; [|split; [done|simpl; lia]].
  unfold trade_gates. change (cooldownBarsRemaining (expire v st1)) with (cooldownBarsRemaining st1).
  destruct (Z.ltb_spec 0 (cooldownBarsRemaining st1)); [|lia]. simpl. split; [done|lia].
Qed.

Definition is_eval (op : orch_op) : bool := match op with OpEvaluate _ _ _ _ _ _ _ => true | _ => false end.
Definition evals_of (sym : string) (ops : list orch_op) : Z :=
  zlen (filter (fun op => op_symbol op = sym) ops).

(** The pair cools for at least [n] more evaluations. *)
Definition cooling (sym : string) (n : Z) (o : LiveSmcOrchestrator) : Prop :=
  exists st, states o !! sym = Some st /\ n <= cooldownBarsRemaining st.

Lemma cooling_step sym n o op :
  0 < n -> is_eval op = true -> cooling sym n o ->
  cooling sym (if decide (op_symbol op = sym) then n - 1 else n) (orch_step o op).
Proof.
  intros Hn Hop (st & Hst & Hc). case_decide as Hs.
  - destruct op as [s m15 h1 d1 ctx pre cur| |]; try done. simpl in *. subst s.
    destruct (evaluate ov env sym m15 h1 d1 ctx pre cur o) as [o' r] eqn:E.
    apply evaluate_inv in E as [[-> _]|[(e & _ & [->|(st' & Hst' & ->)])|
      (st' & v & Hst' & _ & -> & _)]];
      try (unfold current in Hst'; rewrite Hst in Hst'; injection Hst' as <-); unfold cooling; simpl;
      try (exists st; split; [done|lia]).
    + exists st. rewrite lookup_insert_eq. split; [done|lia].
    + eexists. rewrite lookup_insert_eq. split; [done|].
      pose proof (proj2 (evaluate_state_cooling v ctx st ltac:(lia))). lia.
  - exists st. split; [|done]. destruct (orch_step_shape o op) as [->|(s & s' & _ & _ & ->)]; [done|].
    simpl. by rewrite lookup_insert_ne.
Qed.

Lemma cooling_run sym ops : forall o n,
  Forall (fun op => is_eval op = true) ops -> evals_of sym ops < n -> cooling sym n o ->
  cooling sym (n - evals_of sym ops) (orch_run o ops).
Proof.
  unfold evals_of, zlen. induction ops as [|op ops IH]; intros o n Hall Hlt Hc.
  - simpl. by rewrite Z.sub_0_r.
  - inversion Hall; subst. rewrite filter_cons in *. simpl.
    pose proof (cooling_step sym n o op ltac:(lia) ltac:(done) Hc) as Hstep. case_decide.
    + simpl in *. replace (n - _) with (n - 1 - Z.of_nat (length (filter (fun op => op_symbol op = sym) ops))) by lia.
      apply IH; [done|lia|done].
    + by apply IH.
Qed.

(** The cooldown is honoured.  After an exit is recorded, the pair gives no signal during the
    configured number of its evaluations (2 after a target, [slCooldownBars] after a stop,
    1 otherwise), however many evaluations of other pairs run in between. *)
Theorem exit_cooldown_honoured (sym : string) (why : OrchExit) (time : string) (p : option num)
    (o o1 o2 : LiveSmcOrchestrator) (r : Res unit) (cfg : SmcPairConfig) (ops : list orch_op)
    (m15 h1 d1 : list BacktestCandle) (ctx : LiveContext) (pre : option PrecomputedIndicators)
    (cur : option Cursor) (sig : SmcLiveSignal) :
  recordExit ov sym why time p o = (o1, r) -> is_Some (getState sym o) ->
  getSmcPairConfig ov sym = Ok cfg ->
  Forall (fun op => is_eval op = true) ops -> evals_of sym ops < exit_bars cfg why ->
  evaluate ov env sym m15 h1 d1 ctx pre cur (orch_run o1 ops) <> (o2, Ok (Some sig)).
Proof.
  intros He [st0 Hst0] Hcfg Hall Hlt Hev. unfold getState in Hst0.
  assert (Hc : cooling sym (exit_bars cfg why) o1).
  { unfold recordExit in He. rewrite with_state_eq in He. unfold current in He. rewrite Hst0 in He.
    unfold m_bind, m_lift, m_modify, m_ret in He. rewrite Hcfg in He. injection He as <- _.
    unfold cooling. simpl. eexists. rewrite lookup_insert_eq. split; [done|].
    destruct p as [x|]; [|simpl; lia]. destruct (recordTrade x time _ _). simpl. lia. }
  apply (cooling_run sym ops o1 _ Hall Hlt) in Hc as (st & Hst & Hc).
  apply evaluate_inv in Hev as [[_ [=]]|[(e & [=] & _)|(st' & v & Hst' & _ & _ & Hr)]].
  unfold current in Hst'. rewrite Hst in Hst'. injection Hst' as <-.
  destruct (evaluate_state_cooling v ctx st ltac:(lia)) as [Hn _]. by apply (Hn sig).
Qed.

(** ** Catching up on H1 bars *)

(** What the detector says of bar [i], when it may be queued. *)
Definition detected (v : View) (actioned : gset string) (i : Z) : option PendingSetup :=
  if nleb (d1AdxFloor (v_cfg v)) (v_adx v) then
    match detectSweep (v_h1 v) (v_h1Ind v) i (v_bias v) (v_adx v) (v_cfg v)
            (Some (v_d1 v)) (v_d1Ind v) (Some (openTime (v_lastM15 v))) with
    | Ok (Some s) => if accepts (v_cfg v) actioned s then Some s else None
    | _ => None
    end
  else None.

Lemma detect_loop_pending v idxs : forall st st',
  detect_loop v idxs st = (st', Ok tt) ->
  st' = set_pending (pending st ++ omap (detected v (actionedSweeps st)) idxs) st.
Proof.
  induction idxs as [|i rest IH]; intros st st'; simpl.
  - intros [= <-]. rewrite app_nil_r. by destruct st.
  - unfold m_bind. destruct (detect_at v i st) as [st1 [[]|]] eqn:Hd; [|done]. intros ->%IH.
    unfold detected at 2. unfold detect_at in Hd. destruct (nleb _ _); [|by simplify_eq].
    destruct (detectSweep _ _ _ _ _ _ _ _ _) as [[s|]|]; simplify_eq; [|done].
    destruct (accepts _ _ _); [|done]. destruct st. unfold set_pending. simpl. by rewrite <- app_assoc.
Qed.

(** Where the loop resumes. *)
Definition resume_at (v : View) (st : OrchestratorState) : Z :=
  if truthy_str (lastProcessedH1Time st)
  then findH1IdxAfter (v_h1 v) (default ""%string (lastProcessedH1Time st)) (v_h1Len v - 2)
  else v_h1Len v - 2.

Lemma process_sweeps_run v st st' u :
  zlookup (v_h1 v) (v_h1Len v - 2) = Some u ->
  opt_str_eqb (lastProcessedH1Time st) (openTime u) = false ->
  process_sweeps v st = (st', Ok tt) ->
  st' = set_lastProcessed (Some (openTime u))
          (set_pending (pending st ++ omap (detected v (actionedSweeps st))
             (up_from (resume_at v st) (v_h1Len v - 2))) st).
Proof.
  intros Hu Hne. unfold process_sweeps. replace (v_h1Len v - 1 - 1) with (v_h1Len v - 2) by lia.
  rewrite Hu, Hne. cbv zeta. fold (resume_at v st). unfold m_bind, m_modify.
  destruct (detect_loop v _ st) as [st1 [[]|]] eqn:Hd; [|done]. intros [= <-].
  by apply detect_loop_pending in Hd as ->.
Qed.

(** [findH1IdxAfter] on bars in time order: the first bar after the last processed one. *)
Lemma findH1IdxAfter_spec h1 iso a n u ms :
  chronological h1 -> Date_parse iso = Some a -> 0 <= n -> zlookup h1 n = Some u ->
  candle_ms u = Some ms -> a < ms ->
  forall i c m, 0 <= i <= n -> zlookup h1 i = Some c -> candle_ms c = Some m ->
    (findH1IdxAfter h1 iso n <= i <-> a < m).
Proof.
  intros Hc Ha Hn Hu Hms Hlt i c m Hi Hci Hm. unfold findH1IdxAfter. rewrite Ha. cbv zeta.
  set (f := fun i => c ← zlookup h1 i; if tv_lt (Some a) (candle_ms c) then Some i else None).
  assert (Hfn : f n = Some n) by (unfold f; rewrite Hu; simpl; rewrite Hms; simpl; destruct (Z.ltb_spec a ms); [done|lia]).
  destruct (first_some_is_Some f (up_from 0 n) n) as [k Hk]; [by apply elem_of_up_from|eauto|].
  rewrite Hk. simpl. apply first_some_up in Hk as (j & Hj & Hf & Hbefore).
  unfold f in Hf. destruct (zlookup h1 j) as [cj|] eqn:Hcj; simpl in Hf; [|done].
  destruct (candle_ms cj) as [mj|] eqn:Hmj; simpl in Hf; [|done].
  destruct (Z.ltb_spec a mj); simplify_eq. split.
  - intros Hle. assert (mj <= m); [|lia]. by eapply (chronological_le h1 k i).
  - intros Ham. apply Z.nlt_ge. intros Hik. specialize (Hbefore i ltac:(lia)).
    unfold f in Hbefore. rewrite Hci in Hbefore. simpl in Hbefore. rewrite Hm in Hbefore. simpl in Hbefore.
    destruct (Z.ltb_spec a m); [done|lia].
Qed.

(** C35: catching up is exact.  When a call of the sweep step returns, the last processed bar is the
    newest bar whose follow-up bar has closed; the queue has gained, in order, the accepted
    sweeps of exactly the bars that opened after the previously processed one up to that bar;
    each is a sweep in the detector's sense and none was taken before; and running the step
    again on the same bars adds nothing. *)
Theorem catch_up_exact (v : View) (st st' : OrchestratorState) (u : BacktestCandle) (iso : string) (a ms : Z) :
  chronological (v_h1 v) -> 0 <= v_h1Len v - 2 ->
  zlookup (v_h1 v) (v_h1Len v - 2) = Some u -> candle_ms u = Some ms ->
  lastProcessedH1Time st = Some iso -> iso <> ""%string -> Date_parse iso = Some a -> a < ms ->
  process_sweeps v st = (st', Ok tt) ->
  exists gained, lastProcessedH1Time st' = Some (openTime u) /\ pending st' = pending st ++ gained /\
    gained = omap (detected v (actionedSweeps st)) (up_from (resume_at v st) (v_h1Len v - 2)) /\
    (forall i c m, 0 <= i <= v_h1Len v - 2 -> zlookup (v_h1 v) i = Some c -> candle_ms c = Some m ->
       ((i ∈ up_from (resume_at v st) (v_h1Len v - 2)) <-> a < m)) /\
    (forall s, s ∈ gained -> sweepTime s ∉ actionedSweeps st /\
       exists i, resume_at v st <= i <= v_h1Len v - 2 /\
         sweep_at (v_h1 v) (v_h1Ind v) (v_cfg v) (Some (v_d1 v)) (v_d1Ind v) (Some (openTime (v_lastM15 v)))
           (v_bias v) (v_adx v) i s) /\
    process_sweeps v st' = (st', Ok tt).
Proof.
  intros Hc Hn Hu Hms Hl Hiso Ha Hlt Hp.
  assert (Hne : opt_str_eqb (lastProcessedH1Time st) (openTime u) = false).
  { rewrite Hl. simpl. apply String.eqb_neq. intros ->. unfold candle_ms in Hms. rewrite Ha in Hms.
    simplify_eq. lia. }
  pose proof (process_sweeps_run v st st' u Hu Hne Hp) as ->. eexists. split_and!; try done.
  - intros i c m Hi Hci Hm. rewrite elem_of_up_from. unfold resume_at. rewrite Hl. simpl.
    destruct (String.eqb_spec iso ""); [done|]. simpl.
    pose proof (findH1IdxAfter_spec (v_h1 v) iso a _ u ms Hc Ha Hn Hu Hms Hlt i c m Hi Hci Hm). lia.
  - intros s (i & Hi & Hd)%list_elem_of_omap. unfold detected in Hd. destruct (nleb _ _); [|done].
    destruct (detectSweep _ _ _ _ _ _ _ _ _) as [[s'|]|] eqn:E; try done.
    destruct (accepts _ _ _) eqn:Hacc; simplify_eq. split.
    + unfold accepts in Hacc. apply andb_true_iff in Hacc as [[_ Hacc]%andb_true_iff _].
      by apply negb_true_iff, bool_decide_eq_false in Hacc.
    + exists i. split; [by apply elem_of_up_from|]. by eapply detectSweep_sound_at.
  - unfold process_sweeps. replace (v_h1Len v - 1 - 1) with (v_h1Len v - 2) by lia. simpl.
    rewrite Hu, String.eqb_refl. done.
Qed.

(** When the last processed bar has dropped off the buffer, the catch-up restarts from the oldest
    bar it has, not from the newest. *)
Theorem dropped_bar_restarts_from_oldest (h1 : list BacktestCandle) (iso : string) (a maxIdx : Z)
    (c : BacktestCandle) (m : Z) :
  Date_parse iso = Some a -> 0 <= maxIdx -> zlookup h1 0 = Some c -> candle_ms c = Some m -> a < m ->
  findH1IdxAfter h1 iso maxIdx = 0.
Proof.
  intros Ha Hmax Hc Hm Hlt. unfold findH1IdxAfter. rewrite Ha. cbv zeta.
  rewrite up_from_cons by lia. simpl. rewrite Hc. simpl. rewrite Hm. simpl.
  destruct (Z.ltb_spec a m); [done|lia].
Qed.

(** ** Expiry *)

(** A setup that the expiry filter keeps stays queued through an evaluation outside the
    killzones. *)
Lemma process_sweeps_keeps v st s : s ∈ pending st -> s ∈ pending (process_sweeps v st).1.
Proof.
  intros Hs. assert (Hl : forall idxs st, s ∈ pending st -> s ∈ pending (detect_loop v idxs st).1).
  { intros idxs. induction idxs as [|i rest IH]; intros st1 Hs1; [done|]. simpl. unfold m_bind.
    assert (Hd : s ∈ pending (detect_at v i st1).1).
    { unfold detect_at. repeat case_match; try done. simpl. apply elem_of_app. by left. }
    destruct (detect_at v i st1) as [st2 [u|]]; [by apply IH|done]. }
  unfold process_sweeps. case_match; [|done]. case_match; [done|]. unfold m_bind, m_modify.
  match goal with |- context [detect_loop v ?l st] => specialize (Hl l st Hs);
    destruct (detect_loop v l st) as [st' [u|]] end; done.
Qed.

Lemma evaluate_state_keeps v ctx st s :
  s ∈ pending st -> v_h1Len v - 1 <= expiresAtH1Idx s -> in_zone v = false ->
  s ∈ pending (evaluate_state v ctx env st).1.
Proof.
  intros Hs He Hz. unfold evaluate_state, m_bind, m_modify, m_ret.
  pose proof (process_sweeps_keeps v st s Hs) as H1.
  destruct (process_sweeps v st) as [st1 [u|]]; [|done]. simpl in H1.
  assert (H2 : s ∈ pending (expire v st1)).
  { simpl. apply list_elem_of_In, List.filter_In. split; [by apply list_elem_of_In|]. by apply Z.leb_le. }
  unfold trade_gates. rewrite Hz. destruct (0 <? _); [done|]. by destruct (news_blocked v).
Qed.

(** An evaluation of the pair on the live buffer of [n] H1 bars, outside the killzones. *)
Definition quiet_hour (sym : string) (cfg : SmcPairConfig) (n : Z) (op : orch_op) : Prop :=
  exists m15 h1 d1 ctx, op = OpEvaluate sym m15 h1 d1 ctx None None /\ zlen h1 = n /\
    forall c, zlookup m15 (zlen m15 - 1) = Some c ->
      match getUTCHours <$> candle_ms c with
      | Some h => existsb (fun z => (z.1 <=? h) && (h <? z.2)) (killzones cfg)
      | None => false
      end = false.

(** On the live buffer a queued setup never expires.  The buffer always holds the same number of
    H1 bars, so the index a setup was detected at stays one below the end however many hours
    pass, and the expiry test on indices never removes it. *)
Theorem pending_never_expires_live (sym : string) (cfg : SmcPairConfig) (n : Z)
    (o : LiveSmcOrchestrator) (st : OrchestratorState) (s : PendingSetup) (ops : list orch_op) :
  getSmcPairConfig ov sym = Ok cfg -> getState sym o = Some st -> s ∈ pending st ->
  detectedAtH1Idx s = n - 2 -> expiresAtH1Idx s = detectedAtH1Idx s + setupExpiryH1Bars cfg ->
  1 <= setupExpiryH1Bars cfg -> Forall (quiet_hour sym cfg n) ops ->
  exists st', getState sym (orch_run o ops) = Some st' /\ s ∈ pending st'.
Proof.
  intros Hcfg Hst Hs Hdet Hexp He Hall. unfold getState in *. revert o st Hst Hs.
  induction Hall as [|op ops (m15 & h1 & d1 & ctx & -> & Hlen & Hz) Hall IH]; intros o st Hst Hs; [eauto|].
  simpl. destruct (evaluate ov env sym m15 h1 d1 ctx None None o) as [o' r] eqn:E. simpl.
  apply evaluate_inv in E as [[-> _]|[(e & _ & [->|(st' & Hst' & ->)])|
    (st' & v & Hst' & [Hcfg' _ _ _ _ Hm15 Hh1 _ Hlast] & -> & _)]]; [by eapply IH|by eapply IH|..];
    unfold current in Hst'; rewrite Hst in Hst'; injection Hst' as <-.
  - eapply (IH _ st); [simpl; by rewrite lookup_insert_eq|done].
  - eapply (IH _ _); [simpl; by rewrite lookup_insert_eq|]. simpl in Hh1, Hlast.
    rewrite Hcfg in Hcfg'. injection Hcfg' as ->.
    apply evaluate_state_keeps; [done|lia|]. unfold in_zone, utc_hour. by apply Hz.
Qed.
End theorems.

(** * Persistence of the orchestrator

    [restoreFromRedis] after [persistToRedis] against any key-value store that reads
    back what was written. *)
From S2P Require Import Prelude JsNum JsDate Types Instruments RiskManager RiskFacts SweepDetector Indicators.
From S2P Require Import Orchestrator.
(** ** Restoring a list of entries *)

Definition built (e : string * RawState) (o : LiveSmcOrchestrator) : option OrchestratorState :=
  match buildRiskManager e.1 o with Ok fresh => Some (restored e.2 fresh) | Throw _ => None end.

Lemma buildRiskManager_cfg sym m o : buildRiskManager sym (set_states m o) = buildRiskManager sym o.
Proof. done. Qed.

(** When every manager can be built, the loop sets each entry of the snapshot. *)
Lemma restore_loop_spec l : forall o,
  NoDup (fst <$> l) ->
  Forall (fun e => exists r, buildRiskManager e.1 o = Ok r) l ->
  exists m, restore_loop l o = (set_states m o, Ok tt) /\
    (forall e, e ∈ l -> m !! e.1 = built e o) /\
    forall k, k ∉ (fst <$> l) -> m !! k = states o !! k.
Proof.
  induction l as [|[sym raw] l IH]; intros o Hnd Hok; simpl.
  - exists (states o). split_and!; [by destruct o|by intros e He%elem_of_nil|done].
  - inversion Hok as [|? ? [r Hr] Hok']; subst. simpl in Hr. rewrite Hr.
    simpl in Hnd. apply NoDup_cons in Hnd as [Hnin Hnd].
    destruct (IH (set_states (<[sym := restored raw r]> (states o)) o)) as (m & Hm & Hin & Hout); [done|done|].
    exists m. split; [by rewrite Hm|]. split.
    + intros e [->|He]%elem_of_cons; [|by apply Hin]. simpl. rewrite Hout by done. simpl.
      rewrite lookup_insert_eq. unfold built. simpl. by rewrite Hr.
    + intros k Hk. simpl in Hk. apply not_elem_of_cons in Hk as [Hk1 Hk2].
      rewrite Hout by done. simpl. by rewrite lookup_insert_ne.
Qed.

(** ** The round trip of one state *)

(** A number that JSON writes exactly, and a setup made of such numbers. *)
Definition setup_safe (p : PendingSetup) : Prop :=
  json_safe (sweepLevel p) /\ json_safe (sweepWick p) /\ json_safe (sweepMid p) /\
  json_safe (sweepCandleAtr p) /\ json_safe (sweepCandleHigh p) /\ json_safe (sweepCandleLow p) /\
  sweepTime p <> ""%string.

Lemma json_setup_safe p : setup_safe p -> json_setup p = p.
Proof.
  intros (H1 & H2 & H3 & H4 & H5 & H6 & _). unfold json_safe in *. unfold json_setup, json_read.
  rewrite H1, H2, H3, H4, H5, H6. by destruct p.
Qed.

Lemma restore_pendings l : Forall setup_safe l ->
  omap restore_pending ((fun p => {| rp_base := json_setup p; rp_sweepTime := Some (sweepTime p) |}) <$> l) = l.
Proof.
  set (F := fun p => {| rp_base := json_setup p; rp_sweepTime := Some (sweepTime p) |}).
  induction 1 as [|p l Hp Hl IH]; [done|].
  assert (E : restore_pending (F p) = Some p).
  { unfold restore_pending, F. simpl. destruct (String.eqb_spec (sweepTime p) "") as [He|_].
    - by destruct Hp as (_ & _ & _ & _ & _ & _ & Ht).
    - rewrite json_setup_safe by done. by destruct p. }
  change (match restore_pending (F p) with
          | Some y => y :: omap restore_pending (F <$> l)
          | None => omap restore_pending (F <$> l) end = p :: l).
  by rewrite E, IH.
Qed.

(** A state whose numbers JSON keeps, for a manager of this orchestrator. *)
Definition state_safe (o : LiveSmcOrchestrator) (sym : string) (s : OrchestratorState) : Prop :=
  Forall setup_safe (pending s) /\ rm_json_safe (riskManager s) /\
  exists fresh, buildRiskManager sym o = Ok fresh /\
    config fresh = config (riskManager s) /\ rm_lotSizeUnits fresh = rm_lotSizeUnits (riskManager s).

(** All that a state keeps: the trade log is cut to its last 30 entries. *)
Definition kept (s : OrchestratorState) : OrchestratorState :=
  set_rm (set_tradeLog (last_n TRADE_LOG_KEEP (tradeLog (riskManager s))) (riskManager s)) s.

Lemma restored_kept o sym s fresh :
  state_safe o sym s -> buildRiskManager sym o = Ok fresh ->
  restored (json_state (snapshot_of s)) fresh = kept s.
Proof.
  intros (Hp & Hr & f & Hf & Hc & Hu) Hfresh. rewrite Hf in Hfresh. injection Hfresh as <-.
  unfold restored, json_state, snapshot_of. simpl. rewrite restore_pendings by done.
  rewrite snapshot_roundtrip_eq by done.
  rewrite list_to_set_elements_L. by destruct s.
Qed.

(** ** Through the store *)

(** A store reads back what was written to a key. *)
Class RedisLaws (Store : Type) `{RedisService Store} : Prop :=
  redis_get_set k v st st' : redis_set k v st = Ok st' -> redis_get k st' = Ok (Some v).

(** C12: a restart keeps every pair's state.  If the write succeeded, restoring from the store into a
    freshly constructed orchestrator with the same risk defaults brings back exactly the pairs that
    were there, each with its queue, cursor, cooldown, dedup set and risk manager (the trade log
    cut to its last 30 entries), whatever that orchestrator held before. *)
Theorem restart_keeps_state {Store} `{RedisLaws Store} (accountId : option string)
    (o other : LiveSmcOrchestrator) (st st' : Store) :
  defaultRiskCfg other = defaultRiskCfg o ->
  map_Forall (state_safe o) (states o) ->
  redis_set (state_key accountId) (stringify o) st = Ok st' ->
  persistToRedis accountId o st = st' /\
  states (restoreFromRedis accountId st' other) = kept <$> states o.
Proof.
  intros Hcfg Hsafe Hset. unfold persistToRedis, restoreFromRedis. rewrite Hset. split; [done|].
  rewrite (redis_get_set _ _ _ _ Hset). unfold restore, m_bind, m_modify, stringify.
  set (l := (fun e : string * StateSnapshot => (e.1, json_state e.2)) <$> serialize o).
  assert (Hkeys : forall k raw, (k, raw) ∈ l <-> exists s, states o !! k = Some s /\ raw = json_state (snapshot_of s)).
  { intros k raw. unfold l, serialize. rewrite list_elem_of_fmap. split.
    - intros ([k' ss] & [= -> ->] & Hin%elem_of_map_to_list). simpl in *.
      rewrite lookup_fmap in Hin. destruct (states o !! k') as [s|]; simplify_eq/=. eauto.
    - intros (s & Hs & ->). exists (k, snapshot_of s). split; [done|]. apply elem_of_map_to_list.
      by rewrite lookup_fmap, Hs. }
  assert (Hbuild : forall k, buildRiskManager k (resetAll other) = buildRiskManager k o).
  { intros k. unfold buildRiskManager, resetAll. simpl. by rewrite Hcfg. }
  destruct (restore_loop_spec l (resetAll other)) as (m & Hm & Hin & Hout).
  - unfold l, serialize. rewrite <- list_fmap_compose. 
    rewrite (list_fmap_ext _ fst) by done. apply NoDup_fst_map_to_list.
  - apply Forall_forall. intros [k raw] (s & Hs & _)%Hkeys. simpl. rewrite Hbuild.
    destruct (Hsafe _ _ Hs) as (_ & _ & f & Hf & _). eauto.
  - rewrite Hm. simpl. apply map_eq. intros k. rewrite lookup_fmap.
    destruct (states o !! k) as [s|] eqn:Hs; simpl.
    + assert (Hl : (k, json_state (snapshot_of s)) ∈ l) by (apply Hkeys; eauto).
      pose proof (Hin _ Hl) as Hmk. simpl in Hmk. rewrite Hmk. unfold built. simpl. rewrite Hbuild.
      pose proof (Hsafe _ _ Hs) as Hst. destruct Hst as (_ & _ & f & Hf & _). rewrite Hf.
      f_equal. apply (restored_kept o k); [by apply (Hsafe k s)|done].
    + rewrite Hout; [done|]. intros ([k' raw] & -> & Hl)%list_elem_of_fmap. simpl in Hs.
      apply Hkeys in Hl as (s & Hs' & _). congruence.
Qed.
