(* ===== verification/OrchestratorExamples.v ===== *)
(** * The orchestrator on concrete bars

    A gold sweep of the previous day's high, evaluated, traded once and cooled down:
    the hypotheses of the orchestrator's theorems are met by real runs. *)
From S2P Require Import Prelude JsNum JsDate Types Instruments NewsCalendar RiskManager RiskFacts SweepDetector.
From S2P Require Import SweepFacts Structure Indicators Orchestrator OrchestratorFacts.

(** 30 H1 bars up to 08:00 on 14 March; the bar of 07:00 sweeps the previous day's high
    (2010) up to 2013 and closes at 2008. *)
Definition ex_h1 : list BacktestCandle :=
  Eval vm_compute in
  (fun k => demo_bar_at "H1" (demo_day + (3 + k) * ms_hour) 2000
              (if k =? 10 then 2010 else if k =? 28 then 2013 else 2005)
              (if k =? 28 then 1999 else 1995) (if k =? 28 then 2008 else 2004)) <$> up_from 0 29.

(** 30 M15 bars, the last one at 08:45 closing at 2008. *)
Definition ex_m15 : list BacktestCandle :=
  Eval vm_compute in
  (fun k => demo_bar_at "M15" (demo_day + 32 * ms_hour + 2700000 - (29 - k) * 900000) 2006 2009 2005 2008)
    <$> up_from 0 29.

Definition ex_d1 : list BacktestCandle :=
  Eval vm_compute in [demo_bar_at "D1" demo_day 2000 2010 1990 2005].

Definition ex_pre : PrecomputedIndicators := {|
  pre_m15 := flat_indicators (of_Z 3) (of_Z 20) 30; pre_h1 := flat_indicators (of_Z 5) (of_Z 20) 30;
  pre_d1 := Some (flat_indicators (of_Z 15) (of_Z 20) 1) |}.

Definition ex_ctx : LiveContext := {|
  accountEquity := of_Z 10000; openDirections := []; totalOpenPositions := 0;
  ctx_riskPercent := None; nowIso := "2024-03-14T08:45:00.000Z"; ctx_maxOpenPositions := None |}.

(** Any indicator library: the run passes precomputed indicators. *)
#[local] Instance no_lib : TechnicalIndicators := {|
  EMA _ _ := []; SMA _ _ := []; RSI _ _ := []; ATR _ _ _ _ := []; ADX _ _ _ _ := [] |}.

Definition ex_run : LiveSmcOrchestrator * Res (option SmcLiveSignal) :=
  evaluate ∅ (lit 15 1) "XAUUSD" ex_m15 ex_h1 ex_d1 ex_ctx (Some ex_pre) None new_LiveSmcOrchestrator.

Definition ex_signal : option SmcLiveSignal := match ex_run.2 with Ok o => o | Throw _ => None end.



(** Two hours later: the bar of 09:00 sweeps the same level again, up to 2014. *)
Definition ex_h1_later : list BacktestCandle :=
  Eval vm_compute in
  (fun k => demo_bar_at "H1" (demo_day + (5 + k) * ms_hour) 2000
              (if k =? 8 then 2010 else if k =? 26 then 2013 else if k =? 28 then 2014 else 2005)
              (if 26 <=? k then 1999 else 1995) (if 26 <=? k then 2008 else 2004)) <$> up_from 0 29.
Definition ex_m15_later : list BacktestCandle :=
  Eval vm_compute in
  (fun k => demo_bar_at "M15" (demo_day + 34 * ms_hour + 2700000 - (29 - k) * 900000) 2006 2009 2005 2008)
    <$> up_from 0 29.
Definition ex_pre_later : PrecomputedIndicators := {|
  pre_m15 := flat_indicators (of_Z 4) (of_Z 20) 30; pre_h1 := flat_indicators (of_Z 5) (of_Z 20) 30;
  pre_d1 := Some (flat_indicators (of_Z 15) (of_Z 20) 1) |}.

Definition no_signal : SmcLiveSignal := {|
  sig_symbol := ""; sig_side := BUY; sig_entryPrice := NaN; sig_slPrice := NaN; sig_tpPrice := NaN;
  totalLot := NaN; legs := []; sig_mode := REVERSAL; h1SweepTime := ""; reason := "";
  smcContext := None |}.
Definition ex_sig : SmcLiveSignal := default no_signal ex_signal.
Definition ex_after_entry : LiveSmcOrchestrator * Res unit := recordEntry "XAUUSD" ex_sig ex_run.1.
Definition ex_between : list orch_op :=
  [OpEvaluate "XAUUSD" ex_m15 ex_h1 ex_d1 ex_ctx (Some ex_pre) None].

(** In between: another pair is reset, the risk defaults change, the process restarts from the
    snapshot written after the entry, and the pair is evaluated. *)
Definition ex_saved : list (string * RawState) :=
  (fun e => (e.1, json_state e.2)) <$> serialize ex_after_entry.1.
Definition ex_calls : list orch_call :=
  [Reset "EURUSD"; SetDefaultRiskCfg (defaultRiskCfg new_LiveSmcOrchestrator);
   Restart (defaultRiskCfg new_LiveSmcOrchestrator) ex_saved] ++ (Call <$> ex_between).
Definition ex_second : LiveSmcOrchestrator * Res (option SmcLiveSignal) :=
  evaluate ∅ (lit 15 1) "XAUUSD" ex_m15_later ex_h1_later ex_d1 ex_ctx (Some ex_pre_later) None
    (call_run ∅ (lit 15 1) ex_after_entry.1 ex_calls).

Lemma ex_second_fires :
  match ex_second.2 with Ok (Some s) => h1SweepTime s = "2024-03-14T09:00:00.000Z"%string | _ => False end /\
  ex_after_entry.2 = Ok tt.
Proof. vm_compute. auto. Qed.

Lemma ex_saved_remembers : remembers (h1SweepTime ex_sig) "XAUUSD" ex_saved.
Proof.
  apply own_snapshot_remembers.
  - intros k st Hk. destruct (decide (k = "XAUUSD"%string)) as [->|Hne]; [eexists; reflexivity|].
    exfalso. assert (Hd : dom (states ex_after_entry.1) = {["XAUUSD"%string]}) by (vm_compute; reflexivity).
    apply Hne, (elem_of_singleton (C := gset string)). rewrite <- Hd. apply elem_of_dom. by exists st.
  - assert (Hl : match states ex_after_entry.1 !! "XAUUSD"%string with
                 | Some st => bool_decide (h1SweepTime ex_sig ∈ actionedSweeps st) | None => false end = true)
      by (vm_compute; reflexivity).
    unfold taken. destruct (states ex_after_entry.1 !! "XAUUSD"%string) as [st|]; [|discriminate Hl].
    exists st. by apply bool_decide_eq_true in Hl.
Qed.

Lemma sweep_fires_once_witness :
  exists sig', ex_second.2 = Ok (Some sig') /\ h1SweepTime sig' <> h1SweepTime ex_sig.
Proof.
  destruct ex_second_fires as [H He]. destruct ex_second as [o2 r] eqn:E.
  destruct ex_after_entry as [o1 e] eqn:Ea. simpl in H, He. subst e.
  destruct r as [[sig'|]|]; [|contradiction H..]. exists sig'. split; [reflexivity|].
  unfold ex_second in E. rewrite Ea in E. cbn [fst] in E. unfold ex_after_entry in Ea.
  apply (sweep_fires_once ∅ (lit 15 1) "XAUUSD" ex_sig sig' ex_run.1 o1 o2 ex_calls
           ex_m15_later ex_h1_later ex_d1 ex_ctx (Some ex_pre_later) None Ea); [|exact E].
  repeat constructor; [discriminate|]. exact ex_saved_remembers.
Defined.

Lemma pairs_isolated_witness :
  "EURUSD"%string <> "XAUUSD"%string /\
  getState "EURUSD" (orch_step ∅ (lit 15 1) ex_run.1
    (OpRecordExit "XAUUSD" ExSL "2024-03-14T09:00:00.000Z" (Some (of_Z (-50))))) = getState "EURUSD" ex_run.1.
Proof.
  assert (H : "EURUSD"%string <> "XAUUSD"%string) by discriminate. split; [exact H|].
  apply pairs_isolated. exact H.
Defined.

Definition gives_signal (r : LiveSmcOrchestrator * Res (option SmcLiveSignal)) : bool :=
  match r.2 with Ok (Some _) => true | _ => false end.

Lemma exit_cooldown_honoured_witness :
  let o1 := (recordExit ∅ "XAUUSD" ExSL "2024-03-14T09:00:00.000Z" (Some (of_Z (-50))) ex_run.1).1 in
  gives_signal (evaluate ∅ (lit 15 1) "XAUUSD" ex_m15 ex_h1 ex_d1 ex_ctx (Some ex_pre) None
    (orch_run ∅ (lit 15 1) o1 ex_between)) = false.
Proof.
  intros o1.
  destruct (evaluate _ _ _ _ _ _ _ _ _ (orch_run ∅ (lit 15 1) o1 ex_between)) as [o2 [[sig|]|e]] eqn:E;
    [exfalso; revert E | reflexivity | reflexivity].
  apply (exit_cooldown_honoured ∅ (lit 15 1) "XAUUSD" ExSL "2024-03-14T09:00:00.000Z" (Some (of_Z (-50)))
           ex_run.1 o1 o2
           (recordExit ∅ "XAUUSD" ExSL "2024-03-14T09:00:00.000Z" (Some (of_Z (-50))) ex_run.1).2
           XAUUSD_SMC_CONFIG ex_between).
  - apply surjective_pairing.
  - vm_compute. eauto.
  - vm_compute. reflexivity.
  - repeat constructor.
  - vm_compute. reflexivity.
Defined.

(** The view of the later bars, and a state that has processed 07:00. *)
Definition ex_view : View := {|
  v_symbol := "XAUUSD"; v_cfg := XAUUSD_SMC_CONFIG; v_factor := of_Z 100;
  v_m15 := ex_m15_later; v_h1 := ex_h1_later; v_d1 := ex_d1; v_m15Len := 30; v_h1Len := 30; v_d1Len := 1;
  v_m15Ind := pre_m15 ex_pre_later; v_h1Ind := pre_h1 ex_pre_later; v_d1Ind := pre_d1 ex_pre_later;
  v_lastM15 := demo_bar_at "M15" (demo_day + 34 * ms_hour + 2700000) 2006 2009 2005 2008;
  v_bias := NEUTRAL; v_adx := of_Z 20 |}.
Definition ex_state : OrchestratorState :=
  set_lastProcessed (Some "2024-03-14T07:00:00.000Z"%string) (fresh_state demo_rm).

Lemma ex_chronological : chronological ex_h1_later.
Proof.
  exists ((fun k => demo_day + (5 + k) * ms_hour) <$> up_from 0 29). split; [vm_compute; reflexivity|].
  apply Sorted_StronglySorted; [intros ?????; lia|]. vm_compute. repeat constructor; discriminate.
Qed.

Lemma catch_up_exact_witness :
  exists gained, pending (process_sweeps ex_view ex_state).1 = gained /\
    sweepTime <$> gained = ["2024-03-14T09:00:00.000Z"%string] /\
    lastProcessedH1Time (process_sweeps ex_view ex_state).1 = Some "2024-03-14T09:00:00.000Z"%string.
Proof.
  assert (Hok : (process_sweeps ex_view ex_state).2 = Ok tt) by (vm_compute; reflexivity).
  assert (Ht : sweepTime <$> pending (process_sweeps ex_view ex_state).1 = ["2024-03-14T09:00:00.000Z"%string])
    by (vm_compute; reflexivity).
  destruct (process_sweeps ex_view ex_state) as [st' r] eqn:E. simpl in Hok. subst r.
  destruct (catch_up_exact ex_view ex_state st'
    (demo_bar_at "H1" (demo_day + 33 * ms_hour) 2000 2014 1999 2008) "2024-03-14T07:00:00.000Z"
    (demo_day + 31 * ms_hour) (demo_day + 33 * ms_hour)) as (gained & H1 & H2 & _).
  - exact ex_chronological.
  - discriminate.
  - vm_compute. reflexivity.
  - vm_compute. reflexivity.
  - reflexivity.
  - discriminate.
  - vm_compute. reflexivity.
  - reflexivity.
  - exact E.
  - exists gained. simpl in *. split; [exact H2|]. split; [rewrite <- H2; exact Ht|exact H1].
Defined.

Lemma dropped_bar_restarts_from_oldest_witness :
  findH1IdxAfter ex_h1_later "2024-03-12T07:00:00.000Z" 28 = 0.
Proof.
  apply (dropped_bar_restarts_from_oldest ex_h1_later "2024-03-12T07:00:00.000Z" (demo_day - 17 * ms_hour) 28
    (demo_bar_at "H1" (demo_day + 5 * ms_hour) 2000 2005 1995 2004) (demo_day + 5 * ms_hour));
    [vm_compute; reflexivity|discriminate|vm_compute; reflexivity..].
Defined.

(** A setup queued on Thursday, evaluated at night and on the following Monday. *)
Definition ex_setup : PendingSetup := {|
  direction := SELL; sweepLevel := of_Z 2010; sweepWick := of_Z 2013; sweepMid := of_Z 2006;
  sweepCandleAtr := of_Z 5; sweepCandleHigh := of_Z 2013; sweepCandleLow := of_Z 1999;
  detectedAtH1Idx := 28; expiresAtH1Idx := 36; mode := REVERSAL;
  sweepTime := "2024-03-14T07:00:00.000Z"; anchorType := Some PDH |}.
Definition ex_queued : LiveSmcOrchestrator :=
  set_states {[ "XAUUSD"%string := set_pending [ex_setup] (fresh_state demo_rm) ]} new_LiveSmcOrchestrator.
Definition night_m15 (day : Z) : list BacktestCandle :=
  [demo_bar_at "M15" (demo_day + day * ms_day + 2 * ms_hour) 2006 2009 2005 2008].

Lemma pending_never_expires_live_witness :
  let ops := [OpEvaluate "XAUUSD" (night_m15 1) ex_h1 ex_d1 ex_ctx None None;
              OpEvaluate "XAUUSD" (night_m15 5) ex_h1_later ex_d1 ex_ctx None None] in
  exists st', getState "XAUUSD" (orch_run ∅ (lit 15 1) ex_queued ops) = Some st' /\ ex_setup ∈ pending st'.
Proof.
  intros ops.
  apply (pending_never_expires_live ∅ (lit 15 1) "XAUUSD" XAUUSD_SMC_CONFIG 30 ex_queued
           (set_pending [ex_setup] (fresh_state demo_rm)) ex_setup ops).
  - vm_compute. reflexivity.
  - reflexivity.
  - left.
  - reflexivity.
  - reflexivity.
  - discriminate.
  - unfold ops. constructor; [|constructor; [|constructor]]; (do 4 eexists; split; [reflexivity|];
      split; [reflexivity|]; intros c Hc; injection Hc as <-; vm_compute; reflexivity).
Defined.

(** A store that is a map. *)
#[local] Instance map_store : RedisService (gmap string StoredText) := {|
  redis_get k m := Ok (m !! k); redis_set k v m := Ok (<[k := v]> m) |}.
#[local] Instance map_store_laws : RedisLaws (gmap string StoredText).
Proof. intros k v m m' [= <-]. simpl. by rewrite lookup_insert_eq. Qed.

Lemma ex_queued_safe : map_Forall (state_safe ex_queued) (states ex_queued).
Proof.
  intros k s Hs. simpl in Hs. apply lookup_singleton_Some in Hs as [<- <-]. unfold state_safe. simpl.
  split; [|split].
  - repeat constructor; try reflexivity. discriminate.
  - unfold rm_json_safe, json_safe. split_and!; try reflexivity; [eexists; reflexivity|constructor].
  - exists demo_rm. split_and!; reflexivity.
Qed.

Lemma restart_keeps_state_witness :
  states (restoreFromRedis (Some "acc-1"%string) (persistToRedis (Some "acc-1"%string) ex_queued ∅)
            new_LiveSmcOrchestrator) = kept <$> states ex_queued.
Proof.
  destruct (restart_keeps_state (Some "acc-1"%string) ex_queued new_LiveSmcOrchestrator ∅
    (<[ state_key (Some "acc-1"%string) := stringify ex_queued ]> ∅)) as [H1 H2].
  - reflexivity.
  - exact ex_queued_safe.
  - reflexivity.
  - rewrite H1. exact H2.
Defined.
