(* ===== verification/LiveEvaluator.v ===== *)
(** * The stateless live evaluator

    src/strategy/live/smc-live-evaluator.ts, the older evaluator that keeps no queue: it looks
    for a sweep on the last H1 bar of the buffer and enters at once or not at all.  Today's
    orchestrator replaced it; [evaluator_agrees] relates the two. *)
From S2P Require Import Prelude JsNum JsDate Types Instruments Indicators NewsCalendar RiskManager SweepDetector SweepFacts Structure Orchestrator OrchestratorFacts OrchestratorExamples.
Local Open Scope num_scope.

Record LiveEvaluationContext := {
  le_accountEquity : num; le_openDirections : list Side; le_recentlyEnteredSweepTimes : gset string }.

Section evaluator.
Context `{TechnicalIndicators} (ov : Overrides) (envRisk : num).

(** Steps 1 to 4: the trend filter, the killzone, the news, the sweep on the last H1 bar. *)
Definition detected (sym : string) (m15 h1 d1 : list BacktestCandle) : Res (option (View * PendingSetup)) :=
  if (zlen m15 <? 30)%Z || (zlen h1 <? 30)%Z then Ok None
  else
    (cfg <-! getSmcPairConfig ov sym ;;
     ic <-! getInstrumentConfig sym ;;
     v <-! make_view sym cfg (price_factor ic) m15 h1 d1 None (zlen m15) (zlen h1) (zlen d1) ;;
     if v_adx v <? d1AdxFloor cfg then Ok None
     else if negb (in_zone v) then Ok None
     else if news_blocked v then Ok None
     else
       setup <-! detectSweep h1 (v_h1Ind v) (zlen h1 - 1) (v_bias v) (v_adx v) cfg (Some d1) (v_d1Ind v)
                   (Some (openTime (v_lastM15 v))) ;;
       match setup with
       | Some s => if bool_decide (mode s ∈ default [] (disabledModes cfg)) then Ok None else Ok (Some (v, s))
       | None => Ok None
       end)%js.

Definition evaluator_risk (sym : string) (ctx : LiveEvaluationContext) (risk : option num) : EngineConfig := {|
  symbol := sym; initialBalance := le_accountEquity ctx; riskPercent := default envRisk risk;
  maxDailyLossPercent := of_Z 4; maxConsecutiveLosses := 5; maxOpenPositions := 4 |}.

Definition evaluator_reason (v : View) (s : PendingSetup) (ladder : bool) : string :=
  mode_string (mode s) +:+ " " +:+ side_string (direction s) +:+ " on " +:+ cfg_symbol (v_cfg v) +:+ " — D1 ADX="
  +:+ toFixed1 (v_adx v) +:+ " (≥" +:+ num_string (d1AdxFloor (v_cfg v)) +:+ "), bias=" +:+ bias_string (v_bias v)
  +:+ ", " +:+ session v +:+ (if ladder then ", ladder" else "").

Definition evaluator_signal (v : View) (s : PendingSetup) (time : string) (entryPrice tp lot : num)
    (ls : list SmcLiveSignalLeg) (ladder : bool) : SmcLiveSignal := {|
  sig_symbol := v_symbol v; sig_side := direction s; sig_entryPrice := round_price v entryPrice;
  sig_slPrice := round_price v (sl_price v s); sig_tpPrice := round_price v tp; totalLot := lot; legs := ls;
  sig_mode := mode s; h1SweepTime := time; reason := evaluator_reason v s ladder; smcContext := None |}.

(** Steps 5 to 9: de-duplication, stacking, prices, the wide-stop filter, size and legs. *)
Definition enter_now (v : View) (s : PendingSetup) (ctx : LiveEvaluationContext) (risk : option num)
    : Res (option SmcLiveSignal) :=
  let cfg := v_cfg v in
  let d := direction s in
  match zlookup (v_h1 v) (detectedAtH1Idx s) with
  | None => Throw "TypeError: Cannot read properties of undefined"
  | Some bar =>
      let time := openTime bar in
      if bool_decide (time ∈ le_recentlyEnteredSweepTimes ctx) then Ok None
      else if bool_decide (d ∈ le_openDirections ctx) then Ok None
      else
        (spread <-! getSpread (v_symbol v) (openTime (v_lastM15 v)) ;;
         let entryPrice := entry_price v s spread in
         let slPoints := nabs (entryPrice - sl_price v s) in
         if slPoints <=? of_Z 0 then Ok None
         else if too_wide v slPoints then Ok None
         else
           r <-! new_RiskManager (evaluator_risk (v_symbol v) ctx risk) ;;
           let lot := calculateLotSize slPoints (Some (of_Z 60)) (Some WEAK_TREND) (Some (of_Z 50)) (Some entryPrice) r in
           if too_small cfg lot then Ok None
           else
             let tp2 := target d entryPrice slPoints (tp2R cfg) in
             let baseTags := ["SMC"; "SWEEP"; session v; mode_string (mode s)]%string in
             if negb (uses_ladder cfg) then
               Ok (Some (evaluator_signal v s time entryPrice tp2 lot
                 [{| leg_lotSize := lot; leg_tpPrice := round_price v tp2; leg_setupTags := baseTags ++ ["RUNNER"%string] |}] false))
             else if (tp1_lot cfg lot <? lit 1 2) || (runner_lot cfg lot <? lit 1 2) then Ok None
             else
               let tp1 := target d entryPrice slPoints (tp1R cfg) in
               Ok (Some (evaluator_signal v s time entryPrice tp1 lot
                 [{| leg_lotSize := tp1_lot cfg lot; leg_tpPrice := round_price v tp1; leg_setupTags := baseTags ++ ["TP1"%string] |};
                  {| leg_lotSize := runner_lot cfg lot; leg_tpPrice := round_price v tp2; leg_setupTags := baseTags ++ ["RUNNER"%string] |}]
                 true)))%js
  end.

Definition evaluate_live (sym : string) (m15 h1 d1 : list BacktestCandle) (ctx : LiveEvaluationContext)
    (risk : option num) : Res (option SmcLiveSignal) :=
  (found <-! detected sym m15 h1 d1 ;;
   match found with Some (v, s) => enter_now v s ctx risk | None => Ok None end)%js.

(** ** The evaluator and the orchestrator's queue *)

(** A configuration without the structure gates and the conviction sizing, which the evaluator
    never had. *)
Definition plain (cfg : SmcPairConfig) : Prop :=
  convictionSizing cfg = None /\
  Forall (fun g => flag g = false) [useFvgGate cfg; useObGate cfg; useBosGate cfg; useObOriginGate cfg;
                                    useImpulseFvgGate cfg; useBosOriginGate cfg].
Lemma plain_structure v s e : plain (v_cfg v) -> exists g, structure_gates v s e = Ok (Some g).
Proof.
  intros (_ & Hg). repeat match goal with Hf : Forall _ (_ :: _) |- _ => apply Forall_cons in Hf as [? Hf] end.
  unfold structure_gates, gate, swept_idx.
  repeat match goal with Hf : flag ?x = false |- _ => rewrite Hf; clear Hf end. simpl. eauto.
Qed.

(** The same order: everything of a signal but its text and its chart. *)
Definition same_order (a b : SmcLiveSignal) : Prop :=
  sig_symbol a = sig_symbol b /\ sig_side a = sig_side b /\ sig_entryPrice a = sig_entryPrice b /\
  sig_slPrice a = sig_slPrice b /\ sig_tpPrice a = sig_tpPrice b /\ totalLot a = totalLot b /\ legs a = legs b /\
  sig_mode a = sig_mode b /\ h1SweepTime a = h1SweepTime b.
Definition queue_context (ctx : LiveEvaluationContext) (risk : option num) (total : Z) (now : string) : LiveContext := {|
  accountEquity := le_accountEquity ctx; openDirections := le_openDirections ctx; totalOpenPositions := total;
  ctx_riskPercent := risk; nowIso := now; ctx_maxOpenPositions := None |}.

Lemma detected_setup sym m15 h1 d1 v s : detected sym m15 h1 d1 = Ok (Some (v, s)) ->
  v_h1 v = h1 /\ exists bar, zlookup h1 (detectedAtH1Idx s) = Some bar /\ openTime bar = sweepTime s.
Proof.
  unfold detected. destruct (_ || _); [done|]. destruct (getSmcPairConfig ov sym) as [cfg|]; [|done].
  destruct (getInstrumentConfig sym) as [ic|]; [|done]. simpl.
  destruct (make_view _ _ _ _ _ _ _ _ _ _) as [w|] eqn:Ev; [|done]. simpl.
  destruct (v_adx w <? _); [done|]. destruct (negb _); [done|]. destruct (news_blocked w); [done|].
  destruct (detectSweep _ _ _ _ _ _ _ _ _) as [[t|]|] eqn:Es; simpl; [|done..]. case_bool_decide; [done|]. intros [= <- <-].
  split.
  - unfold make_view in Ev. destruct (indicators_or _ _) as [mi|]; [|done]. destruct (indicators_or _ h1) as [hi|]; [|done].
    simpl in Ev. destruct (if (30 <? zlen d1)%Z then _ else _) as [di|]; [|done]. simpl in Ev.
    destruct (zlookup m15 _); [|done]. by injection Ev as <-.
  - apply detectSweep_sound_at in Es. destruct (sw_idx _ _ _ _ _ _ _ _ _ _ Es) as (Hi & _). rewrite Hi.
    destruct (sw_bar _ _ _ _ _ _ _ _ _ _ Es) as (bar & Hb & Ht & _). by exists bar.
Qed.

(** C36: The stateless evaluator and the queue of today's orchestrator take the same decision on
    the same setup.  For a configuration without the later structure gates and without
    conviction sizing ([plain]), and a stop on the protective side within the tightness limit,
    the evaluator answers a signal exactly when the orchestrator's turn for the setup it
    detected fires, and the two orders agree in symbol, side, prices, sizes, legs, mode and
    de-duplication key; it answers none when the orchestrator skips or drops the setup, and
    throws what the orchestrator throws. *)
Theorem evaluator_agrees sym m15 h1 d1 ctx risk total now v s :
  detected sym m15 h1 d1 = Ok (Some (v, s)) -> plain (v_cfg v) ->
  (forall spread, getSpread (v_symbol v) (openTime (v_lastM15 v)) = Ok spread ->
     sl_protective (direction s) (entry_price v s spread) (sl_price v s) = true /\
     too_loose (v_cfg v) s (nabs (entry_price v s spread - sl_price v s)) = false) ->
  match try_setup v (queue_context ctx risk total now) envRisk (le_recentlyEnteredSweepTimes ctx) s with
  | Ok (Fire order) => exists sig, evaluate_live sym m15 h1 d1 ctx risk = Ok (Some sig) /\ same_order sig order
  | Ok _ => evaluate_live sym m15 h1 d1 ctx risk = Ok None
  | Throw e => evaluate_live sym m15 h1 d1 ctx risk = Throw e
  end.
Proof.
  intros Hd Hplain Hprot. destruct (detected_setup _ _ _ _ _ _ Hd) as (Hh & bar & Hbar & Htime).
  unfold evaluate_live. rewrite Hd. cbn [res_bind]. unfold enter_now. rewrite Hh, Hbar, Htime. cbv zeta.
  unfold try_setup. cbn [openDirections queue_context].
  destruct (bool_decide (direction s ∈ le_openDirections ctx)); [by destruct (bool_decide _)|].
  destruct (bool_decide (sweepTime s ∈ _)); [done|].
  destruct (getSpread _ _) as [spread|e] eqn:Esp; cbn [res_bind]; [|done].
  destruct (Hprot spread eq_refl) as [Hsl Htight]. unfold price_checks. cbv zeta. rewrite Htight, Hsl. cbn [negb].
  set (entry := entry_price v s spread). set (pts := nabs (entry - sl_price v s)).
  destruct (pts <=? of_Z 0); [done|]. destruct (too_wide v pts); [done|].
  destruct (plain_structure v s entry Hplain) as [g ->]. cbn [res_bind].
  unfold total_lot, conviction. rewrite (proj1 Hplain).
  change (sizing_config v (queue_context ctx risk total now) envRisk) with (evaluator_risk (v_symbol v) ctx risk).
  destruct (new_RiskManager _) as [r|e]; cbn [res_bind]; [|done].
  match goal with |- context [calculateLotSize ?a ?b ?c ?d ?e ?f] => set (lot := calculateLotSize a b c d e f) end.
  destruct (too_small (v_cfg v) lot); [done|]. unfold build_signal.
  destruct (uses_ladder (v_cfg v)); cbn [negb]; cbv zeta.
  - destruct (_ || _); [done|]. eexists. split; [reflexivity|]. by split_and!.
  - eexists. split; [reflexivity|]. by split_and!.
Qed.
End evaluator.

(** ** A concrete sweep *)
#[local] Instance steady_lib : TechnicalIndicators := {|
  EMA _ l := l; SMA _ l := l; RSI _ _ := []; ATR _ _ _ c := repeat (of_Z 4) (length c);
  ADX _ _ _ c := repeat (of_Z 20, of_Z 20, of_Z 20) (length c) |}.
(** Up to 07:00 on the 14th, whose bar sweeps 2010 up to 2013 and closes at 2008. *)
Definition le_h1 : list BacktestCandle :=
  Eval vm_compute in
  (fun k => demo_bar_at "H1" (demo_day + (2 + k) * ms_hour) 2000
              (if k =? 11 then 2010 else if k =? 29 then 2013 else 2005)
              (if k =? 29 then 1999 else 1995) (if k =? 29 then 2008 else 2004))%Z <$> up_from 0 29.
Definition le_d1 : list BacktestCandle :=
  Eval vm_compute in (fun k => demo_bar_at "D1" (demo_day + (k - 30) * ms_day) 2000 2010 1990 2005)%Z <$> up_from 0 30.
Definition le_ctx : LiveEvaluationContext := {|
  le_accountEquity := of_Z 10000; le_openDirections := []; le_recentlyEnteredSweepTimes := ∅ |}.
#[local] Notation le_found := (detected ∅ "XAUUSD" ex_m15 le_h1 le_d1).
Lemma le_found_setup : match le_found with
  | Ok (Some (v, s)) => convictionSizing (v_cfg v) = None /\
      forallb (fun g => negb (flag g)) [useFvgGate (v_cfg v); useObGate (v_cfg v); useBosGate (v_cfg v); useObOriginGate (v_cfg v);
                                        useImpulseFvgGate (v_cfg v); useBosOriginGate (v_cfg v)] = true /\
      match getSpread (v_symbol v) (openTime (v_lastM15 v)) with
      | Ok spread => sl_protective (direction s) (entry_price v s spread) (sl_price v s) = true /\
                     too_loose (v_cfg v) s (nabs (entry_price v s spread - sl_price v s)) = false
      | Throw _ => False
      end /\
      match try_setup v (queue_context le_ctx None 0 "2024-03-14T08:45:00.000Z") (lit 15 1) ∅ s with
      | Ok (Fire order) => length (legs order) = 2%nat | _ => False end
  | _ => False
  end.
Proof. vm_compute. auto 10. Qed.

Lemma evaluator_agrees_witness : exists sig, length (legs sig) = 2%nat /\
  evaluate_live ∅ (lit 15 1) "XAUUSD" ex_m15 le_h1 le_d1 le_ctx None = Ok (Some sig).
Proof.
  pose proof le_found_setup as Hf. destruct le_found as [[[v s]|]|e] eqn:E; [|by destruct Hf..].
  destruct Hf as (Hc & Hg & Hs & Ht).
  assert (Hp : plain (v_cfg v)).
  { split; [exact Hc|]. apply Forall_forall. intros g Hin. rewrite forallb_forall in Hg. apply list_elem_of_In in Hin.
    specialize (Hg g Hin). by destruct (flag g). }
  assert (Hpr : forall spread, getSpread (v_symbol v) (openTime (v_lastM15 v)) = Ok spread ->
     sl_protective (direction s) (entry_price v s spread) (sl_price v s) = true /\
     too_loose (v_cfg v) s (nabs (entry_price v s spread - sl_price v s)) = false).
  { intros spread Hsp. rewrite Hsp in Hs. exact Hs. }
  pose proof (evaluator_agrees ∅ (lit 15 1) "XAUUSD" ex_m15 le_h1 le_d1 le_ctx None 0 "2024-03-14T08:45:00.000Z" v s E Hp Hpr) as Ha.
  change (le_recentlyEnteredSweepTimes le_ctx) with (∅ : gset string) in Ha.
  destruct (try_setup _ _ _ _ _) as [[| |order]|e]; [by destruct Ht..| |by destruct Ht].
  destruct Ha as (sig & Hsig & Hsame). exists sig. split; [|exact Hsig].
  destruct Hsame as (_ & _ & _ & _ & _ & _ & Hl & _). rewrite Hl. exact Ht.
Defined.
