(* ===== verification/SimBroker.v ===== *)
(** * Simulated broker

    src/backtest/live-replay/simulated-broker.ts (class SimulatedBroker): the shared
    simulated account of a replay, its open positions per symbol, its parked limit
    orders and its closed trades. *)
From S2P Require Import Prelude JsNum JsDate Types Instruments PositionSimulator.
Local Open Scope num_scope.

(** ** Data *)
Record SimPosition := {
  base : SimulatedPosition;
  id : string;
  sp_symbol : string;
  openedAt : string;
  sp_mode : SmcMode;
  sp_reason : string;
  sp_sweptLevel : option num;
  sp_sweptHigh : option num;
  sp_sweptLow : option num;
  sp_sweepCandleTime : option string;
  sp_d1Bias : option D1Bias;
}.

(** [{ ...updated, id: p.id, ... }] *)
Definition set_base (b : SimulatedPosition) (p : SimPosition) : SimPosition := {|
  base := b; id := id p; sp_symbol := sp_symbol p; openedAt := openedAt p; sp_mode := sp_mode p;
  sp_reason := sp_reason p; sp_sweptLevel := sp_sweptLevel p; sp_sweptHigh := sp_sweptHigh p;
  sp_sweptLow := sp_sweptLow p; sp_sweepCandleTime := sp_sweepCandleTime p; sp_d1Bias := sp_d1Bias p |}.

Record ClosedPosition := {
  cp_pos : SimPosition;
  closePrice : num;
  closedAt : string;
  cp_pnl : num;
  cp_exitReason : ExitReason;
}.

Record RetraceEntryCfg := { frac : num; expiryBars : Z }.
Record PendingLimit := { pl_signal : SmcLiveSignal; limitPrice : num; scale : num; barsLeft : Z }.

Record SimulatedBroker := {
  balance : num;
  positions : gmap string (list SimPosition);
  closed : list ClosedPosition;
  maxConcurrent : Z;
  pendingLimits : gmap string (list PendingLimit);
  runnerTrail : RegimeTradeParams;
  retraceEntry : option RetraceEntryCfg;
  (** how many identifiers have been drawn from [randomUUID] *)
  drawn : Z;
}.

(** The constructor; the override is the update that spreading it performs. *)
Definition new_SimulatedBroker (initialBalance : num)
    (runnerTrailOverride : RegimeTradeParams -> RegimeTradeParams) (retrace : option RetraceEntryCfg)
    : SimulatedBroker := {|
  balance := initialBalance; positions := ∅; closed := []; maxConcurrent := 0; pendingLimits := ∅;
  runnerTrail := runnerTrailOverride SMC_RUNNER_TRAIL; retraceEntry := retrace; drawn := 0 |}.

Definition set_positions (m : gmap string (list SimPosition)) (b : SimulatedBroker) : SimulatedBroker := {|
  balance := balance b; positions := m; closed := closed b; maxConcurrent := maxConcurrent b;
  pendingLimits := pendingLimits b; runnerTrail := runnerTrail b; retraceEntry := retraceEntry b;
  drawn := drawn b |}.
Definition set_limits (m : gmap string (list PendingLimit)) (b : SimulatedBroker) : SimulatedBroker := {|
  balance := balance b; positions := positions b; closed := closed b; maxConcurrent := maxConcurrent b;
  pendingLimits := m; runnerTrail := runnerTrail b; retraceEntry := retraceEntry b; drawn := drawn b |}.

(** ** Reading *)
Definition open_of (sym : string) (b : SimulatedBroker) : list SimPosition := default [] (positions b !! sym).
Definition count_lists {A} (m : gmap string (list A)) : Z := map_fold (fun _ l n => (zlen l + n)%Z) 0%Z m.
Definition totalOpenCount (b : SimulatedBroker) : Z := count_lists (positions b).
Definition pendingCount (b : SimulatedBroker) : Z := count_lists (pendingLimits b).
(** The set is the list of its elements in insertion order. *)
Definition getOpenDirections (sym : string) (b : SimulatedBroker) : list Side :=
  fold_left (fun set p => if bool_decide (side (base p) ∈ set) then set else set ++ [side (base p)])
    (open_of sym b) [].
Definition getBalance (b : SimulatedBroker) : num := balance b.
Definition getEquity (b : SimulatedBroker) : num := balance b.
Definition getMaxConcurrent (b : SimulatedBroker) : Z := maxConcurrent b.
Definition getClosed (b : SimulatedBroker) : list ClosedPosition := closed b.

(** ** Closing *)
Definition calcPnl (p : SimPosition) (price : num) : Res num :=
  (cfg <-! getInstrumentConfig (sp_symbol p) ;;
   let direction := match side (base p) with BUY => of_Z 1 | SELL => of_Z (-1) end in
   let priceDiff := (price - entryPrice (base p)) * direction in
   let raw := priceDiff * lotSize (base p) * lotSizeUnits cfg in
   let raw := if ends_with_JPY (sp_symbol p) then raw / price else raw in
   Ok (round2 raw))%js.

(** [close]: book the profit and remember the trade. *)
Definition close_position (p : SimPosition) (price : num) (time : string) (why : ExitReason)
    : M SimulatedBroker ClosedPosition := fun b =>
  match calcPnl p price with
  | Throw e => (b, Throw e)
  | Ok pnl =>
      let c := {| cp_pos := p; closePrice := price; closedAt := time; cp_pnl := pnl; cp_exitReason := why |} in
      ({| balance := balance b + pnl; positions := positions b; closed := closed b ++ [c];
          maxConcurrent := maxConcurrent b; pendingLimits := pendingLimits b;
          runnerTrail := runnerTrail b; retraceEntry := retraceEntry b; drawn := drawn b |}, Ok c)
  end.

(** ** The broker's bar *)
Section broker.
(** The identifiers [randomUUID] gives, in the order they are drawn. *)
Context (randomUUID : Z -> string).

Definition open_leg (sig : SmcLiveSignal) (entry : num) (time : string) (lotScale : num)
    (runner : RegimeTradeParams) (n : Z) (leg : SmcLiveSignalLeg) : SimPosition := {|
  base := {| side := sig_side sig; entryPrice := entry; slPrice := sig_slPrice sig;
             tpPrice := Some (leg_tpPrice leg); originalSlPrice := sig_slPrice sig;
             breakevenActivated := false; peakFavorablePrice := entry;
             lotSize := round2 (leg_lotSize leg * lotScale); entryTime := time; entryIndex := 0;
             setupTags := leg_setupTags leg;
             h1Bias := match sig_side sig with BUY => "BULLISH" | SELL => "BEARISH" end;
             rsiAtEntry := of_Z 50; atrAtEntry := of_Z 0;
             trailConfig := Some (if has_tag "TP1" (leg_setupTags leg) then SMC_TP1_TRAIL else runner);
             regimeAtEntry := Some WEAK_TREND |};
  id := randomUUID n; sp_symbol := sig_symbol sig; openedAt := time; sp_mode := sig_mode sig;
  sp_reason := reason sig; sp_sweptLevel := sweptLevel <$> smcContext sig;
  sp_sweptHigh := sweptHigh <$> smcContext sig; sp_sweptLow := sweptLow <$> smcContext sig;
  sp_sweepCandleTime := sweepCandleTime <$> smcContext sig; sp_d1Bias := ctx_d1Bias <$> smcContext sig |}.

Fixpoint open_legs (sig : SmcLiveSignal) (entry : num) (time : string) (lotScale : num)
    (runner : RegimeTradeParams) (n : Z) (ls : list SmcLiveSignalLeg) : list SimPosition :=
  match ls with
  | [] => []
  | leg :: ls' => open_leg sig entry time lotScale runner n leg
                  :: open_legs sig entry time lotScale runner (n + 1)%Z ls'
  end.

Definition fillAt (sig : SmcLiveSignal) (entry : num) (time : string) (lotScale : num)
    (b : SimulatedBroker) : SimulatedBroker * list SimPosition :=
  let opened := open_legs sig entry time lotScale (runnerTrail b) (drawn b) (legs sig) in
  let m := <[sig_symbol sig := open_of (sig_symbol sig) b ++ opened]> (positions b) in
  ({| balance := balance b; positions := m; closed := closed b;
      maxConcurrent := Z.max (maxConcurrent b) (count_lists m);
      pendingLimits := pendingLimits b; runnerTrail := runnerTrail b; retraceEntry := retraceEntry b;
      drawn := (drawn b + zlen opened)%Z |}, opened).

(** [placeOrder] *)
Definition placeOrder (sig : SmcLiveSignal) (time : string) (b : SimulatedBroker)
    : SimulatedBroker * list SimPosition :=
  match retraceEntry b with
  | Some r =>
      let dist := nabs (sig_entryPrice sig - sig_slPrice sig) in
      let limit := match sig_side sig with
                   | BUY => sig_entryPrice sig - dist * frac r
                   | SELL => sig_entryPrice sig + dist * frac r
                   end in
      let p := {| pl_signal := sig; limitPrice := limit; scale := of_Z 1 / (of_Z 1 - frac r);
                  barsLeft := expiryBars r |} in
      (set_limits (<[sig_symbol sig := default [] (pendingLimits b !! sig_symbol sig) ++ [p]]>
                     (pendingLimits b)) b, [])
  | None => fillAt sig (sig_entryPrice sig) time (of_Z 1) b
  end.

Definition limit_touched (p : PendingLimit) (c : BacktestCandle) : bool :=
  match sig_side (pl_signal p) with
  | BUY => low c <=? limitPrice p
  | SELL => high c >=? limitPrice p
  end.

(** The loop over the parked limits: the broker after the fills, and what remains. *)
Fixpoint limits_loop (c : BacktestCandle) (l : list PendingLimit) (b : SimulatedBroker)
    : SimulatedBroker * list PendingLimit :=
  match l with
  | [] => (b, [])
  | p :: l' =>
      if limit_touched p c
      then limits_loop c l' (fillAt (pl_signal p) (limitPrice p) (openTime c) (scale p) b).1
      else
        let '(b', rest) := limits_loop c l' b in
        let left := (barsLeft p - 1)%Z in
        (b', if (0 <? left)%Z
             then {| pl_signal := pl_signal p; limitPrice := limitPrice p; scale := scale p;
                     barsLeft := left |} :: rest
             else rest)
  end.

Definition processPendingLimits (sym : string) (c : BacktestCandle) (b : SimulatedBroker) : SimulatedBroker :=
  match pendingLimits b !! sym with
  | None | Some [] => b
  | Some l => let '(b', remaining) := limits_loop c l b in
              set_limits (match remaining with
                          | [] => delete sym (pendingLimits b')
                          | _ => <[sym := remaining]> (pendingLimits b')
                          end) b'
  end.

(** Breakeven and trail, except for a position filled on this very bar. *)
Definition manage (c : BacktestCandle) (spread : num) (p : SimPosition) : SimPosition :=
  if String.eqb (entryTime (base p)) (openTime c) then p
  else set_base (updatePositionManagement (base p) c spread) p.

Definition sim_sl_hit (c : BacktestCandle) (p : SimPosition) : bool :=
  match side (base p) with
  | BUY => low c <=? slPrice (base p)
  | SELL => high c >=? slPrice (base p)
  end.
Definition sim_tp_hit (c : BacktestCandle) (p : SimPosition) : bool :=
  negb (String.eqb (entryTime (base p)) (openTime c)) &&
  match tpPrice (base p) with
  | None => false
  | Some tp => match side (base p) with BUY => high c >=? tp | SELL => low c <=? tp end
  end.

(** The exit of one managed position on the bar, if any. *)
Definition sim_exit (c : BacktestCandle) (p : SimPosition) : option (num * ExitReason) :=
  if sim_sl_hit c p then Some (slPrice (base p), SL)
  else if sim_tp_hit c p then Some (default NaN (tpPrice (base p)), TP)
  else None.

(** The exit loop: the closed and the still open positions. *)
Fixpoint exit_loop (c : BacktestCandle) (l : list SimPosition)
    : M SimulatedBroker (list ClosedPosition * list SimPosition) :=
  match l with
  | [] => m_ret ([], [])
  | p :: l' =>
      match sim_exit c p with
      | Some (price, why) =>
          (x <-- close_position p price (openTime c) why ;;
           r <-- exit_loop c l' ;;
           m_ret (x :: r.1, r.2))%js
      | None => (r <-- exit_loop c l' ;; m_ret (r.1, p :: r.2))%js
      end
  end.

Definition processCandle (sym : string) (c : BacktestCandle) : M SimulatedBroker (list ClosedPosition) :=
  (do! m_modify (processPendingLimits sym c) ;;
   b <-- m_get ;;
   match open_of sym b with
   | [] => m_ret []
   | _ =>
       spread <-- m_lift (getSpread sym (openTime c)) ;;
       let managed := manage c spread <$> open_of sym b in
       do! m_modify (set_positions (<[sym := managed]> (positions b))) ;;
       r <-- exit_loop c managed ;;
       do! m_modify (fun b' => set_positions (match r.2 with
                                              | [] => delete sym (positions b')
                                              | _ => <[sym := r.2]> (positions b')
                                              end) b') ;;
       m_ret r.1
   end)%js.

Fixpoint close_all (l : list SimPosition) (price : num) (time : string)
    : M SimulatedBroker (list ClosedPosition) :=
  match l with
  | [] => m_ret []
  | p :: l' => (x <-- close_position p price time FORCED_CLOSE ;;
                r <-- close_all l' price time ;;
                m_ret (x :: r))%js
  end.

Definition closeAllForSymbol (sym : string) (price : num) (time : string)
    : M SimulatedBroker (list ClosedPosition) :=
  (b <-- m_get ;;
   r <-- close_all (open_of sym b) price time ;;
   do! m_modify (fun b' => set_positions (delete sym (positions b')) b') ;;
   m_ret r)%js.
End broker.

(** * Properties of the simulated broker

    The books balance over any sequence of calls: the balance is the initial one plus
    the booked profits, every position opened is either open or closed once, the
    concurrency mark is an upper bound; and the rules of one bar. *)
Local Close Scope num_scope.
From S2P Require Import Prelude JsNum NumFacts JsDate Types Instruments PositionSimulator.
(** ** The open positions of all symbols *)
Definition all_of {A} (m : gmap string (list A)) : list A := concat (map_to_list m).*2.

Lemma all_of_insert_new {A} (m : gmap string (list A)) k l :
  m !! k = None -> all_of (<[k := l]> m) ≡ₚ l ++ all_of m.
Proof. intros Hk. unfold all_of. by rewrite map_to_list_insert. Qed.

Lemma all_of_insert {A} (m : gmap string (list A)) k l :
  all_of (<[k := l]> m) ≡ₚ l ++ all_of (delete k m).
Proof. rewrite <- insert_delete_eq. apply all_of_insert_new. apply lookup_delete_eq. Qed.

Lemma all_of_split {A} (m : gmap string (list A)) k :
  all_of m ≡ₚ default [] (m !! k) ++ all_of (delete k m).
Proof.
  destruct (m !! k) as [l|] eqn:Hk; simpl.
  - rewrite <- (insert_id m k l) at 1 by done. apply all_of_insert.
  - by rewrite delete_id.
Qed.

Lemma count_lists_all {A} (m : gmap string (list A)) : count_lists m = zlen (all_of m).
Proof.
  unfold count_lists, all_of. rewrite map_fold_foldr.
  induction (map_to_list m) as [|[k l] r IH]; simpl; [done|]. rewrite IH. unfold zlen.
  rewrite length_app, Nat2Z.inj_add. reflexivity.
Qed.

(** ** Invariant *)
Section invariant.
Context (randomUUID : Z -> string) (initial : num).

Definition ids (b : SimulatedBroker) : list string :=
  (id <$> all_of (positions b)) ++ ((fun c => id (cp_pos c)) <$> closed b).

(** Every position sits under its own symbol. *)
Definition keyed (m : gmap string (list SimPosition)) : Prop :=
  forall k l p, m !! k = Some l -> p ∈ l -> sp_symbol p = k.

Record books (b : SimulatedBroker) : Prop := {
  bk_balance : balance b = nsum initial (cp_pnl <$> closed b);
  bk_ids : ids b ≡ₚ randomUUID <$> seqZ 0 (drawn b);
  bk_drawn : 0 <= drawn b;
  bk_count : totalOpenCount b <= maxConcurrent b;
  bk_keyed : keyed (positions b);
}.

Lemma open_legs_ids sig entry time sc runner ls : forall n,
  id <$> open_legs randomUUID sig entry time sc runner n ls = randomUUID <$> seqZ n (zlen ls).
Proof.
  induction ls as [|leg ls IH]; intros n; [done|]. simpl. unfold zlen in *. simpl length.
  rewrite seqZ_cons by lia. simpl. f_equal. rewrite IH. f_equal. f_equal; lia.
Qed.

Lemma open_legs_length sig entry time sc runner ls : forall n,
  length (open_legs randomUUID sig entry time sc runner n ls) = length ls.
Proof. induction ls as [|leg ls IH]; intros n; [done|]. simpl. by rewrite IH. Qed.

Lemma open_legs_symbol sig entry time sc runner ls p : forall n,
  p ∈ open_legs randomUUID sig entry time sc runner n ls -> sp_symbol p = sig_symbol sig.
Proof.
  induction ls as [|leg ls IH]; intros n; simpl; [by intros ?%elem_of_nil|].
  intros [->|Hp]%elem_of_cons; [done|]. by eapply IH.
Qed.

Lemma fillAt_books sig entry time sc b : books b -> books (fillAt randomUUID sig entry time sc b).1.
Proof.
  intros [H1 H2 H3 H4 H5]. unfold fillAt. cbv zeta.
  set (opened := open_legs _ _ _ _ _ _ _ _). constructor; simpl.
  - done.
  - unfold ids in *. simpl. rewrite all_of_insert, fmap_app. unfold open_of. rewrite fmap_app.
    rewrite (all_of_split (positions b) (sig_symbol sig)), fmap_app in H2.
    rewrite seqZ_app by (done || apply Zle_0_nat). rewrite fmap_app, <- H2.
    assert (Ho : id <$> opened = randomUUID <$> seqZ (0 + drawn b) (zlen opened)).
    { unfold opened. rewrite open_legs_ids. unfold zlen. by rewrite open_legs_length. }
    rewrite <- Ho. generalize (id <$> default [] (positions b !! sig_symbol sig)).
    generalize (id <$> all_of (delete (sig_symbol sig) (positions b))).
    generalize ((fun c => id (cp_pos c)) <$> closed b). generalize (id <$> opened).
    intros a b0 c d. rewrite <- !app_assoc. apply Permutation_app_head.
    rewrite (Permutation_app_comm a). rewrite <- app_assoc. done.
  - unfold zlen. lia.
  - unfold totalOpenCount. simpl. lia.
  - intros k l p Hk Hp. destruct (decide (k = sig_symbol sig)) as [->|Hne].
    + rewrite lookup_insert_eq in Hk. injection Hk as <-.
      apply elem_of_app in Hp as [Hp|Hp]; [|by eapply open_legs_symbol].
      unfold open_of in Hp. destruct (positions b !! sig_symbol sig) as [l|] eqn:Hl; [by eapply H5|].
      by apply elem_of_nil in Hp.
    + rewrite lookup_insert_ne in Hk by done. by eapply H5.
Qed.

Lemma set_limits_books m b : books b -> books (set_limits m b).
Proof. by intros [H1 H2 H3 H4 H5]. Qed.

Lemma limits_loop_books c l : forall b, books b -> books (limits_loop randomUUID c l b).1.
Proof.
  induction l as [|p l IH]; intros b Hb; [done|]. simpl. destruct (limit_touched p c).
  - by apply IH, fillAt_books.
  - specialize (IH b Hb). by destruct (limits_loop randomUUID c l b).
Qed.

Lemma processPendingLimits_books sym c b : books b -> books (processPendingLimits randomUUID sym c b).
Proof.
  intros Hb. unfold processPendingLimits. destruct (pendingLimits b !! sym) as [[|p l]|]; [done| |done].
  pose proof (limits_loop_books c (p :: l) b Hb). destruct (limits_loop _ _ _ _). by apply set_limits_books.
Qed.

(** Closing positions of one symbol: all of them close, or the first one throws and nothing
    has changed. *)
Lemma close_position_ok p price time why b :
  is_ok (getInstrumentConfig (sp_symbol p)) = true ->
  exists x, close_position p price time why b =
    ({| balance := (balance b + cp_pnl x)%num; positions := positions b; closed := closed b ++ [x];
        maxConcurrent := maxConcurrent b; pendingLimits := pendingLimits b;
        runnerTrail := runnerTrail b; retraceEntry := retraceEntry b; drawn := drawn b |}, Ok x) /\
    cp_pos x = p /\ closePrice x = price /\ closedAt x = time /\ cp_exitReason x = why.
Proof.
  intros Hs. unfold close_position, calcPnl. destruct (getInstrumentConfig (sp_symbol p)); [|done].
  simpl. match goal with |- context [closed b ++ [?x]] => exists x end. done.
Qed.

(** The broker after the trades [xs] have been booked. *)
Definition booked_trades (xs : list ClosedPosition) (b : SimulatedBroker) : SimulatedBroker := {|
  balance := nsum (balance b) (cp_pnl <$> xs); positions := positions b; closed := closed b ++ xs;
  maxConcurrent := maxConcurrent b; pendingLimits := pendingLimits b;
  runnerTrail := runnerTrail b; retraceEntry := retraceEntry b; drawn := drawn b |}.

(** What the exit loop does on known symbols: a bar's exits by [sim_exit], in order. *)
Lemma exit_loop_ok c l : forall b,
  Forall (fun p => is_ok (getInstrumentConfig (sp_symbol p)) = true) l ->
  exists xs still, exit_loop c l b = (booked_trades xs b, Ok (xs, still)) /\
    still = filter (fun p => sim_exit c p = None) l /\
    Forall2 (fun x p => cp_pos x = p /\ sim_exit c p = Some (closePrice x, cp_exitReason x) /\
               closedAt x = openTime c) xs (filter (fun p => sim_exit c p <> None) l).
Proof.
  induction l as [|p l IH]; intros b Hall.
  - exists [], []. split; [|done]. simpl. unfold m_ret, booked_trades. rewrite app_nil_r. by destruct b.
  - inversion Hall; subst. simpl. rewrite !filter_cons. unfold m_bind, m_ret.
    destruct (sim_exit c p) as [[price why]|] eqn:He.
    + destruct (close_position_ok p price (openTime c) why b) as (x & -> & Hx1 & Hx2 & Hx3 & Hx4); [done|].
      match goal with |- context [exit_loop c l ?b1] => destruct (IH b1 H2) as (xs & still & -> & Hs & Hf) end.
      exists (x :: xs), still. rewrite decide_False by done. rewrite decide_True by done. split; [|split].
      * unfold booked_trades. simpl. by rewrite <- app_assoc.
      * done.
      * constructor; [|done]. rewrite Hx1, Hx2, Hx4. done.
    + destruct (IH b H2) as (xs & still & -> & Hs & Hf). exists xs, (p :: still).
      rewrite decide_True by done. rewrite decide_False by tauto. by rewrite Hs.
Qed.

Lemma close_all_ok l price time : forall b,
  Forall (fun p => is_ok (getInstrumentConfig (sp_symbol p)) = true) l ->
  exists xs, close_all l price time b = (booked_trades xs b, Ok xs) /\ cp_pos <$> xs = l /\
    Forall (fun x => cp_exitReason x = FORCED_CLOSE /\ closePrice x = price) xs.
Proof.
  induction l as [|p l IH]; intros b Hall.
  - exists []. split; [|done]. simpl. unfold m_ret, booked_trades. rewrite app_nil_r. by destruct b.
  - inversion Hall; subst. simpl. unfold m_bind, m_ret.
    destruct (close_position_ok p price time FORCED_CLOSE b) as (x & -> & Hx1 & Hx2 & Hx3 & Hx4); [done|].
    match goal with |- context [close_all l price time ?b1] => destruct (IH b1 H2) as (xs & -> & Hs & Hf) end.
    exists (x :: xs). split; [|split].
    + unfold booked_trades. simpl. by rewrite <- app_assoc.
    + rewrite fmap_cons. by rewrite Hx1, Hs.
    + by constructor.
Qed.

(** *** One bar *)
Lemma manage_fields c spread p :
  sp_symbol (manage c spread p) = sp_symbol p /\ id (manage c spread p) = id p.
Proof. unfold manage. by case_match. Qed.

Lemma known_all l sym :
  (forall p, p ∈ l -> sp_symbol p = sym) -> is_ok (getInstrumentConfig sym) = true ->
  Forall (fun p => is_ok (getInstrumentConfig (sp_symbol p)) = true) l.
Proof. intros H Hk. apply Forall_forall. intros p Hp. by rewrite H. Qed.

Lemma getSpread_known sym t s : getSpread sym t = Ok s -> is_ok (getInstrumentConfig sym) = true.
Proof. unfold getSpread. by destruct (getInstrumentConfig sym). Qed.

(** The open positions of a symbol after a bar; an empty list removes the entry. *)
Definition put_open (sym : string) (still : list SimPosition) (m : gmap string (list SimPosition))
    : gmap string (list SimPosition) :=
  match still with [] => delete sym m | _ => <[sym := still]> m end.

(** What a bar does to the open positions of its symbol, once the limits are processed:
    it manages each, closes exactly those [sim_exit] closes, and books them in order. *)
Lemma processCandle_spec sym c b spread :
  let b0 := processPendingLimits randomUUID sym c b in
  keyed (positions b0) -> open_of sym b0 <> [] -> getSpread sym (openTime c) = Ok spread ->
  let managed := manage c spread <$> open_of sym b0 in
  exists xs, processCandle randomUUID sym c b =
    (booked_trades xs (set_positions
       (put_open sym (filter (fun p => sim_exit c p = None) managed) (positions b0)) b0), Ok xs) /\
    Forall2 (fun x p => cp_pos x = p /\ sim_exit c p = Some (closePrice x, cp_exitReason x) /\
               closedAt x = openTime c) xs (filter (fun p => sim_exit c p <> None) managed).
Proof.
  intros b0 Hkey Hne Hsp managed. unfold processCandle, m_bind, m_modify, m_get, m_lift, m_ret.
  fold b0. destruct (open_of sym b0) as [|p0 l0] eqn:Ho; [done|]. rewrite Hsp. fold managed.
  destruct (exit_loop_ok c managed (set_positions (<[sym:=managed]> (positions b0)) b0))
    as (xs & still & -> & -> & Hf).
  { apply (known_all _ sym); [|by eapply getSpread_known].
    intros p (p' & -> & Hp')%list_elem_of_fmap. rewrite (proj1 (manage_fields _ _ _)).
    unfold open_of in Ho. destruct (positions b0 !! sym) as [l|] eqn:Hl; [|done]. simpl in Ho. subst l.
    by eapply Hkey. }
  exists xs. split; [|done]. simpl. unfold booked_trades, put_open. simpl.
  destruct (filter (fun p => sim_exit c p = None) managed) as [|q qs].
  - unfold set_positions. simpl. by rewrite delete_insert_eq.
  - unfold set_positions. simpl. by rewrite insert_insert_eq.
Qed.

Lemma perm_filter_split (P : SimPosition -> Prop) `{!forall p, Decision (P p)} l :
  filter P l ++ filter (fun p => ~ P p) l ≡ₚ l.
Proof.
  induction l as [|x l IH]; [done|]. rewrite !filter_cons. destruct (decide (P x)).
  - rewrite decide_False by tauto. simpl. by rewrite IH.
  - rewrite decide_True by done. rewrite <- Permutation_middle. by rewrite IH.
Qed.

Lemma booked_closed_ids xs l (c : BacktestCandle) :
  Forall2 (fun x p => cp_pos x = p /\ sim_exit c p = Some (closePrice x, cp_exitReason x) /\
             closedAt x = openTime c) xs l ->
  (fun x => id (cp_pos x)) <$> xs = id <$> l.
Proof. induction 1 as [|x p xs l [Hx _] _ IH]; [done|]. rewrite !fmap_cons. by rewrite Hx, IH. Qed.

(** Replacing the open list of a symbol by what remains of it, and booking the rest. *)
Lemma booked_books sym b l still gone xs :
  books b -> positions b !! sym = Some l ->
  (id <$> still) ++ (id <$> gone) ≡ₚ id <$> l ->
  (fun x => id (cp_pos x)) <$> xs = id <$> gone ->
  (forall p, p ∈ still -> sp_symbol p = sym) -> (length still <= length l)%nat ->
  books (booked_trades xs (set_positions
    (put_open sym still (positions b)) b)).
Proof.
  intros [H1 H2 H3 H4 H5] Hl Hperm Hids Hsym Hlen.
  set (m := put_open sym still (positions b)).
  assert (Hm : all_of m ≡ₚ still ++ all_of (delete sym (positions b))).
  { unfold m, put_open. destruct still; [done|]. apply all_of_insert. }
  pose proof (all_of_split (positions b) sym) as Hs. rewrite Hl in Hs. simpl in Hs.
  constructor; simpl.
  - rewrite H1, fmap_app. unfold nsum. by rewrite fold_left_app.
  - rewrite <- H2. unfold ids. simpl. rewrite Hm, Hs, !fmap_app, Hids, <- Hperm.
    generalize (id <$> still). generalize (id <$> gone). generalize (id <$> all_of (delete sym (positions b))).
    generalize ((fun x => id (cp_pos x)) <$> closed b). intros a b0 c d.
    rewrite <- !app_assoc. apply Permutation_app_head.
    rewrite (Permutation_app_comm c), <- app_assoc. rewrite (Permutation_app_comm a c). done.
  - done.
  - unfold totalOpenCount in *. simpl. rewrite count_lists_all in *. unfold zlen in *.
    rewrite Hm, length_app. rewrite Hs, length_app in H4. lia.
  - intros k l' p Hk Hp. unfold m, put_open in Hk. destruct (decide (k = sym)) as [->|Hne].
    + destruct still; [by rewrite lookup_delete_eq in Hk|]. rewrite lookup_insert_eq in Hk.
      injection Hk as <-. by apply Hsym.
    + assert (positions b !! k = Some l').
      { destruct still; [by rewrite lookup_delete_ne in Hk|by rewrite lookup_insert_ne in Hk]. }
      by eapply H5.
Qed.

Lemma open_of_keyed sym b p : keyed (positions b) -> p ∈ open_of sym b -> sp_symbol p = sym.
Proof.
  intros Hk Hp. unfold open_of in Hp. destruct (positions b !! sym) as [l|] eqn:Hl; [by eapply Hk|].
  by apply elem_of_nil in Hp.
Qed.

Lemma processCandle_books sym c b : books b -> books (processCandle randomUUID sym c b).1.
Proof.
  intros Hb. pose proof (processPendingLimits_books sym c b Hb) as Hb0.
  destruct (decide (open_of sym (processPendingLimits randomUUID sym c b) = [])) as [He|Hne].
  - unfold processCandle, m_bind, m_modify, m_get, m_ret. by rewrite He.
  - destruct (getSpread sym (openTime c)) as [spread|e] eqn:Hsp.
    + destruct (processCandle_spec sym c b spread) as (xs & -> & Hf); [apply Hb0|done|done|]. simpl.
      set (b0 := processPendingLimits randomUUID sym c b) in *.
      set (managed := manage c spread <$> open_of sym b0) in *.
      assert (Hl : exists l, positions b0 !! sym = Some l /\ open_of sym b0 = l).
      { unfold open_of in *. destruct (positions b0 !! sym); [eauto|done]. }
      destruct Hl as (l & Hl & Hol).
      assert (Hidm : id <$> managed = id <$> l).
      { unfold managed. rewrite Hol, <- list_fmap_compose. apply list_fmap_ext. intros. apply manage_fields. }
      eapply (booked_books sym b0 l _ (filter (fun p => sim_exit c p <> None) managed)); try done.
      * rewrite <- fmap_app, perm_filter_split. by rewrite Hidm.
      * by eapply booked_closed_ids.
      * intros p Hp. apply list_elem_of_filter in Hp as [_ Hp]. unfold managed in Hp.
        apply list_elem_of_fmap in Hp as (p' & -> & Hp'). rewrite (proj1 (manage_fields _ _ _)).
        eapply open_of_keyed; [apply Hb0|done].
      * etrans; [apply length_filter|]. unfold managed. rewrite length_fmap. by rewrite Hol.
    + unfold processCandle, m_bind, m_modify, m_get, m_lift. rewrite Hsp.
      destruct (open_of _ _); done.
Qed.

Lemma closeAll_books sym price time b : books b -> books (closeAllForSymbol sym price time b).1.
Proof.
  intros Hb. unfold closeAllForSymbol, m_bind, m_get, m_modify, m_ret.
  destruct (positions b !! sym) as [l|] eqn:Hl.
  - assert (Ho : open_of sym b = l) by (unfold open_of; by rewrite Hl). rewrite Ho.
    destruct (getInstrumentConfig sym) as [ic|e] eqn:Hic.
    + destruct (close_all_ok l price time b) as (xs & -> & Hxs & _).
      { apply (known_all _ sym); [|by rewrite Hic]. intros p Hp. eapply open_of_keyed; [apply Hb|by rewrite Ho]. }
      simpl. apply (booked_books sym b l [] l xs); try done.
      * rewrite <- Hxs. rewrite <- list_fmap_compose. done.
      * by intros p Hp%elem_of_nil.
      * simpl. lia.
    + destruct l as [|p l].
      * simpl. apply (booked_books sym b [] [] [] []) in Hb; try done.
        -- unfold booked_trades in Hb. simpl in Hb. rewrite app_nil_r in Hb. by destruct b.
        -- by intros p Hp%elem_of_nil.
      * simpl. unfold m_bind, close_position, calcPnl.
        assert (sp_symbol p = sym) as -> by (eapply open_of_keyed; [apply Hb|rewrite Ho; by left]).
        by rewrite Hic.
  - assert (Ho : open_of sym b = []) by (unfold open_of; by rewrite Hl). rewrite Ho. simpl.
    rewrite delete_id by done. by destruct b.
Qed.

(** The calls a replay makes. *)
Inductive broker_op :=
| BCandle (sym : string) (c : BacktestCandle)
| BOrder (sig : SmcLiveSignal) (time : string)
| BFlush (sym : string) (price : num) (time : string).

Definition broker_step (b : SimulatedBroker) (op : broker_op) : SimulatedBroker :=
  match op with
  | BCandle sym c => (processCandle randomUUID sym c b).1
  | BOrder sig time => (placeOrder randomUUID sig time b).1
  | BFlush sym price time => (closeAllForSymbol sym price time b).1
  end.

Lemma broker_step_books b op : books b -> books (broker_step b op).
Proof.
  intros Hb. destruct op as [sym c|sig time|sym price time]; simpl.
  - by apply processCandle_books.
  - unfold placeOrder. destruct (retraceEntry b); [by apply set_limits_books|by apply fillAt_books].
  - by apply closeAll_books.
Qed.

(** The books of the simulated account balance.  After any sequence of bars, orders and flushes
    (calls that throw included), the balance is the initial balance plus the booked profits in
    booking order, every position ever opened is exactly once either open or closed, and the
    reported maximum concurrency is at least the number of open positions. *)
Theorem broker_books_balance (trail : RegimeTradeParams -> RegimeTradeParams)
    (retrace : option RetraceEntryCfg) (ops : list broker_op) :
  let b := fold_left broker_step ops (new_SimulatedBroker initial trail retrace) in
  balance b = nsum initial (cp_pnl <$> closed b) /\
  (id <$> all_of (positions b)) ++ ((fun c => id (cp_pos c)) <$> closed b)
    ≡ₚ randomUUID <$> seqZ 0 (drawn b) /\
  totalOpenCount b <= maxConcurrent b.
Proof.
  assert (Hb : books (fold_left broker_step ops (new_SimulatedBroker initial trail retrace))).
  { assert (H0 : books (new_SimulatedBroker initial trail retrace)).
    { constructor; try done. }
    revert H0. generalize (new_SimulatedBroker initial trail retrace).
    induction ops as [|op ops IH]; intros b Hb; [done|]. by apply IH, broker_step_books. }
  destruct Hb. done.
Qed.
End invariant.

(** ** The rules of a bar *)

(** [x] is the exit of the position [p] on the bar [c]: the stop if it was reached, at the
    stop price; otherwise the target, if it was reached by a position not filled on this
    very bar, at the target price. *)
Definition fair_exit (c : BacktestCandle) (spread : num) (p : SimPosition) (x : ClosedPosition) : Prop :=
  let q := manage c spread p in
  cp_pos x = q /\ closedAt x = openTime c /\
  (cp_exitReason x = SL /\ closePrice x = slPrice (base q) /\ sim_sl_hit c q = true \/
   cp_exitReason x = TP /\ tpPrice (base q) = Some (closePrice x) /\ sim_sl_hit c q = false /\
     entryTime (base p) <> openTime c).

Lemma sim_exit_fair c spread p x :
  cp_pos x = manage c spread p ->
  sim_exit c (manage c spread p) = Some (closePrice x, cp_exitReason x) ->
  closedAt x = openTime c -> fair_exit c spread p x.
Proof.
  intros Hp He Hc. split; [done|]. split; [done|]. cbv zeta. unfold sim_exit in He.
  destruct (sim_sl_hit c (manage c spread p)) eqn:Hs; [injection He as <- <-; by left|].
  destruct (sim_tp_hit c (manage c spread p)) eqn:Ht; [|done]. injection He as <- <-. right.
  unfold sim_tp_hit in Ht. apply andb_true_iff in Ht as [Ht1 Ht2].
  destruct (tpPrice (base (manage c spread p))) as [tp|]; [|done].
  split_and!; try done. intros Heq. unfold manage in Ht1. rewrite Heq, String.eqb_refl in Ht1.
  by rewrite Heq, String.eqb_refl in Ht1.
Qed.

(** The exits of a bar are fair.  Whatever the account did before, a bar closes exactly those open
    positions of its symbol whose (managed) stop or target it reached; the stop has priority; a
    position filled on the bar itself can be stopped out but cannot take its target; the fill
    is at the level that was hit; every other position stays open with its stop at least as
    tight as before. *)
Theorem processCandle_exits (randomUUID : Z -> string) (initial : num) (sym : string) (c : BacktestCandle)
    (b : SimulatedBroker) (spread : num) :
  books randomUUID initial b -> getSpread sym (openTime c) = Ok spread ->
  let b0 := processPendingLimits randomUUID sym c b in
  exists b' xs, processCandle randomUUID sym c b = (b', Ok xs) /\
    (forall x, x ∈ xs -> exists p, p ∈ open_of sym b0 /\ fair_exit c spread p x) /\
    (forall p, p ∈ open_of sym b0 -> sim_exit c (manage c spread p) <> None ->
       exists x, x ∈ xs /\ cp_pos x = manage c spread p) /\
    open_of sym b' = filter (fun q => sim_exit c q = None) (manage c spread <$> open_of sym b0) /\
    (forall p, p ∈ open_of sym b0 -> wf_pos (base p) ->
       tighter (side (base p)) (slPrice (base p)) (slPrice (base (manage c spread p)))).
Proof.
  intros Hb Hsp b0. assert (Htight : forall p, p ∈ open_of sym b0 -> wf_pos (base p) ->
       tighter (side (base p)) (slPrice (base p)) (slPrice (base (manage c spread p)))).
  { intros p _ Hwf. unfold manage. case_match; [apply tighter_refl, Hwf|]. simpl.
    by destruct (update_managed_from (base p) c spread Hwf). }
  pose proof (processPendingLimits_books randomUUID initial sym c b Hb) as Hb0. fold b0 in Hb0.
  destruct (decide (open_of sym b0 = [])) as [He|Hne].
  - exists b0, []. unfold processCandle, m_bind, m_modify, m_get, m_ret. fold b0. rewrite He.
    split_and!; try done; intros ? []%elem_of_nil.
  - destruct (processCandle_spec randomUUID sym c b spread) as (xs & Hrun & Hf); [apply Hb0|done|done|].
    fold b0 in Hrun, Hf. eexists _, xs. split; [exact Hrun|]. split_and!.
    + intros x Hx. apply list_elem_of_lookup in Hx as [i Hi].
      destruct (Forall2_lookup_l _ _ _ _ _ Hf Hi) as (q & Hq & Hq1 & Hq2 & Hq3).
      assert (Hin : q ∈ filter (fun p => sim_exit c p <> None) (manage c spread <$> open_of sym b0))
        by (by eapply list_elem_of_lookup_2).
      apply list_elem_of_filter in Hin as [_ Hin]. apply list_elem_of_fmap in Hin as (p & -> & Hp).
      exists p. split; [done|]. by apply sim_exit_fair.
    + intros p Hp He. assert (Hin : manage c spread p ∈ filter (fun p => sim_exit c p <> None) (manage c spread <$> open_of sym b0)).
      { apply list_elem_of_filter. split; [done|]. by apply list_elem_of_fmap_2. }
      apply list_elem_of_lookup in Hin as [i Hi].
      destruct (Forall2_lookup_r _ _ _ _ _ Hf Hi) as (x & Hx & Hx1 & _).
      exists x. split; [by eapply list_elem_of_lookup_2|done].
    + unfold open_of at 1. simpl. unfold put_open.
      destruct (filter _ _) as [|q qs] eqn:E; [by rewrite lookup_delete_eq|by rewrite lookup_insert_eq].
    + done.
Qed.

(** The broker's tie-break is not the backtest's.  On a bar that reaches both levels after
    breakeven, the simulated broker books the stop while the backtest's [checkPositionExit]
    books the target. *)
Theorem tie_break_differs :
  exists p c, sim_exit c p = Some (slPrice (base p), SL) /\
    option_map exitReason (checkPositionExit (base p) c (of_Z 0) (of_Z 0) (of_Z 100) None) = Some TP.
Proof.
  exists {| base := manage_all demo_pos [(demo_bar 2012 2001, of_Z 0)]; id := ""; sp_symbol := "XAUUSD";
            openedAt := ""; sp_mode := REVERSAL; sp_reason := ""; sp_sweptLevel := None; sp_sweptHigh := None;
            sp_sweptLow := None; sp_sweepCandleTime := None; sp_d1Bias := None |},
         {| c_symbol := "XAUUSD"; timeframe := "M15"; openTime := "2024-03-14T10:30:00.000Z";
            open := of_Z 2010; high := of_Z 2035; low := of_Z 1995; close := of_Z 2010; volume := of_Z 1 |}.
  split; vm_compute; reflexivity.
Qed.

(** ** A concrete account *)
Definition demo_uuid (n : Z) : string := dec_string n.
Definition demo_signal : SmcLiveSignal := {|
  sig_symbol := "XAUUSD"; sig_side := BUY; sig_entryPrice := of_Z 2000; sig_slPrice := of_Z 1990;
  sig_tpPrice := of_Z 2008; totalLot := lit 10 2;
  legs := [{| leg_lotSize := lit 3 2; leg_tpPrice := of_Z 2008; leg_setupTags := ["SMC"; "TP1"] |};
           {| leg_lotSize := lit 7 2; leg_tpPrice := of_Z 2040; leg_setupTags := ["SMC"; "RUNNER"] |}];
  sig_mode := REVERSAL; h1SweepTime := "2024-03-14T07:00:00.000Z"; reason := ""; smcContext := None |}.
Definition demo_broker : SimulatedBroker :=
  (placeOrder demo_uuid demo_signal "2024-03-14T10:00:00.000Z" (new_SimulatedBroker (of_Z 10000) (fun t => t) None)).1.

Lemma processCandle_exits_witness :
  exists b' xs, processCandle demo_uuid "XAUUSD" (demo_bar 2009 2001) demo_broker = (b', Ok xs) /\
    forall x, x ∈ xs -> exists p, p ∈ open_of "XAUUSD" demo_broker /\ fair_exit (demo_bar 2009 2001) (lit 25 2) p x.
Proof.
  assert (Hb : books demo_uuid (of_Z 10000) demo_broker).
  { apply (broker_step_books demo_uuid (of_Z 10000) _ (BOrder demo_signal "2024-03-14T10:00:00.000Z")).
    constructor; done. }
  destruct (processCandle_exits demo_uuid (of_Z 10000) "XAUUSD" (demo_bar 2009 2001) demo_broker (lit 25 2) Hb)
    as (b' & xs & H1 & H2 & _).
  - vm_compute. reflexivity.
  - exists b', xs. split; [exact H1|]. exact H2.
Defined.
