(* ===== verification/ReplayEngine.v ===== *)
(** * Live-replay engine

    src/backtest/live-replay/replay-engine.ts (class ReplayEngine): it merges the M15 bars
    of all pairs into one timeline and drives the orchestrator and the shared simulated
    account through it.  The candle bundle is an association list, in the order of
    [Object.entries]. *)
From S2P Require Import Prelude JsNum JsDate Types Instruments Indicators Orchestrator SimBroker.
Local Open Scope num_scope.

(** ** Data *)
Record ReplayConfig := {
  startDate : string;
  endDate : string;
  rp_initialBalance : num;
  rp_riskPercent : num;
  pairs : list string;
  rp_maxOpenPositions : option Z;
  logDecisions : option bool;
  (** the update that spreading [runnerTrail] performs *)
  rp_runnerTrail : RegimeTradeParams -> RegimeTradeParams;
  rp_retraceEntry : option RetraceEntryCfg;
}.

Record Bundle := { m15 : list BacktestCandle; h1 : list BacktestCandle; d1 : list BacktestCandle }.
Definition CandleBundle := list (string * Bundle).

Record DecisionContext := {
  lastM15 : option string; lastH1 : option string; lastD1 : option string;
  dc_equity : num;
  dc_openDirections : list Side;
  dc_totalOpenPositions : Z;
  dc_riskPercent : num;
  dc_pendingCount : Z;
  dc_cooldown : Z;
  (** [entry], [sl], [tp], [mode] of the signal *)
  dc_signal : option (num * num * num * SmcMode);
}.

Record ReplayDecision := {
  rd_symbol : string;
  barTime : string;
  decision : string;
  signalSide : option Side;
  rd_context : DecisionContext;
}.

Record ReplayMetrics := {
  tradesCount : Z; winsCount : Z; lossesCount : Z; realizedPnl : num; netReturnPct : num }.

Record ReplayResult := {
  rr_opened : list SimPosition;
  rr_closed : list ClosedPosition;
  rr_finalBalance : num;
  rr_maxConcurrent : Z;
  rr_decisions : option (list ReplayDecision);
  metrics : ReplayMetrics;
}.

(** The local variables of [run] that its loop changes, with the orchestrator. *)
Record ReplayState := {
  orch : LiveSmcOrchestrator;
  broker : SimulatedBroker;
  cursors : gmap string Cursor;
  opened : list SimPosition;
  r_closed : list ClosedPosition;
  decisions : option (list ReplayDecision);
}.

Definition set_orch (o : LiveSmcOrchestrator) (s : ReplayState) : ReplayState := {|
  orch := o; broker := broker s; cursors := cursors s; opened := opened s;
  r_closed := r_closed s; decisions := decisions s |}.
Definition set_broker (b : SimulatedBroker) (s : ReplayState) : ReplayState := {|
  orch := orch s; broker := b; cursors := cursors s; opened := opened s;
  r_closed := r_closed s; decisions := decisions s |}.
Definition set_cursors (m : gmap string Cursor) (s : ReplayState) : ReplayState := {|
  orch := orch s; broker := broker s; cursors := m; opened := opened s;
  r_closed := r_closed s; decisions := decisions s |}.
Definition push_opened (l : list SimPosition) (s : ReplayState) : ReplayState := {|
  orch := orch s; broker := broker s; cursors := cursors s; opened := opened s ++ l;
  r_closed := r_closed s; decisions := decisions s |}.
Definition push_closed (l : list ClosedPosition) (s : ReplayState) : ReplayState := {|
  orch := orch s; broker := broker s; cursors := cursors s; opened := opened s;
  r_closed := r_closed s ++ l; decisions := decisions s |}.
Definition push_decision (d : ReplayDecision) (s : ReplayState) : ReplayState := {|
  orch := orch s; broker := broker s; cursors := cursors s; opened := opened s;
  r_closed := r_closed s; decisions := (fun l => l ++ [d]) <$> decisions s |}.

(** Calls on the two objects of the state. *)
Definition on_orch {A} (m : M LiveSmcOrchestrator A) : M ReplayState A := fun s =>
  let '(o, r) := m (orch s) in (set_orch o s, r).
Definition on_broker {A} (m : M SimulatedBroker A) : M ReplayState A := fun s =>
  let '(b, r) := m (broker s) in (set_broker b s, r).

(** ** Timeline *)
Record Event := { ev_symbol : string; candle : BacktestCandle }.

(** The bars of one pair between [startMs] and [endMs]; the time of an unreadable date is
    NaN, which neither comparison rejects. *)
Definition in_window (startMs endMs : option Z) (c : BacktestCandle) : bool :=
  negb (tv_lt (candle_ms c) startMs || tv_lt endMs (candle_ms c)).

Definition pair_events (startMs endMs : option Z) (p : string * Bundle) : list Event :=
  (fun c => {| ev_symbol := p.1; candle := c |}) <$> List.filter (in_window startMs endMs) (m15 p.2).

(** The comparator answers at most 0 on [a], [b] unless [b] is earlier. *)
Definition event_le (a b : Event) : bool := negb (tv_lt (candle_ms (candle b)) (candle_ms (candle a))).

Definition buildTimeline (candles : CandleBundle) (startMs endMs : option Z) : list Event :=
  sort_by event_le (candles ≫= pair_events startMs endMs).

(** ** Cursors *)
Fixpoint count_while (p : BacktestCandle -> bool) (cs : list BacktestCandle) : Z :=
  match cs with
  | [] => 0
  | c :: cs' => if p c then (1 + count_while p cs')%Z else 0%Z
  end.

(** [while (cur < cs.length && p(cs[cur])) cur++] *)
Definition advance (p : BacktestCandle -> bool) (cs : list BacktestCandle) (cur : Z) : Z :=
  (cur + count_while p (drop (Z.to_nat cur) cs))%Z.

Definition opened_by (evMs : option Z) (c : BacktestCandle) : bool := tv_le (candle_ms c) evMs.
(** A bar of length [len] whose close is at most a millisecond after the event. *)
Definition closed_by (len : Z) (evMs : option Z) (c : BacktestCandle) : bool :=
  tv_le ((fun t => t + len)%Z <$> candle_ms c) ((fun t => t + 1)%Z <$> evMs).

Definition advance_cursor (b : Bundle) (evMs : option Z) (cur : Cursor) : Cursor := {|
  cu_m15 := advance (opened_by evMs) (m15 b) (cu_m15 cur);
  cu_h1 := advance (closed_by ms_hour evMs) (h1 b) (cu_h1 cur);
  cu_d1 := advance (closed_by ms_day evMs) (d1 b) (cu_d1 cur) |}.

Definition init_cursors (ps : list string) : gmap string Cursor :=
  fold_left (fun m sym => <[sym := {| cu_m15 := 0; cu_h1 := 0; cu_d1 := 0 |}]> m) ps ∅.

Definition orch_exit (why : ExitReason) : OrchExit :=
  match why with SL => ExSL | TP => ExTP | _ => ExOther end.

(** The label of a decision row. *)
Definition decision_label (signal : option SmcLiveSignal) (tel : option OrchestratorTelemetry) : string :=
  match signal with
  | Some _ => "SIGNAL"
  | None => if (0 <? default 0 (tel_cooldownBarsRemaining <$> tel))%Z then "cooldown"
            else if (0 <? default 0 (Orchestrator.pendingCount <$> tel))%Z then "pending-only"
            else "no-sweep"
  end.

Definition open_time_at (cs : list BacktestCandle) (i : Z) : option string := openTime <$> zlookup cs i.

(** ** The run *)
Section run.
(** The indicator library, the identifiers of [randomUUID], the configuration overrides and
    [RISK_PERCENT] of the process. *)
Context `{TechnicalIndicators} (randomUUID : Z -> string) (ov : Overrides) (envRisk : num).
Context (cfg : ReplayConfig) (candles : CandleBundle).

Definition maxOpen : Z := default 4 (rp_maxOpenPositions cfg).

(** The indicators of one pair over the full window. *)
Definition precompute (b : Bundle) : Res PrecomputedIndicators :=
  (i15 <-! computeIndicators (m15 b) ;;
   i1 <-! computeIndicators (h1 b) ;;
   id1 <-! (if (30 <? zlen (d1 b))%Z then res_map Some (computeIndicators (d1 b)) else Ok None) ;;
   Ok {| pre_m15 := i15; pre_h1 := i1; pre_d1 := id1 |})%js.

Fixpoint precompute_all (ps : list string) (acc : gmap string PrecomputedIndicators)
    : Res (gmap string PrecomputedIndicators) :=
  match ps with
  | [] => Ok acc
  | sym :: ps' => match assoc candles sym with
                  | None => precompute_all ps' acc
                  | Some b => (i <-! precompute b ;; precompute_all ps' (<[sym := i]> acc))%js
                  end
  end.

(** Step 2 of an event: the exits are pushed and reported one by one. *)
Fixpoint report_exits (sym : string) (exits : list ClosedPosition) : M ReplayState unit :=
  match exits with
  | [] => m_ret tt
  | x :: exits' =>
      (do! m_modify (push_closed [x]) ;;
       do! on_orch (recordExit ov sym (orch_exit (cp_exitReason x)) (closedAt x) (Some (cp_pnl x))) ;;
       report_exits sym exits')%js
  end.

Definition replay_context (sym : string) (c : BacktestCandle) (b : SimulatedBroker) : LiveContext := {|
  accountEquity := getEquity b;
  openDirections := getOpenDirections sym b;
  totalOpenPositions := totalOpenCount b;
  ctx_riskPercent := Some (rp_riskPercent cfg);
  nowIso := openTime c;
  ctx_maxOpenPositions := Some maxOpen |}.

Definition make_decision (sym : string) (c : BacktestCandle) (bundle : Bundle) (cur : Cursor)
    (signal : option SmcLiveSignal) (s : ReplayState) : ReplayDecision :=
  let tel := getTelemetry (orch s) !! sym in {|
  rd_symbol := sym;
  barTime := openTime c;
  decision := decision_label signal tel;
  signalSide := sig_side <$> signal;
  rd_context := {|
    lastM15 := open_time_at (m15 bundle) (cu_m15 cur - 1);
    lastH1 := open_time_at (h1 bundle) (cu_h1 cur - 1);
    lastD1 := open_time_at (d1 bundle) (cu_d1 cur - 1);
    dc_equity := getEquity (broker s);
    dc_openDirections := getOpenDirections sym (broker s);
    dc_totalOpenPositions := totalOpenCount (broker s);
    dc_riskPercent := rp_riskPercent cfg;
    dc_pendingCount := default 0 (Orchestrator.pendingCount <$> tel);
    dc_cooldown := default 0 (tel_cooldownBarsRemaining <$> tel);
    dc_signal := (fun x => (sig_entryPrice x, sig_slPrice x, sig_tpPrice x, sig_mode x)) <$> signal |} |}.

(** Step 4: the order, and the commit of the setup when something was opened or parked. *)
Definition take_signal (sym : string) (c : BacktestCandle) (sig : SmcLiveSignal) : M ReplayState unit :=
  (s <-- m_get ;;
   let pendedBefore := SimBroker.pendingCount (broker s) in
   let '(b, ps) := placeOrder randomUUID sig (openTime c) (broker s) in
   do! m_modify (fun s => push_opened ps (set_broker b s)) ;;
   if (0 <? zlen ps)%Z || (pendedBefore <? SimBroker.pendingCount b)%Z
   then on_orch (recordEntry sym sig)
   else m_ret tt)%js.

(** One turn of the event loop. *)
Definition step (ind : gmap string PrecomputedIndicators) (e : Event) : M ReplayState unit :=
  let sym := ev_symbol e in
  let c := candle e in
  match assoc candles sym with
  | None => m_ret tt
  | Some bundle =>
      (s <-- m_get ;;
       match cursors s !! sym with
       | None => m_throw "TypeError: Cannot read properties of undefined (reading 'm15')"
       | Some cur0 =>
           let cur := advance_cursor bundle (candle_ms c) cur0 in
           do! m_modify (set_cursors (<[sym := cur]> (cursors s))) ;;
           exits <-- on_broker (processCandle randomUUID sym c) ;;
           do! report_exits sym exits ;;
           if (cu_m15 cur <? 30)%Z || (cu_h1 cur <? 30)%Z then m_ret tt
           else
             s <-- m_get ;;
             signal <-- on_orch (evaluate ov envRisk sym (m15 bundle) (h1 bundle) (d1 bundle)
                                   (replay_context sym c (broker s)) (ind !! sym) (Some cur)) ;;
             do! m_modify (fun s => push_decision (make_decision sym c bundle cur signal s) s) ;;
             match signal with
             | None => m_ret tt
             | Some sig => take_signal sym c sig
             end
       end)%js
  end.

Fixpoint steps (ind : gmap string PrecomputedIndicators) (es : list Event) : M ReplayState unit :=
  match es with
  | [] => m_ret tt
  | e :: es' => (do! step ind e ;; steps ind es')%js
  end.

(** The force-close of what is still open, at the last M15 close of each pair. *)
Fixpoint flush (ps : list string) : M ReplayState unit :=
  match ps with
  | [] => m_ret tt
  | sym :: ps' =>
      match assoc candles sym ≫= (fun b => zlookup (m15 b) (zlen (m15 b) - 1)) with
      | None => flush ps'
      | Some c =>
          (flushed <-- on_broker (closeAllForSymbol sym (close c) (openTime c)) ;;
           do! m_modify (push_closed flushed) ;;
           flush ps')%js
      end
  end.

Definition replay_metrics (closedAll : list ClosedPosition) : ReplayMetrics :=
  let realized := nsum (of_Z 0) (cp_pnl <$> closedAll) in {|
  tradesCount := zlen closedAll;
  winsCount := zlen (List.filter (fun t => cp_pnl t >? of_Z 0) closedAll);
  lossesCount := zlen (List.filter (fun t => cp_pnl t <=? of_Z 0) closedAll);
  realizedPnl := round2 realized;
  netReturnPct := if rp_initialBalance cfg >? of_Z 0
                  then Math_round (realized / rp_initialBalance cfg * of_Z 10000) / of_Z 100
                  else of_Z 0 |}.

Definition start_state (o : LiveSmcOrchestrator) : ReplayState := {|
  orch := setDefaultRiskCfg {| rc_initialBalance := rp_initialBalance cfg;
                               rc_riskPercent := rp_riskPercent cfg;
                               rc_maxOpenPositions := maxOpen |} (resetAll o);
  broker := new_SimulatedBroker (rp_initialBalance cfg) (rp_runnerTrail cfg) (rp_retraceEntry cfg);
  cursors := init_cursors (pairs cfg);
  opened := []; r_closed := [];
  decisions := if flag (logDecisions cfg) then Some [] else None |}.

Definition timeline : list Event :=
  buildTimeline candles (Date_parse (startDate cfg)) (Date_parse (endDate cfg)).

Definition run_body : M ReplayState ReplayResult :=
  (ind <-- m_lift (precompute_all (pairs cfg) ∅) ;;
   do! steps ind timeline ;;
   do! flush (pairs cfg) ;;
   s <-- m_get ;;
   m_ret {| rr_opened := opened s;
            rr_closed := r_closed s;
            rr_finalBalance := getBalance (broker s);
            rr_maxConcurrent := getMaxConcurrent (broker s);
            rr_decisions := decisions s;
            metrics := replay_metrics (getClosed (broker s)) |})%js.

Definition run (o : LiveSmcOrchestrator) : LiveSmcOrchestrator * Res ReplayResult :=
  let '(s, r) := run_body (start_state o) in (orch s, r).
End run.
