(* ===== verification/ReplayFacts.v ===== *)
(** * Properties of the live-replay engine

    The timeline is an order-preserving merge, the cursors show exactly the bars that have
    closed, and a finished run has settled its books.  The last part shows what the D1
    bias reads in a replay. *)
From S2P Require Import Prelude JsNum JsDate Types Instruments Indicators SweepDetector SweepFacts.
From S2P Require Import Orchestrator OrchestratorFacts SimBroker ReplayEngine.

(** ** The timeline *)

(** Inserting before everything it must precede: elements that fail [P] may be skipped. *)
Lemma insert_by_filter_head {A} (le : A -> A -> bool) (P : A -> Prop) `{!forall a, Decision (P a)} x l :
  P x -> (forall y, y ∈ l -> P y -> le x y = true) -> filter P (insert_by le x l) = x :: filter P l.
Proof.
  intros Hx. induction l as [|y l IH]; intros Hle; simpl.
  - by rewrite filter_cons, decide_True.
  - destruct (le x y) eqn:Hxy; [by rewrite filter_cons, decide_True|].
    rewrite !filter_cons. destruct (decide (P y)) as [Hy|Hy].
    + rewrite Hle in Hxy by (done || by left). done.
    + apply IH. intros z Hz. apply Hle. by right.
Qed.

Lemma insert_by_filter_out {A} (le : A -> A -> bool) (P : A -> Prop) `{!forall a, Decision (P a)} x l :
  ~ P x -> filter P (insert_by le x l) = filter P l.
Proof.
  intros Hx. induction l as [|y l IH]; simpl.
  - by rewrite filter_cons, decide_False.
  - case_match; rewrite !filter_cons; [by rewrite (decide_False (P := P x))|]. by rewrite IH.
Qed.

(** A sorted part of the list keeps its order. *)
Lemma sort_by_filter_sorted {A} (le : A -> A -> bool) (P : A -> Prop) `{!forall a, Decision (P a)} l :
  StronglySorted (fun a b => le a b = true) (filter P l) -> filter P (sort_by le l) = filter P l.
Proof.
  induction l as [|x l IH]; [done|]. simpl. rewrite filter_cons.
  destruct (decide (P x)) as [Hx|Hx]; intros Hs.
  - inversion Hs as [|? ? Hs' Hf]; subst. rewrite insert_by_filter_head; [by rewrite IH|done|].
    intros y Hy Hpy. rewrite Forall_forall in Hf. apply Hf. apply list_elem_of_filter.
    split; [done|]. by rewrite <- (sort_by_perm le l).
  - by rewrite insert_by_filter_out by done; auto.
Qed.

Definition event_ms (e : Event) : option Z := candle_ms (candle e).
(** The event of [a] is not after that of [b]. *)
Definition not_later (a b : Event) : Prop := tv_le (event_ms a) (event_ms b) = true.

Lemma event_le_total a b : event_le a b = true \/ event_le b a = true.
Proof.
  unfold event_le, tv_lt. destruct (candle_ms (candle a)), (candle_ms (candle b)); simpl; auto.
  rewrite !negb_true_iff, !Z.ltb_ge. lia.
Qed.

Definition readable_bundle (candles : CandleBundle) : Prop :=
  forall p c, p ∈ candles -> c ∈ m15 p.2 -> is_Some (candle_ms c).

Lemma insert_by_ext {A} (le le' : A -> A -> bool) x l :
  (forall y, y ∈ l -> le x y = le' x y) -> insert_by le x l = insert_by le' x l.
Proof.
  induction l as [|y l IH]; intros H; [done|]. simpl. rewrite (H y) by left.
  case_match; [done|]. f_equal. apply IH. intros z Hz. apply H. by right.
Qed.

Lemma sort_by_ext {A} (le le' : A -> A -> bool) l :
  (forall x y, x ∈ l -> y ∈ l -> le x y = le' x y) -> sort_by le l = sort_by le' l.
Proof.
  induction l as [|x l IH]; intros H; [done|]. simpl. rewrite IH.
  - apply insert_by_ext. intros y Hy. rewrite sort_by_perm in Hy. apply H; by (left || right).
  - intros y z Hy Hz. apply H; by right.
Qed.

(** The order of the events when every date is readable. *)
Definition ms_le (a b : Event) : bool := default 0 (event_ms a) <=? default 0 (event_ms b).

Lemma event_le_ms a b : is_Some (event_ms a) -> is_Some (event_ms b) ->
  event_le a b = ms_le a b /\ (event_le a b = true -> not_later a b).
Proof.
  unfold event_le, ms_le, not_later, event_ms, tv_lt, tv_le. intros [x ->] [y ->]. simpl.
  rewrite <- Z.leb_antisym. split; [|tauto]. done.
Qed.

Lemma elem_of_pair_events s e p ev :
  ev ∈ pair_events s e p <-> ev_symbol ev = p.1 /\ candle ev ∈ m15 p.2 /\ in_window s e (candle ev) = true.
Proof.
  unfold pair_events. rewrite list_elem_of_fmap. split.
  - intros (c & -> & Hc). apply list_elem_of_In, List.filter_In in Hc as [Hc Hw].
    by apply list_elem_of_In in Hc.
  - intros (Hs & Hc & Hw). exists (candle ev). split; [by destruct ev; simplify_eq/=|].
    apply list_elem_of_In, List.filter_In. split; [by apply list_elem_of_In|done].
Qed.

Lemma elem_of_timeline candles s e ev :
  ev ∈ buildTimeline candles s e <->
  exists b, (ev_symbol ev, b) ∈ candles /\ candle ev ∈ m15 b /\ in_window s e (candle ev) = true.
Proof.
  unfold buildTimeline. rewrite sort_by_perm, list_elem_of_bind. split.
  - intros ([sym b] & Hev & Hp). apply elem_of_pair_events in Hev as (Hs & Hc & Hw). simpl in *. subst.
    by exists b.
  - intros (b & Hp & Hc & Hw). exists (ev_symbol ev, b). split; [|done]. by apply elem_of_pair_events.
Qed.

Lemma timeline_readable candles s e ev :
  readable_bundle candles -> ev ∈ buildTimeline candles s e -> is_Some (event_ms ev).
Proof. intros Hr (b & Hp & Hc & _)%elem_of_timeline. by apply (Hr _ _ Hp). Qed.

Lemma timeline_sorted candles s e :
  readable_bundle candles -> StronglySorted not_later (buildTimeline candles s e).
Proof.
  intros Hr. assert (Hread : forall ev, ev ∈ buildTimeline candles s e -> is_Some (event_ms ev))
    by (intros ev; by apply timeline_readable).
  unfold buildTimeline in *. set (l := candles ≫= pair_events s e) in *.
  assert (Hl : forall ev, ev ∈ l -> is_Some (event_ms ev)).
  { intros ev Hev. apply Hread. by rewrite sort_by_perm. }
  assert (Hs : StronglySorted (fun a b => ms_le a b = true) (sort_by event_le l)).
  { rewrite (sort_by_ext _ ms_le).
    - apply sort_by_sorted; unfold ms_le; intros; rewrite ?Z.leb_le in *; lia.
    - intros x y Hx Hy. apply event_le_ms; auto. }
  clear -Hs Hread. induction Hs as [|x l' Hs IH Hx]; constructor.
  - apply IH. intros ev Hev. apply Hread. by right.
  - rewrite Forall_forall in Hx |- *. intros y Hy. apply event_le_ms; [apply Hread; by left|apply Hread; by right|].
    rewrite (proj1 (event_le_ms x y ltac:(apply Hread; by left) ltac:(apply Hread; by right))). by apply Hx.
Qed.

Lemma filter_pair_events_other candles s e sym :
  sym ∉ candles.*1 -> filter (fun ev => ev_symbol ev = sym) (candles ≫= pair_events s e) = [].
Proof.
  intros Hn. destruct (filter _ _) as [|ev l] eqn:E; [done|].
  assert (Hev : ev ∈ filter (fun ev => ev_symbol ev = sym) (candles ≫= pair_events s e)) by (rewrite E; left).
  apply list_elem_of_filter in Hev as [<- (p & Hev & Hp)%list_elem_of_bind].
  apply elem_of_pair_events in Hev as (Hs & _). exfalso. apply Hn. rewrite Hs. by apply list_elem_of_fmap_2.
Qed.

Lemma filter_all {A} (P : A -> Prop) `{!forall a, Decision (P a)} l : Forall P l -> filter P l = l.
Proof. induction 1; rewrite ?filter_cons, ?decide_True; by f_equal. Qed.

Lemma pair_events_symbol s e p : Forall (fun ev => ev_symbol ev = p.1) (pair_events s e p).
Proof. apply Forall_forall. intros ev Hev. by apply elem_of_pair_events in Hev as []. Qed.

Lemma filter_pair_events candles s e sym b :
  NoDup candles.*1 -> (sym, b) ∈ candles ->
  filter (fun ev => ev_symbol ev = sym) (candles ≫= pair_events s e) = pair_events s e (sym, b).
Proof.
  induction candles as [|p candles IH]; [by intros _ ?%elem_of_nil|]. rewrite fmap_cons, NoDup_cons.
  intros [Hn Hnd] Hin. rewrite bind_cons, filter_app. apply elem_of_cons in Hin as [<-|Hin].
  - simpl in Hn. rewrite filter_pair_events_other by done. rewrite app_nil_r.
    apply filter_all, (pair_events_symbol s e (sym, b)).
  - rewrite IH by done. destruct (filter _ (pair_events s e p)) as [|ev l] eqn:E; [done|].
    assert (Hev : ev ∈ filter (fun ev => ev_symbol ev = sym) (pair_events s e p)) by (rewrite E; left).
    apply list_elem_of_filter in Hev as [Hs Hev]. apply elem_of_pair_events in Hev as [Hp _].
    exfalso. apply Hn. rewrite <- Hp, Hs. by apply (list_elem_of_fmap_2 fst _ (sym, b)).
Qed.

Lemma chronological_window_sorted s e sym b :
  chronological (m15 b) -> StronglySorted (fun x y => event_le x y = true) (pair_events s e (sym, b)).
Proof.
  intros (ts & Hts & Hs). unfold pair_events. simpl. revert ts Hts Hs.
  induction (m15 b) as [|c cs IH]; intros ts Hts Hs; [constructor|].
  destruct ts as [|t ts]; [done|]. rewrite !fmap_cons in Hts. injection Hts as Hc Hts.
  inversion Hs as [|? ? Hs' Hf]; subst. simpl. destruct (in_window s e c); [|by apply (IH ts)].
  simpl. constructor; [by apply (IH ts)|]. rewrite Forall_forall. intros ev Hev.
  apply list_elem_of_fmap in Hev as (c' & -> & Hc').
  apply list_elem_of_In, List.filter_In in Hc' as [Hc' _]. apply list_elem_of_In in Hc'.
  assert (Hin : candle_ms c' ∈ Some <$> ts) by (rewrite <- Hts; by apply list_elem_of_fmap_2).
  apply list_elem_of_fmap in Hin as (t' & Ht' & Hin). rewrite Forall_forall in Hf.
  specialize (Hf _ Hin). unfold event_le. simpl. rewrite Hc, Ht'. simpl. rewrite negb_true_iff.
  apply Z.ltb_ge. lia.
Qed.

(** The replay timeline is a faithful merge of the pairs' bars.  It holds exactly the bars of
    the window, in time order; simultaneous bars keep the order of the pairs in the bundle,
    and the bars of each pair keep the order of their file. *)
Theorem timeline_merges (candles : CandleBundle) (startMs endMs : option Z) :
  readable_bundle candles ->
  let tl := buildTimeline candles startMs endMs in
  StronglySorted not_later tl /\
  tl ≡ₚ candles ≫= pair_events startMs endMs /\
  (forall t, filter (fun e => event_ms e = t) tl =
             filter (fun e => event_ms e = t) (candles ≫= pair_events startMs endMs)) /\
  (forall sym b, NoDup candles.*1 -> (sym, b) ∈ candles -> chronological (m15 b) ->
     filter (fun e => ev_symbol e = sym) tl = pair_events startMs endMs (sym, b)).
Proof.
  intros Hr tl. split_and!.
  - by apply timeline_sorted.
  - apply sort_by_perm.
  - intros t. apply sort_by_stable. intros x y Hx Hy. unfold event_le. unfold event_ms in *.
    rewrite Hx, Hy. destruct t as [t|]; [|done]. simpl. by rewrite Z.ltb_irrefl.
  - intros sym b Hnd Hp Hc. unfold tl, buildTimeline. rewrite sort_by_filter_sorted.
    + by apply filter_pair_events.
    + rewrite (filter_pair_events _ _ _ _ b) by done. by apply chronological_window_sorted.
Qed.

(** ** The cursors *)

(** The first [k] bars satisfy [p] ... *)
Definition behind (p : BacktestCandle -> bool) (cs : list BacktestCandle) (k : Z) : Prop :=
  0 <= k <= zlen cs /\ forall i c, zlookup cs i = Some c -> i < k -> p c = true.
(** ... and no other bar does. *)
Definition exactly (p : BacktestCandle -> bool) (cs : list BacktestCandle) (k : Z) : Prop :=
  0 <= k <= zlen cs /\ forall i c, zlookup cs i = Some c -> (i < k <-> p c = true).

Lemma zlookup_pos {A} (l : list A) i : 0 <= i -> zlookup l i = l !! Z.to_nat i.
Proof. intros. unfold zlookup. destruct (Z.ltb_spec i 0); [lia|done]. Qed.

Lemma zlookup_cons_pos {A} (x : A) l i : 0 < i -> zlookup (x :: l) i = zlookup l (i - 1).
Proof.
  intros. rewrite !zlookup_pos by lia. by replace (Z.to_nat i) with (S (Z.to_nat (i - 1))) by lia.
Qed.

Lemma count_while_spec p cs :
  0 <= count_while p cs <= zlen cs /\
  (forall i c, zlookup cs i = Some c -> i < count_while p cs -> p c = true) /\
  (forall c, zlookup cs (count_while p cs) = Some c -> p c = false).
Proof.
  unfold zlen. induction cs as [|c cs (IH1 & IH2 & IH3)]; simpl.
  - split_and!; [lia|lia| |]; [intros i c Hi|intros c Hi]; apply zlookup_Some in Hi; unfold zlen in Hi;
      simpl in Hi; lia.
  - destruct (p c) eqn:Hc.
    + split_and!; [lia|lia| |].
      * intros i x Hi Hlt. destruct (decide (i = 0)) as [->|].
        -- unfold zlookup in Hi. simpl in Hi. by simplify_eq.
        -- pose proof (zlookup_Some _ _ _ Hi). rewrite zlookup_cons_pos in Hi by lia.
           apply (IH2 (i - 1)); [done|lia].
      * intros x Hi. apply IH3. rewrite zlookup_cons_pos in Hi by lia.
        by replace (1 + count_while p cs - 1) with (count_while p cs) in Hi by lia.
    + split_and!; [lia|lia| |].
      * intros i x Hi%zlookup_Some. lia.
      * intros x Hi. unfold zlookup in Hi. simpl in Hi. by simplify_eq.
Qed.

Lemma zlookup_drop {A} (l : list A) k i : 0 <= k -> 0 <= i ->
  zlookup (drop (Z.to_nat k) l) i = zlookup l (k + i).
Proof.
  intros. rewrite !zlookup_pos by lia. rewrite lookup_drop. f_equal. lia.
Qed.

(** A loop that stops at the first bar failing [p] is exact when [p] is an initial segment. *)
Lemma advance_exactly p cs k :
  (forall i j a b, i <= j -> zlookup cs i = Some a -> zlookup cs j = Some b -> p b = true -> p a = true) ->
  behind p cs k -> exactly p cs (advance p cs k).
Proof.
  intros Hmono [Hk Hb]. destruct (count_while_spec p (drop (Z.to_nat k) cs)) as (H1 & H2 & H3).
  unfold exactly, advance. set (n := count_while p (drop (Z.to_nat k) cs)) in *. unfold zlen in *.
  rewrite length_drop in H1. split; [lia|]. intros i c Hi. pose proof (zlookup_Some _ _ _ Hi) as Hr.
  unfold zlen in Hr. split.
  - intros Hlt. destruct (decide (i < k)); [by apply (Hb i)|].
    apply (H2 (i - k)); [|lia]. rewrite zlookup_drop by lia. by replace (k + (i - k)) with i by lia.
  - intros Hp. apply Z.nle_gt. intros Hle.
    destruct (zlookup_is_Some cs (k + n)) as [d Hd]; [unfold zlen; lia|].
    assert (Hf : p d = false) by (apply H3; rewrite zlookup_drop by lia; done).
    rewrite (Hmono (k + n) i d c) in Hf; done.
Qed.

(** What a bar test of the cursors says, on readable bars: closed at most [d] after [now]. *)
Definition within (len d : Z) (now : Z) (c : BacktestCandle) : Prop :=
  exists ms, candle_ms c = Some ms /\ ms + len <= now + d.

Lemma closed_by_within len now c : closed_by len (Some now) c = true <-> within len 1 now c.
Proof.
  unfold closed_by, within. destruct (candle_ms c) as [ms|]; simpl.
  - rewrite Z.leb_le. split; [eauto|]. by intros (? & [= <-] & ?).
  - split; [done|]. by intros (? & ? & _).
Qed.

Lemma opened_by_within now c : opened_by (Some now) c = true <-> within 0 0 now c.
Proof.
  unfold opened_by, within. destruct (candle_ms c) as [ms|]; simpl.
  - rewrite Z.leb_le. split; [intros; exists ms; split; [done|lia]|]. intros (? & [= <-] & ?). lia.
  - split; [done|]. by intros (? & ? & _).
Qed.

Lemma initial_segment (p : BacktestCandle -> bool) len d now cs :
  (forall c, p c = true <-> within len d now c) -> chronological cs ->
  forall i j a b, i <= j -> zlookup cs i = Some a -> zlookup cs j = Some b -> p b = true -> p a = true.
Proof.
  intros Hp Hc i j a b Hij Ha Hb (ms & Hms & Hle)%Hp. apply Hp.
  destruct (chronological_at _ _ _ Hc Ha) as [x Hx]. exists x. split; [done|].
  pose proof (chronological_le _ _ _ _ _ _ _ Hc Hij Ha Hb Hx Hms). lia.
Qed.

Lemma behind_later (p p' : BacktestCandle -> bool) cs k :
  (forall c, p c = true -> p' c = true) -> behind p cs k -> behind p' cs k.
Proof. intros H [Hk Hb]. split; [done|]. eauto. Qed.

Lemma exactly_behind p cs k : exactly p cs k -> behind p cs k.
Proof. intros [Hk H]. split; [done|]. intros i c Hi Hlt. by apply (H i). Qed.

(** The cursor of a pair at time [now], before and after an event advances it. *)
Definition cursor_at (R : (BacktestCandle -> bool) -> list BacktestCandle -> Z -> Prop)
    (now : Z) (b : Bundle) (cur : Cursor) : Prop :=
  R (opened_by (Some now)) (m15 b) (cu_m15 cur) /\
  R (closed_by ms_hour (Some now)) (h1 b) (cu_h1 cur) /\
  R (closed_by ms_day (Some now)) (d1 b) (cu_d1 cur).

Definition ordered_bundle (b : Bundle) : Prop :=
  chronological (m15 b) /\ chronological (h1 b) /\ chronological (d1 b).

Lemma advance_cursor_exact b now cur :
  ordered_bundle b -> cursor_at behind now b cur ->
  cursor_at exactly now b (advance_cursor b (Some now) cur).
Proof.
  intros (H1 & H2 & H3) (C1 & C2 & C3). split_and!; simpl; apply advance_exactly; try done.
  - by eapply initial_segment; [apply opened_by_within|].
  - by eapply initial_segment; [apply closed_by_within|].
  - by eapply initial_segment; [apply closed_by_within|].
Qed.

Lemma cursor_at_later t t' b cur : t <= t' -> cursor_at behind t b cur -> cursor_at behind t' b cur.
Proof.
  intros Ht (C1 & C2 & C3). split_and!; (eapply behind_later; [|done]); intros c.
  - rewrite !opened_by_within. intros (ms & ? & ?). exists ms. split; [done|lia].
  - rewrite !closed_by_within. intros (ms & ? & ?). exists ms. split; [done|lia].
  - rewrite !closed_by_within. intros (ms & ? & ?). exists ms. split; [done|lia].
Qed.

Lemma advance_behind (p p' : BacktestCandle -> bool) cs k :
  (forall c, p' c = true -> p c = true) -> behind p cs k -> behind p cs (advance p' cs k).
Proof.
  intros Hp [Hk Hb]. destruct (count_while_spec p' (drop (Z.to_nat k) cs)) as (H1 & H2 & _).
  unfold behind, advance. set (n := count_while p' (drop (Z.to_nat k) cs)) in *. unfold zlen in *.
  rewrite length_drop in H1. split; [lia|]. intros i c Hi Hlt.
  destruct (decide (i < k)); [by apply (Hb i)|]. apply Hp, (H2 (i - k)); [|lia].
  rewrite zlookup_drop by lia. by replace (k + (i - k)) with i by lia.
Qed.

Lemma advance_cursor_behind b t now cur :
  t <= now -> cursor_at behind now b cur -> cursor_at behind now b (advance_cursor b (Some t) cur).
Proof.
  intros Ht (C1 & C2 & C3). split_and!; simpl; (eapply advance_behind; [|done]); intros c.
  - rewrite !opened_by_within. intros (ms & ? & ?). exists ms. split; [done|lia].
  - rewrite !closed_by_within. intros (ms & ? & ?). exists ms. split; [done|lia].
  - rewrite !closed_by_within. intros (ms & ? & ?). exists ms. split; [done|lia].
Qed.

Section run_facts.
Context {T : TechnicalIndicators} (randomUUID : Z -> string) (ov : Overrides) (env : num).
Context (cfg : ReplayConfig) (candles : CandleBundle).
#[local] Abbreviation step := (step randomUUID ov env cfg candles).
#[local] Abbreviation steps := (steps randomUUID ov env cfg candles).

(** Only the cursor step changes the cursors. *)
Definition with_cursors (m : gmap string Cursor) (s : ReplayState) : Prop := cursors s = m.

Lemma on_orch_cursors {A} (m : M LiveSmcOrchestrator A) cs :
  triple (with_cursors cs) (on_orch m) (fun _ => with_cursors cs).
Proof. intros s s' a Hs. unfold on_orch. destruct (m (orch s)). by intros [= <- ->]. Qed.

Lemma on_broker_cursors {A} (m : M SimulatedBroker A) cs :
  triple (with_cursors cs) (on_broker m) (fun _ => with_cursors cs).
Proof. intros s s' a Hs. unfold on_broker. destruct (m (broker s)). by intros [= <- ->]. Qed.

Lemma report_exits_cursors sym exits cs :
  triple (with_cursors cs) (report_exits ov sym exits) (fun _ => with_cursors cs).
Proof.
  induction exits as [|x exits IH]; simpl; [by apply triple_ret|].
  eapply triple_bind; [by apply (triple_modify _ _ (fun _ => with_cursors cs))|]. intros [].
  eapply triple_bind; [apply on_orch_cursors|]. by intros [].
Qed.

Lemma take_signal_cursors sym c sig cs :
  triple (with_cursors cs) (take_signal randomUUID sym c sig) (fun _ => with_cursors cs).
Proof.
  unfold take_signal. eapply (triple_bind _ _ _ (fun _ => with_cursors cs)); [by apply triple_get|].
  intros s0. destruct (placeOrder _ _ _ _) as [b ps].
  eapply (triple_bind _ _ _ (fun _ => with_cursors cs)); [by apply triple_modify|]. intros [].
  apply triple_if; [apply on_orch_cursors|by apply triple_ret].
Qed.

Lemma step_cursors ind e cs :
  triple (with_cursors cs) (step ind e) (fun _ s =>
    match assoc candles (ev_symbol e) with
    | None => cursors s = cs
    | Some b => exists cur, cs !! ev_symbol e = Some cur /\
                  cursors s = <[ev_symbol e := advance_cursor b (event_ms e) cur]> cs
    end).
Proof.
  unfold ReplayEngine.step. destruct (assoc candles (ev_symbol e)) as [b|]; [|by apply triple_ret].
  apply triple_read. intros s0 Hs0. destruct (cursors s0 !! ev_symbol e) as [cur|] eqn:Hcur; [|apply triple_throw].
  set (cs' := <[ev_symbol e := advance_cursor b (candle_ms (candle e)) cur]> (cursors s0)).
  apply (triple_weaken _ _ _ (fun s => s = s0) (fun _ s => cursors s = cs')); [|done|].
  2: { intros _ s Hs. exists cur. unfold with_cursors in Hs0. subst cs. done. }
  eapply (triple_bind _ _ _ (fun _ => with_cursors cs')); [by apply triple_modify|]. intros [].
  eapply triple_bind; [apply on_broker_cursors|]. intros exits.
  eapply triple_bind; [apply report_exits_cursors|]. intros [].
  apply triple_if; [by apply triple_ret|]. apply triple_read. intros s1 Hs1.
  eapply (triple_bind _ _ _ (fun _ => with_cursors cs')).
  { eapply triple_weaken; [apply (on_orch_cursors _ cs')|by intros s ->|done]. }
  intros signal. eapply (triple_bind _ _ _ (fun _ => with_cursors cs')); [by apply triple_modify|].
  intros []. destruct signal; [apply take_signal_cursors|by apply triple_ret].
Qed.

(** The cursors of the pairs with ordered bars never run ahead of [now]. *)
Definition not_ahead (now : Z) (s : ReplayState) : Prop :=
  forall sym b cur, assoc candles sym = Some b -> cursors s !! sym = Some cur -> cursor_at behind now b cur.

Lemma step_not_ahead ind e t now :
  event_ms e = Some t -> t <= now -> triple (not_ahead now) (step ind e) (fun _ => not_ahead now).
Proof.
  intros He Ht s s' [] Hs E. pose proof (step_cursors ind e (cursors s) s s' tt eq_refl E) as Hc.
  simpl in Hc. intros sym b cur Hb Hcur. destruct (assoc candles (ev_symbol e)) as [b'|] eqn:Hb'.
  - destruct Hc as (cur0 & Hcur0 & Hs'). rewrite Hs' in Hcur.
    destruct (decide (sym = ev_symbol e)) as [->|Hne].
    + rewrite lookup_insert_eq in Hcur. simplify_eq. rewrite He.
      apply advance_cursor_behind; [done|]. by apply (Hs (ev_symbol e)).
    + rewrite lookup_insert_ne in Hcur by done. by apply (Hs sym).
  - rewrite Hc in Hcur. by apply (Hs sym).
Qed.

Lemma steps_not_ahead ind es now :
  Forall (fun e => exists t, event_ms e = Some t /\ t <= now) es ->
  triple (not_ahead now) (steps ind es) (fun _ => not_ahead now).
Proof.
  induction 1 as [|e es (t & He & Ht) _ IH]; [by apply triple_ret|]. simpl.
  eapply triple_bind; [by eapply step_not_ahead|]. by intros [].
Qed.

Lemma steps_app ind es e s s' :
  steps ind (es ++ [e]) s = (s', Ok tt) ->
  exists s1, steps ind es s = (s1, Ok tt) /\ step ind e s1 = (s', Ok tt).
Proof.
  revert s. induction es as [|e' es IH]; intros s; simpl; unfold m_bind.
  - destruct (step ind e s) as [s1 [[]|]] eqn:E; [|done]. intros [= <-]. exists s. done.
  - destruct (step ind e' s) as [s1 [[]|]] eqn:E; [|done]. intros H. apply IH, H.
Qed.

Lemma start_not_ahead o now : not_ahead now (start_state cfg o).
Proof.
  intros sym b cur Hb Hcur. simpl in Hcur.
  assert (Hz : cur = {| cu_m15 := 0; cu_h1 := 0; cu_d1 := 0 |}).
  { revert Hcur. unfold init_cursors. set (z := {| cu_m15 := 0; cu_h1 := 0; cu_d1 := 0 |}).
    assert (Hm : forall k c, (∅ : gmap string Cursor) !! k = Some c -> c = z) by done.
    revert Hm. generalize (∅ : gmap string Cursor). induction (pairs cfg) as [|p ps IH]; intros m Hm.
    - apply Hm.
    - simpl. apply IH. intros k c. rewrite lookup_insert. case_decide; [by intros [= <-]|apply Hm]. }
  subst. unfold cursor_at, behind, zlen. simpl. split_and!; try lia; intros i c Hi Hlt;
    apply zlookup_Some in Hi; lia.
Qed.

(** C34: at every event the evaluator sees exactly the bars that exist by then.  After the loop has
    run up to an event at time [now], the pair's M15 cursor counts exactly the bars opened by
    [now], and the H1 and D1 cursors exactly the bars whose close is at most a millisecond
    later: no closed bar is missing and no later bar is visible through a cursor. *)
Theorem cursors_show_closed_bars (ind : gmap string PrecomputedIndicators) (o : LiveSmcOrchestrator)
    (es rest : list Event) (e : Event) (s : ReplayState) (b : Bundle) :
  readable_bundle candles -> timeline cfg candles = es ++ e :: rest ->
  steps ind (es ++ [e]) (start_state cfg o) = (s, Ok tt) ->
  assoc candles (ev_symbol e) = Some b -> ordered_bundle b ->
  exists now cur, event_ms e = Some now /\ cursors s !! ev_symbol e = Some cur /\
    (forall i c, zlookup (m15 b) i = Some c -> (i < cu_m15 cur <-> within 0 0 now c)) /\
    (forall i c, zlookup (h1 b) i = Some c -> (i < cu_h1 cur <-> within ms_hour 1 now c)) /\
    (forall i c, zlookup (d1 b) i = Some c -> (i < cu_d1 cur <-> within ms_day 1 now c)).
Proof.
  intros Hr Htl Hrun Hb Hord.
  assert (Hread : forall ev, ev ∈ es ++ e :: rest -> is_Some (event_ms ev)).
  { intros ev Hev. rewrite <- Htl in Hev. by eapply timeline_readable. }
  destruct (Hread e) as [now Hnow]; [apply elem_of_app; right; left|].
  assert (Hes : Forall (fun ev => exists t, event_ms ev = Some t /\ t <= now) es).
  { apply Forall_forall. intros ev Hev. destruct (Hread ev) as [t Ht]; [apply elem_of_app; by left|].
    exists t. split; [done|]. pose proof (timeline_sorted candles (Date_parse (startDate cfg)) (Date_parse (endDate cfg)) Hr) as Hs.
    fold (timeline cfg candles) in Hs. rewrite Htl in Hs. apply list_elem_of_lookup in Hev as [i Hi].
    assert (Hle : not_later ev e).
    { eapply (StronglySorted_lookup _ _ i (length es)); [exact Hs| | |by eapply lookup_lt_Some].
      - by apply lookup_app_l_Some.
      - by rewrite lookup_app_r, Nat.sub_diag by done. }
    unfold not_later in Hle. rewrite Ht, Hnow in Hle. simpl in Hle. by apply Z.leb_le. }
  apply steps_app in Hrun as (s1 & Hrun & Hstep).
  pose proof (steps_not_ahead ind es now Hes _ _ _ (start_not_ahead o now) Hrun) as Hbehind.
  pose proof (step_cursors ind e _ _ _ _ eq_refl Hstep) as Hc. simpl in Hc. rewrite Hb in Hc.
  destruct Hc as (cur0 & Hcur0 & Hs). exists now, (advance_cursor b (Some now) cur0).
  rewrite Hnow in Hs. rewrite Hs, lookup_insert_eq. split; [done|]. split; [done|].
  destruct (advance_cursor_exact b now cur0 Hord (Hbehind _ _ _ Hb Hcur0)) as ([_ H1] & [_ H2] & [_ H3]).
  split_and!; intros i c Hi.
  - rewrite <- opened_by_within. by apply H1.
  - rewrite <- closed_by_within. by apply H2.
  - rewrite <- closed_by_within. by apply H3.
Qed.
End run_facts.

(** ** Settlement *)

Lemma evaluate_symbol `{TechnicalIndicators} ov env sym a b c ctx pre cur o o' sig :
  evaluate ov env sym a b c ctx pre cur o = (o', Ok (Some sig)) -> sig_symbol sig = sym.
Proof.
  intros [[_ [=]]|[(e & [=] & _)|(st & v & _ & [_ _ _ Hv _ _ _ _ _] & _ & Hr)]]%evaluate_inv.
  destruct (evaluate_state v ctx env st) as [st' r] eqn:E. simpl in Hr. subst r sym.
  apply evaluate_state_fires in E as (st1 & s & _ & _ & _ & _ & _ & Hf & _). apply Hf.
Qed.

(** Where positions can be, now or when a parked limit fills. *)
Definition confined (F : string -> Prop) (b : SimulatedBroker) : Prop :=
  (forall k l, positions b !! k = Some l -> F k) /\
  (forall k l p, pendingLimits b !! k = Some l -> p ∈ l -> F (sig_symbol (pl_signal p))).

(** [b'] is [b] after the trades [xs], with the same order mode and no identifier taken back;
    when orders fill at market there are no parked limits and [n] positions have been opened. *)
Record moved (b b' : SimulatedBroker) (xs : list ClosedPosition) (n : Z) : Prop := {
  mv_closed : closed b' = closed b ++ xs;
  mv_drawn : drawn b <= drawn b';
  mv_mode : retraceEntry b' = retraceEntry b;
  mv_market : pendingLimits b = ∅ -> retraceEntry b = None ->
              pendingLimits b' = ∅ /\ drawn b' = (drawn b + n)%Z;
}.

Section broker_moves.
Context (randomUUID : Z -> string) (F : string -> Prop).

Lemma fillAt_confined sig entry time sc b :
  F (sig_symbol sig) -> confined F b -> confined F (fillAt randomUUID sig entry time sc b).1.
Proof.
  intros Hsig [H1 H2]. split; simpl; [|done]. intros k l. rewrite lookup_insert.
  case_decide; [by subst|apply H1].
Qed.

Lemma limits_loop_confined c l b : Forall (fun p => F (sig_symbol (pl_signal p))) l -> confined F b ->
  confined F (limits_loop randomUUID c l b).1 /\
  Forall (fun p => F (sig_symbol (pl_signal p))) (limits_loop randomUUID c l b).2 /\
  closed (limits_loop randomUUID c l b).1 = closed b /\
  retraceEntry (limits_loop randomUUID c l b).1 = retraceEntry b /\
  drawn b <= drawn (limits_loop randomUUID c l b).1.
Proof.
  revert b. induction l as [|p l IH]; intros b Hl Hb; [by split_and!|]. inversion Hl; subst. simpl.
  destruct (limit_touched p c).
  - destruct (IH (fillAt randomUUID (pl_signal p) (limitPrice p) (openTime c) (scale p) b).1 H2)
      as (I1 & I2 & I3 & I4 & I5); [by apply fillAt_confined|]. split_and!; try done.
    etrans; [|exact I5]. simpl. unfold zlen. lia.
  - destruct (IH b H2 Hb) as (I1 & I2 & I3 & I4 & I5). destruct (limits_loop randomUUID c l b) as [b' rest].
    simpl in *. split_and!; try done. case_match; [by constructor|done].
Qed.

Lemma processPendingLimits_moved sym c b : confined F b ->
  confined F (processPendingLimits randomUUID sym c b) /\
  moved b (processPendingLimits randomUUID sym c b) [] 0.
Proof.
  intros Hb. unfold processPendingLimits. destruct (pendingLimits b !! sym) as [[|p l]|] eqn:Hl.
  1,3: split; [done|]; constructor; rewrite ?app_nil_r; try done; intros; split; [done|lia].
  destruct (limits_loop_confined c (p :: l) b) as (L1 & L2 & L3 & L4 & L5); [|done|].
  { apply Forall_forall. intros q Hq. by apply (proj2 Hb sym (p :: l)). }
  destruct (limits_loop randomUUID c (p :: l) b) as [b' rest]. simpl in *. destruct L1 as [C1 C2]. split.
  - split; [apply C1|]. simpl. intros k l' q Hk Hq. destruct rest as [|r rest].
    + apply lookup_delete_Some in Hk as [_ Hk]. by apply (C2 k l').
    + rewrite lookup_insert in Hk. case_decide; simplify_eq; [|by apply (C2 k l')].
      rewrite Forall_forall in L2. by apply L2.
  - constructor; simpl; rewrite ?app_nil_r; try done. intros He. by rewrite He in Hl.
Qed.

Lemma processCandle_moved initial sym c b b' xs :
  books randomUUID initial b -> confined F b -> processCandle randomUUID sym c b = (b', Ok xs) ->
  confined F b' /\ moved b b' xs 0.
Proof.
  intros Hbk Hb. destruct (processPendingLimits_moved sym c b Hb) as [[C1 C2] [M1 M0 M2 M3]].
  set (b0 := processPendingLimits randomUUID sym c b) in *.
  destruct (decide (open_of sym b0 = [])) as [He|Hne].
  - unfold processCandle, m_bind, m_modify, m_get, m_ret. fold b0. rewrite He. intros [= <- <-]. done.
  - destruct (getSpread sym (openTime c)) as [spread|] eqn:Hsp.
    + destruct (processCandle_spec randomUUID sym c b spread) as (ys & -> & _); [|done|done|].
      { by apply (processPendingLimits_books randomUUID initial). }
      fold b0. intros [= <- <-]. split.
      * split; simpl; [|done]. intros k l Hk.
        assert (Hsym : exists l0, positions b0 !! sym = Some l0).
        { unfold open_of in Hne. destruct (positions b0 !! sym); [eauto|done]. }
        destruct Hsym as [l0 Hl0]. unfold put_open in Hk. destruct (filter _ _).
        -- apply lookup_delete_Some in Hk as [_ Hk]. by apply (C1 k l).
        -- rewrite lookup_insert in Hk. case_decide; [subst; by apply (C1 k l0)|by apply (C1 k l)].
      * constructor; simpl; [|done..]. by rewrite M1, app_nil_r.
    + unfold processCandle, m_bind, m_modify, m_get, m_lift. fold b0. rewrite Hsp.
      destruct (open_of sym b0); done.
Qed.

Lemma placeOrder_moved sig time b :
  F (sig_symbol sig) -> confined F b ->
  let '(b', ps) := placeOrder randomUUID sig time b in
  confined F b' /\ moved b b' [] (zlen ps) /\
  (retraceEntry b = None -> id <$> ps = randomUUID <$> seqZ (drawn b) (zlen ps)).
Proof.
  intros Hsig Hb. unfold placeOrder. destruct (retraceEntry b) as [r|] eqn:Hr.
  - destruct Hb as [C1 C2]. split_and!; [split; simpl; [done|]|constructor; simpl; rewrite ?app_nil_r|done].
    + intros k l p. rewrite lookup_insert. case_decide; [|apply C2]. intros [= <-] Hp.
      apply elem_of_app in Hp as [Hp|Hp%list_elem_of_singleton]; [|by subst].
      destruct (pendingLimits b !! sig_symbol sig) as [l|] eqn:Hl; simpl in Hp;
        [by apply (C2 (sig_symbol sig) l)|by apply elem_of_nil in Hp].
    + done.
    + done.
    + done.
    + intros _ Hn. congruence.
  - pose proof (fillAt_confined sig (sig_entryPrice sig) time (of_Z 1) b Hsig Hb).
    unfold fillAt in *. cbv zeta in *. simpl in *. split_and!; [done| |].
    + constructor; simpl; rewrite ?app_nil_r; try done. unfold zlen. lia.
    + intros _. rewrite open_legs_ids. f_equal. f_equal. unfold zlen. by rewrite open_legs_length.
Qed.

Lemma closeAll_moved initial sym price time b b' xs :
  books randomUUID initial b -> closeAllForSymbol sym price time b = (b', Ok xs) ->
  moved b b' xs 0 /\ positions b' = delete sym (positions b) /\ pendingLimits b' = pendingLimits b.
Proof.
  intros Hb. unfold closeAllForSymbol, m_bind, m_get, m_modify, m_ret.
  destruct (getInstrumentConfig sym) as [ic|e] eqn:Hic.
  - destruct (close_all_ok (open_of sym b) price time b) as (ys & -> & _).
    { apply (known_all _ sym); [|by rewrite Hic]. intros p Hp. eapply open_of_keyed; [apply Hb|done]. }
    intros [= <- <-]. split; [|by split]. constructor; simpl; try done. intros. split; [done|lia].
  - destruct (open_of sym b) as [|p l] eqn:Ho.
    + intros [= <- <-]. split; [|by split]. constructor; simpl; rewrite ?app_nil_r; try done.
      intros. split; [done|lia].
    + simpl. unfold m_bind, close_position, calcPnl.
      assert (sp_symbol p = sym) as -> by (eapply open_of_keyed; [apply Hb|rewrite Ho; by left]).
      by rewrite Hic.
Qed.
End broker_moves.

Section settle.
Context {T : TechnicalIndicators} (randomUUID : Z -> string) (ov : Overrides) (env : num).
Context (cfg : ReplayConfig) (candles : CandleBundle).

(** The pairs whose positions the end of the run closes. *)
Definition flushable (sym : string) : Prop :=
  sym ∈ pairs cfg /\ exists c, (assoc candles sym ≫= fun b => zlookup (m15 b) (zlen (m15 b) - 1)) = Some c.

(** The state of the loop, when the trades [xs] are closed but not yet reported and at least [lo]
    identifiers are drawn. *)
Record settling (lo : Z) (xs : list ClosedPosition) (s : ReplayState) : Prop := {
  st_books : books randomUUID (rp_initialBalance cfg) (broker s);
  st_closed : closed (broker s) = r_closed s ++ xs;
  st_confined : confined flushable (broker s);
  st_mode : retraceEntry (broker s) = rp_retraceEntry cfg;
  st_opened : rp_retraceEntry cfg = None -> pendingLimits (broker s) = ∅ /\
                id <$> opened s = randomUUID <$> seqZ 0 (drawn (broker s));
  st_cursors : forall sym cur, cursors s !! sym = Some cur -> sym ∈ pairs cfg;
  st_drawn : lo <= drawn (broker s);
}.

Lemma on_orch_settling lo {A} (m : M LiveSmcOrchestrator A) xs :
  triple (settling lo xs) (on_orch m) (fun _ => settling lo xs).
Proof.
  intros s s' a [H1 H2 H3 H4 H5 H6 H7]. unfold on_orch. destruct (m (orch s)). by intros [= <- ->].
Qed.

Lemma report_exits_settling lo sym xs :
  triple (settling lo xs) (report_exits ov sym xs) (fun _ => settling lo []).
Proof.
  induction xs as [|x xs IH]; simpl; [by apply triple_ret|].
  eapply (triple_bind _ _ _ (fun _ => settling lo xs)).
  { apply triple_modify. intros s [H1 H2 H3 H4 H5 H6 H7]. constructor; try done. simpl. by rewrite H2, <- app_assoc. }
  intros []. eapply triple_bind; [apply on_orch_settling|]. by intros [].
Qed.

Lemma processCandle_settling lo sym c :
  triple (settling lo []) (on_broker (processCandle randomUUID sym c)) (settling lo).
Proof.
  intros s s' xs [H1 H2 H3 H4 H5 H6 H7]. unfold on_broker.
  destruct (processCandle randomUUID sym c (broker s)) as [b r] eqn:E. intros [= <- ->].
  pose proof (processCandle_books randomUUID (rp_initialBalance cfg) sym c _ H1) as Hb. rewrite E in Hb.
  destruct (processCandle_moved randomUUID flushable _ sym c _ _ _ H1 H3 E) as [C [M1 M0 M2 M3]].
  constructor; simpl; try done.
  - by rewrite M1, H2, app_nil_r.
  - by rewrite M2.
  - intros Hn. destruct (H5 Hn) as [P1 P2]. destruct (M3 P1) as [Q1 Q2]; [by rewrite H4|].
    split; [done|]. by rewrite Q2, Z.add_0_r.
  - lia.
Qed.

Lemma take_signal_settling lo sym c sig :
  flushable (sig_symbol sig) -> triple (settling lo []) (take_signal randomUUID sym c sig) (fun _ => settling lo []).
Proof.
  intros Hf. unfold take_signal. apply triple_read. intros s0 [H1 H2 H3 H4 H5 H6 H7].
  pose proof (placeOrder_moved randomUUID flushable sig (openTime c) (broker s0) Hf H3) as Hm.
  pose proof (broker_step_books randomUUID _ _ (BOrder sig (openTime c)) H1) as Hb. simpl in Hb.
  destruct (placeOrder randomUUID sig (openTime c) (broker s0)) as [b ps]. destruct Hm as (C & [M1 M0 M2 M3] & Hids).
  eapply (triple_bind _ _ _ (fun _ => settling lo [])).
  - apply triple_modify. intros s ->. constructor; simpl; try done.
    + by rewrite M1, H2, app_nil_r.
    + by rewrite M2.
    + intros Hn. destruct (H5 Hn) as [P1 P2]. rewrite H4 in M3, Hids. destruct (M3 P1 Hn) as [Q1 Q2].
      split; [done|]. rewrite fmap_app, P2, (Hids Hn), Q2.
      rewrite seqZ_app by (apply H1 || apply Zle_0_nat). by rewrite fmap_app.
    + lia.
  - intros []. apply triple_if; [apply on_orch_settling|by apply triple_ret].
Qed.

Lemma step_settling lo ind e :
  (forall b, assoc candles (ev_symbol e) = Some b -> m15 b <> []) ->
  triple (settling lo []) (step randomUUID ov env cfg candles ind e) (fun _ => settling lo []).
Proof.
  intros Hne. unfold step. destruct (assoc candles (ev_symbol e)) as [b|] eqn:Hb; [|by apply triple_ret].
  apply triple_read. intros s0 Hs0. destruct (cursors s0 !! ev_symbol e) as [cur|] eqn:Hcur; [|apply triple_throw].
  assert (Hf : flushable (ev_symbol e)).
  { split; [by eapply st_cursors|]. rewrite Hb. simpl. apply zlookup_is_Some. unfold zlen.
    specialize (Hne b eq_refl). destruct (m15 b); [done|]. simpl. lia. }
  eapply (triple_bind _ _ _ (fun _ => settling lo [])).
  { apply triple_modify. intros s ->. destruct Hs0 as [H1 H2 H3 H4 H5 H6 H7]. constructor; try done.
    simpl. intros sym cu. rewrite lookup_insert. case_decide; [intros _; subst; apply Hf|apply H6]. }
  intros []. eapply triple_bind; [apply processCandle_settling|]. intros xs. simpl.
  eapply triple_bind; [apply report_exits_settling|]. intros [].
  apply triple_if; [by apply triple_ret|]. apply triple_read. intros s1 Hs1.
  eapply (triple_bind _ _ _ (fun sig s => (forall x, sig = Some x -> sig_symbol x = ev_symbol e) /\ settling lo [] s)).
  { intros s s' sig -> E. split.
    - intros x ->. unfold on_orch in E. destruct (evaluate _ _ _ _ _ _ _ _ _ _) as [o' r] eqn:Ev.
      injection E as _ ->. by apply evaluate_symbol in Ev.
    - by eapply on_orch_settling. }
  intros sig. apply triple_pure. intros Hsig. eapply (triple_bind _ _ _ (fun _ => settling lo [])).
  { apply triple_modify. by intros s [H1 H2 H3 H4 H5 H6 H7]. }
  intros []. destruct sig as [x|]; [|by apply triple_ret]. apply take_signal_settling. by rewrite Hsig.
Qed.

Lemma steps_settling lo ind es :
  (forall e b, e ∈ es -> assoc candles (ev_symbol e) = Some b -> m15 b <> []) ->
  triple (settling lo []) (steps randomUUID ov env cfg candles ind es) (fun _ => settling lo []).
Proof.
  induction es as [|e es IH]; intros H; [by apply triple_ret|]. simpl.
  eapply triple_bind; [apply step_settling; intros b; apply H; by left|].
  intros []. apply IH. intros e' b He'. apply H. by right.
Qed.

Lemma flush_settling lo ps :
  triple (fun s => settling lo [] s /\ forall k l, positions (broker s) !! k = Some l -> k ∈ ps)
         (flush candles ps) (fun _ s => settling lo [] s /\ positions (broker s) = ∅).
Proof.
  induction ps as [|sym ps IH]; simpl.
  - apply triple_ret. intros s [Hs Hk]. split; [done|]. apply map_empty. intros k.
    destruct (positions (broker s) !! k) eqn:E; [|done]. by apply Hk, elem_of_nil in E.
  - destruct (assoc candles sym ≫= _) as [c|] eqn:Hc.
    + intros s s' [] [[H1 H2 H3 H4 H5 H6 H7] Hk]. unfold m_bind, on_broker, m_modify.
      destruct (closeAllForSymbol sym (close c) (openTime c) (broker s)) as [b [xs|]] eqn:E; [|done].
      destruct (closeAll_moved randomUUID _ _ _ _ _ _ _ H1 E) as ([M1 M0 M2 M3] & Hp & Hlim).
      pose proof (closeAll_books randomUUID _ sym (close c) (openTime c) _ H1) as Hb. rewrite E in Hb.
      intros Hrun. eapply IH; [|exact Hrun]. split; [constructor; simpl; try done|].
      * by rewrite M1, H2, !app_nil_r.
      * destruct H3 as [C1 C2]. split; rewrite ?Hp, ?Hlim; [|done].
        intros k l [_ Hkl]%lookup_delete_Some. by apply (C1 k l).
      * by rewrite M2.
      * intros Hn. destruct (H5 Hn) as [P1 P2]. destruct (M3 P1) as [Q1 Q2]; [by rewrite H4|].
        split; [done|]. by rewrite Q2, Z.add_0_r.
      * lia.
      * simpl. intros k l. rewrite Hp. intros [Hne Hkl]%lookup_delete_Some.
        apply Hk in Hkl. by apply elem_of_cons in Hkl as [->|].
    + eapply triple_weaken; [exact IH| |done]. intros s [Hs Hk]. split; [done|]. intros k l Hkl.
      pose proof (Hk _ _ Hkl) as Hin. apply elem_of_cons in Hin as [->|]; [|done].
      destruct (proj1 (st_confined _ _ _ Hs) _ _ Hkl) as [_ [x Hx]]. congruence.
Qed.

Lemma assoc_elem {A} (l : list (string * A)) k x : NoDup l.*1 -> (k, x) ∈ l -> assoc l k = Some x.
Proof.
  induction l as [|[k' x'] l IH]; [by intros _ ?%elem_of_nil|]. rewrite fmap_cons, NoDup_cons. simpl.
  intros [Hn Hnd] [[= <- <-]|Hin]%elem_of_cons; [by rewrite String.eqb_refl|].
  destruct (String.eqb_spec k' k) as [->|]; [|by apply IH].
  exfalso. apply Hn. by apply (list_elem_of_fmap_2 fst _ (k, x)).
Qed.

Lemma timeline_nonempty e b :
  NoDup candles.*1 -> e ∈ timeline cfg candles -> assoc candles (ev_symbol e) = Some b -> m15 b <> [].
Proof.
  intros Hnd (b' & Hb' & Hc & _)%elem_of_timeline Hb. rewrite (assoc_elem _ _ _ Hnd Hb') in Hb.
  simplify_eq. intros Hnil. rewrite Hnil in Hc. by apply elem_of_nil in Hc.
Qed.

Lemma start_settling o : settling 0 [] (start_state cfg o).
Proof.
  assert (Hc : forall ps (m : gmap string Cursor), (forall k c, m !! k = Some c -> k ∈ pairs cfg) ->
    (forall p, p ∈ ps -> p ∈ pairs cfg) -> forall sym (cur : Cursor),
    fold_left (fun m sym => <[sym := {| cu_m15 := 0; cu_h1 := 0; cu_d1 := 0 |}]> m) ps m !! sym = Some cur ->
    sym ∈ pairs cfg).
  { induction ps as [|p ps IH]; intros m Hm Hps; simpl; [apply Hm|].
    apply IH; [|intros q Hq; apply Hps; by right]. intros k c. rewrite lookup_insert.
    case_decide; [intros _; subst; apply Hps; by left|apply Hm]. }
  constructor; simpl; try done. by apply Hc.
Qed.

(** The positions of [closedAll] that count as wins and as losses. *)
Lemma wins_losses l : Forall (fun t => is_nan (cp_pnl t) = false) l ->
  zlen (List.filter (fun t => nltb (of_Z 0) (cp_pnl t)) l) +
  zlen (List.filter (fun t => nleb (cp_pnl t) (of_Z 0)) l) = zlen l.
Proof.
  unfold zlen. induction 1 as [|t l Ht _ IH]; [done|]. simpl.
  destruct (nltb (of_Z 0) (cp_pnl t)) eqn:Hw.
  - rewrite (nltb_not_nleb _ _ Hw). simpl. lia.
  - rewrite (nltb_false_nleb (of_Z 0) (cp_pnl t)) by (done || by vm_compute). simpl. lia.
Qed.

Lemma steps_split ind es1 : forall es2 s,
  steps randomUUID ov env cfg candles ind (es1 ++ es2) s =
  m_bind (steps randomUUID ov env cfg candles ind es1)
         (fun _ => steps randomUUID ov env cfg candles ind es2) s.
Proof.
  unfold m_bind. induction es1 as [|e es1 IH]; intros es2 s; [done|]. simpl. unfold m_bind.
  destruct (step _ _ _ _ _ _ _ _) as [s1 [[]|]]; [apply IH|done].
Qed.

(** The identifiers of the trades of a run. *)
Definition trade_ids (l : list ClosedPosition) : list string := (fun c => id (cp_pos c)) <$> l.

(** From a state of the loop with [lo] identifiers drawn, the rest of the run settles. *)
Lemma rest_settles ind es lo :
  (forall e b, e ∈ es -> assoc candles (ev_symbol e) = Some b -> m15 b <> []) ->
  triple (settling lo [])
    (do! steps randomUUID ov env cfg candles ind es ;; flush candles (pairs cfg))%js
    (fun _ s => settling lo [] s /\ positions (broker s) = ∅).
Proof.
  intros Hne. eapply triple_bind; [by apply steps_settling|]. intros [].
  eapply triple_weaken; [apply (flush_settling lo (pairs cfg))| |done]. intros s0 Hs0. split; [done|].
  intros k l Hk. by apply (proj1 (st_confined _ _ _ Hs0) k l).
Qed.

(** The end of a run: the indicators it computed, and what its last state says. *)
Lemma run_ends o r s :
  run_body randomUUID ov env cfg candles (start_state cfg o) = (s, Ok r) ->
  exists ind, precompute_all candles (pairs cfg) ∅ = Ok ind /\
    (do! steps randomUUID ov env cfg candles ind (timeline cfg candles) ;; flush candles (pairs cfg))%js
      (start_state cfg o) = (s, Ok tt) /\
    rr_opened r = opened s /\ rr_closed r = r_closed s /\ rr_finalBalance r = balance (broker s) /\
    metrics r = replay_metrics cfg (closed (broker s)).
Proof.
  unfold run_body, m_bind, m_lift, m_get, m_ret. destruct (precompute_all _ _ _) as [ind|]; [|done].
  destruct (steps _ _ _ _ _ _ _ _) as [s1 [[]|]] eqn:Hs; [|done].
  destruct (flush candles (pairs cfg) s1) as [s2 [[]|]] eqn:Hf; [|done]. intros [= <- <-].
  exists ind. rewrite Hs, Hf. by split_and!.
Qed.

(** What a settled run promises, [s] its last state and [ind] the indicators it computed. *)
Record settled (o o' : LiveSmcOrchestrator) (r : ReplayResult) (ind : gmap string PrecomputedIndicators)
    (s : ReplayState) : Prop := {
  sd_ind : precompute_all candles (pairs cfg) ∅ = Ok ind;
  sd_last : run_body randomUUID ov env cfg candles (start_state cfg o) = (s, Ok r) /\ o' = orch s;
  sd_trades : rr_closed r = closed (broker s);
  sd_balance : rr_finalBalance r = nsum (rp_initialBalance cfg) (cp_pnl <$> rr_closed r);
  sd_none_open : positions (broker s) = ∅;
  sd_once : trade_ids (rr_closed r) ≡ₚ randomUUID <$> seqZ 0 (drawn (broker s));
  sd_prefix : forall es1 es2 s1, timeline cfg candles = es1 ++ es2 ->
    steps randomUUID ov env cfg candles ind es1 (start_state cfg o) = (s1, Ok tt) ->
    (id <$> all_of (positions (broker s1))) ++ trade_ids (closed (broker s1)) ⊆+ trade_ids (rr_closed r);
  sd_market : rp_retraceEntry cfg = None -> trade_ids (rr_closed r) ≡ₚ id <$> rr_opened r;
  sd_count : tradesCount (metrics r) = zlen (rr_closed r);
  sd_wins : winsCount (metrics r) = zlen (List.filter (fun t => nltb (of_Z 0) (cp_pnl t)) (rr_closed r));
  sd_losses : lossesCount (metrics r) = zlen (List.filter (fun t => nleb (cp_pnl t) (of_Z 0)) (rr_closed r));
  sd_realized : realizedPnl (metrics r) = round2 (nsum (of_Z 0) (cp_pnl <$> rr_closed r));
  sd_total : Forall (fun t => is_nan (cp_pnl t) = false) (rr_closed r) ->
    winsCount (metrics r) + lossesCount (metrics r) = tradesCount (metrics r);
}.

Lemma run_settles (o o' : LiveSmcOrchestrator) (r : ReplayResult) :
  NoDup candles.*1 -> run randomUUID ov env cfg candles o = (o', Ok r) ->
  exists ind s, settled o o' r ind s.
Proof.
  intros Hnd. unfold run. destruct (run_body _ _ _ _ _ _) as [s res] eqn:E. intros [= <- ->].
  destruct (run_ends _ _ _ E) as (ind & Hi & Hrun & Ho & Hc & Hf & Hm). exists ind, s.
  assert (Hne : forall e b, e ∈ timeline cfg candles -> assoc candles (ev_symbol e) = Some b -> m15 b <> [])
    by (intros e b He; by apply timeline_nonempty).
  destruct (rest_settles ind _ 0 Hne _ _ _ (start_settling o) Hrun) as ([[B1 B2 B3 B4 B5] H2 H3 H4 H5 H6 H7] & Hp).
  rewrite app_nil_r in H2. rewrite <- H2 in Hc. unfold ids in B2. rewrite Hp in B2. simpl in B2.
  constructor; rewrite ?Hm, ?Hf, ?Ho, ?Hc; try done.
  - intros es1 es2 s1 Ht Hs1. rewrite Ht in Hrun, Hne. unfold m_bind in Hrun. rewrite steps_split in Hrun.
    unfold m_bind in Hrun. rewrite Hs1 in Hrun.
    assert (Hst : settling 0 [] s1).
    { eapply (steps_settling 0 ind es1); [|apply (start_settling o)|exact Hs1].
      intros e b He. apply Hne, elem_of_app. by left. }
    assert (Hst' : settling (drawn (broker s1)) [] s1) by (destruct Hst; by constructor).
    destruct (rest_settles ind es2 (drawn (broker s1))) with (s := s1) (s' := s) (a := tt) as [Hend _]; try done.
    { intros e b He. apply Hne, elem_of_app. by right. }
    fold (ids (broker s1)). rewrite (bk_ids _ _ _ (st_books _ _ _ Hst)). unfold trade_ids. rewrite B2.
    pose proof (bk_drawn _ _ _ (st_books _ _ _ Hst)). pose proof (st_drawn _ _ _ Hend).
    replace (drawn (broker s)) with (drawn (broker s1) + (drawn (broker s) - drawn (broker s1))) by lia.
    rewrite seqZ_app, fmap_app by lia. apply submseteq_inserts_r. done.
  - intros Hn. destruct (H5 Hn) as [_ Hids]. unfold trade_ids. by rewrite Hids.
  - intros Hn. by apply wins_losses.
Qed.

(** C4: a finished replay has settled.  Its trades are all the account closed; the final balance
    is the initial balance plus their booked profits, in order; no position is left open; the
    trades carry, each exactly once, the identifiers the account drew, one for every position
    it opened (at market or when a parked limit filled), so that whatever was open or closed
    after any number of events is, exactly once, among the trades at the end; without the
    retrace experiment these are exactly the positions reported as opened.  The metrics are
    those of the trades: their number, the number of those with a profit above 0 and of those
    with one of at most 0 (together all, when no profit is NaN), and the sum of their profits
    rounded to cents. *)
Theorem replay_settles (o o' : LiveSmcOrchestrator) (r : ReplayResult) :
  NoDup candles.*1 -> run randomUUID ov env cfg candles o = (o', Ok r) ->
  exists ind s, settled o o' r ind s.
Proof. apply run_settles. Qed.
End settle.

(** ** What the D1 bias reads *)
Lemma chronological_take cs n : chronological cs -> chronological (take n cs).
Proof.
  intros (ts & Hts & Hs). exists (take n ts). split; [|by apply StronglySorted_take].
  by rewrite !fmap_take, Hts.
Qed.

(** The replay's D1 bias looks ahead of its cursor.  When the day that is still open is in the D1
    file, as in every replay of history, [getD1Bias] on the full array (which is what the
    engine passes) reads that day's finished bar, while on the slice the cursor stands for it
    reads the last closed day. *)
Theorem replay_bias_reads_open_day (b : Bundle) (now : Z) (cur : Cursor) (c : BacktestCandle) :
  ordered_bundle b -> cursor_at exactly now b cur ->
  zlookup (d1 b) (cu_d1 cur) = Some c -> within 0 0 now c ->
  cu_d1 cur <= index_at (d1 b) (Some now) /\
  index_at (take (Z.to_nat (cu_d1 cur)) (d1 b)) (Some now) = cu_d1 cur - 1.
Proof.
  intros (_ & _ & Hd) (_ & _ & [Hr Hx]) Hc (ms & Hms & Hle). split.
  - destruct (index_at_last (d1 b) now Hd) as [_ H]. apply (H _ _ _ Hc Hms). lia.
  - set (cs := take (Z.to_nat (cu_d1 cur)) (d1 b)).
    assert (Hcs : chronological cs) by by apply chronological_take.
    apply (last_at_or_before_unique cs now); [done|by apply index_at_last|].
    assert (Hlen : zlen cs = cu_d1 cur) by (unfold cs, zlen in *; rewrite length_take; lia).
    split; [lia|]. intros i x m Hi Hm. pose proof (zlookup_Some _ _ _ Hi) as Hb. rewrite Hlen in Hb.
    split; [|lia]. intros _.
    assert (Hi' : zlookup (d1 b) i = Some x).
    { unfold cs in Hi. rewrite zlookup_pos in * by lia. rewrite lookup_take_lt in Hi by lia. done. }
    apply (Hx i x) in Hi' as [Hi' _]. destruct (proj1 (closed_by_within _ _ _) (Hi' (proj2 Hb))) as (m' & Hm' & Hle').
    simplify_eq. unfold ms_day in *. lia.
Qed.
