(* ===== verification/ReplayExamples.v ===== *)
(** * A replay on concrete bars

    Gold sweeps the previous day's high in the morning of 14 March 2024; the replay sells, is
    stopped out on the next bar and settles.  The hypotheses of the replay's theorems are
    met by this run. *)
From S2P Require Import Prelude JsNum JsDate Types Instruments NewsCalendar Indicators SweepDetector SweepFacts.
From S2P Require Import Orchestrator OrchestratorFacts SimBroker ReplayEngine ReplayFacts.

(** A library whose averages are the values themselves, with a constant range and trend. *)
#[local] Instance calm_lib : TechnicalIndicators := {|
  EMA _ l := l; SMA _ l := l; RSI _ _ := []; ATR _ _ _ c := repeat (of_Z 4) (length c);
  ADX _ _ _ c := repeat (of_Z 20, of_Z 20, of_Z 20) (length c) |}.

(** Up to 08:00 on the 14th; the bar of 07:00 sweeps 2010 up to 2013 and closes at 2008. *)
Definition rx_h1 : list BacktestCandle :=
  Eval vm_compute in
  (fun k => demo_bar_at "H1" (demo_day + (3 + k) * ms_hour) 2000
              (if k =? 10 then 2010 else if k =? 28 then 2013 else 2005)
              (if k =? 28 then 1999 else 1995) (if k =? 28 then 2008 else 2004)) <$> up_from 0 29.

(** Up to 09:15 on the 14th; the last bar runs through the stop. *)
Definition rx_m15 : list BacktestCandle :=
  Eval vm_compute in
  (fun k => demo_bar_at "M15" (demo_day + 33 * ms_hour - (30 - k) * 900000) 2006
              (if k =? 31 then 2020 else 2009) 2005 2008) <$> up_from 0 31.

(** 31 days, the last one the 13th, and the 14th itself. *)
Definition rx_d1 : list BacktestCandle :=
  Eval vm_compute in
  (fun k => demo_bar_at "D1" (demo_day + (k - 30) * ms_day) 2000 2010 1990 2005) <$> up_from 0 31.

Definition rx_bundle : CandleBundle := [("XAUUSD"%string, {| m15 := rx_m15; h1 := rx_h1; d1 := rx_d1 |})].

Definition rx_cfg : ReplayConfig := {|
  startDate := "2024-03-13"; endDate := "2024-03-15"; rp_initialBalance := of_Z 10000;
  rp_riskPercent := lit 15 1; pairs := ["XAUUSD"%string]; rp_maxOpenPositions := None; logDecisions := Some true;
  rp_runnerTrail := fun t => t; rp_retraceEntry := None |}.

Definition rx_run : LiveSmcOrchestrator * Res ReplayResult :=
  run demo_uuid ∅ (lit 15 1) rx_cfg rx_bundle new_LiveSmcOrchestrator.

Lemma rx_settled : match rx_run.2 with
  | Ok r => length (rr_closed r) = 2%nat /\ decision <$> default [] (rr_decisions r) = ["SIGNAL"; "cooldown"]%string
  | Throw _ => False end.
Proof. vm_compute. auto. Qed.

Lemma replay_settles_witness :
  exists o r, rx_run = (o, Ok r) /\ length (rr_closed r) = 2%nat /\
    rr_finalBalance r = nsum (of_Z 10000) (cp_pnl <$> rr_closed r) /\
    trade_ids (rr_closed r) ≡ₚ id <$> rr_opened r /\
    winsCount (metrics r) = zlen (List.filter (fun t => nltb (of_Z 0) (cp_pnl t)) (rr_closed r)).
Proof.
  pose proof rx_settled as H. destruct rx_run as [o [r|e]] eqn:E; [|by destruct H].
  exists o, r. destruct (replay_settles demo_uuid ∅ (lit 15 1) rx_cfg rx_bundle new_LiveSmcOrchestrator o r)
    as (ind & s & [_ _ _ H1 _ _ _ H2 _ H3 _ _ _]).
  - apply NoDup_singleton.
  - exact E.
  - split; [done|]. split; [apply H|]. split; [exact H1|]. split; [by apply H2|exact H3].
Defined.

(** A computable test of time order. *)
Definition times (cs : list BacktestCandle) : list Z := (fun c => default (-1) (candle_ms c)) <$> cs.

Lemma chronological_times cs :
  forallb (fun t => 0 <=? t) (times cs) = true -> nondecreasing (times cs) = true -> chronological cs.
Proof.
  intros Hall Hs. exists (times cs). split; [|by apply nondecreasing_sorted].
  clear Hs. induction cs as [|c cs IH]; [done|]. simpl in Hall. apply andb_true_iff in Hall as [Hc Hall].
  unfold times. rewrite !fmap_cons. fold (times cs). rewrite (IH Hall). by destruct (candle_ms c).
Qed.

Lemma rx_ordered : ordered_bundle {| m15 := rx_m15; h1 := rx_h1; d1 := rx_d1 |}.
Proof. split_and!; apply chronological_times; vm_compute; reflexivity. Qed.

Lemma rx_readable : readable_bundle rx_bundle.
Proof.
  intros p c Hp Hc. unfold rx_bundle in Hp. apply list_elem_of_singleton in Hp as ->.
  destruct rx_ordered as [Hm _]. apply list_elem_of_lookup in Hc as [i Hi]. simpl in *.
  rewrite <- zlookup_nth in Hi. by destruct (chronological_at _ _ _ Hm Hi) as [ms ->].
Qed.

Lemma timeline_merges_witness :
  length (timeline rx_cfg rx_bundle) = 32%nat /\ StronglySorted not_later (timeline rx_cfg rx_bundle).
Proof.
  split; [vm_compute; reflexivity|]. apply (timeline_merges rx_bundle). exact rx_readable.
Defined.

(** The event of 09:00, the 31st. *)
Definition rx_before : list Event := take 30 (timeline rx_cfg rx_bundle).
Definition rx_event : Event := {| ev_symbol := "XAUUSD"; candle := default (demo_bar_at "" 0 0 0 0 0) (rx_m15 !! 30%nat) |}.

Lemma rx_timeline : timeline rx_cfg rx_bundle = rx_before ++ rx_event :: drop 31 (timeline rx_cfg rx_bundle).
Proof. vm_compute. reflexivity. Qed.

Definition rx_at_nine : ReplayState * Res unit :=
  steps demo_uuid ∅ (lit 15 1) rx_cfg rx_bundle ∅ (rx_before ++ [rx_event])
    (start_state rx_cfg new_LiveSmcOrchestrator).

Lemma rx_at_nine_ok : is_ok rx_at_nine.2 = true.
Proof. vm_compute. reflexivity. Qed.

Lemma cursors_show_closed_bars_witness :
  exists now cur, event_ms rx_event = Some now /\ cursors rx_at_nine.1 !! "XAUUSD"%string = Some cur /\
    forall i c, zlookup rx_h1 i = Some c -> (i < cu_h1 cur <-> within ms_hour 1 now c).
Proof.
  pose proof rx_at_nine_ok as Hok. destruct rx_at_nine as [s [[]|]] eqn:E; [|discriminate Hok].
  unfold rx_at_nine in E.
  destruct (cursors_show_closed_bars demo_uuid ∅ (lit 15 1) rx_cfg rx_bundle ∅ new_LiveSmcOrchestrator
              rx_before (drop 31 (timeline rx_cfg rx_bundle)) rx_event s
              {| m15 := rx_m15; h1 := rx_h1; d1 := rx_d1 |})
    as (now & cur & H1 & H2 & _ & H3 & _).
  - exact rx_readable.
  - exact rx_timeline.
  - exact E.
  - reflexivity.
  - exact rx_ordered.
  - exists now, cur. split; [exact H1|]. split; [exact H2|exact H3].
Defined.

Lemma rx_cursor_at_nine :
  cursor_at exactly (demo_day + 33 * ms_hour) {| m15 := rx_m15; h1 := rx_h1; d1 := rx_d1 |}
    {| cu_m15 := 31; cu_h1 := 30; cu_d1 := 31 |}.
Proof.
  assert (Ha : advance_cursor {| m15 := rx_m15; h1 := rx_h1; d1 := rx_d1 |} (Some (demo_day + 33 * ms_hour))
                 {| cu_m15 := 0; cu_h1 := 0; cu_d1 := 0 |} = {| cu_m15 := 31; cu_h1 := 30; cu_d1 := 31 |})
    by (vm_compute; reflexivity).
  rewrite <- Ha. apply advance_cursor_exact; [exact rx_ordered|].
  split_and!; (split; [vm_compute; split; discriminate|]); intros i x Hi Hlt; simpl in Hlt;
    apply zlookup_Some in Hi; lia.
Qed.

Lemma replay_bias_reads_open_day_witness :
  let now := demo_day + 33 * ms_hour in
  31 <= index_at rx_d1 (Some now) /\ index_at (take 31 rx_d1) (Some now) = 30.
Proof.
  destruct (zlookup rx_d1 31) as [c|] eqn:Hc; [|vm_compute in Hc; discriminate Hc].
  apply (replay_bias_reads_open_day {| m15 := rx_m15; h1 := rx_h1; d1 := rx_d1 |} (demo_day + 33 * ms_hour)
           {| cu_m15 := 31; cu_h1 := 30; cu_d1 := 31 |} c).
  - exact rx_ordered.
  - exact rx_cursor_at_nine.
  - exact Hc.
  - vm_compute in Hc. injection Hc as <-. eexists. split; [vm_compute; reflexivity|discriminate].
Defined.
