(* ===== verification/SmcEngine.v ===== *)
(** * SMC backtest engine

    src/backtest/engine/smc/smc-engine.ts (function runSmcBacktest): the per-pair backtest, one
    turn of its loop per M15 bar, with its own risk manager, performance tracker, open
    positions, queue and cooldown. *)
From S2P Require Import Prelude JsNum JsDate Types Instruments NewsCalendar RiskManager PositionSimulator.
From S2P Require Import SweepDetector Indicators.
From S2P Require PerformanceTracker.
Local Open Scope num_scope.

Definition inKillzone (time : string) (zones : list (Z * Z)) : bool :=
  match getUTCHours <$> Date_parse time with
  | Some h => existsb (fun z => (z.1 <=? h)%Z && (h <? z.2)%Z) zones
  | None => false
  end.

(** The binary search is the one of the sweep detector. *)
Definition indexForTime (candles : list BacktestCandle) (time : string) : Z :=
  index_at candles (Date_parse time).

Definition d1AdxAt (d1Candles : list BacktestCandle) (d1 : option IndicatorState) (time : string) : num :=
  match d1 with
  | None => of_Z 0
  | Some d =>
      if (zlen d1Candles =? 0)%Z then of_Z 0
      else
        let idx := indexForTime d1Candles time in
        if (idx <? 0)%Z then of_Z 0
        else let adx := ind (adx14 d) idx in if is_nan adx then of_Z 0 else adx
  end.

(** The local variables the loop changes. *)
Record EngineState := {
  rm : RiskManager;
  tracker : PerformanceTracker.PerformanceTracker;
  openPositions : list SimulatedPosition;
  closed : list ClosedTrade;
  pending : list PendingSetup;
  lastProcessedH1 : Z;
  cooldownUntil : Z;
}.

Definition set_rm (r : RiskManager) (s : EngineState) : EngineState := {|
  rm := r; tracker := tracker s; openPositions := openPositions s; closed := closed s;
  pending := pending s; lastProcessedH1 := lastProcessedH1 s; cooldownUntil := cooldownUntil s |}.
Definition set_open (l : list SimulatedPosition) (s : EngineState) : EngineState := {|
  rm := rm s; tracker := tracker s; openPositions := l; closed := closed s;
  pending := pending s; lastProcessedH1 := lastProcessedH1 s; cooldownUntil := cooldownUntil s |}.
Definition set_pending (l : list PendingSetup) (s : EngineState) : EngineState := {|
  rm := rm s; tracker := tracker s; openPositions := openPositions s; closed := closed s;
  pending := l; lastProcessedH1 := lastProcessedH1 s; cooldownUntil := cooldownUntil s |}.
Definition set_lastProcessedH1 (i : Z) (s : EngineState) : EngineState := {|
  rm := rm s; tracker := tracker s; openPositions := openPositions s; closed := closed s;
  pending := pending s; lastProcessedH1 := i; cooldownUntil := cooldownUntil s |}.
Definition set_cooldownUntil (i : Z) (s : EngineState) : EngineState := {|
  rm := rm s; tracker := tracker s; openPositions := openPositions s; closed := closed s;
  pending := pending s; lastProcessedH1 := lastProcessedH1 s; cooldownUntil := i |}.
(** [tracker.recordTrade(result); closed.push(result)] *)
Definition push_trade (t : ClosedTrade) (s : EngineState) : EngineState := {|
  rm := rm s; tracker := PerformanceTracker.recordTrade t (tracker s); openPositions := openPositions s;
  closed := closed s ++ [t]; pending := pending s; lastProcessedH1 := lastProcessedH1 s;
  cooldownUntil := cooldownUntil s |}.

(** A call on the engine's risk manager. *)
Definition on_rm {A} (m : M RiskManager A) : M EngineState A := fun s =>
  let '(r, a) := m (rm s) in (set_rm r s, a).

(** What [runSmcBacktest] computes before its loop. *)
Record Setup := {
  econfig : EngineConfig;
  icfg : InstrumentConfig;
  cfg : SmcPairConfig;
  m15Candles : list BacktestCandle;
  h1Candles : list BacktestCandle;
  d1Candles : list BacktestCandle;
  m15Indicators : IndicatorState;
  h1Indicators : IndicatorState;
  d1Indicators : option IndicatorState;
}.

Definition factor (u : Setup) : num := price_factor (icfg u).
Definition commission_of (u : Setup) (p : SimulatedPosition) : num := lotSize p * commissionPerLot (icfg u).

(** ** 1. Open positions *)

Definition record_result (t : ClosedTrade) (time : string) : M EngineState unit :=
  (do! on_rm (recordTrade (pnl t) time (Some (exitReason t))) ;; m_modify (push_trade t))%js.

Definition cooldown_after (u : Setup) (i : Z) (why : ExitReason) : Z :=
  match why with TP => (i + 2)%Z | SL => (i + slCooldownBars (cfg u))%Z | _ => (i + 1)%Z end.

(** The exit loop runs from the last position to the first and removes what closed; the
    answer is what stays. *)
Fixpoint exits (u : Setup) (i : Z) (c : BacktestCandle) (spread : num) (l : list SimulatedPosition)
    : M EngineState (list SimulatedPosition) :=
  match l with
  | [] => m_ret []
  | p :: l' =>
      (rest <-- exits u i c spread l' ;;
       match checkPositionExit p c spread (commission_of u p) (lotSizeUnits (icfg u))
               (Some (symbol (econfig u))) with
       | None => m_ret (p :: rest)
       | Some t =>
           do! record_result t (openTime c) ;;
           do! m_modify (set_cooldownUntil (cooldown_after u i (exitReason t))) ;;
           m_ret rest
       end)%js
  end.

Definition manage_open (u : Setup) (i : Z) (c : BacktestCandle) (spread : num) : M EngineState unit :=
  (s <-- m_get ;;
   still <-- exits u i c spread ((fun p => updatePositionManagement p c spread) <$> openPositions s) ;;
   m_modify (set_open still))%js.

(** ** 2. Sweep detection on a new closed H1 bar *)
Definition detect (u : Setup) (c : BacktestCandle) (h1Idx : Z) : M EngineState unit :=
  (s <-- m_get ;;
   let closedH1Idx := (h1Idx - 1)%Z in
   if (lastProcessedH1 s <? h1Idx)%Z && (1 <=? h1Idx)%Z && (lastProcessedH1 s <? closedH1Idx)%Z then
     let d1Bias := match d1Indicators u with
                   | Some d => getD1Bias (d1Candles u) d (openTime c)
                   | None => NEUTRAL
                   end in
     let d1Adx := d1AdxAt (d1Candles u) (d1Indicators u) (openTime c) in
     do! (if d1Adx >=? d1AdxFloor (cfg u) then
            found <-- m_lift (detectSweep (h1Candles u) (h1Indicators u) closedH1Idx d1Bias d1Adx (cfg u)
                                (Some (d1Candles u)) (d1Indicators u) (Some (openTime c))) ;;
            match found with
            | Some x => if bool_decide (mode x ∈ default [] (disabledModes (cfg u))) then m_ret tt
                        else m_modify (fun s => set_pending (pending s ++ [x]) s)
            | None => m_ret tt
            end
          else m_ret tt) ;;
     m_modify (set_lastProcessedH1 closedH1Idx)
   else m_ret tt)%js.

(** ** 3. Expiry *)
Definition expire (h1Idx : Z) (s : EngineState) : EngineState :=
  set_pending (List.filter (fun x => (h1Idx <=? expiresAtH1Idx x)%Z) (pending s)) s.

(** ** 4. Gates *)
Definition gates (u : Setup) (i : Z) (c : BacktestCandle) : M EngineState bool :=
  (s <-- m_get ;;
   let minutes := default 0%Z (newsBlackoutMinutes (cfg u)) in
   if (i <=? cooldownUntil s)%Z then m_ret false
   else if (0 <? minutes)%Z && isInBlackout (openTime c) minutes then m_ret false
   else
     ok <-- on_rm (canTrade (substring10 (openTime c)) (zlen (openPositions s))) ;;
     m_ret (ok && inKillzone (openTime c) (killzones (cfg u))))%js.

(** ** 5. Entry *)
Definition m15_atr (u : Setup) (i : Z) : num := ind (atr14 (m15Indicators u)) i.

Definition sl_buffer (u : Setup) (i : Z) (x : PendingSetup) : num :=
  if negb (is_nan (m15_atr u i)) then m15_atr u i * slBufferAtrM15 (cfg u)
  else sweepCandleAtr x * slBufferAtrM15 (cfg u).

Definition entry_price (c : BacktestCandle) (spread : num) (d : Side) : num :=
  match d with BUY => close c + spread / of_Z 2 | SELL => close c - spread / of_Z 2 end.

Definition sl_price (u : Setup) (i : Z) (x : PendingSetup) : num :=
  match mode x, direction x with
  | CONTINUATION, BUY => sweepCandleLow x - sl_buffer u i x
  | CONTINUATION, SELL => sweepCandleHigh x + sl_buffer u i x
  | REVERSAL, BUY => sweepWick x - sl_buffer u i x
  | REVERSAL, SELL => sweepWick x + sl_buffer u i x
  end.

(** The maximum-stop filter. *)
Definition too_wide (u : Setup) (i : Z) (slPoints : num) : bool :=
  let cap := default (of_Z 0) (maxSlAtrM15 (cfg u)) in
  (cap >? of_Z 0) && negb (is_nan (m15_atr u i)) && (m15_atr u i >? of_Z 0) &&
  (slPoints / m15_atr u i >? cap).

Definition uses_ladder (u : Setup) : bool := tp1PartialFraction (cfg u) >? of_Z 0.
Definition too_small (u : Setup) (lot : num) : bool :=
  if uses_ladder u then lot <? lit 2 2 else lot <? lit 1 2.
Definition target (d : Side) (entry slPoints r : num) : num :=
  match d with BUY => entry + slPoints * r | SELL => entry - slPoints * r end.
Definition round_price (u : Setup) (n : num) : num := Math_round (n * factor u) / factor u.

Definition session (c : BacktestCandle) : string :=
  match getUTCHours <$> candle_ms c with
  | Some h => if (h <? 12)%Z then "LONDON" else "NY"
  | None => "NY"
  end.

(** [{ ...baseFields, lotSize, tpPrice, setupTags, trailConfig }] *)
Definition position (u : Setup) (i : Z) (c : BacktestCandle) (x : PendingSetup) (entry lot tp : num)
    (tag : string) (trail : RegimeTradeParams) : SimulatedPosition := {|
  side := direction x;
  entryPrice := round_price u entry;
  slPrice := round_price u (sl_price u i x);
  tpPrice := Some (round_price u tp);
  originalSlPrice := round_price u (sl_price u i x);
  breakevenActivated := false;
  peakFavorablePrice := entry;
  lotSize := lot;
  entryTime := openTime c;
  entryIndex := i;
  setupTags := ["SMC"; "SWEEP"; session c; mode_string (mode x); tag]%string;
  h1Bias := match direction x with BUY => "BULLISH" | SELL => "BEARISH" end;
  rsiAtEntry := default (of_Z 50) (zlookup (rsi14 (m15Indicators u)) i);
  atrAtEntry := if negb (is_nan (m15_atr u i)) then m15_atr u i else sweepCandleAtr x;
  trailConfig := Some trail;
  regimeAtEntry := Some WEAK_TREND |}.

Inductive Verdict :=
| Skip
| Drop
| Enter (ps : list SimulatedPosition).

(** The positions of a sized setup. *)
Definition open_setup (u : Setup) (i : Z) (c : BacktestCandle) (x : PendingSetup)
    (entry slPoints lot : num) : Verdict :=
  let tp2 := target (direction x) entry slPoints (tp2R (cfg u)) in
  if negb (uses_ladder u) then Enter [position u i c x entry lot tp2 "RUNNER" SMC_RUNNER_TRAIL]
  else
    let tp1Lot := Math_max (lit 1 2) (Math_round (lot * tp1PartialFraction (cfg u) * of_Z 100) / of_Z 100) in
    let runnerLot := Math_max (lit 1 2) (Math_round ((lot - tp1Lot) * of_Z 100) / of_Z 100) in
    if (tp1Lot <? lit 1 2) || (runnerLot <? lit 1 2) then Skip
    else
      let tp1 := target (direction x) entry slPoints (tp1R (cfg u)) in
      Enter [position u i c x entry tp1Lot tp1 "TP1" SMC_TP1_TRAIL;
             position u i c x entry runnerLot tp2 "RUNNER" SMC_RUNNER_TRAIL].

Definition try_entry (u : Setup) (i : Z) (c : BacktestCandle) (spread : num)
    (opens : list SimulatedPosition) (r : RiskManager) (x : PendingSetup) : Verdict :=
  if existsb (fun p => bool_decide (side p = direction x)) opens then Skip
  else
    let entry := entry_price c spread (direction x) in
    let slPoints := nabs (entry - sl_price u i x) in
    if slPoints <=? of_Z 0 then Drop
    else if too_wide u i slPoints then Drop
    else
      let totalLot := calculateLotSize slPoints (Some (of_Z 60)) (Some WEAK_TREND) (Some (of_Z 50))
                        (Some entry) r in
      if too_small u totalLot then Skip else open_setup u i c x entry slPoints totalLot.

(** The loop from the newest setup to the oldest. *)
Fixpoint entry_loop (u : Setup) (i : Z) (c : BacktestCandle) (spread : num) (idxs : list Z)
    : M EngineState unit :=
  match idxs with
  | [] => m_ret tt
  | k :: rest =>
      (s <-- m_get ;;
       match zlookup (pending s) k with
       | None => m_throw "TypeError: Cannot read properties of undefined"
       | Some x =>
           match try_entry u i c spread (openPositions s) (rm s) x with
           | Skip => entry_loop u i c spread rest
           | Drop => do! m_modify (set_pending (splice1 k (pending s))) ;; entry_loop u i c spread rest
           | Enter ps => m_modify (fun s => set_cooldownUntil (i + 1)
                           (set_pending (splice1 k (pending s)) (set_open (openPositions s ++ ps) s)))
           end
       end)%js
  end.

Definition enter (u : Setup) (i : Z) (c : BacktestCandle) (spread : num) : M EngineState unit :=
  (s <-- m_get ;; entry_loop u i c spread (down_from (zlen (pending s) - 1) 0))%js.

(** ** The loop *)
Definition bar (u : Setup) (i : Z) (c : BacktestCandle) : M EngineState unit :=
  (spread <-- m_lift (getSpread (symbol (econfig u)) (openTime c)) ;;
   do! manage_open u i c spread ;;
   let h1Idx := indexForTime (h1Candles u) (openTime c) in
   do! detect u c h1Idx ;;
   do! m_modify (expire h1Idx) ;;
   go <-- gates u i c ;;
   if go then enter u i c spread else m_ret tt)%js.

Fixpoint bars (u : Setup) (i : Z) (cs : list BacktestCandle) : M EngineState unit :=
  match cs with
  | [] => m_ret tt
  | c :: cs' => (do! bar u i c ;; bars u (i + 1)%Z cs')%js
  end.

(** The force-close at the last candle. *)
Fixpoint force_close (u : Setup) (c : BacktestCandle) (l : list SimulatedPosition) : M EngineState unit :=
  match l with
  | [] => m_ret tt
  | p :: l' =>
      (do! record_result (forceClosePosition p (close c) (openTime c) (commission_of u p)
                            (lotSizeUnits (icfg u)) (Some (symbol (econfig u)))) (openTime c) ;;
       force_close u c l')%js
  end.

Definition finish (u : Setup) : M EngineState unit :=
  (s <-- m_get ;;
   match zlookup (m15Candles u) (zlen (m15Candles u) - 1) with
   | Some c => force_close u c (openPositions s)
   | None => m_ret tt
   end)%js.

Definition initial_state (r : RiskManager) : EngineState := {|
  rm := r; tracker := PerformanceTracker.new_PerformanceTracker; openPositions := []; closed := [];
  pending := []; lastProcessedH1 := -1; cooldownUntil := -1 |}.

Section engine.
Context `{TechnicalIndicators} (ov : Overrides).

Definition prepare (m15 h1 d1 : list BacktestCandle) (ec : EngineConfig) (ic : InstrumentConfig)
    (pc : SmcPairConfig) : Res Setup :=
  (mi <-! computeIndicators m15 ;;
   hi <-! computeIndicators h1 ;;
   di <-! (if (0 <? zlen d1)%Z then res_map Some (computeIndicators d1) else Ok None) ;;
   Ok {| econfig := ec; icfg := ic; cfg := pc; m15Candles := m15; h1Candles := h1; d1Candles := d1;
         m15Indicators := mi; h1Indicators := hi; d1Indicators := di |})%js.

(** The state after the run, for the trades and the metrics the function returns. *)
Definition run_engine (u : Setup) : Res EngineState :=
  (r <-! new_RiskManager (econfig u) ;;
   match ((do! bars u 0 (m15Candles u) ;; finish u)%js (initial_state r)) with
   | (s, Ok _) => Ok s
   | (_, Throw e) => Throw e
   end)%js.

Definition runSmcBacktest (m15 h1 d1 : list BacktestCandle) (ec : EngineConfig)
    : Res (list ClosedTrade * PerformanceTracker.BacktestMetrics) :=
  (ic <-! getInstrumentConfig (symbol ec) ;;
   pc <-! getSmcPairConfig ov (symbol ec) ;;
   if (zlen h1 <? 30)%Z then Ok ([], PerformanceTracker.calculateMetrics [] (initialBalance ec))
   else
     u <-! prepare m15 h1 d1 ec ic pc ;;
     s <-! run_engine u ;;
     Ok (closed s, PerformanceTracker.calculateMetrics (closed s) (initialBalance ec)))%js.
End engine.
