(* ===== verification/SmcEngineFacts.v ===== *)
(** * Properties of the SMC backtest engine

    One ladder per side, entries only on quiet and permitted bars, and books that agree
    between the risk manager, the performance tracker and the returned trades.  The last
    part shows an entry whose stop is on the wrong side. *)
From S2P Require Import Prelude JsNum JsDate Types Instruments NewsCalendar RiskManager RiskFacts PositionSimulator.
From S2P Require Import SweepDetector Indicators SmcEngine.
From S2P Require PerformanceTracker.

(** ** Open positions *)
Lemma update_fields p c spread :
  side (updatePositionManagement p c spread) = side p /\
  entryIndex (updatePositionManagement p c spread) = entryIndex p.
Proof. unfold updatePositionManagement. repeat case_match; done. Qed.

(** Before bar [i]: the positions of a side come from one entry of an earlier bar, at most two. *)
Record ladders (i : Z) (l : list SimulatedPosition) : Prop := {
  ld_index : forall p, p ∈ l -> entryIndex p < i;
  ld_one : forall p q, p ∈ l -> q ∈ l -> side p = side q -> entryIndex p = entryIndex q;
  ld_two : forall d, (length (filter (fun p => side p = d) l) <= 2)%nat;
}.

Lemma ladders_later i j l : i <= j -> ladders i l -> ladders j l.
Proof. intros Hij [H1 H2 H3]. constructor; try done. intros p Hp. specialize (H1 p Hp). lia. Qed.

Lemma ladders_update i c spread l :
  ladders i l -> ladders i ((fun p => updatePositionManagement p c spread) <$> l).
Proof.
  intros [H1 H2 H3]. constructor.
  - intros p (q & -> & Hq)%list_elem_of_fmap. rewrite (proj2 (update_fields _ _ _)). by apply H1.
  - intros p q (p' & -> & Hp)%list_elem_of_fmap (q' & -> & Hq)%list_elem_of_fmap.
    destruct (update_fields p' c spread) as [-> ->], (update_fields q' c spread) as [-> ->]. by apply H2.
  - intros d. rewrite filter_fmap_len. rewrite (list_filter_iff _ (fun p => side p = d)); [apply H3|].
     intros p. by rewrite (proj1 (update_fields _ _ _)).
Qed.

Lemma filter_sublist {A} (P : A -> Prop) `{!forall a, Decision (P a)} (k l : list A) :
  k `sublist_of` l -> filter P k `sublist_of` filter P l.
Proof.
  induction 1 as [|x k l _ IH|x k l _ IH]; [done| |]; rewrite !filter_cons; case_decide; try done;
    by constructor.
Qed.

Lemma filter_none {A} (P : A -> Prop) `{!forall a, Decision (P a)} (l : list A) :
  (forall x, x ∈ l -> ~ P x) -> filter P l = [].
Proof.
  induction l as [|x l IH]; intros Hl; [done|]. rewrite filter_cons, decide_False by (apply Hl; left).
  apply IH. intros y Hy. apply Hl. by right.
Qed.

Lemma ladders_sublist i l k : k `sublist_of` l -> ladders i l -> ladders i k.
Proof.
  intros Hs [H1 H2 H3]. assert (Hin : forall p, p ∈ k -> p ∈ l).
  { intros p Hp. by eapply elem_of_sublist. }
  constructor; [auto|auto|]. intros d. etrans; [|apply (H3 d)].
  by apply sublist_length, filter_sublist.
Qed.

Lemma ladders_enter i l ps d :
  ladders i l -> (forall p, p ∈ l -> side p <> d) -> (length ps <= 2)%nat ->
  Forall (fun p => side p = d /\ entryIndex p = i) ps -> ladders (i + 1) (l ++ ps).
Proof.
  intros [H1 H2 H3] Hd Hlen Hps. rewrite Forall_forall in Hps. constructor.
  - intros p [Hp|Hp]%elem_of_app; [specialize (H1 p Hp); lia|]. destruct (Hps p Hp). lia.
  - intros p q [Hp|Hp]%elem_of_app [Hq|Hq]%elem_of_app Hs.
    + by apply H2.
    + destruct (Hps q Hq) as [Hqd _]. exfalso. apply (Hd p Hp). congruence.
    + destruct (Hps p Hp) as [Hpd _]. exfalso. apply (Hd q Hq). congruence.
    + destruct (Hps p Hp), (Hps q Hq). congruence.
  - intros e. rewrite filter_app, length_app. destruct (decide (e = d)) as [->|Hne].
    + rewrite (filter_none (fun p => side p = d) l) by done.
      pose proof (length_filter (fun p => side p = d) ps). simpl. lia.
    + rewrite (filter_none (fun p => side p = e) ps); [specialize (H3 e); simpl; lia|].
      intros p Hp. destruct (Hps p Hp). congruence.
Qed.

(** ** One bar, part by part *)

(** The exits of a bar, from the state [s0]: what stays is a part of what was open, all of it when
    no trade closed; a trade closed on the bar starts a cooldown that covers the bar. *)
Lemma exits_spec u i c spread l s0 : 0 <= slCooldownBars (cfg u) ->
  triple (fun s => s = s0) (exits u i c spread l) (fun rest s =>
    rest `sublist_of` l /\ exists ts, closed s = closed s0 ++ ts /\
    (ts = [] -> rest = l /\ s = s0) /\ (ts <> [] -> i <= cooldownUntil s)).
Proof.
  intros Hsl. induction l as [|p l IH]; simpl.
  - apply triple_ret. intros s ->. split; [done|]. exists []. by rewrite app_nil_r.
  - eapply triple_bind; [exact IH|]. intros rest. simpl.
    destruct (checkPositionExit _ _ _ _ _ _) as [t|].
    + eapply (triple_bind _ _ _ (fun _ s => rest `sublist_of` l /\
        exists ts, closed s = closed s0 ++ ts /\ ts <> [])).
      { intros s s' [] (Hs & ts & Hc & _). unfold record_result, m_bind, on_rm, m_modify.
        destruct (recordTrade _ _ _ _) as [r [[]|]]; [|done]. intros [= <-]. simpl. split; [done|].
        exists (ts ++ [t]). rewrite Hc, <- app_assoc. split; [done|]. by destruct ts. }
      intros []. eapply (triple_bind _ _ _ (fun _ s => rest `sublist_of` l /\
        exists ts, closed s = closed s0 ++ ts /\ ts <> [] /\ i <= cooldownUntil s)).
      { apply triple_modify. intros s (Hs & ts & Hc & Hne). simpl. split; [done|].
        exists ts. split; [done|]. split; [done|]. unfold cooldown_after. case_match; lia. }
      intros []. apply triple_ret. intros s (Hs & ts & Hc & Hne & Hi).
      split; [by apply sublist_cons|]. by exists ts.
    + apply triple_ret. intros s (Hs & ts & Hc & H1 & H2). split; [by apply sublist_skip|].
      exists ts. split; [done|]. split; [|done]. intros Hts. by destruct (H1 Hts) as [-> ->].
Qed.

(** The open positions after the management of bar [c]. *)
Definition managed (c : BacktestCandle) (spread : num) (s : EngineState) : list SimulatedPosition :=
  (fun p => updatePositionManagement p c spread) <$> openPositions s.

Lemma manage_open_spec u i c spread s0 : 0 <= slCooldownBars (cfg u) -> ladders i (openPositions s0) ->
  triple (fun s => s = s0) (manage_open u i c spread) (fun _ s =>
    ladders i (openPositions s) /\ exists ts, closed s = closed s0 ++ ts /\
    (ts = [] -> s = set_open (managed c spread s0) s0) /\ (ts <> [] -> i <= cooldownUntil s)).
Proof.
  intros Hsl Hl. unfold manage_open. apply triple_read. intros s1 ->.
  eapply triple_bind; [by apply exits_spec|]. intros rest. apply triple_modify.
  intros s (Hs & ts & Hc & H1 & H2). simpl. split.
  - eapply ladders_sublist; [exact Hs|]. by apply ladders_update.
  - exists ts. split; [done|]. split; [|done]. intros Hts. by destruct (H1 Hts) as [-> ->].
Qed.

(** What the parts between the exits and the entries keep: the positions, the trades, the
    cooldown and the risk manager. *)
Definition holds_still (s0 s : EngineState) : Prop :=
  openPositions s = openPositions s0 /\ closed s = closed s0 /\ cooldownUntil s = cooldownUntil s0 /\ rm s = rm s0.

(** A setup that the bar can enter: it was queued, or the detector finds it now on the last
    closed H1 bar and its mode is not disabled. *)
Definition available (u : Setup) (c : BacktestCandle) (s0 : EngineState) (x : PendingSetup) : Prop :=
  x ∈ pending s0 \/
  detectSweep (h1Candles u) (h1Indicators u) (indexForTime (h1Candles u) (openTime c) - 1)
    (match d1Indicators u with Some d => getD1Bias (d1Candles u) d (openTime c) | None => NEUTRAL end)
    (d1AdxAt (d1Candles u) (d1Indicators u) (openTime c)) (cfg u)
    (Some (d1Candles u)) (d1Indicators u) (Some (openTime c)) = Ok (Some x) /\
  mode x ∉ default [] (disabledModes (cfg u)) /\
  nleb (d1AdxFloor (cfg u)) (d1AdxAt (d1Candles u) (d1Indicators u) (openTime c)) = true.

Lemma detect_still u c s0 :
  triple (fun s => s = s0) (detect u c (indexForTime (h1Candles u) (openTime c))) (fun _ s =>
    holds_still s0 s /\ forall x, x ∈ pending s -> available u c s0 x).
Proof.
  intros s s' [] ->. unfold detect, m_bind, m_get, m_ret, m_lift, m_modify. cbv zeta.
  set (h1Idx := indexForTime _ _). destruct (_ && _); [|intros [= <-]; split; [done|by left]].
  destruct (nleb (d1AdxFloor _) _) eqn:Hadx; [|intros [= <-]; split; [done|by left]].
  destruct (detectSweep _ _ _ _ _ _ _ _ _) as [[y|]|] eqn:Hd; [|intros [= <-]; split; [done|by left]|done].
  case_bool_decide as Hm; intros [= <-]; (split; [done|]); [by left|]. simpl. intros x Hx.
  apply elem_of_app in Hx as [Hx|Hx%list_elem_of_singleton]; [by left|subst x]. by right.
Qed.

(** The gates of an entry on bar [i]: from the state [s0] the risk manager ends up as [r]. *)
Record open_gates (u : Setup) (i : Z) (c : BacktestCandle) (s0 : EngineState) (r : RiskManager) : Prop := {
  og_cooldown : cooldownUntil s0 < i;
  og_news : 0 < default 0 (newsBlackoutMinutes (cfg u)) ->
            isInBlackout (openTime c) (default 0 (newsBlackoutMinutes (cfg u))) = false;
  og_zone : inKillzone (openTime c) (killzones (cfg u)) = true;
  og_risk : canTrade (substring10 (openTime c)) (zlen (openPositions s0)) (rm s0) = (r, Ok true);
}.

Lemma gates_spec u i c s0 :
  triple (fun s => s = s0) (gates u i c) (fun go s =>
    openPositions s = openPositions s0 /\ closed s = closed s0 /\ cooldownUntil s = cooldownUntil s0 /\
    pending s = pending s0 /\ (go = true -> open_gates u i c s0 (rm s))).
Proof.
  intros s s' go ->. unfold gates, m_bind, m_get, m_ret, on_rm.
  destruct (Z.leb_spec i (cooldownUntil s0)); [by intros [= <- <-]|].
  destruct (_ && _) eqn:Hnews; [by intros [= <- <-]|].
  destruct (canTrade _ _ _) as [r [ok|e]] eqn:Hct; [|done]. intros [= <- <-]. split_and!; try done.
  intros [-> Hz]%andb_true_iff. constructor; simpl; try done.
  intros Hm. apply andb_false_iff in Hnews as [Hn|Hn]; [|done]. apply Z.ltb_ge in Hn. lia.
Qed.

(** The positions a setup opens. *)
Lemma open_setup_positions u i c x entry slPoints lot ps :
  open_setup u i c x entry slPoints lot = Enter ps ->
  (1 <= length ps <= 2)%nat /\ Forall (fun p => side p = direction x /\ entryIndex p = i) ps.
Proof.
  unfold open_setup. repeat case_match; intros [= <-]; simpl; (split; [lia|]); repeat constructor.
Qed.

Lemma try_entry_positions u i c spread opens r x ps :
  try_entry u i c spread opens r x = Enter ps ->
  (forall p, p ∈ opens -> side p <> direction x) /\
  (1 <= length ps <= 2)%nat /\ Forall (fun p => side p = direction x /\ entryIndex p = i) ps.
Proof.
  unfold try_entry. destruct (existsb _ opens) eqn:Hs; [done|]. cbv zeta. repeat (case_match; try done).
  intros Ho. split; [|exact (open_setup_positions _ _ _ _ _ _ _ _ Ho)].
  intros p Hp Hd. assert (Ht : existsb (fun p => bool_decide (side p = direction x)) opens = true).
  { apply existsb_exists. exists p. split; [by apply list_elem_of_In|]. by apply bool_decide_eq_true. }
  congruence.
Qed.

(** An entry on bar [i] from the state [s0]: some setup of the queue passed [try_entry]. *)
Definition entered (u : Setup) (i : Z) (c : BacktestCandle) (spread : num) (s0 s : EngineState) : Prop :=
  exists x ps, x ∈ pending s0 /\ try_entry u i c spread (openPositions s0) (rm s0) x = Enter ps /\
    openPositions s = openPositions s0 ++ ps /\ closed s = closed s0 /\ rm s = rm s0 /\ cooldownUntil s = i + 1.

Lemma splice1_elem {A} k (l : list A) x : x ∈ splice1 k l -> x ∈ l.
Proof. unfold splice1. case_match; [done|]. by apply list_elem_of_delete_inv. Qed.

Lemma entry_loop_spec u i c spread idxs s0 :
  triple (fun s => holds_still s0 s /\ forall x, x ∈ pending s -> x ∈ pending s0) (entry_loop u i c spread idxs)
    (fun _ s => holds_still s0 s \/ entered u i c spread s0 s).
Proof.
  induction idxs as [|k idxs IH]; simpl; [apply triple_ret; intros s [H _]; by left|].
  apply triple_read. intros s1 [(H1 & H2 & H3 & H4) Hp].
  destruct (zlookup (pending s1) k) as [x|] eqn:Hx; [|apply triple_throw].
  destruct (try_entry u i c spread (openPositions s1) (rm s1) x) as [| |ps] eqn:Ht.
  - eapply triple_weaken; [exact IH|by intros s ->|done].
  - eapply (triple_bind _ _ _ (fun _ s => holds_still s0 s /\ forall x, x ∈ pending s -> x ∈ pending s0)).
    + apply triple_modify. intros s ->. split; [done|]. intros y Hy. by apply Hp, (splice1_elem k).
    + by intros [].
  - apply triple_modify. intros s ->. right. exists x, ps. rewrite <- H1, <- H2, <- H4.
    split_and!; try done. apply Hp. unfold zlookup in Hx. case_match; [done|]. by eapply list_elem_of_lookup_2.
Qed.

(** An entry on bar [i] with candle [c], from the state [s0] before the bar to [s] after it. *)
Record bar_entry (u : Setup) (i : Z) (c : BacktestCandle) (s0 s : EngineState) (spread : num)
    (x : PendingSetup) (ps : list SimulatedPosition) : Prop := {
  be_spread : getSpread (symbol (econfig u)) (openTime c) = Ok spread;
  be_no_exit : closed s = closed s0;
  be_open : openPositions s = managed c spread s0 ++ ps;
  be_cooldown : cooldownUntil s0 < i;
  be_news : 0 < default 0 (newsBlackoutMinutes (cfg u)) ->
            isInBlackout (openTime c) (default 0 (newsBlackoutMinutes (cfg u))) = false;
  be_zone : inKillzone (openTime c) (killzones (cfg u)) = true;
  be_risk : canTrade (substring10 (openTime c)) (zlen (openPositions s0)) (rm s0) = (rm s, Ok true);
  be_setup : available u c s0 x;
  be_fresh : indexForTime (h1Candles u) (openTime c) <= expiresAtH1Idx x;
  be_enter : try_entry u i c spread (managed c spread s0) (rm s) x = Enter ps;
  be_side : forall p, p ∈ openPositions s0 -> side p <> direction x;
  be_ladder : (1 <= length ps <= 2)%nat /\ Forall (fun p => side p = direction x /\ entryIndex p = i) ps;
  be_next : cooldownUntil s = i + 1;
}.

Lemma managed_elem c spread s p : p ∈ openPositions s -> updatePositionManagement p c spread ∈ managed c spread s.
Proof. apply (list_elem_of_fmap_2 (fun p => updatePositionManagement p c spread)). Qed.

(** The rest of a bar, after the exits. *)
Lemma rest_of_bar u i c spread s1 s :
  (let h1Idx := indexForTime (h1Candles u) (openTime c) in
   do! detect u c h1Idx ;; do! m_modify (expire h1Idx) ;;
   go <-- gates u i c ;; if go then enter u i c spread else m_ret tt)%js s1 = (s, Ok tt) ->
  openPositions s = openPositions s1 /\ closed s = closed s1 \/
  exists x ps, open_gates u i c s1 (rm s) /\ available u c s1 x /\
    indexForTime (h1Candles u) (openTime c) <= expiresAtH1Idx x /\
    try_entry u i c spread (openPositions s1) (rm s) x = Enter ps /\
    openPositions s = openPositions s1 ++ ps /\ closed s = closed s1 /\ cooldownUntil s = i + 1.
Proof.
  cbv zeta. set (h1Idx := indexForTime _ _). intros Hrest.
  unfold m_bind at 1 in Hrest. destruct (detect u c h1Idx s1) as [s2 [[]|]] eqn:E2; [|done].
  apply (detect_still u c s1) in E2 as ((A1 & A2 & A3 & A4) & Hav); [|done]. unfold m_bind at 1, m_modify in Hrest.
  unfold m_bind in Hrest. destruct (gates u i c (expire h1Idx s2)) as [s3 [go|]] eqn:E3; [|done].
  apply (gates_spec u i c (expire h1Idx s2)) in E3 as (B1 & B2 & B3 & B4 & Hog); [|done].
  simpl in B1, B2, B3. rewrite A1 in B1. rewrite A2 in B2. rewrite A3 in B3.
  destruct go; [|injection Hrest as <-; by left].
  unfold enter, m_get in Hrest.
  apply (entry_loop_spec u i c spread _ s3) in Hrest as [(C1 & C2 & _)|(x & ps & Hx & Ht & C1 & C2 & C3 & C4)];
    [left; by rewrite C1, C2| |by split_and!].
  right. exists x, ps. rewrite C1, C2, C3, <- B1, <- B2. rewrite B4 in Hx.
  apply list_elem_of_In, List.filter_In in Hx as [Hx He]. apply list_elem_of_In in Hx. apply Z.leb_le in He.
  split; [|split_and!; [by apply Hav|done..]].
  destruct (Hog eq_refl) as [G1 G2 G3 G4]. simpl in G1, G4. rewrite A3 in G1. rewrite A1, A4 in G4. by constructor.
Qed.

Lemma bar_spec u i c s0 s : 0 <= slCooldownBars (cfg u) -> ladders i (openPositions s0) ->
  bar u i c s0 = (s, Ok tt) ->
  ladders (i + 1) (openPositions s) /\
  ((exists p, p ∈ openPositions s /\ entryIndex p = i) -> exists spread x ps, bar_entry u i c s0 s spread x ps).
Proof.
  intros Hsl Hl. unfold bar, m_bind at 1, m_lift.
  destruct (getSpread _ _) as [spread|] eqn:Hsp; [|done]. unfold m_bind at 1.
  destruct (manage_open u i c spread s0) as [s1 [[]|]] eqn:E1; [|done].
  apply (manage_open_spec u i c spread s0 Hsl Hl) in E1 as (L1 & ts & Hc & Hnil & Hcons); [|done].
  intros [[A1 A2]|(x & ps & [G1 G2 G3 G4] & Hav & Hex & Ht & Ho & Hcl & Hcd)]%rest_of_bar.
  { rewrite A1. split; [eapply ladders_later; [|done]; lia|]. intros (p & Hp & Hi).
    pose proof (ld_index _ _ L1 p Hp). lia. }
  assert (ts = []) as ->.
  { destruct ts as [|t ts]; [done|]. pose proof (Hcons ltac:(done)). lia. }
  specialize (Hnil eq_refl). subst s1. simpl in *. rewrite app_nil_r in Hc.
  destruct (try_entry_positions _ _ _ _ _ _ _ _ Ht) as (Hd & Hlen & Hps). rewrite Ho. split.
  - by apply (ladders_enter i _ ps (direction x)); [|done|lia|].
  - intros _. exists spread, x, ps. constructor; try done.
    + unfold managed in G4. unfold zlen in *. by rewrite length_fmap in G4.
    + intros p Hp. rewrite <- (proj1 (update_fields p c spread)). by apply Hd, managed_elem.
Qed.

Lemma bars_ladders u cs : 0 <= slCooldownBars (cfg u) -> forall i,
  triple (fun s => ladders i (openPositions s)) (bars u i cs) (fun _ s => ladders (i + zlen cs) (openPositions s)).
Proof.
  intros Hsl. induction cs as [|c cs IH]; intros i; simpl.
  - apply triple_ret. intros s Hs. eapply ladders_later; [|done]. unfold zlen. simpl. lia.
  - eapply (triple_bind _ _ _ (fun _ s => ladders (i + 1) (openPositions s))).
    + intros s s' [] Hs E. by apply (bar_spec u i c s s').
    + intros []. eapply triple_weaken; [apply IH|done|]. intros a s Hs. eapply ladders_later; [|exact Hs].
      unfold zlen. simpl. lia.
Qed.

(** C10: the backtest enters with discipline.  After every bar the open positions of a side come from
    one entry, at most two of them.  A bar that opens positions closed no trade and opened them
    all for one setup, one or two of them, on a side on which nothing was open; it lies past the
    cooldown the bars before it left, inside a killzone, outside the news blackout; the risk
    manager, as the bars before it left it, permits trading beside the positions that were open;
    the setup was queued or found on this bar, is of a mode that is not disabled when found, and
    has not expired; and the bar starts the one-bar cooldown. *)
Theorem backtest_entry_discipline (u : Setup) (r : RiskManager) (cs rest : list BacktestCandle)
    (c : BacktestCandle) (s0 s : EngineState) :
  0 <= slCooldownBars (cfg u) -> m15Candles u = cs ++ c :: rest ->
  bars u 0 cs (initial_state r) = (s0, Ok tt) -> bar u (zlen cs) c s0 = (s, Ok tt) ->
  ladders (zlen cs + 1) (openPositions s) /\
  ((exists p, p ∈ openPositions s /\ entryIndex p = zlen cs) ->
     exists spread x ps, bar_entry u (zlen cs) c s0 s spread x ps).
Proof.
  intros Hsl _ Hpre Hbar. apply bar_spec; [done| |done].
  apply (bars_ladders u cs Hsl 0 _ _ tt) in Hpre; [done|].
  constructor; simpl; [by intros p ?%elem_of_nil|by intros p q ?%elem_of_nil|lia].
Qed.

(** ** Books *)

(** The risk manager and the tracker have seen exactly the closed trades. *)
Definition agree (initial : num) (s : EngineState) : Prop :=
  balance (state (rm s)) = nsum initial (pnl <$> closed s) /\
  tracker s = PerformanceTracker.record_all (closed s).

Lemma record_result_agree initial t time :
  triple (agree initial) (record_result t time) (fun _ => agree initial).
Proof.
  intros s s' [] [Hb Ht]. unfold record_result, m_bind, on_rm, m_modify.
  destruct (recordTrade (pnl t) time (Some (exitReason t)) (rm s)) as [r [[]|]] eqn:E; [|done].
  intros [= <-]. destruct (recordTrade_tail (pnl t) time (Some (exitReason t)) (rm s)) as (r1 & -> & Hr & _).
  rewrite E, book_trade_balance in Hr. simpl in Hr. split; simpl.
  - rewrite Hr, Hb, fmap_app. unfold nsum. by rewrite fold_left_app.
  - by rewrite Ht, PerformanceTracker.record_all_snoc.
Qed.

Lemma exits_agree initial u i c spread l :
  triple (agree initial) (exits u i c spread l) (fun _ => agree initial).
Proof.
  induction l as [|p l IH]; simpl; [by apply triple_ret|].
  eapply triple_bind; [exact IH|]. intros rest. destruct (checkPositionExit _ _ _ _ _ _) as [t|].
  - eapply triple_bind; [apply record_result_agree|]. intros [].
    eapply (triple_bind _ _ _ (fun _ => agree initial)); [by apply triple_modify|]. intros [].
    by apply triple_ret.
  - by apply triple_ret.
Qed.

Lemma entry_loop_agree initial u i c spread idxs :
  triple (agree initial) (entry_loop u i c spread idxs) (fun _ => agree initial).
Proof.
  induction idxs as [|k idxs IH]; simpl; [by apply triple_ret|].
  apply triple_read. intros s1 Hs1. destruct (zlookup (pending s1) k) as [x|]; [|apply triple_throw].
  destruct (try_entry u i c spread (openPositions s1) (rm s1) x) as [| |ps].
  - eapply triple_weaken; [exact IH|by intros s ->|done].
  - eapply (triple_bind _ _ _ (fun _ => agree initial)); [by apply triple_modify; intros s ->|].
    by intros [].
  - apply triple_modify. by intros s ->.
Qed.

Lemma bar_agree initial u i c : triple (agree initial) (bar u i c) (fun _ => agree initial).
Proof.
  unfold bar. eapply (triple_bind _ _ _ (fun _ => agree initial)); [by apply triple_lift|]. intros spread.
  eapply (triple_bind _ _ _ (fun _ => agree initial)).
  { unfold manage_open. apply triple_read. intros s0 Hs0.
    eapply (triple_bind _ _ _ (fun _ => agree initial)).
    - eapply triple_weaken; [apply exits_agree|by intros s ->|done].
    - intros still. by apply triple_modify. }
  intros []. cbv zeta. eapply (triple_bind _ _ _ (fun _ => agree initial)).
  { intros s s' [] Hs. unfold detect, m_bind, m_get, m_ret, m_lift, m_modify.
    repeat (case_match; simplify_eq/=; try (by intros [= <-]); try done); intros; simplify_eq/=; done. }
  intros []. eapply (triple_bind _ _ _ (fun _ => agree initial)); [by apply triple_modify|]. intros [].
  eapply (triple_bind _ _ _ (fun _ => agree initial)).
  { intros s s' go Hs. unfold gates, m_bind, m_get, m_ret, on_rm.
    destruct (_ <=? _); [by intros [= <- <-]|]. destruct (_ && _); [by intros [= <- <-]|].
    destruct (canTrade _ _ _) as [r [ok|e]] eqn:Hct; [|done]. intros [= <- <-].
    destruct Hs as [Hb Ht]. split; [|done]. simpl. rewrite <- Hb.
    pose proof (canTrade_frame (fun r => balance (state r))) as Hf.
    specialize (Hf ltac:(frame) ltac:(frame) ltac:(frame) ltac:(frame) ltac:(frame) ltac:(frame)
                  (substring10 (openTime c)) (zlen (openPositions s)) (rm s)). by rewrite Hct in Hf. }
  intros go. apply triple_if; [|by apply triple_ret]. unfold enter. apply triple_read. intros s0 Hs0.
  eapply triple_weaken; [apply entry_loop_agree|by intros s ->|done].
Qed.

Lemma bars_agree initial u cs : forall i, triple (agree initial) (bars u i cs) (fun _ => agree initial).
Proof.
  induction cs as [|c cs IH]; intros i; simpl; [by apply triple_ret|].
  eapply triple_bind; [apply bar_agree|]. by intros [].
Qed.

(** The forced exits of the positions left open. *)
Definition forced (u : Setup) (c : BacktestCandle) (p : SimulatedPosition) : ClosedTrade :=
  forceClosePosition p (close c) (openTime c) (commission_of u p) (lotSizeUnits (icfg u))
    (Some (symbol (econfig u))).

Lemma force_close_agree initial u c l s0 :
  triple (fun s => agree initial s /\ closed s = closed s0) (force_close u c l)
         (fun _ s => agree initial s /\ closed s = closed s0 ++ (forced u c <$> l)).
Proof.
  revert s0. induction l as [|p l IH]; intros s0; simpl.
  - apply triple_ret. intros s Hs. by rewrite app_nil_r.
  - eapply (triple_bind _ _ _ (fun _ s => agree initial s /\ closed s = closed s0 ++ [forced u c p])).
    + intros s s' [] [Ha Hc] E. split; [by eapply record_result_agree|].
      unfold record_result, m_bind, on_rm, m_modify in E. destruct (recordTrade _ _ _ _) as [r [[]|]]; [|done].
      injection E as <-. simpl. by rewrite Hc.
    + intros []. intros s s' [] [Ha Hc] E.
      destruct (IH s s s' tt ltac:(done) E) as [Ha' Hc']. split; [done|]. by rewrite Hc', Hc, <- app_assoc.
Qed.

(** A finished backtest has settled and its books agree.  The returned trades are the trades closed
    by the loop followed by a forced close of every position left open, at the last candle;
    the risk manager's balance is the initial balance plus their profits in that order, and
    the tracker has recorded exactly them. *)
Theorem backtest_settles (u : Setup) (s : EngineState) :
  run_engine u = Ok s ->
  balance (state (rm s)) = nsum (initialBalance (econfig u)) (pnl <$> closed s) /\
  tracker s = PerformanceTracker.record_all (closed s) /\
  exists r s1, bars u 0 (m15Candles u) (initial_state r) = (s1, Ok tt) /\
    (openPositions s1 = [] /\ closed s = closed s1 \/
     exists c, zlookup (m15Candles u) (zlen (m15Candles u) - 1) = Some c /\
       closed s = closed s1 ++ (forced u c <$> openPositions s1)).
Proof.
  unfold run_engine. destruct (new_RiskManager (econfig u)) as [r|] eqn:Hr; simpl; [|done].
  unfold m_bind at 1. destruct (bars u 0 (m15Candles u) (initial_state r)) as [s1 [[]|]] eqn:Hb; [|done].
  destruct (finish u s1) as [s2 [[]|]] eqn:Hf; [|done]. intros [= <-].
  assert (Ha : agree (initialBalance (econfig u)) s1).
  { apply (bars_agree (initialBalance (econfig u)) u _ 0 _ _ tt) in Hb; [done|]. split; [|done]. simpl.
    unfold new_RiskManager, res_map in Hr. destruct (getInstrumentConfig _); [|done]. by simplify_eq. }
  unfold finish, m_bind, m_get in Hf.
  destruct (zlookup (m15Candles u) _) as [c|] eqn:Hc.
  - apply (force_close_agree (initialBalance (econfig u)) u c _ s1) in Hf as [[H1 H2] H3]; [|done].
    split; [done|]. split; [done|]. exists r, s1. split; [done|]. right. by exists c.
  - injection Hf as <-. destruct Ha as [H1 H2]. split; [done|]. split; [done|]. exists r, s1.
    split; [done|]. left. split; [|done].
    assert (Hnil : m15Candles u = []).
    { destruct (m15Candles u) as [|x l]; [done|]. exfalso.
      destruct (zlookup_is_Some (x :: l) (zlen (x :: l) - 1)) as [y Hy]; [unfold zlen; simpl; lia|]. congruence. }
    rewrite Hnil in Hb. by injection Hb as <-.
Qed.

(** ** Every run returns *)

Section progress.
Context (u : Setup).
Hypothesis known : is_ok (getInstrumentConfig (symbol (econfig u))) = true.
Hypothesis h1_readable : Forall (fun c => is_Some (candle_ms c)) (h1Candles u).

Lemma record_result_returns t c : dated c -> returns (record_result t (openTime c)).
Proof using.
  intros Hc. apply returns_bind; [|intros; apply returns_modify]. intros s. unfold on_rm.
  destruct (recordTrade_ok (pnl t) (openTime c) (Some (exitReason t)) (rm s) Hc) as [r ->].
  by eexists _, tt.
Qed.

Lemma exits_return i c spread l : dated c -> returns (exits u i c spread l).
Proof using.
  intros Hc. induction l as [|p l IH]; simpl; [apply returns_ret|]. apply returns_bind; [done|]. intros rest.
  destruct (checkPositionExit _ _ _ _ _ _); [|apply returns_ret].
  apply returns_bind; [by apply record_result_returns|]. intros _.
  apply returns_bind; [apply returns_modify|]. intros _. apply returns_ret.
Qed.

Lemma detectSweep_ok idx bias adx d1c d1 now :
  exists o, detectSweep (h1Candles u) (h1Indicators u) idx bias adx (cfg u) d1c d1 now = Ok o.
Proof using h1_readable.
  unfold detectSweep, detectAnchorSweep. destruct (flag _).
  - destruct (_ <? _); [eauto|]. destruct (zlookup (h1Candles u) idx) as [b|] eqn:Hb; [|eauto].
    destruct (negb _); [eauto|]. unfold getAnchorLevels. fold (candle_ms b).
    assert (Hs : is_Some (candle_ms b)).
    { rewrite Forall_forall in h1_readable. apply h1_readable. unfold zlookup in Hb.
      destruct (_ <? _); [done|]. by eapply list_elem_of_lookup_2. }
    destruct Hs as [t ->]. destruct (auto_rejects _ _ _ _ _ _); eauto.
  - destruct (_ <? _); [eauto|]. destruct (zlookup _ _); [|eauto].
    destruct (negb _); [eauto|]. destruct (auto_rejects _ _ _ _ _ _); eauto.
Qed.

Lemma detect_returns c h1Idx : returns (detect u c h1Idx).
Proof using h1_readable.
  unfold detect. apply returns_get. intros s. case_match; [|apply returns_ret].
  apply returns_bind; [|intros; apply returns_modify]. case_match; [|apply returns_ret].
  apply returns_bind.
  - intros s1. unfold m_lift.
    match goal with |- context [detectSweep ?a ?b ?c ?d ?e ?f ?g ?h ?k] => destruct (detectSweep_ok c d e g h k) as [o ->] end.
    by eexists s1, o.
  - intros [x|]; [|apply returns_ret]. case_match; [apply returns_ret|apply returns_modify].
Qed.

Lemma gates_return i c : dated c -> returns (gates u i c).
Proof using.
  intros Hc. unfold gates. intros s. unfold m_bind, m_get. case_match; [by eexists s, _|].
  case_match; [by eexists s, _|]. unfold on_rm.
  destruct (canTrade_ok (substring10 (openTime c)) (zlen (openPositions s)) (rm s)) as (r & b & ->).
  - unfold substring10 at 1. unfold substring10 at 1. rewrite substring_idem. exact Hc.
  - by eexists _, _.
Qed.

Lemma length_splice1 {A} k (l : list A) x : zlookup l k = Some x -> zlen (splice1 k l) = zlen l - 1.
Proof using.
  intros Hk. pose proof (zlookup_Some _ _ _ Hk) as Hr. unfold splice1, zlen in *.
  rewrite (proj2 (Z.ltb_ge _ _)) by lia. rewrite length_delete; [lia|].
  apply lookup_lt_is_Some. lia.
Qed.

Lemma entry_loop_returns i c spread n : forall s, Z.of_nat n <= zlen (pending s) ->
  exists s', entry_loop u i c spread (down_from (Z.of_nat n - 1) 0) s = (s', Ok tt).
Proof using.
  induction n as [|n IH]; intros s Hn.
  - rewrite down_from_nil by lia. by exists s.
  - rewrite down_from_cons by lia. simpl. unfold m_bind, m_get.
    destruct (zlookup_is_Some (pending s) (Z.of_nat (S n) - 1)) as [x Hx]; [lia|]. rewrite Hx.
    replace (Z.of_nat (S n) - 1 - 1) with (Z.of_nat n - 1) by lia.
    destruct (try_entry _ _ _ _ _ _ _).
    + apply IH. lia.
    + unfold m_modify. apply IH. simpl. rewrite (length_splice1 _ _ x) by done. lia.
    + unfold m_modify. eauto.
Qed.

Lemma bar_returns i c : dated c -> returns (bar u i c).
Proof using known h1_readable.
  intros Hc. unfold bar. apply returns_bind.
  { intros s. unfold m_lift, getSpread. destruct (getInstrumentConfig _) as [ic|]; [|done].
    simpl. destruct (Date_parse _); by eexists s, _. }
  intros spread. apply returns_bind.
  { apply returns_get. intros s.
    apply returns_bind; [by apply exits_return|]. intros. apply returns_modify. }
  intros _. cbv zeta. apply returns_bind; [apply detect_returns|]. intros _.
  apply returns_bind; [apply returns_modify|]. intros _.
  apply returns_bind; [by apply gates_return|]. intros [|]; [|apply returns_ret].
  unfold enter. intros s.
  destruct (entry_loop_returns i c spread (length (pending s)) s) as [s' Hs']; [done|].
  exists s', tt. exact Hs'.
Qed.
End progress.

(** C37: the backtest always returns.  On a known instrument, with readable days on the M15 bars and
    readable times on the H1 bars, no part of a run throws: the loop, its date arithmetic and
    its indexing are total. *)
Theorem backtest_returns (u : Setup) :
  is_ok (getInstrumentConfig (symbol (econfig u))) = true ->
  Forall (fun c => is_Some (candle_ms c)) (h1Candles u) -> Forall dated (m15Candles u) ->
  exists s, run_engine u = Ok s.
Proof.
  intros Hk Hh Hm. unfold run_engine, new_RiskManager. destruct (getInstrumentConfig _) as [ic|] eqn:Hic; [|done].
  simpl. match goal with |- context [initial_state ?r] => generalize (initial_state r) end. intros s0.
  assert (Hr : returns (do! bars u 0 (m15Candles u) ;; finish u)%js).
  { apply returns_bind.
    - clear s0. generalize 0. induction Hm as [|c cs Hc _ IH]; intros i; simpl; [apply returns_ret|].
      apply returns_bind; [|by intros; apply IH]. apply bar_returns; [by rewrite Hic|done|done].
    - intros _. unfold finish. apply returns_get. intros s.
      destruct (zlookup (m15Candles u) _) as [c|] eqn:Hc; [|apply returns_ret].
      assert (Hd : dated c).
      { rewrite Forall_forall in Hm. apply Hm. unfold zlookup in Hc. destruct (_ <? _); [done|].
        by eapply list_elem_of_lookup_2. }
      clear Hc. generalize (openPositions s). intros l. induction l as [|p l IH]; simpl; [apply returns_ret|].
      apply returns_bind; [by apply record_result_returns|]. by intros. }
  destruct (Hr s0) as (s' & [] & ->). eauto.
Qed.

(** * A backtest on concrete bars

    The bars of the replay example, in the backtest: the sweep of 07:00 is sold at 08:00 and
    stopped out at 09:15.  The last part is an entry with its stop on the wrong side. *)
From S2P Require Import Prelude JsNum JsDate Types Instruments NewsCalendar RiskManager RiskFacts PositionSimulator.
From S2P Require Import SweepDetector SweepFacts Indicators SmcEngine ReplayEngine ReplayExamples.
From S2P Require PerformanceTracker.

Definition bx_config : EngineConfig := {|
  symbol := "XAUUSD"; initialBalance := of_Z 10000; riskPercent := lit 15 1;
  maxDailyLossPercent := of_Z 4; maxConsecutiveLosses := 5; maxOpenPositions := 4 |}.

Definition bx_instrument : InstrumentConfig := {|
  lotSizeUnits := of_Z 100; commissionPerLot := of_Z 7; minAtr := lit 35 1; pricePrecision := 2;
  spreads := spreads_of 2 20 25 30 50 40 |}.

Lemma bx_instrument_gold : getInstrumentConfig "XAUUSD" = Ok bx_instrument.
Proof. vm_compute. reflexivity. Qed.

Definition bx_setup : Setup := {|
  econfig := bx_config; icfg := bx_instrument; cfg := XAUUSD_SMC_CONFIG;
  m15Candles := rx_m15; h1Candles := rx_h1; d1Candles := rx_d1;
  m15Indicators := flat_indicators (of_Z 4) (of_Z 20) 32;
  h1Indicators := flat_indicators (of_Z 4) (of_Z 20) 30;
  d1Indicators := Some (flat_indicators (of_Z 4) (of_Z 20) 32) |}.

Lemma dated_all cs :
  forallb (fun c => bool_decide (is_Some (Date_parse (substring10 (openTime c))))) cs = true -> Forall dated cs.
Proof.
  intros H. apply Forall_forall. intros c Hc%list_elem_of_In.
  rewrite forallb_forall in H. by apply H, bool_decide_eq_true in Hc.
Qed.

Lemma backtest_returns_witness : exists s, run_engine bx_setup = Ok s.
Proof.
  apply backtest_returns.
  - vm_compute. reflexivity.
  - apply Forall_forall. intros c Hc. destruct rx_ordered as (_ & Hh & _).
    apply list_elem_of_lookup in Hc as [k Hk]. simpl in Hk, Hh. rewrite <- zlookup_nth in Hk.
    by destruct (chronological_at _ _ _ Hh Hk) as [ms ->].
  - apply dated_all. vm_compute. reflexivity.
Defined.

Lemma bx_run : match run_engine bx_setup with
  | Ok s => length (closed s) = 2%nat /\ exitReason <$> closed s = [SL; SL]
  | Throw _ => False end.
Proof. vm_compute. auto. Qed.

Lemma backtest_settles_witness :
  exists s, run_engine bx_setup = Ok s /\ length (closed s) = 2%nat /\
    balance (state (rm s)) = nsum (of_Z 10000) (pnl <$> closed s).
Proof.
  pose proof bx_run as H. destruct (run_engine bx_setup) as [s|] eqn:E; [|by destruct H].
  exists s. split; [done|]. split; [apply H|]. apply (backtest_settles bx_setup s E).
Defined.

(** The entry of 08:00, on the 27th bar. *)
Definition bx_manager : RiskManager :=
  match new_RiskManager bx_config with
  | Ok r => r
  | Throw _ => {| config := bx_config; rm_lotSizeUnits := of_Z 0; state := {| balance := of_Z 0; equity := of_Z 0;
      dailyPnl := of_Z 0; consecutiveLosses := 0; consecutiveWins := 0; lastTradeDate := None |};
      weeklyPeakEquity := of_Z 0; currentWeekNumber := None; pauseUntilDate := None;
      consecutiveLossPauseUntil := None; awaitingPostPauseTrade := false; overallPeakEquity := of_Z 0;
      tradeLog := []; equityDdPauseUntil := None; lastDdTierTriggered := 0;
      rolling7DayPauseUntil := None; hardKilled := false |}
  end.
Definition bx_bar : BacktestCandle := default (demo_bar_at "" 0 0 0 0 0) (rx_m15 !! 26%nat).
Definition bx_before : EngineState * Res unit := bars bx_setup 0 (take 26 rx_m15) (initial_state bx_manager).
Definition bx_after : EngineState * Res unit := bar bx_setup 26 bx_bar bx_before.1.

Lemma bx_entry : is_ok bx_before.2 = true /\ is_ok bx_after.2 = true /\
  (fun p => (side p, entryIndex p)) <$> openPositions bx_after.1 = [(SELL, 26); (SELL, 26)].
Proof. vm_compute. auto. Qed.

Lemma backtest_entry_discipline_witness :
  length (openPositions bx_after.1) = 2%nat /\ ladders 27 (openPositions bx_after.1) /\
  exists spread x ps, bar_entry bx_setup 26 bx_bar bx_before.1 bx_after.1 spread x ps.
Proof.
  pose proof bx_entry as (H1 & H2 & H3). unfold bx_after in *.
  destruct bx_before as [s0 [[]|]] eqn:E0; [|discriminate H1]. simpl in H2, H3.
  destruct (bar bx_setup 26 bx_bar s0) as [s [[]|]] eqn:E1; [|discriminate H2].
  unfold bx_before in E0. simpl in H3.
  destruct (backtest_entry_discipline bx_setup bx_manager (take 26 rx_m15) (drop 27 rx_m15) bx_bar s0 s)
    as (L & Hentry).
  - vm_compute. discriminate.
  - vm_compute. reflexivity.
  - exact E0.
  - exact E1.
  - cbn [fst]. rewrite E1. cbn [fst].
    assert (Hlen : length (openPositions s) = 2%nat) by (rewrite <- (length_fmap (fun p => (side p, entryIndex p))), H3; reflexivity).
    split; [exact Hlen|]. split; [exact L|]. apply Hentry.
    destruct (openPositions s) as [|p l]; [discriminate H3|]. simpl in H3. injection H3 as _ Hi _.
    exists p. split; [by left|exact Hi].
Defined.

(** ** A stop on the wrong side *)

(** A queued sell whose stop, 2003.8, price has since closed above. *)
Definition stale_setup : PendingSetup := {|
  direction := SELL; sweepLevel := of_Z 2000; sweepWick := of_Z 2003; sweepMid := of_Z 1998;
  sweepCandleAtr := of_Z 4; sweepCandleHigh := of_Z 2003; sweepCandleLow := of_Z 1993;
  detectedAtH1Idx := 20; expiresAtH1Idx := 40; mode := REVERSAL;
  sweepTime := "2024-03-13T23:00:00.000Z"; anchorType := Some PDH |}.

(** The backtest has no guard against a stop on the unprotective side of the entry (the orchestrator
    has): the setup is entered at the market above its stop, and the next bar books the stop
    as a profit. *)
Theorem backtest_takes_unprotective_stop :
  match try_entry bx_setup 26 bx_bar (lit 25 2) [] bx_manager stale_setup with
  | Enter [p; q] =>
      side p = SELL /\ (slPrice p <? entryPrice p)%num = true /\
      (fun t => (exitReason t, (pnl t >? of_Z 0)%num)) <$>
        checkPositionExit p bx_bar (lit 25 2) (commission_of bx_setup p) (of_Z 100) (Some "XAUUSD"%string)
      = Some (SL, true)
  | _ => False
  end.
Proof. vm_compute. auto. Qed.
