(* ===== verification/V6Evaluator.v ===== *)
(** * The V6 strategy: types and evaluator

    Types and pair profiles of the V6 engine, and src/backtest/engine/strategy-evaluator.ts. *)
From S2P Require Import Prelude JsNum JsDate Types Instruments.
#[export] Instance DetailedRegime_eq_dec : EqDecision DetailedRegime.
Proof. solve_decision. Defined.

(** [d1Bias] and [inNewsBlackout] are notes the engine leaves on the state of a bar. *)
Record RegimeState := {
  rs_regime : DetailedRegime;
  rs_direction : D1Bias;
  rs_durationBars : Z;
  rs_adx : num;
  rs_adxSlope : num;
  rs_diSeparation : num;
  rs_atrRatio : num;
  rs_emaStackAligned : bool;
  rs_h1Idx : Z;
  rs_d1Bias : option D1Bias;
  rs_inNewsBlackout : option bool;
}.

Inductive PointType := HIGH | LOW.
Record SwingPoint := { sp_index : Z; sp_price : num; sp_type : PointType }.
Record SwingPointTracker := { recentHighs : list SwingPoint; recentLows : list SwingPoint }.

Record BOSLevel := {
  bl_direction : Side; bl_brokenLevel : num; bl_breakIndex : Z; bl_traded : bool; bl_expiryCandles : Z }.

Record FairValueGap := {
  fg_direction : Side; fg_zoneHigh : num; fg_zoneLow : num;
  fg_createdAtIndex : Z; fg_expiryCandles : Z; fg_traded : bool }.

Record EngineState := {
  swingTracker : SwingPointTracker; activeBOSLevels : list BOSLevel; activeFVGs : list FairValueGap }.

Inductive SetupType := ST_TREND_PULLBACK | ST_RANGE_REVERSION | ST_BOS_RETEST | ST_FVG_FILL | ST_MOMENTUM_CONT.

Record SetupSignal := {
  sg_side : Side;
  sg_entryPrice : num;
  sg_slPrice : num;
  sg_tpPrice : num;
  sg_setupTags : list string;
  sg_h1Bias : D1Bias;
  sg_rsiAtEntry : num;
  sg_atrAtEntry : num;
  sg_setupType : option SetupType;
  sg_qualityScore : option Z;
  sg_regimeTradeParams : option RegimeTradeParams;
}.

(** The optional scale-in fields of [SimulatedPosition], which only this engine sets. *)
Record V6Position := {
  base : SimulatedPosition; isScaleIn : bool; parentEntryPrice : option num; hasScaleIn : bool }.

Inductive StrategyVersion := V5_5b | V6 | V6_alt | SMC_V2 | GIDEON.
#[export] Instance StrategyVersion_eq_dec : EqDecision StrategyVersion.
Proof. solve_decision. Defined.

(** ** Pair profiles *)
Record Sessions := {
  ss_london : Z * Z; ss_ny : Z * Z; ss_overlap : Z * Z; ss_asian : option (Z * Z) }.
Record BaselineAtr := { p25 : num; p50 : num; p75 : num; p90 : num }.
Record EngineToggles := {
  trendPullback : bool; fvgFill : bool; rangeReversion : bool; bbReversal : bool }.

Record PairProfile := {
  pp_symbol : string;
  pp_instrument : Res InstrumentConfig;
  pp_sessions : Sessions;
  pp_baselineAtr : BaselineAtr;
  pp_engineToggles : EngineToggles;
  pp_d1ConfluenceRequired : bool;
  pp_newsBlackoutEnabled : bool;
  pp_newsBlackoutMinutes : Z;
  pp_chandelierAtrMult : num;
  pp_qualityFloor : Z;
  pp_maxLotSize : num;
}.

Definition v6_sessions : Sessions :=
  {| ss_london := (7, 12); ss_ny := (16, 20); ss_overlap := (12, 16); ss_asian := None |}.
Definition all_engines : EngineToggles :=
  {| trendPullback := true; fvgFill := true; rangeReversion := true; bbReversal := true |}.

Definition PAIR_PROFILES : list (string * PairProfile) := [
  ("XAUUSD"%string, {|
     pp_symbol := "XAUUSD"; pp_instrument := getInstrumentConfig "XAUUSD"; pp_sessions := v6_sessions;
     pp_baselineAtr := {| p25 := lit 18 1; p50 := lit 26 1; p75 := lit 38 1; p90 := lit 55 1 |};
     pp_engineToggles := all_engines; pp_d1ConfluenceRequired := true; pp_newsBlackoutEnabled := true;
     pp_newsBlackoutMinutes := 5; pp_chandelierAtrMult := lit 25 1; pp_qualityFloor := 30;
     pp_maxLotSize := of_Z 1 |});
  ("EURUSD"%string, {|
     pp_symbol := "EURUSD"; pp_instrument := getInstrumentConfig "EURUSD"; pp_sessions := v6_sessions;
     pp_baselineAtr := {| p25 := lit 8 4; p50 := lit 12 4; p75 := lit 18 4; p90 := lit 28 4 |};
     pp_engineToggles := all_engines; pp_d1ConfluenceRequired := true; pp_newsBlackoutEnabled := true;
     pp_newsBlackoutMinutes := 5; pp_chandelierAtrMult := lit 25 1; pp_qualityFloor := 30;
     pp_maxLotSize := of_Z 2 |})].

Definition getPairProfile (sym : string) : option PairProfile := assoc PAIR_PROFILES sym.

Inductive SessionName := S_london | S_ny | S_overlap | S_asian.

(** The overlap is asked first, so it wins over the sessions it overlaps. *)
Definition getActiveSession (p : PairProfile) (utcHour : Z) : option SessionName :=
  let within r := (r.1 <=? utcHour) && (utcHour <? r.2) in
  let s := pp_sessions p in
  if within (ss_overlap s) then Some S_overlap
  else if within (ss_london s) then Some S_london
  else if within (ss_ny s) then Some S_ny
  else match ss_asian s with
       | Some r => if within r then Some S_asian else None
       | None => None
       end.

(** * V6 strategy evaluator

    src/backtest/engine/strategy-evaluator.ts: the regime state machine, the session
    filter, the H1 context, swing points, breaks and gaps, and the trend, range and gap
    entries with their quality scores.  Quality scores are integers.  Index reads inside a
    helper are at indices the array has, whenever the bar [idx] exists. *)
From S2P Require Import Prelude JsNum JsDate Types SweepDetector.
Local Open Scope num_scope.

(** ** Regime state machine *)
Definition STRONG_TREND_ENTER_ADX : num := of_Z 25.
Definition STRONG_TREND_EXIT_ADX : num := of_Z 23.
Definition WEAK_TREND_ENTER_ADX : num := of_Z 15.
Definition WEAK_TREND_EXIT_ADX : num := of_Z 13.
Definition VOLATILE_ATR_ENTER : num := lit 18 1.
Definition VOLATILE_ATR_EXIT : num := lit 15 1.
Definition MIN_REGIME_DURATION : Z := 2.

Definition no_regime : RegimeState := {|
  rs_regime := RANGING; rs_direction := NEUTRAL; rs_durationBars := 0; rs_adx := of_Z 0;
  rs_adxSlope := of_Z 0; rs_diSeparation := of_Z 0; rs_atrRatio := of_Z 1;
  rs_emaStackAligned := false; rs_h1Idx := -1; rs_d1Bias := None; rs_inNewsBlackout := None |}.

(** [!isNaN(x) && !isNaN(y)] *)
Definition both (x y : num) : bool := negb (is_nan x) && negb (is_nan y).

(** The bias two averages show. *)
Definition ema_bias (fast slow : num) : D1Bias :=
  if fast >? slow then BULLISH else if fast <? slow then BEARISH else NEUTRAL.

(** The direction of the DI pair, withdrawn when the averages disagree. *)
Definition regime_direction (plusDI minusDI diSep e20 e50 : num) : D1Bias :=
  let d := if both plusDI minusDI && (diSep >=? of_Z 3)
           then if plusDI >? minusDI then BULLISH else BEARISH
           else NEUTRAL in
  if negb (bool_decide (d = NEUTRAL)) && both e20 e50
     && negb (bool_decide (ema_bias e20 e50 = NEUTRAL)) && negb (bool_decide (ema_bias e20 e50 = d))
  then NEUTRAL else d.

Definition raw_regime (adx diSep atrRatio : num) : DetailedRegime :=
  if atrRatio >=? VOLATILE_ATR_ENTER then VOLATILE
  else if (adx >=? STRONG_TREND_ENTER_ADX) && (diSep >=? of_Z 5) then STRONG_TREND
  else if (adx >=? WEAK_TREND_ENTER_ADX) && (diSep >=? of_Z 3) then WEAK_TREND
  else if (adx <? WEAK_TREND_ENTER_ADX) || (diSep <? of_Z 3) then RANGING
  else TRANSITIONING.

(** The exit thresholds. *)
Definition should_switch (prev : DetailedRegime) (adx diSep atrRatio : num) (durationBars : Z) : bool :=
  match prev with
  | STRONG_TREND => (adx <? STRONG_TREND_EXIT_ADX) || (diSep <? of_Z 3) || (atrRatio >=? VOLATILE_ATR_ENTER)
  | WEAK_TREND => (adx <? WEAK_TREND_EXIT_ADX) || (diSep <? of_Z 2) || (adx >=? STRONG_TREND_ENTER_ADX)
                  || (atrRatio >=? VOLATILE_ATR_ENTER)
  | RANGING => ((adx >=? WEAK_TREND_ENTER_ADX) && (diSep >=? of_Z 3)) || (atrRatio >=? VOLATILE_ATR_ENTER)
  | VOLATILE => atrRatio <? VOLATILE_ATR_EXIT
  | TRANSITIONING => (MIN_REGIME_DURATION <=? durationBars)%Z
  end.

(** The regime and its duration after the hysteresis. *)
Definition hysteresis (prevState : option RegimeState) (h1Idx : Z) (raw : DetailedRegime)
    (adx diSep atrRatio : num) : DetailedRegime * Z :=
  match prevState with
  | Some p =>
      if (rs_h1Idx p =? h1Idx)%Z then (raw, 1%Z)
      else
        let n := (rs_durationBars p + 1)%Z in
        if bool_decide (rs_regime p = raw) then (rs_regime p, n)
        else if should_switch (rs_regime p) adx diSep atrRatio n then (raw, 1%Z)
        else (rs_regime p, n)
  | None => (raw, 1%Z)
  end.

(** The tracker's [getEngineConfidence('TREND_PULLBACK')] is the argument. *)
Definition detectRegime (h1Candles : list BacktestCandle) (h1 : IndicatorState) (currentTime : string)
    (prevState : option RegimeState) (trendConf : option num) : RegimeState :=
  let i := index_at h1Candles (Date_parse currentTime) in
  if (i <? 0)%Z then no_regime
  else
    let adx := ind (adx14 h1) i in
    let pdi := ind (plusDI14 h1) i in
    let mdi := ind (minusDI14 h1) i in
    let e20 := ind (ema20 h1) i in
    let e50 := ind (ema50 h1) i in
    let e200 := ind (ema200 h1) i in
    let atr := ind (atr14 h1) i in
    let baseline := ind (atrBaseline h1) i in
    let adxPrev := if (3 <=? i)%Z then ind (adx14 h1) (i - 3) else NaN in
    let adxSlope := if both adxPrev adx then adx - adxPrev else of_Z 0 in
    let diSep := if both pdi mdi then nabs (pdi - mdi) else of_Z 0 in
    let atrRatio := if both atr baseline && (baseline >? of_Z 0) then atr / baseline else of_Z 1 in
    let stacked := both e20 e50 && negb (is_nan e200) &&
                   (((e20 >? e50) && (e50 >? e200)) || ((e20 <? e50) && (e50 <? e200))) in
    let safeAdx := if is_nan adx then of_Z 0 else adx in
    let '(regime, duration) := hysteresis prevState i (raw_regime safeAdx diSep atrRatio) safeAdx diSep atrRatio in
    let losing := bool_decide (regime = WEAK_TREND) &&
                  match trendConf with Some c => c <? of_Z 30 | None => false end in {|
    rs_regime := if losing then RANGING else regime;
    rs_direction := regime_direction pdi mdi diSep e20 e50;
    rs_durationBars := if losing then 1 else duration;
    rs_adx := safeAdx; rs_adxSlope := adxSlope; rs_diSeparation := diSep; rs_atrRatio := atrRatio;
    rs_emaStackAligned := stacked; rs_h1Idx := i; rs_d1Bias := None; rs_inNewsBlackout := None |}.

Definition params (tp fvg be removal clamp : num) : RegimeTradeParams := {|
  trendTpR := tp; fvgTpR := fvg; beThresholdR := be; tpRemovalR := removal; slClampMaxAtr := clamp;
  trailWidthMult := None |}.

Definition getRegimeParams (r : DetailedRegime) : RegimeTradeParams :=
  match r with
  | STRONG_TREND => params (lit 25 1) (lit 15 1) (of_Z 1) (of_Z 2) (of_Z 3)
  | WEAK_TREND => params (lit 15 1) (of_Z 1) (lit 8 1) (lit 15 1) (lit 25 1)
  | RANGING => params (of_Z 1) (of_Z 1) (lit 6 1) (of_Z 0) (of_Z 2)
  | VOLATILE => params (of_Z 1) (lit 8 1) (lit 5 1) (of_Z 0) (lit 15 1)
  | TRANSITIONING => params (lit 15 1) (of_Z 1) (lit 8 1) (lit 15 1) (of_Z 2)
  end.

(** ** Sessions *)

(** The time zone database: the hour of the day in a zone. *)
Class TimeZones := zone_hour : string -> Z -> Z.

(** [Intl.DateTimeFormat.format] throws on an invalid date. *)
Definition getLocalHour `{TimeZones} (utcTime tz : string) : Res Z :=
  match Date_parse utcTime with
  | Some t => Ok (zone_hour tz t)
  | None => Throw "RangeError: Invalid time value"
  end.

Definition hour_in (h lo hi : Z) : bool := (lo <=? h)%Z && (h <? hi)%Z.

Definition isActiveTradingSession `{TimeZones} (openTime : string) : Res bool :=
  (london <-! getLocalHour openTime "Europe/London" ;;
   if hour_in london 8 17 then Ok true
   else
     ny <-! getLocalHour openTime "America/New_York" ;;
     Ok (hour_in ny 8 14))%js.

(** ** H1 context *)
Definition getH1Bias (h1Candles : list BacktestCandle) (h1 : IndicatorState) (currentTime : string) : D1Bias :=
  let i := index_at h1Candles (Date_parse currentTime) in
  if (i <? 0)%Z then NEUTRAL
  else
    let e20 := ind (ema20 h1) i in
    let e50 := ind (ema50 h1) i in
    if is_nan e20 || is_nan e50 then NEUTRAL else ema_bias e20 e50.

(** The three simple regimes, read as a bias: RANGING is NEUTRAL. *)
Definition getMarketRegimeSimple (h1 : IndicatorState) (i : Z) : D1Bias :=
  let adx := ind (adx14 h1) i in
  let pdi := ind (plusDI14 h1) i in
  let mdi := ind (minusDI14 h1) i in
  if is_nan adx || is_nan pdi || is_nan mdi then NEUTRAL
  else if adx <? of_Z 20 then NEUTRAL
  else if nabs (pdi - mdi) <? of_Z 3 then NEUTRAL
  else if pdi >? mdi then BULLISH else BEARISH.

(** The run of bars before [i] in the same regime, at most [n]. *)
Fixpoint stable_run (h1 : IndicatorState) (current : D1Bias) (k : Z) (n : nat) : Z :=
  match n with
  | O => 0
  | S n' => if (k <? 0)%Z then 0
            else if bool_decide (getMarketRegimeSimple h1 k = current)
                 then (1 + stable_run h1 current (k - 1) n')%Z else 0
  end.

Definition getH1RegimeStabilityCount (h1Candles : list BacktestCandle) (h1 : IndicatorState)
    (currentTime : string) (maxLookback : nat) : Z :=
  let i := index_at h1Candles (Date_parse currentTime) in
  if (i <? 1)%Z then 0%Z else stable_run h1 (getMarketRegimeSimple h1 i) (i - 1) maxLookback.

Record H1Regime := { hr_regime : D1Bias; hr_bias : D1Bias; hr_h1Adx : num; hr_adxRising : bool }.

Definition getH1Regime (h1Candles : list BacktestCandle) (h1 : IndicatorState) (currentTime : string) : H1Regime :=
  let i := index_at h1Candles (Date_parse currentTime) in
  if (i <? 0)%Z then {| hr_regime := NEUTRAL; hr_bias := NEUTRAL; hr_h1Adx := of_Z 0; hr_adxRising := false |}
  else
    let adx := ind (adx14 h1) i in
    let pdi := ind (plusDI14 h1) i in
    let mdi := ind (minusDI14 h1) i in
    let e20 := ind (ema20 h1) i in
    let e50 := ind (ema50 h1) i in
    let h1Adx := if is_nan adx then of_Z 0 else adx in
    let adxPrev := if (2 <=? i)%Z then ind (adx14 h1) (i - 2) else NaN in {|
    hr_regime := if negb (is_nan adx) && both pdi mdi && (adx >=? of_Z 20) && (nabs (pdi - mdi) >=? of_Z 3)
                 then if pdi >? mdi then BULLISH else BEARISH else NEUTRAL;
    hr_bias := if both e20 e50 then ema_bias e20 e50 else NEUTRAL;
    hr_h1Adx := h1Adx;
    hr_adxRising := negb (is_nan adxPrev) && (h1Adx >? adxPrev) |}.

(** ** Swing points *)

(** [f] holds between the bar at [i] and the bars up to [lookback] on both sides. *)
Definition fractal (f : BacktestCandle -> BacktestCandle -> bool) (cs : list BacktestCandle) (i lookback : Z) : bool :=
  match zlookup cs i with
  | None => false
  | Some curr =>
      forallb (fun j => match zlookup cs (i - j), zlookup cs (i + j) with
                        | Some a, Some b => f curr a && f curr b
                        | _, _ => false
                        end) (up_from 1 lookback)
  end.

(** [!(other.high >= curr.high)] and its mirror. *)
Definition above (curr other : BacktestCandle) : bool := negb (high other >=? high curr).
Definition below (curr other : BacktestCandle) : bool := negb (low other <=? low curr).

Definition swing_points_at (cs : list BacktestCandle) (lookback i : Z) : list SwingPoint :=
  match zlookup cs i with
  | None => []
  | Some c =>
      (if fractal above cs i lookback then [{| sp_index := i; sp_price := high c; sp_type := HIGH |}] else []) ++
      (if fractal below cs i lookback then [{| sp_index := i; sp_price := low c; sp_type := LOW |}] else [])
  end.

Definition detectSwingPoints (cs : list BacktestCandle) (startIdx endIdx lookback : Z) : list SwingPoint :=
  flat_map (swing_points_at cs lookback) (up_from (Z.max startIdx lookback) (endIdx - lookback)).

(** ** Confirmation patterns *)
Definition detectEngulfing (cs : list BacktestCandle) (idx : Z) : bool :=
  if (idx <? 1)%Z then false
  else match zlookup cs (idx - 1), zlookup cs idx with
  | Some prev, Some curr =>
      ((close prev <? open prev) && (close curr >? open curr) &&
       (open curr <=? close prev) && (close curr >=? open prev)) ||
      ((close prev >? open prev) && (close curr <? open curr) &&
       (open curr >=? close prev) && (close curr <=? open prev))
  | _, _ => false
  end.

Definition detectStrongClose (c : BacktestCandle) : bool :=
  let range := high c - low c in
  if range =? of_Z 0 then false
  else if nabs (close c - open c) / range <? lit 5 1 then false
  else if close c >? open c then (close c - low c) / range >=? lit 65 2
  else (high c - close c) / range >=? lit 65 2.

Definition detectPinBar (c : BacktestCandle) (sd : Side) : bool :=
  let range := high c - low c in
  if range =? of_Z 0 then false
  else if nabs (close c - open c) / range >? lit 4 1 then false
  else
    let upperWick := high c - Math_max (open c) (close c) in
    let lowerWick := Math_min (open c) (close c) - low c in
    match sd with
    | BUY => (lowerWick / range >=? lit 6 1) && (upperWick / range <=? lit 25 2)
    | SELL => (upperWick / range >=? lit 6 1) && (lowerWick / range <=? lit 25 2)
    end.

(** ** Shared by the entries *)

(** Towards the stop and towards the target of a side. *)
Definition to_stop (sd : Side) (entry d : num) : num := match sd with BUY => entry - d | SELL => entry + d end.
Definition to_target (sd : Side) (entry d : num) : num := match sd with BUY => entry + d | SELL => entry - d end.

(** [Math.round(n * factor) / factor] *)
Definition round_price (factor n : num) : num := Math_round (n * factor) / factor.
Definition pow10 (precision : Z) : num := of_Z (10 ^ precision).

(** ATR at twice its baseline or more. *)
Definition extreme_volatility (atr baseline : num) : bool :=
  negb (is_nan baseline) && (baseline >? of_Z 0) && (atr / baseline >=? of_Z 2).

Definition TypeError : string := "TypeError: Cannot read properties of undefined".

(** A stop too close moves out to [lo], one too far moves in to [hi]; both are judged on
    the stop as it was. *)
Definition clamp_stop (sd : Side) (entry sl lo hi : num) : num :=
  let d := nabs (entry - sl) in
  let sl1 := if d <? lo then to_stop sd entry lo else sl in
  if d >? hi then to_stop sd entry hi else sl1.

(** ** Trend engine: quality *)
Definition adx_points (adx : num) : Z :=
  if adx >=? of_Z 30 then 10 else if adx >=? of_Z 25 then 0 else if adx >=? of_Z 20 then -10 else -20.
Definition slope_points (s : num) : Z :=
  if s >? of_Z 2 then 5 else if s >? of_Z 0 then 0 else if s >? of_Z (-2) then -8 else -15.
Definition stability_points (n : Z) : Z := if (3 <=? n)%Z then 5 else if (2 <=? n)%Z then 0 else -10.
Definition ratio_points (r : num) : Z :=
  if r >=? lit 16 1 then -15 else if r >=? lit 13 1 then -5
  else if (r >=? lit 8 1) && (r <=? lit 13 1) then 5 else 0.
Definition mid_rsi (rsi : num) : bool := (rsi >=? of_Z 40) && (rsi <=? of_Z 60).
Definition rsi_points (sd : Side) (rsi : num) : Z :=
  let low_ := (rsi >=? of_Z 35) && (rsi <? of_Z 40) in
  let high_ := (rsi >? of_Z 60) && (rsi <=? of_Z 65) in
  if mid_rsi rsi then 5
  else match sd with
       | BUY => if low_ then -8 else if high_ then -5 else -8
       | SELL => if high_ then -8 else if low_ then -5 else -8
       end.
Definition di_points (d : num) : Z := if d >=? of_Z 10 then 5 else if d <? of_Z 5 then -5 else 0.
Definition regime_points (r : DetailedRegime) : Z :=
  match r with STRONG_TREND => 10 | WEAK_TREND => -5 | TRANSITIONING => -10 | _ => 0 end.

(** The side a bias trades. *)
Definition side_of (b : D1Bias) : option Side :=
  match b with BULLISH => Some BUY | BEARISH => Some SELL | NEUTRAL => None end.

(** The H1 bias must not oppose the trade, outside the quiet and the volatile regimes. *)
Definition bias_points (r : DetailedRegime) (sd : Side) (h1Bias : D1Bias) : option Z :=
  match r with
  | RANGING | VOLATILE => Some 0%Z
  | _ => match side_of h1Bias with
         | None => Some (-10)%Z
         | Some sd' => if bool_decide (sd' = sd) then Some 0%Z else None
         end
  end.

(** The average against the trade costs ten points. *)
Definition ema_slope_points (sd : Side) (ema emaPrev : num) : Z :=
  if is_nan emaPrev then 0
  else match sd with
       | BUY => if ema <=? emaPrev then -10 else 0
       | SELL => if ema >=? emaPrev then -10 else 0
       end.

(** The quality up to the first test against the minimum. *)
Definition trend_quality (rs : RegimeState) (sd : Side) (stability : Z) (atrRatio rsi : num) : Z :=
  (60 + adx_points (rs_adx rs) + slope_points (rs_adxSlope rs) + stability_points stability
   + ratio_points atrRatio + rsi_points sd rsi + di_points (rs_diSeparation rs)
   + (if rs_emaStackAligned rs then 5 else 0) + regime_points (rs_regime rs))%Z.

(** The tier-1 rejects: [None], or the side. *)
Definition rsi_allows (sd : Side) (rsi : num) : bool :=
  match sd with
  | BUY => negb ((rsi <? of_Z 35) || (rsi >? of_Z 70))
  | SELL => negb ((rsi <? of_Z 30) || (rsi >? of_Z 65))
  end.

Definition trend_side (rs : RegimeState) (rsi : num) : option Side :=
  if rs_adx rs <? of_Z 12 then None
  else match side_of (rs_direction rs) with
       | Some sd => if rsi_allows sd rsi then Some sd else None
       | None => None
       end.

(** ** Trend engine: pullback and stop *)
Inductive PullbackTarget := PB_EMA20 | PB_EMA50.
#[export] Instance PullbackTarget_eq_dec : EqDecision PullbackTarget.
Proof. solve_decision. Defined.

Definition touches (c : BacktestCandle) (ema tolerance : num) : bool :=
  (low c <=? ema + tolerance) && (high c >=? ema - tolerance).

Definition pullback (c : BacktestCandle) (adx e20 e50 atr : num) : option (PullbackTarget * num * num) :=
  let tol20 := atr * lit 6 1 in
  if touches c e20 tol20 then Some (PB_EMA20, e20, tol20)
  else if adx <? of_Z 20 then None
  else
    let tol50 := atr * lit 75 2 in
    if touches c e50 tol50 && (nabs (e20 - e50) >=? atr * lit 5 1) then Some (PB_EMA50, e50, tol50)
    else None.

(** The bar bounces off the average in the direction of the trade. *)
Definition commits (sd : Side) (c : BacktestCandle) (ema tolerance : num) : bool :=
  match sd with
  | BUY => negb (low c >? ema + tolerance * lit 5 1) && negb (close c <=? ema) && negb (close c <=? open c)
  | SELL => negb (high c <? ema - tolerance * lit 5 1) && negb (close c >=? ema) && negb (close c >=? open c)
  end.

Definition min_list (l : list num) : num := fold_left Math_min l Infinity.
Definition max_list (l : list num) : num := fold_left Math_max l neg_Infinity.

Definition points_of (t : PointType) (ps : list SwingPoint) : list num :=
  sp_price <$> last_n 3 (List.filter (fun p => match sp_type p, t with HIGH, HIGH | LOW, LOW => true | _, _ => false end) ps).

Definition trend_stop (sd : Side) (target : PullbackTarget) (entry e50 atr : num) (ps : list SwingPoint) : num :=
  let spreadBuffer := atr * lit 3 1 in
  let anchor := match target with PB_EMA50 => e50 | PB_EMA20 => entry end in
  let floor_ := to_stop sd anchor (atr * of_Z 1) in
  match sd with
  | BUY => let ls := points_of LOW ps in
           let swing := match ls with [] => entry - atr * of_Z 2 | _ => min_list ls end in
           Math_min swing floor_ - spreadBuffer
  | SELL => let hs := points_of HIGH ps in
            let swing := match hs with [] => entry + atr * of_Z 2 | _ => max_list hs end in
            Math_max swing floor_ + spreadBuffer
  end.

Definition session_points (london ny : Z) : Z :=
  if hour_in london 13 17 && hour_in ny 8 12 then 7 else if hour_in london 8 13 then 3 else 0.

Definition regime_string (r : DetailedRegime) : string :=
  match r with
  | STRONG_TREND => "STRONG_TREND" | WEAK_TREND => "WEAK_TREND" | RANGING => "RANGING"
  | VOLATILE => "VOLATILE" | TRANSITIONING => "TRANSITIONING"
  end.

Definition adx_tag (sd : Side) : string := match sd with BUY => "ADX_BULL" | SELL => "ADX_BEAR" end.
Definition tag_if (b : bool) (t : string) : list string := if b then [t] else [].

(** The signal of an accepted pullback. *)
Definition trend_signal (cs : list BacktestCandle) (idx : Z) (c : BacktestCandle) (rs : RegimeState) (sd : Side)
    (target : PullbackTarget) (e50 rsi atr spread : num) (precision quality : Z) (engulfing strong : bool)
    : SetupSignal :=
  let rp := getRegimeParams (rs_regime rs) in
  let entry := to_target sd (close c) (spread / of_Z 2) in
  let ps := detectSwingPoints cs (Z.max 0 (idx - 50)) idx 2 in
  let sl := clamp_stop sd entry (trend_stop sd target entry e50 atr ps) (atr * of_Z 1) (atr * slClampMaxAtr rp) in
  let risk := nabs (entry - sl) in
  let round := round_price (pow10 precision) in {|
  sg_side := sd;
  sg_entryPrice := round entry;
  sg_slPrice := round sl;
  sg_tpPrice := round (to_target sd entry (risk * trendTpR rp));
  sg_setupTags := [match target with PB_EMA50 => "PULLBACK_EMA50" | PB_EMA20 => "PULLBACK_EMA20" end;
                   "V6.0"; regime_string (rs_regime rs)]%string
                  ++ tag_if engulfing "ENGULFING" ++ tag_if strong "STRONG_CLOSE" ++ [adx_tag sd];
  sg_h1Bias := rs_direction rs;
  sg_rsiAtEntry := round2 rsi;
  sg_atrAtEntry := Math_round (atr * of_Z 100000) / of_Z 100000;
  sg_setupType := Some ST_TREND_PULLBACK;
  sg_qualityScore := Some quality;
  sg_regimeTradeParams := Some rp |}.

Section evaluators.
Context `{TimeZones}.
Context (m15Candles : list BacktestCandle) (m15 : IndicatorState).
Context (h1Candles : list BacktestCandle) (h1 : IndicatorState).

(** The code after the session filter. *)
Definition trend_entry (idx : Z) (c : BacktestCandle) (spread : num) (precision : Z) (rs : RegimeState)
    (minQuality : Z) (e20 e50 rsi atr baseline : num) : Res (option SetupSignal) :=
  match trend_side rs rsi with
  | None => Ok None
  | Some sd =>
      let stability := getH1RegimeStabilityCount h1Candles h1 (openTime c) 5 in
      let atrRatio := if negb (is_nan baseline) && (baseline >? of_Z 0) then atr / baseline else of_Z 1 in
      match bias_points (rs_regime rs) sd (getH1Bias h1Candles h1 (openTime c)) with
      | None => Ok None
      | Some bp =>
          let q1 := (trend_quality rs sd stability atrRatio rsi + bp)%Z in
          if (q1 <? minQuality)%Z then Ok None
          else
            let q2 := (q1 + ema_slope_points sd e20 (ind (ema20 m15) (idx - 4)))%Z in
            if (q2 <? minQuality)%Z then Ok None
            else match pullback c (rs_adx rs) e20 e50 atr with
            | None => Ok None
            | Some (target, ema, tolerance) =>
                if negb (commits sd c ema tolerance) then Ok None
                else
                  let engulfing := detectEngulfing m15Candles idx in
                  let strong := detectStrongClose c in
                  if negb engulfing && negb strong then Ok None
                  else
                    (london <-! getLocalHour (openTime c) "Europe/London" ;;
                     ny <-! getLocalHour (openTime c) "America/New_York" ;;
                     let q3 := (q2 + (if engulfing then 5 else 0) + (if strong then 3 else 0)
                                + session_points london ny)%Z in
                     Ok (Some (trend_signal m15Candles idx c rs sd target e50 rsi atr spread precision q3
                                 engulfing strong)))%js
            end
      end
  end.

Definition evaluateSetup (idx : Z) (spread minAtr : num) (precision : Z) (rs : RegimeState) (minQuality : Z)
    : Res (option SetupSignal) :=
  let e20 := ind (ema20 m15) idx in
  let e50 := ind (ema50 m15) idx in
  let rsi := ind (rsi14 m15) idx in
  let atr := ind (atr14 m15) idx in
  let baseline := ind (atrBaseline m15) idx in
  if (idx <? 50)%Z then Ok None
  else if is_nan e20 || is_nan e50 || is_nan rsi || is_nan atr || (atr =? of_Z 0) then Ok None
  else if atr <? minAtr then Ok None
  else if extreme_volatility atr baseline then Ok None
  else match zlookup m15Candles idx with
  | None => Throw TypeError
  | Some c =>
      (active <-! isActiveTradingSession (openTime c) ;;
       if negb active then Ok None
       else trend_entry idx c spread precision rs minQuality e20 e50 rsi atr baseline)%js
  end.

(** ** Range engine *)
Definition range_side (c : BacktestCandle) (lower upper rsi : num) : option Side :=
  if (low c <=? lower) && (rsi <? of_Z 30) && (close c >? open c) then Some BUY
  else if (high c >=? upper) && (rsi >? of_Z 70) && (close c <? open c) then Some SELL
  else None.

Definition range_quality (engulfing strong pin : bool) (rsi : num) (durationBars : Z) : Z :=
  (50 + (if engulfing then 5 else 0) + (if strong then 3 else 0) + (if pin then 5 else 0)
   + (if ((rsi <? of_Z 25) || (rsi >? of_Z 75))%num then 5 else 0)
   + (if (3 <=? durationBars)%Z then 5 else 0))%Z.

Definition range_entry (idx : Z) (c : BacktestCandle) (spread : num) (precision : Z) (rs : RegimeState)
    (minQuality : Z) (e50 rsi atr : num) : option SetupSignal :=
  let upper := e50 + atr * lit 15 1 in
  let lower := e50 - atr * lit 15 1 in
  match range_side c lower upper rsi with
  | None => None
  | Some sd =>
      let engulfing := detectEngulfing m15Candles idx in
      let strong := detectStrongClose c in
      let pin := detectPinBar c sd in
      if negb engulfing && negb strong && negb pin then None
      else
        let quality := range_quality engulfing strong pin rsi (rs_durationBars rs) in
        if (quality <? minQuality)%Z then None
        else
          let entry := to_target sd (close c) (spread / of_Z 2) in
          let band := match sd with BUY => lower | SELL => upper end in
          let sl := clamp_stop sd entry (to_stop sd band (atr * lit 5 1)) (atr * lit 5 1) (atr * of_Z 2) in
          let risk := nabs (entry - sl) in
          let reward := nabs (e50 - entry) in
          if (risk =? of_Z 0) || (reward / risk <? lit 8 1) then None
          else
            let round := round_price (pow10 precision) in
            Some {|
              sg_side := sd; sg_entryPrice := round entry; sg_slPrice := round sl; sg_tpPrice := round e50;
              sg_setupTags := ["RANGE_ENGINE"; "MEAN_REVERSION"; "V6.0"]%string ++ tag_if engulfing "ENGULFING"
                ++ tag_if strong "STRONG_CLOSE" ++ tag_if pin "PIN_BAR"
                ++ [match sd with BUY => "RSI_OVERSOLD" | SELL => "RSI_OVERBOUGHT" end]%string;
              sg_h1Bias := NEUTRAL; sg_rsiAtEntry := round2 rsi;
              sg_atrAtEntry := Math_round (atr * of_Z 100000) / of_Z 100000;
              sg_setupType := Some ST_RANGE_REVERSION; sg_qualityScore := Some quality;
              sg_regimeTradeParams := Some (getRegimeParams RANGING) |}
  end.

Definition evaluateRangeSetup (idx : Z) (spread minAtr : num) (precision : Z) (rs : RegimeState)
    (minQuality : Z) : Res (option SetupSignal) :=
  let e50 := ind (ema50 m15) idx in
  let rsi := ind (rsi14 m15) idx in
  let atr := ind (atr14 m15) idx in
  if (idx <? 50)%Z then Ok None
  else if is_nan e50 || is_nan rsi || is_nan atr || (atr =? of_Z 0) then Ok None
  else if atr <? minAtr then Ok None
  else if extreme_volatility atr (ind (atrBaseline m15) idx) then Ok None
  else match zlookup m15Candles idx with
  | None => Throw TypeError
  | Some c =>
      (active <-! isActiveTradingSession (openTime c) ;;
       if negb active then Ok None
       else if negb (bool_decide (rs_regime rs = RANGING)) && negb (bool_decide (rs_regime rs = TRANSITIONING))
       then Ok None
       else if rs_adx rs >=? of_Z 20 then Ok None
       else Ok (range_entry idx c spread precision rs minQuality e50 rsi atr))%js
  end.

(** ** Gap fills *)
Definition fvg_adx_points (adx : num) : Z :=
  if adx >=? of_Z 25 then 10 else if adx >=? of_Z 20 then 5 else if adx >=? of_Z 15 then 0 else -10.

Definition fvg_quality (rs : RegimeState) (bias : D1Bias) (slDistance atr rsi : num) : Z :=
  (55 + fvg_adx_points (rs_adx rs)
   + (if (slDistance >? atr * of_Z 2)%num then -10 else if (slDistance >? atr * lit 15 1)%num then -5 else 0)
   + match rs_regime rs with
     | STRONG_TREND => if bool_decide (bias = NEUTRAL) then 0 else 10
     | VOLATILE => -10
     | _ => 0
     end
   + (if mid_rsi rsi then 5 else 0))%Z.

(** The bar enters the zone and closes in the direction of the gap. *)
Definition fills (g : FairValueGap) (c : BacktestCandle) : bool :=
  match fg_direction g with
  | BUY => negb ((low c >? fg_zoneHigh g) || (high c <? fg_zoneLow g)) && negb (close c <=? open c)
  | SELL => negb ((high c <? fg_zoneLow g) || (low c >? fg_zoneHigh g)) && negb (close c >=? open c)
  end.

(** The averages must not oppose a gap when the H1 bias is neutral. *)
Definition ema_opposes (sd : Side) (e20 e50 : num) : bool :=
  both e20 e50 && match sd with BUY => e20 <? e50 | SELL => e20 >? e50 end.

Definition fvg_eligible (idx : Z) (c : BacktestCandle) (bias : D1Bias) (rsi : num) (g : FairValueGap) : bool :=
  negb (fg_traded g) && negb (fg_expiryCandles g <? idx - fg_createdAtIndex g)%Z
  && negb (idx <=? fg_createdAtIndex g)%Z
  && negb (match side_of bias with Some sd => negb (bool_decide (sd = fg_direction g)) | None => false end)
  && negb ((rsi <? of_Z 20) || (rsi >? of_Z 80))
  && negb (bool_decide (bias = NEUTRAL) && ema_opposes (fg_direction g) (ind (ema20 m15) idx) (ind (ema50 m15) idx))
  && fills g c.

(** One turn of the loop over the gaps. *)
Definition try_fvg (idx : Z) (c : BacktestCandle) (spread : num) (precision : Z) (rs : RegimeState)
    (minQuality : Z) (atr rsi : num) (g : FairValueGap) : option SetupSignal :=
  let rp := getRegimeParams (rs_regime rs) in
  let bias := hr_bias (getH1Regime h1Candles h1 (openTime c)) in
  if negb (fvg_eligible idx c bias rsi g) then None
  else
    let sd := fg_direction g in
    let entry := to_target sd (close c) (spread / of_Z 2) in
    let zone := match sd with BUY => fg_zoneLow g | SELL => fg_zoneHigh g end in
    let sl0 := to_stop sd zone (atr * lit 3 1) in
    if nabs (entry - sl0) >? atr * of_Z 3 then None
    else
      let sl := clamp_stop sd entry sl0 (atr * lit 6 1) (atr * slClampMaxAtr rp) in
      let risk := nabs (entry - sl) in
      let quality := fvg_quality rs bias risk atr rsi in
      if (quality <? minQuality)%Z then None
      else
        let round := round_price (pow10 precision) in
        Some {|
          sg_side := sd; sg_entryPrice := round entry; sg_slPrice := round sl;
          sg_tpPrice := round (to_target sd entry (risk * fvgTpR rp));
          sg_setupTags := ["FVG_FILL"; "V6.0"; regime_string (rs_regime rs); adx_tag sd]%string;
          sg_h1Bias := bias; sg_rsiAtEntry := round2 rsi;
          sg_atrAtEntry := Math_round (atr * of_Z 100000) / of_Z 100000;
          sg_setupType := Some ST_FVG_FILL; sg_qualityScore := Some quality; sg_regimeTradeParams := Some rp |}.

Definition evaluateFVGEntry (idx : Z) (activeFVGs : list FairValueGap) (spread minAtr : num) (precision : Z)
    (rs : RegimeState) (minQuality : Z) : Res (option SetupSignal) :=
  let atr := ind (atr14 m15) idx in
  let rsi := ind (rsi14 m15) idx in
  if (idx <? 50)%Z then Ok None
  else if is_nan atr || (atr =? of_Z 0) || is_nan rsi then Ok None
  else if atr <? minAtr then Ok None
  else if extreme_volatility atr (ind (atrBaseline m15) idx) then Ok None
  else match zlookup m15Candles idx with
  | None => Throw TypeError
  | Some c =>
      (active <-! isActiveTradingSession (openTime c) ;;
       if negb active then Ok None
       else if rs_adx rs <? of_Z 10 then Ok None
       else Ok (first_some (try_fvg idx c spread precision rs minQuality atr rsi) activeFVGs))%js
  end.

(** ** Scores of the signals that carry none *)
Definition has (t : string) (s : SetupSignal) : bool := bool_decide (t ∈ sg_setupTags s).

Definition h1_adx_score (adx : num) : Z :=
  if adx >=? of_Z 30 then 20 else if adx >=? of_Z 25 then 10 else if adx >=? of_Z 20 then 5 else 0.

Definition confirmation_score (s : SetupSignal) : Z :=
  if has "ENGULFING" s then 10 else if has "STRONG_CLOSE" s || has "PIN_BAR" s then 8 else 0.

Definition stack_score (sd : Side) (e20 e50 e200 : num) : Z :=
  if both e20 e50 && negb (is_nan e200) then
    match sd with
    | BUY => if (e20 >? e50) && (e50 >? e200) then 10 else 0
    | SELL => if (e20 <? e50) && (e50 <? e200) then 10 else 0
    end
  else 0.

Definition hour_score (london ny : Z) : Z :=
  if hour_in london 13 17 && hour_in ny 8 12 then 7
  else if hour_in london 8 17 then 5
  else if hour_in ny 8 14 then 3 else 0.

Definition calculateQualityScore (idx : Z) (s : SetupSignal) : Res Z :=
  match sg_qualityScore s with
  | Some q => Ok q
  | None =>
      match zlookup m15Candles idx with
      | None => Throw TypeError
      | Some c =>
          let h := getH1Regime h1Candles h1 (openTime c) in
          let stability := getH1RegimeStabilityCount h1Candles h1 (openTime c) 5 in
          let baseline := ind (atrBaseline m15) idx in
          let ratio := ind (atr14 m15) idx / baseline in
          (london <-! getLocalHour (openTime c) "Europe/London" ;;
           ny <-! getLocalHour (openTime c) "America/New_York" ;;
           Ok (h1_adx_score (hr_h1Adx h)
               + (if mid_rsi (ind (rsi14 m15) idx) then 10 else 0)
               + (if bool_decide (side_of (hr_bias h) = Some (sg_side s)) then 15 else 0)
               + confirmation_score s
               + (if (3 <=? stability)%Z then 10 else if (2 <=? stability)%Z then 5 else 0)
               + stack_score (sg_side s) (ind (ema20 m15) idx) (ind (ema50 m15) idx) (ind (ema200 m15) idx)
               + hour_score london ny
               + (if (negb (is_nan baseline) && (baseline >? of_Z 0) && (ratio >=? lit 8 1) && (ratio <=? lit 13 1))%num
                  then 10 else 0))%Z)%js
      end
  end.
End evaluators.

(** ** Swings, breaks and gaps the engine tracks *)

(** [push], and [shift] beyond twenty. *)
Definition push20 (p : SwingPoint) (l : list SwingPoint) : list SwingPoint :=
  let l' := l ++ [p] in if (20 <? zlen l')%Z then drop 1 l' else l'.

Definition updateSwingTracker (t : SwingPointTracker) (cs : list BacktestCandle) (idx lookback : Z)
    : SwingPointTracker :=
  let i := (idx - lookback)%Z in
  if (i <? lookback)%Z || (zlen cs <=? i)%Z then t
  else match zlookup cs i with
  | None => t
  | Some c => {|
      recentHighs := if fractal above cs i lookback
                     then push20 {| sp_index := i; sp_price := high c; sp_type := HIGH |} (recentHighs t)
                     else recentHighs t;
      recentLows := if fractal below cs i lookback
                    then push20 {| sp_index := i; sp_price := low c; sp_type := LOW |} (recentLows t)
                    else recentLows t |}
  end.

Definition tracked (sd : Side) (price : num) (existing : list BOSLevel) : bool :=
  existsb (fun l => bool_decide (bl_direction l = sd) && (nabs (bl_brokenLevel l - price) <? lit 1 2)) existing.

Definition detectBOSEvents (c : BacktestCandle) (idx : Z) (t : SwingPointTracker) (existing : list BOSLevel)
    : list BOSLevel :=
  let level sd p := {| bl_direction := sd; bl_brokenLevel := sp_price p; bl_breakIndex := idx;
                       bl_traded := false; bl_expiryCandles := 48 |} in
  (level BUY <$> List.filter (fun p => (close c >? sp_price p) && negb (tracked BUY (sp_price p) existing)) (recentHighs t)) ++
  (level SELL <$> List.filter (fun p => (close c <? sp_price p) && negb (tracked SELL (sp_price p) existing)) (recentLows t)).

Definition detectFVGs (cs : list BacktestCandle) (m15 : IndicatorState) (idx : Z) : list FairValueGap :=
  if (idx <? 2)%Z then []
  else
    let atr := ind (atr14 m15) idx in
    if is_nan atr || (atr =? of_Z 0) then []
    else match zlookup cs idx, zlookup cs (idx - 1), zlookup cs (idx - 2) with
    | Some curr, Some prev, Some prev2 =>
        let body := nabs (close prev - open prev) in
        let range := high prev - low prev in
        let gap sd hi lo := {| fg_direction := sd; fg_zoneHigh := hi; fg_zoneLow := lo;
                               fg_createdAtIndex := idx; fg_expiryCandles := 96; fg_traded := false |} in
        if range =? of_Z 0 then []
        else if body / range <? lit 4 1 then []
        else if range <? atr * lit 5 1 then []
        else (if low curr >? high prev2 then [gap BUY (low curr) (high prev2)] else []) ++
             (if high curr <? low prev2 then [gap SELL (low prev2) (high curr)] else [])
    | _, _, _ => []
    end.
