(* ===== verification/V6Engines.v ===== *)
(** * The three V6 entry engines

    src/backtest/engine/bb-reversal-evaluator.ts, ema-cross-evaluator.ts and
    momentum-continuation-evaluator.ts.  The Bollinger bands come from the third-party
    package technicalindicators; the module keeps the last bands it computed in a
    cache, which is a state of this model. *)
From S2P Require Import Prelude JsNum JsDate Types V6Evaluator Indicators.
Local Open Scope num_scope.

(** [BollingerBands.calculate]: upper, lower and middle. *)
Class Bollinger := BollingerBands : Z -> num -> list num -> list (num * num * num).

(** ** BB reversal *)
Module BB.

Definition BB_PERIOD : Z := 20.
Definition BB_STDDEV : num := of_Z 2.
Definition RSI_LONG_EXTREME : num := of_Z 32.
Definition RSI_SHORT_EXTREME : num := of_Z 68.
Definition SL_BUFFER_ATR : num := lit 30 2.
Definition TP_R_MULTIPLE : num := of_Z 1.
Definition MIN_BAND_WIDTH_RATIO : num := lit 6 1.

Record Bands := { upper : list num; lower : list num; middle : list num }.
(** [_bbCacheKey] and [_bbCache]. *)
Definition Cache : Type := option (string * Bands).

Definition cache_key (cs : list BacktestCandle) : string :=
  dec_string (zlen cs) +:+ "-" +:+ from_option openTime "" (zlookup cs 0)
  +:+ "-" +:+ from_option openTime "" (zlookup cs (zlen cs - 1)).

Definition bands `{Bollinger} (cs : list BacktestCandle) : Res Bands :=
  let closes := close <$> cs in
  let raw := BollingerBands BB_PERIOD BB_STDDEV closes in
  let n := length closes in
  (u <-! pad n ((fun r => r.1.1) <$> raw) ;;
   l <-! pad n ((fun r => r.1.2) <$> raw) ;;
   m <-! pad n (snd <$> raw) ;;
   Ok {| upper := u; lower := l; middle := m |})%js.

Definition computeBB `{Bollinger} (cs : list BacktestCandle) : M Cache Bands := fun cache =>
  let key := cache_key cs in
  match cache with
  | Some (k, b) => if String.eqb k key then (cache, Ok b)
                   else match bands cs with Ok b' => (Some (key, b'), Ok b') | Throw e => (cache, Throw e) end
  | None => match bands cs with Ok b' => (Some (key, b'), Ok b') | Throw e => (cache, Throw e) end
  end.

Definition bullishReversal (cs : list BacktestCandle) (i : Z) : bool :=
  if (i <? 1)%Z then false
  else match zlookup cs i, zlookup cs (i - 1) with
  | Some c, Some p => (low c <? low p) && (close c >? close p) && (close c >? open c)
  | _, _ => false
  end.

Definition bearishReversal (cs : list BacktestCandle) (i : Z) : bool :=
  if (i <? 1)%Z then false
  else match zlookup cs i, zlookup cs (i - 1) with
  | Some c, Some p => (high c >? high p) && (close c <? close p) && (close c <? open c)
  | _, _ => false
  end.

(** [String(x)] of an integer. *)
Definition int_string (x : num) : string :=
  match x with
  | SpecFloat.S754_nan => "NaN"
  | SpecFloat.S754_infinity s => if s then "-Infinity" else "Infinity"
  | SpecFloat.S754_zero _ => "0"
  | SpecFloat.S754_finite s m e => dec_string (let z := floor_div (Z.pos m) e in if s then (- z)%Z else z)
  end.

Definition agree (sd : Side) (bias : D1Bias) : bool := bool_decide (side_of bias = Some sd).

(** The signal of a tagged band; none when the stop is at the entry. *)
Definition bb_signal (sd : Side) (c : BacktestCandle) (up lo mid atr rsi spread : num) (precision : Z)
    (bias : D1Bias) : option SetupSignal :=
  let entry := to_target sd (close c) (spread / of_Z 2) in
  let extreme := match sd with BUY => Math_min (low c) lo | SELL => Math_max (high c) up end in
  let sl := to_stop sd extreme (atr * SL_BUFFER_ATR) in
  let slPoints := match sd with BUY => nabs (entry - sl) | SELL => nabs (sl - entry) end in
  if slPoints <=? of_Z 0 then None
  else
    let atR := to_target sd entry (slPoints * TP_R_MULTIPLE) in
    let tp := match sd with BUY => Math_min mid atR | SELL => Math_max mid atR end in
    let round := round_price (pow10 precision) in
    Some {|
      sg_side := sd; sg_entryPrice := round entry; sg_slPrice := round sl; sg_tpPrice := round tp;
      sg_setupTags := ["BB_REVERSAL"; match sd with BUY => "LONG_BB" | SELL => "SHORT_BB" end;
                       "RSI" +:+ int_string (Math_round rsi)]%string ++ tag_if (agree sd bias) "H1_AGREE";
      sg_h1Bias := bias; sg_rsiAtEntry := rsi; sg_atrAtEntry := atr;
      sg_setupType := None; sg_qualityScore := None; sg_regimeTradeParams := None |}.

Definition bb_side (cs : list BacktestCandle) (i : Z) (c : BacktestCandle) (up lo rsi : num) : option Side :=
  if (low c <=? lo) && (rsi <=? RSI_LONG_EXTREME) && bullishReversal cs i then Some BUY
  else if (high c >=? up) && (rsi >=? RSI_SHORT_EXTREME) && bearishReversal cs i then Some SELL
  else None.

Definition evaluateBBReversal `{TimeZones} `{Bollinger} (m15Candles : list BacktestCandle) (m15 : IndicatorState)
    (h1Candles : list BacktestCandle) (h1 : IndicatorState) (i : Z) (spread minAtr : num) (precision : Z)
    (rs : RegimeState) : M Cache (option SetupSignal) :=
  if (i <? BB_PERIOD + 1)%Z then m_ret None
  else match rs_regime rs with
  | STRONG_TREND | WEAK_TREND | VOLATILE => m_ret None
  | RANGING | TRANSITIONING =>
      match zlookup m15Candles i with
      | None => m_throw TypeError
      | Some c =>
          (active <-- m_lift (isActiveTradingSession (openTime c)) ;;
           let atr := ind (atr14 m15) i in
           let baseline := ind (atrBaseline m15) i in
           let rsi := ind (rsi14 m15) i in
           if negb active then m_ret None
           else if is_nan atr || (atr <? minAtr) || is_nan rsi then m_ret None
           else
             bb <-- computeBB m15Candles ;;
             let up := ind (upper bb) i in
             let lo := ind (lower bb) i in
             let mid := ind (middle bb) i in
             m_ret (if is_nan up || is_nan lo || is_nan mid then None
                    else if negb (is_nan baseline) && (baseline >? of_Z 0)
                            && ((up - lo) / baseline <? MIN_BAND_WIDTH_RATIO) then None
                    else
                      let bias := getH1Bias h1Candles h1 (openTime c) in
                      match bb_side m15Candles i c up lo rsi with
                      | Some sd => bb_signal sd c up lo mid atr rsi spread precision bias
                      | None => None
                      end))%js
      end
  end.
End BB.

(** ** EMA cross and retest *)
Module Cross.

Definition CROSS_LOOKBACK : Z := 20.
Definition RETEST_TOLERANCE_ATR : num := lit 5 1.
Definition TP_R_MULTIPLE : num := lit 15 1.
Definition SL_BUFFER_ATR : num := lit 4 1.
Definition MIN_CROSS_SEPARATION : num := of_Z 1.

(** The cross at [k], when there is one. *)
Definition cross_at (e20 e50 : list num) (k : Z) : option Side :=
  let above := ind e20 k >? ind e50 k in
  let wasAbove := ind e20 (k - 1) >? ind e50 (k - 1) in
  if negb (Bool.eqb above wasAbove) && both (ind e20 k) (ind e50 k)
  then Some (if above then BUY else SELL) else None.

(** The newest cross of the lookback before [i]. *)
Definition detectRecentCross (e20 e50 : list num) (i : Z) : option (Side * Z) :=
  first_some (fun k => (fun sd => (sd, k)) <$> cross_at e20 e50 k)
    (down_from (i - 1) (Z.max 1 (i - CROSS_LOOKBACK))).

(** The bar touches the fast average and closes beyond it. *)
Definition retests (sd : Side) (c : BacktestCandle) (e20 tolerance : num) : bool :=
  match sd with
  | BUY => (low c <=? e20 + tolerance) && (low c >=? e20 - tolerance * of_Z 2)
           && (close c >? e20) && (close c >? open c)
  | SELL => (high c >=? e20 - tolerance) && (high c <=? e20 + tolerance * of_Z 2)
            && (close c <? e20) && (close c <? open c)
  end.

Definition cross_signal (sd : Side) (c : BacktestCandle) (e50 atr rsi spread : num) (precision : Z) (bias : D1Bias)
    : option SetupSignal :=
  let entry := to_target sd (close c) (spread / of_Z 2) in
  let extreme := match sd with BUY => Math_min (low c) e50 | SELL => Math_max (high c) e50 end in
  let sl := to_stop sd extreme (atr * SL_BUFFER_ATR) in
  let slPoints := match sd with BUY => nabs (entry - sl) | SELL => nabs (sl - entry) end in
  if slPoints <=? of_Z 0 then None
  else
    let round := round_price (pow10 precision) in
    Some {|
      sg_side := sd; sg_entryPrice := round entry; sg_slPrice := round sl;
      sg_tpPrice := round (to_target sd entry (slPoints * TP_R_MULTIPLE));
      sg_setupTags := ["EMA_CROSS"; match sd with BUY => "BUY_RETEST" | SELL => "SELL_RETEST" end]%string
                      ++ tag_if (BB.agree sd bias) "H1_AGREE";
      sg_h1Bias := bias; sg_rsiAtEntry := rsi; sg_atrAtEntry := atr;
      sg_setupType := None; sg_qualityScore := None; sg_regimeTradeParams := None |}.

Definition evaluateEmaCross `{TimeZones} (m15Candles : list BacktestCandle) (m15 : IndicatorState)
    (h1Candles : list BacktestCandle) (h1 : IndicatorState) (i : Z) (spread minAtr : num) (precision : Z)
    (rs : RegimeState) : Res (option SetupSignal) :=
  if (i <? CROSS_LOOKBACK + 2)%Z then Ok None
  else if bool_decide (rs_regime rs = VOLATILE) then Ok None
  else match zlookup m15Candles i with
  | None => Throw TypeError
  | Some c =>
      (active <-! isActiveTradingSession (openTime c) ;;
       let atr := ind (atr14 m15) i in
       let e20 := ind (ema20 m15) i in
       let e50 := ind (ema50 m15) i in
       if negb active then Ok None
       else if is_nan atr || (atr <? minAtr) then Ok None
       else if is_nan e20 || is_nan e50 then Ok None
       else match detectRecentCross (ema20 m15) (ema50 m15) i with
       | None => Ok None
       | Some (sd, _) =>
           if nabs (e20 - e50) <? atr * MIN_CROSS_SEPARATION then Ok None
           else if negb (retests sd c e20 (atr * RETEST_TOLERANCE_ATR)) then Ok None
           else Ok (cross_signal sd c e50 atr (default (of_Z 50) (zlookup (rsi14 m15) i)) spread precision
                      (getH1Bias h1Candles h1 (openTime c)))
       end)%js
  end.
End Cross.

(** ** Momentum continuation *)
Module Momentum.

Definition TP_R : num := lit 12 1.
Definition SL_BUFFER_ATR : num := lit 5 1.
Definition MIN_BODY_RATIO : num := lit 55 2.

Definition closes_in (sd : Side) (c : BacktestCandle) : bool :=
  match sd with BUY => close c >? open c | SELL => close c <? open c end.

(** Three of the last four bars close in the direction. *)
Definition consecutiveDirection (cs : list BacktestCandle) (i : Z) (sd : Side) : bool :=
  if (i <? 4)%Z then false
  else (3 <=? zlen (List.filter (fun k => match zlookup cs k with Some c => closes_in sd c | None => false end)
                      (down_from i (i - 3))))%Z.

Definition momentum_side (cs : list BacktestCandle) (i : Z) (c : BacktestCandle) (e20 : num) (bias : D1Bias)
    : option Side :=
  let isBull := close c >? open c in
  if isBull && (close c >? e20) && negb (bool_decide (bias = BEARISH)) && consecutiveDirection cs i BUY then Some BUY
  else if negb isBull && (close c <? e20) && negb (bool_decide (bias = BULLISH)) && consecutiveDirection cs i SELL
  then Some SELL
  else None.

Definition momentum_signal (sd : Side) (c : BacktestCandle) (e20 atr rsi spread : num) (precision : Z) (bias : D1Bias)
    : option SetupSignal :=
  let entry := to_target sd (close c) (spread / of_Z 2) in
  let beyond := to_stop sd e20 (atr * SL_BUFFER_ATR) in
  let sl := match sd with BUY => Math_min (low c) beyond | SELL => Math_max (high c) beyond end in
  let slPoints := match sd with BUY => nabs (entry - sl) | SELL => nabs (sl - entry) end in
  if (slPoints <=? of_Z 0) || (slPoints >? atr * of_Z 3) then None
  else
    let round := round_price (pow10 precision) in
    Some {|
      sg_side := sd; sg_entryPrice := round entry; sg_slPrice := round sl;
      sg_tpPrice := round (to_target sd entry (slPoints * TP_R));
      sg_setupTags := ["MOMENTUM_CONT"; match sd with BUY => "BUY_MOM" | SELL => "SELL_MOM" end]%string
                      ++ tag_if (BB.agree sd bias) "H1_AGREE";
      sg_h1Bias := bias; sg_rsiAtEntry := rsi; sg_atrAtEntry := atr;
      sg_setupType := None; sg_qualityScore := None; sg_regimeTradeParams := None |}.

Definition evaluateMomentumContinuation `{TimeZones} (m15Candles : list BacktestCandle) (m15 : IndicatorState)
    (h1Candles : list BacktestCandle) (h1 : IndicatorState) (i : Z) (spread minAtr : num) (precision : Z)
    (rs : RegimeState) : Res (option SetupSignal) :=
  if (i <? 4)%Z then Ok None
  else if bool_decide (rs_regime rs = VOLATILE) then Ok None
  else match zlookup m15Candles i with
  | None => Throw TypeError
  | Some c =>
      (active <-! isActiveTradingSession (openTime c) ;;
       let atr := ind (atr14 m15) i in
       let e20 := ind (ema20 m15) i in
       let range := high c - low c in
       if negb active then Ok None
       else if is_nan atr || (atr <? minAtr) then Ok None
       else if is_nan e20 then Ok None
       else if range =? of_Z 0 then Ok None
       else if nabs (close c - open c) / range <? MIN_BODY_RATIO then Ok None
       else
         let bias := getH1Bias h1Candles h1 (openTime c) in
         Ok (match momentum_side m15Candles i c e20 bias with
             | Some sd => momentum_signal sd c e20 atr (default (of_Z 50) (zlookup (rsi14 m15) i)) spread precision bias
             | None => None
             end))%js
  end.
End Momentum.
