(* ===== verification/V6Engine.v ===== *)
(** * V6 backtest engine

    src/backtest/engine/backtest-engine.ts (class BacktestEngine): one turn of [bar] per
    M15 bar, over the risk manager, the performance tracker, the open positions, the
    cooldowns, the regime state, the tracked breaks and gaps, and the module's Bollinger
    cache, which outlives a run. *)
From S2P Require Import Prelude JsNum JsDate Types Instruments NewsCalendar RiskManager PositionSimulator.
From S2P Require Import SweepDetector Indicators V6Evaluator V6Engines.
From S2P Require PerformanceTracker SmcEngine.
Local Open Scope num_scope.

Record SlCount := { sl_buy : Z; sl_sell : Z }.
Definition no_sl : SlCount := {| sl_buy := 0; sl_sell := 0 |}.
Definition sl_of (sd : Side) (n : SlCount) : Z := match sd with BUY => sl_buy n | SELL => sl_sell n end.
Definition sl_inc (sd : Side) (n : SlCount) : SlCount :=
  match sd with
  | BUY => {| sl_buy := sl_buy n + 1; sl_sell := sl_sell n |}
  | SELL => {| sl_buy := sl_buy n; sl_sell := sl_sell n + 1 |}
  end.

(** The local variables the loop changes. *)
Record RunState := {
  riskManager : RiskManager;
  performanceTracker : PerformanceTracker.PerformanceTracker;
  openPositions : list V6Position;
  closedTrades : list ClosedTrade;
  cooldownUntil : Z;
  slCooldownUntil : Z;
  regimeState : option RegimeState;
  engineState : EngineState;
  dailySlCount : SlCount;
  lastDate : string;
  bbCache : BB.Cache }.

Definition set_rm (r : RiskManager) (s : RunState) : RunState := {|
  riskManager := r; performanceTracker := performanceTracker s; openPositions := openPositions s;
  closedTrades := closedTrades s; cooldownUntil := cooldownUntil s; slCooldownUntil := slCooldownUntil s;
  regimeState := regimeState s; engineState := engineState s; dailySlCount := dailySlCount s;
  lastDate := lastDate s; bbCache := bbCache s |}.
Definition set_open (l : list V6Position) (s : RunState) : RunState := {|
  riskManager := riskManager s; performanceTracker := performanceTracker s; openPositions := l;
  closedTrades := closedTrades s; cooldownUntil := cooldownUntil s; slCooldownUntil := slCooldownUntil s;
  regimeState := regimeState s; engineState := engineState s; dailySlCount := dailySlCount s;
  lastDate := lastDate s; bbCache := bbCache s |}.
Definition set_cooldowns (c sc : Z) (s : RunState) : RunState := {|
  riskManager := riskManager s; performanceTracker := performanceTracker s; openPositions := openPositions s;
  closedTrades := closedTrades s; cooldownUntil := c; slCooldownUntil := sc;
  regimeState := regimeState s; engineState := engineState s; dailySlCount := dailySlCount s;
  lastDate := lastDate s; bbCache := bbCache s |}.
Definition set_tracking (r : option RegimeState) (e : EngineState) (s : RunState) : RunState := {|
  riskManager := riskManager s; performanceTracker := performanceTracker s; openPositions := openPositions s;
  closedTrades := closedTrades s; cooldownUntil := cooldownUntil s; slCooldownUntil := slCooldownUntil s;
  regimeState := r; engineState := e; dailySlCount := dailySlCount s;
  lastDate := lastDate s; bbCache := bbCache s |}.
Definition set_daily (n : SlCount) (d : string) (s : RunState) : RunState := {|
  riskManager := riskManager s; performanceTracker := performanceTracker s; openPositions := openPositions s;
  closedTrades := closedTrades s; cooldownUntil := cooldownUntil s; slCooldownUntil := slCooldownUntil s;
  regimeState := regimeState s; engineState := engineState s; dailySlCount := n;
  lastDate := d; bbCache := bbCache s |}.
Definition set_bbCache (b : BB.Cache) (s : RunState) : RunState := {|
  riskManager := riskManager s; performanceTracker := performanceTracker s; openPositions := openPositions s;
  closedTrades := closedTrades s; cooldownUntil := cooldownUntil s; slCooldownUntil := slCooldownUntil s;
  regimeState := regimeState s; engineState := engineState s; dailySlCount := dailySlCount s;
  lastDate := lastDate s; bbCache := b |}.
(** [performanceTracker.recordTrade(result); closedTrades.push(result)] *)
Definition push_trade (t : ClosedTrade) (s : RunState) : RunState := {|
  riskManager := riskManager s; performanceTracker := PerformanceTracker.recordTrade t (performanceTracker s);
  openPositions := openPositions s; closedTrades := closedTrades s ++ [t];
  cooldownUntil := cooldownUntil s; slCooldownUntil := slCooldownUntil s;
  regimeState := regimeState s; engineState := engineState s; dailySlCount := dailySlCount s;
  lastDate := lastDate s; bbCache := bbCache s |}.

Definition on_rm {A} (m : M RiskManager A) : M RunState A := fun s =>
  let '(r, a) := m (riskManager s) in (set_rm r s, a).
Definition on_cache {A} (m : M BB.Cache A) : M RunState A := fun s =>
  let '(b, a) := m (bbCache s) in (set_bbCache b s, a).

(** What [run] computes before its loop. *)
Record Setup := {
  config : EngineConfig; version : StrategyVersion; icfg : InstrumentConfig; pairProfile : option PairProfile;
  m15Candles : list BacktestCandle; h1Candles : list BacktestCandle; d1Candles : list BacktestCandle;
  m15Indicators : IndicatorState; h1Indicators : IndicatorState; d1Indicators : option IndicatorState }.

Definition is_V6 (u : Setup) : bool := bool_decide (version u = V6).
Definition commission_of (u : Setup) (p : V6Position) : num := lotSize (base p) * commissionPerLot (icfg u).

(** ** The start of a bar *)
Definition new_day (date : string) (s : RunState) : RunState :=
  if String.eqb date (lastDate s) then s else set_daily no_sl date s.

(** The D1 bias and the news blackout, for V6 on a pair with a profile. *)
Definition bar_context (u : Setup) (c : BacktestCandle) : D1Bias * bool :=
  match is_V6 u, pairProfile u with
  | true, Some pp =>
      (match d1Indicators u with Some d => getD1Bias (d1Candles u) d (openTime c) | None => NEUTRAL end,
       pp_newsBlackoutEnabled pp && isInBlackout (openTime c) (pp_newsBlackoutMinutes pp))
  | _, _ => (NEUTRAL, false)
  end.

Definition note_context (u : Setup) (bias : D1Bias) (blackout : bool) (r : RegimeState) : RegimeState :=
  match is_V6 u, pairProfile u with
  | true, Some _ => {|
      rs_regime := rs_regime r; rs_direction := rs_direction r; rs_durationBars := rs_durationBars r;
      rs_adx := rs_adx r; rs_adxSlope := rs_adxSlope r; rs_diSeparation := rs_diSeparation r;
      rs_atrRatio := rs_atrRatio r; rs_emaStackAligned := rs_emaStackAligned r; rs_h1Idx := rs_h1Idx r;
      rs_d1Bias := Some bias; rs_inNewsBlackout := Some blackout |}
  | _, _ => r
  end.

(** Swings, new breaks and gaps; the stale ones go. *)
Definition track (u : Setup) (i : Z) (c : BacktestCandle) (e : EngineState) : EngineState :=
  let t := updateSwingTracker (swingTracker e) (m15Candles u) i 5 in
  let levels := activeBOSLevels e ++ detectBOSEvents c i t (activeBOSLevels e) in
  let gaps := activeFVGs e ++ detectFVGs (m15Candles u) (m15Indicators u) i in {|
  swingTracker := t;
  activeBOSLevels := List.filter (fun l => negb (bl_traded l) && (i - bl_breakIndex l <=? bl_expiryCandles l)%Z) levels;
  activeFVGs := List.filter (fun g => negb (fg_traded g) && (i - fg_createdAtIndex g <=? fg_expiryCandles g)%Z) gaps |}.

(** ** Open positions *)
Definition manage (c : BacktestCandle) (spread : num) (p : V6Position) : V6Position := {|
  base := updatePositionManagement (base p) c spread; isScaleIn := isScaleIn p;
  parentEntryPrice := parentEntryPrice p; hasScaleIn := hasScaleIn p |}.

Definition record_result (t : ClosedTrade) (time : string) : M RunState unit :=
  (do! on_rm (recordTrade (pnl t) time (Some (exitReason t))) ;; m_modify (push_trade t))%js.

(** The loops over the open positions from the last to the first: those [decide] closes
    are booked and removed. *)
Fixpoint close_loop (decide : V6Position -> option ClosedTrade) (after : V6Position -> ClosedTrade -> RunState -> RunState)
    (time : string) (l : list V6Position) : M RunState (list V6Position) :=
  match l with
  | [] => m_ret []
  | p :: l' =>
      (rest <-- close_loop decide after time l' ;;
       match decide p with
       | None => m_ret (p :: rest)
       | Some t => do! record_result t time ;; do! m_modify (after p t) ;; m_ret rest
       end)%js
  end.

Definition V6_MAX_BARS : Z := 48.

Definition add_tag (tag : string) (t : ClosedTrade) : ClosedTrade := {|
  ct_side := ct_side t; ct_entryPrice := ct_entryPrice t; exitPrice := exitPrice t; ct_slPrice := ct_slPrice t;
  ct_tpPrice := ct_tpPrice t; ct_lotSize := ct_lotSize t; pnl := pnl t; commission := commission t;
  ct_setupTags := ct_setupTags t ++ [tag]; ct_entryTime := ct_entryTime t; exitTime := exitTime t;
  exitReason := exitReason t; ct_h1Bias := ct_h1Bias t; ct_rsiAtEntry := ct_rsiAtEntry t;
  ct_atrAtEntry := ct_atrAtEntry t; rMultiple := rMultiple t; ct_regimeAtEntry := ct_regimeAtEntry t;
  engineType := engineType t |}.

Definition force_close_trade (u : Setup) (c : BacktestCandle) (p : V6Position) : ClosedTrade :=
  forceClosePosition (base p) (close c) (openTime c) (commission_of u p) (lotSizeUnits (icfg u))
    (Some (symbol (config u))).

Definition max_bars (u : Setup) (i : Z) (c : BacktestCandle) (p : V6Position) : option ClosedTrade :=
  if (V6_MAX_BARS <=? i - entryIndex (base p))%Z && negb (breakevenActivated (base p))
  then Some (add_tag "MAX_BARS" (force_close_trade u c p)) else None.

Definition exit_of (u : Setup) (c : BacktestCandle) (spread : num) (p : V6Position) : option ClosedTrade :=
  checkPositionExit (base p) c spread (commission_of u p) (lotSizeUnits (icfg u)) (Some (symbol (config u))).

(** The cooldowns and the stop count after an exit. *)
Definition after_exit (u : Setup) (i : Z) (p : V6Position) (t : ClosedTrade) (s : RunState) : RunState :=
  match exitReason t with
  | TP | BREAKEVEN => set_cooldowns (i + if is_V6 u then 0 else 1) (slCooldownUntil s) s
  | SL => let n := (i + if is_V6 u then 1 else 2)%Z in
          set_daily (sl_inc (side (base p)) (dailySlCount s)) (lastDate s) (set_cooldowns n n s)
  | FORCED_CLOSE => s
  end.

Definition manage_open (u : Setup) (i : Z) (c : BacktestCandle) (spread : num) : M RunState unit :=
  (s <-- m_get ;;
   let managed := manage c spread <$> openPositions s in
   still <-- (if is_V6 u
              then close_loop (max_bars u i c) (fun _ _ s => set_cooldowns (i + 1) (slCooldownUntil s) s)
                     (openTime c) managed
              else m_ret managed) ;;
   left_ <-- close_loop (exit_of u c spread) (after_exit u i) (openTime c) still ;;
   m_modify (set_open left_))%js.

(** ** Scale-ins *)
Definition MAX_EVENT_RISK_PCT : num := of_Z 20.
Definition max_event_risk (r : RiskManager) : num := getBalance r * (MAX_EVENT_RISK_PCT / of_Z 100).

(** [Math.abs(p.entryPrice - p.slPrice) * p.lotSize * lotSizeUnits] *)
Definition risk_of (u : Setup) (p : V6Position) : num :=
  nabs (entryPrice (base p) - slPrice (base p)) * lotSize (base p) * lotSizeUnits (icfg u).

Definition dir_side (b : D1Bias) (sd : Side) : bool := bool_decide (side_of b = Some sd).

(** The tests before the price is looked at. *)
Definition may_scale (rs : RegimeState) (p : V6Position) : bool :=
  negb (isScaleIn p) && negb (hasScaleIn p) && breakevenActivated (base p) &&
  negb (has_tag "RANGE_ENGINE" (setupTags (base p))) && negb (has_tag "SCALED_IN" (setupTags (base p))) &&
  negb (has_tag "LOCKER" (setupTags (base p))) && dir_side (rs_direction rs) (side (base p)).

Definition mark_parent (p : V6Position) : V6Position :=
  {| base := base p; isScaleIn := isScaleIn p; parentEntryPrice := parentEntryPrice p; hasScaleIn := true |}.

(** The scale-in of a position, when it is due. *)
Definition scale_in_of (u : Setup) (s : RunState) (i : Z) (c : BacktestCandle) (spread : num) (rs : RegimeState)
    (p : V6Position) : option V6Position :=
  let b := base p in
  let risk := nabs (entryPrice b - originalSlPrice b) in
  let halfSpread := spread / of_Z 2 in
  let currentPrice := to_stop (side b) (close c) halfSpread in
  let profit := match side b with BUY => currentPrice - entryPrice b | SELL => entryPrice b - currentPrice end in
  let r := profit / risk in
  let lot := Math_round (lotSize b * lit 5 1 * of_Z 100) / of_Z 100 in
  let scaleInRisk := nabs (currentPrice - entryPrice b) * lot * lotSizeUnits (icfg u) in
  let existing := nsum (of_Z 0) (risk_of u <$> openPositions s) in
  let entry := to_target (side b) (close c) halfSpread in
  if negb (may_scale rs p) then None
  else if risk =? of_Z 0 then None
  else if (r <? of_Z 1) || (r >? lit 15 1) then None
  else if lot <? lit 1 2 then None
  else if existing + scaleInRisk >? max_event_risk (riskManager s) then None
  else Some {|
    base := {|
      side := side b; entryPrice := round_price (price_factor (icfg u)) entry; slPrice := entryPrice b;
      tpPrice := None; originalSlPrice := entryPrice b; breakevenActivated := false;
      peakFavorablePrice := entry; lotSize := lot; entryTime := openTime c; entryIndex := i;
      setupTags := List.filter (fun t => negb (startsWith "Q" t) && negb (String.eqb t "RUNNER")
                                         && negb (String.eqb t "LOCKER")) (setupTags b) ++ ["SCALED_IN"]%string;
      h1Bias := h1Bias b; rsiAtEntry := rsiAtEntry b;
      atrAtEntry := default (atrAtEntry b) (zlookup (atr14 (m15Indicators u)) i);
      trailConfig := trailConfig b; regimeAtEntry := Some (rs_regime rs) |};
    isScaleIn := true; parentEntryPrice := Some (entryPrice b); hasScaleIn := false |}.

(** The first position that scales in is marked; its scale-in goes to the end. *)
Fixpoint scale_first (f : V6Position -> option V6Position) (l : list V6Position)
    : option (list V6Position * V6Position) :=
  match l with
  | [] => None
  | p :: l' => match f p with
               | Some q => Some (mark_parent p :: l', q)
               | None => '(l'', q) ← scale_first f l'; Some (p :: l'', q)
               end
  end.

Definition checkScaleIns (u : Setup) (i : Z) (c : BacktestCandle) (spread : num) (rs : RegimeState)
    (s : RunState) : RunState :=
  if bool_decide (getTradingMode (riskManager s) = DEFENSIVE) then s
  else if (maxOpenPositions (config u) <=? zlen (openPositions s))%Z then s
  else if PerformanceTracker.getEngineConfidence TREND_PULLBACK (performanceTracker s) <=? of_Z 50 then s
  else match scale_first (scale_in_of u s i c spread rs) (openPositions s) with
       | Some (l, q) => set_open (l ++ [q]) s
       | None => s
       end.

(** ** The minimum quality of the week *)
Definition DEFAULT_MIN_QUALITY : Z := 35.

Definition getAdjustedMinQuality (currentTime : string) (t : PerformanceTracker.PerformanceTracker) : Z :=
  let deficit := PerformanceTracker.getWeeklyTradeDeficit currentTime t in
  if (deficit =? 0)%Z then DEFAULT_MIN_QUALITY
  else match getUTCDay <$> Date_parse currentTime with
  | None => DEFAULT_MIN_QUALITY
  | Some day =>
      if (day =? 5)%Z then if (3 <=? deficit)%Z then 22 else if (2 <=? deficit)%Z then 28 else 30
      else if (day =? 4)%Z then if (2 <=? deficit)%Z then 28 else 30
      else DEFAULT_MIN_QUALITY
  end.

(** ** Routing *)

(** The first untraded, unexpired gap of the direction is marked. *)
Fixpoint mark_fvg (i : Z) (sd : Side) (l : list FairValueGap) : list FairValueGap :=
  match l with
  | [] => []
  | g :: l' =>
      if negb (fg_traded g) && bool_decide (fg_direction g = sd) && (i - fg_createdAtIndex g <=? fg_expiryCandles g)%Z
      then {| fg_direction := fg_direction g; fg_zoneHigh := fg_zoneHigh g; fg_zoneLow := fg_zoneLow g;
              fg_createdAtIndex := fg_createdAtIndex g; fg_expiryCandles := fg_expiryCandles g;
              fg_traded := true |} :: l'
      else g :: mark_fvg i sd l'
  end.

Definition set_gaps (l : list FairValueGap) (e : EngineState) : EngineState :=
  {| swingTracker := swingTracker e; activeBOSLevels := activeBOSLevels e; activeFVGs := l |}.

(** [if (!signal && guard) signal = ...] *)
Definition or_try (sig : option SetupSignal) (guard : bool) (m : M RunState (option SetupSignal))
    : M RunState (option SetupSignal) :=
  match sig with Some _ => m_ret sig | None => if guard then m else m_ret None end.

Definition trend_regime (r : DetailedRegime) : bool :=
  match r with STRONG_TREND | WEAK_TREND | TRANSITIONING => true | RANGING | VOLATILE => false end.

Definition use_BB (u : Setup) : bool :=
  is_V6 u && match pairProfile u with Some pp => bbReversal (pp_engineToggles pp) | None => false end.
Definition use_range (u : Setup) : bool :=
  negb (is_V6 u) || match pairProfile u with Some pp => rangeReversion (pp_engineToggles pp) | None => true end.

Section engine.
Context `{TimeZones} `{Bollinger}.

Definition try_gaps (u : Setup) (i : Z) (spread : num) (rs : RegimeState) (minQuality : Z)
    : M RunState (option SetupSignal) :=
  (s <-- m_get ;;
   sig <-- m_lift (evaluateFVGEntry (m15Candles u) (m15Indicators u) (h1Candles u) (h1Indicators u) i
                     (activeFVGs (engineState s)) spread (minAtr (icfg u)) (pricePrecision (icfg u)) rs minQuality) ;;
   match sig with
   | None => m_ret None
   | Some g =>
       let e := engineState s in
       do! m_modify (set_tracking (regimeState s) (set_gaps (mark_fvg i (sg_side g) (activeFVGs e)) e)) ;;
       m_ret sig
   end)%js.

Definition route (u : Setup) (i : Z) (spread : num) (rs : RegimeState) (mode : TradingMode) (minQuality : Z)
    : M RunState (option SetupSignal) :=
  let on {A} (f : list BacktestCandle -> IndicatorState -> list BacktestCandle -> IndicatorState -> A) :=
    f (m15Candles u) (m15Indicators u) (h1Candles u) (h1Indicators u) in
  let atr := minAtr (icfg u) in
  let prec := pricePrecision (icfg u) in
  let attacks := negb (bool_decide (mode = DEFENSIVE)) in
  let ranging := bool_decide (rs_regime rs = RANGING) && attacks in
  (s1 <-- m_lift (if trend_regime (rs_regime rs)
                  then on evaluateSetup i spread atr prec rs minQuality else Ok None) ;;
   s2 <-- or_try s1 true (try_gaps u i spread rs minQuality) ;;
   s3 <-- or_try s2 (ranging && use_BB u) (on_cache (on BB.evaluateBBReversal i spread atr prec rs)) ;;
   s4 <-- or_try s3 (ranging && use_range u)
            (m_lift (evaluateRangeSetup (m15Candles u) (m15Indicators u) i spread atr prec rs minQuality)) ;;
   s5 <-- or_try s4 (is_V6 u && attacks) (m_lift (on Cross.evaluateEmaCross i spread atr prec rs)) ;;
   or_try s5 (is_V6 u && attacks) (m_lift (on Momentum.evaluateMomentumContinuation i spread atr prec rs)))%js.

(** ** Quality and size *)

(** The D1 confluence: the quality and the tags it adds. *)
Definition confluence (u : Setup) (bias : D1Bias) (sd : Side) (q : Z) : Z * list string :=
  match is_V6 u, pairProfile u, side_of bias with
  | true, Some pp, Some sd' =>
      if pp_d1ConfluenceRequired pp then
        if bool_decide (sd = sd') then (Z.min 100 (q + 5), ["WITH_D1"]%string)
        else (Z.max 0 (q - 10), ["COUNTER_D1"]%string)
      else (q, [])
  | _, _, _ => (q, [])
  end.

Definition quality_floor (u : Setup) : Z :=
  match pairProfile u with Some pp => pp_qualityFloor pp | None => 35 end.

Definition engine_of (tags : list string) : EngineType :=
  if has_tag "BB_REVERSAL" tags then BB_REVERSAL
  else if has_tag "RANGE_ENGINE" tags then RANGE_ENGINE
  else if has_tag "FVG_FILL" tags then FVG_FILL else TREND_PULLBACK.

(** The guards against stacking positions of one direction. *)
Definition may_stack (u : Setup) (i : Z) (rs : RegimeState) (mode : TradingMode) (sd : Side) (slPoints lot : num)
    (s : RunState) : bool :=
  let same := List.filter (fun p => bool_decide (side (base p) = sd)) (openPositions s) in
  let ratio := ind (atr14 (m15Indicators u)) i / ind (atrBaseline (m15Indicators u)) i in
  let elevated := negb (is_nan ratio) && (ratio >=? lit 13 1) in
  match same with
  | [] => true
  | _ =>
      negb ((2 <=? zlen same)%Z || negb (forallb (fun p => breakevenActivated (base p)) same)
            || negb (bool_decide (rs_regime rs = STRONG_TREND)) || bool_decide (mode = DEFENSIVE) || elevated)
      && negb (nsum (of_Z 0) (risk_of u <$> same) + slPoints * lot * lotSizeUnits (icfg u)
               >? max_event_risk (riskManager s))
  end.

Definition mode_tag (m : TradingMode) : string :=
  match m with AGGRESSIVE => "AGGRESSIVE" | NORMAL => "NORMAL" | DEFENSIVE => "DEFENSIVE" end.

(** [{ ...basePosition, lotSize, tpPrice, setupTags }] *)
Definition position (i : Z) (c : BacktestCandle) (rs : RegimeState) (g : SetupSignal) (lot tp : num)
    (tags : list string) : V6Position := {|
  base := {|
    side := sg_side g; entryPrice := sg_entryPrice g; slPrice := sg_slPrice g; tpPrice := Some tp;
    originalSlPrice := sg_slPrice g; breakevenActivated := false; peakFavorablePrice := sg_entryPrice g;
    lotSize := lot; entryTime := openTime c; entryIndex := i; setupTags := tags;
    h1Bias := bias_string (sg_h1Bias g); rsiAtEntry := sg_rsiAtEntry g; atrAtEntry := sg_atrAtEntry g;
    trailConfig := Some (default (getRegimeParams (rs_regime rs)) (sg_regimeTradeParams g));
    regimeAtEntry := Some (rs_regime rs) |};
  isScaleIn := false; parentEntryPrice := None; hasScaleIn := false |}.

(** A strong entry opens a runner and, beside it, a locker of 30% at 1R. *)
Definition positions (u : Setup) (i : Z) (c : BacktestCandle) (rs : RegimeState) (g : SetupSignal) (q : Z)
    (lot : num) (tags : list string) : list V6Position :=
  if (bool_decide (rs_regime rs = STRONG_TREND) || (65 <=? q)%Z) && negb (has_tag "PYRAMID" tags) && (lot >=? lit 2 2)
  then
    let risk := nabs (sg_entryPrice g - sg_slPrice g) in
    let lockerTp := to_target (sg_side g) (sg_entryPrice g) (risk * of_Z 1) in
    let lockerLot := Math_round (lot * lit 3 1 * of_Z 100) / of_Z 100 in
    position i c rs g lot (sg_tpPrice g) (tags ++ ["RUNNER"]%string) ::
    (if lockerLot >=? lit 1 2
     then [position i c rs g lockerLot (round_price (price_factor (icfg u)) lockerTp) (tags ++ ["LOCKER"]%string)]
     else [])
  else [position i c rs g lot (sg_tpPrice g) tags].

(** From a signal to the positions it opens; none when a guard stops it. *)
Definition size_and_open (u : Setup) (i : Z) (c : BacktestCandle) (rs : RegimeState) (bias : D1Bias)
    (mode : TradingMode) (g : SetupSignal) (q0 : Z) (s : RunState) : list V6Position :=
  let '(q, dTags) := confluence u bias (sg_side g) q0 in
  let tags := sg_setupTags g ++ dTags ++ ["Q" +:+ dec_string q]%string in
  let slPoints := nabs (sg_entryPrice g - sg_slPrice g) in
  let conf := PerformanceTracker.getEngineConfidence (engine_of tags) (performanceTracker s) in
  let lot := calculateLotSize slPoints (Some (of_Z q)) (Some (rs_regime rs)) (Some conf) (Some (sg_entryPrice g))
               (riskManager s) in
  if is_V6 u && (q <? quality_floor u)%Z then []
  else if (3 <=? sl_of (sg_side g) (dailySlCount s))%Z then []
  else if lot <=? of_Z 0 then []
  else if negb (may_stack u i rs mode (sg_side g) slPoints lot s) then []
  else positions u i c rs g q lot (tags ++ [mode_tag mode]).

(** ** The loop *)
Definition scale_regime (r : DetailedRegime) : bool :=
  match r with STRONG_TREND | WEAK_TREND => true | _ => false end.

(** Step 2: a new setup, when risk and cooldowns allow. *)
Definition entry (u : Setup) (i : Z) (c : BacktestCandle) (spread : num) (rs : RegimeState) (bias : D1Bias)
    (blackout : bool) : M RunState unit :=
  (s <-- m_get ;;
   if (i <=? cooldownUntil s)%Z || (i <=? slCooldownUntil s)%Z || blackout then m_ret tt
   else
     ok <-- on_rm (canTrade (substring10 (openTime c)) (zlen (openPositions s))) ;;
     if negb ok then m_ret tt
     else
       s <-- m_get ;;
       let mode := getTradingMode (riskManager s) in
       sig <-- route u i spread rs mode (getAdjustedMinQuality (openTime c) (performanceTracker s)) ;;
       match sig with
       | None => m_ret tt
       | Some g =>
           q <-- m_lift (calculateQualityScore (m15Candles u) (m15Indicators u) (h1Candles u) (h1Indicators u) i g) ;;
           s <-- m_get ;;
           match size_and_open u i c rs bias mode g q s with
           | [] => m_ret tt
           | ps => m_modify (fun s => set_cooldowns (i + 1) (slCooldownUntil s) (set_open (openPositions s ++ ps) s))
           end
       end)%js.

(** The state before the positions are looked at. *)
Definition observe (u : Setup) (i : Z) (c : BacktestCandle) (s0 : RunState) : RunState :=
  let s := new_day (substring10 (openTime c)) s0 in
  let rs := detectRegime (h1Candles u) (h1Indicators u) (openTime c) (regimeState s)
              (Some (PerformanceTracker.getEngineConfidence TREND_PULLBACK (performanceTracker s))) in
  let '(bias, blackout) := bar_context u c in
  set_tracking (Some (note_context u bias blackout rs)) (track u i c (engineState s)) s.

Definition bar (u : Setup) (i : Z) (c : BacktestCandle) : M RunState unit :=
  (spread <-- m_lift (getSpread (symbol (config u)) (openTime c)) ;;
   do! m_modify (observe u i c) ;;
   do! manage_open u i c spread ;;
   s <-- m_get ;;
   let rs := default no_regime (regimeState s) in
   let '(bias, blackout) := bar_context u c in
   do! (if scale_regime (rs_regime rs) then m_modify (checkScaleIns u i c spread rs) else m_ret tt) ;;
   entry u i c spread rs bias blackout)%js.

Fixpoint bars (u : Setup) (i : Z) (cs : list BacktestCandle) : M RunState unit :=
  match cs with
  | [] => m_ret tt
  | c :: cs' => (do! bar u i c ;; bars u (i + 1)%Z cs')%js
  end.

(** The force-close at the last candle. *)
Fixpoint force_close (u : Setup) (c : BacktestCandle) (l : list V6Position) : M RunState unit :=
  match l with
  | [] => m_ret tt
  | p :: l' => (do! record_result (force_close_trade u c p) (openTime c) ;; force_close u c l')%js
  end.

Definition finish (u : Setup) : M RunState unit :=
  (s <-- m_get ;;
   match zlookup (m15Candles u) (zlen (m15Candles u) - 1) with
   | Some c => force_close u c (openPositions s)
   | None => m_ret tt
   end)%js.

Definition initial_state (r : RiskManager) (cache : BB.Cache) : RunState := {|
  riskManager := r; performanceTracker := PerformanceTracker.new_PerformanceTracker; openPositions := [];
  closedTrades := []; cooldownUntil := -1; slCooldownUntil := -1; regimeState := None;
  engineState := {| swingTracker := {| recentHighs := []; recentLows := [] |}; activeBOSLevels := []; activeFVGs := [] |};
  dailySlCount := no_sl; lastDate := ""; bbCache := cache |}.

(** The state after the run; the cache survives a throw. *)
Definition run_v6 (u : Setup) (r : RiskManager) (cache : BB.Cache) : RunState * Res unit :=
  (do! bars u 0 (m15Candles u) ;; finish u)%js (initial_state r cache).

Context `{TechnicalIndicators} (ov : Overrides).

Definition routes_to_smc (v : StrategyVersion) : bool :=
  match v with GIDEON | SMC_V2 | V6_alt => true | V5_5b | V6 => false end.

Definition prepare (m15 h1 d1 : list BacktestCandle) (ec : EngineConfig) (v : StrategyVersion)
    (ic : InstrumentConfig) (di : option IndicatorState) : Res Setup :=
  (mi <-! computeIndicators m15 ;;
   hi <-! computeIndicators h1 ;;
   Ok {| config := ec; version := v; icfg := ic; pairProfile := getPairProfile (symbol ec);
         m15Candles := m15; h1Candles := h1; d1Candles := d1;
         m15Indicators := mi; h1Indicators := hi; d1Indicators := di |})%js.

Definition run_loop (u : Setup) : M BB.Cache (list ClosedTrade * PerformanceTracker.BacktestMetrics) := fun cache =>
  match new_RiskManager (config u) with
  | Throw e => (cache, Throw e)
  | Ok r =>
      let '(s, out) := run_v6 u r cache in
      (bbCache s, res_map (fun _ => (closedTrades s,
                     PerformanceTracker.calculateMetrics (closedTrades s) (initialBalance (config u)))) out)
  end.

(** The module's cache is the state. *)
Definition run (m15 h1 d1 : list BacktestCandle) (ec : EngineConfig) (v : option StrategyVersion)
    : M BB.Cache (list ClosedTrade * PerformanceTracker.BacktestMetrics) :=
  (ic <-- m_lift (getInstrumentConfig (symbol ec)) ;;
   let v := default V5_5b v in
   di <-- m_lift (if (0 <? zlen d1)%Z then res_map Some (computeIndicators d1) else Ok None) ;;
   if routes_to_smc v then m_lift (SmcEngine.runSmcBacktest ov m15 h1 d1 ec)
   else
     u <-- m_lift (prepare m15 h1 d1 ec v ic di) ;;
     run_loop u)%js.
End engine.
