(* ===== verification/V6SignalFacts.v ===== *)
(** * Signals of the V6 engine

    Which engine may fire in which regime, under which filters: what holds of every signal
    the routing of src/backtest/engine/backtest-engine.ts returns. *)
From S2P Require Import Prelude JsNum JsDate Types Instruments RiskManager PositionSimulator.
From S2P Require Import SweepDetector Indicators V6Evaluator V6Engines V6Engine.

Section signals.
Context {TZ : TimeZones} {BO : Bollinger}.

(** The filters every engine shares: the bar lies in a session and its range is tradable. *)
Record tradable (u : Setup) (i : Z) (c : BacktestCandle) : Prop := {
  td_bar : zlookup (m15Candles u) i = Some c;
  td_session : isActiveTradingSession (openTime c) = Ok true;
  td_atr : is_nan (ind (atr14 (m15Indicators u)) i) = false /\
           (ind (atr14 (m15Indicators u)) i <? minAtr (icfg u))%num = false;
}.

(** The signal carries a quality of at least [mq]. *)
Definition qualified (mq : Z) (g : SetupSignal) : Prop := exists q, sg_qualityScore g = Some q /\ mq <= q.

Record trend_fires (u : Setup) (i : Z) (c : BacktestCandle) (rs : RegimeState) (mq : Z) (g : SetupSignal) : Prop := {
  tf_regime : trend_regime (rs_regime rs) = true;
  tf_adx : (rs_adx rs <? of_Z 12)%num = false;
  tf_side : side_of (rs_direction rs) = Some (sg_side g);
  tf_rsi : rsi_allows (sg_side g) (ind (rsi14 (m15Indicators u)) i) = true;
  tf_bias : forall sd, side_of (getH1Bias (h1Candles u) (h1Indicators u) (openTime c)) = Some sd -> sd = sg_side g;
  tf_confirmed : detectEngulfing (m15Candles u) i = true \/ detectStrongClose c = true;
  tf_quality : qualified mq g;
}.

Record gap_fires (u : Setup) (i : Z) (c : BacktestCandle) (gaps : list FairValueGap) (rs : RegimeState) (mq : Z)
    (g : SetupSignal) : Prop := {
  gf_adx : (rs_adx rs <? of_Z 10)%num = false;
  gf_gap : exists x, x ∈ gaps /\ fg_traded x = false /\ fg_direction x = sg_side g /\
           fg_createdAtIndex x < i <= fg_createdAtIndex x + fg_expiryCandles x /\ fills x c = true;
  gf_quality : qualified mq g;
}.

Record range_fires (u : Setup) (i : Z) (c : BacktestCandle) (rs : RegimeState) (mode : TradingMode) (mq : Z)
    (g : SetupSignal) : Prop := {
  rf_regime : rs_regime rs = RANGING;
  rf_mode : mode <> DEFENSIVE;
  rf_adx : (rs_adx rs >=? of_Z 20)%num = false;
  rf_rsi : match sg_side g with
           | BUY => (ind (rsi14 (m15Indicators u)) i <? of_Z 30)%num = true
           | SELL => (ind (rsi14 (m15Indicators u)) i >? of_Z 70)%num = true
           end;
  rf_quality : qualified mq g;
}.

(** The Bollinger, cross and momentum engines score nothing themselves. *)
Record quick_fires (u : Setup) (rs : RegimeState) (mode : TradingMode) (g : SetupSignal) : Prop := {
  qf_version : version u = V6;
  qf_mode : mode <> DEFENSIVE;
  qf_calm : rs_regime rs <> VOLATILE;
  qf_unscored : sg_qualityScore g = None;
}.

Definition fires (u : Setup) (i : Z) (c : BacktestCandle) (gaps : list FairValueGap) (rs : RegimeState)
    (mode : TradingMode) (mq : Z) (g : SetupSignal) : Prop :=
  trend_fires u i c rs mq g \/ gap_fires u i c gaps rs mq g \/ range_fires u i c rs mode mq g \/ quick_fires u rs mode g.

(** ** The engines *)
Ltac ifs H := repeat match type of H with
  | (if ?b then _ else _) = _ => let E := fresh "E" in destruct b eqn:E; try done; try discriminate H
  end.

(** The session filter of an evaluator. *)
Lemma session_ok {A} (c : BacktestCandle) (k : bool -> Res (option A)) (g : A) :
  res_bind (isActiveTradingSession (openTime c)) k = Ok (Some g) -> k false = Ok None ->
  isActiveTradingSession (openTime c) = Ok true /\ k true = Ok (Some g).
Proof using. intros H1 H2. destruct (isActiveTradingSession _) as [[|]|]; simpl in H1; [done|congruence|done]. Qed.

Lemma bias_points_sound r sd b q : trend_regime r = true -> bias_points r sd b = Some q ->
  forall sd', side_of b = Some sd' -> sd' = sd.
Proof using.
  unfold bias_points. intros Hr Hb sd' Hs. rewrite Hs in Hb. destruct r; try done; by case_bool_decide.
Qed.

Lemma session_points_nonneg l n : 0 <= session_points l n.
Proof using. unfold session_points. repeat case_match; lia. Qed.

Lemma trend_entry_sound u i c spread prec rs mq e20 e50 atr baseline g : trend_regime (rs_regime rs) = true ->
  trend_entry (m15Candles u) (m15Indicators u) (h1Candles u) (h1Indicators u) i c spread prec rs mq e20 e50
    (ind (rsi14 (m15Indicators u)) i) atr baseline = Ok (Some g) -> trend_fires u i c rs mq g.
Proof using.
  intros Hr Hg. unfold trend_entry in Hg. destruct (trend_side rs _) as [sd|] eqn:Hsd; [|done]. cbv zeta in Hg.
  destruct (bias_points _ _ _) as [bp|] eqn:Hb; [|done]. ifs Hg.
  destruct (pullback _ _ _ _ _) as [[[t ema] tol]|]; [|done]. ifs Hg.
  destruct (getLocalHour _ _) as [ln|]; [|done]. simpl in Hg.
  destruct (getLocalHour _ _) as [ny|]; [|done]. simpl in Hg. injection Hg as <-.
  unfold trend_side in Hsd. ifs Hsd. destruct (side_of (rs_direction rs)) as [sd'|] eqn:Hdir; [|done].
  destruct (rsi_allows sd' _) eqn:Hrsi; [|done]. injection Hsd as <-.
  bool_hyps. constructor; simpl; try done.
  - by apply (bias_points_sound _ _ _ _ Hr Hb).
  - apply andb_false_iff in E2 as [?%negb_false_iff|?%negb_false_iff]; auto.
  - eexists. split; [done|]. pose proof (session_points_nonneg ln ny). repeat case_match; lia.
Qed.

Lemma evaluateSetup_sound u i spread prec rs mq g : trend_regime (rs_regime rs) = true ->
  evaluateSetup (m15Candles u) (m15Indicators u) (h1Candles u) (h1Indicators u) i spread (minAtr (icfg u)) prec rs mq
    = Ok (Some g) -> exists c, tradable u i c /\ trend_fires u i c rs mq g.
Proof using.
  unfold evaluateSetup. cbv zeta. intros Hr Hg. ifs Hg. destruct (zlookup _ i) as [c|] eqn:Hc; [|done].
  apply session_ok in Hg as [Ha Hg]; [|done]. exists c. bool_hyps. split; [by constructor|].
  cbn [negb] in Hg. eapply trend_entry_sound; [done|exact Hg].
Qed.

Lemma range_entry_sound u i c spread prec rs mq e50 rsi atr g :
  range_entry (m15Candles u) i c spread prec rs mq e50 rsi atr = Some g ->
  match sg_side g with BUY => (rsi <? of_Z 30)%num = true | SELL => (rsi >? of_Z 70)%num = true end /\ qualified mq g.
Proof using.
  unfold range_entry. cbv zeta. intros Hg. destruct (range_side _ _ _ _) as [sd|] eqn:Hsd; [|done]. ifs Hg.
  injection Hg as <-. simpl. unfold range_side in Hsd. bool_hyps. split.
  - repeat case_match; simplify_eq; by bool_hyps.
  - eexists. split; [done|lia].
Qed.

Lemma evaluateRangeSetup_sound u i spread prec rs mode mq g : rs_regime rs = RANGING -> mode <> DEFENSIVE ->
  evaluateRangeSetup (m15Candles u) (m15Indicators u) i spread (minAtr (icfg u)) prec rs mq
    = Ok (Some g) -> exists c, tradable u i c /\ range_fires u i c rs mode mq g.
Proof using.
  unfold evaluateRangeSetup. cbv zeta. intros Hr Hmode Hg. ifs Hg. destruct (zlookup _ i) as [c|] eqn:Hc; [|done].
  apply session_ok in Hg as [Ha Hg]; [|done]. exists c. bool_hyps. split; [by constructor|]. cbn [negb] in Hg. ifs Hg.
  injection Hg as Hg. apply range_entry_sound in Hg as [Hs Hq]. by constructor.
Qed.

Lemma fvg_eligible_sound m15 idx c bias rsi x : fvg_eligible m15 idx c bias rsi x = true ->
  fg_traded x = false /\ fg_createdAtIndex x < idx <= fg_createdAtIndex x + fg_expiryCandles x /\ fills x c = true.
Proof using. unfold fvg_eligible. intros H1. bool_hyps. split_and!; try done; lia. Qed.

Lemma try_fvg_sound u i c spread prec rs mq atr rsi x g :
  try_fvg (m15Indicators u) (h1Candles u) (h1Indicators u) i c spread prec rs mq atr rsi x = Some g ->
  (fg_traded x = false /\ fg_createdAtIndex x < i <= fg_createdAtIndex x + fg_expiryCandles x /\ fills x c = true) /\
  fg_direction x = sg_side g /\ qualified mq g.
Proof using.
  unfold try_fvg. cbv zeta. intros Hg. ifs Hg. injection Hg as <-. bool_hyps.
  split; [by eapply fvg_eligible_sound|]. split; [done|]. eexists. split; [done|lia].
Qed.

Lemma evaluateFVGEntry_sound u i gaps spread prec rs mq g :
  evaluateFVGEntry (m15Candles u) (m15Indicators u) (h1Candles u) (h1Indicators u) i gaps spread (minAtr (icfg u)) prec rs mq
    = Ok (Some g) -> exists c, tradable u i c /\ gap_fires u i c gaps rs mq g.
Proof using.
  unfold evaluateFVGEntry. cbv zeta. intros Hg. ifs Hg. destruct (zlookup _ i) as [c|] eqn:Hc; [|done].
  apply session_ok in Hg as [Ha Hg]; [|done]. exists c. bool_hyps. split; [by constructor|]. cbn [negb] in Hg. ifs Hg.
  injection Hg as Hg. apply first_some_Some in Hg as (l1 & x & l2 & -> & Hx & _).
  apply try_fvg_sound in Hx as ((Ht & Ha1 & Hf) & Hd & Hq). constructor; try done. exists x. set_solver.
Qed.

Lemma evaluateEmaCross_sound u i spread prec rs g :
  Cross.evaluateEmaCross (m15Candles u) (m15Indicators u) (h1Candles u) (h1Indicators u) i spread (minAtr (icfg u)) prec rs
    = Ok (Some g) -> exists c, tradable u i c /\ rs_regime rs <> VOLATILE /\ sg_qualityScore g = None.
Proof using.
  unfold Cross.evaluateEmaCross. intros Hg. destruct (_ <? _); [done|]. case_bool_decide as Hv; [done|].
  destruct (zlookup _ i) as [c|] eqn:Hc; [|done]. apply session_ok in Hg as [Ha Hg]; [|done]. exists c.
  cbv zeta in Hg. cbn [negb] in Hg. ifs Hg. bool_hyps. split; [by constructor|]. split; [done|].
  destruct (Cross.detectRecentCross _ _ _) as [[sd k]|]; [|done]. ifs Hg. injection Hg as Hg.
  unfold Cross.cross_signal in Hg. cbv zeta in Hg. ifs Hg. by injection Hg as <-.
Qed.

Lemma evaluateMomentum_sound u i spread prec rs g :
  Momentum.evaluateMomentumContinuation (m15Candles u) (m15Indicators u) (h1Candles u) (h1Indicators u) i spread
    (minAtr (icfg u)) prec rs = Ok (Some g) ->
  exists c, tradable u i c /\ rs_regime rs <> VOLATILE /\ sg_qualityScore g = None.
Proof using.
  unfold Momentum.evaluateMomentumContinuation. intros Hg. destruct (_ <? _); [done|]. case_bool_decide as Hv; [done|].
  destruct (zlookup _ i) as [c|] eqn:Hc; [|done]. apply session_ok in Hg as [Ha Hg]; [|done]. exists c.
  cbv zeta in Hg. cbn [negb] in Hg. ifs Hg. bool_hyps. split; [by constructor|]. split; [done|].
  injection Hg as Hg. destruct (Momentum.momentum_side _ _ _ _ _) as [sd|]; [|done].
  unfold Momentum.momentum_signal in Hg. cbv zeta in Hg. ifs Hg. by injection Hg as <-.
Qed.

Lemma evaluateBBReversal_sound u i spread prec rs g s s' :
  BB.evaluateBBReversal (m15Candles u) (m15Indicators u) (h1Candles u) (h1Indicators u) i spread (minAtr (icfg u)) prec rs s
    = (s', Ok (Some g)) -> exists c, tradable u i c /\ rs_regime rs <> VOLATILE /\ sg_qualityScore g = None.
Proof using.
  unfold BB.evaluateBBReversal. intros Hg. destruct (_ <? _); [done|].
  assert (Hv : rs_regime rs <> VOLATILE) by (intros Hv; by rewrite Hv in Hg).
  assert (Hgo : exists c, zlookup (m15Candles u) i = Some c /\ isActiveTradingSession (openTime c) = Ok true /\
    is_nan (ind (atr14 (m15Indicators u)) i) || (ind (atr14 (m15Indicators u)) i <? minAtr (icfg u))%num = false /\
    sg_qualityScore g = None).
  { destruct (rs_regime rs); try done; (destruct (zlookup _ i) as [c|] eqn:Hc; [|done]; exists c; split; [done|];
      unfold m_bind at 1, m_lift in Hg; destruct (isActiveTradingSession _) as [[|]|]; try done; split; [done|];
      cbv zeta in Hg; cbn [negb] in Hg;
      destruct (is_nan (ind (atr14 _) i) || _); [done|]; split; [done|]; simpl in Hg;
      destruct (is_nan (ind (rsi14 _) i)); [done|]; unfold m_bind in Hg;
      destruct (BB.computeBB _ _) as [b [bb|]]; [|done]; unfold m_ret in Hg; injection Hg as _ Hg; ifs Hg;
      destruct (BB.bb_side _ _ _ _ _ _) as [sd|]; [|done];
      unfold BB.bb_signal in Hg; cbv zeta in Hg; ifs Hg; by injection Hg as <-). }
  destruct Hgo as (c & Hc & Ha & Hat & Hq). exists c. bool_hyps. split; [by constructor|done].
Qed.

(** ** Routing *)
Lemma or_try_some sig guard m s s' g : or_try sig guard m s = (s', Ok (Some g)) ->
  sig = Some g \/ guard = true /\ m s = (s', Ok (Some g)).
Proof using. unfold or_try. destruct sig; [intros [= <- <-]; by left|]. destruct guard; [by right|done]. Qed.

Lemma on_cache_ok {A} (m : M BB.Cache A) s s' a : on_cache m s = (s', Ok a) -> exists b b', m b = (b', Ok a).
Proof using. unfold on_cache. destruct (m (bbCache s)) as [b r] eqn:E. intros [= _ ->]. by exists (bbCache s), b. Qed.

Lemma try_gaps_sound u i spread rs mq s s' g : try_gaps u i spread rs mq s = (s', Ok (Some g)) ->
  exists c, tradable u i c /\ gap_fires u i c (activeFVGs (engineState s)) rs mq g.
Proof using.
  unfold try_gaps, m_bind, m_get, m_lift, m_modify, m_ret. intros Hg.
  destruct (evaluateFVGEntry _ _ _ _ _ _ _ _ _ _ _) as [[x|]|] eqn:E; [|done..].
  injection Hg as _ <-. by eapply evaluateFVGEntry_sound.
Qed.

Lemma use_BB_V6 u : use_BB u = true -> version u = V6.
Proof using. unfold use_BB, is_V6. intros [Hb _]%andb_true_iff. by apply bool_decide_eq_true in Hb. Qed.

(** Every signal the routing returns comes from an engine that may fire in the regime and the
    trading mode of the bar. *)
Lemma route_fires u i spread rs mode mq s s' g : route u i spread rs mode mq s = (s', Ok (Some g)) ->
  exists c, tradable u i c /\ fires u i c (activeFVGs (engineState s)) rs mode mq g.
Proof using.
  unfold route. cbv zeta. intros Hg. unfold m_bind at 1, m_lift at 1 in Hg.
  destruct (if trend_regime _ then _ else _) as [s1|] eqn:E1; [|done].
  unfold m_bind at 1 in Hg. destruct (or_try s1 true _ s) as [st2 [s2|]] eqn:E2; [|done].
  unfold m_bind at 1 in Hg. destruct (or_try s2 _ _ st2) as [st3 [s3|]] eqn:E3; [|done].
  unfold m_bind at 1 in Hg. destruct (or_try s3 _ _ st3) as [st4 [s4|]] eqn:E4; [|done].
  unfold m_bind at 1 in Hg. destruct (or_try s4 _ _ st4) as [st5 [s5|]] eqn:E5; [|done].
  assert (Hquick : forall c, tradable u i c /\ rs_regime rs <> VOLATILE /\ sg_qualityScore g = None ->
    version u = V6 -> mode <> DEFENSIVE -> exists c, tradable u i c /\ fires u i c (activeFVGs (engineState s)) rs mode mq g).
  { intros c (Ht & Hv & Hq) H6 Hm. exists c. split; [done|]. right; right; right. by constructor. }
  apply or_try_some in Hg as [->|[Hw Hg]].
  2: { apply andb_true_iff in Hw as [Hw1%bool_decide_eq_true Hw2%negb_true_iff%bool_decide_eq_false].
       injection Hg as _ Hg. apply evaluateMomentum_sound in Hg as [c Hg]. by eapply Hquick. }
  apply or_try_some in E5 as [->|[Hw Hg]].
  2: { apply andb_true_iff in Hw as [Hw1%bool_decide_eq_true Hw2%negb_true_iff%bool_decide_eq_false].
       injection Hg as _ Hg. apply evaluateEmaCross_sound in Hg as [c Hg]. by eapply Hquick. }
  apply or_try_some in E4 as [->|[Hw Hg]].
  2: { apply andb_true_iff in Hw as [[Hr%bool_decide_eq_true Hw2%negb_true_iff%bool_decide_eq_false]%andb_true_iff _].
       injection Hg as _ Hg. apply (evaluateRangeSetup_sound _ _ _ _ _ mode) in Hg as (c & Ht & Hf); [|done..].
       exists c. split; [done|]. right; right; by left. }
  apply or_try_some in E3 as [->|[Hw Hg]].
  2: { apply andb_true_iff in Hw as [[Hr%bool_decide_eq_true Hw2%negb_true_iff%bool_decide_eq_false]%andb_true_iff Hb].
       apply on_cache_ok in Hg as (b & b' & Hg). apply evaluateBBReversal_sound in Hg as [c Hg].
       apply use_BB_V6 in Hb. by eapply Hquick. }
  apply or_try_some in E2 as [->|[_ Hg]].
  2: { apply try_gaps_sound in Hg as (c & Ht & Hf). exists c. split; [done|]. right; by left. }
  destruct (trend_regime (rs_regime rs)) eqn:Hr; [|done].
  apply (evaluateSetup_sound _ _ _ _ _ _ _ Hr) in E1 as (c & Ht & Hf). exists c. split; [done|]. by left.
Qed.
End signals.
