(* ===== verification/V6Books.v ===== *)
(** * Books of the V6 engine

    What one bar does to the positions, the trades, the risk manager and the tracker: no
    position is lost or closed twice, and the books agree. *)
From S2P Require Import Prelude JsNum JsDate Types Instruments RiskManager RiskFacts PositionSimulator.
From S2P Require Import SweepDetector Indicators V6Evaluator V6Engines V6Engine V6SignalFacts.
From S2P Require PerformanceTracker SmcEngine.

(** What identifies a position from its entry to its exit, with the engine its trade counts for. *)
Definition entry_key (p : V6Position) : Side * num * string * num * EngineType :=
  (side (base p), entryPrice (base p), entryTime (base p), lotSize (base p), closed_engine (base p)).
Definition trade_key (t : ClosedTrade) : Side * num * string * num * EngineType :=
  (ct_side t, ct_entryPrice t, ct_entryTime t, ct_lotSize t, PerformanceTracker.deriveEngineType t).

Lemma update_base p c spread :
  let q := updatePositionManagement p c spread in
  side q = side p /\ entryPrice q = entryPrice p /\ entryTime q = entryTime p /\ lotSize q = lotSize p /\
  entryIndex q = entryIndex p /\ setupTags q = setupTags p.
Proof.
  unfold updatePositionManagement. destruct (has_tag _ _); [done|]. cbv zeta.
  by match goal with |- context [if ?b then _ else _] => destruct b end.
Qed.

Lemma update_keys p c spread :
  entry_key (manage c spread p) = entry_key p /\ entryIndex (base (manage c spread p)) = entryIndex (base p).
Proof.
  destruct (update_base (base p) c spread) as (H1 & H2 & H3 & H4 & H5 & H6).
  unfold entry_key, manage, closed_engine. simpl. by rewrite H1, H2, H3, H4, H5, H6.
Qed.

Lemma exit_key u c spread p t : exit_of u c spread p = Some t -> trade_key t = entry_key p.
Proof. unfold exit_of, checkPositionExit. case_match; [done|]. by intros [= <-]. Qed.

Lemma max_bars_key u i c p t : max_bars u i c p = Some t -> trade_key t = entry_key p.
Proof. unfold max_bars. case_match; [|done]. by intros [= <-]. Qed.

(** The risk manager and the tracker have seen exactly the closed trades. *)
Definition agree (initial : num) (s : RunState) : Prop :=
  balance (state (riskManager s)) = nsum initial (pnl <$> closedTrades s) /\
  performanceTracker s = PerformanceTracker.record_all (closedTrades s).

Lemma record_result_spec initial t time s0 : agree initial s0 ->
  triple (fun s => s = s0) (record_result t time) (fun _ s =>
    agree initial s /\ closedTrades s = closedTrades s0 ++ [t] /\ openPositions s = openPositions s0 /\
    engineState s = engineState s0 /\ regimeState s = regimeState s0).
Proof.
  intros [Hb Ht] s s' [] ->. unfold record_result, m_bind, on_rm, m_modify.
  destruct (recordTrade (pnl t) time (Some (exitReason t)) (riskManager s0)) as [r [[]|]] eqn:E; [|done].
  intros [= <-]. destruct (recordTrade_tail (pnl t) time (Some (exitReason t)) (riskManager s0)) as (r1 & -> & Hr & _).
  rewrite E, book_trade_balance in Hr. simpl in Hr. split; [|done]. split; simpl.
  - rewrite Hr, Hb, fmap_app. unfold nsum. by rewrite fold_left_app.
  - by rewrite Ht, PerformanceTracker.record_all_snoc.
Qed.

(** [after] leaves the books and the positions alone. *)
Definition keeps_books (f : RunState -> RunState) : Prop := forall s,
  riskManager (f s) = riskManager s /\ performanceTracker (f s) = performanceTracker s /\
  closedTrades (f s) = closedTrades s /\ openPositions (f s) = openPositions s /\
  engineState (f s) = engineState s /\ regimeState (f s) = regimeState s.

Lemma after_exit_keeps u i p t : keeps_books (after_exit u i p t).
Proof. intros s. unfold after_exit. by destruct (exitReason t). Qed.

Lemma set_cooldowns_keeps (f g : RunState -> Z) : keeps_books (fun s => set_cooldowns (f s) (g s) s).
Proof. by intros s. Qed.

(** Between two states of a bar: trades were added for the positions [l] that are not in [rest]. *)
Record closing (initial : num) (s0 : RunState) (l rest : list V6Position) (s : RunState) : Prop := {
  cl_agree : agree initial s;
  cl_rest : rest `sublist_of` l;
  cl_keys : exists ts, closedTrades s = closedTrades s0 ++ ts /\ (trade_key <$> ts) ++ (entry_key <$> rest) ≡ₚ entry_key <$> l;
  cl_open : openPositions s = openPositions s0;
  cl_engine : engineState s = engineState s0;
  cl_regime : regimeState s = regimeState s0;
}.

Lemma close_loop_spec initial decide after time l s0 :
  agree initial s0 -> (forall p t, decide p = Some t -> trade_key t = entry_key p) ->
  (forall p t, keeps_books (after p t)) ->
  triple (fun s => s = s0) (close_loop decide after time l) (fun rest => closing initial s0 l rest).
Proof.
  intros Ha Hd Hk. induction l as [|p l IH]; simpl.
  - apply triple_ret. intros s ->. constructor; try done. exists []. by rewrite app_nil_r.
  - eapply triple_bind; [exact IH|]. intros rest. simpl. destruct (decide p) as [t|] eqn:E.
    + intros s s' rest' [A R (ts & Hts & Hp) O G1 G2]. unfold m_bind at 1.
      destruct (record_result t time s) as [s1 [[]|]] eqn:E1; [|done].
      apply (record_result_spec initial t time s) in E1 as (A1 & C1 & O1 & G11 & G21); [|done..].
      unfold m_bind, m_modify, m_ret. intros [= <- <-]. destruct (Hk p t s1) as (K1 & K2 & K3 & K4 & K5 & K6).
      constructor; try congruence.
      * destruct A1. split; congruence.
      * by apply sublist_cons.
      * exists (ts ++ [t]). rewrite K3, C1, Hts, app_assoc. split; [done|].
        rewrite fmap_app. simpl. rewrite <- app_assoc, <- (Hd p t E). simpl.
        rewrite <- Permutation_middle. by rewrite Hp.
    + apply triple_ret. intros s [A R (ts & Hts & Hp) O G1 G2]. constructor; try done.
      * by apply sublist_skip.
      * exists ts. split; [done|]. simpl. rewrite <- Permutation_middle. by rewrite Hp.
Qed.

Lemma keys_managed c spread (l : list V6Position) : entry_key <$> (manage c spread <$> l) = entry_key <$> l.
Proof. rewrite <- list_fmap_compose. apply list_fmap_ext. intros k p _. apply update_keys. Qed.

Lemma v6_manage_open_spec initial u i c spread s0 : agree initial s0 ->
  triple (fun s => s = s0) (manage_open u i c spread) (fun _ s =>
    agree initial s /\ openPositions s `sublist_of` manage c spread <$> openPositions s0 /\
    (exists ts, closedTrades s = closedTrades s0 ++ ts /\
       (trade_key <$> ts) ++ (entry_key <$> openPositions s) ≡ₚ entry_key <$> openPositions s0) /\
    engineState s = engineState s0 /\ regimeState s = regimeState s0).
Proof.
  intros Ha. unfold manage_open. apply triple_read. intros s1 ->. cbv zeta.
  set (managed := manage c spread <$> openPositions s0).
  apply (triple_bind _ _ _ (fun still => closing initial s0 managed still)).
  { apply triple_if.
    - apply close_loop_spec; [done|intros p t; apply max_bars_key|intros p t; apply (set_cooldowns_keeps (fun _ => i + 1) slCooldownUntil)].
    - apply triple_ret. intros s ->. constructor; try done. exists []. by rewrite app_nil_r. }
  intros still s s' [] [A R (ts & Hts & Hp) O G1 G2]. unfold m_bind.
  destruct (close_loop _ _ _ still s) as [s2 [left_|]] eqn:E; [|done].
  apply (close_loop_spec initial _ _ _ still s) in E; [|done|intros p t; apply exit_key|intros p t; apply after_exit_keeps|done].
  destruct E as [A2 R2 (ts2 & Hts2 & Hp2) O2 G12 G22]. unfold m_modify. intros [= <-]. simpl.
  split; [exact A2|]. split; [by etrans|]. split; [|split; congruence].
  exists (ts ++ ts2). rewrite Hts2, Hts, app_assoc. split; [done|].
  rewrite fmap_app, <- app_assoc, Hp2, Hp. unfold managed. by rewrite keys_managed.
Qed.

(** *** What the exits do to the cooldowns and to the stops of the day *)

(** The end of the cooldown that a trade closed on bar [i] for the reason [why] starts; a
    position closed for its age counts as [FORCED_CLOSE]. *)
Definition next_entry (u : Setup) (i : Z) (why : ExitReason) : Z :=
  match why with
  | FORCED_CLOSE => i + 1
  | TP | BREAKEVEN => if is_V6 u then i else i + 1
  | SL => if is_V6 u then i + 1 else i + 2
  end.
Definition stopped (t : ClosedTrade) : bool := bool_decide (exitReason t = SL).
Definition stops_of (sd : Side) (ts : list ClosedTrade) : Z :=
  zlen (filter (fun t => exitReason t = SL /\ ct_side t = sd) ts).

(** From [s] to [s'] the trades [ts] were closed on bar [i], in this order: the last one sets the
    cooldown, a stop among them sets the stop cooldown, and each stop counts for its side. *)
Record exit_effects (u : Setup) (i : Z) (s s' : RunState) (ts : list ClosedTrade) : Prop := {
  ef_trades : closedTrades s' = closedTrades s ++ ts;
  ef_cooldown : cooldownUntil s' = match last ts with
                                   | Some t => next_entry u i (exitReason t)
                                   | None => cooldownUntil s
                                   end;
  ef_stop : slCooldownUntil s' = if existsb stopped ts then next_entry u i SL else slCooldownUntil s;
  ef_day : forall sd, sl_of sd (dailySlCount s') = sl_of sd (dailySlCount s) + stops_of sd ts;
}.

Lemma exit_effects_refl u i s : exit_effects u i s s [].
Proof. constructor; [by rewrite app_nil_r|done|done|]. intros sd. unfold stops_of, zlen. simpl. lia. Qed.

Lemma exit_effects_trans u i s s1 s' ts ts' :
  exit_effects u i s s1 ts -> exit_effects u i s1 s' ts' -> exit_effects u i s s' (ts ++ ts').
Proof.
  intros [T1 C1 S1 D1] [T2 C2 S2 D2]. constructor.
  - by rewrite T2, T1, app_assoc.
  - rewrite C2, C1, last_app. by destruct (last ts').
  - rewrite S2, S1, existsb_app. destruct (existsb stopped ts'); [by rewrite orb_true_r|by rewrite orb_false_r].
  - intros sd. rewrite D2, D1. unfold stops_of, zlen. rewrite filter_app, length_app. lia.
Qed.

(** A booked trade, before its effect on the cooldowns. *)
Definition booked (t : ClosedTrade) (r : RiskManager) (s : RunState) : RunState := push_trade t (set_rm r s).

Lemma close_loop_effects u i decide_ after time l :
  (forall p t r s, decide_ p = Some t -> exit_effects u i s (after p t (booked t r s)) [t]) ->
  forall s0, triple (fun s => s = s0) (close_loop decide_ after time l)
                    (fun _ s => exists ts, exit_effects u i s0 s ts).
Proof.
  intros Hstep. induction l as [|p l IH]; intros s0; simpl.
  - apply triple_ret. intros s ->. exists []. apply exit_effects_refl.
  - eapply triple_bind; [apply IH|]. intros rest. simpl. destruct (decide_ p) as [t|] eqn:Hd; [|by apply triple_ret].
    intros s s' left_ [ts Hts]. unfold record_result, m_bind, on_rm, m_modify, m_ret.
    destruct (recordTrade _ _ _ _) as [r [[]|]]; [|done]. intros [= <- <-]. exists (ts ++ [t]).
    eapply exit_effects_trans; [exact Hts|]. by apply (Hstep p t r).
Qed.

Lemma max_bars_reason u i c p t : max_bars u i c p = Some t -> exitReason t = FORCED_CLOSE.
Proof. unfold max_bars. case_match; [|done]. by intros [= <-]. Qed.

Lemma exit_of_reason u c spread p t : exit_of u c spread p = Some t ->
  exitReason t <> FORCED_CLOSE /\ ct_side t = side (base p).
Proof.
  unfold exit_of, checkPositionExit. cbv zeta. unfold exit_reason. intros Ht.
  destruct (sl_hit _ _ _), (tp_hit _ _ _), (breakevenActivated _); simpl in Ht; simplify_eq; by split.
Qed.

Lemma one_stop sd t : stops_of sd [t] = if decide (exitReason t = SL /\ ct_side t = sd) then 1 else 0.
Proof. unfold stops_of. rewrite filter_cons. by case_decide. Qed.

Lemma max_bars_effects u i c p t r s : max_bars u i c p = Some t ->
  exit_effects u i s (set_cooldowns (i + 1) (slCooldownUntil (booked t r s)) (booked t r s)) [t].
Proof.
  intros Hw%max_bars_reason. constructor; simpl; [done|by rewrite Hw|by unfold stopped; rewrite Hw|].
  intros sd. rewrite one_stop, Hw, decide_False by (by intros [? _]). lia.
Qed.

Lemma exit_of_effects u i c spread p t r s : exit_of u c spread p = Some t ->
  exit_effects u i s (after_exit u i p t (booked t r s)) [t].
Proof.
  intros [Hw Hs]%exit_of_reason. unfold after_exit, stopped. destruct (exitReason t) eqn:Ew; try done.
  - constructor; simpl; unfold stopped; rewrite ?Ew; simpl; try done; [by case_match|by case_match|].
    intros sd. rewrite one_stop, Ew, Hs.
    destruct (side (base p)), sd; simpl; lia.
  - constructor; simpl; unfold stopped; rewrite ?Ew; simpl; try done; [case_match; lia|].
    intros sd. rewrite one_stop, Ew, decide_False by (by intros [? _]). lia.
  - constructor; simpl; unfold stopped; rewrite ?Ew; simpl; try done; [case_match; lia|].
    intros sd. rewrite one_stop, Ew, decide_False by (by intros [? _]). lia.
Qed.

Lemma manage_open_effects u i c spread s0 :
  triple (fun s => s = s0) (manage_open u i c spread) (fun _ s => exists ts, exit_effects u i s0 s ts).
Proof.
  unfold manage_open. apply triple_read. intros s1 ->. cbv zeta.
  apply (triple_bind _ _ _ (fun _ s => exists ts, exit_effects u i s0 s ts)).
  { apply triple_if.
    - apply close_loop_effects. intros p t r s. apply max_bars_effects.
    - apply triple_ret. intros s ->. exists []. apply exit_effects_refl. }
  intros still s s' [] [ts Hts]. unfold m_bind.
  destruct (close_loop (exit_of u c spread) (after_exit u i) (openTime c) still s) as [s2 [left_|]] eqn:E; [|done].
  apply (close_loop_effects u i _ _ _ _ (fun p t r s => exit_of_effects u i c spread p t r s) s) in E as [ts2 Hts2]; [|done].
  unfold m_modify. intros [= <-]. exists (ts ++ ts2).
  destruct (exit_effects_trans _ _ _ _ _ _ _ Hts Hts2). by constructor.
Qed.

(** ** Scale-ins *)
Lemma scale_first_spec f l l' q : scale_first f l = Some (l', q) ->
  exists l1 p l2, l = l1 ++ p :: l2 /\ l' = l1 ++ mark_parent p :: l2 /\ f p = Some q /\
    Forall (fun p => f p = None) l1.
Proof.
  revert l'. induction l as [|p l IH]; simpl; [done|]. intros l'. destruct (f p) as [q'|] eqn:E.
  - intros [= <- ->]. by exists [], p, l.
  - intros ([l'' q''] & H & [= <- ->])%bind_Some.
    destruct (IH l'' H) as (l1 & p1 & l2 & -> & -> & Hf & Hn). exists (p :: l1), p1, l2. repeat split; try done.
    by constructor.
Qed.

(** [q] is a scale-in on [p]. *)
Record scaled_in (u : Setup) (s : RunState) (i : Z) (c : BacktestCandle) (spread : num) (rs : RegimeState)
    (p q : V6Position) : Prop := {
  si_once : isScaleIn p = false /\ hasScaleIn p = false;
  si_breakeven : breakevenActivated (base p) = true;
  si_parent : "RANGE_ENGINE"%string ∉ setupTags (base p) /\ "LOCKER"%string ∉ setupTags (base p);
  si_regime : side_of (rs_direction rs) = Some (side (base p));
  si_profit : let price := to_stop (side (base p)) (close c) ((spread / of_Z 2)%num) in
              let risk := nabs ((entryPrice (base p) - originalSlPrice (base p))%num) in
              let profit := (match side (base p) with
                             | BUY => price - entryPrice (base p) | SELL => entryPrice (base p) - price end)%num in
              (risk =? of_Z 0)%num = false /\ (profit / risk <? of_Z 1)%num = false /\
              (profit / risk >? lit 15 1)%num = false;
  si_risk : (nsum (of_Z 0) (risk_of u <$> openPositions s) +
             nabs (to_stop (side (base p)) (close c) (spread / of_Z 2) - entryPrice (base p)) *
             lotSize (base q) * lotSizeUnits (icfg u) >? max_event_risk (riskManager s))%num = false;
  si_lot : lotSize (base q) = (Math_round (lotSize (base p) * lit 5 1 * of_Z 100) / of_Z 100)%num /\
           (lotSize (base q) <? lit 1 2)%num = false;
  si_free : slPrice (base q) = entryPrice (base p) /\ originalSlPrice (base q) = entryPrice (base p) /\
            tpPrice (base q) = None;
  si_position : side (base q) = side (base p) /\ entryIndex (base q) = i /\ isScaleIn q = true;
}.

Lemma scale_in_of_sound u s i c spread rs p q :
  scale_in_of u s i c spread rs p = Some q -> scaled_in u s i c spread rs p q.
Proof.
  unfold scale_in_of. cbv zeta. intros H.
  destruct (may_scale rs p) eqn:Hm; [|done]. simpl in H. unfold may_scale, dir_side, has_tag in Hm. bool_hyps.
  repeat match type of H with (if ?b then _ else _) = _ => let E := fresh "E" in destruct b eqn:E; [done|] end.
  apply orb_false_iff in E0 as [E3 E4]. injection H as <-.
  repeat match goal with H : bool_decide _ = _ |- _ => first [apply bool_decide_eq_true in H|apply bool_decide_eq_false in H] end.
  constructor; simpl; auto.
Qed.

(** What is left of the positions of [l]: their keys, entries and marks. *)
Definition same_entries (l l' : list V6Position) : Prop :=
  entry_key <$> l' = entry_key <$> l /\ (fun p => entryIndex (base p)) <$> l' = (fun p => entryIndex (base p)) <$> l.

Lemma checkScaleIns_spec u i c spread rs s :
  checkScaleIns u i c spread rs s = s \/
  (exists l1 p l2 q, openPositions s = l1 ++ p :: l2 /\ scaled_in u s i c spread rs p q /\
     getTradingMode (riskManager s) <> DEFENSIVE /\ zlen (openPositions s) < maxOpenPositions (config u) /\
     (PerformanceTracker.getEngineConfidence TREND_PULLBACK (performanceTracker s) <=? of_Z 50)%num = false /\
     Forall (fun p => scale_in_of u s i c spread rs p = None) l1 /\
     checkScaleIns u i c spread rs s = set_open ((l1 ++ mark_parent p :: l2) ++ [q]) s).
Proof.
  unfold checkScaleIns. case_bool_decide as Hd; [by left|].
  destruct (Z.leb_spec (maxOpenPositions (config u)) (zlen (openPositions s))); [by left|].
  destruct (_ <=? _)%num eqn:Hc; [by left|].
  destruct (scale_first _ _) as [[l q]|] eqn:E; [|by left]. right.
  apply scale_first_spec in E as (l1 & p & l2 & Hl & -> & Hf & Hn).
  exists l1, p, l2, q. split_and!; try done. by apply scale_in_of_sound.
Qed.

(** ** Entries *)
Lemma positions_fields u i c rs g q lot tags : let ps := positions u i c rs g q lot tags in
  (1 <= length ps <= 2)%nat /\ Forall (fun p => side (base p) = sg_side g /\ entryPrice (base p) = sg_entryPrice g /\
    slPrice (base p) = sg_slPrice g /\ entryIndex (base p) = i /\ isScaleIn p = false) ps.
Proof. unfold positions. cbv zeta. repeat case_match; simpl; (split; [lia|]); repeat constructor. Qed.

Section entry.
Context {TZ : TimeZones} {BO : Bollinger}.

(** What the search for a setup leaves as it was. *)
Definition still (s0 s : RunState) : Prop :=
  performanceTracker s = performanceTracker s0 /\ closedTrades s = closedTrades s0 /\
  openPositions s = openPositions s0 /\ balance (state (riskManager s)) = balance (state (riskManager s0)) /\
  cooldownUntil s = cooldownUntil s0 /\ slCooldownUntil s = slCooldownUntil s0 /\
  dailySlCount s = dailySlCount s0 /\ regimeState s = regimeState s0.

Lemma still_trans s1 s2 s3 : still s1 s2 -> still s2 s3 -> still s1 s3.
Proof using. unfold still. intuition congruence. Qed.

Lemma on_cache_still {A} (m : M BB.Cache A) s0 :
  triple (fun s => still s0 s /\ riskManager s = riskManager s0) (on_cache m)
         (fun _ s => still s0 s /\ riskManager s = riskManager s0).
Proof using. intros s s' a Hs. unfold on_cache. destruct (m _) as [b [x|]]; [|done]. by intros [= <- <-]. Qed.

Lemma or_try_still sig guard m s0 :
  triple (fun s => still s0 s /\ riskManager s = riskManager s0) m
         (fun _ s => still s0 s /\ riskManager s = riskManager s0) ->
  triple (fun s => still s0 s /\ riskManager s = riskManager s0) (or_try sig guard m)
         (fun _ s => still s0 s /\ riskManager s = riskManager s0).
Proof using.
  intros Hm. unfold or_try. destruct sig; [by apply triple_ret|]. apply triple_if; [done|by apply triple_ret].
Qed.

Lemma route_still u i spread rs mode mq s0 :
  triple (fun s => still s0 s /\ riskManager s = riskManager s0) (route u i spread rs mode mq)
         (fun _ s => still s0 s /\ riskManager s = riskManager s0).
Proof using.
  unfold route. cbv zeta.
  eapply (triple_bind _ _ _ (fun _ s => still s0 s /\ riskManager s = riskManager s0)); [by apply triple_lift|]. intros s1.
  repeat (eapply (triple_bind _ _ _ (fun _ s => still s0 s /\ riskManager s = riskManager s0));
    [apply or_try_still; first [by apply on_cache_still|by apply triple_lift|idtac]|intros ?]);
    [|apply or_try_still; by apply triple_lift].
  unfold try_gaps. apply triple_read. intros s2 Hs2.
  eapply (triple_bind _ _ _ (fun _ s => still s0 s /\ riskManager s = riskManager s0)).
  { apply triple_lift. by intros s a ->. }
  intros [g|]; [|by apply triple_ret].
  eapply (triple_bind _ _ _ (fun _ s => still s0 s /\ riskManager s = riskManager s0)); [|intros; by apply triple_ret].
  apply triple_modify. intros s Hs. destruct Hs as [(A1 & A2 & A3 & A4 & A5 & A6 & A7 & A8) A9].
  destruct Hs2 as [(B1 & B2 & B3 & B4 & B5 & B6 & B7 & B8) B9]. split; [|done]. by split_and!.
Qed.

(** The guards a signal passes on its way to the positions [ps] it opens: the quality floor of the
    pair, the stops of the day, the size, the positions already open on its side. *)
Record sized (u : Setup) (i : Z) (rs : RegimeState) (bias : D1Bias) (mode : TradingMode) (g : SetupSignal) (q0 : Z)
    (s : RunState) (ps : list V6Position) : Prop := {
  sz_floor : version u = V6 -> quality_floor u <= (confluence u bias (sg_side g) q0).1;
  sz_day : sl_of (sg_side g) (dailySlCount s) < 3;
  sz_same : forall p, p ∈ openPositions s -> side (base p) = sg_side g ->
              breakevenActivated (base p) = true /\ rs_regime rs = STRONG_TREND /\ mode <> DEFENSIVE;
  sz_one : (length (filter (fun p => side (base p) = sg_side g) (openPositions s)) <= 1)%nat;
  sz_lot : exists lot, (lot <=? of_Z 0)%num = false /\
             Forall (fun p => lotSize (base p) = lot \/
                              lotSize (base p) = (Math_round (lot * lit 3 1 * of_Z 100) / of_Z 100)%num) ps /\
             (filter (fun p => side (base p) = sg_side g) (openPositions s) <> [] ->
              (nsum (of_Z 0) (risk_of u <$> filter (fun p => side (base p) = sg_side g) (openPositions s)) +
               nabs (sg_entryPrice g - sg_slPrice g) * lot * lotSizeUnits (icfg u) >? max_event_risk (riskManager s))%num = false);
  sz_positions : (1 <= length ps <= 2)%nat /\
    Forall (fun p => side (base p) = sg_side g /\ entryPrice (base p) = sg_entryPrice g /\
      slPrice (base p) = sg_slPrice g /\ entryIndex (base p) = i /\ isScaleIn p = false) ps;
}.

Lemma list_filter_bool {A} (P : A -> Prop) `{!forall a, Decision (P a)} (l : list A) :
  List.filter (fun a => bool_decide (P a)) l = filter P l.
Proof using.
  induction l as [|x l IH]; simpl; [done|]. rewrite filter_cons.
  case_bool_decide; [rewrite decide_True by done|rewrite decide_False by done]; by rewrite IH.
Qed.

Lemma may_stack_sound u i rs mode sd slPoints lot s : may_stack u i rs mode sd slPoints lot s = true ->
  let same := filter (fun p => side (base p) = sd) (openPositions s) in
  (length same <= 1)%nat /\
  (forall p, p ∈ same -> breakevenActivated (base p) = true /\ rs_regime rs = STRONG_TREND /\ mode <> DEFENSIVE) /\
  (same <> [] -> (nsum (of_Z 0) (risk_of u <$> same) + slPoints * lot * lotSizeUnits (icfg u) >?
                  max_event_risk (riskManager s))%num = false).
Proof using.
  unfold may_stack. rewrite list_filter_bool. cbv zeta.
  set (same := filter _ _). clearbody same. destruct same as [|p l]; [simpl; set_solver by lia|].
  intros Hm. apply andb_true_iff in Hm as [Hg Hr]. bool_hyps. split; [unfold zlen in *; lia|].
  split; [|done]. rename select (bool_decide (mode = DEFENSIVE) = false) into Hmode.
  rename select (bool_decide (rs_regime rs = STRONG_TREND) = true) into Hreg.
  apply bool_decide_eq_false in Hmode. apply bool_decide_eq_true in Hreg.
  rename select (forallb _ _ = true) into Hall. rewrite forallb_forall in Hall.
  intros q Hq. split; [|done]. by apply Hall, list_elem_of_In.
Qed.

Lemma positions_lots u i c rs g q lot tags :
  Forall (fun p => lotSize (base p) = lot \/ lotSize (base p) = (Math_round (lot * lit 3 1 * of_Z 100) / of_Z 100)%num)
    (positions u i c rs g q lot tags).
Proof using.
  unfold positions. cbv zeta. repeat case_match; repeat (apply Forall_cons; split; [simpl; auto|]); by apply Forall_nil.
Qed.

Lemma size_and_open_sound u i c rs bias mode g q0 s : size_and_open u i c rs bias mode g q0 s <> [] ->
  sized u i rs bias mode g q0 s (size_and_open u i c rs bias mode g q0 s).
Proof using.
  unfold size_and_open. destruct (confluence u bias (sg_side g) q0) as [q dTags] eqn:Hq. cbv zeta.
  set (lot := calculateLotSize _ _ _ _ _ _).
  destruct (is_V6 u && (q <? quality_floor u)) eqn:E1; [done|].
  destruct (3 <=? _) eqn:E2; [done|]. destruct (lot <=? _)%num eqn:E3; [done|].
  destruct (may_stack _ _ _ _ _ _ _ _) eqn:E4; [|done]. simpl. intros _.
  apply may_stack_sound in E4 as (Hone & Hsame & Hrisk). constructor.
  - intros Hv. rewrite Hq. simpl. apply andb_false_iff in E1 as [E1|E1]; [|lia].
    unfold is_V6 in E1. apply bool_decide_eq_false in E1. done.
  - lia.
  - intros p Hp Hs. apply Hsame. by apply list_elem_of_filter.
  - done.
  - exists lot. split; [done|]. split; [apply positions_lots|done].
  - apply positions_fields.
Qed.

(** The positions [ps] a bar opens on a signal, from the state [s0] to the state [s]. *)
Record opened (u : Setup) (i : Z) (c : BacktestCandle) (rs : RegimeState) (bias : D1Bias) (s0 s : RunState)
    (ps : list V6Position) : Prop := {
  op_cooldown : cooldownUntil s0 < i /\ slCooldownUntil s0 < i;
  op_risk : exists r, canTrade (substring10 (openTime c)) (zlen (openPositions s0)) (riskManager s0) = (r, Ok true) /\
              riskManager s = r;
  op_signal : exists g q0 s1, tradable u i c /\ still s0 s1 /\ riskManager s1 = riskManager s /\
    let mode := getTradingMode (riskManager s) in
    fires u i c (activeFVGs (engineState s0)) rs mode (getAdjustedMinQuality (openTime c) (performanceTracker s0)) g /\
    calculateQualityScore (m15Candles u) (m15Indicators u) (h1Candles u) (h1Indicators u) i g = Ok q0 /\
    sized u i rs bias mode g q0 s1 ps;
  op_next : cooldownUntil s = i + 1;
}.

Lemma canTrade_balance d n r r' b : canTrade d n r = (r', Ok b) -> balance (state r') = balance (state r).
Proof using.
  intros Hc. pose proof (canTrade_frame (fun r => balance (state r))) as Hf.
  specialize (Hf ltac:(frame) ltac:(frame) ltac:(frame) ltac:(frame) ltac:(frame) ltac:(frame) d n r). by rewrite Hc in Hf.
Qed.

Lemma entry_spec u i c spread rs bias blackout s0 s : zlookup (m15Candles u) i = Some c ->
  entry u i c spread rs bias blackout s0 = (s, Ok tt) ->
  still s0 s \/
  blackout = false /\ performanceTracker s = performanceTracker s0 /\ closedTrades s = closedTrades s0 /\
  balance (state (riskManager s)) = balance (state (riskManager s0)) /\ regimeState s = regimeState s0 /\
  exists ps, openPositions s = openPositions s0 ++ ps /\ opened u i c rs bias s0 s ps.
Proof using.
  intros Hc0 He. unfold entry, m_bind at 1, m_get at 1 in He.
  destruct (_ || blackout) eqn:Hgate; [injection He as <-; by left|].
  unfold m_bind at 1, on_rm in He. destruct (canTrade _ _ _) as [r [ok|]] eqn:Hct; [|done].
  pose proof (canTrade_balance _ _ _ _ _ Hct) as Hbal.
  destruct ok; simpl in He; [|injection He as <-; left; by split_and!].
  unfold m_bind at 1, m_get at 1 in He. unfold m_bind at 1 in He.
  set (s1 := set_rm r s0) in *. set (mode := getTradingMode (riskManager s1)) in *.
  set (mq := getAdjustedMinQuality _ _) in *.
  destruct (route u i spread rs mode mq s1) as [s2 [[g|]|]] eqn:Hroute; [| |done].
  2: { injection He as <-. left. apply (route_still u i spread rs mode mq s1) in Hroute as [Hst Hr]; [|done].
       eapply still_trans; [|exact Hst]. by split_and!. }
  pose proof Hroute as Hfire. apply route_fires in Hfire as (c' & Ht & Hf).
  assert (c' = c) as -> by (pose proof (td_bar _ _ _ Ht); congruence).
  apply (route_still u i spread rs mode mq s1) in Hroute as [Hst Hr]; [|done].
  assert (Hst0 : still s0 s2) by (eapply still_trans; [|exact Hst]; by split_and!).
  unfold m_bind at 1, m_lift at 1 in He. destruct (calculateQualityScore _ _ _ _ _ _) as [q0|] eqn:Hq; [|done].
  unfold m_bind, m_get in He.
  destruct (size_and_open u i c rs bias mode g q0 s2) as [|p ps] eqn:Hps; [injection He as <-; by left|].
  right. injection He as <-. apply orb_false_iff in Hgate as [[Hcd Hsl]%orb_false_iff Hbl].
  destruct Hst0 as (B1 & B2 & B3 & B4 & B5 & B6 & B7 & B8).
  split; [done|]. simpl. split; [done|]. split; [done|]. split; [done|]. split; [done|].
  exists (p :: ps). rewrite B3. split; [done|]. constructor; simpl.
  - lia.
  - exists r. by split.
  - exists g, q0, s2. rewrite Hr. split_and!; try done.
    rewrite <- Hps. apply size_and_open_sound. by rewrite Hps.
  - done.
Qed.

(** ** One bar *)

(** The stops of the day before the exits of a bar: none on a new day. *)
Definition day_before (c : BacktestCandle) (s0 : RunState) : SlCount :=
  if String.eqb (substring10 (openTime c)) (lastDate s0) then dailySlCount s0 else no_sl.

(** The state [s1] that a bar's setups are judged in, from the state [s0] before the bar: the one
    the management of the open positions leaves, with the cooldowns and the stops of the day
    that the trades closed on the bar account for. *)
Record settled (initial : num) (u : Setup) (i : Z) (c : BacktestCandle) (s0 s1 : RunState) : Prop := {
  st_agree : agree initial s1;
  st_rest : (fun p => entryIndex (base p)) <$> openPositions s1 `sublist_of`
              (fun p => entryIndex (base p)) <$> openPositions s0;
  st_keys : exists ts, closedTrades s1 = closedTrades s0 ++ ts /\
    (trade_key <$> ts) ++ (entry_key <$> openPositions s1) ≡ₚ entry_key <$> openPositions s0;
  st_regime : regimeState s1 = regimeState (observe u i c s0);
  st_engine : engineState s1 = engineState (observe u i c s0);
  st_managed : exists spread, getSpread (symbol (config u)) (openTime c) = Ok spread /\
    manage_open u i c spread (observe u i c s0) = (s1, Ok tt);
  st_effects : exists ts, closedTrades s1 = closedTrades s0 ++ ts /\
    cooldownUntil s1 = match last ts with Some t => next_entry u i (exitReason t) | None => cooldownUntil s0 end /\
    slCooldownUntil s1 = (if existsb stopped ts then next_entry u i SL else slCooldownUntil s0) /\
    forall sd, sl_of sd (dailySlCount s1) = sl_of sd (day_before c s0) + stops_of sd ts;
}.

Lemma observe_books u i c s :
  riskManager (observe u i c s) = riskManager s /\ performanceTracker (observe u i c s) = performanceTracker s /\
  closedTrades (observe u i c s) = closedTrades s /\ openPositions (observe u i c s) = openPositions s.
Proof using. unfold observe. destruct (bar_context u c). unfold new_day. by case_match. Qed.

Lemma observe_counts u i c s :
  cooldownUntil (observe u i c s) = cooldownUntil s /\ slCooldownUntil (observe u i c s) = slCooldownUntil s /\
  dailySlCount (observe u i c s) = day_before c s.
Proof using. unfold observe, day_before. destruct (bar_context u c). unfold new_day. by case_match. Qed.

Lemma indices_managed c spread (l : list V6Position) :
  (fun p => entryIndex (base p)) <$> (manage c spread <$> l) = (fun p => entryIndex (base p)) <$> l.
Proof using. rewrite <- list_fmap_compose. apply list_fmap_ext. intros k p _. apply update_keys. Qed.

Lemma sublist_fmap {A B} (f : A -> B) k l : k `sublist_of` l -> f <$> k `sublist_of` f <$> l.
Proof using. induction 1; simpl; by constructor. Qed.

(** One turn of the loop: the positions before it are managed and partly closed; then at most one
    scale-in, then the positions of at most one signal. *)
Lemma bar_parts initial u i c s0 s : agree initial s0 -> zlookup (m15Candles u) i = Some c ->
  bar u i c s0 = (s, Ok tt) ->
  exists spread s1 s2, getSpread (symbol (config u)) (openTime c) = Ok spread /\ settled initial u i c s0 s1 /\
    let rs := default no_regime (regimeState s1) in
    s2 = (if scale_regime (rs_regime rs) then checkScaleIns u i c spread rs s1 else s1) /\
    entry u i c spread rs (bar_context u c).1 (bar_context u c).2 s2 = (s, Ok tt).
Proof using.
  intros Ha Hc. unfold bar, m_bind at 1, m_lift. destruct (getSpread _ _) as [spread|] eqn:Hsp; [|done].
  unfold m_bind at 1, m_modify at 1. unfold m_bind at 1.
  destruct (manage_open u i c spread (observe u i c s0)) as [s1 [[]|]] eqn:E; [|done].
  destruct (observe_books u i c s0) as (O1 & O2 & O3 & O4).
  pose proof E as Hman. destruct (manage_open_effects u i c spread _ _ _ tt eq_refl E) as [ts' [F1 F2 F3 F4]].
  destruct (observe_counts u i c s0) as (N1 & N2 & N3). rewrite O3 in F1. rewrite N1 in F2. rewrite N2 in F3.
  apply (v6_manage_open_spec initial u i c spread (observe u i c s0)) in E as (A & R & (ts & Hts & Hp) & G1 & G2); [| |done].
  2: { destruct Ha. split; congruence. }
  unfold m_bind at 1, m_get. intros Hb. exists spread, s1. cbv zeta in *.
  destruct (bar_context u c) as [bias blackout]. simpl.
  exists (if scale_regime (rs_regime (default no_regime (regimeState s1)))
          then checkScaleIns u i c spread (default no_regime (regimeState s1)) s1 else s1).
  split; [done|]. split.
  - constructor; try done.
    + apply (sublist_fmap (fun p => entryIndex (base p))) in R. by rewrite indices_managed, O4 in R.
    + exists ts. rewrite Hts, O3. split; [done|]. by rewrite Hp, O4.
    + by exists spread.
    + exists ts'. split_and!; try done. intros sd. by rewrite F4, N3.
  - split; [done|]. unfold m_bind in Hb. by destruct (scale_regime _).
Qed.

(** The scale-in of a bar: none, or one on a position [p] of [l]. *)
Inductive scaling (u : Setup) (i : Z) (c : BacktestCandle) (rs : RegimeState) (s1 s2 : RunState) : Prop :=
| no_scale : s2 = s1 -> scaling u i c rs s1 s2
| one_scale spread l1 p l2 q :
    openPositions s1 = l1 ++ p :: l2 -> s2 = set_open ((l1 ++ mark_parent p :: l2) ++ [q]) s1 ->
    getSpread (symbol (config u)) (openTime c) = Ok spread -> scaled_in u s1 i c spread rs p q ->
    scale_regime (rs_regime rs) = true -> getTradingMode (riskManager s1) <> DEFENSIVE ->
    zlen (openPositions s1) < maxOpenPositions (config u) -> scaling u i c rs s1 s2.

Lemma scaling_keeps u i c rs s1 s2 : scaling u i c rs s1 s2 ->
  riskManager s2 = riskManager s1 /\ performanceTracker s2 = performanceTracker s1 /\
  closedTrades s2 = closedTrades s1 /\ regimeState s2 = regimeState s1 /\
  exists l qs, openPositions s2 = l ++ qs /\ entry_key <$> l = entry_key <$> openPositions s1 /\
    (fun p => entryIndex (base p)) <$> l = (fun p => entryIndex (base p)) <$> openPositions s1 /\
    (length qs <= 1)%nat /\ Forall (fun q => entryIndex (base q) = i /\ isScaleIn q = true) qs.
Proof using.
  intros [->|spread l1 p l2 q Ho -> _ Hs _ _ _].
  - do 4 (split; [done|]). exists (openPositions s1), []. rewrite app_nil_r. simpl. split_and!; try done. lia.
  - simpl. do 4 (split; [done|]). exists (l1 ++ mark_parent p :: l2), [q].
    rewrite Ho, !fmap_app. simpl. split_and!; try done. constructor; [|done].
    destruct (si_position _ _ _ _ _ _ _ _ Hs) as (_ & H1 & H2). done.
Qed.

Lemma bar_scaling initial u i c s0 s : agree initial s0 -> zlookup (m15Candles u) i = Some c ->
  bar u i c s0 = (s, Ok tt) ->
  exists s1 s2, settled initial u i c s0 s1 /\ scaling u i c (default no_regime (regimeState s1)) s1 s2 /\
    (still s2 s \/ (bar_context u c).2 = false /\ performanceTracker s = performanceTracker s2 /\
       closedTrades s = closedTrades s2 /\ balance (state (riskManager s)) = balance (state (riskManager s2)) /\
       regimeState s = regimeState s2 /\
       exists ps, openPositions s = openPositions s2 ++ ps /\
         opened u i c (default no_regime (regimeState s1)) (bar_context u c).1 s2 s ps).
Proof using.
  intros Ha Hc Hb. apply (bar_parts initial) in Hb as (spread & s1 & s2 & Hsp & Hs & Hs2 & He); [|done..].
  cbv zeta in *. exists s1, s2. split; [done|]. split.
  - destruct (scale_regime _) eqn:Hr; [|subst s2; by apply no_scale].
    destruct (checkScaleIns_spec u i c spread (default no_regime (regimeState s1)) s1)
      as [Hn|(l1 & p & l2 & q & Ho & Hq & Hm & Hlt & _ & _ & Hn)]; rewrite Hn in Hs2; [by apply no_scale|].
    by apply (one_scale _ _ _ _ _ _ spread l1 p l2 q).
  - by apply (entry_spec u i c spread) in He.
Qed.

(** What a whole bar does to the books: they keep agreeing, every position that was open is
    still open or has its trade, and what is new was opened on this bar. *)
Record bar_books (initial : num) (i : Z) (s0 s : RunState) : Prop := {
  bb_agree : agree initial s;
  bb_keys : exists ts kept news, closedTrades s = closedTrades s0 ++ ts /\ openPositions s = kept ++ news /\
    (trade_key <$> ts) ++ (entry_key <$> kept) ≡ₚ entry_key <$> openPositions s0 /\
    Forall (fun p => entryIndex (base p) = i) news /\
    (fun p => entryIndex (base p)) <$> kept `sublist_of` (fun p => entryIndex (base p)) <$> openPositions s0;
}.

Lemma bar_keeps_books initial u i c s0 s : agree initial s0 -> zlookup (m15Candles u) i = Some c ->
  bar u i c s0 = (s, Ok tt) -> bar_books initial i s0 s.
Proof using.
  intros Ha Hc Hb. apply (bar_scaling initial) in Hb as (s1 & s2 & Hs & Hsc & He); [|done..].
  destruct Hs as [[A1 A2] R (ts & Hts & Hp) G1 G2 _ _].
  apply scaling_keeps in Hsc as (K1 & K2 & K3 & K4 & l & qs & Ho & Hk & Hi & _ & Hq).
  assert (Hnews : exists ps, performanceTracker s = performanceTracker s2 /\ closedTrades s = closedTrades s2 /\
    balance (state (riskManager s)) = balance (state (riskManager s2)) /\ openPositions s = openPositions s2 ++ ps /\
    Forall (fun p => entryIndex (base p) = i) ps).
  { destruct He as [(B1 & B2 & B3 & B4 & _)|(_ & B1 & B2 & B3 & _ & ps & B4 & Hop)].
    - exists []. by rewrite app_nil_r.
    - exists ps. split_and!; try done. destruct (op_signal _ _ _ _ _ _ _ _ Hop) as (g & q0 & s3 & _ & _ & _ & _ & _ & Hz).
      destruct (sz_positions _ _ _ _ _ _ _ _ _ Hz) as [_ Hf]. eapply Forall_impl; [exact Hf|]. simpl. tauto. }
  destruct Hnews as (ps & B1 & B2 & B3 & B4 & Hps). constructor.
  - split; [by rewrite B3, B2, K1, K3|by rewrite B1, B2, K2, K3].
  - exists ts, l, (qs ++ ps). rewrite B2, K3, B4, Ho, Hk, Hi, Hts. split; [done|]. split; [by rewrite app_assoc|].
    split; [done|]. split; [|done]. apply Forall_app. split; [|done]. eapply Forall_impl; [exact Hq|]. simpl. tauto.
Qed.

(** Before bar [i]. *)
Definition before_bar (initial : num) (i : Z) (s : RunState) : Prop :=
  agree initial s /\ Forall (fun p => entryIndex (base p) < i) (openPositions s).

Lemma bar_books_next initial i s0 s : Forall (fun p => entryIndex (base p) < i) (openPositions s0) ->
  bar_books initial i s0 s -> before_bar initial (i + 1) s.
Proof using.
  intros Hlt [Ha (ts & kept & news & _ & Ho & _ & Hn & Hi)]. split; [done|]. rewrite Ho. apply Forall_app. split.
  - rewrite Forall_forall in *. intros p Hp.
    assert (Hin : entryIndex (base p) ∈ (fun p => entryIndex (base p)) <$> openPositions s0).
    { eapply elem_of_sublist; [|exact Hi]. by apply (list_elem_of_fmap_2 (fun p => entryIndex (base p))). }
    apply list_elem_of_fmap in Hin as (q & -> & Hq). specialize (Hlt q Hq). lia.
  - eapply Forall_impl; [exact Hn|]. simpl. lia.
Qed.
End entry.
