(* ===== verification/V6Facts.v ===== *)
(** * Properties of the V6 backtest engine

    Entries and scale-ins pass their gates, a run settles its books, the regime state machine
    remembers at most one bar, and a run always returns. *)
From S2P Require Import Prelude JsNum JsDate Types Instruments RiskManager RiskFacts PositionSimulator.
From S2P Require Import SweepDetector Indicators V6Evaluator V6Engines V6Engine V6SignalFacts V6Books.
From S2P Require PerformanceTracker SmcEngine.
Section runs.
Context {TZ : TimeZones} {BO : Bollinger}.

(** ** Runs of bars *)
Lemma bars_app u i a b s : bars u i (a ++ b) s =
  match bars u i a s with (s1, Ok _) => bars u (i + zlen a) b s1 | (s1, Throw e) => (s1, Throw e) end.
Proof using.
  revert i s. induction a as [|c a IH]; intros i s; simpl.
  - change (zlen []) with 0. by rewrite Z.add_0_r.
  - unfold m_bind. destruct (bar u i c s) as [s1 [[]|]]; [|done]. rewrite IH. unfold zlen. simpl.
    by replace (i + Z.of_nat (S (length a))) with (i + 1 + Z.of_nat (length a)) by lia.
Qed.

Lemma zlookup_mid {A} (a b : list A) c : zlookup (a ++ c :: b) (zlen a) = Some c.
Proof using. unfold zlen. rewrite zlookup_nth. by apply list_lookup_middle. Qed.

Lemma bars_before initial u cs rest : forall pre s s', m15Candles u = pre ++ cs ++ rest ->
  before_bar initial (zlen pre) s -> bars u (zlen pre) cs s = (s', Ok tt) ->
  before_bar initial (zlen (pre ++ cs)) s'.
Proof using.
  induction cs as [|c cs IH]; intros pre s s' Hm Hb; simpl.
  - intros [= <-]. by rewrite app_nil_r.
  - unfold m_bind. destruct (bar u (zlen pre) c s) as [s1 [[]|]] eqn:E; [|done]. intros Hrest.
    replace (pre ++ c :: cs) with ((pre ++ [c]) ++ cs) by (by rewrite <- app_assoc).
    assert (Hlen : zlen (pre ++ [c]) = zlen pre + 1) by (unfold zlen; rewrite length_app; simpl; lia).
    apply (IH _ s1 s'); [by rewrite Hm, <- app_assoc| |by rewrite Hlen].
    rewrite Hlen. destruct Hb as [Ha Hlt]. eapply bar_books_next; [exact Hlt|].
    eapply bar_keeps_books; [done| |exact E]. rewrite Hm. apply zlookup_mid.
Qed.

Lemma initial_before r cache : before_bar (balance (state r)) 0 (initial_state r cache).
Proof using. done. Qed.

(** The state before the bar [c] of a run. *)
Lemma run_before u r cache cs c rest s0 : m15Candles u = cs ++ c :: rest ->
  bars u 0 cs (initial_state r cache) = (s0, Ok tt) ->
  before_bar (balance (state r)) (zlen cs) s0 /\ zlookup (m15Candles u) (zlen cs) = Some c.
Proof using.
  intros Hm Hb. split; [|rewrite Hm; apply zlookup_mid].
  by apply (bars_before (balance (state r)) u cs (c :: rest) [] _ _ Hm (initial_before r cache)).
Qed.

(** C11: entries of the V6 engine are disciplined.  On every bar of a run the open positions are first
    managed and closed, each one either staying or becoming exactly one trade; the cooldown is
    then the one the last of these trades started, or the one the bars before left, the stop
    cooldown starts anew exactly when one of them was a stop, and the stops of the day of a side
    are those before the bar (none on a new day) and those among these trades.  Then at most one
    position scales in.  Then positions open only past both cooldowns, outside the news blackout,
    with the risk manager's permission, in a trading session with a tradable range, on a signal
    that its engine may give in the regime and mode of the bar, at or above the quality floor of
    the pair, with fewer than three stops of the day on its side, a positive lot, and, beside at
    most one other position of the side, only when that is at breakeven in a strong trend and
    the risk of the side stays within a fifth of the balance; one or two positions, with the
    stop and the entry of the signal. *)
Theorem v6_entry_discipline (u : Setup) (r : RiskManager) (cache : BB.Cache) (cs rest : list BacktestCandle)
    (c : BacktestCandle) (s0 s : RunState) :
  m15Candles u = cs ++ c :: rest -> bars u 0 cs (initial_state r cache) = (s0, Ok tt) ->
  bar u (zlen cs) c s0 = (s, Ok tt) ->
  Forall (fun p => entryIndex (base p) < zlen cs) (openPositions s0) /\
  exists s1 s2, settled (balance (state r)) u (zlen cs) c s0 s1 /\
    scaling u (zlen cs) c (default no_regime (regimeState s1)) s1 s2 /\
    (openPositions s = openPositions s2 \/
     (bar_context u c).2 = false /\ exists ps, openPositions s = openPositions s2 ++ ps /\
       opened u (zlen cs) c (default no_regime (regimeState s1)) (bar_context u c).1 s2 s ps).
Proof using.
  intros Hm Hpre Hbar. destruct (run_before _ _ _ _ _ _ _ Hm Hpre) as [[Ha Hlt] Hc]. split; [done|].
  destruct (bar_scaling _ _ _ _ _ _ Ha Hc Hbar) as (s1 & s2 & Hs & Hsc & He). exists s1, s2.
  split; [done|]. split; [done|]. destruct He as [He|(Hn & _ & _ & _ & _ & Hps)]; [left; apply He|by right].
Qed.

(** ** Settling *)
Lemma force_close_spec initial u c l s0 : agree initial s0 ->
  triple (fun s => s = s0) (force_close u c l) (fun _ s =>
    agree initial s /\ closedTrades s = closedTrades s0 ++ (force_close_trade u c <$> l)).
Proof using.
  revert s0. induction l as [|p l IH]; intros s0 Ha; simpl.
  - apply triple_ret. intros s ->. by rewrite app_nil_r.
  - intros s s' [] ->. unfold m_bind. destruct (record_result _ _ s0) as [s1 [[]|]] eqn:E; [|done].
    apply (record_result_spec initial _ _ s0 Ha) in E as (A & C & _); [|done]. intros Hf.
    apply (IH s1 A) in Hf as [A' C']; [|done]. split; [done|]. by rewrite C', C, <- app_assoc.
Qed.

(** C29: a finished V6 run has settled.  The risk manager's balance is the initial balance plus the
    profits of the trades in order and the tracker has recorded exactly the trades; on every bar
    the positions open before it are, each exactly once, still open after it or among the
    trades it added, everything else that is open entered on that bar, and the run ends by
    closing what the last bar left open at the last close. *)
Theorem v6_settles (u : Setup) (r : RiskManager) (cache : BB.Cache) (s : RunState) :
  run_v6 u r cache = (s, Ok tt) ->
  balance (state (riskManager s)) = nsum (balance (state r)) (pnl <$> closedTrades s) /\
  performanceTracker s = PerformanceTracker.record_all (closedTrades s) /\
  (forall cs c rest s0 s1, m15Candles u = cs ++ c :: rest ->
     bars u 0 cs (initial_state r cache) = (s0, Ok tt) -> bar u (zlen cs) c s0 = (s1, Ok tt) ->
     bar_books (balance (state r)) (zlen cs) s0 s1) /\
  exists s1, bars u 0 (m15Candles u) (initial_state r cache) = (s1, Ok tt) /\
    (openPositions s1 = [] /\ closedTrades s = closedTrades s1 \/
     exists c, last (m15Candles u) = Some c /\
       closedTrades s = closedTrades s1 ++ (force_close_trade u c <$> openPositions s1)).
Proof using.
  unfold run_v6, m_bind at 1.
  destruct (bars u 0 (m15Candles u) (initial_state r cache)) as [s1 [[]|]] eqn:Hb; [|done]. intros Hf.
  pose proof (bars_before (balance (state r)) u (m15Candles u) [] [] _ s1 ltac:(by rewrite app_nil_r)
                (initial_before r cache) Hb) as [Ha _].
  assert (Hend : agree (balance (state r)) s /\ (openPositions s1 = [] /\ closedTrades s = closedTrades s1 \/
    exists c, last (m15Candles u) = Some c /\
      closedTrades s = closedTrades s1 ++ (force_close_trade u c <$> openPositions s1))).
  { unfold finish, m_bind, m_get in Hf. destruct (zlookup (m15Candles u) _) as [c|] eqn:Hc.
    - apply (force_close_spec _ u c _ s1 Ha) in Hf as [A C]; [|done]. split; [done|]. right. exists c.
      split; [|done]. rewrite last_lookup. unfold zlookup, zlen in Hc. destruct (_ <? _); [done|].
      by replace (pred (length (m15Candles u))) with (Z.to_nat (Z.of_nat (length (m15Candles u)) - 1)) by lia.
    - injection Hf as <-. split; [done|]. left. split; [|done].
      destruct (m15Candles u) as [|x l]; [by injection Hb as <-|]. exfalso.
      destruct (zlookup_is_Some (x :: l) (zlen (x :: l) - 1)) as [y Hy]; [unfold zlen; simpl; lia|congruence]. }
  destruct Hend as [[A1 A2] Hend]. split; [done|]. split; [done|]. split; [|by exists s1].
  intros cs c rest s2 s3 Hm Hpre Hbar. destruct (run_before _ _ _ _ _ _ _ Hm Hpre) as [[Ha2 _] Hc].
  by eapply bar_keeps_books.
Qed.

(** ** The regime state machine *)
Lemma hysteresis_same p k raw adx diSep ratio : rs_h1Idx p = k ->
  hysteresis (Some p) k raw adx diSep ratio = hysteresis None k raw adx diSep ratio.
Proof using. intros <-. simpl. by rewrite Z.eqb_refl. Qed.

Lemma detectRegime_idx h1c h1 t o conf : 0 <= index_at h1c (Date_parse t) ->
  rs_h1Idx (detectRegime h1c h1 t o conf) = index_at h1c (Date_parse t).
Proof using.
  unfold detectRegime. destruct (Z.ltb_spec (index_at h1c (Date_parse t)) 0); [lia|]. cbv zeta. by case_match.
Qed.

Lemma detectRegime_same h1c h1 t p conf : rs_h1Idx p = index_at h1c (Date_parse t) ->
  detectRegime h1c h1 t (Some p) conf = detectRegime h1c h1 t None conf.
Proof using.
  intros Hp. unfold detectRegime. cbv zeta. by rewrite (hysteresis_same p _ _ _ _ _ Hp).
Qed.

Lemma detectRegime_fresh h1c h1 t conf : 0 <= index_at h1c (Date_parse t) ->
  rs_durationBars (detectRegime h1c h1 t None conf) = 1.
Proof using.
  intros Hi. unfold detectRegime. destruct (Z.ltb_spec (index_at h1c (Date_parse t)) 0); [lia|]. cbv zeta.
  unfold hysteresis. cbv beta iota delta [rs_durationBars]. by match goal with |- (if ?b then _ else _) = _ => destruct b end.
Qed.

Lemma detectRegime_bound h1c h1 t p conf : rs_durationBars p = 1 ->
  rs_durationBars (detectRegime h1c h1 t (Some p) conf) <= 2.
Proof using.
  intros Hp. unfold detectRegime. destruct (_ <? 0); [simpl; lia|]. cbv zeta.
  set (hy := hysteresis _ _ _ _ _ _). assert (Hd : hy.2 <= 2).
  { unfold hy, hysteresis. repeat case_match; simpl; lia. }
  destruct hy as [g d]. simpl in *. case_match; lia.
Qed.

(** The regime reading of a bar: a function of the last reading and the tracker. *)
Definition reading (u : Setup) (c : BacktestCandle) (o : option RegimeState) (t : PerformanceTracker.PerformanceTracker)
    : RegimeState :=
  note_context u (bar_context u c).1 (bar_context u c).2
    (detectRegime (h1Candles u) (h1Indicators u) (openTime c) o
       (Some (PerformanceTracker.getEngineConfidence TREND_PULLBACK t))).

Lemma note_context_keeps u b n x :
  rs_durationBars (note_context u b n x) = rs_durationBars x /\ rs_h1Idx (note_context u b n x) = rs_h1Idx x.
Proof using. unfold note_context. by repeat case_match. Qed.

Lemma bar_reading u initial i c s0 s : before_bar initial i s0 -> zlookup (m15Candles u) i = Some c ->
  bar u i c s0 = (s, Ok tt) -> regimeState s = Some (reading u c (regimeState s0) (performanceTracker s0)).
Proof using.
  intros [Ha _] Hc Hbar. destruct (bar_scaling _ _ _ _ _ _ Ha Hc Hbar) as (s1 & s2 & Hs & Hsc & He).
  assert (Hr : regimeState s = regimeState s2) by (destruct He as [He|He]; [apply He|tauto]).
  apply scaling_keeps in Hsc as (_ & _ & _ & Hr2 & _).
  rewrite Hr, Hr2, (st_regime _ _ _ _ _ _ Hs). unfold observe, reading, new_day.
  destruct (bar_context u c) as [b n]. by case_match.
Qed.

Lemma run_reading u r cache cs c rest s0 s : m15Candles u = cs ++ c :: rest ->
  bars u 0 cs (initial_state r cache) = (s0, Ok tt) -> bar u (zlen cs) c s0 = (s, Ok tt) ->
  regimeState s = Some (reading u c (regimeState s0) (performanceTracker s0)).
Proof using.
  intros Hm Hpre. destruct (run_before _ _ _ _ _ _ _ Hm Hpre) as [Hb Hc]. by apply (bar_reading u _ _ c _ _ Hb).
Qed.

(** The regime state machine remembers nothing inside an H1 bar.  When two consecutive M15 bars of a
    run fall into the same H1 bar, the second reads the regime afresh, as if there were no
    previous state, with duration 1: no hysteresis and no minimum duration; whatever the next
    bar is, its regime has lasted at most 2 bars, so the bonus of the range engine for a regime
    of 3 bars or more is not given there. *)
Theorem v6_regime_forgets (u : Setup) (r : RiskManager) (cache : BB.Cache) (cs rest : list BacktestCandle)
    (c1 c2 : BacktestCandle) (s0 s1 s2 : RunState) :
  m15Candles u = cs ++ c1 :: c2 :: rest ->
  index_at (h1Candles u) (Date_parse (openTime c1)) = index_at (h1Candles u) (Date_parse (openTime c2)) ->
  0 <= index_at (h1Candles u) (Date_parse (openTime c1)) ->
  bars u 0 cs (initial_state r cache) = (s0, Ok tt) -> bar u (zlen cs) c1 s0 = (s1, Ok tt) ->
  bar u (zlen cs + 1) c2 s1 = (s2, Ok tt) ->
  regimeState s2 = Some (reading u c2 None (performanceTracker s1)) /\
  rs_durationBars (reading u c2 None (performanceTracker s1)) = 1 /\
  forall c3 rest3 s3, rest = c3 :: rest3 -> bar u (zlen cs + 2) c3 s2 = (s3, Ok tt) ->
    exists rs, regimeState s3 = Some rs /\ rs_durationBars rs <= 2.
Proof using.
  intros Hm Hidx Hpos Hpre E1 E2.
  pose proof (run_reading _ _ _ _ _ _ _ _ Hm Hpre E1) as R1.
  assert (Hm2 : m15Candles u = (cs ++ [c1]) ++ c2 :: rest) by (by rewrite Hm, <- app_assoc).
  assert (Hl1 : zlen (cs ++ [c1]) = zlen cs + 1) by (unfold zlen; rewrite length_app; simpl; lia).
  assert (Hpre2 : bars u 0 (cs ++ [c1]) (initial_state r cache) = (s1, Ok tt)).
  { rewrite bars_app, Hpre. simpl. unfold m_bind, m_ret. replace (0 + zlen cs) with (zlen cs) by lia. by rewrite E1. }
  rewrite <- Hl1 in E2. pose proof (run_reading _ _ _ _ _ _ _ _ Hm2 Hpre2 E2) as R2.
  rewrite R1 in R2. unfold reading at 1 in R2. rewrite detectRegime_same in R2.
  2: { unfold reading. rewrite (proj2 (note_context_keeps _ _ _ _)), detectRegime_idx by done. done. }
  fold (reading u c2 None (performanceTracker s1)) in R2.
  assert (Hd : rs_durationBars (reading u c2 None (performanceTracker s1)) = 1).
  { unfold reading. rewrite (proj1 (note_context_keeps _ _ _ _)). apply detectRegime_fresh. by rewrite <- Hidx. }
  split; [done|]. split; [done|]. intros c3 rest3 s3 -> E3.
  assert (Hm3 : m15Candles u = ((cs ++ [c1]) ++ [c2]) ++ c3 :: rest3) by (by rewrite Hm2, <- !app_assoc).
  assert (Hl2 : zlen ((cs ++ [c1]) ++ [c2]) = zlen cs + 2) by (unfold zlen; rewrite !length_app; simpl; lia).
  assert (Hpre3 : bars u 0 ((cs ++ [c1]) ++ [c2]) (initial_state r cache) = (s2, Ok tt)).
  { rewrite bars_app, Hpre2. simpl. unfold m_bind, m_ret.
    replace (0 + zlen (cs ++ [c1])) with (zlen (cs ++ [c1])) by lia. by rewrite E2. }
  rewrite <- Hl2 in E3. pose proof (run_reading _ _ _ _ _ _ _ _ Hm3 Hpre3 E3) as R3. eexists. split; [exact R3|].
  unfold reading. rewrite (proj1 (note_context_keeps _ _ _ _)), R2. by apply detectRegime_bound.
Qed.

(** ** Scale-ins *)
Lemma scale_once u s i c spread rs p : isScaleIn p = true \/ hasScaleIn p = true ->
  scale_in_of u s i c spread rs p = None.
Proof using.
  intros Hp. unfold scale_in_of. cbv zeta. assert (Hm : may_scale rs p = false).
  { unfold may_scale. destruct Hp as [->| ->]; simpl; [done|]. by rewrite andb_false_r. }
  by rewrite Hm.
Qed.

Lemma settled_older initial u i c s0 s1 : settled initial u i c s0 s1 ->
  Forall (fun p => entryIndex (base p) < i) (openPositions s0) ->
  forall x, x ∈ openPositions s1 -> entryIndex (base x) < i.
Proof using.
  intros Hs Hlt x Hx. assert (Hin : entryIndex (base x) ∈ (fun p => entryIndex (base p)) <$> openPositions s0).
  { eapply elem_of_sublist; [|apply (st_rest _ _ _ _ _ _ Hs)].
    by apply (list_elem_of_fmap_2 (fun p => entryIndex (base p))). }
  apply list_elem_of_fmap in Hin as (y & -> & Hy). rewrite Forall_forall in Hlt. by apply Hlt.
Qed.

(** Among older positions the position of bar [i] is the one that was added. *)
Lemma added_position i l1 p l2 (q q' : V6Position) :
  (forall x, x ∈ l1 ++ p :: l2 -> entryIndex (base x) < i) -> entryIndex (base q) = i ->
  q ∈ (l1 ++ mark_parent p :: l2) ++ [q'] -> q = q'.
Proof using.
  intros Hold Hi [[Hq|[->|Hq]%elem_of_cons]%elem_of_app|Hq]%elem_of_app.
  - specialize (Hold q ltac:(apply elem_of_app; by left)). lia.
  - specialize (Hold p ltac:(apply elem_of_app; right; by left)). simpl in Hi. lia.
  - specialize (Hold q ltac:(apply elem_of_app; right; by right)). lia.
  - by apply list_elem_of_singleton in Hq.
Qed.

(** What a signal opens is no scale-in. *)
Lemma opened_not_scale u i c rs bias s0 s ps q : opened u i c rs bias s0 s ps -> q ∈ ps -> isScaleIn q = false.
Proof using.
  intros Hop Hq. destruct (op_signal _ _ _ _ _ _ _ _ Hop) as (g & q0 & s3 & _ & _ & _ & _ & _ & Hz).
  destruct (sz_positions _ _ _ _ _ _ _ _ _ Hz) as [_ Hf]. rewrite Forall_forall in Hf. apply (Hf q Hq).
Qed.

Lemma managed_never_scales x bs : isScaleIn x = true \/ hasScaleIn x = true ->
  forall u s i c spread rs,
  scale_in_of u s i c spread rs (fold_left (fun x (b : BacktestCandle * num) => manage b.1 b.2 x) bs x) = None.
Proof using.
  intros Hx u s i c spread rs. apply scale_once. revert x Hx.
  induction bs as [|b bs IH]; intros x Hx; simpl; [done|]. by apply IH.
Qed.

(** A scale-in is a free ride on a winner.  From any state before bar [i] whose books agree and
    whose positions are older (every state of a run is one), a scale-in that the bar opens belongs to a
    position of that side, not itself a scale-in and not scaled before, at breakeven and between
    1R and 1.5R in profit in a trend regime of its direction; it has half the lot, its stop at the
    entry of its parent and no target; with it the risk stays within a fifth of the balance and
    the positions within their limit; its parent stays open, marked, and neither of the two can
    ever scale again, however they are managed. *)
Theorem v6_scale_ins_are_free (u : Setup) (initial : num) (i : Z) (c : BacktestCandle) (s0 s : RunState)
    (q : V6Position) :
  before_bar initial i s0 -> zlookup (m15Candles u) i = Some c -> bar u i c s0 = (s, Ok tt) ->
  q ∈ openPositions s -> entryIndex (base q) = i -> isScaleIn q = true ->
  exists spread rs s1 p, getSpread (symbol (config u)) (openTime c) = Ok spread /\
    p ∈ openPositions s1 /\ scaled_in u s1 i c spread rs p q /\ regimeState s = Some rs /\
    scale_regime (rs_regime rs) = true /\ zlen (openPositions s1) < maxOpenPositions (config u) /\
    mark_parent p ∈ openPositions s /\
    forall x, x = q \/ x = mark_parent p -> forall bars_ : list (BacktestCandle * num),
      forall s' i' c' spread' rs',
      scale_in_of u s' i' c' spread' rs' (fold_left (fun x b => manage b.1 b.2 x) bars_ x) = None.
Proof using.
  intros Hb Hc Hbar Hq Hi Hsi. pose proof (bar_reading _ _ _ _ _ _ Hb Hc Hbar) as Hreg. destruct Hb as [Ha Hlt].
  destruct (bar_scaling _ _ _ _ _ _ Ha Hc Hbar) as (s1 & s2 & Hs & Hsc & He).
  pose proof (settled_older _ _ _ _ _ _ Hs Hlt) as Hold.
  assert (Hs2 : openPositions s2 `sublist_of` openPositions s /\ q ∈ openPositions s2 /\ regimeState s = regimeState s2).
  { destruct He as [(_ & _ & Ho & _ & _ & _ & _ & Hr)|(_ & _ & _ & _ & Hr & ps & Ho & Hop)]; rewrite Ho in *; [done|].
    split; [by apply sublist_inserts_r|]. split; [|done]. apply elem_of_app in Hq as [?|Hq]; [done|].
    pose proof (opened_not_scale _ _ _ _ _ _ _ _ _ Hop Hq). congruence. }
  destruct Hs2 as (Hsub & Hq2 & Hr2). rewrite Hreg in Hr2. symmetry in Hr2.
  destruct Hsc as [->|spread l1 p l2 q' Ho -> Hsp Hsc Hrs Hmode Hlen]; [specialize (Hold q Hq2); lia|].
  simpl in Hq2, Hsub, Hr2. rewrite Ho in Hold. rewrite (added_position _ _ _ _ _ _ Hold Hi Hq2) in *.
  rewrite Hr2 in Hsc, Hrs. simpl in Hsc, Hrs. eexists spread, _, s1, p. split; [done|].
  split; [rewrite Ho; apply elem_of_app; right; by left|]. split; [exact Hsc|]. split_and!; try done.
  - eapply elem_of_sublist; [|exact Hsub]. apply elem_of_app. left. apply elem_of_app. right. by left.
  - intros x Hx bs s' i' c' spread' rs'. apply managed_never_scales.
    destruct Hx as [->| ->]; [left; apply (si_position _ _ _ _ _ _ _ _ Hsc)|by right].
Qed.
End runs.

(** * The V6 backtest always returns; its cache and its performance windows

    Progress of a run, the window no trade of the engine ever reaches, and the bands the
    module's cache hands to another symbol. *)
From S2P Require Import Prelude JsNum JsDate Types Instruments RiskManager RiskFacts PositionSimulator.
From S2P Require Import SweepDetector Indicators V6Evaluator V6Engines V6Engine V6Books.
From S2P Require PerformanceTracker SmcEngine.
(** What the engine relies on: the package returns no more bands than closes. *)
Class BollingerLaws (B : Bollinger) : Prop := {
  Bollinger_length n d l : (length (@BollingerBands B n d l) <= length l)%nat }.

Section progress.
Context {TZ : TimeZones} {BO : Bollinger} {BL : BollingerLaws BO}.
Context (u : Setup).
Hypothesis known : is_ok (getInstrumentConfig (symbol (config u))) = true.

(** The time and the day of the bar can be read. *)
Definition readable (c : BacktestCandle) : Prop := is_Some (candle_ms c) /\ dated c.

Lemma getLocalHour_ok c tz : readable c -> exists h, getLocalHour (openTime c) tz = Ok h.
Proof using. intros [[t Ht] _]. unfold getLocalHour. unfold candle_ms in Ht. rewrite Ht. eauto. Qed.

Lemma session_is_ok c : readable c -> exists b, isActiveTradingSession (openTime c) = Ok b.
Proof using.
  intros Hc. unfold isActiveTradingSession. destruct (getLocalHour_ok c "Europe/London" Hc) as [h ->]. simpl.
  destruct (hour_in _ _ _); [eauto|]. destruct (getLocalHour_ok c "America/New_York" Hc) as [h' ->]. simpl. eauto.
Qed.

Ltac oks := repeat first
  [ reflexivity
  | match goal with
    | H : zlookup (m15Candles u) ?i = Some _ |- context [zlookup (m15Candles u) ?i] => rewrite H
    | |- is_ok (if ?b then _ else _) = true => destruct b
    | |- is_ok (match ?o with Some _ => _ | None => _ end) = true => destruct o as [?|]
    | |- is_ok (let '(_, _) := ?o in _) = true => destruct o as [? ?]
    | H : readable ?c |- context [isActiveTradingSession (openTime ?c)] =>
        let E := fresh in destruct (session_is_ok c H) as [? E]; rewrite E; clear E; cbn [res_bind]
    | H : readable ?c |- context [getLocalHour (openTime ?c) ?tz] =>
        let E := fresh in destruct (getLocalHour_ok c tz H) as [? E]; rewrite E; clear E; cbn [res_bind]
    end ].

Section bar.
Context (i : Z) (c : BacktestCandle).
Hypothesis at_i : zlookup (m15Candles u) i = Some c.
Hypothesis read : readable c.

Lemma trend_ok spread atr prec rs mq :
  is_ok (evaluateSetup (m15Candles u) (m15Indicators u) (h1Candles u) (h1Indicators u) i spread atr prec rs mq) = true.
Proof using at_i read. unfold evaluateSetup, trend_entry. cbv zeta. oks. Qed.

Lemma gap_ok gaps spread atr prec rs mq :
  is_ok (evaluateFVGEntry (m15Candles u) (m15Indicators u) (h1Candles u) (h1Indicators u) i gaps spread atr prec rs mq) = true.
Proof using at_i read. unfold evaluateFVGEntry. cbv zeta. oks. Qed.

Lemma range_ok spread atr prec rs mq :
  is_ok (evaluateRangeSetup (m15Candles u) (m15Indicators u) i spread atr prec rs mq) = true.
Proof using at_i read. unfold evaluateRangeSetup. cbv zeta. oks. Qed.

Lemma cross_ok spread atr prec rs :
  is_ok (Cross.evaluateEmaCross (m15Candles u) (m15Indicators u) (h1Candles u) (h1Indicators u) i spread atr prec rs) = true.
Proof using at_i read. unfold Cross.evaluateEmaCross. cbv zeta. oks. Qed.

Lemma momentum_ok spread atr prec rs :
  is_ok (Momentum.evaluateMomentumContinuation (m15Candles u) (m15Indicators u) (h1Candles u) (h1Indicators u) i
           spread atr prec rs) = true.
Proof using at_i read. unfold Momentum.evaluateMomentumContinuation. cbv zeta. oks. Qed.

Lemma score_ok g :
  is_ok (calculateQualityScore (m15Candles u) (m15Indicators u) (h1Candles u) (h1Indicators u) i g) = true.
Proof using at_i read. unfold calculateQualityScore. cbv zeta. oks. Qed.

Lemma bands_ok cs : exists b, BB.bands cs = Ok b.
Proof using BL.
  unfold BB.bands. cbv zeta. set (raw := BollingerBands _ _ _). set (n := length _).
  assert (Hl : (length raw <= n)%nat) by apply Bollinger_length.
  destruct (pad_ok n ((fun r => r.1.1) <$> raw)) as (l1 & -> & _); [by rewrite length_fmap|].
  destruct (pad_ok n ((fun r => r.1.2) <$> raw)) as (l2 & -> & _); [by rewrite length_fmap|].
  destruct (pad_ok n (snd <$> raw)) as (l3 & -> & _); [by rewrite length_fmap|]. simpl. eauto.
Qed.

Lemma computeBB_returns cs : returns (BB.computeBB cs).
Proof using BL.
  intros cache. unfold BB.computeBB. cbv zeta. destruct (bands_ok cs) as [b ->].
  destruct cache as [[k b0]|]; [destruct (String.eqb _ _)|]; by eexists _, _.
Qed.

Lemma reversal_returns spread atr prec rs :
  returns (BB.evaluateBBReversal (m15Candles u) (m15Indicators u) (h1Candles u) (h1Indicators u) i spread atr prec rs).
Proof using BL at_i read.
  unfold BB.evaluateBBReversal. cbv zeta. destruct (_ <? _); [apply returns_ret|].
  rewrite at_i. destruct (rs_regime rs); try apply returns_ret;
    (apply returns_bind; [destruct (session_is_ok c read) as [b Hb]; rewrite Hb; by apply returns_lift|]; intros b;
     destruct (negb b); [apply returns_ret|]; destruct (_ || _); [apply returns_ret|];
     apply returns_bind; [apply computeBB_returns|]; intros; apply returns_ret).
Qed.

Lemma on_cache_returns {A} (m : M BB.Cache A) : returns m -> returns (on_cache m).
Proof using. intros Hm s. unfold on_cache. destruct (Hm (bbCache s)) as (b & a & ->). by eexists _, a. Qed.

Lemma or_try_returns sig guard m : returns m -> returns (or_try sig guard m).
Proof using. intros Hm. unfold or_try. destruct sig; [apply returns_ret|]. destruct guard; [done|apply returns_ret]. Qed.

Lemma route_returns spread rs mode mq : returns (route u i spread rs mode mq).
Proof using BL at_i read.
  unfold route. cbv zeta. apply returns_bind.
  { destruct (trend_regime _); apply returns_lift; [apply trend_ok|done]. }
  intros s1. apply returns_bind.
  { apply or_try_returns. unfold try_gaps. apply returns_get. intros s.
    apply returns_bind; [apply returns_lift, gap_ok|]. intros [g|]; [|apply returns_ret].
    apply returns_bind; [apply returns_modify|]. intros. apply returns_ret. }
  intros s2. apply returns_bind; [apply or_try_returns, on_cache_returns, reversal_returns|].
  intros s3. apply returns_bind; [apply or_try_returns, returns_lift, range_ok|].
  intros s4. apply returns_bind; [apply or_try_returns, returns_lift, cross_ok|].
  intros s5. apply or_try_returns, returns_lift, momentum_ok.
Qed.

Lemma v6_record_returns t : returns (record_result t (openTime c)).
Proof using read.
  apply returns_bind; [|intros; apply returns_modify]. intros s. unfold on_rm.
  destruct (recordTrade_ok (pnl t) (openTime c) (Some (exitReason t)) (riskManager s) (proj2 read)) as [r ->].
  by eexists _, tt.
Qed.

Lemma close_loop_returns decide after l : returns (close_loop decide after (openTime c) l).
Proof using read.
  induction l as [|p l IH]; simpl; [apply returns_ret|]. apply returns_bind; [done|]. intros rest.
  destruct (decide p) as [t|]; [|apply returns_ret]. apply returns_bind; [apply v6_record_returns|]. intros _.
  apply returns_bind; [apply returns_modify|]. intros _. apply returns_ret.
Qed.

Lemma entry_returns spread rs bias blackout : returns (entry u i c spread rs bias blackout).
Proof using BL at_i read.
  unfold entry. apply returns_get. intros s. destruct (_ || _); [apply returns_ret|]. apply returns_bind.
  { intros s1. unfold on_rm. destruct (canTrade_ok (substring10 (openTime c)) (zlen (openPositions s)) (riskManager s1))
      as (r & b & ->); [|by eexists _, _].
    unfold substring10 at 1. unfold substring10 at 1. rewrite substring_idem. apply read. }
  intros [|]; simpl; [|apply returns_ret]. apply returns_get. intros s1.
  apply returns_bind; [apply route_returns|]. intros [g|]; [|apply returns_ret].
  apply returns_bind; [apply returns_lift, score_ok|]. intros q. apply returns_get. intros s2.
  destruct (size_and_open _ _ _ _ _ _ _ _ _); [apply returns_ret|apply returns_modify].
Qed.

Lemma v6_bar_returns : returns (bar u i c).
Proof using known BL at_i read.
  unfold bar. apply returns_bind.
  { apply returns_lift. unfold getSpread. destruct (getInstrumentConfig _) as [ic|]; [|done].
    simpl. by destruct (Date_parse _). }
  intros spread. apply returns_bind; [apply returns_modify|]. intros _. apply returns_bind.
  { unfold manage_open. apply returns_get. intros s. apply returns_bind.
    - destruct (is_V6 u); [apply close_loop_returns|apply returns_ret].
    - intros l. apply returns_bind; [apply close_loop_returns|]. intros. apply returns_modify. }
  intros _. apply returns_get. intros s. destruct (bar_context u c) as [bias blackout].
  apply returns_bind; [destruct (scale_regime _); [apply returns_modify|apply returns_ret]|].
  intros _. apply entry_returns.
Qed.

Lemma force_close_returns l : returns (force_close u c l).
Proof using read.
  induction l as [|p l IH]; simpl; [apply returns_ret|]. apply returns_bind; [apply v6_record_returns|]. by intros.
Qed.
End bar.

Lemma bars_return cs : Forall readable cs -> forall pre rest, m15Candles u = pre ++ cs ++ rest ->
  returns (bars u (zlen pre) cs).
Proof using known BL.
  induction 1 as [|c cs Hc _ IH]; intros pre rest Hm; simpl; [apply returns_ret|].
  apply returns_bind; [apply v6_bar_returns; [rewrite Hm; apply zlookup_mid|done]|]. intros _.
  replace (zlen pre + 1) with (zlen (pre ++ [c])) by (unfold zlen; rewrite length_app; simpl; lia).
  apply (IH _ rest). by rewrite Hm, <- app_assoc.
Qed.

Lemma run_v6_returns r cache : Forall readable (m15Candles u) -> exists s, run_v6 u r cache = (s, Ok tt).
Proof using known BL.
  intros Hm. assert (Hr : returns (do! bars u 0 (m15Candles u) ;; finish u)%js).
  { apply returns_bind.
    - by apply (bars_return (m15Candles u) Hm [] []); rewrite app_nil_r.
    - intros _. unfold finish. apply returns_get. intros s.
      destruct (zlookup (m15Candles u) _) as [c|] eqn:Hc; [|apply returns_ret].
      apply force_close_returns. rewrite Forall_forall in Hm. apply Hm. unfold zlookup in Hc.
      destruct (_ <? _); [done|]. by eapply list_elem_of_lookup_2. }
  destruct (Hr (initial_state r cache)) as (s & [] & Hs). eauto.
Qed.
End progress.

(** C38: the V6 backtest always returns.  On a known instrument and M15 bars whose times and days can
    be read, with indicator and Bollinger packages that return no more values than they are
    given, [run] of the V5.5b and V6 versions throws nowhere, whatever the H1 and D1 bars, the
    configuration and the cache left by earlier runs. *)
Theorem v6_returns `{TimeZones} `{BL : BollingerLaws} `{TL : TechnicalIndicatorsLaws} (ov : Overrides)
    (m15 h1 d1 : list BacktestCandle) (ec : EngineConfig) (v : option StrategyVersion) (cache : BB.Cache) :
  is_ok (getInstrumentConfig (symbol ec)) = true -> routes_to_smc (default V5_5b v) = false ->
  Forall readable m15 ->
  exists cache' trades metrics, run ov m15 h1 d1 ec v cache = (cache', Ok (trades, metrics)).
Proof.
  intros Hk Hv Hm. unfold run. destruct (getInstrumentConfig (symbol ec)) as [ic|] eqn:Hic; [|done].
  unfold m_bind at 1, m_lift at 1. cbv zeta. unfold m_bind at 1, m_lift at 1.
  assert (Hd : exists di, (if 0 <? zlen d1 then res_map Some (computeIndicators d1) else Ok None) = Ok di).
  { destruct (_ <? _); [|eauto]. destruct (computeIndicators_aligned d1) as (x & -> & _). simpl. eauto. }
  destruct Hd as [di ->]. rewrite Hv. unfold m_bind at 1, m_lift at 1, prepare.
  destruct (computeIndicators_aligned m15) as (mi & -> & _). simpl.
  destruct (computeIndicators_aligned h1) as (hi & -> & _). simpl. unfold run_loop. simpl.
  unfold new_RiskManager. rewrite Hic. simpl.
  match goal with |- context [run_v6 ?u ?r cache] => destruct (run_v6_returns u ltac:(simpl; by rewrite Hic) r cache Hm) as [s Hs] end.
  rewrite Hs. simpl. eauto.
Qed.

(** ** The window of the reversal engine *)
Section windows.
Context {TZ : TimeZones} {BO : Bollinger}.

Lemma closed_engine_no_reversal p : closed_engine p <> BB_REVERSAL.
Proof. unfold closed_engine. destruct (has_tag _ _); [done|]. by destruct (has_tag _ _). Qed.

Lemma bars_no_reversal u initial cs rest : forall pre s s', m15Candles u = pre ++ cs ++ rest ->
  before_bar initial (zlen pre) s -> Forall (fun t => PerformanceTracker.deriveEngineType t <> BB_REVERSAL) (closedTrades s) ->
  bars u (zlen pre) cs s = (s', Ok tt) ->
  Forall (fun t => PerformanceTracker.deriveEngineType t <> BB_REVERSAL) (closedTrades s').
Proof.
  induction cs as [|c cs IH]; intros pre s s' Hm Hb Hc; simpl; [by intros [= <-]|].
  unfold m_bind. destruct (bar u (zlen pre) c s) as [s1 [[]|]] eqn:E; [|done]. intros Hrest.
  destruct Hb as [Ha Hlt]. pose proof (bar_keeps_books initial u (zlen pre) c s s1 Ha) as Hbb.
  specialize (Hbb ltac:(rewrite Hm; apply zlookup_mid) E).
  assert (Hlen : zlen (pre ++ [c]) = zlen pre + 1) by (unfold zlen; rewrite length_app; simpl; lia).
  apply (IH (pre ++ [c]) s1 s'); [by rewrite Hm, <- app_assoc| | |by rewrite Hlen].
  { rewrite Hlen. by eapply bar_books_next. }
  destruct Hbb as [_ (ts & kept & news & Hts & _ & Hp & _)]. rewrite Hts. apply Forall_app. split; [done|].
  apply Forall_forall. intros t Ht.
  assert (Hin : trade_key t ∈ entry_key <$> openPositions s).
  { rewrite <- Hp. apply elem_of_app. left. by apply list_elem_of_fmap_2. }
  apply list_elem_of_fmap in Hin as (p & Hk & _). unfold trade_key, entry_key in Hk. injection Hk as _ _ _ _ ->.
  apply closed_engine_no_reversal.
Qed.

(** The engine sizes a reversal entry by the confidence of the window BB_REVERSAL, and no trade
    it closes is ever counted there: the closing code derives the engine from the tags and
    does not know this one, so the confidence is the neutral 50 in every state of a run. *)
Theorem v6_reversal_confidence_fixed (u : Setup) (r : RiskManager) (cache : BB.Cache) (cs rest : list BacktestCandle)
    (s : RunState) :
  m15Candles u = cs ++ rest -> bars u 0 cs (initial_state r cache) = (s, Ok tt) ->
  PerformanceTracker.getEngineConfidence BB_REVERSAL (performanceTracker s) = of_Z 50.
Proof.
  intros Hm Hb.
  pose proof (bars_no_reversal u (balance (state r)) cs rest [] _ s Hm (initial_before r cache) ltac:(constructor) Hb) as Hno.
  pose proof (bars_before (balance (state r)) u cs rest [] _ s Hm (initial_before r cache) Hb) as [[_ Ht] _].
  unfold PerformanceTracker.getEngineConfidence, PerformanceTracker.getEngineStats. rewrite Ht.
  destruct (PerformanceTracker.windows_are_the_last_trades (closedTrades s) BB_REVERSAL "") as (_ & -> & _).
  replace (PerformanceTracker.of_engine BB_REVERSAL (closedTrades s)) with (@nil PerformanceTracker.TrackedTrade);
    [reflexivity|]. symmetry. unfold PerformanceTracker.of_engine. clear - Hno.
  induction Hno as [|t ts Ht' _ IH]; [done|]. rewrite fmap_cons, filter_cons, decide_False; [exact IH|exact Ht'].
Qed.

(** ** The cache of the bands *)

(** The cache is keyed by the number of bars and their first and last times, not by the symbol:
    after one symbol's bands were computed, another symbol with bars of the same times gets them. *)
Theorem bands_of_another_symbol (cs cs' : list BacktestCandle) (cache cache' : BB.Cache) (b : BB.Bands) :
  BB.computeBB cs cache = (cache', Ok b) -> zlen cs' = zlen cs ->
  openTime <$> zlookup cs' 0 = openTime <$> zlookup cs 0 ->
  openTime <$> zlookup cs' (zlen cs - 1) = openTime <$> zlookup cs (zlen cs - 1) ->
  BB.computeBB cs' cache' = (cache', Ok b).
Proof.
  intros Hb Hl H0 H1. assert (Hk : BB.cache_key cs' = BB.cache_key cs).
  { unfold BB.cache_key. rewrite Hl. f_equal. destruct (zlookup cs' 0), (zlookup cs 0); simplify_eq/=; try done;
      destruct (zlookup cs' (zlen cs - 1)), (zlookup cs (zlen cs - 1)); simplify_eq/=; congruence. }
  unfold BB.computeBB in *. rewrite Hk. cbv zeta in *.
  assert (Hc : cache' = Some (BB.cache_key cs, b)).
  { destruct cache as [[k b0]|].
    - destruct (String.eqb_spec k (BB.cache_key cs)) as [->|]; [by injection Hb as <- <-|].
      destruct (BB.bands cs); [by injection Hb as <- <-|done].
    - destruct (BB.bands cs); [by injection Hb as <- <-|done]. }
  rewrite Hc. by rewrite String.eqb_refl.
Qed.
End windows.
