(* ===== verification/V6Examples.v ===== *)
(** * A V6 run on concrete bars

    Gold rises through the London morning of 13 March 2024: the momentum engine buys on the
    fifth bar, in a strong trend, with a runner and a locker.  A second example scales into a
    winner, and a third marks the wrong gap. *)
From S2P Require Import Prelude JsNum JsDate Types Instruments RiskManager RiskFacts PositionSimulator.
From S2P Require Import SweepDetector SweepFacts Indicators V6Evaluator V6Engines V6Engine V6SignalFacts V6Books V6Facts.
From S2P Require PerformanceTracker.

(** Winter time: London is on UTC, New York five hours behind. *)
#[local] Instance winter : TimeZones := fun tz t =>
  if String.eqb tz "America/New_York" then getUTCHours (t - 5 * ms_hour) else getUTCHours t.
(** Flat bands. *)
#[local] Instance flat_bands : Bollinger := fun _ _ l => (fun x => (x, x, x)) <$> l.
#[local] Instance flat_bands_laws : BollingerLaws flat_bands.
Proof. constructor. intros. unfold BollingerBands, flat_bands. by rewrite length_fmap. Qed.
#[local] Instance calm_lib : TechnicalIndicators := {|
  EMA _ l := l; SMA _ l := l; RSI _ _ := []; ATR _ _ _ c := repeat (of_Z 4) (length c);
  ADX _ _ _ c := repeat (of_Z 30, of_Z 30, of_Z 20) (length c) |}.
#[local] Instance calm_laws : TechnicalIndicatorsLaws calm_lib.
Proof. constructor; intros; simpl; rewrite ?repeat_length; lia. Qed.

(** Five points up on every bar, from 2000. *)
Definition vx_price (k : Z) : Z := 2000 + 5 * k.
Definition vx_m15 : list BacktestCandle :=
  Eval vm_compute in
  (fun k => demo_bar_at "M15" (demo_day + 9 * ms_hour + k * 900000)
              (vx_price k) (vx_price k + 5) (vx_price k) (vx_price k + 5)) <$> up_from 0 6.
Definition vx_h1 : list BacktestCandle :=
  Eval vm_compute in (fun k => demo_bar_at "H1" (demo_day + k * ms_hour) 1990 2000 1985 1995) <$> up_from 5 9.

Definition rising (n : nat) (fast slow : list num) : IndicatorState := {|
  ema20 := fast; ema50 := slow; ema200 := repeat (of_Z 1900) n;
  rsi14 := repeat (of_Z 50) n; atr14 := repeat (of_Z 4) n; adx14 := repeat (of_Z 30) n;
  plusDI14 := repeat (of_Z 30) n; minusDI14 := repeat (of_Z 20) n; atrBaseline := repeat (of_Z 4) n |}.

Definition vx_config : EngineConfig := {|
  symbol := "XAUUSD"; initialBalance := of_Z 10000; riskPercent := lit 15 1;
  maxDailyLossPercent := of_Z 4; maxConsecutiveLosses := 5; maxOpenPositions := 4 |}.

Definition vx_instrument : InstrumentConfig := {|
  lotSizeUnits := of_Z 100; commissionPerLot := of_Z 7; minAtr := lit 35 1; pricePrecision := 2;
  spreads := spreads_of 2 20 25 30 50 40 |}.

Definition vx_setup : Setup := {|
  config := vx_config; version := V6; icfg := vx_instrument; pairProfile := getPairProfile "XAUUSD";
  m15Candles := vx_m15; h1Candles := vx_h1; d1Candles := [];
  m15Indicators := rising 7 ((fun k => of_Z (vx_price k + 1)) <$> up_from 0 6) (repeat (of_Z 1950) 7);
  h1Indicators := rising 5 (repeat (of_Z 1990) 5) (repeat (of_Z 1950) 5);
  d1Indicators := None |}.

Definition vx_manager : RiskManager :=
  match new_RiskManager vx_config with
  | Ok r => r
  | Throw _ => {| RiskManager.config := vx_config; rm_lotSizeUnits := of_Z 0; state := {| balance := of_Z 0; equity := of_Z 0;
      dailyPnl := of_Z 0; consecutiveLosses := 0; consecutiveWins := 0; lastTradeDate := None |};
      weeklyPeakEquity := of_Z 0; currentWeekNumber := None; pauseUntilDate := None;
      consecutiveLossPauseUntil := None; awaitingPostPauseTrade := false; overallPeakEquity := of_Z 0;
      tradeLog := []; equityDdPauseUntil := None; lastDdTierTriggered := 0;
      rolling7DayPauseUntil := None; hardKilled := false |}
  end.

Definition vx_bar (k : nat) : BacktestCandle := default (demo_bar_at "" 0 0 0 0 0) (vx_m15 !! k).
Definition vx_before (k : nat) : RunState * Res unit := bars vx_setup 0 (take k vx_m15) (initial_state vx_manager None).


Lemma vx_readable : Forall readable vx_m15.
Proof.
  apply Forall_forall. intros c Hc%list_elem_of_In.
  assert (H : forallb (fun c => bool_decide (is_Some (candle_ms c)) && bool_decide (is_Some (Date_parse (substring10 (openTime c)))))
                vx_m15 = true) by (vm_compute; reflexivity).
  rewrite forallb_forall in H. specialize (H c Hc). apply andb_true_iff in H as [H1 H2].
  split; [by apply bool_decide_eq_true in H1|by apply bool_decide_eq_true in H2].
Qed.

Lemma v6_returns_witness : exists cache' trades metrics,
  run ∅ vx_m15 vx_h1 [] vx_config (Some V6) None = (cache', Ok (trades, metrics)).
Proof. apply v6_returns; [vm_compute; reflexivity|reflexivity|exact vx_readable]. Defined.

Lemma vx_run : match run_v6 vx_setup vx_manager None with
  | (s, Ok _) => exitReason <$> closedTrades s = [TP; TP]
  | _ => False end.
Proof. vm_compute. reflexivity. Qed.

Lemma v6_settles_witness : exists s, run_v6 vx_setup vx_manager None = (s, Ok tt) /\ length (closedTrades s) = 2%nat /\
  balance (state (riskManager s)) = nsum (of_Z 10000) (pnl <$> closedTrades s).
Proof.
  pose proof vx_run as H. destruct (run_v6 vx_setup vx_manager None) as [s [[]|]] eqn:E; [|by destruct H].
  exists s. split; [done|]. split.
  - rewrite <- (length_fmap exitReason), H. reflexivity.
  - exact (proj1 (v6_settles vx_setup vx_manager None s E)).
Defined.

(** The entry of 10:00, on the fifth bar. *)
Definition vx_entry : RunState * Res unit := bar vx_setup 4 (vx_bar 4) (vx_before 4).1.

Lemma vx_entered : (vx_before 4).2 = Ok tt /\ vx_entry.2 = Ok tt /\
  (fun p => (side (base p), entryIndex (base p))) <$> openPositions vx_entry.1 = [(BUY, 4); (BUY, 4)].
Proof. vm_compute. auto. Qed.

Lemma v6_entry_discipline_witness : length (openPositions vx_entry.1) = 2%nat /\
  exists s1 s2, settled (of_Z 10000) vx_setup 4 (vx_bar 4) (vx_before 4).1 s1 /\
    scaling vx_setup 4 (vx_bar 4) (default no_regime (regimeState s1)) s1 s2.
Proof.
  pose proof vx_entered as (H1 & H2 & H3). unfold vx_entry in *.
  destruct (vx_before 4) as [s0 r0] eqn:E0. cbn [fst snd] in *. subst r0.
  destruct (bar vx_setup 4 (vx_bar 4) s0) as [s r1] eqn:E1. cbn [fst snd] in *. subst r1. unfold vx_before in E0.
  destruct (v6_entry_discipline vx_setup vx_manager None (take 4 vx_m15) (drop 5 vx_m15) (vx_bar 4) s0 s)
    as (_ & s1 & s2 & Hs & Hsc & _).
  - vm_compute. reflexivity.
  - exact E0.
  - exact E1.
  - split; [rewrite <- (length_fmap (fun p => (side (base p), entryIndex (base p)))), H3; reflexivity|].
    exists s1, s2. split; [exact Hs|exact Hsc].
Defined.

(** The bars of 09:00 and 09:15 fall into one H1 bar. *)
Lemma vx_three : (vx_before 1).2 = Ok tt /\ (bar vx_setup 1 (vx_bar 1) (vx_before 1).1).2 = Ok tt /\
  (bar vx_setup 2 (vx_bar 2) (bar vx_setup 1 (vx_bar 1) (vx_before 1).1).1).2 = Ok tt.
Proof. vm_compute. auto. Qed.

Lemma v6_regime_forgets_witness : exists s1 s2, bar vx_setup 2 (vx_bar 2) s1 = (s2, Ok tt) /\
  regimeState s2 = Some (reading vx_setup (vx_bar 2) None (performanceTracker s1)) /\
  rs_durationBars (reading vx_setup (vx_bar 2) None (performanceTracker s1)) = 1.
Proof.
  pose proof vx_three as (H1 & H2 & H3). destruct (vx_before 1) as [s0 r0] eqn:E0. cbn [fst snd] in *. subst r0.
  destruct (bar vx_setup 1 (vx_bar 1) s0) as [s1 r1] eqn:E1. cbn [fst snd] in *. subst r1.
  destruct (bar vx_setup 2 (vx_bar 2) s1) as [s2 r2] eqn:E2. cbn [fst snd] in *. subst r2.
  exists s1, s2. split; [done|].
  destruct (v6_regime_forgets vx_setup vx_manager None (take 1 vx_m15) (drop 3 vx_m15) (vx_bar 1) (vx_bar 2) s0 s1 s2)
    as (R1 & R2 & _).
  - vm_compute. reflexivity.
  - vm_compute. reflexivity.
  - vm_compute. discriminate.
  - exact E0.
  - exact E1.
  - exact E2.
  - split; [exact R1|exact R2].
Defined.

(** ** A scale-in *)

Definition won_trade : ClosedTrade := {|
  ct_side := BUY; ct_entryPrice := of_Z 2000; exitPrice := of_Z 2010; ct_slPrice := of_Z 1990; ct_tpPrice := None;
  ct_lotSize := lit 1 2; pnl := of_Z 10; commission := of_Z 0; ct_setupTags := []; ct_entryTime := "2024-03-12T09:00:00.000Z";
  exitTime := "2024-03-12T10:00:00.000Z"; exitReason := TP; ct_h1Bias := "BULLISH"; ct_rsiAtEntry := of_Z 50;
  ct_atrAtEntry := of_Z 4; rMultiple := Some (of_Z 1); ct_regimeAtEntry := Some STRONG_TREND; engineType := Some TREND_PULLBACK |}.

(** Bought at 2022 with a risk of 6, at breakeven. *)
Definition vx_parent : V6Position := {|
  base := {| side := BUY; entryPrice := of_Z 2022; slPrice := lit 20226 1; tpPrice := None; originalSlPrice := of_Z 2016;
    breakevenActivated := true; peakFavorablePrice := of_Z 2029; lotSize := lit 4 1;
    entryTime := "2024-03-13T09:30:00.000Z"; entryIndex := 2; setupTags := ["PULLBACK_EMA20"; "Q70"]%string;
    h1Bias := "BULLISH"; rsiAtEntry := of_Z 50; atrAtEntry := of_Z 4; trailConfig := Some (getRegimeParams STRONG_TREND);
    regimeAtEntry := Some STRONG_TREND |};
  isScaleIn := false; parentEntryPrice := None; hasScaleIn := false |}.

(** Twelve wins behind it. *)
Definition vx_winning : RunState := {|
  riskManager := upd_state (st_book (of_Z 120)) vx_manager;
  performanceTracker := PerformanceTracker.record_all (repeat won_trade 12);
  openPositions := [vx_parent]; closedTrades := repeat won_trade 12; cooldownUntil := 9; slCooldownUntil := -1;
  regimeState := None;
  engineState := {| swingTracker := {| recentHighs := []; recentLows := [] |}; activeBOSLevels := []; activeFVGs := [] |};
  dailySlCount := no_sl; lastDate := "2024-03-13"; bbCache := None |}.

Lemma vx_scaled : match bar vx_setup 5 (vx_bar 5) vx_winning with
  | (s, Ok _) => (fun p => (isScaleIn p, hasScaleIn p, entryIndex (base p))) <$> openPositions s =
                 [(false, true, 2); (true, false, 5)]
  | _ => False end.
Proof. vm_compute. reflexivity. Qed.

Lemma vx_winning_before : before_bar (of_Z 10000) 5 vx_winning.
Proof. split; [split; vm_compute; reflexivity|]. constructor; [simpl; lia|constructor]. Qed.

Lemma v6_scale_ins_are_free_witness : exists s p q,
  bar vx_setup 5 (vx_bar 5) vx_winning = (s, Ok tt) /\ q ∈ openPositions s /\ slPrice (base q) = entryPrice (base p) /\
  tpPrice (base q) = None /\ mark_parent p ∈ openPositions s.
Proof.
  pose proof vx_scaled as H. destruct (bar vx_setup 5 (vx_bar 5) vx_winning) as [s [[]|]] eqn:E; [|by destruct H].
  destruct (openPositions s) as [|x [|q [|? ?]]] eqn:Ho; try discriminate H. injection H as _ _ _ Hq1 _ Hq2.
  destruct (v6_scale_ins_are_free vx_setup (of_Z 10000) 5 (vx_bar 5) vx_winning s q)
    as (spread & rs & s1 & p & _ & _ & Hsc & _ & _ & _ & Hp & _).
  - exact vx_winning_before.
  - vm_compute. reflexivity.
  - exact E.
  - rewrite Ho. right. left.
  - exact Hq2.
  - exact Hq1.
  - exists s, p, q. split; [done|]. split; [rewrite Ho; right; left|].
    destruct (si_free _ _ _ _ _ _ _ _ Hsc) as (F1 & _ & F3). split; [exact F1|]. split; [exact F3|exact Hp].
Defined.

(** ** The wrong gap is spent *)
Definition gap_bars : list BacktestCandle :=
  (fun k => demo_bar_at "M15" (demo_day + 9 * ms_hour + (k - 50) * 900000) 2018 2024 2017 2023) <$> up_from 0 50.
Definition gap_setup : Setup := {|
  config := vx_config; version := V6; icfg := vx_instrument; pairProfile := getPairProfile "XAUUSD";
  m15Candles := gap_bars; h1Candles := vx_h1; d1Candles := [];
  m15Indicators := rising 51 (repeat (of_Z 2010) 51) (repeat (of_Z 1950) 51);
  h1Indicators := rising 5 (repeat (of_Z 1990) 5) (repeat (of_Z 1950) 5);
  d1Indicators := None |}.
Definition buy_gap (hi lo : Z) : FairValueGap := {|
  fg_direction := BUY; fg_zoneHigh := of_Z hi; fg_zoneLow := of_Z lo; fg_createdAtIndex := 40; fg_expiryCandles := 96;
  fg_traded := false |}.
(** The older gap lies a hundred points below the market. *)
Definition gap_state : RunState :=
  set_tracking None {| swingTracker := {| recentHighs := []; recentLows := [] |}; activeBOSLevels := [];
                       activeFVGs := [buy_gap 1905 1900; buy_gap 2021 2018] |} vx_winning.
Definition strong_up : RegimeState :=
  detectRegime vx_h1 (h1Indicators gap_setup) "2024-03-13T09:00:00.000Z" None None.

(** The signal comes from the second gap, which the bar fills; the routing marks the first
    untraded gap of the direction, which it does not touch: the gap that was traded stays
    active and can fire again. *)
Theorem gap_marking_hits_another_gap :
  let c := default (demo_bar_at "" 0 0 0 0 0) (gap_bars !! 50%nat) in
  fills (buy_gap 1905 1900) c = false /\ fills (buy_gap 2021 2018) c = true /\
  match try_gaps gap_setup 50 (lit 25 2) strong_up 35 gap_state with
  | (s, Ok (Some g)) => sg_side g = BUY /\ fg_traded <$> activeFVGs (engineState s) = [true; false]
  | _ => False
  end.
Proof. vm_compute. auto. Qed.
