(* ===== verification/AuthTypes.v ===== *)
(** * Accounts and sessions: tables and effects

    The rows of the User, RefreshToken, PasswordResetToken and Invite tables
    (libs/prisma/schema.prisma), the effects the services of src/auth, src/invites,
    src/users and src/admin await, and what the database does with them.

    PostgreSQL runs each statement at READ COMMITTED: an [updateMany] first finds the rows
    that match ([TokenMatch], the snapshot of the statement), then locks each of them,
    tests it again and writes it ([TokenPatch]); other methods may commit in between.  A
    transaction commits at once ([Transaction]); when its body throws nothing is kept.
    Hashing and signing are the parameters of the services: [node:crypto], [bcrypt],
    [argon2] and the JWT package are third-party. *)
From S2P Require Import Prelude Async JsDate LiveTypes.

(** ** Rows *)
Inductive UserRole := SUPERADMIN | ADMIN | USER.
#[export] Instance UserRole_eq_dec : EqDecision UserRole.
Proof. solve_decision. Defined.

Record UserRow := {
  usr_id : string; usr_email : string; usr_passwordHash : string; usr_role : UserRole;
  usr_isActive : bool; usr_botEnabled : bool; usr_presetKey : PresetKey;
  usr_lastLoginAt : option Z; usr_pausedAt : option Z }.

Record RefreshToken := {
  rt_id : string; rt_userId : string; rt_tokenHash : string; rt_expiresAt : Z;
  rt_revokedAt : option Z; rt_replacedById : option string; rt_userAgent : option string }.

Record PasswordResetToken := {
  pr_id : string; pr_userId : string; pr_token : string; pr_isUsed : bool;
  pr_expiresAt : Z; pr_createdAt : Z }.

Record Invite := {
  iv_id : string; iv_email : string; iv_tokenHash : string; iv_createdById : option string;
  iv_expiresAt : Z; iv_acceptedAt : option Z; iv_createdAt : Z }.

Record Db := {
  users : gmap string UserRow;
  tokens : gmap string RefreshToken;
  resets : gmap string PasswordResetToken;
  invites : gmap string Invite }.

Definition set_users (x : gmap string UserRow) (d : Db) : Db :=
  {| users := x; tokens := tokens d; resets := resets d; invites := invites d |}.
Definition set_tokens (x : gmap string RefreshToken) (d : Db) : Db :=
  {| users := users d; tokens := x; resets := resets d; invites := invites d |}.
Definition set_resets (x : gmap string PasswordResetToken) (d : Db) : Db :=
  {| users := users d; tokens := tokens d; resets := x; invites := invites d |}.
Definition set_invites (x : gmap string Invite) (d : Db) : Db :=
  {| users := users d; tokens := tokens d; resets := resets d; invites := x |}.

(** A token that can still be rotated as far as its row says. *)
Definition active (r : RefreshToken) : bool := bool_decide (rt_revokedAt r = None).

(** [data: { revokedAt, replacedById }] of an update; [None] leaves [replacedById]. *)
Definition revoked_at (now : Z) (next : option string) (r : RefreshToken) : RefreshToken := {|
  rt_id := rt_id r; rt_userId := rt_userId r; rt_tokenHash := rt_tokenHash r;
  rt_expiresAt := rt_expiresAt r; rt_revokedAt := Some now;
  rt_replacedById := write next (rt_replacedById r); rt_userAgent := rt_userAgent r |}.

(** ** Statements *)

(** The data of a [create]; the identifier is the database client's. *)
Record NewToken := {
  nt_userId : string; nt_tokenHash : string; nt_expiresAt : Z; nt_userAgent : option string }.
Definition token_row (id : string) (n : NewToken) : RefreshToken := {|
  rt_id := id; rt_userId := nt_userId n; rt_tokenHash := nt_tokenHash n;
  rt_expiresAt := nt_expiresAt n; rt_revokedAt := None; rt_replacedById := None;
  rt_userAgent := nt_userAgent n |}.

Definition unique_violation : string := "PrismaClientKnownRequestError: P2002".
Definition row_not_found : string := "PrismaClientKnownRequestError: P2025".

(** [create] with the unique column [tokenHash]. *)
Definition insert_token (id : string) (n : NewToken) : M Db RefreshToken := fun d =>
  if bool_decide (map_Exists (fun _ r => rt_tokenHash r = nt_tokenHash n) (tokens d))
  then (d, Throw unique_violation)
  else (set_tokens (<[id := token_row id n]> (tokens d)) d, Ok (token_row id n)).

(** The second half of [updateMany]: the rows of [ids] that still match are written; the
    answer is their number. *)
Definition patch_if (P : RefreshToken -> bool) (f : RefreshToken -> RefreshToken)
    (ids : list string) (id : string) (r : RefreshToken) : RefreshToken :=
  if bool_decide (id ∈ ids) && P r then f r else r.
Definition patch_tokens (ids : list string) (P : RefreshToken -> bool)
    (f : RefreshToken -> RefreshToken) : M Db Z := fun d =>
  (set_tokens (map_imap (fun id r => Some (patch_if P f ids id r)) (tokens d)) d,
   Ok (Z.of_nat (size (filter (fun kv => kv.1 ∈ ids /\ P kv.2 = true) (tokens d))))).

Definition matching (P : RefreshToken -> bool) (d : Db) : list string :=
  (map_to_list (filter (fun kv => P kv.2 = true) (tokens d))).*1.

(** [create] with the unique column [email]. *)
Definition insert_user (u : UserRow) : M Db UserRow := fun d =>
  if bool_decide (map_Exists (fun _ v => usr_email v = usr_email u) (users d))
  then (d, Throw unique_violation)
  else (set_users (<[usr_id u := u]> (users d)) d, Ok u).
(** [update] of a row that must exist. *)
Definition update_user (id : string) (f : UserRow -> UserRow) : M Db UserRow := fun d =>
  match users d !! id with
  | Some u => (set_users (<[id := f u]> (users d)) d, Ok (f u))
  | None => (d, Throw row_not_found)
  end.
Definition update_reset (id : string) (f : PasswordResetToken -> PasswordResetToken) : M Db unit :=
  fun d => match resets d !! id with
           | Some r => (set_resets (<[id := f r]> (resets d)) d, Ok tt)
           | None => (d, Throw row_not_found)
           end.
Definition insert_reset (r : PasswordResetToken) : M Db PasswordResetToken := fun d =>
  if bool_decide (map_Exists (fun _ q => pr_token q = pr_token r) (resets d))
  then (d, Throw unique_violation)
  else (set_resets (<[pr_id r := r]> (resets d)) d, Ok r).
Definition update_invite (id : string) (f : Invite -> Invite) : M Db unit :=
  fun d => match invites d !! id with
           | Some r => (set_invites (<[id := f r]> (invites d)) d, Ok tt)
           | None => (d, Throw row_not_found)
           end.
Definition insert_invite (i : Invite) : M Db Invite := fun d =>
  if bool_decide (map_Exists (fun _ q => iv_tokenHash q = iv_tokenHash i) (invites d))
  then (d, Throw unique_violation)
  else (set_invites (<[iv_id i := i]> (invites d)) d, Ok i).

(** A [findUnique] or [findFirst]: some row that matches. *)
Definition find_row {A} (P : A -> bool) (m : gmap string A) : option A :=
  (map_to_list (filter (fun kv => P kv.2 = true) m)).*2 !! 0%nat.
Definition find_rows {A} (P : A -> bool) (m : gmap string A) : list A :=
  (map_to_list (filter (fun kv => P kv.2 = true) m)).*2.

(** ** Effects

    [Transaction] is a statement of its own or an interactive transaction: the body runs
    on the tables with a fresh identifier for the row it creates. *)
Inductive AuthAct :=
| Clock
| RandomToken
| BcryptHash (password : string)
| Argon2Hash (token : string)
| SendMail (to_ url : string)
| UserFind (where_ : UserRow -> bool)
| TokenFind (where_ : RefreshToken -> bool)
| TokenFindMany (where_ : RefreshToken -> bool)
| ResetFind (where_ : PasswordResetToken -> bool)
| InviteFind (where_ : Invite -> bool)
| InviteFindMany (where_ : Invite -> bool)
| TokenMatch (where_ : RefreshToken -> bool)
| TokenPatch (ids : list string) (where_ : RefreshToken -> bool) (data : RefreshToken -> RefreshToken)
| TokenDeleteMany (where_ : RefreshToken -> bool)
| Transaction {A : Type} (body : string -> M Db A).

Definition auth_result (e : AuthAct) : Type :=
  match e with
  | Clock => Z
  | RandomToken => string
  | BcryptHash _ | Argon2Hash _ => Res string
  | SendMail _ _ => Res unit
  | UserFind _ => Res (option UserRow)
  | TokenFind _ => Res (option RefreshToken)
  | TokenFindMany _ => Res (list RefreshToken)
  | ResetFind _ => Res (option PasswordResetToken)
  | InviteFind _ => Res (option Invite)
  | InviteFindMany _ => Res (list Invite)
  | TokenMatch _ => Res (list string)
  | TokenPatch _ _ _ | TokenDeleteMany _ => Res Z
  | @Transaction A _ => Res A
  end.

Definition AuthProg (A : Type) : Type := @Prog AuthAct auth_result A.
Definition AuthAsync (A : Type) : Type := @Async AuthAct auth_result A.

Definition now_ms : AuthAsync Z := @ask AuthAct auth_result Clock.
Definition random_token : AuthAsync string := @ask AuthAct auth_result RandomToken.
Definition query (e : AuthAct) : AuthProg (auth_result e) := perform e.
Definition transaction {A} (body : string -> M Db A) : AuthAsync A := query (Transaction body).

Local Open Scope async_scope.

(** [refreshToken.updateMany]: the answer is the number of rows written. *)
Definition update_tokens (P : RefreshToken -> bool) (f : RefreshToken -> RefreshToken) : AuthAsync Z :=
  ids <~ (query (TokenMatch P) : AuthAsync _) ;;
  (query (TokenPatch ids P f) : AuthAsync _).

(** ** What the effects do

    [drawn] holds every identifier ever given out and [login_of] the login a token
    descends from: a token made from scratch starts one, a token that replaces another
    continues its login.  Both are history: no method reads them. *)
Record World := { db : Db; drawn : gset string; login_of : gmap string string }.

Definition login_root (d : Db) (login : gmap string string) (id : string) : string :=
  match find_row (fun r => bool_decide (rt_replacedById r = Some id)) (tokens d) with
  | Some p => default id (login !! rt_id p)
  | None => id
  end.
Definition track_logins (d : Db) (login : gmap string string) : gmap string string :=
  login ∪ map_imap (fun id _ => Some (login_root d login id)) (tokens d).
Definition commit (id : string) (d : Db) (w : World) : World := {|
  db := d; drawn := {[id]} ∪ drawn w; login_of := track_logins d (login_of w) |}.
Definition with_db (d : Db) (w : World) : World :=
  {| db := d; drawn := drawn w; login_of := login_of w |}.

(** An error of the client or of the connection; the services' own errors never look like
    it. *)
Definition client_error {A} (x : Res A) : Prop :=
  exists e, x = Throw (String.append "PrismaClient" e).

Section sem.
Context (bcrypt_compare argon2_verify : string -> string -> bool).

(** A query answers from the tables or fails. *)
Definition answers {A} (a : A) (w w' : World) (x : Res A) : Prop :=
  w' = w /\ (x = Ok a \/ client_error x).
Definition writes {A} (d : Db) (a : A) (w w' : World) (x : Res A) : Prop :=
  (w' = with_db d w /\ x = Ok a) \/ (w' = w /\ client_error x).

Definition auth_sem (_ : nat) (e : AuthAct) (w w' : World) : auth_result e -> Prop :=
  match e return auth_result e -> Prop with
  | Clock => fun _ => w' = w
  | RandomToken => fun _ => w' = w
  | BcryptHash p => fun x => w' = w /\ ((exists h, x = Ok h /\ bcrypt_compare p h = true) \/ exists m, x = Throw m)
  | Argon2Hash t => fun x => w' = w /\ ((exists h, x = Ok h /\ argon2_verify h t = true) \/ exists m, x = Throw m)
  | SendMail _ _ => fun _ => w' = w
  | UserFind P => fun x => answers (find_row P (users (db w))) w w' x
  | TokenFind P => fun x => answers (find_row P (tokens (db w))) w w' x
  | TokenFindMany P => fun x => answers (find_rows P (tokens (db w))) w w' x
  | ResetFind P => fun x => answers (find_row P (resets (db w))) w w' x
  | InviteFind P => fun x => answers (find_row P (invites (db w))) w w' x
  | InviteFindMany P => fun x => answers (find_rows P (invites (db w))) w w' x
  | TokenMatch P => fun x => answers (matching P (db w)) w w' x
  | TokenPatch ids P f => fun x =>
      let '(d, n) := patch_tokens ids P f (db w) in
      (w' = with_db d w /\ x = n) \/ (w' = w /\ client_error x)
  | TokenDeleteMany P => fun x =>
      writes (set_tokens (filter (fun kv => P kv.2 = false) (tokens (db w))) (db w))
             (Z.of_nat (size (filter (fun kv => P kv.2 = true) (tokens (db w))))) w w' x
  | Transaction body => fun x =>
      (exists id, id ∉ drawn w /\
         match body id (db w) with
         | (d, Ok a) => w' = commit id d w /\ x = Ok a
         | (_, Throw m) => w' = w /\ x = Throw m
         end)
      \/ (w' = w /\ client_error x)
  end.
End sem.
