(* ===== verification/RefreshTokens.v ===== *)
(** * Refresh tokens and sign-in

    src/auth/refresh-token.service.ts ([RefreshTokenService]), src/users/users.service.ts,
    src/auth/auth.service.ts ([AuthService]), the JWT strategy and the administrator's
    handlers that touch sessions.  Only the SHA-256 of a token is stored. *)
From S2P Require Import Prelude Async JsDate LiveTypes AuthTypes.

Section services.
Context (sha256 : string -> string) (bcrypt_compare : string -> string -> bool).
Context (WEB_URL : option string).
Context {Jwt : Type} (jwt_sign : string -> string -> UserRole -> Jwt).
Local Open Scope async_scope.

Definition REFRESH_TTL_MS : Z := 7 * 24 * 60 * 60 * 1000.
Definition UNAUTHORIZED : string := "Invalid or expired refresh token".

Record IssuedToken := { it_id : string; it_token : string }.

Definition new_token (userId token : string) (expiresAt : Z) (userAgent : option string) : NewToken :=
  {| nt_userId := userId; nt_tokenHash := sha256 token; nt_expiresAt := expiresAt; nt_userAgent := userAgent |}.

Definition issue (userId : string) (userAgent : option string) : AuthAsync IssuedToken :=
  token <~ random_token ;;
  now <~ now_ms ;;
  row <~ transaction (fun id => insert_token id (new_token userId token (now + REFRESH_TTL_MS) userAgent)) ;;
  resolve {| it_id := rt_id row; it_token := token |}.

Definition user_tokens (userId : string) (r : RefreshToken) : bool :=
  bool_decide (rt_userId r = userId) && active r.
Definition revokeAllForUser (userId : string) : AuthAsync unit :=
  now <~ now_ms ;;
  await! update_tokens (user_tokens userId) (revoked_at now None) ;;
  resolve tt.

(** The body of the transaction: a new row, then the old one revoked if it still is not;
    when it is, the new row is rolled back. *)
Definition rotate_body (row : RefreshToken) (n : NewToken) (revokedAt : Z) (token : string)
    (id : string) : M Db IssuedToken :=
  (newRow <-- insert_token id n ;;
   count <-- patch_tokens [rt_id row] active (revoked_at revokedAt (Some (rt_id newRow))) ;;
   if (count =? 0)%Z then m_throw UNAUTHORIZED
   else m_ret {| it_id := rt_id newRow; it_token := token |})%js.

Definition with_hash (token : string) (r : RefreshToken) : bool := bool_decide (rt_tokenHash r = sha256 token).

Definition rotate (presentedToken : string) (userAgent : option string) : AuthAsync (IssuedToken * string) :=
  found <~ (query (TokenFind (with_hash presentedToken)) : AuthAsync _) ;;
  match found with
  | None => reject UNAUTHORIZED
  | Some row =>
      if negb (active row) then
        await! revokeAllForUser (rt_userId row) ;; reject UNAUTHORIZED
      else
        now <~ now_ms ;;
        if (rt_expiresAt row <? now)%Z then reject UNAUTHORIZED
        else
          token <~ random_token ;;
          t1 <~ now_ms ;;
          t2 <~ now_ms ;;
          next <~ transaction (rotate_body row
                    (new_token (rt_userId row) token (t1 + REFRESH_TTL_MS) userAgent) t2 token) ;;
          resolve (next, rt_userId row)
  end.

Definition revoke (presentedToken : string) : AuthAsync unit :=
  now <~ now_ms ;;
  await! update_tokens (fun r => with_hash presentedToken r && active r) (revoked_at now None) ;;
  resolve tt.

Definition cleanupExpired : AuthAsync Z :=
  cutoff <~ now_ms ;;
  (query (TokenDeleteMany (fun r => (rt_expiresAt r <? cutoff)%Z)) : AuthAsync _).

(** ** UsersService *)
Definition findByEmail (email : string) : AuthAsync (option UserRow) :=
  query (UserFind (fun u => bool_decide (usr_email u = email))).
Definition findById (id : string) : AuthAsync (option UserRow) :=
  query (UserFind (fun u => bool_decide (usr_id u = id))).
Definition logged_in_at (now : Z) (u : UserRow) : UserRow := {|
  usr_id := usr_id u; usr_email := usr_email u; usr_passwordHash := usr_passwordHash u;
  usr_role := usr_role u; usr_isActive := usr_isActive u; usr_botEnabled := usr_botEnabled u;
  usr_presetKey := usr_presetKey u; usr_lastLoginAt := Some now; usr_pausedAt := usr_pausedAt u |}.
Definition recordLogin (userId : string) : AuthAsync UserRow :=
  now <~ now_ms ;; transaction (fun _ => update_user userId (logged_in_at now)).

(** ** AuthService *)
Record Session := {
  ss_user : string * string * UserRole; ss_accessToken : Jwt; ss_refreshToken : string }.

Definition validateCredentials (email password : string) : AuthAsync UserRow :=
  user <~ findByEmail email ;;
  match user with
  | Some u =>
      if negb (usr_isActive u) then reject "Invalid credentials"
      else if bcrypt_compare password (usr_passwordHash u) then resolve u
      else reject "Invalid credentials"
  | None => reject "Invalid credentials"
  end.

Definition signAccessToken (u : UserRow) : Jwt := jwt_sign (usr_id u) (usr_email u) (usr_role u).

Definition session_of (u : UserRow) (token : string) : Session := {|
  ss_user := (usr_id u, usr_email u, usr_role u); ss_accessToken := signAccessToken u;
  ss_refreshToken := token |}.

Definition login (email password : string) (userAgent : option string) : AuthAsync Session :=
  user <~ validateCredentials email password ;;
  await! recordLogin (usr_id user) ;;
  t <~ issue (usr_id user) userAgent ;;
  resolve (session_of user (it_token t)).

Definition refresh (presentedRefreshToken : string) (userAgent : option string) : AuthAsync Session :=
  rotated <~ rotate presentedRefreshToken userAgent ;;
  user <~ findById rotated.2 ;;
  match user with
  | Some u =>
      if usr_isActive u then resolve (session_of u (it_token rotated.1))
      else await! revokeAllForUser rotated.2 ;; reject "User no longer valid"
  | None => await! revokeAllForUser rotated.2 ;; reject "User no longer valid"
  end.

Definition logout (refreshToken : option string) : AuthAsync unit :=
  match refreshToken with
  | Some t => if truthy_string t then revoke t else resolve tt
  | None => resolve tt
  end.

(** ** Password reset *)
Definition RESET_TOKEN_TTL_MS : Z := 60 * 60 * 1000.
Definition RESET_REQUEST_COOLDOWN_MS : Z := 60 * 1000.

Definition reset_row (userId token : string) (expiresAt now : Z) (id : string) : PasswordResetToken := {|
  pr_id := id; pr_userId := userId; pr_token := token; pr_isUsed := false;
  pr_expiresAt := expiresAt; pr_createdAt := now |}.

Definition requestPasswordReset (email : string) : AuthAsync unit :=
  let normalized := trim (toLowerCase email) in
  user <~ findByEmail normalized ;;
  match user with
  | Some u =>
      if negb (usr_isActive u) then resolve tt
      else
        now <~ now_ms ;;
        recent <~ (query (ResetFind (fun r => bool_decide (pr_userId r = usr_id u) &&
                                             (now - RESET_REQUEST_COOLDOWN_MS <=? pr_createdAt r)%Z)) : AuthAsync _) ;;
        match recent with
        | Some _ => resolve tt
        | None =>
            token <~ random_token ;;
            now' <~ now_ms ;;
            await! transaction (fun id => insert_reset (reset_row (usr_id u) token (now' + RESET_TOKEN_TTL_MS) now' id)) ;;
            let webUrl := match WEB_URL with Some s => if truthy_string s then s else "http://localhost:3000" | None => "http://localhost:3000" end in
            (query (SendMail (usr_email u) (webUrl +:+ "/reset-password?token=" +:+ token)) : AuthAsync _)
        end
  | None => resolve tt
  end.

Inductive ResetVerdict := Valid | Invalid (reason : string).
Definition reset_verdict (now : Z) (row : option PasswordResetToken) : ResetVerdict :=
  match row with
  | None => Invalid "not_found"
  | Some r => if pr_isUsed r then Invalid "used"
              else if (pr_expiresAt r <? now)%Z then Invalid "expired" else Valid
  end.
Definition find_reset (token : string) : AuthAsync (option PasswordResetToken) :=
  query (ResetFind (fun r => bool_decide (pr_token r = token))).
Definition validateResetToken (token : string) : AuthAsync ResetVerdict :=
  row <~ find_reset token ;; now <~ now_ms ;; resolve (reset_verdict now row).

Definition with_password (h : string) (u : UserRow) : UserRow := {|
  usr_id := usr_id u; usr_email := usr_email u; usr_passwordHash := h;
  usr_role := usr_role u; usr_isActive := usr_isActive u; usr_botEnabled := usr_botEnabled u;
  usr_presetKey := usr_presetKey u; usr_lastLoginAt := usr_lastLoginAt u; usr_pausedAt := usr_pausedAt u |}.
Definition used (r : PasswordResetToken) : PasswordResetToken := {|
  pr_id := pr_id r; pr_userId := pr_userId r; pr_token := pr_token r; pr_isUsed := true;
  pr_expiresAt := pr_expiresAt r; pr_createdAt := pr_createdAt r |}.

Definition resetPassword (token newPassword : string) : AuthAsync unit :=
  row <~ find_reset token ;;
  match row with
  | None => reject "Invalid or expired reset link"
  | Some r =>
      if pr_isUsed r then reject "This reset link has already been used"
      else
        now <~ now_ms ;;
        if (pr_expiresAt r <? now)%Z then reject "This reset link has expired"
        else
          passwordHash <~ (query (BcryptHash newPassword) : AuthAsync _) ;;
          await! transaction (fun _ =>
            (do! update_user (pr_userId r) (with_password passwordHash) ;;
             update_reset (pr_id r) used)%js) ;;
          resolve tt
  end.

(** ** JwtStrategy.validate: the payload of a verified access token *)
Definition validate (sub : string) : AuthAsync (string * string * UserRole) :=
  user <~ findById sub ;;
  match user with
  | Some u => if usr_isActive u then resolve (usr_id u, usr_email u, usr_role u)
              else reject "User invalid"
  | None => reject "User invalid"
  end.

(** ** RolesGuard *)
Definition canActivate (required : list UserRole) (user : option UserRole) : Res bool :=
  match required with
  | [] => Ok true
  | _ => match user with
         | Some r => if bool_decide (r ∈ required) then Ok true else Throw "Insufficient role"
         | None => Throw "Insufficient role"
         end
  end.

(** ** The administrator's and the user's own handlers *)
Definition with_active (b : bool) (u : UserRow) : UserRow := {|
  usr_id := usr_id u; usr_email := usr_email u; usr_passwordHash := usr_passwordHash u;
  usr_role := usr_role u; usr_isActive := b; usr_botEnabled := usr_botEnabled u;
  usr_presetKey := usr_presetKey u; usr_lastLoginAt := usr_lastLoginAt u; usr_pausedAt := usr_pausedAt u |}.
Definition setActive (id : string) (isActive : bool) : AuthAsync unit :=
  await! transaction (fun _ => update_user id (with_active isActive)) ;;
  if isActive then resolve tt else revokeAllForUser id.

Definition with_bot (b : bool) (pausedAt : option Z) (u : UserRow) : UserRow := {|
  usr_id := usr_id u; usr_email := usr_email u; usr_passwordHash := usr_passwordHash u;
  usr_role := usr_role u; usr_isActive := usr_isActive u; usr_botEnabled := b;
  usr_presetKey := usr_presetKey u; usr_lastLoginAt := usr_lastLoginAt u; usr_pausedAt := pausedAt |}.
Definition setBotEnabled (id : string) (botEnabled : bool) : AuthAsync unit :=
  now <~ now_ms ;;
  await! transaction (fun _ => update_user id (with_bot botEnabled (if botEnabled then None else Some now))) ;;
  resolve tt.

Definition with_preset (k : option PresetKey) (u : UserRow) : UserRow := {|
  usr_id := usr_id u; usr_email := usr_email u; usr_passwordHash := usr_passwordHash u;
  usr_role := usr_role u; usr_isActive := usr_isActive u; usr_botEnabled := usr_botEnabled u;
  usr_presetKey := default (usr_presetKey u) k; usr_lastLoginAt := usr_lastLoginAt u;
  usr_pausedAt := usr_pausedAt u |}.
Definition updateMe (id : string) (botEnabled : option bool) (presetKey : option PresetKey) : AuthAsync UserRow :=
  now <~ now_ms ;;
  transaction (fun _ => update_user id (fun u =>
    with_preset presetKey (match botEnabled with
                           | Some b => with_bot b (if b then None else Some now) u
                           | None => u
                           end))).

(** AdminSessionsService *)
Definition listSessions : AuthAsync (list RefreshToken) :=
  now <~ now_ms ;;
  (query (TokenFindMany (fun r => active r && (now <? rt_expiresAt r)%Z)) : AuthAsync _).
Definition revokeSession (id : string) : AuthAsync unit :=
  now <~ now_ms ;;
  await! update_tokens (fun r => bool_decide (rt_id r = id) && active r) (revoked_at now None) ;;
  resolve tt.
End services.
