(* ===== verification/Invites.v ===== *)
(** * Invitations

    src/invites/invite.service.ts ([InviteService]): an administrator invites an e-mail
    address, the holder of the link creates the account.  Argon2 hashes are salted, so a
    presented token is compared with every open invitation. *)
From S2P Require Import Prelude Async JsDate LiveTypes AuthTypes RefreshTokens.

Section invites.
Context (sha256 : string -> string) (bcrypt_compare argon2_verify : string -> string -> bool).
Context (WEB_URL : option string).
Context {Jwt : Type} (jwt_sign : string -> string -> UserRole -> Jwt).
Local Open Scope async_scope.

Definition DEFAULT_EXPIRY_DAYS : Z := 7.

Definition account_of (email : string) : AuthAsync (option UserRow) :=
  query (UserFind (fun u => bool_decide (usr_email u = email))).

Definition invite_row (email tokenHash createdById : string) (expiresAt now : Z) (id : string) : Invite := {|
  iv_id := id; iv_email := email; iv_tokenHash := tokenHash; iv_createdById := Some createdById;
  iv_expiresAt := expiresAt; iv_acceptedAt := None; iv_createdAt := now |}.

Definition create (email createdById : string) (expiresInDays : Z) : AuthAsync (Invite * string) :=
  let normalized := trim (toLowerCase email) in
  existingUser <~ account_of normalized ;;
  match existingUser with
  | Some _ => reject ("A Shamarx account already exists for " +:+ normalized)
  | None =>
      token <~ random_token ;;
      tokenHash <~ (query (Argon2Hash token) : AuthAsync _) ;;
      now <~ now_ms ;;
      invite <~ transaction (fun id => insert_invite
                  (invite_row normalized tokenHash createdById (now + expiresInDays * 24 * 60 * 60 * 1000) now id)) ;;
      let webUrl := match WEB_URL with Some s => if truthy_string s then s else "http://localhost:3000" | None => "http://localhost:3000" end in
      await! (query (SendMail normalized (webUrl +:+ "/join/" +:+ token)) : AuthAsync _) ;;
      resolve (invite, token)
  end.

Definition unaccepted (i : Invite) : bool := bool_decide (iv_acceptedAt i = None).
Definition findByToken (presented : string) : AuthAsync (option Invite) :=
  candidates <~ (query (InviteFindMany unaccepted) : AuthAsync _) ;;
  resolve (List.find (fun row => argon2_verify (iv_tokenHash row) presented) candidates).

Definition preview (token : string) : AuthAsync (option (string * Z)) :=
  invite <~ findByToken token ;;
  match invite with
  | None => resolve None
  | Some i =>
      if negb (unaccepted i) then resolve None
      else
        now <~ now_ms ;;
        if (iv_expiresAt i <? now)%Z then resolve None
        else
          existingUser <~ account_of (iv_email i) ;;
          resolve (match existingUser with Some _ => None | None => Some (iv_email i, iv_expiresAt i) end)
  end.

Definition invited_user (i : Invite) (passwordHash : string) (presetKey : PresetKey) (id : string) : UserRow := {|
  usr_id := id; usr_email := iv_email i; usr_passwordHash := passwordHash; usr_role := USER;
  usr_isActive := true; usr_botEnabled := true; usr_presetKey := presetKey;
  usr_lastLoginAt := None; usr_pausedAt := None |}.
Definition accepted_at (now : Z) (i : Invite) : Invite := {|
  iv_id := iv_id i; iv_email := iv_email i; iv_tokenHash := iv_tokenHash i;
  iv_createdById := iv_createdById i; iv_expiresAt := iv_expiresAt i; iv_acceptedAt := Some now;
  iv_createdAt := iv_createdAt i |}.
Definition accept_body (i : Invite) (passwordHash : string) (presetKey : PresetKey) (now : Z)
    (id : string) : M Db UserRow :=
  (created <-- insert_user (invited_user i passwordHash presetKey id) ;;
   do! update_invite (iv_id i) (accepted_at now) ;;
   m_ret created)%js.

Definition accept (token password : string) (presetKey : PresetKey) (userAgent : option string)
    : AuthAsync (Session (Jwt := Jwt)) :=
  invite <~ findByToken token ;;
  match invite with
  | None => reject "Invalid invite"
  | Some i =>
      if negb (unaccepted i) then reject "Invite already used"
      else
        now <~ now_ms ;;
        if (iv_expiresAt i <? now)%Z then reject "Invite expired"
        else
          existing <~ account_of (iv_email i) ;;
          match existing with
          | Some _ => reject "User already exists for this email"
          | None =>
              passwordHash <~ (query (BcryptHash password) : AuthAsync _) ;;
              acceptedAt <~ now_ms ;;
              user <~ transaction (accept_body i passwordHash presetKey acceptedAt) ;;
              t <~ issue sha256 (usr_id user) userAgent ;;
              resolve (session_of jwt_sign user (it_token t))
          end
  end.

Inductive InviteStatus := accepted | expired | pending.
Definition invite_status (now : Z) (i : Invite) : InviteStatus :=
  match iv_acceptedAt i with
  | Some _ => accepted
  | None => if (iv_expiresAt i <? now)%Z then expired else pending
  end.
Definition listInvites : AuthAsync (list (Invite * InviteStatus)) :=
  rows <~ (query (InviteFindMany (fun _ => true)) : AuthAsync _) ;;
  now <~ now_ms ;;
  resolve ((fun i => (i, invite_status now i)) <$> sort_by (fun a b => (iv_createdAt b <=? iv_createdAt a)%Z) rows).

Definition expired_at (now : Z) (i : Invite) : Invite := {|
  iv_id := iv_id i; iv_email := iv_email i; iv_tokenHash := iv_tokenHash i;
  iv_createdById := iv_createdById i; iv_expiresAt := now; iv_acceptedAt := iv_acceptedAt i;
  iv_createdAt := iv_createdAt i |}.
Definition revoke (id : string) : AuthAsync unit :=
  invite <~ (query (InviteFind (fun i => bool_decide (iv_id i = id))) : AuthAsync _) ;;
  match invite with
  | None => reject "Invite not found"
  | Some _ => now <~ now_ms ;; transaction (fun _ => update_invite id (expired_at now))
  end.
End invites.
