(* ===== verification/AuthFacts.v ===== *)
(** * Theorems about sign-in sessions

    Any number of requests run side by side over one database.  A login is the chain of
    refresh tokens that starts with a fresh token and continues by rotation: at every
    moment a login has at most one active token, a login without one never gets one
    again, and without a sign-in no login is added.  A token presented twice therefore ends
    every session of its user. *)
From S2P Require Import Prelude Async JsDate LiveTypes AuthTypes RefreshTokens Invites.
(** ** What a transaction does to the tokens

    A renewal makes no active token but the successor of one that it revokes. *)
Inductive tx_renewal (id : string) (T : gmap string RefreshToken) : gmap string RefreshToken -> Prop :=
| tx_nothing : tx_renewal id T T
| tx_void r : rt_id r = id -> rt_replacedById r ∈ [None; Some id] -> active r = false -> tx_renewal id T (<[id := r]> T)
| tx_rotated old r r' n t :
    T !! old = Some r -> active r = true -> old <> id -> r' = revoked_at t (Some id) r ->
    tx_renewal id T (<[old := r']> (<[id := token_row id n]> T)).
Inductive tx_effect (id : string) (T : gmap string RefreshToken) : gmap string RefreshToken -> Prop :=
| tx_renew T' : tx_renewal id T T' -> tx_effect id T T'
| tx_new n : tx_effect id T (<[id := token_row id n]> T).

Definition tx_does (E : string -> gmap string RefreshToken -> gmap string RefreshToken -> Prop) {A}
    (body : string -> M Db A) : Prop :=
  forall id d d' a, body id d = (d', Ok a) -> E id (tokens d) (tokens d').
Notation tx_ok := (tx_does tx_effect).
Notation tx_renews := (tx_does tx_renewal).
Lemma tx_renews_ok {A} (body : string -> M Db A) : tx_renews body -> tx_ok body.
Proof. intros H id d d' a E. by eapply tx_renew, H. Qed.

(** A write of an [updateMany]: it only revokes. *)
Definition only_revokes (P : RefreshToken -> bool) (f : RefreshToken -> RefreshToken) : Prop :=
  forall r, P r = true -> exists t, f r = revoked_at t None r.

Definition auth_act (e : AuthAct) : Prop :=
  match e with
  | TokenPatch ids P f => only_revokes P f
  | Transaction body => tx_ok body
  | _ => True
  end.
Definition renew_act (e : AuthAct) : Prop :=
  match e with
  | TokenPatch ids P f => only_revokes P f
  | Transaction body => tx_renews body
  | _ => True
  end.
Lemma renew_auth e : renew_act e -> auth_act e.
Proof. destruct e; simpl; auto. apply tx_renews_ok. Qed.

Lemma find_row_Some {A} (P : A -> bool) m (x : A) :
  find_row P m = Some x -> exists k, m !! k = Some x /\ P x = true.
Proof.
  unfold find_row. intros Hl. apply list_elem_of_lookup_2, list_elem_of_fmap in Hl as ([k y] & -> & Hy).
  apply elem_of_map_to_list, map_lookup_filter_Some in Hy as [? ?]. eauto.
Qed.

Lemma find_row_None {A} (P : A -> bool) (m : gmap string A) :
  find_row P m = None -> forall k x, m !! k = Some x -> P x = false.
Proof.
  unfold find_row. intros Hn k x Hk. destruct (P x) eqn:HP; [|done]. exfalso.
  apply lookup_ge_None in Hn. rewrite length_fmap in Hn. simpl in Hn.
  assert ((k, x) ∈ map_to_list (filter (fun kv => P kv.2 = true) m)) as Hin.
  { apply elem_of_map_to_list, map_lookup_filter_Some. done. }
  destruct (map_to_list _); [by apply not_elem_of_nil in Hin|simpl in Hn; lia].
Qed.

(** ** The bodies *)
Lemma tx_ok_tokens {A} (body : string -> M Db A) :
  (forall id d, tokens (body id d).1 = tokens d) -> tx_renews body.
Proof. intros H id d d' a E. specialize (H id d). rewrite E in H. simpl in H. rewrite H. constructor. Qed.

Lemma tx_insert_token n : tx_ok (fun id => insert_token id n).
Proof.
  intros id d d' a. unfold insert_token. destruct (bool_decide _); [done|]. intros [= <- <-]. apply tx_new.
Qed.

Lemma tx_insert_then {A} n (k : string -> RefreshToken -> M Db A) :
  (forall id d d' a, k id (token_row id n) d = (d', Ok a) ->
     forall T, tokens d = <[id := token_row id n]> T -> tx_renewal id T (tokens d')) ->
  tx_renews (fun id => m_bind (insert_token id n) (k id)).
Proof.
  intros H id d d' a. unfold m_bind, insert_token. destruct (bool_decide _); [done|]. intros E. exact (H _ _ _ _ E _ eq_refl).
Qed.

(** Patching one key that matches. *)
Lemma patch_one k P f d T x n :
  tokens d = T -> T !! k = Some x ->
  (patch_tokens [k] P f d).2 = Ok n -> n <> 0 ->
  P x = true /\ tokens (patch_tokens [k] P f d).1 = <[k := f x]> T.
Proof.
  intros HT Hk. unfold patch_tokens. simpl. rewrite HT. intros [= <-] Hn.
  assert (P x = true) as HP.
  { destruct (P x) eqn:HP; [done|]. exfalso. apply Hn.
    replace (filter (fun kv => kv.1 ∈ [k] /\ P kv.2 = true) T) with (∅ : gmap string RefreshToken); [done|].
    symmetry. apply map_empty_filter_2. intros k1 y Hy. simpl. intros [->%list_elem_of_singleton HP'].
    congruence. }
  split; [done|]. apply map_eq. intros k'. rewrite map_lookup_imap.
  destruct (decide (k' = k)) as [->|Hne].
  - rewrite Hk, lookup_insert_eq. simpl. unfold patch_if.
    rewrite bool_decide_eq_true_2 by (by left). by rewrite HP.
  - rewrite lookup_insert_ne by done. destruct (T !! k') as [y|]; simpl; [|done]. unfold patch_if.
    rewrite bool_decide_eq_false_2; [done|]. by rewrite list_elem_of_singleton.
Qed.

Lemma patch_none k P f d n :
  tokens d !! k = None -> (patch_tokens [k] P f d).2 = Ok n -> n = 0.
Proof.
  intros Hk. unfold patch_tokens. simpl. intros [= <-].
  replace (filter (fun kv => kv.1 ∈ [k] /\ P kv.2 = true) (tokens d)) with (∅ : gmap string RefreshToken); [done|].
  symmetry. apply map_empty_filter_2. intros k1 y Hy. simpl. intros [->%list_elem_of_singleton _]. congruence.
Qed.

Section services.
Context (sha256 : string -> string) (bcrypt_compare argon2_verify : string -> string -> bool).
Context (WEB_URL : option string) {Jwt : Type} (jwt_sign : string -> string -> UserRole -> Jwt).

Lemma tx_rotate_body row n t tok : tx_renews (rotate_body row n t tok).
Proof.
  apply (tx_insert_then n (fun id newRow => m_bind (patch_tokens [rt_id row] active (revoked_at t (Some (rt_id newRow)))) _)).
  intros id d d' a E T HT. unfold m_bind in E.
  destruct (patch_tokens _ _ _ d) as [d1 r1] eqn:Ep. destruct r1 as [c|]; [|by simplify_eq].
  change (rt_id (token_row id n)) with id in Ep.
  destruct (c =? 0)%Z eqn:Hc; [done|]. apply Z.eqb_neq in Hc. cbv [m_ret] in E. simplify_eq.
  destruct (tokens d !! rt_id row) as [x|] eqn:Hx.
  - destruct (patch_one (rt_id row) active (revoked_at t (Some id)) d (tokens d) x c) as [Ha Ht];
      [done|done|by rewrite Ep|done|]. rewrite Ep in Ht. simpl in Ht. rewrite Ht, HT.
    destruct (decide (rt_id row = id)) as [He|Hne].
    + rewrite He in *. rewrite insert_insert_eq.
      assert (x = token_row id n) as -> by (rewrite HT, lookup_insert_eq in Hx; congruence).
      apply tx_void; [done|right; left|done].
    + rewrite HT, lookup_insert_ne in Hx by done. by eapply tx_rotated.
  - exfalso. apply Hc. eapply (patch_none (rt_id row) active (revoked_at t (Some id)) d); [done|].
    by rewrite Ep.
Qed.
End services.

(** ** The invariant of the sessions *)
Definition login_at (w : World) (id : string) : option string := login_of w !! id.
Definition token_at (w : World) (id : string) : option RefreshToken := tokens (db w) !! id.

Record sessions_ok (w : World) : Prop := {
  so_key : forall id r, token_at w id = Some r -> rt_id r = id;
  so_login : forall id r, token_at w id = Some r -> is_Some (login_at w id);
  so_drawn : forall id l, login_at w id = Some l -> id ∈ drawn w /\ l ∈ drawn w;
  so_next : forall id r n, token_at w id = Some r -> rt_replacedById r = Some n -> n ∈ drawn w;
  so_single : forall id1 id2 r1 r2 l,
    token_at w id1 = Some r1 -> token_at w id2 = Some r2 ->
    login_at w id1 = Some l -> login_at w id2 = Some l ->
    active r1 = true -> active r2 = true -> id1 = id2 }.

(** A login without an active token. *)
Definition login_over (w : World) (l : string) : Prop :=
  forall id r, token_at w id = Some r -> login_at w id = Some l -> active r = false.

(** What later states keep of the present one. *)
Definition logins_grow (w w' : World) : Prop :=
  drawn w ⊆ drawn w' /\ login_of w ⊆ login_of w' /\
  forall l, l ∈ drawn w -> login_over w l -> login_over w' l.

#[export] Instance logins_grow_po : PreOrder logins_grow.
Proof.
  split; [done|]. intros w1 w2 w3 (H1 & H2 & H3) (H1' & H2' & H3').
  split_and!; [set_solver|by etrans|]. intros l Hl Ho. apply H3'; [set_solver|]. by apply H3.
Qed.

(** A step that creates no token: each row it leaves comes from a row that was no less
    active and replaced by the same row. *)
Lemma fewer_tokens w w' :
  sessions_ok w -> drawn w ⊆ drawn w' -> login_of w' = login_of w ->
  (forall id r', token_at w' id = Some r' -> exists r, token_at w id = Some r /\
     rt_id r' = rt_id r /\ rt_replacedById r' = rt_replacedById r /\ (active r' = true -> active r = true)) ->
  sessions_ok w' /\ logins_grow w w'.
Proof.
  intros [Hk Hl Hd Hn Hs] Hdr Hlo Hr. unfold login_at in *. split.
  - split; unfold login_at; rewrite ?Hlo.
    + intros id r' H. destruct (Hr _ _ H) as (r & Ht & -> & _). eauto.
    + intros id r' H. destruct (Hr _ _ H) as (r & Ht & _). eauto.
    + intros id l H. destruct (Hd _ _ H). set_solver.
    + intros id r' n H Hx. destruct (Hr _ _ H) as (r & Ht & _ & Hrn & _). apply Hdr, (Hn id r); congruence.
    + intros id1 id2 r1 r2 l H1 H2 L1 L2 A1 A2.
      destruct (Hr _ _ H1) as (s1 & T1 & _ & _ & B1), (Hr _ _ H2) as (s2 & T2 & _ & _ & B2). eauto.
  - split_and!; [done|by rewrite Hlo|]. intros l _ Ho id r' H Hx. unfold login_at in Hx. rewrite Hlo in Hx.
    destruct (Hr _ _ H) as (r & Ht & _ & _ & Ha). specialize (Ho _ _ Ht Hx).
    destruct (active r'); [|done]. rewrite Ha in Ho; done.
Qed.

Lemma same_tokens w w' :
  sessions_ok w -> drawn w ⊆ drawn w' -> login_of w' = login_of w -> tokens (db w') = tokens (db w) ->
  sessions_ok w' /\ logins_grow w w'.
Proof.
  intros Hw Hd Hl Ht. apply fewer_tokens; [done..|]. unfold token_at. rewrite Ht. eauto.
Qed.

(** A step that adds one token under a fresh identifier, at [l]: either a login of its
    own, or one whose active token it takes over. *)
Lemma one_more_token w w' id r l :
  sessions_ok w -> id ∉ drawn w -> drawn w' = {[id]} ∪ drawn w ->
  login_of w' = <[id := l]> (login_of w) ->
  token_at w' id = Some r -> rt_id r = id -> rt_replacedById r ∈ [None; Some id] ->
  (forall id' r', id' <> id -> token_at w' id' = Some r' -> exists r0, token_at w id' = Some r0 /\
     rt_id r' = rt_id r0 /\ rt_replacedById r' ∈ [rt_replacedById r0; Some id] /\
     (active r' = true -> active r0 = true)) ->
  (l = id \/ exists old r0, old <> id /\ login_at w old = Some l /\ token_at w old = Some r0 /\ active r0 = true /\
     forall r', token_at w' old = Some r' -> active r' = false) ->
  sessions_ok w' /\ logins_grow w w'.
Proof.
  intros [Hk Hl Hd Hn Hs] Hid Hdr Hlo Ht Hri Hrn Hold Hor.
  assert (login_at w' id = Some l) as Hlid by (unfold login_at; by rewrite Hlo, lookup_insert_eq).
  assert (forall id', id' <> id -> login_at w' id' = login_at w id') as Hlne
    by (intros id' ?; unfold login_at; by rewrite Hlo, lookup_insert_ne).
  assert (forall id' r' , id' <> id -> token_at w' id' = Some r' -> login_at w' id' = Some l -> active r' = true -> False) as Huniq.
  { intros id' r' Hne H L A. destruct (Hold _ _ Hne H) as (r0 & H0 & _ & _ & HA). rewrite Hlne in L by done.
    destruct Hor as [->|(old & s & Ho1 & Ho2 & Ho3 & Ho4 & Ho5)].
    - destruct (Hd _ _ L). done.
    - assert (id' = old) as -> by (eapply Hs; eauto). rewrite (Ho5 _ H) in A. done. }
  split.
  - split.
    + intros id' r' H. destruct (decide (id' = id)) as [->|Hne]; [congruence|].
      destruct (Hold _ _ Hne H) as (r0 & H0 & -> & _). eauto.
    + intros id' r' H. destruct (decide (id' = id)) as [->|Hne]; [eauto|].
      rewrite Hlne by done. destruct (Hold _ _ Hne H) as (r0 & H0 & _). eauto.
    + intros id' l' H. rewrite Hdr. destruct (decide (id' = id)) as [->|Hne].
      * rewrite Hlid in H. injection H as <-. destruct Hor as [->|(old & s & _ & Ho & _)]; [set_solver|].
        destruct (Hd _ _ Ho). set_solver.
      * rewrite Hlne in H by done. destruct (Hd _ _ H). set_solver.
    + intros id' r' n H Hx. rewrite Hdr. destruct (decide (id' = id)) as [->|Hne].
      * rewrite Ht in H. simplify_eq. set_solver.
      * destruct (Hold _ _ Hne H) as (r0 & H0 & _ & Hr0 & _). rewrite Hx in Hr0.
        apply elem_of_cons in Hr0 as [Hr0|Hr0%list_elem_of_singleton]; [|set_solver].
        assert (n ∈ drawn w) by (eapply Hn; [exact H0|congruence]). set_solver.
    + intros id1 id2 r1 r2 l' H1 H2 L1 L2 A1 A2.
      destruct (decide (id1 = id)) as [->|N1], (decide (id2 = id)) as [->|N2]; [done| | |].
      * exfalso. rewrite Hlid in L1. simplify_eq. by eapply (Huniq id2).
      * exfalso. rewrite Hlid in L2. simplify_eq. by eapply (Huniq id1).
      * rewrite Hlne in L1, L2 by done.
        destruct (Hold _ _ N1 H1) as (? & ? & _ & _ & ?), (Hold _ _ N2 H2) as (? & ? & _ & _ & ?). eauto.
  - split_and!.
    + rewrite Hdr. set_solver.
    + rewrite Hlo. apply insert_subseteq. destruct (login_of w !! id) eqn:E; [|done].
      destruct (Hd id _ E). done.
    + intros l' Hl' Ho id' r' H L. destruct (decide (id' = id)) as [->|Hne].
      * rewrite Hlid in L. injection L as <-. destruct Hor as [->|(old & s & _ & Ho2 & Ho3 & Ho4 & _)]; [done|].
        rewrite (Ho _ _ Ho3 Ho2) in Ho4. done.
      * rewrite Hlne in L by done. destruct (Hold _ _ Hne H) as (r0 & H0 & _ & _ & HA).
        specialize (Ho _ _ H0 L). destruct (active r'); [|done]. rewrite HA in Ho; done.
Qed.

(** ** Every effect keeps the invariant *)

Lemma track_logins_same d w :
  sessions_ok w -> (forall id r, tokens d !! id = Some r -> is_Some (token_at w id)) ->
  track_logins d (login_of w) = login_of w.
Proof.
  intros Hw Hd. apply map_eq. intros id. unfold track_logins. rewrite lookup_union, map_lookup_imap.
  destruct (login_of w !! id) as [l|] eqn:E.
  - destruct (tokens d !! id); done.
  - destruct (tokens d !! id) as [r|] eqn:Er; [|done]. exfalso.
    destruct (Hd _ _ Er) as [r0 H0]. destruct (so_login w Hw _ _ H0) as [l Hl]. unfold login_at in Hl. congruence.
Qed.

Lemma track_logins_new d w id l :
  sessions_ok w -> is_Some (tokens d !! id) -> login_of w !! id = None ->
  (forall id' r, id' <> id -> tokens d !! id' = Some r -> is_Some (token_at w id')) ->
  login_root d (login_of w) id = l ->
  track_logins d (login_of w) = <[id := l]> (login_of w).
Proof.
  intros Hw [r Hr] Hn Hd Hl. apply map_eq. intros id'. unfold track_logins. rewrite lookup_union, map_lookup_imap.
  destruct (decide (id' = id)) as [->|Hne].
  - rewrite Hn, Hr, lookup_insert_eq. simpl. by rewrite Hl.
  - rewrite lookup_insert_ne by done. destruct (login_of w !! id') as [l'|] eqn:E.
    + destruct (tokens d !! id'); done.
    + destruct (tokens d !! id') as [r'|] eqn:Er; [|done]. exfalso.
      destruct (Hd _ _ Hne Er) as [r0 H0]. destruct (so_login w Hw _ _ H0) as [l' Hl'].
      unfold login_at in Hl'. congruence.
Qed.

(** A token under a fresh identifier starts a login, or continues that of the token it
    replaces. *)
Lemma track_started d w id r :
  sessions_ok w -> id ∉ drawn w -> tokens d = <[id := r]> (tokens (db w)) -> rt_id r = id ->
  track_logins d (login_of w) = <[id := id]> (login_of w).
Proof.
  intros Hw Hid HT Hri.
  assert (Hfresh : login_of w !! id = None) by (destruct (login_of w !! id) eqn:E; [by destruct (so_drawn w Hw id _ E)|done]).
  apply track_logins_new; try done; rewrite ?HT, ?lookup_insert_eq; [eauto| |].
  - intros id' r' Hne. rewrite lookup_insert_ne by done. unfold token_at. eauto.
  - unfold login_root. destruct (find_row _ _) as [p|] eqn:Ep; [|done].
    apply find_row_Some in Ep as (k & Hkp & Hp%bool_decide_eq_true). rewrite HT in Hkp.
    destruct (decide (k = id)) as [->|Hki].
    + rewrite lookup_insert_eq in Hkp. simplify_eq. by rewrite Hfresh.
    + rewrite lookup_insert_ne in Hkp by done. exfalso. apply Hid. by eapply so_next.
Qed.
Lemma track_rotated d w id old r n t l :
  sessions_ok w -> id ∉ drawn w -> token_at w old = Some r -> old <> id -> login_at w old = Some l ->
  tokens d = <[old := revoked_at t (Some id) r]> (<[id := token_row id n]> (tokens (db w))) ->
  track_logins d (login_of w) = <[id := l]> (login_of w).
Proof.
  intros Hw Hid Ho Hne Hl HT. apply track_logins_new; try done.
  - rewrite HT, lookup_insert_ne, lookup_insert_eq by done. eauto.
  - destruct (login_of w !! id) eqn:E; [by destruct (so_drawn w Hw id _ E)|done].
  - rewrite HT. intros id' s Hi. destruct (decide (id' = old)) as [->|?]; [unfold token_at in *; eauto|].
    rewrite !lookup_insert_ne by done. unfold token_at. eauto.
  - unfold login_root. destruct (find_row _ _) as [p|] eqn:Ep.
    + apply find_row_Some in Ep as (k & Hkp & Hp%bool_decide_eq_true). rewrite HT in Hkp.
      destruct (decide (k = old)) as [->|Hko].
      * rewrite lookup_insert_eq in Hkp. injection Hkp as <-. simpl. rewrite (so_key w Hw _ _ Ho).
        unfold login_at in Hl. by rewrite Hl.
      * exfalso. rewrite lookup_insert_ne in Hkp by done. destruct (decide (k = id)) as [->|Hki].
        -- rewrite lookup_insert_eq in Hkp. by simplify_eq.
        -- rewrite lookup_insert_ne in Hkp by done. apply Hid. by eapply so_next.
    + exfalso. eapply find_row_None in Ep; [|rewrite HT; apply lookup_insert_eq]. by apply bool_decide_eq_false in Ep.
Qed.

Lemma sessions_started d w id r :
  sessions_ok w -> id ∉ drawn w -> tokens d = <[id := r]> (tokens (db w)) -> rt_id r = id ->
  rt_replacedById r ∈ [None; Some id] -> sessions_ok (commit id d w) /\ logins_grow w (commit id d w).
Proof.
  intros Hw Hid HT Hri Hrn. eapply (one_more_token w _ id r id); try done; simpl.
  - by eapply track_started.
  - unfold token_at. simpl. by rewrite HT, lookup_insert_eq.
  - unfold token_at. simpl. rewrite HT. intros id' r' Hne. rewrite lookup_insert_ne by done.
    intros H. exists r'. set_solver.
  - by left.
Qed.
Lemma sessions_rotated d w id old r n t :
  sessions_ok w -> id ∉ drawn w -> token_at w old = Some r -> active r = true -> old <> id ->
  tokens d = <[old := revoked_at t (Some id) r]> (<[id := token_row id n]> (tokens (db w))) ->
  sessions_ok (commit id d w) /\ logins_grow w (commit id d w).
Proof.
  intros Hw Hid Ho Ha Hne HT. destruct (so_login w Hw _ _ Ho) as [l Hl].
  eapply (one_more_token w _ id (token_row id n) l); try done; simpl.
  - by eapply track_rotated.
  - unfold token_at. simpl. by rewrite HT, lookup_insert_ne, lookup_insert_eq.
  - set_solver.
  - unfold token_at. simpl. rewrite HT. intros id' s Hi. destruct (decide (id' = old)) as [->|Hko].
    + rewrite lookup_insert_eq. intros [= <-]. exists r. simpl. split_and!; [done|done|set_solver|done].
    + rewrite !lookup_insert_ne by done. intros H. exists s. set_solver.
  - right. exists old, r. split_and!; try done. unfold token_at. simpl. rewrite HT, lookup_insert_eq. by intros s [= <-].
Qed.
Lemma sessions_unchanged d w :
  sessions_ok w -> tokens d = tokens (db w) -> track_logins d (login_of w) = login_of w.
Proof. intros Hw HT. apply track_logins_same; [done|]. rewrite HT. eauto. Qed.

Lemma sessions_commit w id d :
  sessions_ok w -> id ∉ drawn w -> tx_effect id (tokens (db w)) (tokens d) ->
  sessions_ok (commit id d w) /\ logins_grow w (commit id d w).
Proof.
  intros Hw Hid Htx. inversion Htx as [T' Hr|n HT].
  - inversion Hr as [HT|r Hri Hrn _ HT|old r r' n t Ho Ha Hne Hr' HT].
    + apply same_tokens; [done|set_solver|by apply sessions_unchanged|done].
    + by eapply sessions_started.
    + subst r'. by eapply sessions_rotated.
  - eapply sessions_started; [done|done|done|done|left].
Qed.

(** What a renewal keeps: a login without an active token gets none. *)
Definition no_login (w w' : World) : Prop := forall l, login_over w l -> login_over w' l.
#[export] Instance no_login_po : PreOrder no_login.
Proof. split; [by intros w l|]. intros w1 w2 w3 H1 H2 l Hl. by apply H2, H1. Qed.

Lemma renewal_no_login w id d :
  sessions_ok w -> id ∉ drawn w -> tx_renewal id (tokens (db w)) (tokens d) -> no_login w (commit id d w).
Proof.
  intros Hw Hid Htx l Hl id' r' Ht Hlo. unfold token_at, login_at in Ht, Hlo. simpl in Ht, Hlo.
  inversion Htx as [HT|r Hri Hrn Hv HT|old r s n t Ho Ha Hne Hs HT].
  - rewrite (sessions_unchanged d w) in Hlo by done. apply (Hl id'); [|done]. unfold token_at. by rewrite HT.
  - rewrite (track_started d w id r) in Hlo by done. rewrite <- HT in Ht.
    destruct (decide (id' = id)) as [->|Hi]; [rewrite lookup_insert_eq in Ht; congruence|].
    rewrite lookup_insert_ne in Ht by done. rewrite lookup_insert_ne in Hlo by done. by apply (Hl id').
  - subst s. destruct (so_login w Hw _ _ Ho) as [l' Hl'].
    rewrite (track_rotated d w id old r n t l') in Hlo by done. rewrite <- HT in Ht.
    destruct (decide (id' = old)) as [->|Hio]; [rewrite lookup_insert_eq in Ht; by injection Ht as <-|].
    rewrite lookup_insert_ne in Ht by done. destruct (decide (id' = id)) as [->|Hi].
    + rewrite lookup_insert_eq in Hlo. simplify_eq. by rewrite (Hl old r) in Ha.
    + rewrite lookup_insert_ne in Ht by done. rewrite lookup_insert_ne in Hlo by done. by apply (Hl id').
Qed.

(** Rows of [w'] that come from rows of [w] no less active. *)
Definition fewer (w w' : World) : Prop :=
  forall id r', token_at w' id = Some r' -> exists r, token_at w id = Some r /\
    rt_id r' = rt_id r /\ rt_replacedById r' = rt_replacedById r /\ (active r' = true -> active r = true).
Lemma fewer_no_login w w' : login_of w' = login_of w -> fewer w w' -> no_login w w'.
Proof.
  intros Hlo Hr l Ho id r' H Hx. unfold login_at in Hx. rewrite Hlo in Hx.
  destruct (Hr _ _ H) as (r & Ht & _ & _ & Ha). specialize (Ho _ _ Ht Hx).
  destruct (active r'); [|done]. rewrite Ha in Ho; done.
Qed.
Lemma patch_fewer w ids P f : only_revokes P f -> fewer w (with_db (patch_tokens ids P f (db w)).1 w).
Proof.
  intros Hf. unfold fewer, token_at. simpl. intros id r'. rewrite map_lookup_imap.
  destruct (tokens (db w) !! id) as [r|]; simpl; [|done].
  intros [= <-]. exists r. unfold patch_if. destruct (_ && _)%bool eqn:E; [|done].
  apply andb_true_iff in E as [_ HP]. destruct (Hf _ HP) as [t ->]. done.
Qed.
Lemma delete_fewer w P :
  fewer w (with_db (set_tokens (filter (fun kv => P kv.2 = false) (tokens (db w))) (db w)) w).
Proof. unfold fewer, token_at. simpl. intros id r' Hr. apply map_lookup_filter_Some in Hr as [Hr _]. eauto. Qed.

Lemma stay w : sessions_ok w -> sessions_ok w /\ logins_grow w w.
Proof. split; [done|reflexivity]. Qed.

Section sessions.
Context (sha256 : string -> string) (bcrypt_compare argon2_verify : string -> string -> bool).
Context (WEB_URL : option string) {Jwt : Type} (jwt_sign : string -> string -> UserRole -> Jwt).
Notation sem := (auth_sem bcrypt_compare argon2_verify).

Lemma auth_step i e w w' x :
  auth_act e -> sessions_ok w -> sem i e w w' x -> sessions_ok w' /\ logins_grow w w'.
Proof.
  intros He Hw. destruct e; simpl in *; unfold answers, writes;
    try (intros ->; (by apply stay)); try (intros [-> _]; (by apply stay)).
  - pose proof (patch_fewer w ids where_ data He) as Hp.
    intros [[-> _]|[-> _]]; [by apply fewer_tokens|by apply stay].
  - pose proof (delete_fewer w where_) as Hp. intros [[-> _]|[-> _]]; [by apply fewer_tokens|by apply stay].
  - intros [(id & Hid & H)|[-> _]]; [|by apply stay].
    destruct (body id (db w)) as [d [a|m]] eqn:E; destruct H as [-> _]; [|by apply stay].
    apply sessions_commit; [done|done|]. by eapply He.
Qed.
Lemma renew_step i e w w' x :
  renew_act e -> sessions_ok w -> sem i e w w' x -> sessions_ok w' /\ no_login w w'.
Proof.
  intros He Hw Hx. split; [by eapply auth_step; [apply renew_auth|..]|]. revert Hx.
  destruct e; simpl in *; unfold answers, writes; try (intros ->; reflexivity); try (intros [-> _]; reflexivity).
  - pose proof (patch_fewer w ids where_ data He) as Hp. intros [[-> _]|[-> _]]; [by apply fewer_no_login|reflexivity].
  - pose proof (delete_fewer w where_) as Hp. intros [[-> _]|[-> _]]; [by apply fewer_no_login|reflexivity].
  - intros [(id & Hid & H)|[-> _]]; [|reflexivity].
    destruct (body id (db w)) as [d [a|m]] eqn:E; destruct H as [-> _]; [|reflexivity].
    apply renewal_no_login; [done|done|]. by eapply He.
Qed.

(** ** The requests of the API

    Signing in and accepting an invitation start sessions; the other requests do not. *)
Inductive renewing : AuthProg unit -> Prop :=
| req_refresh t ua : renewing (detached (refresh sha256 jwt_sign t ua))
| req_logout t : renewing (detached (logout sha256 t))
| req_cleanup : renewing (detached cleanupExpired)
| req_forgot email : renewing (detached (requestPasswordReset WEB_URL email))
| req_reset t pw : renewing (detached (resetPassword t pw))
| req_validate sub : renewing (detached (validate sub))
| req_setActive id b : renewing (detached (setActive id b))
| req_setBotEnabled id b : renewing (detached (setBotEnabled id b))
| req_updateMe id b k : renewing (detached (updateMe id b k))
| req_revokeSession id : renewing (detached (revokeSession id))
| req_invite email by_ days : renewing (detached (create WEB_URL email by_ days))
| req_preview t : renewing (detached (preview argon2_verify t))
| req_revokeInvite id : renewing (detached (Invites.revoke id)).
Inductive request : AuthProg unit -> Prop :=
| req_login email pw ua : request (detached (login sha256 bcrypt_compare jwt_sign email pw ua))
| req_accept t pw k ua : request (detached (accept sha256 argon2_verify jwt_sign t pw k ua))
| req_other p : renewing p -> request p.
End sessions.

(** ** The requests perform nothing else *)
Lemma tx_update_user id f : tx_renews (fun _ => update_user id f).
Proof. apply tx_ok_tokens. intros _ d. unfold update_user. by destruct (users d !! id). Qed.
Lemma tx_insert_reset f : tx_renews (fun id => insert_reset (f id)).
Proof. apply tx_ok_tokens. intros id d. unfold insert_reset. by destruct (bool_decide _). Qed.
Lemma tx_insert_invite f : tx_renews (fun id => insert_invite (f id)).
Proof. apply tx_ok_tokens. intros id d. unfold insert_invite. by destruct (bool_decide _). Qed.
Lemma tx_update_invite id f : tx_renews (fun _ => update_invite id f).
Proof. apply tx_ok_tokens. intros _ d. unfold update_invite. by destruct (invites d !! id). Qed.
Lemma tx_reset_body u r f g :
  tx_renews (fun _ => m_bind (update_user u f) (fun _ => update_reset r g)).
Proof.
  apply tx_ok_tokens. intros _ d. unfold m_bind, update_user, update_reset.
  destruct (users d !! u); [|done]. simpl. by destruct (resets d !! r).
Qed.
Lemma tx_accept_body i h k t : tx_renews (accept_body i h k t).
Proof.
  apply tx_ok_tokens. intros id d. unfold accept_body, m_bind, insert_user, update_invite.
  destruct (bool_decide _); [done|]. simpl. by destruct (invites d !! iv_id i).
Qed.

Lemma emits_update_tokens P now : emits renew_act (update_tokens P (revoked_at now None)).
Proof. apply emits_await; [done|]. intros ids. simpl. split; [|done]. intros r _. eauto. Qed.

Create HintDb auth.
#[export] Hint Resolve tx_insert_token tx_rotate_body tx_update_user tx_insert_reset tx_insert_invite
  tx_update_invite tx_reset_body tx_accept_body tx_renews_ok emits_update_tokens : auth.

(** One [await] at a time; a transaction by the lemma of its body. *)
Ltac emits_auth :=
  repeat first
    [ solve [auto with auth]
    | apply emits_detached
    | apply emits_await; [|intros ?]
    | match goal with
      | |- emits _ (match ?x with _ => _ end) => destruct x
      | |- emits _ (resolve _) => exact I
      | |- emits _ (reject _) => exact I
      | |- emits _ now_ms => split; [exact I|done]
      | |- emits _ random_token => split; [exact I|done]
      | |- emits _ (query _) => split; [exact I|done]
      end
    | split; [cbn; solve [auto with auth]|done] ].

Section emission.
Context (sha256 : string -> string) (bcrypt_compare argon2_verify : string -> string -> bool).
Context (WEB_URL : option string) {Jwt : Type} (jwt_sign : string -> string -> UserRole -> Jwt).

Lemma emits_issue u ua : emits auth_act (issue sha256 u ua).
Proof. unfold issue. emits_auth. Qed.
Lemma emits_revokeAll u : emits renew_act (revokeAllForUser u).
Proof. unfold revokeAllForUser. emits_auth. Qed.
Lemma emits_rotate t ua : emits renew_act (rotate sha256 t ua).
Proof. pose proof emits_revokeAll. unfold rotate. emits_auth. Qed.

Lemma renewing_emits p : renewing sha256 argon2_verify WEB_URL jwt_sign p -> emits renew_act p.
Proof.
  pose proof emits_revokeAll as Hr. pose proof emits_rotate as Ht.
  destruct 1; apply emits_detached;
    unfold refresh, logout, RefreshTokens.revoke, cleanupExpired,
      requestPasswordReset, resetPassword, find_reset, validate, findByEmail, findById, setActive, setBotEnabled,
      updateMe, revokeSession, create, preview, findByToken, Invites.revoke;
    emits_auth.
Qed.
Lemma request_emits p :
  request sha256 bcrypt_compare argon2_verify WEB_URL jwt_sign p -> emits auth_act p.
Proof.
  pose proof emits_issue as Hi. intros [email pw ua|t pw k ua|q Hq].
  - apply emits_detached. unfold login, validateCredentials, recordLogin, findByEmail. emits_auth.
  - apply emits_detached. unfold accept, findByToken, account_of. emits_auth.
  - eapply emits_mono; [apply renew_auth|by apply renewing_emits].
Qed.
End emission.

Lemma not_client_error {A} e : String.prefix "PrismaClient" e = false -> ~ client_error (Throw (A := A) e).
Proof. intros He [m [= ->]]. destruct m; done. Qed.

(** What [wp] says about an answer. *)
Definition answered (tr : list (@Event AuthAct auth_result)) (e : AuthAct) (x : auth_result e) : Prop :=
  {| ev_act := e; ev_res := x |} ∈ tr.

Section theorems.
Context (sha256 : string -> string) (bcrypt_compare argon2_verify : string -> string -> bool).
Context (WEB_URL : option string) {Jwt : Type} (jwt_sign : string -> string -> UserRole -> Jwt).
Notation sem := (auth_sem bcrypt_compare argon2_verify).
Notation req := (request sha256 bcrypt_compare argon2_verify WEB_URL jwt_sign).
Notation steps := (rtc (pstep sem req)).

Lemma sessions_start w : tokens (db w) = ∅ -> login_of w = ∅ -> sessions_ok w.
Proof.
  intros Ht Hl. split; unfold token_at, login_at; rewrite ?Ht, ?Hl; intros *; by rewrite ?lookup_empty.
Qed.

Lemma sessions_reachable c c' :
  steps c c' -> Forall (emits auth_act) (threads c) -> sessions_ok (shared c) ->
  sessions_ok (shared c') /\ logins_grow (shared c) (shared c') /\ Forall (emits auth_act) (threads c').
Proof.
  apply pool_invariant; [apply _|by apply request_emits|]. intros i e s s' x He Hw. by apply auth_step.
Qed.

Lemma renewals_reachable c c' :
  rtc (pstep sem (renewing sha256 argon2_verify WEB_URL jwt_sign)) c c' ->
  Forall (emits renew_act) (threads c) -> sessions_ok (shared c) ->
  sessions_ok (shared c') /\ no_login (shared c) (shared c').
Proof.
  intros Hc Hts Hw.
  destruct (pool_invariant sem _ renew_act sessions_ok no_login c c'
    ltac:(apply renewing_emits) ltac:(intros *; apply renew_step) Hc Hts Hw) as (? & ? & _). done.
Qed.

(** The token is usable as far as its row says, and belongs to the login. *)
Definition usable (w : World) (l id : string) : Prop :=
  login_of w !! id = Some l /\ exists r, tokens (db w) !! id = Some r /\ rt_revokedAt r = None.
Definition one_per_login (w : World) : Prop :=
  forall l id1 id2, usable w l id1 -> usable w l id2 -> id1 = id2.

Lemma sessions_one w : sessions_ok w -> one_per_login w.
Proof.
  intros Hw l id1 id2 (L1 & r1 & H1 & A1) (L2 & r2 & H2 & A2).
  apply (so_single _ Hw id1 id2 r1 r2 l); try done; by apply bool_decide_eq_true_2.
Qed.
Lemma over_or_usable w l : login_over w l \/ exists id, usable w l id.
Proof.
  destruct (decide (map_Exists (fun k r => login_of w !! k = Some l /\ rt_revokedAt r = None) (tokens (db w))))
    as [(id & r & Hr & Hl & Ha)|Hno]; [right; exists id; split; [done|eauto]|left].
  intros id r Hr Hl. apply bool_decide_eq_false_2. intros Ha. apply Hno. by exists id, r.
Qed.

(** C16: Whatever requests run side by side, from an empty token table on, two tokens that
    are not revoked never belong to the same login, a login being a token made from scratch
    and all that replace it.  And from any state so reached, as long as only requests that
    neither sign in nor accept an invitation are at work, every such token belongs to a
    login that had one in that state, still at most one each: so the number of usable
    tokens does not grow, and the rotation of a stolen token and of the genuine one cannot
    both leave a usable token behind. *)
Theorem one_active_token_per_login w0 c :
  tokens (db w0) = ∅ -> login_of w0 = ∅ ->
  steps {| shared := w0; threads := [] |} c ->
  one_per_login (shared c) /\
  forall c', rtc (pstep sem (renewing sha256 argon2_verify WEB_URL jwt_sign)) {| shared := shared c; threads := [] |} c' ->
    one_per_login (shared c') /\
    forall id r, tokens (db (shared c')) !! id = Some r -> rt_revokedAt r = None ->
      exists l id0, usable (shared c') l id /\ usable (shared c) l id0.
Proof.
  intros Ht Hl Hc. destruct (sessions_reachable _ _ Hc) as (Hw & _); [constructor|by apply sessions_start|].
  split; [by apply sessions_one|]. intros c' Hc'.
  destruct (renewals_reachable _ _ Hc') as [Hw' Hn]; [constructor|done|]. split; [by apply sessions_one|].
  intros id r Hr Ha. destruct (so_login _ Hw' id r Hr) as [l Hlo]. exists l.
  destruct (over_or_usable (shared c) l) as [Hov|[id0 Hu]].
  - specialize (Hn l Hov id r Hr Hlo). unfold active in Hn. by rewrite bool_decide_eq_true_2 in Hn.
  - exists id0. split; [split; [done|eauto]|done].
Qed.

(** [revokeAllForUser] undisturbed: nothing is created, and no token of the user stays
    active. *)
Lemma revokeAll_alone i u w w' e :
  alone sem i (revokeAllForUser u) w w' e -> ~ client_error e ->
  login_of w' = login_of w /\
  forall id r', tokens (db w') !! id = Some r' ->
    exists r, tokens (db w) !! id = Some r /\ rt_userId r' = rt_userId r /\
      (active r' = true -> active r = true /\ rt_userId r' <> u).
Proof.
  unfold revokeAllForUser. simpl. intros (s1 & now & -> & s2 & ids & [-> [->|[m ->]]] & H) He.
  2:{ simpl in H. destruct H as [_ ->]. exfalso. apply He. by exists m. }
  simpl in H. destruct H as (s3 & x & [[-> ->]|[-> [m ->]]] & H).
  2:{ simpl in H. destruct H as [_ ->]. exfalso. apply He. by exists m. }
  simpl in H. destruct H as [-> ->]. split; [done|]. intros id r'. simpl. rewrite map_lookup_imap.
  destruct (tokens (db w) !! id) as [r|] eqn:Er; [|done]. simpl. intros [= <-].
  exists r. unfold patch_if. destruct (_ && _)%bool eqn:E; [done|]. split_and!; [done..|].
  intros Ha. split; [done|]. intros Hu. apply not_true_iff_false in E. apply E.
  assert (user_tokens u r = true) as HP.
  { unfold user_tokens. rewrite bool_decide_eq_true_2, Ha; done. }
  rewrite HP, andb_true_r. apply bool_decide_eq_true_2. apply list_elem_of_fmap. exists (id, r).
  split; [done|]. apply elem_of_map_to_list, map_lookup_filter_Some. done.
Qed.

Lemma rotate_reuse_alone i presented ua w w' row :
  find_row (with_hash sha256 presented) (tokens (db w)) = Some row -> rt_revokedAt row <> None ->
  alone sem i (rotate sha256 presented ua) w w' (Throw UNAUTHORIZED) ->
  exists e, alone sem i (revokeAllForUser (rt_userId row)) w w' e /\ ~ client_error e.
Proof.
  intros Hf Hr H. unfold rotate, await at 1 in H. apply alone_bind in H as (s1 & x & H1 & H2).
  simpl in H1. destruct H1 as (s0 & y & [-> Hy] & [-> ->]).
  destruct Hy as [->|[m ->]]; [|simpl in H2; by destruct H2 as [_ ?]].
  rewrite Hf in H2. cbn beta iota in H2. unfold active in H2. rewrite bool_decide_eq_false_2 in H2 by done.
  cbn [negb] in H2. unfold await at 1 in H2.
  apply alone_bind in H2 as (s2 & [[]|e] & H1 & H2); simpl in H2; destruct H2 as [-> H2].
  - exists (Ok tt). split; [done|]. by intros [? ?].
  - exists (Throw e). split; [done|]. injection H2 as <-. by apply not_client_error.
Qed.

(** C25: A refresh token presented after it was replaced or revoked ends its user's
    sessions for good, in any reachable state and with any other requests under way, as long
    as none of them takes a step while the presenting [rotate] runs and [rotate] answers that
    the token is invalid (its statements reached the database).  When it has answered, no
    token of the user is active, and no login that had an active token of the user before
    ever has an active token again, whatever the paused requests and all later ones do.  A
    rotation that does step in between survives ([rotation_survives_reuse_detection]). *)
Theorem reuse_ends_sessions w0 c i presented ua row w' :
  tokens (db w0) = ∅ -> login_of w0 = ∅ -> steps {| shared := w0; threads := [] |} c ->
  find_row (with_hash sha256 presented) (tokens (db (shared c))) = Some row -> rt_revokedAt row <> None ->
  alone sem i (rotate sha256 presented ua) (shared c) w' (Throw UNAUTHORIZED) ->
  (forall id r, tokens (db w') !! id = Some r -> rt_userId r = rt_userId row -> rt_revokedAt r <> None) /\
  forall id r l c', tokens (db (shared c)) !! id = Some r -> rt_userId r = rt_userId row ->
    rt_revokedAt r = None -> login_of (shared c) !! id = Some l ->
    steps {| shared := w'; threads := threads c |} c' ->
    forall id' r', tokens (db (shared c')) !! id' = Some r' -> login_of (shared c') !! id' = Some l ->
      rt_revokedAt r' <> None.
Proof.
  intros Ht Hl Hc Hf Hr Ha.
  destruct (sessions_reachable _ _ Hc) as (Hw & _ & Hem); [constructor|by apply sessions_start|].
  destruct (rotate_reuse_alone _ _ _ _ _ _ Hf Hr Ha) as (e & Hrev & He).
  destruct (revokeAll_alone _ _ _ _ _ Hrev He) as [Hsame Hnone].
  destruct (alone_invariant sem auth_act sessions_ok logins_grow i _ _ _ _
              ltac:(intros *; apply auth_step) (emits_mono _ _ _ renew_auth (emits_revokeAll _)) Hrev Hw) as [Hw' Hg].
  split.
  { intros id r H Hu Hn. destruct (Hnone _ _ H) as (r0 & _ & _ & Hr0).
    destruct Hr0 as [_ Hne]; [by apply bool_decide_eq_true_2|done]. }
  intros id r l c' H Hu Hn Hlog Hc' id' r' H' L'.
  destruct (sessions_reachable _ _ Hc' Hem Hw') as (_ & Hg' & _). simpl in Hg'.
  enough (login_over w' l) as Hov.
  { destruct Hg' as (_ & _ & Hg'). destruct (so_drawn _ Hw' id l) as [_ Hdr].
    - unfold login_at. by rewrite Hsame.
    - specialize (Hg' l Hdr Hov _ _ H' L'). by apply bool_decide_eq_false in Hg'. }
  intros id2 r2 H2 L2. destruct (active r2) eqn:A2; [|done]. exfalso.
  destruct (Hnone _ _ H2) as (r0 & H0 & Hur & Hact). destruct (Hact A2) as [A0 Hne].
  unfold login_at in L2. rewrite Hsame in L2.
  assert (id2 = id) as -> by (eapply (so_single _ Hw); eauto; by apply bool_decide_eq_true_2).
  congruence.
Qed.
End theorems.

(** * Theorems about credentials, invitations and password resets

    In every run: a session is only handed out for proven credentials, an account is only
    made from an open invitation that the token opens, and a password reset leaves the
    refresh tokens alone. *)
From S2P Require Import Prelude Async JsDate LiveTypes AuthTypes RefreshTokens Invites.
Section auth.
Context (sha256 : string -> string) (bcrypt_compare argon2_verify : string -> string -> bool).
Context (WEB_URL : option string) {Jwt : Type} (jwt_sign : string -> string -> UserRole -> Jwt).
Notation sem := (auth_sem bcrypt_compare argon2_verify).

Definition by_email (e : string) (u : UserRow) : bool := bool_decide (usr_email u = e).
Definition by_id (i : string) (u : UserRow) : bool := bool_decide (usr_id u = i).

Lemma wp_query e (Q : list Event -> auth_result e -> Prop) :
  (forall x, Q [{| ev_act := e; ev_res := x |}] x) -> wp (query e : AuthProg _) Q.
Proof. intros H x. simpl. apply H. Qed.
Lemma wp_now (Q : list Event -> Res Z -> Prop) :
  (forall t, Q [{| ev_act := Clock; ev_res := t |} : @Event AuthAct auth_result] (Ok t)) -> wp now_ms Q.
Proof. intros H x. simpl. apply H. Qed.
Lemma wp_random (Q : list Event -> Res string -> Prop) :
  (forall t, Q [{| ev_act := RandomToken; ev_res := t |} : @Event AuthAct auth_result] (Ok t)) -> wp random_token Q.
Proof. intros H x. simpl. apply H. Qed.
End auth.

(** One effect after the other; a rejected one ends the run. *)
Ltac auth_step :=
  match goal with
  | |- wp (await _ _) _ => apply wp_await
  | |- wp now_ms _ => apply wp_now; intros ?
  | |- wp random_token _ => apply wp_random; intros ?
  | |- wp (query _) _ => apply wp_query; intros [?|?]
  | |- wp (transaction _) _ => apply wp_query; intros [?|?]
  | |- wp (resolve _) _ => apply wp_resolve
  | |- wp (reject _) _ => apply wp_reject
  | |- wp (match ?x with _ => _ end) _ => let E := fresh "E" in destruct x eqn:E
  end.

Section credentials.
Context (sha256 : string -> string) (bcrypt_compare argon2_verify : string -> string -> bool).
Context (WEB_URL : option string) {Jwt : Type} (jwt_sign : string -> string -> UserRole -> Jwt).

Notation trace := (list (@Event AuthAct auth_result)).

(** The session is the one of an active user with that e-mail whose stored hash accepts
    the password. *)
Definition proven_by_password (tr : trace) (email pw : string) (s : Session) : Prop :=
  exists u, answered tr (UserFind (fun u => bool_decide (usr_email u = email))) (Ok (Some u)) /\
    usr_isActive u = true /\ bcrypt_compare pw (usr_passwordHash u) = true /\
    s = session_of jwt_sign u (ss_refreshToken s).

(** The session is the one of the active user of an unrevoked, unexpired row with the hash
    of the presented token, and its refresh token comes out of the rotation of that row. *)
Definition proven_by_token (tr : trace) (presented : string) (s : Session) : Prop :=
  exists row u now n t tok it,
    answered tr (TokenFind (with_hash sha256 presented)) (Ok (Some row)) /\
    rt_revokedAt row = None /\ answered tr Clock now /\ now <= rt_expiresAt row /\
    answered tr (Transaction (rotate_body row n t tok)) (Ok it) /\ nt_userId n = rt_userId row /\
    nt_tokenHash n = sha256 tok /\
    answered tr (UserFind (fun u => bool_decide (usr_id u = rt_userId row))) (Ok (Some u)) /\
    usr_isActive u = true /\ s = session_of jwt_sign u (it_token it).

Ltac in_trace := unfold answered; simpl; repeat first [left; reflexivity | right].

Lemma login_checks email pw ua :
  wp (login sha256 bcrypt_compare jwt_sign email pw ua) (fun tr r =>
    forall s, r = Ok s -> proven_by_password tr email pw s).
Proof.
  unfold login, validateCredentials, findByEmail. repeat auth_step; try done.
  apply wp_any. intros tr1 [r1|]; [|done]. repeat auth_step.
  apply wp_any. intros tr2 [r2|]; [|done]. apply wp_resolve. intros s [= <-]. subst.
  exists u. split_and!; try done; [in_trace|by apply negb_false_iff].
Qed.

Lemma refresh_checks presented ua :
  wp (refresh sha256 jwt_sign presented ua) (fun tr r =>
    forall s, r = Ok s -> proven_by_token tr presented s).
Proof.
  unfold refresh, rotate, findById. repeat auth_step; try done; try (by apply wp_any; intros ? []).
  intros s [= <-]. subst. eexists r, u, t, _, _, _, a0. split_and!; [in_trace| |in_trace| |in_trace|..]; try done; [| |in_trace].
  - by apply negb_false_iff, bool_decide_eq_true in E0.
  - by apply Z.ltb_ge in E1.
Qed.

(** C32: In every run, whatever the database answers and whoever else is at work: [login]
    only resolves with the session of an active user with that e-mail whose hash accepts
    the password, [refresh] only with the session of the active owner of the presented,
    unrevoked and unexpired token, and its new refresh token comes out of a transaction
    that committed the rotation of that token. *)
Theorem sessions_need_credentials email pw presented ua :
  wp (login sha256 bcrypt_compare jwt_sign email pw ua) (fun tr r =>
    forall s, r = Ok s -> proven_by_password tr email pw s) /\
  wp (refresh sha256 jwt_sign presented ua) (fun tr r =>
    forall s, r = Ok s -> proven_by_token tr presented s).
Proof. split; [apply login_checks|apply refresh_checks]. Qed.

(** ** Invitations *)

(** The invitation an account was made from: open, unexpired, opened by the token. *)
Definition invited_by (tr : trace) (token : string) (i : Invite) : Prop :=
  exists l now, answered tr (InviteFindMany unaccepted) (Ok l) /\ i ∈ l /\
    iv_acceptedAt i = None /\ argon2_verify (iv_tokenHash i) token = true /\
    answered tr Clock now /\ now <= iv_expiresAt i /\
    answered tr (UserFind (fun u => bool_decide (usr_email u = iv_email i))) (Ok None).

Lemma find_Some_in {A} (f : A -> bool) l x : List.find f l = Some x -> x ∈ l /\ f x = true.
Proof. intros H. apply List.find_some in H as [H ?]. split; [by apply list_elem_of_In|done]. Qed.

(** Whatever [findByToken] finds is open, so the branches of [accept] and [preview] for an
    accepted invitation are never taken: its holder reads "Invalid invite". *)
Lemma found_invitation_open d token i :
  List.find (fun row => argon2_verify (iv_tokenHash row) token) (find_rows unaccepted (invites d)) = Some i ->
  unaccepted i = true.
Proof.
  intros [H _]%find_Some_in. unfold find_rows in H. apply list_elem_of_fmap in H as ([k x] & -> & H).
  by apply elem_of_map_to_list, map_lookup_filter_Some in H as [_ ?].
Qed.

(** In every run of [accept]: a session is only handed out after a transaction created
    the account of an open, unexpired invitation that the presented token opens, with the
    invitation's e-mail (free when it was looked up), the role USER and the hash of the
    password, and marked the invitation as accepted. *)
Theorem accept_honours_invitation token pw k ua :
  wp (accept sha256 argon2_verify jwt_sign token pw k ua) (fun tr r =>
    forall s, r = Ok s -> exists i h now u,
      invited_by tr token i /\ answered tr (BcryptHash pw) (Ok h) /\
      answered tr (Transaction (accept_body i h k now)) (Ok u) /\
      s = session_of jwt_sign u (ss_refreshToken s)).
Proof.
  unfold accept, findByToken, account_of. repeat auth_step; try done.
  apply wp_any. intros tr2 [r2|]; [|done]. apply wp_resolve. intros s [= <-]. subst.
  apply find_Some_in in E as [Hin Hver]. eexists i, _, _, _. split_and!; try done; try in_trace.
  exists a, t. split_and!; try done; try in_trace.
  - by apply negb_false_iff, bool_decide_eq_true in E0.
  - by apply Z.ltb_ge in E1.
Qed.

(** ** Password reset *)
Definition keeps_tokens (e : AuthAct) : Prop :=
  match e with
  | TokenPatch _ _ _ | TokenDeleteMany _ => False
  | Transaction body => forall id d, tokens (body id d).1 = tokens d
  | _ => True
  end.

Definition same_token_table (w w' : World) : Prop := tokens (db w') = tokens (db w).
#[local] Instance same_token_table_po : PreOrder same_token_table.
Proof. split; [done|]. intros w1 w2 w3 H1 H2. unfold same_token_table in *. congruence. Qed.

Lemma step_keeps_tokens i e w w' x :
  keeps_tokens e -> True -> auth_sem bcrypt_compare argon2_verify i e w w' x -> True /\ same_token_table w w'.
Proof.
  intros He _. unfold same_token_table. destruct e; simpl in *; unfold answers; try done;
    try (intros ->; done); try (intros [-> _]; done).
  intros [(id & _ & H)|[-> _]]; [|done]. specialize (He id (db w)).
  destruct (body id (db w)) as [d [a|m]]; destruct H as [-> _]; done.
Qed.

Lemma resetPassword_keeps token pw : emits keeps_tokens (resetPassword token pw).
Proof.
  unfold resetPassword, find_reset. apply emits_await; [done|]. intros [r|]; [|done].
  destruct (pr_isUsed r); [done|]. apply emits_await; [done|]. intros now.
  destruct (_ <? _); [done|]. apply emits_await; [done|]. intros h.
  apply emits_await; [|done]. split; [|done]. intros id d. unfold m_bind, update_user, update_reset.
  destruct (users d !! _); [|done]. simpl. by destruct (resets d !! _).
Qed.

(** A password reset, successful or not, revokes no refresh token: whoever holds one stays
    signed in. *)
Lemma reset_keeps_sessions i token pw w w' r :
  alone (auth_sem bcrypt_compare argon2_verify) i (resetPassword token pw) w w' r ->
  tokens (db w') = tokens (db w).
Proof.
  intros H. by destruct (alone_invariant (auth_sem bcrypt_compare argon2_verify) keeps_tokens
    (fun _ => True) same_token_table i _ _ _ _ step_keeps_tokens (resetPassword_keeps _ _) H I).
Qed.
End credentials.
