(* ===== verification/AuthExamples.v ===== *)
(** * Sign-in sessions: concrete runs

    A world that answers every effect, with toy hash functions, in which the requests of
    src/auth and src/invites run in any order given. *)
From stdpp Require Import stringmap.
From S2P Require Import Prelude Async JsDate LiveTypes AuthTypes RefreshTokens Invites AuthFacts.

Definition toy_sha (s : string) : string := "sha:" +:+ s.
Definition toy_bcrypt (p h : string) : bool := String.eqb ("bcrypt:" +:+ p) h.
Definition toy_argon (h t : string) : bool := String.eqb h ("argon:" +:+ t).
Definition toy_sign (id email : string) (r : UserRole) : string := id +:+ "/" +:+ email.

(** Identifiers and tokens are numbered by how many were drawn before. *)
Definition next_id (w : World) : string := fresh_string "id" (gset_to_gmap tt (drawn w)).
Definition next_token (w : World) : string := "token" +:+ pretty (size (drawn w)).

Definition auth_handle (e : AuthAct) (w : World) : World * auth_result e :=
  match e return World * auth_result e with
  | Clock => (w, 1000)
  | RandomToken => (w, next_token w)
  | BcryptHash p => (w, Ok ("bcrypt:" +:+ p))
  | Argon2Hash t => (w, Ok ("argon:" +:+ t))
  | SendMail _ _ => (w, Ok tt)
  | UserFind P => (w, Ok (find_row P (users (db w))))
  | TokenFind P => (w, Ok (find_row P (tokens (db w))))
  | TokenFindMany P => (w, Ok (find_rows P (tokens (db w))))
  | ResetFind P => (w, Ok (find_row P (resets (db w))))
  | InviteFind P => (w, Ok (find_row P (invites (db w))))
  | InviteFindMany P => (w, Ok (find_rows P (invites (db w))))
  | TokenMatch P => (w, Ok (matching P (db w)))
  | TokenPatch ids P f => let '(d, n) := patch_tokens ids P f (db w) in (with_db d w, n)
  | TokenDeleteMany P =>
      (with_db (set_tokens (filter (fun kv => P kv.2 = false) (tokens (db w))) (db w)) w,
       Ok (Z.of_nat (size (filter (fun kv => P kv.2 = true) (tokens (db w))))))
  | Transaction body =>
      match body (next_id w) (db w) with
      | (d, Ok a) => (commit (next_id w) d w, Ok a)
      | (_, Throw m) => (w, Throw m)
      end
  end.

Lemma auth_handle_sem i e w : auth_sem toy_bcrypt toy_argon i e w (auth_handle e w).1 (auth_handle e w).2.
Proof.
  destruct e; simpl; unfold answers, writes; auto.
  - split; [done|]. left. exists ("bcrypt:" +:+ password). split; [done|]. apply String.eqb_refl.
  - split; [done|]. left. exists ("argon:" +:+ token). split; [done|]. apply String.eqb_refl.
  - left. exists (next_id w). split; [eapply lookup_gset_to_gmap_None, fresh_string_fresh|].
    by destruct (body (next_id w) (db w)) as [d [a|m]].
Qed.

Definition bob : UserRow := {|
  usr_id := "u1"; usr_email := "bob@x.com"; usr_passwordHash := "bcrypt:secret12"; usr_role := USER;
  usr_isActive := true; usr_botEnabled := true; usr_presetKey := BALANCED;
  usr_lastLoginAt := None; usr_pausedAt := None |}.
Definition w0 : World := {|
  db := {| users := {[ "u1" := bob ]}; tokens := ∅; resets := ∅; invites := ∅ |};
  drawn := {[ "u1" ]}; login_of := ∅ |}.

Definition bob_login : AuthProg unit := detached (login toy_sha toy_bcrypt toy_sign "bob@x.com" "secret12" None).
Definition bob_refresh (t : string) : AuthProg unit := detached (refresh toy_sha toy_sign t None).
Definition run (sched : list nat) (ps : list (AuthProg unit)) (w : World) : Pool :=
  turns auth_handle sched {| shared := w; threads := ps |}.

(** Bob signs in and his first token is presented twice at the same time. *)
Definition twice : list (AuthProg unit) := [bob_login; bob_refresh "token2"; bob_refresh "token2"].
Definition raced : Pool :=
  run (replicate 8 0%nat ++ [1; 2]%nat ++ replicate 8 1%nat ++ replicate 8 2%nat) twice w0.
Definition rows (w : World) : list (string * string * option string * bool) :=
  (fun kv => (kv.1, rt_tokenHash kv.2, rt_replacedById kv.2, active kv.2)) <$> map_to_list (tokens (db w)).

Lemma twice_reachable sched : rtc (pstep (auth_sem toy_bcrypt toy_argon)
    (request toy_sha toy_bcrypt toy_argon None toy_sign))
  {| shared := w0; threads := [] |} (run sched twice w0).
Proof.
  etrans; [|apply turns_steps, auth_handle_sem]. apply start_all.
  repeat constructor.
Qed.

(** Bob signed in, and then his token presented twice with no sign-in under way. *)
Definition signed_in : Pool := run (replicate 8 0%nat) [bob_login] w0.
Definition raced_later : Pool :=
  run ([0; 1]%nat ++ replicate 8 0%nat ++ replicate 8 1%nat) [bob_refresh "token2"; bob_refresh "token2"] (shared signed_in).
Lemma signed_in_reachable : rtc (pstep (auth_sem toy_bcrypt toy_argon)
    (request toy_sha toy_bcrypt toy_argon None toy_sign))
  {| shared := w0; threads := [] |} signed_in.
Proof. etrans; [|apply turns_steps, auth_handle_sem]. apply start_all. repeat constructor. Qed.
Lemma raced_later_reachable : rtc (pstep (auth_sem toy_bcrypt toy_argon)
    (renewing toy_sha toy_argon None toy_sign))
  {| shared := shared signed_in; threads := [] |} raced_later.
Proof. etrans; [|apply turns_steps, auth_handle_sem]. apply start_all. repeat constructor. Qed.

(** The race leaves one active token, the successor of the one presented twice, and it
    belongs to the login of the token Bob signed in with. *)
Lemma one_active_token_per_login_witness :
  rows (shared signed_in) = [("id0", "sha:token2", None, true)]%string /\
  rows (shared raced_later) = [("id1", "sha:token3", None, true); ("id0", "sha:token2", Some "id1", false)]%string /\
  one_per_login (shared raced) /\
  exists l id0, usable (shared raced_later) l "id1" /\ usable (shared signed_in) l id0.
Proof.
  split; [vm_compute; reflexivity|]. split; [vm_compute; reflexivity|].
  destruct (one_active_token_per_login toy_sha toy_bcrypt toy_argon None toy_sign w0 raced
              eq_refl eq_refl (twice_reachable _)) as [Hone _].
  split; [exact Hone|].
  destruct (tokens (db (shared raced_later)) !! "id1"%string) as [r|] eqn:E; [|vm_compute in E; discriminate].
  assert (R : rt_revokedAt r = None) by (revert E; vm_compute; intros [= <-]; reflexivity).
  destruct (one_active_token_per_login toy_sha toy_bcrypt toy_argon None toy_sign w0 signed_in
              eq_refl eq_refl signed_in_reachable) as [_ Hlater].
  exact (proj2 (Hlater _ raced_later_reachable) _ r E R).
Defined.

(** The stolen token is presented once more. *)
Definition reused : World * Res (IssuedToken * string) :=
  execute auth_handle (rotate toy_sha "token2" None) (shared raced).

Lemma reuse_ends_sessions_witness :
  rows (shared raced) = [("id1", "sha:token3", None, true); ("id0", "sha:token2", Some "id1", false)]%string /\
  exists r, tokens (db reused.1) !! "id1"%string = Some r /\ rt_revokedAt r <> None.
Proof.
  split; [vm_compute; reflexivity|].
  destruct (find_row (with_hash toy_sha "token2") (tokens (db (shared raced)))) as [row|] eqn:E;
    [|vm_compute in E; discriminate].
  destruct (tokens (db reused.1) !! "id1"%string) as [r|] eqn:Er; [|vm_compute in Er; discriminate].
  exists r. split; [reflexivity|].
  refine (proj1 (reuse_ends_sessions toy_sha toy_bcrypt toy_argon None toy_sign w0 raced 0 "token2" None row reused.1
    eq_refl eq_refl (twice_reachable _) E _ _) "id1"%string r Er _).
  - revert E. vm_compute. intros [= <-]. discriminate.
  - assert (H : reused.2 = Throw UNAUTHORIZED) by (vm_compute; reflexivity).
    pose proof (execute_alone auth_handle _ auth_handle_sem 0 (rotate toy_sha "token2" None) (shared raced)) as Ha.
    change (alone (auth_sem toy_bcrypt toy_argon) 0 (rotate toy_sha "token2" None) (shared raced) reused.1 reused.2) in Ha.
    rewrite H in Ha. exact Ha.
  - revert E Er. vm_compute. intros [= <-] [= <-]. reflexivity.
Defined.

(** When the genuine token is rotated between the snapshot of [revokeAllForUser] and its
    write, the new token is not in the snapshot and survives. *)
Lemma rotation_survives_reuse_detection :
  let c := run ([0; 0; 0]%nat ++ replicate 8 1%nat ++ replicate 8 0%nat)
               [bob_refresh "token2"; bob_refresh "token3"] (shared raced) in
  rows (shared c) = [("id1", "sha:token3", Some "id2", false); ("id2", "sha:token4", None, true);
                     ("id0", "sha:token2", Some "id1", false)]%string.
Proof. vm_compute. reflexivity. Qed.

(** ** Credentials *)
Definition good_login : list Event * Res (Session (Jwt := string)) :=
  trace_of auth_handle (login toy_sha toy_bcrypt toy_sign "bob@x.com" "secret12" None) w0.

Lemma sessions_need_credentials_witness :
  is_ok good_login.2 = true /\
  is_ok (execute auth_handle (login toy_sha toy_bcrypt toy_sign "bob@x.com" "wrong" None) w0).2 = false /\
  (forall s, good_login.2 = Ok s -> proven_by_password toy_bcrypt toy_sign good_login.1 "bob@x.com" "secret12" s).
Proof.
  split; [vm_compute; reflexivity|]. split; [vm_compute; reflexivity|].
  exact (proj1 (wp_runs _ _) (proj1 (sessions_need_credentials toy_sha toy_bcrypt toy_sign "bob@x.com" "secret12" "" None))
           _ _ (trace_of_runs auth_handle _ w0)).
Defined.

Definition invited : World := (execute auth_handle (create None " Ann@x.com" "u1" DEFAULT_EXPIRY_DAYS) w0).1.
Definition ann_accepts : list Event * Res (Session (Jwt := string)) :=
  trace_of auth_handle (accept toy_sha toy_argon toy_sign "token1" "pass1234" BALANCED None) invited.

Lemma accept_honours_invitation_witness :
  (ss_user <$> match ann_accepts.2 with Ok s => Some s | Throw _ => None end) = Some ("id0", "ann@x.com", USER)%string /\
  (forall s, ann_accepts.2 = Ok s -> exists i h now u,
      invited_by toy_argon ann_accepts.1 "token1" i /\ answered ann_accepts.1 (BcryptHash "pass1234") (Ok h) /\
      answered ann_accepts.1 (Transaction (accept_body i h BALANCED now)) (Ok u) /\
      s = session_of toy_sign u (ss_refreshToken s)).
Proof.
  split; [vm_compute; reflexivity|].
  exact (proj1 (wp_runs _ _) (accept_honours_invitation toy_sha toy_argon toy_sign "token1" "pass1234" BALANCED None)
           _ _ (trace_of_runs auth_handle _ invited)).
Defined.
