(* ===== verification/MarketTypes.v ===== *)
(** * Market data: tables and effects

    The Candle, Indicator, SupportResistanceLevel, SpreadSnapshot, EconomicEvent,
    RiskState and RiskConfig tables (libs/prisma/schema.prisma), the data objects of
    libs/common/src/dto.ts and the effects that the services of src/market-data, src/risk
    and the first-generation strategy (src/strategy/strategy.service.ts) await. *)
From Stdlib Require Import SpecFloat.
From S2P Require Import Prelude Async JsNum JsDate Types.

Definition SYMBOL : string := "XAUUSD".

(** ** Rows *)
Record CandleRow := {
  cd_symbol : string; cd_timeframe : string; cd_openTime : Z;
  cd_open : num; cd_high : num; cd_low : num; cd_close : num; cd_volume : num }.
Definition candle_key (r : CandleRow) : string * string * Z := (cd_symbol r, cd_timeframe r, cd_openTime r).

Record IndicatorRow := {
  in_symbol : string; in_timeframe : string; in_openTime : Z; in_name : string; in_value : num }.

Inductive SRType := SUPPORT | RESISTANCE.
#[export] Instance SRType_eq_dec : EqDecision SRType.
Proof. solve_decision. Defined.
Record LevelRow := {
  lv_symbol : string; lv_timeframe : string; lv_price : num; lv_type : SRType;
  lv_strength : Z; lv_isActive : bool }.

Record EventRow := { ev_title : string; ev_country : string; ev_impact : string; ev_time : Z }.

Record RiskStateRow := {
  rk_id : string; rk_date : Z; rk_dailyPnl : num; rk_consecutiveLosses : Z;
  rk_openPositionCount : Z; rk_dailyLossLimitHit : bool; rk_consecutiveLossLimitHit : bool }.
Record RiskConfigRow := {
  rc_maxDailyLossPercent : num; rc_maxOpenPositions : Z; rc_maxConsecutiveLosses : Z;
  rc_riskPerTradePercent : num; rc_maxSpreadPoints : num }.

(** ** Data objects *)
Record AccountInfoDto := {
  ac_balance : num; ac_equity : num; ac_margin : num; ac_freeMargin : num; ac_openPositions : Z }.

Inductive SetupTag :=
| BOS | PULLBACK_EMA20 | PULLBACK_EMA50 | ENGULFING | STRONG_CLOSE | RSI_ALIGNED | H1_BIAS_ALIGNED.
#[export] Instance SetupTag_eq_dec : EqDecision SetupTag.
Proof. solve_decision. Defined.

Record CandidateTradeDto := {
  ct_symbol : string; ct_side : Side; ct_entryPrice : num; ct_slPrice : num; ct_tpPrice : num;
  ct_slPoints : num; ct_tpPoints : num; ct_setupTags : list SetupTag; ct_h1Bias : D1Bias;
  ct_rsiValue : num; ct_atrValue : num; ct_spreadAtDetection : num; ct_timeframe : string }.

Inductive CandidateStatus := CandApproved | CandRejected.
(** The decision of the language-model filter and its reasoning. *)
Record LlmDecision := { ll_allow : bool; ll_reasoning : string }.

Record LegacyOrder := {
  lo_symbol : string; lo_side : Side; lo_lotSize : num; lo_entryPrice : num;
  lo_slPrice : num; lo_tpPrice : num; lo_comment : string }.

(** ** Effects *)
Inductive MktAct :=
| MClock
| HttpCandles (sym tf : string) (count : Z)
| HttpAccount
| HttpOrder (o : LegacyOrder)
| CandleCreateMany (rows : list CandleRow)
| CandleFindMany (where_ : CandleRow -> bool) (asc : bool) (take_ : option nat)
| IndicatorUpsert (row : IndicatorRow)
| IndicatorLatest (sym tf : string)
| LevelDeactivate (where_ : LevelRow -> bool)
| LevelCreate (row : LevelRow)
| LevelFindMany (where_ : LevelRow -> bool)
| SpreadFindMany (since : Z)
| EventFindMany (where_ : EventRow -> bool)
| RiskConfigCount
| RiskConfigCreate (row : RiskConfigRow)
| RiskConfigLatest
| RiskStateFind (date : Z)
| RiskStateCreate (date losses : Z)
| RiskStateUpdate (id : string) (data : RiskStateRow -> RiskStateRow)
| CandidateCreate (c : CandidateTradeDto)
| CandidateUpdate (id : string) (s : CandidateStatus)
| LlmValidate (id : string) (c : CandidateTradeDto)
| LegacyTradeCreate (candidateId : string) (ticket : Z) (o : LegacyOrder)
| MPublish (channel payload : string)
| Heartbeat (key : string).

Definition mkt_result (e : MktAct) : Type :=
  match e with
  | MClock => Z
  | HttpCandles _ _ _ => Res (list BacktestCandle)
  | HttpAccount => Res AccountInfoDto
  | HttpOrder _ => Res Z
  | CandleCreateMany _ => Res Z
  | CandleFindMany _ _ _ => Res (list CandleRow)
  | IndicatorUpsert _ => Res unit
  | IndicatorLatest _ _ => Res (list IndicatorRow)
  | LevelDeactivate _ | LevelCreate _ => Res unit
  | LevelFindMany _ => Res (list LevelRow)
  | SpreadFindMany _ => Res (list num)
  | EventFindMany _ => Res (list EventRow)
  | RiskConfigCount => Res Z
  | RiskConfigCreate _ => Res unit
  | RiskConfigLatest => Res (option RiskConfigRow)
  | RiskStateFind _ => Res (option RiskStateRow)
  | RiskStateCreate _ _ => Res RiskStateRow
  | RiskStateUpdate _ _ => Res unit
  | CandidateCreate _ => Res string
  | CandidateUpdate _ _ => Res unit
  | LlmValidate _ _ => Res LlmDecision
  | LegacyTradeCreate _ _ _ => Res unit
  | MPublish _ _ | Heartbeat _ => Res unit
  end.

Definition MktProg (A : Type) : Type := @Prog MktAct mkt_result A.
Definition MktAsync (A : Type) : Type := @Async MktAct mkt_result A.
Definition mkt_now : MktAsync Z := @ask MktAct mkt_result MClock.
Definition ask_mkt (e : MktAct) : MktProg (mkt_result e) := perform e.

(** ** What the effects do

    [mk_orders] and [mk_candidates] are the orders sent and the candidates created so
    far. *)
Record Market := {
  mk_clock : Z;
  mk_candles : gmap (string * string * Z) CandleRow;
  mk_indicators : list IndicatorRow;
  mk_riskStates : gmap string RiskStateRow;
  mk_candidates : list CandidateTradeDto;
  mk_orders : list LegacyOrder }.

Definition at_clock (t : Z) (w : Market) : Market := {|
  mk_clock := t; mk_candles := mk_candles w; mk_indicators := mk_indicators w;
  mk_riskStates := mk_riskStates w; mk_candidates := mk_candidates w; mk_orders := mk_orders w |}.
Definition with_candles (x : gmap (string * string * Z) CandleRow) (w : Market) : Market := {|
  mk_clock := mk_clock w; mk_candles := x; mk_indicators := mk_indicators w;
  mk_riskStates := mk_riskStates w; mk_candidates := mk_candidates w; mk_orders := mk_orders w |}.
Definition with_indicators (x : list IndicatorRow) (w : Market) : Market := {|
  mk_clock := mk_clock w; mk_candles := mk_candles w; mk_indicators := x;
  mk_riskStates := mk_riskStates w; mk_candidates := mk_candidates w; mk_orders := mk_orders w |}.
Definition with_riskStates (x : gmap string RiskStateRow) (w : Market) : Market := {|
  mk_clock := mk_clock w; mk_candles := mk_candles w; mk_indicators := mk_indicators w;
  mk_riskStates := x; mk_candidates := mk_candidates w; mk_orders := mk_orders w |}.
Definition with_candidate (c : CandidateTradeDto) (w : Market) : Market := {|
  mk_clock := mk_clock w; mk_candles := mk_candles w; mk_indicators := mk_indicators w;
  mk_riskStates := mk_riskStates w; mk_candidates := mk_candidates w ++ [c]; mk_orders := mk_orders w |}.
Definition with_order (o : LegacyOrder) (w : Market) : Market := {|
  mk_clock := mk_clock w; mk_candles := mk_candles w; mk_indicators := mk_indicators w;
  mk_riskStates := mk_riskStates w; mk_candidates := mk_candidates w; mk_orders := mk_orders w ++ [o] |}.

(** [createMany] with [skipDuplicates]: a row whose key exists is skipped. *)
Definition insert_new (m : gmap (string * string * Z) CandleRow) (r : CandleRow) : gmap (string * string * Z) CandleRow :=
  match m !! candle_key r with Some _ => m | None => <[candle_key r := r]> m end.
Definition create_candles (rows : list CandleRow) (m : gmap (string * string * Z) CandleRow) :=
  foldl insert_new m rows.

(** [findMany] ordered by [openTime]. *)
Definition by_openTime (asc : bool) (a b : CandleRow) : bool :=
  if asc then cd_openTime a <=? cd_openTime b else cd_openTime b <=? cd_openTime a.
Definition take_opt {A} (n : option nat) (l : list A) : list A := match n with Some n => take n l | None => l end.
Definition find_candles (P : CandleRow -> bool) (asc : bool) (n : option nat)
    (m : gmap (string * string * Z) CandleRow) : list CandleRow :=
  take_opt n (sort_by (by_openTime asc) (map_to_list (filter (fun kv => P kv.2 = true) m)).*2).

Definition replies {A} (a : A) (w w' : Market) (x : Res A) : Prop := w' = w /\ (x = Ok a \/ exists e, x = Throw e).
Definition stores {A} (v : Market) (P : A -> Prop) (w w' : Market) (x : Res A) : Prop :=
  (w' = v /\ exists a, x = Ok a /\ P a) \/ (w' = w /\ exists e, x = Throw e).

(** The execution service answers with candles of the symbol and timeframe it was asked
    for. *)
Definition mkt_sem (_ : nat) (e : MktAct) (w w' : Market) : mkt_result e -> Prop :=
  match e return mkt_result e -> Prop with
  | MClock => fun t => mk_clock w <= t /\ w' = at_clock t w
  | HttpCandles sym tf _ => fun x => w' = w /\
      forall l, x = Ok l -> Forall (fun c => c_symbol c = sym /\ timeframe c = tf) l
  | HttpOrder o => fun _ => w' = with_order o w
  | CandleCreateMany rows => fun x =>
      stores (with_candles (create_candles rows (mk_candles w)) w)
        (fun n => n = Z.of_nat (size (create_candles rows (mk_candles w))) - Z.of_nat (size (mk_candles w))) w w' x
  | CandleFindMany P asc n => fun x => replies (find_candles P asc n (mk_candles w)) w w' x
  | IndicatorUpsert row => fun x => stores (with_indicators (mk_indicators w ++ [row]) w) (fun _ => True) w w' x
  | IndicatorLatest sym tf => fun x => w' = w /\
      forall l, x = Ok l -> Forall (fun r => r ∈ mk_indicators w /\ in_symbol r = sym /\ in_timeframe r = tf) l
  | RiskStateFind d => fun x => w' = w /\
      forall o, x = Ok o -> o = (map_to_list (filter (fun kv => rk_date kv.2 = d) (mk_riskStates w))).*2 !! 0%nat
  | RiskStateCreate d l => fun x =>
      (exists id, mk_riskStates w !! id = None /\
         let r := {| rk_id := id; rk_date := d; rk_dailyPnl := of_Z 0; rk_consecutiveLosses := l;
                     rk_openPositionCount := 0; rk_dailyLossLimitHit := false; rk_consecutiveLossLimitHit := false |} in
         w' = with_riskStates (<[id := r]> (mk_riskStates w)) w /\ x = Ok r)
      \/ (w' = w /\ exists e, x = Throw e)
  | RiskStateUpdate id f => fun x =>
      stores (with_riskStates (alter f id (mk_riskStates w)) w) (fun _ => True) w w' x
  | CandidateCreate c => fun x => stores (with_candidate c w) (fun _ => True) w w' x
  | _ => fun _ => w' = w
  end.
