(* ===== verification/MarketData.v ===== *)
(** * Market data

    src/market-data: candles and support and resistance levels. *)
From Stdlib Require Import SpecFloat.
From S2P Require Import Prelude Async JsNum JsDate Types MarketTypes.
Section candles.
(** [STRATEGY_PAIRS] of the environment. *)
Context (STRATEGY_PAIRS : option string).
Local Open Scope async_scope.

Definition TIMEFRAME_MS (tf : string) : option Z :=
  if bool_decide (tf = "M1"%string) then Some 60000
  else if bool_decide (tf = "M5"%string) then Some (5 * 60000)
  else if bool_decide (tf = "M15"%string) then Some (15 * 60000)
  else if bool_decide (tf = "H1"%string) then Some (60 * 60000)
  else if bool_decide (tf = "H4"%string) then Some (4 * 60 * 60000)
  else if bool_decide (tf = "D1"%string) then Some (24 * 60 * 60000)
  else None.

Definition parse_pairs (csv : string) : list string :=
  filter (fun s => truthy_string s = true) ((fun s => toUpperCase (trim s)) <$> split_comma csv).
Definition pairs : list string :=
  parse_pairs (match STRATEGY_PAIRS with Some s => if truthy_string s then s else SYMBOL | None => SYMBOL end).

(** [candles.filter((c) => Date.now() >= new Date(c.openTime).getTime() + tfMs)]: the clock
    is read for every bar, and a bar without a readable time is dropped. *)
Definition has_closed (now tfMs : Z) (c : BacktestCandle) : bool :=
  match Date_parse (openTime c) with Some t => t + tfMs <=? now | None => false end.
Definition closed_only (tfMs : Z) (l : list BacktestCandle) : MktAsync (list BacktestCandle) :=
  fold_each (fun acc c => now <~ mkt_now ;; resolve (if has_closed now tfMs c then acc ++ [c] else acc)) l [].

Definition candle_row (c : BacktestCandle) : option CandleRow :=
  match Date_parse (openTime c) with
  | Some t => Some {| cd_symbol := c_symbol c; cd_timeframe := timeframe c; cd_openTime := t;
                      cd_open := open c; cd_high := high c; cd_low := low c; cd_close := close c;
                      cd_volume := volume c |}
  | None => None
  end.

(** [createMany] of a non-empty list; an invalid date is refused by the client. *)
Definition store (closed : list BacktestCandle) : MktAsync bool :=
  match closed with
  | [] => resolve false
  | _ => match mapM candle_row closed with
         | Some rows => count <~ (ask_mkt (CandleCreateMany rows) : MktAsync _) ;; resolve (0 <? count)
         | None => reject "PrismaClientValidationError"
         end
  end.

Definition fetchAndStoreCandles (symbol timeframe : string) (count : Z) : MktAsync unit :=
  try_catch
    (candles <~ (ask_mkt (HttpCandles symbol timeframe count) : MktAsync _) ;;
     let tfMs := default 0 (TIMEFRAME_MS timeframe) in
     closed <~ (if 0 <? tfMs then closed_only tfMs candles else resolve candles) ;;
     newCandleStored <~ store closed ;;
     await! (if newCandleStored && bool_decide (timeframe = "M15"%string)
             then (ask_mkt (MPublish "candle:stored" symbol) : MktAsync _) else resolve tt) ;;
     (ask_mkt (Heartbeat ("live:cron:last-poll:" +:+ symbol +:+ ":" +:+ timeframe)) : MktAsync _))
    (fun _ => resolve tt).

(** [Math.max(...l)] and [Math.min(...l)] *)
Definition max_of (l : list num) : num := foldl Math_max neg_Infinity l.
Definition min_of (l : list num) : num := foldl Math_min Infinity l.

(** The D1 bar of a day's H1 bars. *)
Definition daily_bar (symbol : string) (dayStart : Z) (first last : CandleRow) (h1 : list CandleRow) : CandleRow := {|
  cd_symbol := symbol; cd_timeframe := "D1"; cd_openTime := dayStart;
  cd_open := cd_open first; cd_high := max_of (cd_high <$> h1); cd_low := min_of (cd_low <$> h1);
  cd_close := cd_close last; cd_volume := nsum (of_Z 0) (cd_volume <$> h1) |}.

(** [Date.UTC(year, month, day - 1)] of the UTC fields of [now]: midnight of the day before. *)
Definition yesterday (now : Z) : Z := (day_of now - 1) * ms_day.
Definition hours_of_day (symbol : string) (dayStart dayEnd : Z) (r : CandleRow) : bool :=
  bool_decide (cd_symbol r = symbol) && bool_decide (cd_timeframe r = "H1"%string) &&
  (dayStart <=? cd_openTime r) && (cd_openTime r <? dayEnd).

Definition resampleH1ToD1 (symbol : string) : MktAsync unit :=
  now <~ mkt_now ;;
  let dayStart := yesterday now in
  let dayEnd := dayStart + 24 * 60 * 60000 in
  h1 <~ (ask_mkt (CandleFindMany (hours_of_day symbol dayStart dayEnd) true None) : MktAsync _) ;;
  match h1, last h1 with
  | first :: _, Some lst =>
      await! (ask_mkt (CandleCreateMany [daily_bar symbol dayStart first lst h1]) : MktAsync _) ;;
      (ask_mkt (Heartbeat ("live:cron:last-poll:" +:+ symbol +:+ ":D1")) : MktAsync _)
  | _, _ => resolve tt
  end.

(** The fetches of all pairs advance in the order [sched] gives. *)
Definition pollCandles (sched : list nat) : MktAsync unit :=
  pbind (par_all sched
           (concat ((fun symbol => [fetchAndStoreCandles symbol "M15" 5; fetchAndStoreCandles symbol "H1" 3]) <$> pairs)))
    (fun _ => for_each (fun symbol => swallow (resampleH1ToD1 symbol)) pairs).

(** [toISOString] of a stored time always answers. *)
Definition candle_dto (r : CandleRow) : BacktestCandle := {|
  c_symbol := cd_symbol r; timeframe := cd_timeframe r; openTime := toISOString (cd_openTime r);
  open := cd_open r; high := cd_high r; low := cd_low r; close := cd_close r; volume := cd_volume r |}.
Definition of_timeframe (tf : string) (r : CandleRow) : bool :=
  bool_decide (cd_symbol r = SYMBOL) && bool_decide (cd_timeframe r = tf).
Definition getRecentCandles (tf : string) (count : nat) : MktAsync (list BacktestCandle) :=
  candles <~ (ask_mkt (CandleFindMany (of_timeframe tf) false (Some count)) : MktAsync _) ;;
  resolve (candle_dto <$> reverse candles).
End candles.

(** * Indicators, levels, spreads and events in the database

    src/market-data/indicator.service.ts, sr-level.service.ts, spread.service.ts and the
    risk window of economic-calendar.service.ts, for the one symbol they serve. *)
From Stdlib Require Import SpecFloat.
From S2P Require Import Prelude Async JsNum JsDate Types Indicators MarketTypes.
Local Open Scope num_scope.

Section levels.
Context {T : TechnicalIndicators}.
Local Open Scope async_scope.

(** ** IndicatorService *)

(** The last value of each indicator, [undefined] when the package returned none. *)
Definition latest_values (candles : list BacktestCandle) : list (string * option num) :=
  let closes := close <$> candles in
  [("EMA20"%string, last (EMA 20 closes)); ("EMA50"%string, last (EMA 50 closes));
   ("EMA200"%string, last (EMA 200 closes)); ("RSI14"%string, last (RSI 14 closes));
   ("ATR14"%string, last (ATR 14 (high <$> candles) (low <$> candles) closes))].

Definition indicator_row (tf : string) (t : Z) (name : string) (v : num) : IndicatorRow := {|
  in_symbol := SYMBOL; in_timeframe := tf; in_openTime := t; in_name := name; in_value := v |}.

Definition computeAndStore (tf : string) : MktAsync unit :=
  candles <~ getRecentCandles tf 250 ;;
  if (length candles <? 200)%nat then resolve tt
  else
    match last candles with
    | Some lastCandle =>
        match Date_parse (openTime lastCandle) with
        | Some t =>
            for_each (fun ind => match ind.2 with
                                 | None => resolve tt
                                 | Some v => (ask_mkt (IndicatorUpsert (indicator_row tf t ind.1 v)) : MktAsync _)
                                 end) (latest_values candles)
        | None => reject "PrismaClientValidationError"
        end
    | None => resolve tt
    end.

(** The object filled row by row: a later row of the same name overwrites. *)
Definition getLatestIndicators (tf : string) : MktAsync (gmap string num) :=
  indicators <~ (ask_mkt (IndicatorLatest SYMBOL tf) : MktAsync _) ;;
  resolve (foldl (fun m r => <[in_name r := in_value r]> m) ∅ indicators).

Record MarketSnapshot := {
  sn_currentPrice : num; sn_ema20 : num; sn_ema50 : num; sn_ema200 : num; sn_rsi14 : num;
  sn_atr14 : num; sn_lastCandle : option BacktestCandle }.

Definition or0 (o : option num) : num := default (of_Z 0) o.

Definition getMarketSnapshot : MktAsync MarketSnapshot :=
  candles <~ getRecentCandles "M15" 1 ;;
  let lastCandle := candles !! 0%nat in
  ind <~ getLatestIndicators "M15" ;;
  resolve {| sn_currentPrice := or0 (close <$> lastCandle); sn_ema20 := or0 (ind !! "EMA20"%string);
             sn_ema50 := or0 (ind !! "EMA50"%string); sn_ema200 := or0 (ind !! "EMA200"%string);
             sn_rsi14 := or0 (ind !! "RSI14"%string); sn_atr14 := or0 (ind !! "ATR14"%string);
             sn_lastCandle := lastCandle |}.

(** ** SRLevelService *)

(** The turning points of three bars: the middle one stands out. *)
Definition swing_at (f : num -> num -> bool) (g : BacktestCandle -> num) (candles : list BacktestCandle) (i : Z) : list num :=
  match zlookup candles (i - 1), zlookup candles i, zlookup candles (i + 1) with
  | Some prev, Some curr, Some next => if f (g curr) (g prev) && f (g curr) (g next) then [g curr] else []
  | _, _, _ => []
  end.
Definition swing_highs (candles : list BacktestCandle) : list num :=
  concat (swing_at (fun a b => a >? b) high candles <$> up_from 1 (zlen candles - 2)%Z).
Definition swing_lows (candles : list BacktestCandle) : list num :=
  concat (swing_at (fun a b => a <? b) low candles <$> up_from 1 (zlen candles - 2)%Z).

Record Cluster := { cl_prices : list num; cl_sum : num }.
Definition join (p : num) (c : Cluster) : Cluster := {| cl_prices := cl_prices c ++ [p]; cl_sum := cl_sum c + p |}.
Definition start (p : num) : Cluster := {| cl_prices := [p]; cl_sum := p |}.
Definition near (threshold : num) (c : Cluster) (p : num) : bool :=
  p - cl_sum c / of_Z (zlen (cl_prices c)) <=? threshold.

(** The loop over the sorted prices; [cur] is [currentCluster]. *)
Fixpoint cluster_from (threshold : num) (cur : Cluster) (l : list num) : list Cluster :=
  match l with
  | [] => [cur]
  | p :: l' => if near threshold cur p then cluster_from threshold (join p cur) l'
               else cur :: cluster_from threshold (start p) l'
  end.
Definition clusters (threshold : num) (prices : list num) : list Cluster :=
  match sort_by (fun a b => negb (a - b >? of_Z 0)) prices with
  | [] => []
  | p :: l => cluster_from threshold (start p) l
  end.
Definition level_of (c : Cluster) : num * Z :=
  (Math_round (cl_sum c / of_Z (zlen (cl_prices c)) * of_Z 100) / of_Z 100, zlen (cl_prices c)).
Definition clusterLevels (prices : list num) (threshold : num) : list (num * Z) :=
  level_of <$> clusters threshold prices.

Definition level_row (type : SRType) (l : num * Z) : LevelRow := {|
  lv_symbol := SYMBOL; lv_timeframe := "H1"; lv_price := l.1; lv_type := type; lv_strength := l.2;
  lv_isActive := true |}.
Definition detectAndStoreLevels : MktAsync unit :=
  candles <~ getRecentCandles "H1" 100 ;;
  if (length candles <? 20)%nat then resolve tt
  else
    await! (ask_mkt (LevelDeactivate (fun l => bool_decide (lv_symbol l = SYMBOL) &&
                                               bool_decide (lv_timeframe l = "H1"%string))) : MktAsync _) ;;
    await! for_each (fun l => (ask_mkt (LevelCreate (level_row RESISTANCE l)) : MktAsync _))
             (clusterLevels (swing_highs candles) (of_Z 2)) ;;
    for_each (fun l => (ask_mkt (LevelCreate (level_row SUPPORT l)) : MktAsync _))
      (clusterLevels (swing_lows candles) (of_Z 2)).

(** [orderBy: { price: 'asc' }] *)
Definition getActiveLevels : MktAsync (list LevelRow) :=
  levels <~ (ask_mkt (LevelFindMany (fun l => bool_decide (lv_symbol l = SYMBOL) && lv_isActive l)) : MktAsync _) ;;
  resolve (sort_by (fun a b => lv_price a <=? lv_price b) levels).

Record StructureContext := { sx_h1Bias : D1Bias; sx_swingHighs : list num; sx_swingLows : list num }.
Definition prices_of (t : SRType) (levels : list LevelRow) : list num :=
  lv_price <$> last_n 5 (filter (fun l => lv_type l = t) levels).
Definition bias_of (e50 e200 : num) : D1Bias :=
  if e50 >? e200 then BULLISH else if e50 <? e200 then BEARISH else NEUTRAL.
Definition getStructureContext : MktAsync StructureContext :=
  h1 <~ getLatestIndicators "H1" ;;
  let bias := bias_of (or0 (h1 !! "EMA50"%string)) (or0 (h1 !! "EMA200"%string)) in
  levels <~ getActiveLevels ;;
  resolve {| sx_h1Bias := bias; sx_swingHighs := prices_of RESISTANCE levels; sx_swingLows := prices_of SUPPORT levels |}.

(** ** SpreadService *)
Record SpreadStats := { sp_current : num; sp_avg1h : num; sp_max1h : num; sp_isHigh : bool }.
(** The spreads of the last hour, newest first. *)
Definition spread_stats (spreads : list num) : SpreadStats :=
  match spreads with
  | [] => {| sp_current := of_Z 0; sp_avg1h := of_Z 0; sp_max1h := of_Z 0; sp_isHigh := false |}
  | current :: _ =>
      let avg := nsum (of_Z 0) spreads / of_Z (zlen spreads) in
      {| sp_current := current; sp_avg1h := Math_round (avg * of_Z 100) / of_Z 100;
         sp_max1h := max_of spreads; sp_isHigh := current >? of_Z 50 |}
  end.
Definition getSpreadStats : MktAsync SpreadStats :=
  now <~ mkt_now ;;
  snapshots <~ (ask_mkt (SpreadFindMany (now - 60 * 60 * 1000)%Z) : MktAsync _) ;;
  resolve (spread_stats snapshots).

(** ** EconomicCalendarService.getEconomicRisk *)
Record EconomicRisk := { er_events : list EventRow; er_isHigh : bool; er_minutes : option Z }.
(** [Math.round] of whole milliseconds over 60000. *)
Definition round_minutes (ms : Z) : Z := ((2 * ms + 60000) / 120000)%Z.
Definition getEconomicRisk : MktAsync EconomicRisk :=
  now <~ mkt_now ;;
  events <~ (ask_mkt (EventFindMany (fun e => (now <=? ev_time e)%Z && (ev_time e <=? now + 2 * 60 * 60 * 1000)%Z &&
                                              bool_decide (ev_impact e = "HIGH"%string))) : MktAsync _) ;;
  let upcoming := sort_by (fun a b => (ev_time a <=? ev_time b)%Z) events in
  let minutes := (fun e => round_minutes (ev_time e - now)) <$> upcoming !! 0%nat in
  resolve {| er_events := upcoming; er_isHigh := match minutes with Some m => (m <=? 30)%Z | None => false end;
             er_minutes := minutes |}.
End levels.
