(* ===== verification/CandleFacts.v ===== *)
(** * Theorems about candle ingestion

    Whatever methods of the candle service run side by side, the Candle table only grows,
    every bar that enters it has closed, and every D1 bar that enters it is the
    aggregate of H1 bars of its UTC day that are in the table. *)
From Stdlib Require Import SpecFloat.
From S2P Require Import Prelude Async JsNum JsDate Types MarketTypes MarketData NumFacts.

(** ** What the table gains *)

(** The bar is over at time [now]. *)
Definition closed_by (now : Z) (r : CandleRow) : Prop :=
  exists ms, TIMEFRAME_MS (cd_timeframe r) = Some ms /\ cd_openTime r + ms <= now.

(** [h] is an H1 bar of the symbol in the 24 hours from [d]. *)
Definition hour_from (sym : string) (d : Z) (h : CandleRow) : Prop :=
  cd_symbol h = sym /\ cd_timeframe h = "H1"%string /\ d <= cd_openTime h < d + 24 * 60 * 60000.
#[export] Instance hour_from_dec sym d h : Decision (hour_from sym d h).
Proof. unfold hour_from. apply _. Defined.

(** [r] is the daily bar of a UTC day: it opens at midnight and aggregates, in time order, all
    the H1 bars of the day that were in some state [m0] of the table, not before [base] and not
    after [m]. *)
Record aggregated (base m : gmap (string * string * Z) CandleRow) (r : CandleRow) : Prop := {
  ag_midnight : cd_openTime r mod ms_day = 0;
  ag_hours : exists m0 first lst h1, base ⊆ m0 /\ m0 ⊆ m /\
    h1 ≡ₚ (map_to_list (filter (fun kv => hour_from (cd_symbol r) (cd_openTime r) kv.2) m0)).*2 /\
    StronglySorted (fun a b => cd_openTime a <= cd_openTime b) h1 /\
    head h1 = Some first /\ last h1 = Some lst /\
    cd_open r = cd_open first /\ cd_close r = cd_close lst /\ cd_high r = max_of (cd_high <$> h1) /\
    cd_low r = min_of (cd_low <$> h1) /\ cd_volume r = nsum (of_Z 0) (cd_volume <$> h1);
}.

Section ingestion.
(** The table the requests start from. *)
Context (base : gmap (string * string * Z) CandleRow).

Definition entered (w : Market) (r : CandleRow) : Prop :=
  closed_by (mk_clock w) r /\ (cd_timeframe r = "D1"%string -> aggregated base (mk_candles w) r).

(** Time goes on, no row is changed or lost, and the new ones are as above. *)
Record table_grows (w w' : Market) : Prop := {
  tg_clock : mk_clock w <= mk_clock w';
  tg_kept : mk_candles w ⊆ mk_candles w';
  tg_new : forall k r, mk_candles w' !! k = Some r -> mk_candles w !! k = None -> entered w' r }.

Lemma closed_by_mono t t' r : t <= t' -> closed_by t r -> closed_by t' r.
Proof. intros Ht (ms & Hms & H). exists ms. split; [done|lia]. Qed.

Lemma aggregated_mono m m' r : m ⊆ m' -> aggregated base m r -> aggregated base m' r.
Proof.
  intros Hm [Hd (m0 & f & l & h1 & Hb & H0 & H)]. split; [done|]. exists m0, f, l, h1.
  split; [done|]. split; [by etrans|done].
Qed.

Lemma entered_mono w w' r : mk_clock w <= mk_clock w' -> mk_candles w ⊆ mk_candles w' -> entered w r -> entered w' r.
Proof.
  intros Ht Hm [Hc Ha]. split; [by eapply closed_by_mono|]. intros Hd. eapply aggregated_mono; [done|auto].
Qed.

#[export] Instance table_grows_po : PreOrder table_grows.
Proof.
  split.
  - intros w. split; [done|done|]. intros k r H1 H2. congruence.
  - intros w1 w2 w3 [A1 B1 D1] [A2 B2 D2]. split; [lia|by etrans|].
    intros k r H3 H1. destruct (mk_candles w2 !! k) as [r2|] eqn:E; [|eauto].
    assert (r2 = r) as -> by (pose proof (lookup_weaken _ _ _ _ E B2); congruence).
    eapply entered_mono; eauto.
Qed.

Lemma grows_same_table w w' : mk_clock w <= mk_clock w' -> mk_candles w' = mk_candles w -> table_grows w w'.
Proof. intros Ht Hm. split; [done|by rewrite Hm|]. intros k r. rewrite Hm. congruence. Qed.

(** ** Inserting *)
Lemma insert_new_lookup m r k x :
  insert_new m r !! k = Some x -> m !! k = Some x \/ (k = candle_key r /\ x = r /\ m !! k = None).
Proof.
  unfold insert_new. destruct (m !! candle_key r) as [y|] eqn:E; [auto|].
  destruct (decide (k = candle_key r)) as [->|Hne].
  - rewrite lookup_insert_eq. intros [= <-]. auto.
  - rewrite lookup_insert_ne by done. auto.
Qed.

Lemma insert_new_subseteq m r : m ⊆ insert_new m r.
Proof. unfold insert_new. destruct (m !! candle_key r) eqn:E; [done|]. by apply insert_subseteq. Qed.

Lemma create_candles_subseteq rows m : m ⊆ create_candles rows m.
Proof.
  unfold create_candles. revert m. induction rows as [|r rows IH]; intros m; simpl; [done|].
  etrans; [apply insert_new_subseteq|apply IH].
Qed.

Lemma create_candles_lookup rows m k x :
  create_candles rows m !! k = Some x -> m !! k = Some x \/ (x ∈ rows /\ k = candle_key x).
Proof.
  unfold create_candles. revert m. induction rows as [|r rows IH]; intros m; simpl; [auto|].
  intros [H|[H ->]]%IH.
  - apply insert_new_lookup in H as [H|(-> & -> & _)]; [auto|]. right. split; [left|done].
  - right. split; [by right|done].
Qed.

Lemma grows_create rows w :
  Forall (entered w) rows -> table_grows w (with_candles (create_candles rows (mk_candles w)) w).
Proof.
  intros Hr. split; simpl; [lia|apply create_candles_subseteq|].
  intros k r [H|[Hx _]]%create_candles_lookup Hn; [congruence|].
  apply (entered_mono w); simpl; [lia|apply create_candles_subseteq|].
  rewrite Forall_forall in Hr. auto.
Qed.

(** Every effect but a write of candles keeps the table. *)
Definition not_create (e : MktAct) : Prop := match e with CandleCreateMany _ => False | _ => True end.
Lemma sem_grows i e w w' x : not_create e -> mkt_sem i e w w' x -> table_grows w w'.
Proof.
  intros He H. apply grows_same_table; destruct e; simpl in *; unfold replies, stores in *;
    naive_solver lia.
Qed.

(** ** The methods *)
Ltac po := try match goal with |- PreOrder _ => apply _ end.
Notation gr := (grows mkt_sem table_grows).

Lemma gr_quiet {A} i (P : Market -> Prop) e (cast : mkt_result e -> Res A) :
  steady table_grows P -> not_create e ->
  gr i P (pbind (perform e) (fun x => Ret (cast x)) : MktAsync A) (fun _ _ => True).
Proof. intros HP He. apply grows_effect; po; [done|]. intros s s' x _ Hx. split; [by eapply sem_grows|done]. Qed.

Lemma gr_now i P : steady table_grows P ->
  gr i P mkt_now (fun t s => P s /\ t <= mk_clock s).
Proof.
  intros HP. apply (grows_effect mkt_sem table_grows i MClock (fun x => Ok x)); po; [done|].
  intros s s' x Hs Hx. pose proof (sem_grows i MClock s s' x I Hx) as Hg. split; [done|].
  intros a [= <-]. split; [by eapply HP|]. simpl in Hx. destruct Hx as [_ ->]. simpl. lia.
Qed.

Lemma steady_True : steady table_grows (fun _ => True).
Proof. done. Qed.
#[local] Hint Resolve steady_True : core.

(** A bar the filter keeps, while time goes on. *)
Definition kept_bar (tfMs : Z) (c : BacktestCandle) (w : Market) : Prop :=
  exists t, Date_parse (openTime c) = Some t /\ t + tfMs <= mk_clock w.

Lemma kept_bar_steady tfMs l : steady table_grows (fun w => Forall (fun c => kept_bar tfMs c w) l).
Proof.
  intros w w' H Hg. eapply Forall_impl; [exact H|]. intros c (t & Ht & Hle). exists t.
  split; [done|]. pose proof (tg_clock _ _ Hg). lia.
Qed.

Lemma gr_closed_only i tfMs l (Pc : BacktestCandle -> Prop) :
  Forall Pc l ->
  gr i (fun _ => True) (closed_only tfMs l) (fun l' w => Forall (fun c => kept_bar tfMs c w) l' /\ Forall Pc l').
Proof.
  intros Hl. rewrite Forall_forall in Hl. unfold closed_only.
  set (J := fun (l' : list BacktestCandle) w => Forall (fun c => kept_bar tfMs c w) l' /\ Forall Pc l').
  apply (grows_conseq mkt_sem table_grows i (J []) _ _ J J); [by repeat constructor|done|].
  apply (grows_fold_each mkt_sem table_grows). intros c acc Hc.
  eapply grows_await; po; [apply gr_now|].
  - intros w w' [H HP] Hg. split; [|done]. by eapply kept_bar_steady.
  - intros now. simpl. apply grows_resolve; po. intros w [[H HP] Hn].
    destruct (has_closed now tfMs c) eqn:E; [|done]. unfold has_closed in E.
    destruct (Date_parse (openTime c)) as [t|] eqn:Et; [|done]. apply Z.leb_le in E.
    unfold J in *. rewrite !Forall_app, !Forall_singleton. split_and!; auto. exists t. split; [done|lia].
Qed.

Lemma mapM_candle_rows l rows :
  mapM candle_row l = Some rows -> Forall2 (fun c r => candle_row c = Some r) l rows.
Proof. by rewrite mapM_Some. Qed.

Lemma gr_store i l tf ms :
  TIMEFRAME_MS tf = Some ms -> tf <> "D1"%string ->
  gr i (fun w => Forall (fun c => kept_bar ms c w) l /\ Forall (fun c => timeframe c = tf) l) (store l) (fun _ _ => True).
Proof.
  intros Hms Hd. unfold store. destruct l as [|c0 l0]; [by apply grows_resolve; po|].
  set (l := c0 :: l0). destruct (mapM candle_row l) as [rows|] eqn:E; [|apply grows_reject; po].
  apply mapM_candle_rows in E.
  eapply grows_await with (M := fun _ _ => True); po; [|intros n; by apply grows_resolve; po].
  apply (grows_effect mkt_sem table_grows i (CandleCreateMany rows) (fun x => x)); po.
  - intros w w' [H HP] Hg. split; [|done]. by eapply kept_bar_steady.
  - intros w w' x [H HP] Hx. split; [|done]. simpl in Hx. unfold stores in Hx.
    destruct Hx as [[-> _]|[-> _]]; [|reflexivity]. apply grows_create. clear -E H HP Hms Hd.
    induction E as [|c r l rows Hc E IH]; constructor.
    + inversion_clear H as [|? ? Hk _]. inversion_clear HP as [|? ? Htf _].
      destruct Hk as (t & Ht & Hle). unfold candle_row in Hc. rewrite Ht in Hc. injection Hc as <-.
      split; simpl; [|congruence]. exists ms. simpl. by rewrite Htf.
    + inversion_clear H. inversion_clear HP. by apply IH.
Qed.

Lemma gr_fetch i sym tf n :
  tf ∈ ["M1"; "M5"; "M15"; "H1"; "H4"]%string ->
  gr i (fun _ => True) (fetchAndStoreCandles sym tf n) (fun _ _ => True).
Proof.
  intros Htf. assert (exists ms, TIMEFRAME_MS tf = Some ms /\ 0 < ms /\ tf <> "D1"%string) as (ms & Hms & Hpos & Hd).
  { rewrite !elem_of_cons in Htf. destruct Htf as [->|[->|[->|[->|[->|[]%elem_of_nil]]]]]; by eexists. }
  unfold fetchAndStoreCandles. apply grows_try_catch; po; [|intros e; by apply grows_resolve; po].
  eapply grows_await with (M := fun l _ => Forall (fun c => timeframe c = tf) l); po.
  { apply (grows_effect mkt_sem table_grows i (HttpCandles sym tf n) (fun x => x)); po; [done|].
    intros w w' x _ Hx. split; [exact (sem_grows i (HttpCandles sym tf n) _ _ x I Hx)|]. simpl in Hx. destruct Hx as [_ Hx].
    intros l ->. eapply Forall_impl; [by apply Hx|]. by intros c [_ ?]. }
  intros l. rewrite Hms. simpl. destruct (Z.ltb_spec 0 ms); [|lia].
  apply grows_pure; po. intros Hl. eapply grows_await; po; [by apply (gr_closed_only i ms l (fun c => timeframe c = tf))|].
  intros closed. eapply grows_await; po; [by apply (gr_store i closed tf ms)|]. intros b.
  eapply grows_await with (M := fun _ _ => True); po.
  - destruct (_ && _)%bool; [|by apply grows_resolve; po].
    by apply (gr_quiet i _ (MPublish "candle:stored" sym) (fun x => x)).
  - intros []. by apply (gr_quiet i _ (Heartbeat _) (fun x => x)).
Qed.

Lemma find_hours sym d m :
  find_candles (hours_of_day sym d (d + 24 * 60 * 60000)) true None m ≡ₚ
  (map_to_list (filter (fun kv => hour_from sym d kv.2) m)).*2.
Proof using.
  unfold find_candles, take_opt. rewrite sort_by_perm.
  assert (E : filter (fun kv : string * string * Z * CandleRow =>
                hours_of_day sym d (d + 24 * 60 * 60000) kv.2 = true) m =
              filter (fun kv => hour_from sym d kv.2) m); [|by rewrite E].
  apply map_filter_ext. intros k h _. simpl.
  unfold hours_of_day, hour_from. rewrite !andb_true_iff, !bool_decide_eq_true, Z.leb_le, Z.ltb_lt. tauto.
Qed.

Lemma find_candles_sorted P m :
  StronglySorted (fun a b => cd_openTime a <= cd_openTime b) (find_candles P true None m).
Proof.
  assert (H : StronglySorted (fun a b => by_openTime true a b = true) (find_candles P true None m)).
  { apply sort_by_sorted; unfold by_openTime; intros *; rewrite ?Z.leb_le; lia. }
  induction H as [|x l Hl IH Hx]; constructor; [done|].
  eapply Forall_impl; [exact Hx|]. intros y. apply Z.leb_le.
Qed.

(** The H1 bars a query answered, while the table grows. *)
Definition read_hours (sym : string) (d : Z) (l : list CandleRow) (w : Market) : Prop :=
  StronglySorted (fun a b => cd_openTime a <= cd_openTime b) l /\
  exists m0, base ⊆ m0 /\ m0 ⊆ mk_candles w /\
    l ≡ₚ (map_to_list (filter (fun kv => hour_from sym d kv.2) m0)).*2.

Lemma read_hours_steady sym d l : steady table_grows (read_hours sym d l).
Proof using.
  intros w w' [Hs (m0 & Hb & H0 & H)] Hg. split; [done|]. exists m0. split; [done|]. split; [|done].
  etrans; [exact H0|apply Hg].
Qed.

(** The table holds what it held at the start. *)
Definition holds_base (w : Market) : Prop := base ⊆ mk_candles w.
Lemma holds_base_steady : steady table_grows holds_base.
Proof using. intros w w' H Hg. unfold holds_base. etrans; [exact H|apply Hg]. Qed.

Lemma gr_resample i sym : gr i holds_base (resampleH1ToD1 sym) (fun _ _ => True).
Proof using.
  unfold resampleH1ToD1. pose proof holds_base_steady as Hst.
  eapply grows_await; po; [by apply gr_now|]. intros now.
  eapply grows_await with (M := fun h1 w => read_hours sym (yesterday now) h1 w /\ now <= mk_clock w); po.
  - apply (grows_effect mkt_sem table_grows i (CandleFindMany _ _ _) (fun x => x)); po.
    { intros w w' [Hb H] Hg. split; [by eapply Hst|]. pose proof (tg_clock _ _ Hg). lia. }
    intros w w' x [Hb Hn] Hx. split; [exact (sem_grows i (CandleFindMany _ _ _) _ _ x I Hx)|].
    cbn [mkt_sem] in Hx. unfold replies in Hx. destruct Hx as [-> Hx]. intros l ->. split; [|done].
    destruct Hx as [Hx|[e Hx]]; [|done]. injection Hx as ->. split; [apply find_candles_sorted|].
    exists (mk_candles w). split; [done|]. split; [done|]. apply find_hours.
  - intros h1. destruct h1 as [|first h1]; [by apply grows_resolve; po|].
    destruct (last (first :: h1)) as [lst|] eqn:El; [|by apply grows_resolve; po].
    eapply grows_await with (M := fun _ _ => True); po.
    2:{ intros n. by apply (gr_quiet i _ (Heartbeat _) (fun x => x)). }
    apply (grows_effect mkt_sem table_grows i (CandleCreateMany _) (fun x => x)); po.
    { intros w w' [H Hn] Hg. split; [by eapply read_hours_steady|]. pose proof (tg_clock _ _ Hg). lia. }
    intros w w' x [[Hs (m0 & Hb & H0 & H)] Hn] Hx. split; [|done]. simpl in Hx.
    destruct Hx as [[-> _]|[-> _]]; [|reflexivity]. apply (grows_create [_]). constructor; [|constructor].
    split; simpl.
    + exists (24 * 60 * 60000). split; [done|]. simpl. unfold yesterday, day_of, ms_day.
      pose proof (Z.div_mod now 86400000). pose proof (Z.mod_pos_bound now 86400000). lia.
    + intros _. split; [by apply Z.mod_mul|]. exists m0, first, lst, (first :: h1). by split_and!.
Qed.

Section service.
Context (STRATEGY_PAIRS : option string).

Lemma gr_poll i sched : gr i holds_base (pollCandles STRATEGY_PAIRS sched) (fun _ _ => True).
Proof using.
  unfold pollCandles. apply grows_par_all; po; [apply holds_base_steady|..].
  - intros p Hp. apply list_elem_of_In, List.in_concat in Hp as (ps & Hps & Hp).
    apply list_elem_of_In, list_elem_of_fmap in Hps as (sym & -> & _).
    apply list_elem_of_In in Hp. rewrite !elem_of_cons in Hp.
    destruct Hp as [->|[->|[]%elem_of_nil]];
      (eapply (grows_conseq mkt_sem table_grows); [..|apply gr_fetch]; [done|done|]; rewrite !elem_of_cons; auto).
  - intros _. eapply (grows_conseq mkt_sem table_grows i holds_base _ _ (fun _ => holds_base)); [done|done|].
    apply (grows_fold_each mkt_sem table_grows i _ _ tt (fun _ => holds_base)). intros sym [] _.
    eapply grows_swallow_steady; po; [apply holds_base_steady|apply gr_resample].
Qed.

(** The cron job, and the fetches and reads other code may ask for. *)
Inductive candle_request : MktProg unit -> Prop :=
| cr_poll sched : candle_request (detached (pollCandles STRATEGY_PAIRS sched))
| cr_fetch sym tf n : tf ∈ ["M1"; "M5"; "M15"; "H1"; "H4"]%string ->
    candle_request (detached (fetchAndStoreCandles sym tf n))
| cr_recent tf n : candle_request (detached (getRecentCandles tf n)).

Lemma gr_request p : candle_request p -> exists (A : Type) (m : MktAsync A),
  p = pbind m (fun _ => Ret tt) /\ forall i, gr i holds_base m (fun _ _ => True).
Proof using.
  intros Hp. destruct Hp as [sched|sym tf n Htf|tf n]; do 2 eexists; (split; [reflexivity|]); intros i.
  - apply gr_poll.
  - eapply (grows_conseq mkt_sem table_grows); [..|by apply gr_fetch]; done.
  - unfold getRecentCandles. eapply grows_await with (M := fun _ _ => True); po.
    + apply (gr_quiet i holds_base (CandleFindMany _ _ _) (fun x => x)); [apply holds_base_steady|done].
    + intros l. by apply grows_resolve; po.
Qed.
End service.
End ingestion.

(** C30: Whatever methods of the candle service run side by side, each minute's poll and fetches
    of the timeframes M1 to H4 included, no row of the Candle table is ever changed or lost,
    every bar that enters has closed by then, and every D1 bar that enters opens at a UTC
    midnight and is the aggregate (first open, last close, highest high, lowest low, summed
    volume), in time order, of all the H1 bars of that UTC day and symbol that were in the table
    at some moment of the run: of every one that was there at its start, and of none that is not
    there at its end.  (Nothing in the program asks the service to fetch D1 bars.) *)
Theorem candle_table_append_only STRATEGY_PAIRS c c' :
  rtc (pstep mkt_sem (candle_request STRATEGY_PAIRS)) c c' -> threads c = [] ->
  mk_candles (shared c) ⊆ mk_candles (shared c') /\
  forall k r, mk_candles (shared c') !! k = Some r -> mk_candles (shared c) !! k = None ->
    closed_by (mk_clock (shared c')) r /\
    (cd_timeframe r = "D1"%string -> aggregated (mk_candles (shared c)) (mk_candles (shared c')) r).
Proof.
  intros Hc Ht. set (base := mk_candles (shared c)).
  enough (table_grows base (shared c) (shared c')) as [_ H1 H2] by (split; [done|exact H2]).
  eapply (grows_pool_within mkt_sem (table_grows base) (holds_base base)); try apply _; [|apply gr_request|exact Hc|done|unfold holds_base, base; reflexivity].
  apply holds_base_steady.
Qed.
