(* ===== verification/LegacyStrategy.v ===== *)
(** * The first-generation strategy and its risk service

    src/strategy/structure-analyzer.ts, pattern-detector.ts and strategy.service.ts
    ([StrategyService], which still listens to every stored M15 candle), and
    src/risk/risk.service.ts ([RiskService]).  The language-model filter
    (src/llm-filter) is asked for a decision. *)
From Stdlib Require Import SpecFloat.
From S2P Require Import Prelude Async JsNum JsDate Types Indicators MarketTypes MarketData.
Local Open Scope num_scope.

(** ** StructureAnalyzer *)
Inductive SwingType := HIGH | LOW.
#[export] Instance SwingType_eq_dec : EqDecision SwingType.
Proof. solve_decision. Defined.
Record SwingPoint := { swp_index : Z; swp_price : num; swp_type : SwingType }.
Record BOSEvent := { bos_direction : Side; bos_brokenLevel : num; bos_candleIndex : Z }.

(** No neighbour within [lookback] bars reaches the bar's value.  Every index is inside the
    array for the bars the loop visits. *)
Definition stands_out (reaches : num -> num -> bool) (f : BacktestCandle -> num) (candles : list BacktestCandle)
    (lookback i : Z) (curr : BacktestCandle) : bool :=
  forallb (fun j =>
    match zlookup candles (i - j), zlookup candles (i + j) with
    | Some a, Some b => negb (reaches (f a) (f curr) || reaches (f b) (f curr))
    | _, _ => true
    end) (up_from 1 lookback).
Definition swing_points_at (candles : list BacktestCandle) (lookback i : Z) : list SwingPoint :=
  match zlookup candles i with
  | Some curr =>
      (if stands_out (fun a b => a >=? b) high candles lookback i curr
       then [{| swp_index := i; swp_price := high curr; swp_type := HIGH |}] else []) ++
      (if stands_out (fun a b => a <=? b) low candles lookback i curr
       then [{| swp_index := i; swp_price := low curr; swp_type := LOW |}] else [])
  | None => []
  end.
Definition detectSwingPoints (candles : list BacktestCandle) (lookback : Z) : list SwingPoint :=
  concat (swing_points_at candles lookback <$> up_from lookback (zlen candles - lookback - 1)%Z).

Definition of_type (t : SwingType) (l : list SwingPoint) : list SwingPoint := filter (fun p => swp_type p = t) l.

Definition detectBOS (candles : list BacktestCandle) (swingPoints : list SwingPoint) : option BOSEvent :=
  if (length swingPoints <? 3)%nat then None
  else
    let recentPoints := last_n 6 swingPoints in
    match last candles, last (of_type HIGH recentPoints), last (of_type LOW recentPoints) with
    | Some lastCandle, Some lastSwingHigh, Some lastSwingLow =>
        if close lastCandle >? swp_price lastSwingHigh then
          Some {| bos_direction := BUY; bos_brokenLevel := swp_price lastSwingHigh; bos_candleIndex := zlen candles - 1 |}
        else if close lastCandle <? swp_price lastSwingLow then
          Some {| bos_direction := SELL; bos_brokenLevel := swp_price lastSwingLow; bos_candleIndex := zlen candles - 1 |}
        else None
    | _, _, _ => None
    end.

(** ** PatternDetector *)
Definition detectEngulfing (candles : list BacktestCandle) : bool :=
  match zlookup candles (zlen candles - 2)%Z, zlookup candles (zlen candles - 1)%Z with
  | Some prev, Some curr =>
      ((close prev <? open prev) && (close curr >? open curr) && (open curr <=? close prev) && (close curr >=? open prev)) ||
      ((close prev >? open prev) && (close curr <? open curr) && (open curr >=? close prev) && (close curr <=? open prev))
  | _, _ => false
  end.

Definition detectStrongClose (candles : list BacktestCandle) : bool :=
  match last candles with
  | None => false
  | Some curr =>
      let range := high curr - low curr in
      if range =? of_Z 0 then false
      else
        let bodyRatio := nabs (close curr - open curr) / range in
        if bodyRatio <? lit 6 1 then false
        else if close curr >? open curr then (close curr - low curr) / range >=? lit 75 2
        else (high curr - close curr) / range >=? lit 75 2
  end.

Definition isPullbackToEMA (candle : BacktestCandle) (emaValue atr : num) : bool :=
  if negb (truthy emaValue) || negb (truthy atr) then false
  else
    let tolerance := atr * lit 5 1 in
    (low candle <=? emaValue + tolerance) && (high candle >=? emaValue - tolerance).

Definition isRSIAligned (rsi : num) (isBullish : bool) : bool :=
  if isBullish then (rsi >? of_Z 50) && (rsi <? of_Z 70) else (rsi <? of_Z 50) && (rsi >? of_Z 30).

(** [candles] is not empty where the method is called. *)
Definition getConfirmationTags (candles : list BacktestCandle) (ema20 ema50 rsi atr : num) (isBullish : bool) : list SetupTag :=
  match last candles with
  | None => []
  | Some lastCandle =>
      (if detectEngulfing candles then [ENGULFING] else []) ++
      (if detectStrongClose candles then [STRONG_CLOSE] else []) ++
      (if isPullbackToEMA lastCandle ema20 atr then [PULLBACK_EMA20] else []) ++
      (if isPullbackToEMA lastCandle ema50 atr then [PULLBACK_EMA50] else []) ++
      (if isRSIAligned rsi isBullish then [RSI_ALIGNED] else [])
  end.

(** ** RiskService *)
Record RiskStateDto := {
  rd_date : string; rd_balance : num; rd_equity : num; rd_dailyPnl : num; rd_dailyPnlPercent : num;
  rd_consecutiveLosses : Z; rd_openPositionCount : Z; rd_maxDailyLossPercent : num;
  rd_maxOpenPositions : Z; rd_maxConsecutiveLosses : Z; rd_riskPerTradePercent : num;
  rd_maxSpreadPoints : num; rd_dailyLossLimitHit : bool; rd_consecutiveLossLimitHit : bool;
  rd_canTrade : bool }.

Section legacy.
Context {T : TechnicalIndicators}.
(** The limits of the environment, for the first start. *)
Context (envLimits : RiskConfigRow).
Local Open Scope async_scope.

Definition init_config : MktAsync unit :=
  configCount <~ (ask_mkt RiskConfigCount : MktAsync _) ;;
  if (configCount =? 0)%Z then (ask_mkt (RiskConfigCreate envLimits) : MktAsync _) else resolve tt.

(** [setHours(0, 0, 0, 0)]: local midnight. *)
Definition local_midnight (t : Z) : Z := (day_of (t + local_offset) * ms_day - local_offset)%Z.

Definition default_account : AccountInfoDto := {|
  ac_balance := of_Z 10000; ac_equity := of_Z 10000; ac_margin := of_Z 0; ac_freeMargin := of_Z 10000;
  ac_openPositions := 0 |}.
Definition default_limits : RiskConfigRow := {|
  rc_maxDailyLossPercent := of_Z 3; rc_maxOpenPositions := 3; rc_maxConsecutiveLosses := 3;
  rc_riskPerTradePercent := of_Z 1; rc_maxSpreadPoints := of_Z 50 |}.

Definition risk_state (today : Z) (r : RiskStateRow) (a : AccountInfoDto) (config : option RiskConfigRow) : RiskStateDto :=
  let c := default default_limits config in
  let pct := if ac_balance a >? of_Z 0 then rk_dailyPnl r / ac_balance a * of_Z 100 else of_Z 0 in
  let dailyHit := pct <=? nopp (rc_maxDailyLossPercent c) in
  let lossHit := (rc_maxConsecutiveLosses c <=? rk_consecutiveLosses r)%Z in
  (* the part before the T *)
  {| rd_date := default ""%string (head (split_on (Ascii.ascii_of_nat 84) [] (String.list_ascii_of_string (toISOString today)))); rd_balance := ac_balance a; rd_equity := ac_equity a; rd_dailyPnl := rk_dailyPnl r;
     rd_dailyPnlPercent := Math_round (pct * of_Z 100) / of_Z 100;
     rd_consecutiveLosses := rk_consecutiveLosses r; rd_openPositionCount := ac_openPositions a;
     rd_maxDailyLossPercent := rc_maxDailyLossPercent c; rd_maxOpenPositions := rc_maxOpenPositions c;
     rd_maxConsecutiveLosses := rc_maxConsecutiveLosses c;
     rd_riskPerTradePercent := rc_riskPerTradePercent c; rd_maxSpreadPoints := rc_maxSpreadPoints c;
     rd_dailyLossLimitHit := dailyHit; rd_consecutiveLossLimitHit := lossHit;
     rd_canTrade := negb dailyHit && negb lossHit && (ac_openPositions a <? rc_maxOpenPositions c)%Z |}.

Definition with_flags (d : RiskStateDto) (r : RiskStateRow) : RiskStateRow := {|
  rk_id := rk_id r; rk_date := rk_date r; rk_dailyPnl := rk_dailyPnl r;
  rk_consecutiveLosses := rk_consecutiveLosses r; rk_openPositionCount := rd_openPositionCount d;
  rk_dailyLossLimitHit := rd_dailyLossLimitHit d;
  rk_consecutiveLossLimitHit := rd_consecutiveLossLimitHit d |}.

Definition today_state (today : Z) : MktAsync RiskStateRow :=
  found <~ (ask_mkt (RiskStateFind today) : MktAsync _) ;;
  match found with
  | Some r => resolve r
  | None =>
      prevState <~ (ask_mkt (RiskStateFind (addDays (-1) today)) : MktAsync _) ;;
      (ask_mkt (RiskStateCreate today (default 0%Z (rk_consecutiveLosses <$> prevState))) : MktAsync _)
  end.

Definition getRiskState : MktAsync RiskStateDto :=
  now <~ mkt_now ;;
  let today := local_midnight now in
  riskState <~ today_state today ;;
  accountInfo <~ try_catch (ask_mkt HttpAccount : MktAsync _) (fun _ => resolve default_account) ;;
  config <~ (ask_mkt RiskConfigLatest : MktAsync _) ;;
  let d := risk_state today riskState accountInfo config in
  await! (if negb (eqb (rd_dailyLossLimitHit d) (rk_dailyLossLimitHit riskState)) ||
             negb (eqb (rd_consecutiveLossLimitHit d) (rk_consecutiveLossLimitHit riskState))
          then (ask_mkt (RiskStateUpdate (rk_id riskState) (with_flags d)) : MktAsync _) else resolve tt) ;;
  resolve d.

Definition with_result (pnl : num) (losses : Z) (r : RiskStateRow) : RiskStateRow := {|
  rk_id := rk_id r; rk_date := rk_date r; rk_dailyPnl := pnl; rk_consecutiveLosses := losses;
  rk_openPositionCount := rk_openPositionCount r; rk_dailyLossLimitHit := rk_dailyLossLimitHit r;
  rk_consecutiveLossLimitHit := rk_consecutiveLossLimitHit r |}.

(** The counters are read, changed and written back. *)
Definition handleTradeClosed (pnl : num) : MktAsync unit :=
  now <~ mkt_now ;;
  let today := local_midnight now in
  found <~ (ask_mkt (RiskStateFind today) : MktAsync _) ;;
  riskState <~ match found with
               | Some r => resolve r
               | None => (ask_mkt (RiskStateCreate today 0) : MktAsync _)
               end ;;
  let newDailyPnl := rk_dailyPnl riskState + pnl in
  let newConsecutiveLosses := if pnl <? of_Z 0 then (rk_consecutiveLosses riskState + 1)%Z else 0%Z in
  await! (ask_mkt (RiskStateUpdate (rk_id riskState) (with_result newDailyPnl newConsecutiveLosses)) : MktAsync _) ;;
  (ask_mkt (MPublish "risk:state:updated" (toISOString today)) : MktAsync _).

(** ** StrategyService *)
Definition round2 (x : num) : num := Math_round (x * of_Z 100) / of_Z 100.

(** Stop and target of a break of structure: the extreme of the last three swings or 1.5
    ATR, and twice that distance. *)
Definition stop_and_target (isBullish : bool) (swings : list SwingPoint) (entryPrice atr : num) : num * num :=
  if isBullish then
    let recentLows := swp_price <$> last_n 3 (of_type LOW swings) in
    let swingSL := match recentLows with [] => of_Z 0 | _ => min_of recentLows end in
    let slPrice := Math_max swingSL (entryPrice - atr * lit 15 1) in
    (slPrice, entryPrice + (entryPrice - slPrice) * of_Z 2)
  else
    let recentHighs := swp_price <$> last_n 3 (of_type HIGH swings) in
    let swingSL := match recentHighs with [] => of_Z 0 | _ => max_of recentHighs end in
    let slPrice := Math_min swingSL (entryPrice + atr * lit 15 1) in
    (slPrice, entryPrice - (slPrice - entryPrice) * of_Z 2).

Definition setup_tags (candles : list BacktestCandle) (s : MarketSnapshot) (bias : D1Bias) (isBullish : bool) : list SetupTag :=
  BOS :: getConfirmationTags candles (sn_ema20 s) (sn_ema50 s) (sn_rsi14 s) (sn_atr14 s) isBullish ++
  (if bool_decide (isBullish = true /\ bias = BULLISH) || bool_decide (isBullish = false /\ bias = BEARISH)
   then [H1_BIAS_ALIGNED] else []).
Definition sufficient (tags : list SetupTag) : bool :=
  (bool_decide (PULLBACK_EMA20 ∈ tags) || bool_decide (PULLBACK_EMA50 ∈ tags)) &&
  (bool_decide (ENGULFING ∈ tags) || bool_decide (STRONG_CLOSE ∈ tags)).

Definition candidate_of (candles : list BacktestCandle) (s : MarketSnapshot) (bias : D1Bias)
    (swings : list SwingPoint) (bos : BOSEvent) (tags : list SetupTag) (lastCandle : BacktestCandle) (spread : num)
    : CandidateTradeDto :=
  let entryPrice := close lastCandle in
  let isBullish := bool_decide (bos_direction bos = BUY) in
  let st := stop_and_target isBullish swings entryPrice (sn_atr14 s) in
  {| ct_symbol := SYMBOL; ct_side := bos_direction bos; ct_entryPrice := round2 entryPrice;
     ct_slPrice := round2 st.1; ct_tpPrice := round2 st.2;
     ct_slPoints := round2 (nabs (entryPrice - st.1)); ct_tpPoints := round2 (nabs (st.2 - entryPrice));
     ct_setupTags := tags; ct_h1Bias := bias; ct_rsiValue := sn_rsi14 s; ct_atrValue := sn_atr14 s;
     ct_spreadAtDetection := spread; ct_timeframe := "M15" |}.

(** What the signal needs: nothing, or the break, its tags and the last bar. *)
Definition setup_of (candles : list BacktestCandle) (s : MarketSnapshot) (bias : D1Bias)
    : option (list SwingPoint * BOSEvent * list SetupTag * BacktestCandle) :=
  if (length candles <? 20)%nat then None
  else
    let swingPoints := detectSwingPoints candles 2 in
    match detectBOS candles swingPoints, last candles with
    | Some bos, Some lastCandle =>
        let tags := setup_tags candles s bias (bool_decide (bos_direction bos = BUY)) in
        if sufficient tags then Some (swingPoints, bos, tags, lastCandle) else None
    | _, _ => None
    end.

Definition lot_of (d : RiskStateDto) (c : CandidateTradeDto) : num :=
  let riskAmount := rd_balance d * (rd_riskPerTradePercent d / of_Z 100) in
  Math_max (lit 1 2) (Math_min (round2 (riskAmount / (ct_slPoints c * of_Z 100))) (of_Z 1)).
Definition order_of (candidateId : string) (lot : num) (c : CandidateTradeDto) : LegacyOrder := {|
  lo_symbol := ct_symbol c; lo_side := ct_side c; lo_lotSize := lot; lo_entryPrice := ct_entryPrice c;
  lo_slPrice := ct_slPrice c; lo_tpPrice := ct_tpPrice c; lo_comment := "Bot:" +:+ slice0 8 candidateId |}.

Definition executeApprovedTrade (candidateId : string) (candidate : CandidateTradeDto) : MktAsync unit :=
  riskState <~ getRiskState ;;
  if negb (rd_canTrade riskState) then resolve tt
  else
    let order := order_of candidateId (lot_of riskState candidate) candidate in
    mt5Ticket <~ (ask_mkt (HttpOrder order) : MktAsync _) ;;
    await! (ask_mkt (LegacyTradeCreate candidateId mt5Ticket order) : MktAsync _) ;;
    await! (ask_mkt (CandidateUpdate candidateId CandApproved) : MktAsync _) ;;
    (ask_mkt (MPublish "trade:opened" candidateId) : MktAsync _).

(** What [evaluateSetup] does with a setup. *)
Definition setup_taken (snapshot : MarketSnapshot) (bias : D1Bias) (candles : list BacktestCandle)
    (swings : list SwingPoint) (bos : BOSEvent) (tags : list SetupTag) (lastCandle : BacktestCandle) : MktAsync unit :=
  spread <~ try_catch (st <~ getSpreadStats ;; resolve (sp_current st)) (fun _ => resolve (of_Z 0)) ;;
  let candidate := candidate_of candles snapshot bias swings bos tags lastCandle spread in
  stored <~ (ask_mkt (CandidateCreate candidate) : MktAsync _) ;;
  try_catch
    (decision <~ (ask_mkt (LlmValidate stored candidate) : MktAsync _) ;;
     if ll_allow decision then executeApprovedTrade stored candidate
     else
       await! (ask_mkt (CandidateUpdate stored CandRejected) : MktAsync _) ;;
       (ask_mkt (MPublish "trade:rejected" (ll_reasoning decision)) : MktAsync _))
    (fun _ => (ask_mkt (CandidateUpdate stored CandRejected) : MktAsync _)).

Definition evaluateSetup : MktAsync unit :=
  snapshot <~ getMarketSnapshot ;;
  structure <~ getStructureContext ;;
  candles <~ (ask_mkt (HttpCandles SYMBOL "M15" 50) : MktAsync _) ;;
  match setup_of candles snapshot (sx_h1Bias structure) with
  | None => resolve tt
  | Some (swings, bos, tags, lastCandle) =>
      setup_taken snapshot (sx_h1Bias structure) candles swings bos tags lastCandle
  end.
End legacy.
