(* ===== verification/LegacyFacts.v ===== *)
(** * Theorems about levels and the first-generation strategy

    The level clusters partition the swing prices.  An order of the first-generation
    strategy needs a break of structure, a pull-back, a confirmation, the filter's consent
    and the risk limits; and since nothing in the program fills the Indicator table, it
    never sends one. *)
From Stdlib Require Import SpecFloat.
From S2P Require Import Prelude Async JsNum JsDate Types Indicators MarketTypes MarketData CandleFacts LegacyStrategy.
Local Open Scope num_scope.

(** ** Clusters *)

(** Each price of a cluster but its first was near the average of those before it. *)
Fixpoint chained (threshold : num) (c : Cluster) (l : list num) : Prop :=
  match l with
  | [] => True
  | p :: l' => near threshold c p = true /\ chained threshold (join p c) l'
  end.
Definition well_clustered (threshold : num) (c : Cluster) : Prop :=
  exists p l, cl_prices c = p :: l /\ cl_sum c = nsum p l /\ chained threshold (start p) l.

Lemma nsum_snoc x l y : nsum x (l ++ [y]) = nsum x l + y.
Proof. unfold nsum. by rewrite fold_left_app. Qed.

Lemma chained_snoc threshold c l p :
  chained threshold c l -> near threshold {| cl_prices := cl_prices c ++ l; cl_sum := nsum (cl_sum c) l |} p = true ->
  chained threshold c (l ++ [p]).
Proof.
  revert c. induction l as [|q l IH]; intros c; simpl.
  - rewrite app_nil_r. by destruct c.
  - intros [Hq Hl] Hp. split; [done|]. apply IH; [done|]. simpl. by rewrite <- app_assoc.
Qed.

Lemma join_well threshold c p : well_clustered threshold c -> near threshold c p = true -> well_clustered threshold (join p c).
Proof.
  intros (q & l & Hp & Hs & Hc) Hn. exists q, (l ++ [p]). split_and!; simpl.
  - by rewrite Hp.
  - by rewrite nsum_snoc, Hs.
  - apply chained_snoc; [done|]. destruct c as [ps s]. simpl in *. by subst.
Qed.

Lemma start_well threshold p : well_clustered threshold (start p).
Proof. by exists p, []. Qed.

Lemma cluster_from_spec threshold cur l :
  well_clustered threshold cur ->
  concat (cl_prices <$> cluster_from threshold cur l) = cl_prices cur ++ l /\
  Forall (well_clustered threshold) (cluster_from threshold cur l).
Proof.
  revert cur. induction l as [|p l IH]; intros cur Hcur; simpl.
  - rewrite !app_nil_r. auto.
  - destruct (near threshold cur p) eqn:E.
    + destruct (IH (join p cur) (join_well _ _ _ Hcur E)) as [-> HF]. simpl. by rewrite <- app_assoc.
    + destruct (IH (start p) (start_well _ _)) as [H HF]. split; [|by constructor].
      change (cl_prices cur ++ concat (cl_prices <$> cluster_from threshold (start p) l) = cl_prices cur ++ p :: l).
      by rewrite H.
Qed.

Lemma sum_strengths (l : list Cluster) :
  sum_list ((fun c => length (cl_prices c)) <$> l) = length (concat (cl_prices <$> l)).
Proof. induction l as [|c l IH]; [done|]. rewrite !fmap_cons. simpl. rewrite length_app, <- IH. done. Qed.

(** [clusterLevels] partitions the swing prices: laid end to end the clusters are the
    sorted prices, each cluster grew by prices within the threshold of its average so far,
    a level is the average of its cluster rounded to cents, and the strengths of the levels
    add up to the number of prices. *)
Theorem clusterLevels_partition prices threshold :
  let cs := clusters threshold prices in
  concat (cl_prices <$> cs) = sort_by (fun a b => negb (a - b >? of_Z 0)) prices /\
  concat (cl_prices <$> cs) ≡ₚ prices /\
  Forall (well_clustered threshold) cs /\
  clusterLevels prices threshold =
    (fun c => (Math_round (cl_sum c / of_Z (zlen (cl_prices c)) * of_Z 100) / of_Z 100, zlen (cl_prices c))) <$> cs /\
  sum_list (Z.to_nat <$> (clusterLevels prices threshold).*2) = length prices.
Proof.
  intros cs.
  assert (H : concat (cl_prices <$> cs) = sort_by (fun a b => negb (a - b >? of_Z 0)) prices /\
              Forall (well_clustered threshold) cs).
  { subst cs. unfold clusters. destruct (sort_by _ prices) as [|p l]; [done|].
    pose proof (cluster_from_spec threshold (start p) l (start_well _ _)) as [H1 H2]. split; [exact H1|exact H2]. }
  destruct H as [H HF]. split_and!; [done| |done|done|].
  - rewrite H. apply sort_by_perm.
  - unfold clusterLevels. fold cs. rewrite <- list_fmap_compose, <- list_fmap_compose.
    replace (length prices) with (length (concat (cl_prices <$> cs))) by (by rewrite H, sort_by_perm).
    rewrite <- sum_strengths. f_equal. apply list_fmap_ext. intros _ c _. simpl. unfold zlen. lia.
Qed.

(** Goes through a program for the effects it can perform. *)
Ltac quiet := repeat first
  [ done | progress intros
  | match goal with
    | |- emits _ (await _ _) => apply emits_await
    | |- emits _ (pbind _ _) => apply emits_bind
    | |- emits _ (try_catch _ _) => apply emits_bind
    | |- emits _ (fold_each _ _ _) => apply emits_fold_each
    | |- emits _ (match ?x with _ => _ end) => destruct x
    | |- emits _ (swallow _) => apply emits_bind
    | |- emits _ (ask_mkt _) => split
    | |- emits _ (if ?x then _ else _) => destruct x
    end ].

(** ** The gates of the first-generation strategy *)
Section strategy.
Context {T : TechnicalIndicators}.
Notation trace := (list (@Event MktAct mkt_result)).

Definition mkt_answered (tr : trace) (e : MktAct) (x : mkt_result e) : Prop := {| ev_act := e; ev_res := x |} ∈ tr.
(** The orders of a run. *)
Definition order_in (e : MktAct) : option LegacyOrder := match e with HttpOrder o => Some o | _ => None end.
Definition orders_of (tr : trace) : list LegacyOrder := omap (fun ev => order_in (ev_act ev)) tr.

(** A setup is a break of structure with a pull-back and a confirmation. *)
Lemma setup_of_sound candles s bias swings bos tags lastCandle :
  setup_of candles s bias = Some (swings, bos, tags, lastCandle) ->
  (20 <= length candles)%nat /\ detectBOS candles swings = Some bos /\ last candles = Some lastCandle /\
  (PULLBACK_EMA20 ∈ tags \/ PULLBACK_EMA50 ∈ tags) /\ (ENGULFING ∈ tags \/ STRONG_CLOSE ∈ tags).
Proof.
  unfold setup_of. destruct (Nat.ltb_spec (length candles) 20); [done|].
  destruct (detectBOS candles (detectSwingPoints candles 2)) as [b|] eqn:Eb; [|done].
  destruct (last candles) as [c|] eqn:El; [|done].
  destruct (sufficient _) eqn:Es; [|done]. intros [= <- <- <- <-]. unfold sufficient in Es.
  apply andb_true_iff in Es as [H1 H2]. apply orb_true_iff in H1, H2. rewrite !bool_decide_eq_true in *. auto.
Qed.

(** Without average and ATR values nothing is a pull-back, and there is no setup. *)
Lemma no_pullback_no_setup (a b c d : bool) :
  sufficient (BOS :: ((if a then [ENGULFING] else []) ++ (if b then [STRONG_CLOSE] else []) ++ [] ++ [] ++
                      (if c then [RSI_ALIGNED] else [])) ++ (if d then [H1_BIAS_ALIGNED] else [])) = false.
Proof. by destruct a, b, c, d. Qed.

Lemma no_values_no_setup candles s bias :
  sn_ema20 s = of_Z 0 -> sn_ema50 s = of_Z 0 -> setup_of candles s bias = None.
Proof.
  intros H20 H50. unfold setup_of. destruct (_ <? _)%nat; [done|].
  destruct (detectBOS _ _) as [bos|]; [|done]. destruct (last candles) as [c|] eqn:El; [|done].
  unfold setup_tags, getConfirmationTags. rewrite El, H20, H50.
  change (isPullbackToEMA _ (of_Z 0) _) with false. cbv iota beta.
  by rewrite no_pullback_no_setup.
Qed.

(** *** What an order needs *)

(** The risk state [d] comes of a row, a limit row the database answered and an account
    report (or the one assumed when the report failed), and it permits a trade. *)
Definition within_limits (tr : trace) (d : RiskStateDto) : Prop :=
  exists today row account limits,
    d = risk_state today row account limits /\
    mkt_answered tr RiskConfigLatest (Ok limits) /\
    (mkt_answered tr HttpAccount (Ok account) \/ account = default_account) /\
    (rk_consecutiveLosses row < rc_maxConsecutiveLosses (default default_limits limits))%Z /\
    (ac_openPositions account < rc_maxOpenPositions (default default_limits limits))%Z /\
    rd_dailyLossLimitHit d = false.

(** The setup behind an order, the consent it was given and the risk state it passed. *)
Definition consented (tr : trace) (o : LegacyOrder) : Prop :=
  exists candles s bias swings bos tags lastCandle spread id lm d,
    let c := candidate_of candles s bias swings bos tags lastCandle spread in
    setup_of candles s bias = Some (swings, bos, tags, lastCandle) /\
    mkt_answered tr (CandidateCreate c) (Ok id) /\
    mkt_answered tr (LlmValidate id c) (Ok lm) /\ ll_allow lm = true /\
    within_limits tr d /\ o = order_of id (lot_of d c) c.

(** What the methods that send nothing may perform. *)
Definition no_order (e : MktAct) : Prop := order_in e = None.
Lemma no_order_orders tr : Forall (fun ev => no_order (ev_act ev)) tr -> orders_of tr = [].
Proof.
  unfold orders_of, no_order. induction 1 as [|ev tr H _ IH]; [done|]. simpl. by rewrite H.
Qed.
Lemma orders_of_app tr tr' : orders_of (tr ++ tr') = orders_of tr ++ orders_of tr'.
Proof. apply omap_app. Qed.

Lemma wp_mkt_quiet {A} (p : MktProg A) (Q : trace -> A -> Prop) :
  emits no_order p -> (forall tr a, orders_of tr = [] -> Q tr a) -> wp p Q.
Proof. intros H HQ. eapply wp_mono; [|by apply wp_emits]. intros tr a Htr. by apply HQ, no_order_orders. Qed.

Lemma getMarketSnapshot_quiet : emits no_order getMarketSnapshot.
Proof. unfold getMarketSnapshot, getRecentCandles, getLatestIndicators. quiet. Qed.
Lemma getStructureContext_quiet : emits no_order getStructureContext.
Proof. unfold getStructureContext, getActiveLevels, getLatestIndicators. quiet. Qed.
Lemma getSpreadStats_quiet : emits no_order getSpreadStats.
Proof. unfold getSpreadStats, mkt_now, ask. quiet. Qed.
Lemma getRiskState_quiet : emits no_order getRiskState.
Proof. unfold getRiskState, today_state, mkt_now, ask. quiet. Qed.

Lemma answered_app_l tr tr' e x : mkt_answered tr e x -> mkt_answered (tr ++ tr') e x.
Proof. unfold mkt_answered. rewrite elem_of_app. auto. Qed.
Lemma answered_app_r tr tr' e x : mkt_answered tr' e x -> mkt_answered (tr ++ tr') e x.
Proof. unfold mkt_answered. rewrite elem_of_app. auto. Qed.

Lemma within_limits_mono tr tr' d :
  (forall e x, mkt_answered tr e x -> mkt_answered tr' e x) -> within_limits tr d -> within_limits tr' d.
Proof.
  intros H (t & r & a & l & -> & Hl & Ha & ?). exists t, r, a, l. split_and!; naive_solver.
Qed.
Lemma consented_mono tr tr' o :
  (forall e x, mkt_answered tr e x -> mkt_answered tr' e x) -> consented tr o -> consented tr' o.
Proof.
  intros H (cs & s & b & sw & bos & tags & lc & sp & id & lm & d & H1 & H2 & H3 & H4 & H5 & H6).
  exists cs, s, b, sw, bos, tags, lc, sp, id, lm, d. split_and!; auto. by eapply within_limits_mono.
Qed.

(** [getRiskState] answers from what it read. *)
Lemma getRiskState_limits :
  wp getRiskState (fun tr r => orders_of tr = [] /\
    forall d, r = Ok d -> rd_canTrade d = true -> within_limits tr d).
Proof.
  eapply wp_mono; [|apply wp_conj; [apply (wp_emits no_order), getRiskState_quiet|]].
  { intros tr r [H1 H2]. split; [by apply no_order_orders|exact H2]. }
  unfold getRiskState. apply wp_await. apply wp_any. intros tr1 [now|?]; [|done].
  apply wp_await. apply wp_any. intros tr2 [row|?]; [|done]. apply wp_await.
  eapply wp_mono with (Q := fun tr r => forall a, r = Ok a -> mkt_answered tr HttpAccount (Ok a) \/ a = default_account).
  2:{ intros [a|e] b [= <-]; [|by right]. left. by left. }
  intros tr3 [account|?] Ha; [|done]. apply wp_await. intros [limits|?]; [|done]. apply wp_await. apply wp_any.
  intros tr5 [[]|?]; [|done]. apply wp_resolve. intros d [= <-] Hc. cbn [rd_canTrade risk_state] in Hc.
  apply andb_true_iff in Hc as [[H1 H2]%andb_true_iff H3].
  exists (local_midnight now), row, account, limits. split_and!; [done| | | | |].
  - apply answered_app_r, answered_app_r, answered_app_r. by left.
  - destruct (Ha account eq_refl) as [H|H]; [left|by right].
    apply answered_app_r, answered_app_r, answered_app_l. done.
  - apply negb_true_iff, Z.leb_gt in H2. exact H2.
  - apply Z.ltb_lt in H3. exact H3.
  - by apply negb_true_iff in H1.
Qed.

(** One order at most, of the candidate's size, once the limits permit it. *)
Lemma executeApprovedTrade_orders id c :
  wp (executeApprovedTrade id c) (fun tr _ => orders_of tr = [] \/
    exists d, within_limits tr d /\ orders_of tr = [order_of id (lot_of d c) c]).
Proof.
  unfold executeApprovedTrade. apply wp_await. eapply wp_mono; [|apply getRiskState_limits].
  intros tr [d|e] [Hq Hd]; [|by left]. destruct (rd_canTrade d) eqn:Ec; simpl.
  2:{ left. by rewrite app_nil_r. }
  intros x. match goal with |- wp ?p _ => assert (emits no_order p) as He by (destruct x; quiet) end.
  eapply wp_mkt_quiet; [exact He|]. intros tr' r Hr. right. exists d. split.
  - eapply within_limits_mono; [|by apply Hd]. intros e y. apply answered_app_l.
  - rewrite orders_of_app, Hq. simpl. unfold orders_of in *. by rewrite Hr.
Qed.

(** One evaluation of the first-generation strategy sends at most one order, and an
    order carries out the candidate of a setup (a break of structure with a pull-back and
    a confirmation) that was stored, that the language-model filter allowed, and that
    passed the daily-loss, losing-streak and open-position limits read at that moment. *)
Theorem legacy_order_gated :
  wp evaluateSetup (fun tr _ => orders_of tr = [] \/ exists o, orders_of tr = [o] /\ consented tr o).
Proof.
  unfold evaluateSetup.
  assert (Hstep : forall A B (m : MktAsync A) (k : A -> MktAsync B),
    emits no_order m ->
    (forall a, wp (k a) (fun tr _ => orders_of tr = [] \/ exists o, orders_of tr = [o] /\ consented tr o)) ->
    wp (await m k) (fun tr _ => orders_of tr = [] \/ exists o, orders_of tr = [o] /\ consented tr o)).
  { intros A B m k Hm Hk. apply wp_await, wp_mkt_quiet; [done|]. intros tr [a|e] Ht; [|by left].
    eapply wp_mono; [|apply Hk]. intros tr' r [H|(o & H & Hc)]; rewrite orders_of_app, Ht, H; [by left|].
    right. exists o. split; [done|]. eapply consented_mono; [|exact Hc]. intros e x. apply answered_app_r. }
  apply Hstep; [apply getMarketSnapshot_quiet|]. intros s. apply Hstep; [apply getStructureContext_quiet|].
  intros sx. apply Hstep; [quiet|]. intros candles.
  destruct (setup_of candles s (sx_h1Bias sx)) as [[[[sw bos] tags] lc]|] eqn:Es; [|by left].
  unfold setup_taken. apply Hstep; [quiet; apply getSpreadStats_quiet|]. intros spread.
  set (c := candidate_of candles s (sx_h1Bias sx) sw bos tags lc spread).
  apply wp_await. intros [id|e]; [|by left]. apply wp_try_catch, wp_await. intros [lm|e]; [|intros x; by left].
  simpl. destruct (ll_allow lm) eqn:Ea.
  2:{ intros [u|e]; simpl; [intros [u'|e']; [by left|intros ?; by left]|intros ?; by left]. }
  eapply wp_mono; [|apply executeApprovedTrade_orders].
  assert (Hdone : forall tr tr', orders_of tr' = [] ->
    orders_of tr = [] \/ (exists d, within_limits tr d /\ orders_of tr = [order_of id (lot_of d c) c]) ->
    let full := {| ev_act := CandidateCreate c; ev_res := Ok id : mkt_result (CandidateCreate c) |} ::
                {| ev_act := LlmValidate id c; ev_res := Ok lm : mkt_result (LlmValidate id c) |} :: tr ++ tr' in
    orders_of full = [] \/ exists o, orders_of full = [o] /\ consented full o).
  { intros tr tr' Ht' Ht full. assert (orders_of full = orders_of tr) as -> by
      (unfold full, orders_of in *; simpl; by rewrite omap_app, Ht', app_nil_r).
    destruct Ht as [Ht|(d & Hd & Ht)]; [by left|]. right. eexists. split; [exact Ht|].
    exists candles, s, (sx_h1Bias sx), sw, bos, tags, lc, spread, id, lm, d. split_and!; try done.
    - left.
    - right. left.
    - eapply within_limits_mono; [|exact Hd]. intros e x H. right. right. by apply answered_app_l. }
  intros tr [u|e] Ht.
  - rewrite <- (app_nil_r tr). by apply (Hdone tr []).
  - intros x. by apply (Hdone tr [_]).
Qed.
End strategy.

(** ** What the program never fills

    [IndicatorService.computeAndStore] is the only writer of the Indicator table and
    nothing calls it. *)
Section retired.
Context {T : TechnicalIndicators} (STRATEGY_PAIRS : option string).

Record idle (w w' : Market) : Prop := {
  id_indicators : mk_indicators w' = mk_indicators w;
  id_quiet : mk_indicators w = [] -> mk_orders w' = mk_orders w /\ mk_candidates w' = mk_candidates w }.
#[local] Instance idle_po : PreOrder idle.
Proof.
  split; [done|]. intros w1 w2 w3 [A1 B1] [A2 B2]. split; [congruence|]. intros H.
  destruct (B1 H), B2; [by rewrite A1|]. split; congruence.
Qed.
Notation gi := (grows mkt_sem idle).
Ltac po := try match goal with |- PreOrder _ => apply _ end.

Definition no_upsert (e : MktAct) : Prop := match e with IndicatorUpsert _ => False | _ => True end.
Definition no_trade (e : MktAct) : Prop :=
  match e with IndicatorUpsert _ | CandidateCreate _ | HttpOrder _ => False | _ => True end.

Lemma sem_keeps_indicators i e w w' x : no_upsert e -> mkt_sem i e w w' x -> mk_indicators w' = mk_indicators w.
Proof.
  intros He H. destruct e; simpl in *; unfold replies, stores in *; naive_solver.
Qed.
Lemma sem_idle i e w w' x : no_trade e -> mkt_sem i e w w' x -> idle w w'.
Proof.
  intros He H. split; [apply (sem_keeps_indicators i e w w' x); [by destruct e|done]|].
  intros _. destruct e; simpl in *; unfold replies, stores in *; naive_solver.
Qed.

(** A program of harmless effects; and, once there are indicators, any program that does
    not write any. *)
Lemma gi_program {A} (φ : MktAct -> Prop) i (P : Market -> Prop) (p : MktAsync A) :
  steady idle P -> emits φ p ->
  (forall e w w' x, P w -> φ e -> mkt_sem i e w w' x -> idle w w') ->
  gi i P p (fun _ w => P w).
Proof.
  intros HP He Hsem. induction p as [r|e k IH]; intros w Hw; simpl.
  - split; [reflexivity|by destruct r].
  - destruct He as [He Hk]. intros w1 H1 w2 x Hx.
    pose proof (Hsem _ _ _ _ (HP _ _ Hw H1) He Hx) as H2. split; [done|].
    pose proof (IH x (Hk x) w2 (HP _ _ (HP _ _ Hw H1) H2)) as H.
    eapply safe_mono; [|exact H]. intros r s' [H3 Hr]. split; [|done]. transitivity w1; [done|]. by transitivity w2.
Qed.

Lemma gi_harmless {A} i (P : Market -> Prop) (p : MktAsync A) :
  steady idle P -> emits no_trade p -> gi i P p (fun _ w => P w).
Proof. intros HP He. eapply gi_program; [done|exact He|]. intros e w w' x _. apply sem_idle. Qed.

Definition filled (w : Market) : Prop := mk_indicators w <> [].
Lemma gi_filled {A} i (p : MktAsync A) : emits no_upsert p -> gi i filled p (fun _ _ => True).
Proof.
  intros He. apply (grows_conseq mkt_sem idle i filled filled _ (fun _ => filled)); [done|done|].
  eapply gi_program; [|exact He|].
  - intros w w' Hw H. unfold filled. by rewrite (id_indicators _ _ H).
  - intros e w w' x Hw Hu Hx. split; [by eapply sem_keeps_indicators|done].
Qed.

Lemma gi_cases {A} i (m : MktAsync A) Q :
  gi i (fun w => mk_indicators w = []) m Q -> gi i filled m Q -> gi i (fun _ => True) m Q.
Proof.
  intros H1 H2 w _. destruct (mk_indicators w) as [|r l] eqn:E; [by apply H1|].
  apply H2. unfold filled. by rewrite E.
Qed.
Lemma steady_empty : steady idle (fun w => mk_indicators w = []).
Proof. intros w w' Hw H. by rewrite (id_indicators _ _ H). Qed.

(** Indicator values that are not there read as zero. *)
Lemma snapshot_empty i :
  gi i (fun w => mk_indicators w = []) getMarketSnapshot
    (fun s w => (sn_ema20 s = of_Z 0 /\ sn_ema50 s = of_Z 0) /\ mk_indicators w = []).
Proof.
  unfold getMarketSnapshot. eapply grows_await; po.
  { apply (gi_harmless i (fun w => mk_indicators w = [])); [apply steady_empty|]. unfold getRecentCandles. quiet. }
  intros candles. eapply grows_await with (M := fun ind w => ind = ∅ /\ mk_indicators w = []); po.
  2:{ intros ind. apply grows_resolve; po. by intros w [-> Hw]. }
  unfold getLatestIndicators. eapply grows_await with (M := fun l w => l = [] /\ mk_indicators w = []); po.
  2:{ intros l. apply grows_resolve; po. by intros w [-> Hw]. }
  apply (grows_effect mkt_sem idle i (IndicatorLatest SYMBOL "M15") (fun x => x)); po; [apply steady_empty|].
  intros w w' x Hw Hx. split; [exact (sem_idle i (IndicatorLatest SYMBOL "M15") _ _ x I Hx)|]. simpl in Hx. destruct Hx as [-> Hx].
  intros l ->. split; [|done]. specialize (Hx l eq_refl). rewrite Hw in Hx.
  destruct l as [|r l]; [done|]. inversion_clear Hx as [|? ? [Hr _] _]. by apply not_elem_of_nil in Hr.
Qed.

Lemma evaluateSetup_empty i : gi i (fun w => mk_indicators w = []) evaluateSetup (fun _ _ => True).
Proof.
  unfold evaluateSetup. eapply grows_await; po; [apply snapshot_empty|]. intros s.
  intros w0 [[H20 H50] Hw0]. revert w0 Hw0. change (gi i (fun w => mk_indicators w = []) (
    structure <~ getStructureContext ;;
    candles <~ (ask_mkt (HttpCandles SYMBOL "M15" 50) : MktAsync _) ;;
    match setup_of candles s (sx_h1Bias structure) with
    | None => resolve tt
    | Some (swings, bos, tags, lastCandle) =>
        setup_taken s (sx_h1Bias structure) candles swings bos tags lastCandle
    end)%async (fun _ _ => True)).
  eapply grows_await; po.
  { apply (gi_harmless i (fun w => mk_indicators w = [])); [apply steady_empty|].
    unfold getStructureContext, getActiveLevels, getLatestIndicators. quiet. }
  intros sx. eapply grows_await; po.
  { apply (gi_harmless i (fun w => mk_indicators w = [])); [apply steady_empty|]. quiet. }
  intros candles. rewrite no_values_no_setup by done. by apply grows_resolve; po.
Qed.

Lemma gi_evaluateSetup i : gi i (fun _ => True) evaluateSetup (fun _ _ => True).
Proof.
  apply gi_cases; [apply evaluateSetup_empty|]. apply gi_filled.
  unfold evaluateSetup, getMarketSnapshot, getStructureContext, getActiveLevels, getLatestIndicators,
    getRecentCandles. quiet; unfold setup_taken, getSpreadStats, executeApprovedTrade, getRiskState, today_state, mkt_now, ask; quiet.
Qed.

(** Every request that reaches the services but [computeAndStore], which none does. *)
Inductive market_request : MktProg unit -> Prop :=
| mr_candles p : candle_request STRATEGY_PAIRS p -> market_request p
| mr_setup : market_request (detached evaluateSetup)
| mr_risk : market_request (detached getRiskState)
| mr_closed pnl : market_request (detached (handleTradeClosed pnl))
| mr_levels : market_request (detached detectAndStoreLevels)
| mr_snapshot : market_request (detached getMarketSnapshot)
| mr_structure : market_request (detached getStructureContext)
| mr_spread : market_request (detached getSpreadStats)
| mr_economic : market_request (detached getEconomicRisk).

Lemma fetch_no_trade sym tf n : emits no_trade (fetchAndStoreCandles sym tf n).
Proof. unfold fetchAndStoreCandles, closed_only, store, mkt_now, ask. quiet. Qed.
Lemma poll_no_trade sched : emits no_trade (pollCandles STRATEGY_PAIRS sched).
Proof.
  unfold pollCandles. apply emits_bind.
  - apply emits_par_all, Forall_concat, Forall_fmap, Forall_forall. intros sym _. simpl.
    repeat constructor; apply fetch_no_trade.
  - intros _. unfold for_each, resampleH1ToD1, mkt_now, ask. quiet.
Qed.

Lemma gi_request p : market_request p ->
  exists (A : Type) (m : MktAsync A), p = pbind m (fun _ => Ret tt) /\ forall i, gi i (fun _ => True) m (fun _ _ => True).
Proof.
  assert (Hq : forall A (m : MktAsync A) i, emits no_trade m -> gi i (fun _ => True) m (fun _ _ => True)).
  { intros A m i He. by apply gi_harmless. }
  intros Hp. destruct Hp as [p Hp| | |pnl| | | | |]; [destruct Hp|..]; do 2 eexists; (split; [reflexivity|]); intros i;
    try apply gi_evaluateSetup; apply Hq.
  - apply poll_no_trade.
  - apply fetch_no_trade.
  - unfold getRecentCandles. quiet.
  - unfold getRiskState, today_state, mkt_now, ask. quiet.
  - unfold handleTradeClosed, mkt_now, ask. quiet.
  - unfold detectAndStoreLevels, getRecentCandles, for_each. quiet.
  - unfold getMarketSnapshot, getRecentCandles, getLatestIndicators. quiet.
  - unfold getStructureContext, getActiveLevels, getLatestIndicators. quiet.
  - unfold getSpreadStats, mkt_now, ask. quiet.
  - unfold getEconomicRisk, mkt_now, ask. quiet.
Qed.

(** The first-generation strategy, which still listens to every stored M15 bar, can no
    longer act: from an empty Indicator table, whatever requests to the market-data, risk
    and strategy services run side by side, the table stays empty and no candidate trade is
    ever stored and no order sent. *)
Theorem first_generation_inert c c' :
  rtc (pstep mkt_sem market_request) c c' -> threads c = [] -> mk_indicators (shared c) = [] ->
  mk_indicators (shared c') = [] /\ mk_candidates (shared c') = mk_candidates (shared c) /\
  mk_orders (shared c') = mk_orders (shared c).
Proof.
  intros Hc Ht Hi.
  enough (idle (shared c) (shared c')) as [H1 H2] by (destruct (H2 Hi); split_and!; congruence).
  eapply (grows_pool mkt_sem idle); [|exact Hc|done].
  intros p Hp. by apply gi_request.
Qed.
End retired.
