(* ===== verification/LlmFilter.v ===== *)
(** * The language-model filter

    src/llm-filter/: [ToolExecutor] (tool-executor.ts) and [LlmFilterService]
    (llm-filter.service.ts).  A candidate trade is shown to a model that may call tools for at
    most three rounds; its last answer is searched for a JSON object, and anything but a
    readable ALLOW is a rejection.  The model is an effect; a tool runs the services of
    [MarketData] and [LegacyStrategy].  The JSON text that a tool hands to the model is kept as the value
    it prints.  A text is a list of
    ASCII characters, a code unit above them the bytes of its encoding; [JSON.parse] is
    defined here. *)
From Stdlib Require Import SpecFloat Ascii.
From S2P Require Import Prelude Async JsNum JsDate Types MarketTypes MarketData LegacyStrategy.
Local Open Scope Z_scope.

(** ** JSON.parse *)
Inductive JVal :=
| JNull | JBool (b : bool) | JNum (x : num) | JStr (s : string) | JArr (l : list JVal) | JObj (l : list (string * JVal)).

Definition char (n : N) : ascii := Ascii.ascii_of_N n.
Definition quote : ascii := char 34.
Definition backslash : ascii := char 92.
Definition lbrace : ascii := char 123.
Definition rbrace : ascii := char 125.
Notation text := (list ascii).
Definition chars (s : string) : text := String.list_ascii_of_string s.
Definition is_char (n : N) (c : ascii) : bool := bool_decide (c = char n).

(** Space, tab, line feed and carriage return. *)
Definition json_space (c : ascii) : bool := is_char 32 c || is_char 9 c || is_char 10 c || is_char 13 c.
Fixpoint skip_space (l : text) : text :=
  match l with c :: l' => if json_space c then skip_space l' else l | [] => [] end.

Fixpoint strip (p l : text) : option text :=
  match p, l with
  | [], _ => Some l
  | c :: p', d :: l' => if bool_decide (c = d) then strip p' l' else None
  | _, [] => None
  end.

Definition hex (c : ascii) : option N :=
  let n := Ascii.N_of_ascii c in
  if (48 <=? n)%N && (n <=? 57)%N then Some (n - 48)%N
  else if (97 <=? n)%N && (n <=? 102)%N then Some (n - 87)%N
  else if (65 <=? n)%N && (n <=? 70)%N then Some (n - 55)%N
  else None.
(** A code unit, as the bytes of its encoding. *)
Definition utf8 (n : N) : text :=
  if (n <? 128)%N then [char n]
  else if (n <? 2048)%N then [char (192 + n / 64)%N; char (128 + n mod 64)%N]
  else [char (224 + n / 4096)%N; char (128 + (n / 64) mod 64)%N; char (128 + n mod 64)%N].
Definition escape (c : ascii) : option ascii :=
  if is_char 34 c || is_char 92 c || is_char 47 c then Some c
  else if is_char 98 c then Some (char 8) else if is_char 102 c then Some (char 12)
  else if is_char 110 c then Some (char 10) else if is_char 114 c then Some (char 13)
  else if is_char 116 c then Some (char 9) else None.

(** The rest of a string after its opening quote. *)
Fixpoint string_body (l : text) : option (text * text) :=
  match l with
  | [] => None
  | c :: l' =>
      if bool_decide (c = quote) then Some ([], l')
      else if bool_decide (c = backslash) then
        match l' with
        | e :: l1 =>
            if is_char 117 e then
              match l1 with
              | h1 :: h2 :: h3 :: h4 :: l2 =>
                  match hex h1, hex h2, hex h3, hex h4 with
                  | Some a, Some b, Some c, Some d =>
                      match string_body l2 with
                      | Some (s, r) => Some (utf8 (4096 * a + 256 * b + 16 * c + d)%N ++ s, r)
                      | None => None
                      end
                  | _, _, _, _ => None
                  end
              | _ => None
              end
            else match escape e, string_body l1 with Some x, Some (s, r) => Some (x :: s, r) | _, _ => None end
        | [] => None
        end
      else if (Ascii.N_of_ascii c <? 32)%N then None
      else match string_body l' with Some (s, r) => Some (c :: s, r) | None => None end
  end.

(** Digits: their value, their number and what follows. *)
Fixpoint digits_of (acc count : Z) (l : text) : Z * Z * text :=
  match l with
  | c :: l' => match digit c with Some d => digits_of (10 * acc + d) (count + 1) l' | None => (acc, count, l) end
  | [] => (acc, count, [])
  end.
(** [m * 10^k], the nearest double. *)
Definition scaled (neg : bool) (m k : Z) : num :=
  match (m * 10 ^ Z.max k 0)%Z, (10 ^ Z.max (- k) 0)%Z with
  | Z.pos p, Z.pos q => SFdiv 53 1024 (S754_finite neg p 0) (S754_finite false q 0)
  | _, _ => S754_zero neg
  end.
(** A literal of digits [m] with [d] decimals and the exponent [e]. *)
Definition number (neg : bool) (m d e : Z) : num := scaled neg m (e - d).
Definition exponent (l : text) : option (Z * text) :=
  match l with
  | c :: l1 =>
      if is_char 101 c || is_char 69 c then
        let '(neg, l2) := match l1 with
                          | s :: l2 => if is_char 45 s then (true, l2) else if is_char 43 s then (false, l2) else (false, l1)
                          | [] => (false, l1)
                          end in
        let '(e, n, l3) := digits_of 0 0 l2 in
        if n =? 0 then None else Some ((if neg : bool then - e else e), l3)
      else Some (0, l)
  | [] => Some (0, [])
  end.
Definition parse_number (l : text) : option (num * text) :=
  let '(neg, l0) := match l with c :: l' => if is_char 45 c then (true, l') else (false, l) | [] => (false, l) end in
  let '(m, n, l1) := digits_of 0 0 l0 in
  let leading_zero := match l0 with c :: _ => is_char 48 c | [] => false end in
  if (n =? 0) || (leading_zero && (1 <? n)) then None
  else
    match l1 with
    | c :: l2 =>
        if is_char 46 c then
          let '(m2, d, l3) := digits_of m 0 l2 in
          if d =? 0 then None
          else match exponent l3 with Some (e, l4) => Some (number neg m2 d e, l4) | None => None end
        else match exponent l1 with Some (e, l3) => Some (number neg m 0 e, l3) | None => None end
    | [] => Some (number neg m 0 0, [])
    end.

(** Values, the rest of an array after a value, and the members of an object. *)
Fixpoint parse_value (fuel : nat) (l : text) {struct fuel} : option (JVal * text) :=
  match fuel with
  | O => None
  | S fuel =>
      match skip_space l with
      | [] => None
      | (c :: l') as l0 =>
          if bool_decide (c = lbrace) then
            match skip_space l' with
            | d :: r => if bool_decide (d = rbrace) then Some (JObj [], r)
                        else option_map (fun '(ms, r) => (JObj ms, r)) (parse_members fuel l')
            | [] => None
            end
          else if is_char 91 c then
            match skip_space l' with
            | d :: r => if is_char 93 d then Some (JArr [], r)
                        else option_map (fun '(vs, r) => (JArr vs, r)) (parse_elements fuel l')
            | [] => None
            end
          else if bool_decide (c = quote) then
            option_map (fun '(s, r) => (JStr (String.string_of_list_ascii s), r)) (string_body l')
          else
            match strip (chars "true") l0, strip (chars "false") l0, strip (chars "null") l0 with
            | Some r, _, _ => Some (JBool true, r)
            | _, Some r, _ => Some (JBool false, r)
            | _, _, Some r => Some (JNull, r)
            | _, _, _ => option_map (fun '(x, r) => (JNum x, r)) (parse_number l0)
            end
      end
  end
with parse_elements (fuel : nat) (l : text) {struct fuel} : option (list JVal * text) :=
  match fuel with
  | O => None
  | S fuel =>
      match parse_value fuel l with
      | Some (v, r) =>
          match skip_space r with
          | c :: r' =>
              if is_char 44 c then option_map (fun '(vs, r) => (v :: vs, r)) (parse_elements fuel r')
              else if is_char 93 c then Some ([v], r')
              else None
          | [] => None
          end
      | None => None
      end
  end
with parse_members (fuel : nat) (l : text) {struct fuel} : option (list (string * JVal) * text) :=
  match fuel with
  | O => None
  | S fuel =>
      match skip_space l with
      | c :: l1 =>
          if bool_decide (c = quote) then
            match string_body l1 with
            | Some (k, l2) =>
                match skip_space l2 with
                | d :: l3 =>
                    if is_char 58 d then
                      match parse_value fuel l3 with
                      | Some (v, r) =>
                          let kv := (String.string_of_list_ascii k, v) in
                          match skip_space r with
                          | c :: r' =>
                              if is_char 44 c then option_map (fun '(ms, r) => (kv :: ms, r)) (parse_members fuel r')
                              else if bool_decide (c = rbrace) then Some ([kv], r')
                              else None
                          | [] => None
                          end
                      | None => None
                      end
                    else None
                | [] => None
                end
            | None => None
            end
          else None
      | [] => None
      end
  end.

(** Twice the length is enough fuel ([parse_fuel]): an array asks for a value where it
    stands, and every other call has read a character.  Nothing but space may follow. *)
Definition JSON_parse (l : text) : option JVal :=
  match parse_value (S (2 * length l)) l with
  | Some (v, r) => match skip_space r with [] => Some v | _ => None end
  | None => None
  end.
(** [parsed.key]: the last member of that name. *)
Definition field (key : string) (v : JVal) : option JVal :=
  match v with
  | JObj l => snd <$> last (filter (fun kv => kv.1 = key) l)
  | _ => None
  end.
Definition truthy (v : JVal) : bool :=
  match v with
  | JNull => false | JBool b => b | JNum x => negb (is_nan x) && negb (neqb x (of_Z 0)) | JStr s => truthy_string s
  | JArr _ | JObj _ => true
  end.

(** ** Tools *)

(** What a tool prints: the value given to [JSON.stringify]. *)
Inductive ToolOutput :=
| RiskOut (d : RiskStateDto) | SnapshotOut (s : MarketSnapshot) | ContextOut (c : StructureContext)
| LevelsOut (l : list LevelRow) | EconomicOut (r : EconomicRisk) | SpreadOut (s : SpreadStats)
| ToolError (e : string).

Section llm.
Local Open Scope async_scope.

(** The arguments are not looked at. *)
Definition execute_tool (toolName : string) (_input : JVal) : MktAsync ToolOutput :=
  try_catch
    (if bool_decide (toolName = "get_account_risk_state"%string) then d <~ getRiskState ;; resolve (RiskOut d)
     else if bool_decide (toolName = "get_market_snapshot"%string) then s <~ getMarketSnapshot ;; resolve (SnapshotOut s)
     else if bool_decide (toolName = "get_structure_context"%string) then c <~ getStructureContext ;; resolve (ContextOut c)
     else if bool_decide (toolName = "get_sr_levels"%string) then l <~ getActiveLevels ;; resolve (LevelsOut l)
     else if bool_decide (toolName = "get_economic_risk"%string) then r <~ getEconomicRisk ;; resolve (EconomicOut r)
     else if bool_decide (toolName = "get_spread_stats"%string) then s <~ getSpreadStats ;; resolve (SpreadOut s)
     else resolve (ToolError ("Unknown tool: " +:+ toolName)))
    (fun e => resolve (ToolError ("Tool execution failed: " +:+ e))).

(** ** Messages, answers and effects *)
Record ToolCall := { tc_id : string; tc_type : string; tc_name : string; tc_arguments : string }.
Record AssistantMessage := { am_content : option string; am_tool_calls : option (list ToolCall) }.
(** [choices] and [usage] (prompt and completion tokens). *)
Record Completion := { cp_choices : list AssistantMessage; cp_usage : option (Z * Z) }.

Record LlmValidationRequest := { rq_id : option string; rq_candidate : CandidateTradeDto }.
Inductive Message :=
| SystemMessage | UserMessage (r : LlmValidationRequest)
| Assistant (m : AssistantMessage) | ToolMessage (tool_call_id : string) (content : ToolOutput).

Inductive LlmDecisionType := ALLOW | REJECT.
#[export] Instance LlmDecisionType_eq_dec : EqDecision LlmDecisionType.
Proof. solve_decision. Defined.
Record Decision := { dc_decision : LlmDecisionType; dc_confidence : num; dc_reasoning : JVal }.
Record LlmDecisionRow := {
  lr_candidateId : string; lr_decision : Decision; lr_toolsUsed : list string; lr_rawResponse : string;
  lr_inputTokens : Z; lr_outputTokens : Z; lr_latencyMs : Z }.

Inductive LlmAct :=
| LClock
| Chat (messages : list Message)
| LMkt (e : MktAct)
| StoreDecision (row : LlmDecisionRow)
| PublishDecision (candidateId : option string) (decision : LlmDecisionType) (confidence : num).
Definition llm_result (e : LlmAct) : Type :=
  match e with
  | LClock => Z
  | Chat _ => Res Completion
  | LMkt e => mkt_result e
  | StoreDecision _ | PublishDecision _ _ _ => Res unit
  end.
Definition LlmProg (A : Type) : Type := @Prog LlmAct llm_result A.
Definition LlmAsync (A : Type) : Type := @Async LlmAct llm_result A.
Definition llm_now : LlmAsync Z := @ask LlmAct llm_result LClock.
Definition ask_llm (e : LlmAct) : LlmProg (llm_result e) := perform e.

(** A call into the services of the market data. *)
Fixpoint lift {A} (p : MktProg A) : LlmProg A :=
  match p with
  | Ret a => Ret a
  | Act e k => Act (result := llm_result) (LMkt e) (fun x => lift (k x))
  end.

(** ** LlmFilterService *)

(** [text.match(/{[\s\S]*?"decision"[\s\S]*?}/)]: from the first brace to the first closing
    brace after the first mention of the decision. *)
Definition decision_key : text := quote :: chars "decision" ++ [quote].
Fixpoint up_to_brace (l : text) : option text :=
  match l with
  | [] => None
  | c :: l' => if bool_decide (c = rbrace) then Some [c] else (c ::.) <$> up_to_brace l'
  end.
Fixpoint from_key (l : text) : option text :=
  match strip decision_key l with
  | Some r => (decision_key ++.) <$> up_to_brace r
  | None => match l with [] => None | c :: l' => (c ::.) <$> from_key l' end
  end.
Fixpoint json_match (l : text) : option text :=
  match l with
  | [] => None
  | c :: l' => if bool_decide (c = lbrace) then (c ::.) <$> from_key l' else json_match l'
  end.

Definition unparsed (t : string) : Decision := {|
  dc_decision := REJECT; dc_confidence := of_Z 0;
  dc_reasoning := JStr ("Failed to parse LLM response: " +:+ String.substring 0 200 t) |}.
Definition decision_of (parsed : JVal) : Decision := {|
  dc_decision := match field "decision" parsed with
                 | Some (JStr s) => if bool_decide (s = "ALLOW"%string) then ALLOW else REJECT
                 | _ => REJECT
                 end;
  dc_confidence := match field "confidence" parsed with Some (JNum x) => x | _ => lit 5 1 end;
  dc_reasoning := match field "reasoning" parsed with
                  | Some v => if truthy v then v else JStr "No reasoning provided"
                  | None => JStr "No reasoning provided"
                  end |}.
Definition parseDecision (t : string) : Decision :=
  match json_match (chars t) with
  | Some j => match JSON_parse j with Some v => decision_of v | None => unparsed t end
  | None => unparsed t
  end.

Record LlmValidationResponse := { rs_decision : Decision; rs_toolsUsed : list string }.

(** One round's calls.  [toolsUsed] and [messages] are shared with the caller, who reads
    [toolsUsed] even when a call throws. *)
Definition arguments (s : string) : JVal :=
  default (JObj []) (JSON_parse (chars (if truthy_string s then s else "{}"))).
Fixpoint run_tools (calls : list ToolCall) (st : list Message * list string)
    : LlmProg ((list Message * list string) * Res unit) :=
  match calls with
  | [] => Ret (st, Ok tt)
  | c :: calls' =>
      if negb (bool_decide (tc_type c = "function"%string)) then run_tools calls' st
      else
        let '(messages, toolsUsed) := st in
        let toolsUsed := toolsUsed ++ [tc_name c] in
        pbind (lift (execute_tool (tc_name c) (arguments (tc_arguments c)))) (fun r =>
          match r with
          | Ok out => run_tools calls' (messages ++ [ToolMessage (tc_id c) out], toolsUsed)
          | Throw e => Ret ((messages, toolsUsed), Throw e)
          end)
  end.

Definition no_choice : string := "Cannot read properties of undefined (reading 'message')".
(** The loop with [n] rounds left; [response] is that of the round before. *)
Fixpoint tool_rounds (n : nat) (response : option Completion) (st : list Message * list string)
    : LlmProg (list string * Res (option Completion)) :=
  match n with
  | O => Ret (st.2, Ok response)
  | S n =>
      pbind (ask_llm (Chat st.1)) (fun r =>
        match r with
        | Throw e => Ret (st.2, Throw e)
        | Ok resp =>
            match cp_choices resp with
            | [] => Ret (st.2, Throw no_choice)
            | m :: _ =>
                match am_tool_calls m with
                | None | Some [] => Ret (st.2, Ok (Some resp))
                | Some calls =>
                    pbind (run_tools calls (st.1 ++ [Assistant m], st.2)) (fun '(st', r) =>
                      match r with
                      | Ok _ => tool_rounds n (Some resp) st'
                      | Throw e => Ret (st'.2, Throw e)
                      end)
                end
            end
        end)
  end.
Definition MAX_TOOL_ROUNDS : nat := 3.

Definition final_content (m : AssistantMessage) : string := default "" (am_content m).

(** What follows the loop: the verdict, its row and its publication. *)
Definition conclude (request : LlmValidationRequest) (startTime : Z) (toolsUsed : list string)
    (response : option Completion) : LlmAsync LlmValidationResponse :=
  match response with
  | Some {| cp_choices := m :: _; cp_usage := usage |} =>
      let finalContent := final_content m in
      let decision := parseDecision finalContent in
      now <~ llm_now ;;
      await! match rq_id request with
             | Some id =>
                 if truthy_string id then
                   (ask_llm (StoreDecision {|
                      lr_candidateId := id; lr_decision := decision; lr_toolsUsed := toolsUsed;
                      lr_rawResponse := finalContent; lr_inputTokens := default 0 (fst <$> usage);
                      lr_outputTokens := default 0 (snd <$> usage); lr_latencyMs := now - startTime |}) : LlmAsync _)
                 else resolve tt
             | None => resolve tt
             end ;;
      await! (ask_llm (PublishDecision (rq_id request) (dc_decision decision) (dc_confidence decision)) : LlmAsync _) ;;
      resolve {| rs_decision := decision; rs_toolsUsed := toolsUsed |}
  | _ => reject no_choice
  end.

Definition validation_error (toolsUsed : list string) (e : string) : LlmValidationResponse := {|
  rs_decision := {| dc_decision := REJECT; dc_confidence := of_Z 0; dc_reasoning := JStr ("Validation error: " +:+ e) |};
  rs_toolsUsed := toolsUsed |}.

Definition validateCandidate (request : LlmValidationRequest) : LlmAsync LlmValidationResponse :=
  startTime <~ llm_now ;;
  pbind (tool_rounds MAX_TOOL_ROUNDS None ([SystemMessage; UserMessage request], [])) (fun '(toolsUsed, r) =>
    try_catch (match r with Ok response => conclude request startTime toolsUsed response | Throw e => reject e end)
              (fun e => resolve (validation_error toolsUsed e))).
End llm.
