(* ===== verification/LlmFacts.v ===== *)
(** * Theorems about the language-model filter

    The fuel of [JSON.parse] is enough.  A candidate passes only on a readable ALLOW in the
    last answer, with its row stored and its verdict published, and a verdict the way the
    system prompt asks for it is read back. *)
From Stdlib Require Import SpecFloat Ascii.
From S2P Require Import Prelude Async JsNum JsDate Types Indicators MarketTypes MarketData LegacyStrategy LegacyFacts LlmFilter.
Local Open Scope Z_scope.

(** ** JSON.parse: what is left is shorter, and the fuel is enough *)
Lemma skip_space_length l : (length (skip_space l) <= length l)%nat.
Proof. induction l as [|c l IH]; simpl; [done|]. destruct (json_space c); simpl; lia. Qed.

Lemma strip_length p l r : strip p l = Some r -> length l = (length p + length r)%nat.
Proof.
  revert l. induction p as [|c p IH]; intros [|d l]; simpl; intros H; simplify_eq; [done|done|].
  case_bool_decide; [|done]. by rewrite (IH _ H).
Qed.

Lemma string_body_length n l s r : (length l <= n)%nat -> string_body l = Some (s, r) -> (length r < length l)%nat.
Proof.
  revert l s r. induction n as [|n IH]; intros [|c l] s r Hn; simpl in *; [done|lia|done|].
  assert (Hrec : forall l' s r, (length l' <= length l)%nat -> string_body l' = Some (s, r) -> (length r < length l')%nat)
    by (intros; eapply IH; [|done]; lia).
  intros H. case_bool_decide; [simplify_eq; lia|]. case_bool_decide.
  - destruct l as [|e l]; [done|]. simpl in *. destruct (is_char 117 e).
    + destruct l as [|h1 [|h2 [|h3 [|h4 l]]]]; simplify_eq. simpl in *.
      destruct (hex h1), (hex h2), (hex h3), (hex h4); simplify_eq.
      destruct (string_body l) as [[s' r']|] eqn:E; [|done]. simplify_eq. apply Hrec in E; lia.
    + destruct (escape e), (string_body l) as [[s' r']|] eqn:E; simplify_eq. apply Hrec in E; lia.
  - destruct (_ <? _)%N; [done|]. destruct (string_body l) as [[s' r']|] eqn:E; [|done]. simplify_eq.
    apply Hrec in E; lia.
Qed.

Lemma digits_of_length acc n l m k r :
  digits_of acc n l = (m, k, r) -> Z.of_nat (length l) = Z.of_nat (length r) + (k - n) /\ n <= k.
Proof.
  revert acc n. induction l as [|c l IH]; simpl; intros acc n H; [simplify_eq; simpl; lia|].
  destruct (digit c); [apply IH in H; lia|]. simplify_eq. simpl. lia.
Qed.

Lemma exponent_length l e r : exponent l = Some (e, r) -> (length r <= length l)%nat.
Proof.
  destruct l as [|c l]; simpl; [by intros [= _ <-]|].
  destruct (is_char 101 c || is_char 69 c); [|by intros [= _ <-]].
  destruct (match l with [] => _ | _ => _ end) as [neg l2] eqn:El.
  assert (length l2 <= length l)%nat by (destruct l as [|d l]; simplify_eq/=; case_all; lia).
  destruct (digits_of 0 0 l2) as [[e' n] l3] eqn:E. apply digits_of_length in E.
  destruct (n =? 0); intros [= _ <-]. lia.
Qed.

Lemma parse_number_length l x r : parse_number l = Some (x, r) -> (length r < length l)%nat.
Proof.
  unfold parse_number. destruct (match l with [] => _ | _ => _ end) as [neg l0] eqn:El.
  assert (length l0 <= length l)%nat by (destruct l as [|d l]; simplify_eq/=; case_all; simpl in *; lia).
  destruct (digits_of 0 0 l0) as [[m n] l1] eqn:E. apply digits_of_length in E as [E En].
  destruct (Z.eqb_spec n 0) as [->|Hn]; [done|]. cbn [orb]. destruct (_ && _); [done|].
  assert (length l1 < length l)%nat by lia.
  destruct l1 as [|c l2]; [intros [= _ <-]; simpl; lia|]. destruct (is_char 46 c).
  - destruct (digits_of m 0 l2) as [[m2 d] l3] eqn:E2. apply digits_of_length in E2 as [E2 Hd].
    destruct (Z.eqb_spec d 0); [done|]. destruct (exponent l3) as [[e l4]|] eqn:E3; [|done].
    apply exponent_length in E3. intros [= _ <-]. simpl in *. lia.
  - destruct (exponent (c :: l2)) as [[e l3]|] eqn:E3; [|done].
    apply exponent_length in E3. intros [= _ <-]. lia.
Qed.

(** What follows the blanks. *)
Lemma skip_space_cons l c r : skip_space l = c :: r -> (length r < length l)%nat.
Proof. intros H. pose proof (skip_space_length l) as Hl. rewrite H in Hl. simpl in Hl. lia. Qed.

(** Uses the lemmas above on every equation at hand. *)
Ltac shorter := repeat match goal with
  | H : skip_space _ = _ :: _ |- _ => apply skip_space_cons in H
  | H : string_body _ = Some (_, _) |- _ => apply (string_body_length _ _ _ _ (Nat.le_refl _)) in H
  | H : strip _ _ = Some _ |- _ => apply strip_length in H
  | H : parse_number _ = Some (_, _) |- _ => apply parse_number_length in H
  end.

Lemma parse_shorter f :
  (forall l v r, parse_value f l = Some (v, r) -> (length r < length l)%nat) /\
  (forall l vs r, parse_elements f l = Some (vs, r) -> (length r < length l)%nat) /\
  (forall l ms r, parse_members f l = Some (ms, r) -> (length r < length l)%nat).
Proof.
  induction f as [|f (IHv & IHe & IHm)]; [done|].
  split_and!; intros l v r H; simpl in H; repeat case_match; simplify_option_eq;
    repeat match goal with
    | H : _ <$> ?x = Some _ |- _ => destruct x as [[? ?]|] eqn:?; simplify_eq/=
    | H : option_map _ ?x = Some _ |- _ => destruct x as [[? ?]|] eqn:?; simplify_eq/=
    end;
    repeat match goal with
    | H : parse_value f _ = Some _ |- _ => apply IHv in H
    | H : parse_elements f _ = Some _ |- _ => apply IHe in H
    | H : parse_members f _ = Some _ |- _ => apply IHm in H
    end; shorter; simpl in *; try lia.
Qed.

Lemma parse_fuel f : forall f',
  (forall l, (2 * length l + 1 <= f)%nat -> (2 * length l + 1 <= f')%nat -> parse_value f l = parse_value f' l) /\
  (forall l, (2 * length l + 2 <= f)%nat -> (2 * length l + 2 <= f')%nat -> parse_elements f l = parse_elements f' l) /\
  (forall l, (2 * length l + 1 <= f)%nat -> (2 * length l + 1 <= f')%nat -> parse_members f l = parse_members f' l).
Proof.
  induction f as [|f IH]; intros [|f']; [split_and!; intros; lia..|].
  destruct (IH f') as (IHv & IHe & IHm). clear IH. split_and!; intros l H1 H2; simpl.
  - destruct (skip_space l) as [|c l'] eqn:El; [done|]. shorter. rewrite (IHe l'), (IHm l') by lia. done.
  - rewrite (IHv l) by lia. destruct (parse_value f' l) as [[v r]|] eqn:Ev; [|done].
    destruct (skip_space r) as [|c r'] eqn:Er; [done|]. shorter. apply (proj1 (parse_shorter _)) in Ev. by rewrite (IHe r') by lia.
  - destruct (skip_space l) as [|c l1] eqn:El; [done|]. case_bool_decide; [|done].
    destruct (string_body l1) as [[k l2]|] eqn:Ek; [|done].
    destruct (skip_space l2) as [|d l3] eqn:E2; [done|]. shorter. destruct (is_char 58 d); [|done].
    rewrite (IHv l3) by lia. destruct (parse_value f' l3) as [[v r]|] eqn:Ev; [|done].
    destruct (skip_space r) as [|e r'] eqn:Er; [done|]. shorter. apply (proj1 (parse_shorter _)) in Ev. by rewrite (IHm r') by lia.
Qed.

(** ** A verdict is read back *)

(** [JSON.stringify] of a string, for the characters of ASCII. *)
Definition hex_digit (n : N) : ascii := char (if n <? 10 then 48 + n else 87 + n)%N.
Definition escaped (c : ascii) : text :=
  let n := Ascii.N_of_ascii c in
  if bool_decide (c = quote) || bool_decide (c = backslash) then [backslash; c]
  else if (n <? 32)%N then [backslash; char 117; char 48; char 48; hex_digit (n / 16); hex_digit (n mod 16)]
  else [c].
Definition quoted (l : text) : text := quote :: concat (escaped <$> l) ++ [quote].

Lemma string_body_quoted l rest : string_body (concat (escaped <$> l) ++ quote :: rest) = Some (l, rest).
Proof.
  induction l as [|c l IH]; [reflexivity|]. cbn [fmap list_fmap concat]. rewrite <- app_assoc.
  set (k := concat (escaped <$> l) ++ quote :: rest) in *.
  assert (H : string_body (escaped c ++ k) = match string_body k with Some (s, r) => Some (c :: s, r) | None => None end).
  { clear IH. clearbody k. destruct c as [[] [] [] [] [] [] [] []]; reflexivity. }
  by rewrite H, IH.
Qed.

Notation of_chars := String.string_of_list_ascii.

Lemma quoted_app k r : quoted k ++ r = quote :: concat (escaped <$> k) ++ quote :: r.
Proof. unfold quoted. by rewrite <- app_comm_cons, <- app_assoc. Qed.

(** White space between the tokens. *)
Definition blank (w : text) : Prop := Forall (fun c => json_space c = true) w.
Lemma skip_blank w l : blank w -> skip_space (w ++ l) = skip_space l.
Proof. induction 1 as [|c w Hc _ IH]; [done|]. cbn. by rewrite Hc. Qed.
Lemma skip_blank_cons w c l : blank w -> json_space c = false -> skip_space (w ++ c :: l) = c :: l.
Proof. intros Hw Hc. rewrite skip_blank by done. cbn. by rewrite Hc. Qed.
Lemma parse_value_blank f w l : blank w -> parse_value f (w ++ l) = parse_value f l.
Proof. intros Hw. destruct f as [|f]; [done|]. cbn [parse_value]. by rewrite skip_blank. Qed.

Lemma value_string f k r : parse_value (S f) (quoted k ++ r) = Some (JStr (of_chars k), r).
Proof.
  rewrite quoted_app. set (x := concat _ ++ _).
  change (option_map (fun '(s, r) => (JStr (of_chars s), r)) (string_body x) = Some (JStr (of_chars k), r)).
  unfold x. by rewrite string_body_quoted.
Qed.

(** A member of an object, with the blanks around its tokens, up to the sign that follows. *)
Definition member (w1 : text) (k : string) (w2 w3 v w4 : text) : text :=
  w1 ++ quoted (chars k) ++ w2 ++ char 58 :: w3 ++ v ++ w4.
Lemma parse_member f w1 k w2 w3 v w4 x c r :
  blank w1 -> blank w2 -> blank w3 -> blank w4 -> json_space c = false ->
  parse_value f (v ++ w4 ++ c :: r) = Some (x, w4 ++ c :: r) ->
  parse_members (S f) (member w1 k w2 w3 v w4 ++ c :: r) =
    if is_char 44 c then option_map (fun '(ms, r) => ((k, x) :: ms, r)) (parse_members f r)
    else if bool_decide (c = rbrace) then Some ([(k, x)], r) else None.
Proof.
  intros H1 H2 H3 H4 Hc H. unfold member. rewrite <- !app_assoc, <- app_comm_cons, <- !app_assoc, quoted_app.
  cbn [parse_members]. rewrite skip_blank_cons by done. rewrite bool_decide_eq_true_2 by done.
  rewrite string_body_quoted. cbn iota beta. rewrite skip_blank_cons by done. cbn iota beta.
  change (is_char 58 (char 58)) with true. cbn iota beta. rewrite parse_value_blank by done. rewrite H. cbn iota beta.
  rewrite skip_blank_cons by done. cbn iota beta zeta.
  by replace (of_chars (chars k)) with k by (symmetry; apply String.string_of_list_ascii_of_string).
Qed.

(** A number written with a digit, a point and at least one more digit, and its value: the
    double nearest to it. *)
Definition digit_char (d : Z) : ascii := char (Z.to_N (48 + d)).
Definition is_digit (d : Z) : Prop := 0 <= d <= 9.
Definition decimal (i : Z) (ds : list Z) : text := digit_char i :: char 46 :: (digit_char <$> ds).
Definition decimal_value (i : Z) (ds : list Z) : num :=
  scaled false (fold_left (fun m d => 10 * m + d) ds i) (- zlen ds).

Lemma digit_cases d : is_digit d -> d ∈ seqZ 0 10.
Proof. intros H. apply elem_of_seqZ. unfold is_digit in H. lia. Qed.
Lemma digit_read d : is_digit d -> digit (digit_char d) = Some d.
Proof.
  intros H%digit_cases. revert d H. apply Forall_forall. apply (bool_decide_unpack _). vm_compute. exact I.
Qed.
(** What may follow a number. *)
Definition no_number (l : text) : Prop :=
  match l with c :: _ => digit c = None /\ is_char 101 c = false /\ is_char 69 c = false | [] => True end.
Lemma digits_read ds acc n l : Forall is_digit ds -> no_number l ->
  digits_of acc n ((digit_char <$> ds) ++ l) = (fold_left (fun m d => 10 * m + d) ds acc, n + zlen ds, l).
Proof.
  intros Hds Hl. revert acc n. induction Hds as [|d ds Hd _ IH]; intros acc n.
  - cbn [fmap list_fmap fold_left]. rewrite app_nil_l. change (zlen (@nil Z)) with 0. rewrite Z.add_0_r.
    destruct l as [|c l]; [done|]. cbn. by rewrite (proj1 Hl).
  - cbn. rewrite digit_read by done. rewrite IH. unfold zlen. cbn [length]. do 2 f_equal. lia.
Qed.
Lemma exponent_none l : no_number l -> exponent l = Some (0, l).
Proof. destruct l as [|c l]; [done|]. intros (_ & H1 & H2). cbn. by rewrite H1, H2. Qed.

Lemma value_decimal f i ds l : is_digit i -> Forall is_digit ds -> ds <> [] -> no_number l ->
  parse_value (S f) (decimal i ds ++ l) = Some (JNum (decimal_value i ds), l).
Proof.
  intros Hi Hds Hne Hl. unfold decimal. rewrite <- !app_comm_cons. set (k := (digit_char <$> ds) ++ l).
  assert (E : parse_value (S f) (digit_char i :: char 46 :: k) =
    option_map (fun '(x, r) => (JNum x, r))
      (let '(m2, d, l3) := digits_of i 0 k in
       if d =? 0 then None else match exponent l3 with Some (e, l4) => Some (number false m2 d e, l4) | None => None end)).
  { clearbody k. clear - Hi. apply digit_cases in Hi. change (i ∈ [0; 1; 2; 3; 4; 5; 6; 7; 8; 9]) in Hi.
    repeat (apply elem_of_cons in Hi as [->|Hi]; [reflexivity|]). by apply elem_of_nil in Hi. }
  rewrite E. unfold k. rewrite digits_read by done.
  rewrite (proj2 (Z.eqb_neq _ _)) by (destruct ds; [done|]; unfold zlen; cbn [length]; lia).
  rewrite exponent_none by done. unfold number, decimal_value. cbn [option_map]. do 4 f_equal; lia.
Qed.
Lemma blank_no_number w c l : blank w -> no_number (c :: l) -> no_number (w ++ c :: l).
Proof.
  intros Hw Hc. destruct Hw as [|d w Hd _]; [done|]. rewrite <- app_comm_cons. cbn. revert Hd.
  destruct d as [[] [] [] [] [] [] [] []]; vm_compute; try discriminate; auto.
Qed.

(** The object that the system prompt asks for, on one line or on many: [b] gives the blanks
    around the tokens. *)
Definition verdict (b : nat -> text) (d : string) (confidence r : text) : text :=
  member (b 0%nat) "decision" (b 1%nat) (b 2%nat) (quoted (chars d)) (b 3%nat) ++ char 44 ::
  member (b 4%nat) "confidence" (b 5%nat) (b 6%nat) confidence (b 7%nat) ++ char 44 ::
  member (b 8%nat) "reasoning" (b 9%nat) (b 10%nat) (quoted r) (b 11%nat).

Lemma verdict_members f b d i ds r :
  (forall k, blank (b k)) -> is_digit i -> Forall is_digit ds -> ds <> [] ->
  parse_members (S (S (S (S f)))) (verdict b d (decimal i ds) r ++ [rbrace]) =
    Some ([("decision"%string, JStr d); ("confidence"%string, JNum (decimal_value i ds)); ("reasoning"%string, JStr (of_chars r))], []).
Proof.
  intros Hb Hi Hds Hne. unfold verdict. rewrite <- app_assoc, <- app_comm_cons, <- app_assoc, <- app_comm_cons.
  erewrite parse_member by first [apply Hb | apply value_string | done].
  erewrite parse_member by
    first [apply Hb | apply value_decimal; [done..|]; apply blank_no_number; [apply Hb|done] | done].
  erewrite parse_member by first [apply Hb | apply value_string | done].
  replace (of_chars (chars d)) with d by (symmetry; apply String.string_of_list_ascii_of_string). reflexivity.
Qed.

Lemma verdict_starts b d c r : exists l, verdict b d c r = b 0%nat ++ quote :: l.
Proof. unfold verdict, member, quoted. rewrite <- !app_assoc. by eexists. Qed.
Lemma verdict_parse b d i ds r :
  (forall k, blank (b k)) -> is_digit i -> Forall is_digit ds -> ds <> [] ->
  JSON_parse (lbrace :: verdict b d (decimal i ds) r ++ [rbrace]) =
    Some (JObj [("decision"%string, JStr d); ("confidence"%string, JNum (decimal_value i ds)); ("reasoning"%string, JStr (of_chars r))]).
Proof.
  intros Hb Hi Hds Hne. unfold JSON_parse. set (l := lbrace :: _).
  replace (parse_value (S (2 * length l)) l) with (parse_value (8 + 2 * length l)%nat l)
    by (apply (proj1 (parse_fuel _ _)); lia).
  set (f := (2 * length l)%nat). clearbody f. subst l. set (m := verdict _ _ _ _ ++ [rbrace]).
  assert (E : parse_value (8 + f) (lbrace :: m) = option_map (fun '(ms, r) => (JObj ms, r)) (parse_members (7 + f) m)).
  { destruct (verdict_starts b d (decimal i ds) r) as [l El]. unfold m. rewrite El, <- app_assoc, <- app_comm_cons.
    clear - Hb. set (f' := (7 + f)%nat). change (8 + f)%nat with (S f'). clearbody f'. cbn [parse_value skip_space].
    change (json_space lbrace) with false. cbn iota beta. rewrite bool_decide_eq_true_2 by done.
    rewrite skip_blank_cons by first [apply Hb | done]. cbn iota beta. by rewrite bool_decide_eq_false_2 by done. }
  rewrite E. change (7 + f)%nat with (S (S (S (S (3 + f))))). unfold m. by rewrite verdict_members.
Qed.

(** The regular expression finds the first object that mentions a decision. *)
Lemma strip_app p l : strip p (p ++ l) = Some l.
Proof. induction p as [|c p IH]; simpl; [done|]. by rewrite bool_decide_eq_true_2 by done. Qed.

Lemma up_to_brace_app l post : rbrace ∉ l -> up_to_brace (l ++ rbrace :: post) = Some (l ++ [rbrace]).
Proof.
  induction l as [|c l IH]; simpl; intros H; [reflexivity|]. apply not_elem_of_cons in H as [Hc Hl].
  rewrite bool_decide_eq_false_2 by done. by rewrite IH.
Qed.

Lemma escaped_no_brace l : rbrace ∉ l -> rbrace ∉ concat (escaped <$> l).
Proof.
  intros H. induction l as [|c l IH]; [set_solver|]. apply not_elem_of_cons in H as [Hc Hl].
  cbn [fmap list_fmap concat]. apply not_elem_of_app. split; [|auto].
  assert (Hall : forall c, bool_decide (rbrace ∈ escaped c) = bool_decide (c = rbrace))
    by (intros [[] [] [] [] [] [] [] []]; reflexivity).
  apply (bool_decide_eq_false_1 _). rewrite Hall. by apply bool_decide_eq_false_2.
Qed.
Lemma quoted_no_brace l : rbrace ∉ l -> rbrace ∉ quoted l.
Proof.
  intros H. apply not_elem_of_cons. split; [done|]. apply not_elem_of_app. split; [by apply escaped_no_brace|].
  apply not_elem_of_cons. split; [done|set_solver].
Qed.

Lemma blank_no_brace w : blank w -> rbrace ∉ w.
Proof. intros Hw Hin. unfold blank in Hw. rewrite Forall_forall in Hw. by specialize (Hw _ Hin). Qed.
Lemma decimal_no_brace i ds : is_digit i -> Forall is_digit ds -> rbrace ∉ decimal i ds.
Proof.
  intros Hi Hds. assert (Hc : forall d, is_digit d -> rbrace <> digit_char d) by (intros d Hd%digit_read Hx; by rewrite <- Hx in Hd).
  unfold decimal. apply not_elem_of_cons. split; [by apply Hc|]. apply not_elem_of_cons. split; [done|].
  intros (d & Hd & Hin)%list_elem_of_fmap. rewrite Forall_forall in Hds. by apply (Hc d); [apply Hds|].
Qed.

Lemma from_key_blank w l : blank w -> from_key (w ++ l) = (w ++.) <$> from_key l.
Proof.
  induction 1 as [|c w Hc _ IH]; [rewrite app_nil_l; by destruct (from_key l)|]. rewrite <- app_comm_cons.
  assert (Hq : forall l, strip decision_key (c :: l) = None).
  { intros l'. cbn. rewrite bool_decide_eq_false_2; [done|]. intros <-. discriminate Hc. }
  cbn [from_key]. rewrite Hq, IH. by destruct (from_key l).
Qed.
Lemma json_match_blank pre w l post :
  lbrace ∉ pre -> blank w -> rbrace ∉ l ->
  json_match (pre ++ lbrace :: w ++ decision_key ++ l ++ rbrace :: post) = Some (lbrace :: w ++ decision_key ++ l ++ [rbrace]).
Proof.
  intros Hpre Hw Hl. induction pre as [|c pre IH].
  - rewrite app_nil_l. cbn [json_match]. rewrite bool_decide_eq_true_2 by done. rewrite from_key_blank by done.
    assert (E : from_key (decision_key ++ l ++ rbrace :: post) = (decision_key ++.) <$> up_to_brace (l ++ rbrace :: post)) by reflexivity.
    rewrite E, up_to_brace_app by done. reflexivity.
  - apply not_elem_of_cons in Hpre as [Hc Hp]. rewrite <- app_comm_cons. cbn [json_match]. rewrite bool_decide_eq_false_2 by done. by apply IH.
Qed.

#[local] Opaque quoted.
Lemma verdict_no_brace b d c r :
  (forall k, blank (b k)) -> rbrace ∉ r -> rbrace ∉ chars d -> rbrace ∉ c ->
  exists l, rbrace ∉ l /\ verdict b d c r = b 0%nat ++ decision_key ++ l.
Proof.
  intros Hb Hr Hd Hc. unfold verdict, member. change (quoted (chars "decision")) with decision_key.
  rewrite <- !app_assoc. eexists. split; [|reflexivity].
  repeat first [apply not_elem_of_app; split | apply quoted_no_brace | apply not_elem_of_cons; split];
    first [assumption | apply blank_no_brace, Hb | apply (bool_decide_unpack _); vm_compute; exact I].
Qed.
#[local] Transparent quoted.

(** C40: A verdict object written the way the system prompt shows it, its three members in
    that order with any white space between the tokens, is read back: ALLOW exactly when the
    decision text is that word, the confidence as the double nearest to its decimals, and the
    reasoning however it had to be escaped.  Any text may come after it, and before it any
    text without an opening brace.  The decision and the reasoning have no closing brace, the
    reasoning is not empty, and the confidence is a digit, a point and one or more digits. *)
Theorem verdict_read_back pre b d i ds r post :
  lbrace ∉ pre -> (forall k, blank (b k)) -> rbrace ∉ r -> rbrace ∉ chars d -> r <> [] ->
  is_digit i -> Forall is_digit ds -> ds <> [] ->
  parseDecision (of_chars (pre ++ lbrace :: verdict b d (decimal i ds) r ++ rbrace :: post)) =
    {| dc_decision := if bool_decide (d = "ALLOW"%string) then ALLOW else REJECT;
       dc_confidence := decimal_value i ds; dc_reasoning := JStr (of_chars r) |}.
Proof.
  intros Hpre Hb Hr Hd Hne Hi Hds Hdn. unfold parseDecision, chars. rewrite String.list_ascii_of_string_of_list_ascii.
  destruct (verdict_no_brace b d (decimal i ds) r) as (l & Hl & Hv); [try done; by apply decimal_no_brace..|].
  pose proof (verdict_parse b d i ds r Hb Hi Hds Hdn) as Hp. rewrite Hv in Hp |- *.
  rewrite <- !app_assoc in *. rewrite json_match_blank by done. rewrite Hp.
  unfold decision_of. f_equal. destruct r; [done|]. reflexivity.
Qed.

(** ** Runs of the filter *)
Section runs.
Context {T : TechnicalIndicators}.
Notation trace := (list (@Event LlmAct llm_result)).

Definition answered (tr : trace) (e : LlmAct) (x : llm_result e) : Prop := {| ev_act := e; ev_res := x |} ∈ tr.
(** The answers of the model in a run. *)
Definition completion_of (ev : @Event LlmAct llm_result) : option Completion :=
  match ev with
  | {| ev_act := e; ev_res := x |} =>
      match e return llm_result e -> option Completion with
      | Chat _ => fun x => match x with Ok c => Some c | Throw _ => None end
      | _ => fun _ => None
      end x
  end.
Definition completions (tr : trace) : list Completion := omap completion_of tr.
Definition is_chat (e : LlmAct) : bool := match e with Chat _ => true | _ => false end.
Definition chats (tr : trace) : nat := length (filter (fun ev => is_chat (ev_act ev) = true) tr).

(** Neither an order nor a verdict: what happens before the last answer is in. *)
Definition asks (e : LlmAct) : Prop := match e with Chat _ => True | LMkt e => no_order e | _ => False end.
Definition reads (e : LlmAct) : Prop := match e with LMkt e => no_order e | _ => False end.

Lemma emits_lift (φ : LlmAct -> Prop) {A} (p : MktProg A) : emits (fun e => φ (LMkt e)) p -> emits φ (lift p).
Proof. induction p as [a|e k IH]; simpl; [done|]. intros [He Hk]. eauto. Qed.

Lemma execute_tool_quiet n v : emits no_order (execute_tool n v).
Proof.
  unfold execute_tool. apply emits_bind; [|intros []; done].
  repeat (case_bool_decide; [apply emits_await; [|done]|]); [apply getRiskState_quiet|apply getMarketSnapshot_quiet
    |apply getStructureContext_quiet| | |apply getSpreadStats_quiet|done].
  - unfold getActiveLevels. quiet.
  - unfold getEconomicRisk, mkt_now, ask. quiet.
Qed.

Lemma run_tools_reads calls st : emits reads (run_tools calls st).
Proof.
  revert st. induction calls as [|c calls IH]; intros [ms ts]; simpl; [done|].
  destruct (negb _); [apply IH|]. apply emits_bind; [apply emits_lift, execute_tool_quiet|]. intros [out|e]; [apply IH|done].
Qed.
Lemma reads_silent (tr : trace) : Forall (fun ev => reads (ev_act ev)) tr -> chats tr = 0%nat /\ completions tr = [].
Proof.
  induction 1 as [|[e x] tr He _ [IH1 IH2]]; [done|]. destruct e; try done.
Qed.

Definition last_completion (o : option Completion) (l : list Completion) : option Completion :=
  match last l with Some c => Some c | None => o end.

(** What a run of at most [n] rounds is like. *)
Definition rounds_post (n : nat) (response : option Completion) (tr : trace) (x : list string * Res (option Completion)) : Prop :=
  Forall (fun ev => asks (ev_act ev)) tr /\ (chats tr <= n)%nat /\
  forall resp, x.2 = Ok resp -> resp = last_completion response (completions tr).

Lemma completions_app tr tr' : completions (tr ++ tr') = completions tr ++ completions tr'.
Proof. apply omap_app. Qed.
Lemma chats_app tr tr' : chats (tr ++ tr') = (chats tr + chats tr')%nat.
Proof. unfold chats. by rewrite filter_app, length_app. Qed.
Lemma last_completion_app o l l' : last_completion o (l ++ l') = last_completion (last_completion o l) l'.
Proof. unfold last_completion. rewrite last_app. by destruct (last l'). Qed.

(** A round: a question, the tools that were asked for, and the rest. *)
Lemma rounds_post_cons n response ms resp tools tr x :
  Forall (fun ev => reads (ev_act ev)) tools -> rounds_post n (Some resp) tr x ->
  rounds_post (S n) response ({| ev_act := Chat ms : LlmAct; ev_res := Ok resp |} :: tools ++ tr) x.
Proof.
  intros Ht (HF & Hn & Hr). destruct (reads_silent _ Ht) as [Hc Hcs]. split_and!.
  - constructor; [done|]. apply Forall_app. split; [|done]. eapply Forall_impl; [done|]. intros [[] ?]; simpl; try done.
  - change (chats ([{| ev_act := Chat ms : LlmAct; ev_res := Ok resp |}] ++ tools ++ tr) <= S n)%nat.
    rewrite !chats_app, Hc. change (1 + (0 + chats tr) <= S n)%nat. lia.
  - intros resp' H. rewrite (Hr _ H).
    change (completions ({| ev_act := Chat ms : LlmAct; ev_res := Ok resp |} :: tools ++ tr)) with ([resp] ++ completions (tools ++ tr)).
    by rewrite last_completion_app, completions_app, Hcs.
Qed.
Lemma rounds_post_stop n o ts r : (forall resp, r = Ok resp -> resp = o) -> rounds_post n o [] (ts, r).
Proof. intros H. split_and!; [constructor|unfold chats; simpl; lia|exact H]. Qed.
Lemma rounds_post_weak n o o' ms r ts e :
  rounds_post (S n) o [{| ev_act := Chat ms : LlmAct; ev_res := r |}] (ts, Throw e) /\
  forall tools, Forall (fun ev => reads (ev_act ev)) tools -> rounds_post n o' tools (ts, Throw e).
Proof.
  split; [split_and!; [by repeat constructor|unfold chats; simpl; lia|done]|].
  intros tools Ht. destruct (reads_silent _ Ht) as [Hc _]. split_and!; [|lia|done].
  eapply Forall_impl; [done|]. intros [[] ?]; simpl; try done.
Qed.

Lemma tool_rounds_spec n response st : wp (tool_rounds n response st) (rounds_post n response).
Proof.
  revert response st. induction n as [|n IH]; intros response [ms ts]; simpl.
  { apply rounds_post_stop. by intros resp [= ->]. }
  intros [resp|e]; [|apply rounds_post_weak; exact response].
  destruct (cp_choices resp) as [|m ms']; [apply rounds_post_weak; exact response|].
  assert (Hstop : rounds_post (S n) response [{| ev_act := Chat ms : LlmAct; ev_res := Ok resp |}] (ts, Ok (Some resp)))
    by (apply (rounds_post_cons _ _ _ _ [] []); [by apply Forall_nil|]; apply rounds_post_stop; by intros ? [= ->]).
  destruct (am_tool_calls m) as [[|c calls]|]; [exact Hstop| |exact Hstop].
  apply wp_bind. eapply wp_mono; [|apply (wp_emits reads), run_tools_reads].
  intros tools [[ms2 ts2] [u|e]] Ht.
  - eapply wp_mono; [|apply IH]. intros tr x Hx. by apply rounds_post_cons.
  - change (rounds_post (S n) response ({| ev_act := Chat ms : LlmAct; ev_res := Ok resp |} :: tools ++ []) (ts2, Throw e)).
    apply rounds_post_cons; [done|]. apply rounds_post_stop. done.
Qed.

(** The content of an answer allows: it shows an object whose decision is ALLOW. *)
Definition allows (t : string) : Prop :=
  exists j v, json_match (chars t) = Some j /\ JSON_parse j = Some v /\ field "decision" v = Some (JStr "ALLOW").
Lemma parseDecision_allows t : dc_decision (parseDecision t) = ALLOW -> allows t.
Proof.
  unfold parseDecision. destruct (json_match (chars t)) as [j|] eqn:Ej; [|done].
  destruct (JSON_parse j) as [v|] eqn:Ev; [|done]. simpl. intros H. exists j, v. split_and!; [done..|].
  destruct (field "decision" v) as [[| | |s| |]|]; try done. by case_bool_decide as E; [rewrite E|].
Qed.

(** The end of a validation. *)
Definition closes (e : LlmAct) : Prop := match e with Chat _ | LMkt _ => False | _ => True end.
Lemma closes_silent (tr : trace) : Forall (fun ev => closes (ev_act ev)) tr -> chats tr = 0%nat /\ completions tr = [].
Proof. induction 1 as [|[e x] tr He _ [IH1 IH2]]; [done|]. destruct e; try done. Qed.

Lemma conclude_closes request t0 ts response : emits closes (conclude request t0 ts response).
Proof.
  unfold conclude. destruct response as [[[|m ms] usage]|]; try done. apply emits_await; [done|]. intros now.
  apply emits_await; [destruct (rq_id request) as [id|]; [destruct (truthy_string id)|]; done|]. intros _.
  by apply emits_await.
Qed.

(** What an answered verdict rests on. *)
Definition rests_on (request : LlmValidationRequest) (ts : list string) (response : option Completion)
    (tr : trace) (d : LlmValidationResponse) : Prop :=
  exists resp m, response = Some resp /\ head (cp_choices resp) = Some m /\
    rs_decision d = parseDecision (final_content m) /\ rs_toolsUsed d = ts /\
    (forall id, rq_id request = Some id -> truthy_string id = true ->
       exists row, answered tr (StoreDecision row) (Ok tt) /\ lr_candidateId row = id /\
         lr_decision row = rs_decision d /\ lr_rawResponse row = final_content m /\ lr_toolsUsed row = ts) /\
    answered tr (PublishDecision (rq_id request) (dc_decision (rs_decision d)) (dc_confidence (rs_decision d))) (Ok tt).

Lemma conclude_spec request t0 ts response :
  wp (conclude request t0 ts response) (fun tr r => forall d, r = Ok d -> rests_on request ts response tr d).
Proof.
  unfold conclude. destruct response as [[[|m ms] usage]|]; try done.
  apply wp_await. intros now. cbn beta iota. apply wp_await.
  destruct (rq_id request) as [id|] eqn:Eid; [destruct (truthy_string id) eqn:Et|].
  - intros [[]|e]; [|done]. apply wp_await. intros [[]|e]; [|done]. intros d [= <-].
    eexists _, m. split_and!; try done; [|rewrite Eid; by do 2 right; left].
    rewrite Eid. intros id' [= <-] _. eexists. split; [by right; left|]. done.
  - intros [[]|e]; [|done]. intros d [= <-]. eexists _, m. split_and!; try done; [|rewrite Eid; by right; left].
    rewrite Eid. intros id' [= <-]. by rewrite Et.
  - intros [[]|e]; [|done]. intros d [= <-]. eexists _, m. split_and!; try done; rewrite Eid; [done|by right; left].
Qed.

(** C18: Validating a candidate always ends in a verdict, after at most three questions to the
    model and without sending an order.  The verdict is ALLOW only when the model's last
    answer shows an object whose decision is ALLOW, the verdict is that answer's, its row
    (of a candidate that has an id) was stored, and it was published. *)
Theorem allow_needs_verdict request tr r :
  runs (validateCandidate request) tr r ->
  exists response, r = Ok response /\ (chats tr <= 3)%nat /\
    Forall (fun ev => match ev_act ev with LMkt e => no_order e | _ => True end) tr /\
    (dc_decision (rs_decision response) = ALLOW ->
     exists resp m, last (completions tr) = Some resp /\ head (cp_choices resp) = Some m /\
       allows (final_content m) /\ rs_decision response = parseDecision (final_content m) /\
       (forall id, rq_id request = Some id -> truthy_string id = true ->
          exists row, answered tr (StoreDecision row) (Ok tt) /\ lr_candidateId row = id /\
            lr_decision row = rs_decision response /\ lr_rawResponse row = final_content m /\
            lr_toolsUsed row = rs_toolsUsed response) /\
       answered tr (PublishDecision (rq_id request) ALLOW (dc_confidence (rs_decision response))) (Ok tt)).
Proof.
  revert tr r. apply wp_runs. unfold validateCandidate. apply wp_await. intros t0. cbn beta iota.
  apply (wp_bind (tool_rounds MAX_TOOL_ROUNDS None _)).
  eapply wp_mono; [|apply tool_rounds_spec]. intros tr [ts r] (HF & Hn & Hr). apply wp_try_catch.
  assert (Hmkt : Forall (fun ev : @Event LlmAct llm_result => match ev_act ev with LMkt e => no_order e | _ => True end) tr)
    by (eapply Forall_impl; [exact HF|]; by intros [[] ?]).
  set (now := {| ev_act := LClock; ev_res := t0 |} : @Event LlmAct llm_result).
  destruct r as [response|e].
  2:{ simpl. rewrite app_nil_r. eexists. split_and!; [reflexivity|exact Hn|by constructor|done]. }
  eapply wp_mono; [|apply wp_conj; [apply conclude_spec|apply (wp_emits closes), conclude_closes]].
  intros tr' r [Hd HF']. destruct (closes_silent _ HF') as [Hc Hcs].
  assert (Hall : Forall (fun ev : @Event LlmAct llm_result => match ev_act ev with LMkt e => no_order e | _ => True end) tr')
    by (eapply Forall_impl; [exact HF'|]; by intros [[] ?]).
  assert (Hchats : (chats ([now] ++ tr ++ tr') <= 3)%nat) by (rewrite !chats_app, Hc; change (chats tr <= 3)%nat in Hn; change (0 + (chats tr + 0) <= 3)%nat; lia).
  destruct r as [d|e].
  - eexists. split_and!; [reflexivity|exact Hchats|by constructor; [|apply Forall_app]|].
    intros Ha. destruct (Hd d eq_refl) as (resp & m & -> & Hm & Hdec & Hts & Hrow & Hpub).
    specialize (Hr _ eq_refl). exists resp, m.
    assert (Hin : forall e x, answered tr' e x -> answered ([now] ++ tr ++ tr') e x)
      by (intros e x H; apply elem_of_app; right; apply elem_of_app; by right).
    split_and!; [|done| |done| |].
    + change (last (completions ([now] ++ tr ++ tr')) = Some resp). rewrite !completions_app, Hcs, app_nil_r.
      change (completions [now]) with (@nil Completion). simpl. revert Hr. unfold last_completion.
      destruct (last (completions tr)); [by intros [= ->]|done].
    + apply parseDecision_allows. by rewrite <- Hdec.
    + intros id H1 H2. destruct (Hrow id H1 H2) as (row & ? & ? & ? & ? & ?). exists row. rewrite Hts. auto 10.
    + rewrite <- Ha. by apply Hin.
  - simpl. rewrite app_nil_r. eexists. split_and!; [reflexivity|exact Hchats|by constructor; [|apply Forall_app]|done].
Qed.
End runs.
