(* ===== verification/MarketExamples.v ===== *)
(** * Market data and the first-generation strategy: concrete runs

    A world in which an execution service answers with bars that have just closed, with
    the requests of src/market-data and src/strategy/strategy.service.ts run in it. *)
From Stdlib Require Import SpecFloat.
From stdpp Require Import stringmap.
From S2P Require Import Prelude Async JsNum JsDate Types Indicators MarketTypes MarketData CandleFacts LegacyStrategy LegacyFacts LlmFilter LlmFacts.
Local Open Scope num_scope.

#[local] Instance flat_lib : TechnicalIndicators := {|
  EMA _ l := l; SMA _ l := l; RSI _ l := l; ATR _ _ _ c := c; ADX _ _ _ _ := [] |}.

(** Five minutes past midnight of 2 January 2024. *)
Definition start_of_day : Z := 1704153600000%Z.
Definition five_past : Z := (start_of_day + 5 * 60000)%Z.

Definition bar (sym tf : string) (t o h l c : Z) : BacktestCandle := {|
  c_symbol := sym; timeframe := tf; openTime := toISOString t; open := of_Z o; high := of_Z h;
  low := of_Z l; close := of_Z c; volume := of_Z 10 |}.
(** The last three bars and the one still forming. *)
Definition recent_bars (sym tf : string) (ms : Z) : list BacktestCandle :=
  [bar sym tf (start_of_day - 3 * ms) 10 14 9 12; bar sym tf (start_of_day - 2 * ms) 12 17 11 16;
   bar sym tf (start_of_day - ms) 16 16 8 9; bar sym tf start_of_day 9 30 1 10].

Definition next_row (w : Market) : string := fresh_string "risk" (mk_riskStates w).

Definition mkt_handle (e : MktAct) (w : Market) : Market * mkt_result e :=
  match e return Market * mkt_result e with
  | MClock => (w, mk_clock w)
  | HttpCandles sym tf _ => (w, Ok (recent_bars sym tf (default 0%Z (TIMEFRAME_MS tf))))
  | HttpAccount => (w, Throw "timeout"%string)
  | HttpOrder o => (with_order o w, Ok 7%Z)
  | CandleCreateMany rows =>
      (with_candles (create_candles rows (mk_candles w)) w,
       Ok (Z.of_nat (size (create_candles rows (mk_candles w))) - Z.of_nat (size (mk_candles w)))%Z)
  | CandleFindMany P asc n => (w, Ok (find_candles P asc n (mk_candles w)))
  | IndicatorUpsert row => (with_indicators (mk_indicators w ++ [row]) w, Ok tt)
  | IndicatorLatest sym tf =>
      (w, Ok (filter (fun r => in_symbol r = sym /\ in_timeframe r = tf) (mk_indicators w)))
  | LevelDeactivate _ | LevelCreate _ => (w, Ok tt)
  | LevelFindMany _ => (w, Ok [])
  | SpreadFindMany _ => (w, Ok [])
  | EventFindMany _ => (w, Ok [])
  | RiskConfigCount => (w, Ok 1%Z)
  | RiskConfigCreate _ => (w, Ok tt)
  | RiskConfigLatest => (w, Ok None)
  | RiskStateFind d => (w, Ok ((map_to_list (filter (fun kv => rk_date kv.2 = d) (mk_riskStates w))).*2 !! 0%nat))
  | RiskStateCreate d l =>
      let r := {| rk_id := next_row w; rk_date := d; rk_dailyPnl := of_Z 0; rk_consecutiveLosses := l;
                  rk_openPositionCount := 0; rk_dailyLossLimitHit := false; rk_consecutiveLossLimitHit := false |} in
      (with_riskStates (<[next_row w := r]> (mk_riskStates w)) w, Ok r)
  | RiskStateUpdate id f => (with_riskStates (alter f id (mk_riskStates w)) w, Ok tt)
  | CandidateCreate c => (with_candidate c w, Ok "c1"%string)
  | CandidateUpdate _ _ => (w, Ok tt)
  | LlmValidate _ _ => (w, Ok {| ll_allow := true; ll_reasoning := "" |})
  | LegacyTradeCreate _ _ _ => (w, Ok tt)
  | MPublish _ _ | Heartbeat _ => (w, Ok tt)
  end.

Lemma mkt_handle_sem i e w : mkt_sem i e w (mkt_handle e w).1 (mkt_handle e w).2.
Proof.
  destruct e; simpl; unfold replies, stores; auto.
  - split; [lia|by destruct w].
  - split; [done|]. intros l [= <-]. repeat constructor.
  - left. eauto.
  - left. eauto.
  - split; [done|]. intros l [= <-]. apply Forall_forall. intros r Hr.
    apply list_elem_of_filter in Hr. naive_solver.
  - split; [done|]. by intros o [= <-].
  - left. eexists. split; [apply fresh_string_fresh|]. done.
  - left. eauto.
  - left. eauto.
Qed.

Definition quiet_market : Market := {|
  mk_clock := five_past; mk_candles := ∅; mk_indicators := []; mk_riskStates := ∅;
  mk_candidates := []; mk_orders := [] |}.
Definition run_market (sched : list nat) (ps : list (MktProg unit)) (w : Market) : Pool :=
  turns mkt_handle sched {| shared := w; threads := ps |}.

(** ** The minute's poll, twice at once *)
Definition two_polls : list (MktProg unit) :=
  [detached (pollCandles None [0; 1]%nat); detached (pollCandles None [])].
Definition polled : Pool := run_market (concat (replicate 40 [0; 1]%nat)) two_polls quiet_market.
Definition stored (w : Market) : list (string * Z) :=
  (fun kv => (cd_timeframe kv.2, cd_openTime kv.2 - start_of_day)%Z) <$> map_to_list (mk_candles w).

Definition daily : CandleRow := {|
  cd_symbol := "XAUUSD"; cd_timeframe := "D1"; cd_openTime := start_of_day - 24 * 60 * 60000;
  cd_open := of_Z 10; cd_high := of_Z 17; cd_low := of_Z 8; cd_close := of_Z 9; cd_volume := of_Z 30 |}.
Definition daily_key : string * string * Z := candle_key daily.

Lemma two_polls_reachable sched :
  rtc (pstep mkt_sem (candle_request None)) {| shared := quiet_market; threads := [] |}
    (run_market sched two_polls quiet_market).
Proof.
  etrans; [|apply turns_steps, mkt_handle_sem]. apply start_all. repeat constructor.
Qed.

(** The closed bars are there once, the forming ones are not, and the day's bar is the
    aggregate of the three hours. *)
Lemma candle_table_append_only_witness :
  stored (shared polled) =
    [("M15", -900000); ("M15", -2700000); ("M15", -1800000); ("D1", -86400000); ("H1", -3600000);
     ("H1", -10800000); ("H1", -7200000)]%string%Z /\
  mk_candles (shared polled) !! daily_key = Some daily /\
  aggregated ∅ (mk_candles (shared polled)) daily.
Proof.
  split; [vm_compute; reflexivity|].
  assert (E : mk_candles (shared polled) !! daily_key = Some daily) by (vm_compute; reflexivity).
  split; [exact E|].
  exact (proj2 (proj2 (candle_table_append_only None {| shared := quiet_market; threads := [] |} polled
           (two_polls_reachable _) eq_refl) daily_key daily E (lookup_empty _)) eq_refl).
Defined.

(** ** The first-generation strategy *)
Definition evaluation : list (MktProg unit) :=
  [detached (pollCandles None []); detached evaluateSetup; detached detectAndStoreLevels].
Definition evaluated : Pool := run_market (concat (replicate 40 [0; 1; 2]%nat)) evaluation quiet_market.

Lemma evaluation_reachable sched :
  rtc (pstep mkt_sem (market_request None)) {| shared := quiet_market; threads := [] |}
    (run_market sched evaluation quiet_market).
Proof.
  etrans; [|apply turns_steps, mkt_handle_sem]. apply start_all.
  repeat apply Forall_cons_2; [|apply mr_setup|apply mr_levels|constructor].
  apply mr_candles, cr_poll.
Qed.

Lemma first_generation_inert_witness :
  size (mk_candles (shared evaluated)) = 7%nat /\ mk_orders (shared evaluated) = [].
Proof.
  split; [vm_compute; reflexivity|].
  exact (proj2 (proj2 (first_generation_inert None {| shared := quiet_market; threads := [] |} evaluated
           (evaluation_reachable _) eq_refl eq_refl))).
Defined.

(** A trade is gated, not impossible: with indicators in the table the same code sends an
    order.  The entry breaks a swing high below three older swing lows, so the stop of
    this purchase is above its entry, and stop distance and size are computed from it. *)
Definition flat (x : Z) : BacktestCandle := bar "XAUUSD" "M15" start_of_day x (x + 1) (x - 1) x.
Definition crash : list BacktestCandle :=
  (flat <$> [100; 99; 97; 99; 101; 103; 101; 99; 97; 99; 101; 103; 101; 99; 97; 99; 101; 103]%Z) ++
  (flat <$> [30; 30; 50; 44; 42]%Z) ++ [bar "XAUUSD" "M15" start_of_day 45 56 44 55].
Definition strong : MarketSnapshot := {|
  sn_currentPrice := of_Z 55; sn_ema20 := of_Z 50; sn_ema50 := of_Z 50; sn_ema200 := of_Z 50;
  sn_rsi14 := of_Z 60; sn_atr14 := of_Z 2; sn_lastCandle := None |}.
Definition crash_candidate : option CandidateTradeDto :=
  match setup_of crash strong BULLISH with
  | Some (swings, bos, tags, lastCandle) =>
      Some (candidate_of crash strong BULLISH swings bos tags lastCandle (of_Z 0))
  | None => None
  end.
Lemma stop_above_purchase :
  (fun c => (ct_side c, ct_entryPrice c, ct_slPrice c, ct_tpPrice c, ct_slPoints c)) <$> crash_candidate =
  Some (BUY, of_Z 55, of_Z 96, of_Z (-27), of_Z 41).
Proof. vm_compute. reflexivity. Qed.

(** A stop closer than half a cent rounds to zero points, and the size to the most. *)
Lemma zero_stop_full_lot :
  let c := {| ct_symbol := SYMBOL; ct_side := BUY; ct_entryPrice := of_Z 50; ct_slPrice := of_Z 50; ct_tpPrice := of_Z 50;
              ct_slPoints := round2 (lit 4 3); ct_tpPoints := of_Z 0; ct_setupTags := []; ct_h1Bias := NEUTRAL;
              ct_rsiValue := of_Z 50; ct_atrValue := of_Z 1; ct_spreadAtDetection := of_Z 0; ct_timeframe := "M15" |} in
  lot_of (risk_state 0 {| rk_id := "r"; rk_date := 0; rk_dailyPnl := of_Z 0; rk_consecutiveLosses := 0;
                        rk_openPositionCount := 0; rk_dailyLossLimitHit := false; rk_consecutiveLossLimitHit := false |}
            default_account None) c = of_Z 1.
Proof. vm_compute. reflexivity. Qed.

(** ** The losing streak

    Two losses reported at the same time: both read the row before either writes. *)
Definition two_losses (sched : list nat) : list (num * Z) :=
  let c := run_market sched [detached (handleTradeClosed (of_Z (-50))); detached (handleTradeClosed (of_Z (-50)))]
             (run_market (replicate 9 0%nat) [detached getRiskState] quiet_market).(shared) in
  (fun kv => (rk_dailyPnl kv.2, rk_consecutiveLosses kv.2)) <$> map_to_list (mk_riskStates (shared c)).
Lemma losses_one_after_the_other : two_losses [0; 0; 0; 0; 1; 1; 1; 1]%nat = [(of_Z (-100), 2%Z)].
Proof. vm_compute. reflexivity. Qed.
Lemma simultaneous_loss_lost : two_losses [0; 1; 0; 1; 0; 1; 0; 1]%nat = [(of_Z (-50), 1%Z)].
Proof. vm_compute. reflexivity. Qed.

(** With average and range values in the table an evaluation does send its order. *)
Definition indicator (tf name : string) (v : Z) : IndicatorRow := {|
  in_symbol := SYMBOL; in_timeframe := tf; in_openTime := start_of_day; in_name := name; in_value := of_Z v |}.
Definition filled_market : Market := with_indicators
  [indicator "M15" "EMA20" 50; indicator "M15" "EMA50" 50; indicator "M15" "RSI14" 60; indicator "M15" "ATR14" 2]
  quiet_market.
Definition crash_handle (e : MktAct) (w : Market) : Market * mkt_result e :=
  match e return Market * mkt_result e with
  | HttpCandles _ _ _ => (w, Ok crash)
  | e => mkt_handle e w
  end.
Lemma filled_table_trades :
  (fun o => (lo_side o, lo_entryPrice o, lo_slPrice o, lo_lotSize o)) <$>
    mk_orders (execute crash_handle evaluateSetup filled_market).1 = [(BUY, of_Z 55, of_Z 96, lit 2 2)].
Proof. vm_compute. reflexivity. Qed.

(** ** The language-model filter

    A model that answers from a list, and tools that read the market above. *)
Definition scripted (script : list Completion) (e : LlmAct) (w : nat * Market) : (nat * Market) * llm_result e :=
  match e return (nat * Market) * llm_result e with
  | LClock => (w, 0%Z)
  | Chat _ => ((S w.1, w.2), match script !! w.1 with Some c => Ok c | None => Throw "no answer"%string end)
  | LMkt e => let '(m, x) := mkt_handle e w.2 in ((w.1, m), x)
  | StoreDecision _ | PublishDecision _ _ _ => (w, Ok tt)
  end.
Definition asks_for (name : string) : AssistantMessage := {|
  am_content := None; am_tool_calls := Some [{| tc_id := "t"; tc_type := "function"; tc_name := name; tc_arguments := "" |}] |}.
Definition says (t : text) : AssistantMessage := {|
  am_content := Some (String.string_of_list_ascii t); am_tool_calls := None |}.
Definition completes (m : AssistantMessage) : Completion := {| cp_choices := [m]; cp_usage := Some (10, 5)%Z |}.
Definition the_verdict (r : string) : text := lbrace :: verdict (fun _ => []) "ALLOW" (chars "0.85") (chars r) ++ [rbrace].
(** A member per line, as in the prompt. *)
Definition indented (k : nat) : text :=
  match k with
  | 0 | 4 | 8 => [char 10; char 32; char 32]
  | 2 | 6 | 10 => [char 32]
  | 11 => [char 10]
  | _ => []
  end%nat.

Definition some_request : LlmValidationRequest := {|
  rq_id := Some "c1"%string;
  rq_candidate := {| ct_symbol := SYMBOL; ct_side := BUY; ct_entryPrice := of_Z 50; ct_slPrice := of_Z 45; ct_tpPrice := of_Z 60;
    ct_slPoints := of_Z 5; ct_tpPoints := of_Z 10; ct_setupTags := []; ct_h1Bias := BULLISH; ct_rsiValue := of_Z 55;
    ct_atrValue := of_Z 2; ct_spreadAtDetection := of_Z 0; ct_timeframe := "M15" |} |}.
#[local] Notation validated script :=
  (trace_of (scripted script) (validateCandidate some_request) (0%nat, quiet_market)).
Definition verdict_of (r : Res LlmValidationResponse) : option (LlmDecisionType * list string) :=
  match r with Ok d => Some (dc_decision (rs_decision d), rs_toolsUsed d) | Throw _ => None end.

(** Two tools, then a verdict. *)
#[local] Notation consents :=
  (completes <$> [asks_for "get_spread_stats"; asks_for "get_account_risk_state"; says (the_verdict "Trend and bias agree")]).
Lemma allow_needs_verdict_witness :
  exists tr r, runs (validateCandidate some_request) tr r /\
    verdict_of r = Some (ALLOW, ["get_spread_stats"; "get_account_risk_state"])%string /\
    exists response, r = Ok response /\ (chats tr <= 3)%nat.
Proof.
  exists (validated consents).1, (validated consents).2. split; [apply trace_of_runs|]. split; [vm_compute; reflexivity|].
  destruct (allow_needs_verdict some_request (validated consents).1 (validated consents).2 (trace_of_runs _ _ _))
    as (response & Hr & Hn & _). exists response. split; [exact Hr|exact Hn].
Defined.

Lemma verdict_read_back_witness :
  parseDecision (String.string_of_list_ascii
    (chars "Verdict: " ++ lbrace :: verdict indented "ALLOW" (decimal 0 [8; 5]) (chars "Bias \ trend") ++ rbrace :: chars " {done}")) =
  {| dc_decision := ALLOW; dc_confidence := lit 85 2; dc_reasoning := JStr "Bias \ trend" |}.
Proof.
  rewrite (verdict_read_back (chars "Verdict: ") indented "ALLOW" 0 [8; 5] (chars "Bias \ trend") (chars " {done}"));
    [f_equal; vm_compute; reflexivity|apply (bool_decide_unpack _); vm_compute; exact I| |
     apply (bool_decide_unpack _); vm_compute; exact I..|discriminate|unfold is_digit; lia|repeat constructor; unfold is_digit; lia|discriminate].
  intros k. do 12 (destruct k as [|k]; [repeat constructor|]). constructor.
Defined.

(** The tools of a third round are run, and nobody hears what they found: the verdict is
    taken from an answer that has no text. *)
Lemma third_round_unheard :
  let run := validated (completes <$> [asks_for "get_spread_stats"; asks_for "get_sr_levels"; asks_for "get_economic_risk"; says (the_verdict "Fine")]) in
  verdict_of run.2 = Some (REJECT, ["get_spread_stats"; "get_sr_levels"; "get_economic_risk"])%string /\ chats run.1 = 3%nat.
Proof. split; vm_compute; reflexivity. Qed.

(** A well-formed ALLOW whose reasoning has a closing brace is cut at that brace. *)
Lemma brace_in_reasoning :
  JSON_parse (the_verdict "Level {2650} holds") <> None /\
  dc_decision (parseDecision (String.string_of_list_ascii (the_verdict "Level {2650} holds"))) = REJECT.
Proof. split; [|vm_compute; reflexivity]. intros H. vm_compute in H. discriminate H. Qed.
(** So is one whose answer has an opening brace in the text before it. *)
Lemma brace_before_verdict :
  dc_decision (parseDecision (String.string_of_list_ascii (chars "In {range}: " ++ the_verdict "Level holds"))) = REJECT.
Proof. vm_compute. reflexivity. Qed.
