(* ===== verification/Calendar.v ===== *)
(** * The calendar

    Facts about JsDate: the days and the civil dates are two numberings of the same line,
    the days of a month follow one another, and a date that was printed reads back.  The
    number of the year in its period of 400 years is a monotone function of the day, so it
    is checked on the first and the last day of each year. *)
From Stdlib Require Import Ascii.
From S2P Require Import Prelude JsDate.

(** ** Years of a period *)
Definition spread (doe : Z) : Z := doe - doe / 1460 + doe / 36524 - doe / 146096.
Definition year_first (y : Z) : Z := 365 * y + y / 4 - y / 100.
Definition year_last (y : Z) : Z := if y =? 399 then 146096 else year_first (y + 1) - 1.

Lemma spread_step d : 0 <= d -> spread d <= spread (d + 1).
Proof. unfold spread. intros Hd. Z.to_euclidean_division_equations. lia. Qed.
Lemma spread_mono d d' : 0 <= d -> d <= d' -> spread d <= spread d'.
Proof.
  intros Hd Hle. replace d' with (d + (d' - d)) by lia. assert (H : 0 <= d' - d) by lia. revert H.
  generalize (d' - d). apply (natlike_ind (fun n => spread d <= spread (d + n))); [by rewrite Z.add_0_r|].
  intros n Hn IH. unfold Z.succ. rewrite Z.add_assoc. pose proof (spread_step (d + n) ltac:(lia)). lia.
Qed.

Fixpoint zall (P : Z -> bool) (n : nat) (z : Z) : bool :=
  match n with O => true | S n => P z && zall P n (z + 1) end.
Lemma zall_spec P n z i : zall P n z = true -> z <= i < z + Z.of_nat n -> P i = true.
Proof.
  revert z. induction n as [|n IH]; intros z; simpl; [lia|]. intros [H1 H2]%andb_true_iff Hi.
  destruct (decide (i = z)) as [->|]; [done|]. apply (IH (z + 1)); [done|lia].
Qed.
Definition good_year (y : Z) : bool := (spread (year_first y) / 365 =? y) && (spread (year_last y) / 365 =? y).
Lemma good_years : zall good_year 400 0 = true.
Proof. vm_compute. reflexivity. Qed.

Lemma year_first_nonneg y : 0 <= y -> 0 <= year_first y.
Proof. intros Hy. unfold year_first. Z.to_euclidean_division_equations. lia. Qed.
Lemma year_last_bound y : 0 <= y < 400 -> year_last y <= 146096.
Proof.
  intros Hy. unfold year_last. destruct (y =? 399) eqn:E; [lia|]. unfold year_first. Z.to_euclidean_division_equations. lia.
Qed.
Lemma year_length y : 0 <= y < 400 -> 364 <= year_last y - year_first y <= 365.
Proof.
  intros Hy. unfold year_last. destruct (y =? 399) eqn:E; [by assert (y = 399) as -> by lia|].
  unfold year_first. Z.to_euclidean_division_equations. lia.
Qed.

Lemma year_of y doe : 0 <= y < 400 -> year_first y <= doe <= year_last y -> spread doe / 365 = y.
Proof.
  intros Hy Hd. pose proof (zall_spec _ _ _ y good_years ltac:(lia)) as H. unfold good_year in H.
  pose proof (year_first_nonneg y ltac:(lia)).
  pose proof (spread_mono (year_first y) doe ltac:(lia) ltac:(lia)).
  pose proof (spread_mono doe (year_last y) ltac:(lia) ltac:(lia)).
  assert (spread (year_first y) / 365 <= spread doe / 365) by (apply Z.div_le_mono; lia).
  assert (spread doe / 365 <= spread (year_last y) / 365) by (apply Z.div_le_mono; lia). lia.
Qed.

Lemma year_exists doe : 0 <= doe <= 146096 -> exists y, 0 <= y < 400 /\ year_first y <= doe <= year_last y.
Proof.
  intros Hd. assert (H : forall n, 0 <= n -> n <= 399 -> doe < year_first n -> exists y, 0 <= y < 400 /\ year_first y <= doe <= year_last y).
  { apply (natlike_ind (fun n => n <= 399 -> doe < year_first n -> _)); [change (year_first 0) with 0; lia|].
    intros n Hn IH Hle Hlt. destruct (decide (doe < year_first n)); [apply IH; lia|].
    exists n. unfold year_last. unfold Z.succ in *. destruct (n =? 399) eqn:E; lia. }
  destruct (decide (doe < year_first 399)); [apply (H 399); lia|]. exists 399. unfold year_last. simpl. lia.
Qed.

(** ** Days and dates *)

(** The year, the month and the day counted from March. *)
Lemma days_civil era yoe mp dd : 0 <= yoe < 400 -> 0 <= mp <= 11 -> 1 <= dd ->
  dd <= (if mp =? 11 then year_last yoe - year_first yoe - 336 else (153 * (mp + 1) + 2) / 5 - (153 * mp + 2) / 5) ->
  year_first yoe + (153 * mp + 2) / 5 + dd - 1 <= year_last yoe ->
  civil_from_days (era * 146097 + (year_first yoe + (153 * mp + 2) / 5 + dd - 1) - 719468) =
  (yoe + era * 400 + (if (if mp <? 10 then mp + 3 else mp - 9) <=? 2 then 1 else 0), if mp <? 10 then mp + 3 else mp - 9, dd).
Proof.
  intros Hy Hm Hd Hdd Hl. pose proof (year_first_nonneg yoe ltac:(lia)) as Hf. pose proof (year_last_bound yoe Hy) as Hu.
  set (doe := year_first yoe + (153 * mp + 2) / 5 + dd - 1) in *.
  assert (0 <= (153 * mp + 2) / 5) by (Z.to_euclidean_division_equations; lia).
  unfold civil_from_days. replace (era * 146097 + doe - 719468 + 719468) with (doe + era * 146097) by lia.
  rewrite Z.div_add, (Z.div_small doe) by lia. rewrite Z.add_0_l.
  replace (doe + era * 146097 - era * 146097) with doe by lia. cbv zeta.
  change (doe - doe / 1460 + doe / 36524 - doe / 146096) with (spread doe). rewrite (year_of yoe doe) by lia.
  change (365 * yoe + yoe / 4 - yoe / 100) with (year_first yoe).
  replace (doe - year_first yoe) with ((153 * mp + 2) / 5 + dd - 1) by lia.
  assert (Hmp : (5 * ((153 * mp + 2) / 5 + dd - 1) + 2) / 153 = mp).
  { destruct (mp =? 11) eqn:E.
    - assert (mp = 11) as -> by lia. change ((153 * 11 + 2) / 5) with 337 in *.
      pose proof (year_length yoe Hy). clear - H0 Hd Hdd. Z.to_euclidean_division_equations. lia.
    - Z.to_euclidean_division_equations. lia. }
  rewrite Hmp. f_equal. lia.
Qed.

(** The year that starts in March, and the month counted from March. *)
Definition march_year (y m : Z) : Z := if m <=? 2 then y - 1 else y.
Definition march_month (m : Z) : Z := if 2 <? m then m - 3 else m + 9.
Lemma civil_days_eq y m d : days_from_civil y m d =
  march_year y m / 400 * 146097 + (year_first (march_year y m mod 400) + (153 * march_month m + 2) / 5 + d - 1) - 719468.
Proof.
  unfold days_from_civil, march_year, march_month, year_first. destruct (m <=? 2).
  all: rewrite Zmod_eq by lia; lia.
Qed.

Lemma civil_days z : let '(y, m, d) := civil_from_days z in
  days_from_civil y m d = z /\ 1 <= m <= 12 /\ 1 <= d <= 31.
Proof.
  pose proof (Z.div_mod (z + 719468) 146097 ltac:(done)) as Hz.
  pose proof (Z.mod_pos_bound (z + 719468) 146097 ltac:(done)) as Hb.
  revert Hz Hb. generalize ((z + 719468) / 146097) ((z + 719468) mod 146097). intros era doe Hz Hb.
  destruct (year_exists doe ltac:(lia)) as (yoe & Hy & Hd). pose proof (year_length yoe Hy) as Hl.
  set (doy := doe - year_first yoe). set (mp := (5 * doy + 2) / 153). set (dd := doy - (153 * mp + 2) / 5 + 1).
  assert (Hdoy : 0 <= doy <= 365) by lia.
  assert (Hmp : 0 <= mp <= 11) by (unfold mp; clearbody doy; clear - Hdoy; Z.to_euclidean_division_equations; lia).
  assert (Hdd : 1 <= dd <= 31) by (unfold dd, mp; clearbody doy; clear - Hdoy; Z.to_euclidean_division_equations; lia).
  assert (Hdd2 : mp < 11 -> dd <= (153 * (mp + 1) + 2) / 5 - (153 * mp + 2) / 5)
    by (unfold dd, mp; clearbody doy; clear - Hdoy; Z.to_euclidean_division_equations; lia).
  assert (E : z = era * 146097 + (year_first yoe + (153 * mp + 2) / 5 + dd - 1) - 719468) by (unfold dd, doy; lia).
  assert (Hc : civil_from_days z = (yoe + era * 400 + (if (if mp <? 10 then mp + 3 else mp - 9) <=? 2 then 1 else 0),
                                   if mp <? 10 then mp + 3 else mp - 9, dd)).
  { rewrite E. apply days_civil; try lia. destruct (mp =? 11) eqn:E11; [|lia].
    assert (mp = 11) as E' by lia. unfold dd. rewrite E'. change ((153 * 11 + 2) / 5) with 337. unfold doy. lia. }
  rewrite Hc.
  split; [|split; [destruct (mp <? 10) eqn:?; lia|done]]. rewrite civil_days_eq, E. unfold march_year, march_month.
  assert (Hq : forall k, (yoe + k * 400) / 400 = k /\ (yoe + k * 400) mod 400 = yoe).
  { intros k. rewrite Z.div_add, Z.mod_add, Z.div_small, Z.mod_small by lia. lia. }
  destruct (Hq era) as [Hq1 Hq2]. destruct (mp <? 10) eqn:E10.
  - replace (mp + 3 <=? 2) with false by lia. replace (2 <? mp + 3) with true by lia. rewrite Z.add_0_r, Hq1, Hq2.
    replace (mp + 3 - 3) with mp by lia. done.
  - replace (mp - 9 <=? 2) with true by lia. replace (2 <? mp - 9) with false by lia.
    replace (yoe + era * 400 + 1 - 1) with (yoe + era * 400) by lia. rewrite Hq1, Hq2.
    replace (mp - 9 + 9) with mp by lia. done.
Qed.

(** A month is made of its days. *)
Definition month_len (y m : Z) : Z := days_from_civil (y + m / 12) (m mod 12 + 1) 1 - days_from_civil y m 1.

Lemma month_len_eq y m : 1 <= m <= 12 ->
  month_len y m = if march_month m =? 11 then year_last (march_year y m mod 400) - year_first (march_year y m mod 400) - 336
                  else (153 * (march_month m + 1) + 2) / 5 - (153 * march_month m + 2) / 5.
Proof.
  intros Hm. unfold month_len. rewrite !civil_days_eq.
  assert (m = 2 \/ m = 12 \/ m <> 2 /\ m < 12) as [->|[->|Hm']] by lia.
  - change (march_month 2 =? 11) with true. change (2 / 12) with 0. change (2 mod 12 + 1) with 3. rewrite Z.add_0_r.
    change (march_year y 3) with y. change (march_year y 2) with (y - 1). cbv iota.
    change (march_month 3) with 0. change (march_month 2) with 11. change ((153 * 0 + 2) / 5) with 0. change ((153 * 11 + 2) / 5) with 337.
    unfold year_last. destruct ((y - 1) mod 400 =? 399) eqn:E.
    + assert (y mod 400 = 0 /\ y / 400 = (y - 1) / 400 + 1) as [-> ->] by (Z.to_euclidean_division_equations; lia).
      assert ((y - 1) mod 400 = 399) as -> by lia. change (year_first 0) with 0. change (year_first 399) with 145731. lia.
    + assert (y mod 400 = (y - 1) mod 400 + 1 /\ y / 400 = (y - 1) / 400) as [-> ->] by (Z.to_euclidean_division_equations; lia). lia.
  - change (12 / 12) with 1. change (12 mod 12 + 1) with 1. change (march_year y 12) with y.
    change (march_year (y + 1) 1) with (y + 1 - 1). replace (y + 1 - 1) with y by lia.
    change (march_month 1) with 10. change (march_month 12) with 9. change (9 =? 11) with false. change (9 + 1) with 10. cbv iota. lia.
  - rewrite !(Z.div_small m 12), !(Z.mod_small m 12), Z.add_0_r by lia.
    assert (march_year y (m + 1) = march_year y m /\ march_month (m + 1) = march_month m + 1 /\ march_month m <> 11) as (-> & -> & Hne)
      by (unfold march_year, march_month; repeat case_match; lia).
    rewrite (proj2 (Z.eqb_neq _ _) Hne). lia.
Qed.

Lemma month_len_bounds y m : 1 <= m <= 12 -> 28 <= month_len y m <= 31.
Proof.
  intros Hm. rewrite month_len_eq by done. pose proof (Z.mod_pos_bound (march_year y m) 400 ltac:(lia)) as Hb.
  pose proof (year_length _ Hb) as Hl. destruct (march_month m =? 11) eqn:E; [lia|].
  assert (0 <= march_month m <= 11) as H by (unfold march_month; case_match; lia). revert H.
  generalize (march_month m). clear. intros n Hn. Z.to_euclidean_division_equations. lia.
Qed.

Lemma civil_month y m i : 1 <= m <= 12 -> 0 <= i < month_len y m ->
  civil_from_days (days_from_civil y m 1 + i) = (y, m, i + 1).
Proof.
  intros Hm Hi. rewrite month_len_eq in Hi by done. rewrite civil_days_eq.
  pose proof (Z.mod_pos_bound (march_year y m) 400 ltac:(lia)) as Hb. pose proof (year_length _ Hb) as Hl.
  pose proof (Z.div_mod (march_year y m) 400 ltac:(lia)) as Hy.
  assert (Hmp : 0 <= march_month m <= 11) by (unfold march_month; destruct (2 <? m) eqn:?; lia).
  replace (march_year y m / 400 * 146097 + (year_first (march_year y m mod 400) + (153 * march_month m + 2) / 5 + 1 - 1) - 719468 + i)
    with (march_year y m / 400 * 146097 + (year_first (march_year y m mod 400) + (153 * march_month m + 2) / 5 + (i + 1) - 1) - 719468) by lia.
  rewrite days_civil; [|done|done|lia| |].
  - clear Hi Hl Hb Hmp. unfold march_year, march_month in *. destruct (m <=? 2) eqn:E1.
    + replace (2 <? m) with false by lia. replace (m + 9 <? 10) with false by lia. replace (m + 9 - 9) with m by lia.
      rewrite E1. f_equal. f_equal. lia.
    + replace (2 <? m) with true by lia. replace (m - 3 <? 10) with true by lia. replace (m - 3 + 3) with m by lia.
      rewrite E1. f_equal. f_equal. lia.
  - destruct (march_month m =? 11); lia.
  - destruct (march_month m =? 11) eqn:E.
    + assert (march_month m = 11) as -> by lia. change ((153 * 11 + 2) / 5) with 337. lia.
    + assert ((153 * (march_month m + 1) + 2) / 5 <= 337); [|lia]. revert Hmp E. generalize (march_month m). clear. intros n Hn E.
      apply Z.eqb_neq in E. Z.to_euclidean_division_equations. lia.
Qed.

(** ** Printing and reading *)
Lemma digit_digit_char n : digit (digit_char n) = Some (n mod 10).
Proof.
  unfold digit_char. pose proof (Z.mod_pos_bound n 10 ltac:(lia)).
  assert (n mod 10 ∈ seqZ 0 10) as Hn by (apply elem_of_seqZ; lia). revert Hn. generalize (n mod 10). intros k Hk.
  change (seqZ 0 10) with [0;1;2;3;4;5;6;7;8;9] in Hk. rewrite !elem_of_cons in Hk.
  repeat destruct Hk as [->|Hk]; [reflexivity..|]. by apply elem_of_nil in Hk.
Qed.

(** [d.toISOString().slice(0, 10)] *)
Definition date10 (t : Z) : string := slice0 10 (toISOString t).
Definition iso_year_ok (t : Z) : Prop := 0 <= (civil_from_days (day_of t)).1.1 <= 9999.

Lemma date10_iso t : iso_year_ok t -> date10 t = String.string_of_list_ascii (iso_date t).
Proof.
  unfold iso_year_ok, date10, slice0, toISOString, iso_date. destruct (civil_from_days (day_of t)) as [[y m] d]. simpl.
  intros Hy. unfold iso_year. rewrite (proj2 (andb_true_iff _ _)) by lia. reflexivity.
Qed.

Lemma digits2 n : 0 <= n <= 99 -> digits 0 [digit_char (n / 10); digit_char n] = Some n.
Proof.
  intros Hn. simpl. rewrite !digit_digit_char. f_equal. Z.to_euclidean_division_equations. lia.
Qed.
Lemma digits4 n : 0 <= n <= 9999 ->
  digits 0 [digit_char (n / 10 / 10 / 10); digit_char (n / 10 / 10); digit_char (n / 10); digit_char n] = Some n.
Proof.
  intros Hn. simpl. rewrite !digit_digit_char. f_equal. Z.to_euclidean_division_equations. lia.
Qed.

Lemma string_of_app l l' : String.string_of_list_ascii (l ++ l') = String.string_of_list_ascii l +:+ String.string_of_list_ascii l'.
Proof. induction l as [|c l IH]; [done|]. simpl. by rewrite IH. Qed.

(** The printed date reads as the first moment of its day, with and without a time. *)
Lemma parse_date10 t : iso_year_ok t ->
  Date_parse (date10 t) = Some (setUTCHours0 0 t) /\
  Date_parse (date10 t +:+ "T00:00:00.000Z") = Some (setUTCHours0 0 t).
Proof.
  intros Hy. rewrite date10_iso by done. pose proof (civil_days (day_of t)) as Hc. unfold iso_year_ok in Hy.
  unfold iso_date, setUTCHours0. destruct (civil_from_days (day_of t)) as [[y m] d]. simpl in Hy.
  destruct Hc as (Hd & Hm & Hdd). unfold iso_year. rewrite (proj2 (andb_true_iff _ _)) by lia.
  change "T00:00:00.000Z"%string with (String.string_of_list_ascii (String.list_ascii_of_string "T00:00:00.000Z")).
  rewrite <- string_of_app. unfold Date_parse. rewrite !String.list_ascii_of_string_of_list_ascii.
  cbn [padded app]. unfold Date_parse.
  assert (H1 : in_range 1 12 (digits 0 [digit_char (m / 10); digit_char m]) = Some m).
  { rewrite digits2 by lia. simpl. by rewrite (proj2 (andb_true_iff _ _)) by lia. }
  assert (H2 : in_range 1 31 (digits 0 [digit_char (d / 10); digit_char d]) = Some d).
  { rewrite digits2 by lia. simpl. by rewrite (proj2 (andb_true_iff _ _)) by lia. }
  rewrite (digits4 y Hy), H1, H2. cbn [mbind option_bind]. cbv zeta. rewrite !Hd.
  split; [f_equal; lia|]. cbn [String.list_ascii_of_string].
  match goal with |- (parse_clock ?l ≫= _) = _ => change (parse_clock l) with (Some 0) end. done.
Qed.

Lemma day_of_start t : day_of (setUTCHours0 0 t) = day_of t.
Proof. unfold setUTCHours0, day_of, ms_day, ms_hour. rewrite Z.mul_0_l, Z.add_0_r. by rewrite Z.div_mul. Qed.
Lemma date10_inj t t' : iso_year_ok t -> iso_year_ok t' -> date10 t = date10 t' <-> day_of t = day_of t'.
Proof.
  intros Ht Ht'. split; intros H.
  - pose proof (proj1 (parse_date10 t Ht)) as H1. rewrite H, (proj1 (parse_date10 t' Ht')) in H1. injection H1 as H1.
    by rewrite <- (day_of_start t), <- (day_of_start t'), H1.
  - rewrite !date10_iso by done. unfold iso_date. by rewrite H.
Qed.
Lemma day_of_range t n : day_of t = n <-> n * ms_day <= t < (n + 1) * ms_day.
Proof. unfold day_of, ms_day. Z.to_euclidean_division_equations. lia. Qed.
