(* ===== verification/DeskTypes.v ===== *)
(** * The operator's desk: tables, effects and tenancy

    What the engine switch (src/strategy/live/live-control.service.ts), the equity cron, the
    dashboards (live-analytics.service.ts, src/admin/analytics) and the journal
    (src/journal) share: the tables of libs/prisma/schema.prisma they read and write, the
    Redis keys and the memory of the switch, and the effects their methods await.

    A statement of the database is a function of the time, a fresh identifier and the
    tables, applied in one step.  Rows of a query without an order come in the order of the
    table's map. *)
From Stdlib Require Import SpecFloat.
From S2P Require Import Prelude Async JsNum JsDate Types MarketTypes LiveTypes AuthTypes.

(** ** Rows *)
Record AccountRow := {
  ba_id : string; ba_userId : string; ba_name : string; ba_broker : string; ba_isEnabled : bool }.

Inductive EngineMode := mock | metaapi.
#[export] Instance EngineMode_eq_dec : EqDecision EngineMode.
Proof. solve_decision. Defined.
Inductive LiveStrategyVersion := V_GIDEON | V_SMC_V2 | V_V6_alt.
#[export] Instance LiveStrategyVersion_eq_dec : EqDecision LiveStrategyVersion.
Proof. solve_decision. Defined.

Record LiveEngineConfig := {
  lc_strategyVersion : LiveStrategyVersion; lc_riskPercent : num; lc_mode : EngineMode;
  lc_mockBalance : option num }.

Inductive SessionStatus := RUNNING | ENDED | CRASHED.
#[export] Instance SessionStatus_eq_dec : EqDecision SessionStatus.
Proof. solve_decision. Defined.
Record LiveSession := {
  ls_id : string; ls_startedAt : Z; ls_endedAt : option Z; ls_strategyVersion : LiveStrategyVersion;
  ls_riskPercent : num; ls_mode : EngineMode; ls_mockBalance : option num; ls_startEquity : num;
  ls_endEquity : option num; ls_realizedPnl : num; ls_tradesCount : Z; ls_winsCount : Z;
  ls_lossesCount : Z; ls_status : SessionStatus; ls_pairs : list string; ls_accountId : option string }.

Record EquitySnapshot := {
  es_accountId : option string; es_source : string; es_mode : EngineMode; es_balance : num; es_equity : num;
  es_unrealizedPnl : num; es_margin : num; es_freeMargin : num; es_openPositions : Z; es_takenAt : Z }.

(** The journal of a trade; the two contexts are JSON columns. *)
Inductive JournalOutcome := WIN | LOSS | BE | FORCED.
Record JournalEntryContext := {
  jc_evalTime : string; jc_d1Adx : num; jc_d1Bias : D1Bias; jc_h1Atr : num; jc_killzone : option string;
  jc_pendingQueueSize : Z; jc_spread : num; jc_accountEquity : num; jc_openPositionsCount : Z;
  jc_openDirections : list Side; jc_anchorLevel : option num; jc_anchorType : option string }.
Record JournalExitContext := {
  jx_closedAt : string; jx_exitReason : string; jx_holdMinutes : Z; jx_exitPrice : num;
  jx_mfeMaePips : option (num * num); jx_trailedSlAtClose : num; jx_originalSlPrice : option num;
  jx_beActivated : bool }.
Record JournalRow := {
  jr_setupSummary : string; jr_tags : list string; jr_reflectionNote : option string;
  jr_entryContext : option JournalEntryContext; jr_exitContext : option JournalExitContext;
  jr_outcome : option JournalOutcome }.

(** [tb_tags] are the [setupTags] of the candidate of each trade. *)
Record Tables := {
  tb_users : gmap string UserRow;
  tb_accounts : gmap string AccountRow;
  tb_trades : gmap string Trade;
  tb_tags : gmap string (list string);
  tb_sessions : gmap string LiveSession;
  tb_snapshots : list EquitySnapshot;
  tb_notes : gmap (string * Z) string;
  tb_journal : gmap string JournalRow;
  tb_candles : list CandleRow }.

Definition set_trades (x : gmap string Trade) (d : Tables) : Tables := {|
  tb_users := tb_users d; tb_accounts := tb_accounts d; tb_trades := x; tb_tags := tb_tags d;
  tb_sessions := tb_sessions d; tb_snapshots := tb_snapshots d; tb_notes := tb_notes d; tb_journal := tb_journal d;
  tb_candles := tb_candles d |}.
Definition set_sessions (x : gmap string LiveSession) (d : Tables) : Tables := {|
  tb_users := tb_users d; tb_accounts := tb_accounts d; tb_trades := tb_trades d; tb_tags := tb_tags d;
  tb_sessions := x; tb_snapshots := tb_snapshots d; tb_notes := tb_notes d; tb_journal := tb_journal d;
  tb_candles := tb_candles d |}.
Definition set_snapshots (x : list EquitySnapshot) (d : Tables) : Tables := {|
  tb_users := tb_users d; tb_accounts := tb_accounts d; tb_trades := tb_trades d; tb_tags := tb_tags d;
  tb_sessions := tb_sessions d; tb_snapshots := x; tb_notes := tb_notes d; tb_journal := tb_journal d;
  tb_candles := tb_candles d |}.
Definition set_notes (x : gmap (string * Z) string) (d : Tables) : Tables := {|
  tb_users := tb_users d; tb_accounts := tb_accounts d; tb_trades := tb_trades d; tb_tags := tb_tags d;
  tb_sessions := tb_sessions d; tb_snapshots := tb_snapshots d; tb_notes := x; tb_journal := tb_journal d;
  tb_candles := tb_candles d |}.
Definition set_journal (x : gmap string JournalRow) (d : Tables) : Tables := {|
  tb_users := tb_users d; tb_accounts := tb_accounts d; tb_trades := tb_trades d; tb_tags := tb_tags d;
  tb_sessions := tb_sessions d; tb_snapshots := tb_snapshots d; tb_notes := tb_notes d; tb_journal := x;
  tb_candles := tb_candles d |}.

(** The rows of a table, and a query with an order. *)
Definition rows_of {A} (m : gmap string A) : list A := (map_to_list m).*2.
Definition newest {A} (at_ : A -> Z) (l : list A) : list A := sort_by (fun a b => at_ b <=? at_ a) l.
Definition oldest {A} (at_ : A -> Z) (l : list A) : list A := sort_by (fun a b => at_ a <=? at_ b) l.

(** [l.filter(P).length] and [count] of a query. *)
Definition count {A} (P : A -> bool) (l : list A) : Z := zlen (filter (fun x => P x = true) l).
Lemma count_nil {A} (P : A -> bool) : count P [] = 0.
Proof. done. Qed.
Lemma count_cons {A} (P : A -> bool) x l : count P (x :: l) = (if P x then 1 else 0) + count P l.
Proof.
  unfold count, zlen. rewrite filter_cons. destruct (P x); [rewrite decide_True by done; simpl; lia|].
  by rewrite decide_False by done.
Qed.
Lemma count_perm {A} (P : A -> bool) l l' : l ≡ₚ l' -> count P l = count P l'.
Proof. intros H. unfold count, zlen. by rewrite H. Qed.

(** A row put into a table, over the row it had. *)
Lemma rows_insert {A} (m : gmap string A) k x : rows_of (<[k := x]> m) ≡ₚ x :: rows_of (delete k m).
Proof. unfold rows_of. rewrite <- insert_delete_eq. rewrite map_to_list_insert by apply lookup_delete_eq. done. Qed.
Lemma rows_delete {A} (m : gmap string A) k x : m !! k = Some x -> rows_of m ≡ₚ x :: rows_of (delete k m).
Proof. intros H. rewrite <- (insert_id m k x H) at 1. apply rows_insert. Qed.
Lemma count_insert {A} (P : A -> bool) (m : gmap string A) k x :
  count P (rows_of (<[k := x]> m)) = count P (rows_of m) + (if P x then 1 else 0) -
    match m !! k with Some y => if P y then 1 else 0 | None => 0 end.
Proof.
  rewrite (count_perm P _ _ (rows_insert m k x)), count_cons. destruct (m !! k) as [y|] eqn:E.
  - rewrite (count_perm P _ _ (rows_delete m k y E)), count_cons. lia.
  - rewrite delete_id by done. lia.
Qed.
Lemma count_delete {A} (P : A -> bool) (m : gmap string A) k :
  count P (rows_of (delete k m)) = count P (rows_of m) - match m !! k with Some y => if P y then 1 else 0 | None => 0 end.
Proof.
  destruct (m !! k) as [y|] eqn:E; [rewrite (count_perm P _ _ (rows_delete m k y E)), count_cons; lia|].
  rewrite delete_id by done. lia.
Qed.

(** A [Map], or an object with string keys: the entries in the order of their insertion. *)
Fixpoint map_set {V} (k : string) (v : V) (l : list (string * V)) : list (string * V) :=
  match l with
  | [] => [(k, v)]
  | (k', v') :: l' => if bool_decide (k' = k) then (k, v) :: l' else (k', v') :: map_set k v l'
  end.
Fixpoint map_get {V} (k : string) (l : list (string * V)) : option V :=
  match l with
  | [] => None
  | (k', v') :: l' => if bool_decide (k' = k) then Some v' else map_get k l'
  end.

(** ** The switch: memory and Redis

    A JSON value in Redis is the value it was printed from; a field that is [undefined] is
    not printed and read back as [undefined]. *)
Record ControlMem := {
  cm_running : bool; cm_lastChangedAt : option string; cm_config : option LiveEngineConfig;
  cm_sessionId : option string }.
Record RedisKeys := {
  k_running : option string; k_config : option LiveEngineConfig; k_mode : option EngineMode;
  k_session : option string; k_lastChanged : option string }.

(** ** Messages of the execution service

    A field is [None] when it is missing or not a number. *)
Record AccountReply := {
  ar_balance : option num; ar_equity : option num; ar_margin : option num; ar_freeMargin : option num }.

(** ** Effects

    [HttpAccountOf None] and [HttpHousePositions] ask about the house account, the account
    of the process's own connection.  [Engine A m] is a call of another service: it runs
    [m]. *)
Inductive DeskAct :=
| Stmt (A : Type) (f : Z -> string -> Tables -> Tables * Res A)
| RedisGet (A : Type) (f : RedisKeys -> A)
| RedisSet (f : RedisKeys -> RedisKeys)
| MemDo (A : Type) (f : Z -> ControlMem -> ControlMem * A)
| HttpAccountOf (account : option string)
| HttpPositions (account : string)
| HttpMockReset (balance : num)
| ReconcileAll
| HttpHousePositions
| HttpOpenPositions (account : string)
| HttpExecHealth
| HttpCandlesOf (sym tf : string) (count : Z)
| RedisText (key : string)
| DeskClock
| Engine (A : Type) (m : IO A).

Definition desk_result (e : DeskAct) : Type :=
  match e with
  | Stmt A _ => Res A
  | RedisGet A _ => Res A
  | RedisSet _ => Res unit
  | MemDo A _ => A
  | HttpAccountOf _ => Res AccountReply
  | HttpPositions _ => Res (list (option num))
  | HttpMockReset _ | ReconcileAll => Res unit
  | HttpHousePositions | HttpOpenPositions _ => Res (list BrokerPosition)
  | HttpExecHealth => Res (option string)
  | HttpCandlesOf _ _ _ => Res (list BacktestCandle)
  | RedisText _ => Res (option string)
  | DeskClock => Z
  | Engine A _ => Res A
  end.

Definition DeskProg (A : Type) : Type := @Prog DeskAct desk_result A.
Definition DeskAsync (A : Type) : Type := @Async DeskAct desk_result A.
Definition ask_desk (e : DeskAct) : DeskProg (desk_result e) := perform e.
(** A read, which may use the time, and a write. *)
Definition select {A} (q : Z -> Tables -> A) : DeskAsync A :=
  ask_desk (Stmt A (fun now _ d => (d, Ok (q now d)))).
Definition execute_sql {A} (f : Z -> string -> Tables -> Tables * Res A) : DeskAsync A := ask_desk (Stmt A f).
Definition redis_get {A} (f : RedisKeys -> A) : DeskAsync A := ask_desk (RedisGet A f).
Definition redis_set (f : RedisKeys -> RedisKeys) : DeskAsync unit := ask_desk (RedisSet f).
Definition memory {A} (f : Z -> ControlMem -> ControlMem * A) : DeskAsync A :=
  @ask DeskAct desk_result (MemDo A f).

Section together.
Local Open Scope async_scope.
(** [Promise.all] of two queries: [first] tells whether the first is answered first. *)
Definition both {A B} (first : bool) (p : DeskAsync A) (q : DeskAsync B) : DeskAsync (A * B) :=
  if first then x <~ p ;; y <~ q ;; resolve (x, y) else y <~ q ;; x <~ p ;; resolve (x, y).
End together.
(** [Promise.all]: the answers, unless one throws. *)
Fixpoint all_ok {A} (rs : list (Res A)) : Res (list A) :=
  match rs with
  | [] => Ok []
  | Throw e :: _ => Throw e
  | Ok a :: rs => match all_ok rs with Ok l => Ok (a :: l) | Throw e => Throw e end
  end.
Definition promise_all {A} (sched : list nat) (ps : list (DeskAsync A)) : DeskAsync (list A) :=
  pbind (par_all sched ps) (fun rs => Ret (all_ok rs)).

(** ** What the effects do

    A statement that throws leaves the tables alone.  [redis_down] says whether Redis may
    refuse. *)
Record Desk := { dk_db : Tables; dk_redis : RedisKeys; dk_mem : ControlMem }.
Definition on_db (d : Tables) (w : Desk) : Desk := {| dk_db := d; dk_redis := dk_redis w; dk_mem := dk_mem w |}.
Definition on_redis (r : RedisKeys) (w : Desk) : Desk := {| dk_db := dk_db w; dk_redis := r; dk_mem := dk_mem w |}.
Definition on_mem (m : ControlMem) (w : Desk) : Desk := {| dk_db := dk_db w; dk_redis := dk_redis w; dk_mem := m |}.

Definition fresh_id (id : string) (d : Tables) : Prop := id <> ""%string /\ tb_sessions d !! id = None.
Definition commit_db {A} (r : Tables * Res A) (w : Desk) : Desk :=
  match r.2 with Ok _ => on_db r.1 w | Throw _ => w end.
Definition fails {A} (w w' : Desk) (x : Res A) : Prop := w' = w /\ exists e, x = Throw e.

Definition desk_sem (redis_down : bool) (_ : nat) (e : DeskAct) (w w' : Desk) : desk_result e -> Prop :=
  match e return desk_result e -> Prop with
  | Stmt A f => fun x =>
      (exists now id, fresh_id id (dk_db w) /\ w' = commit_db (f now id (dk_db w)) w /\ x = (f now id (dk_db w)).2)
      \/ fails w w' x
  | RedisGet A f => fun x => (w' = w /\ x = Ok (f (dk_redis w))) \/ (redis_down = true /\ fails w w' x)
  | RedisSet f => fun x => (w' = on_redis (f (dk_redis w)) w /\ x = Ok tt) \/ (redis_down = true /\ fails w w' x)
  | MemDo A f => fun x => exists now, (w', x) = (on_mem (f now (dk_mem w)).1 w, (f now (dk_mem w)).2)
  | Engine A m => fun _ => exists t, w' = on_db (set_trades t (dk_db w)) w
  | _ => fun _ => w' = w
  end.

(** ** Tenancy *)

(** [account: { userId }] of a [where] clause. *)
Definition owns (u : string) (d : Tables) (account : option string) : bool :=
  match account with
  | Some a => match tb_accounts d !! a with Some r => bool_decide (ba_userId r = u) | None => false end
  | None => false
  end.
Definition trades_of (u : string) (d : Tables) : list Trade :=
  rows_of (filter (fun kv => owns u d (account kv.2) = true) (tb_trades d)).
Definition accounts_of (u : string) (d : Tables) : list AccountRow :=
  rows_of (filter (fun kv => ba_userId kv.2 = u) (tb_accounts d)).
(** [accountId: { in: accountIds }] *)
Definition snapshots_of (ids : list string) (d : Tables) : list EquitySnapshot :=
  filter (fun s => match es_accountId s with Some a => bool_decide (a ∈ ids) | None => false end = true) (tb_snapshots d).
