(* ===== verification/LiveControl.v ===== *)
(** * The switch of the live engine

    src/strategy/live/live-control.service.ts ([LiveControlService]) and the equity cron of
    equity-snapshot.service.ts ([EquitySnapshotService]).  The fields of the service are
    memory shared by overlapping calls: each piece of code between two awaits that reads or
    writes them is one [memory] step. *)
From Stdlib Require Import SpecFloat.
From S2P Require Import Prelude Async JsNum JsDate Types MarketTypes LiveTypes AuthTypes MarketData DeskTypes.
Local Open Scope num_scope.

(** [isFinite(x)] of a number. *)
Definition isFinite (x : num) : bool := match x with S754_zero _ | S754_finite _ _ _ => true | _ => false end.

Section control.
(** [LIVE_MODE], [STRATEGY_PAIRS], [RISK_PERCENT] and [METAAPI_ACCOUNT_ID_DEMO] of the
    environment. *)
Context (LIVE_MODE STRATEGY_PAIRS : option string) (RISK_PERCENT : num) (METAAPI_ID : option string).
Local Open Scope async_scope.

(** [(get(key) || fallback)] *)
Definition or_default (fallback : string) (v : option string) : string :=
  match v with Some s => if truthy_string s then s else fallback | None => fallback end.

Definition isEnabled : bool := bool_decide (toLowerCase (or_default "false" LIVE_MODE) = "true"%string).
Definition isRunning (m : ControlMem) : bool := isEnabled && cm_running m.

Definition initial_mem : ControlMem := {|
  cm_running := false; cm_lastChangedAt := None; cm_config := None; cm_sessionId := None |}.

Definition with_running (b : bool) (m : ControlMem) : ControlMem := {|
  cm_running := b; cm_lastChangedAt := cm_lastChangedAt m; cm_config := cm_config m; cm_sessionId := cm_sessionId m |}.
Definition with_config (c : option LiveEngineConfig) (m : ControlMem) : ControlMem := {|
  cm_running := cm_running m; cm_lastChangedAt := cm_lastChangedAt m; cm_config := c; cm_sessionId := cm_sessionId m |}.
Definition with_session (s : option string) (m : ControlMem) : ControlMem := {|
  cm_running := cm_running m; cm_lastChangedAt := cm_lastChangedAt m; cm_config := cm_config m; cm_sessionId := s |}.
Definition with_changed (t : option string) (m : ControlMem) : ControlMem := {|
  cm_running := cm_running m; cm_lastChangedAt := t; cm_config := cm_config m; cm_sessionId := cm_sessionId m |}.

Definition modify_mem (f : ControlMem -> ControlMem) : DeskAsync unit := memory (fun _ m => (f m, tt)).
Definition read_mem {A} (f : ControlMem -> A) : DeskAsync A := memory (fun _ m => (m, f m)).

(** [if (x)] of a string that may be null. *)
Definition truthy_opt (o : option string) : option string :=
  match o with Some s => if truthy_string s then Some s else None | None => None end.

(** A fresh process: the fields are initialised, then restored. *)
Definition onModuleInit : DeskAsync unit :=
  await! modify_mem (fun _ => initial_mem) ;;
  if negb isEnabled then modify_mem (with_running false)
  else
    try_catch
      (persisted <~ redis_get k_running ;;
       await! modify_mem (with_running (bool_decide (persisted = Some "1"%string))) ;;
       cfgRaw <~ redis_get k_config ;;
       await! match cfgRaw with Some c => modify_mem (with_config (Some c)) | None => resolve tt end ;;
       sid <~ redis_get k_session ;;
       await! match truthy_opt sid with Some s => modify_mem (with_session (Some s)) | None => resolve tt end ;;
       lastAt <~ redis_get k_lastChanged ;;
       match truthy_opt lastAt with Some t => modify_mem (with_changed (Some t)) | None => resolve tt end)
      (fun _ => modify_mem (with_running false)).

(** [Partial<LiveEngineConfig>]; a missing [riskPercent] converts to NaN. *)
Record StartInput := {
  in_strategyVersion : option string; in_riskPercent : option num; in_mode : option string;
  in_mockBalance : option num }.

(** The one error text of a failed validation of the strategy is kept short. *)
Definition validateConfig (input : StartInput) : Res LiveEngineConfig :=
  let strategy := default "GIDEON"%string (in_strategyVersion input) in
  if negb (bool_decide (strategy ∈ ["GIDEON"; "SMC-V2"; "V6-alt"]%string)) then Throw "Unsupported strategy"
  else
    let risk := default NaN (in_riskPercent input) in
    if negb (isFinite risk) || (risk <? lit 25 2) || (risk >? of_Z 4) then
      Throw "riskPercent must be between 0.25 and 4.0"
    else
      let mode := if bool_decide (in_mode input = Some "metaapi"%string) then metaapi else mock in
      match mode, in_mockBalance input with
      | mock, Some n =>
          if negb (isFinite n) || (n <? of_Z 50) || (n >? of_Z 1000000) then
            Throw "mockBalance must be between 50 and 1,000,000"
          else Ok {| lc_strategyVersion := V_GIDEON; lc_riskPercent := risk; lc_mode := mode; lc_mockBalance := Some n |}
      | metaapi, _ =>
          match truthy_opt METAAPI_ID with
          | None => Throw "Cannot start in MetaApi mode"
          | Some _ => Ok {| lc_strategyVersion := V_GIDEON; lc_riskPercent := risk; lc_mode := mode; lc_mockBalance := None |}
          end
      | mock, None => Ok {| lc_strategyVersion := V_GIDEON; lc_riskPercent := risk; lc_mode := mode; lc_mockBalance := None |}
      end.

(** ** Statements of the LiveSession table *)
Definition crashed (now : Z) (s : LiveSession) : LiveSession := {|
  ls_id := ls_id s; ls_startedAt := ls_startedAt s; ls_endedAt := Some now; ls_strategyVersion := ls_strategyVersion s;
  ls_riskPercent := ls_riskPercent s; ls_mode := ls_mode s; ls_mockBalance := ls_mockBalance s;
  ls_startEquity := ls_startEquity s; ls_endEquity := ls_endEquity s; ls_realizedPnl := ls_realizedPnl s;
  ls_tradesCount := ls_tradesCount s; ls_winsCount := ls_winsCount s; ls_lossesCount := ls_lossesCount s;
  ls_status := CRASHED; ls_pairs := ls_pairs s; ls_accountId := ls_accountId s |}.
Definition orphan (current : option string) (s : LiveSession) : bool :=
  bool_decide (ls_status s = RUNNING) && match current with Some id => negb (bool_decide (ls_id s = id)) | None => true end.
Definition crash_orphans (current : option string) (now : Z) (_ : string) (d : Tables) : Tables * Res Z :=
  (set_sessions ((fun s => if orphan current s then crashed now s else s) <$> tb_sessions d) d,
   Ok (Z.of_nat (size (filter (fun kv => orphan current kv.2 = true) (tb_sessions d))))).

Definition trading_pairs : list string :=
  parse_pairs (or_default "XAUUSD,EURUSD,GBPUSD,USDJPY" STRATEGY_PAIRS).

(** The new row; it names no account. *)
Definition session_row (cfg : LiveEngineConfig) (startEquity : num) (now : Z) (id : string) : LiveSession := {|
  ls_id := id; ls_startedAt := now; ls_endedAt := None; ls_strategyVersion := lc_strategyVersion cfg;
  ls_riskPercent := lc_riskPercent cfg; ls_mode := lc_mode cfg; ls_mockBalance := lc_mockBalance cfg;
  ls_startEquity := startEquity; ls_endEquity := None; ls_realizedPnl := of_Z 0; ls_tradesCount := 0;
  ls_winsCount := 0; ls_lossesCount := 0; ls_status := RUNNING; ls_pairs := trading_pairs; ls_accountId := None |}.
Definition create_session (cfg : LiveEngineConfig) (startEquity : num) (now : Z) (id : string) (d : Tables)
    : Tables * Res string :=
  (set_sessions (<[id := session_row cfg startEquity now id]> (tb_sessions d)) d, Ok id).

(** ** start *)
Definition started (cfg : LiveEngineConfig) (id : string) (now : Z) (_ : ControlMem) : ControlMem * string :=
  let at_ := toISOString now in
  ({| cm_running := true; cm_lastChangedAt := Some at_; cm_config := Some cfg; cm_sessionId := Some id |}, at_).

Definition set_running (b : string) (r : RedisKeys) : RedisKeys := {|
  k_running := Some b; k_config := k_config r; k_mode := k_mode r; k_session := k_session r; k_lastChanged := k_lastChanged r |}.
Definition set_config (c : LiveEngineConfig) (r : RedisKeys) : RedisKeys := {|
  k_running := k_running r; k_config := Some c; k_mode := k_mode r; k_session := k_session r; k_lastChanged := k_lastChanged r |}.
Definition set_mode (m : EngineMode) (r : RedisKeys) : RedisKeys := {|
  k_running := k_running r; k_config := k_config r; k_mode := Some m; k_session := k_session r; k_lastChanged := k_lastChanged r |}.
Definition set_session (s : option string) (r : RedisKeys) : RedisKeys := {|
  k_running := k_running r; k_config := k_config r; k_mode := k_mode r; k_session := s; k_lastChanged := k_lastChanged r |}.
Definition set_changed (t : string) (r : RedisKeys) : RedisKeys := {|
  k_running := k_running r; k_config := k_config r; k_mode := k_mode r; k_session := k_session r; k_lastChanged := Some t |}.

Definition finite_or (fallback : num) (o : option num) : num :=
  match o with Some x => if isFinite x then x else fallback | None => fallback end.
Definition start_equity (cfg : LiveEngineConfig) : DeskAsync num :=
  let fallback := default (of_Z 0) (lc_mockBalance cfg) in
  try_catch
    (acc <~ (ask_desk (HttpAccountOf None) : DeskAsync _) ;; resolve (finite_or fallback (ar_equity acc)))
    (fun _ => resolve fallback).
Definition reset_mock (cfg : LiveEngineConfig) : DeskAsync unit :=
  match lc_mode cfg, lc_mockBalance cfg with
  | mock, Some b => swallow (ask_desk (HttpMockReset b) : DeskAsync unit)
  | _, _ => resolve tt
  end.
Definition already_running (m : ControlMem) : bool :=
  cm_running m && match truthy_opt (cm_sessionId m) with Some _ => true | None => false end.

Definition start (input : StartInput) : DeskAsync LiveEngineConfig :=
  if negb isEnabled then reject "LIVE_MODE=false in env"
  else
    m <~ read_mem (fun m => m) ;;
    if already_running m then reject "A live session is already running"
    else
      match validateConfig input with
      | Throw e => reject e
      | Ok cfg =>
          await! execute_sql (crash_orphans (truthy_opt (cm_sessionId m))) ;;
          await! redis_set (set_mode (lc_mode cfg)) ;;
          await! reset_mock cfg ;;
          startEquity <~ start_equity cfg ;;
          id <~ execute_sql (create_session cfg startEquity) ;;
          at_ <~ memory (started cfg id) ;;
          await! redis_set (set_running "1") ;;
          await! redis_set (set_config cfg) ;;
          await! redis_set (set_session (Some id)) ;;
          await! redis_set (set_changed at_) ;;
          resolve cfg
      end.

(** ** stop *)
Definition closed_pnl (t : Trade) : option num :=
  if bool_decide (status t = CLOSED) then t_pnl (t_data t) else None.
Definition is_win (t : Trade) : bool :=
  bool_decide (status t = CLOSED) && (default (of_Z 0) (t_pnl (t_data t)) >? of_Z 0).
Definition is_loss (t : Trade) : bool :=
  bool_decide (status t = CLOSED) && (default (of_Z 0) (t_pnl (t_data t)) <? of_Z 0).
Definition realized_of (trades : list Trade) : num := nsum (of_Z 0) (omap closed_pnl trades).

Definition finalized (endEquity : option num) (trades : list Trade) (now : Z) (s : LiveSession) : LiveSession := {|
  ls_id := ls_id s; ls_startedAt := ls_startedAt s; ls_endedAt := Some now; ls_strategyVersion := ls_strategyVersion s;
  ls_riskPercent := ls_riskPercent s; ls_mode := ls_mode s; ls_mockBalance := ls_mockBalance s;
  ls_startEquity := ls_startEquity s; ls_endEquity := endEquity;
  ls_realizedPnl := Math_round (realized_of trades * of_Z 100) / of_Z 100;
  ls_tradesCount := zlen trades; ls_winsCount := count is_win trades; ls_lossesCount := count is_loss trades;
  ls_status := ENDED; ls_pairs := ls_pairs s; ls_accountId := ls_accountId s |}.
(** An update of a row that is not there, and one whose [where] is null, throw. *)
Definition end_session (sid : option string) (endEquity : option num) (trades : list Trade) (now : Z) (_ : string)
    (d : Tables) : Tables * Res unit :=
  match sid with
  | Some id =>
      match tb_sessions d !! id with
      | Some s => (set_sessions (<[id := finalized endEquity trades now s]> (tb_sessions d)) d, Ok tt)
      | None => (d, Throw "PrismaClientKnownRequestError: P2025")
      end
  | None => (d, Throw "PrismaClientValidationError")
  end.
Definition session_trades (sid : option string) (d : Tables) : list Trade :=
  rows_of (filter (fun kv => t_sessionId (t_data kv.2) = sid) (tb_trades d)).

(** The session is looked up again after every await. *)
Definition finalize_current : DeskAsync unit :=
  endEquity <~ try_catch (acc <~ (ask_desk (HttpAccountOf None) : DeskAsync _) ;; resolve (ar_equity acc))
                 (fun _ => resolve None) ;;
  sid <~ read_mem cm_sessionId ;;
  trades <~ select (fun _ => session_trades sid) ;;
  sid' <~ read_mem cm_sessionId ;;
  execute_sql (end_session sid' endEquity trades).

Definition stopped (now : Z) (m : ControlMem) : ControlMem * string :=
  let at_ := toISOString now in (with_changed (Some at_) (with_running false m), at_).

Definition stop : DeskAsync unit :=
  await! swallow (ask_desk ReconcileAll : DeskAsync unit) ;;
  at_ <~ memory stopped ;;
  await! swallow (await! redis_set (set_running "0") ;; redis_set (set_changed at_)) ;;
  sid <~ read_mem (fun m => truthy_opt (cm_sessionId m)) ;;
  await! match sid with Some _ => swallow finalize_current | None => resolve tt end ;;
  await! modify_mem (with_session None) ;;
  swallow (redis_set (set_session None)).

(** ** Reads *)
Definition getCurrentSessionId : ControlMem -> option string := cm_sessionId.
Definition getRiskPercent (m : ControlMem) : num := default RISK_PERCENT (lc_riskPercent <$> cm_config m).
Definition getConfig : ControlMem -> option LiveEngineConfig := cm_config.

(** ** EquitySnapshotService *)
Definition pnl_or0 (o : option num) : num := default (of_Z 0) o.
Definition snapshot_row (accountId : string) (mode : EngineMode) (a : AccountReply) (positions : list (option num))
    (now : Z) : EquitySnapshot := {|
  es_accountId := Some accountId; es_source := "live"; es_mode := mode; es_balance := pnl_or0 (ar_balance a);
  es_equity := pnl_or0 (ar_equity a);
  es_unrealizedPnl := Math_round (nsum (of_Z 0) (pnl_or0 <$> positions) * of_Z 100) / of_Z 100;
  es_margin := pnl_or0 (ar_margin a); es_freeMargin := pnl_or0 (ar_freeMargin a);
  es_openPositions := zlen positions; es_takenAt := now |}.
Definition snapshotAccount (accountId : string) (mode : EngineMode) : DeskAsync unit :=
  try_catch
    (a <~ (ask_desk (HttpAccountOf (Some accountId)) : DeskAsync _) ;;
     if (pnl_or0 (ar_balance a) <=? of_Z 0) && (pnl_or0 (ar_equity a) <=? of_Z 0) then resolve tt
     else
       positions <~ (ask_desk (HttpPositions accountId) : DeskAsync _) ;;
       execute_sql (fun now _ d =>
         (set_snapshots (tb_snapshots d ++ [snapshot_row accountId mode a positions now]) d, Ok tt)))
    (fun _ => resolve tt).

(** The accounts are read side by side, in the order [sched] gives. *)
Definition takeSnapshot (sched : list nat) : DeskAsync unit :=
  running <~ read_mem isRunning ;;
  if negb running then resolve tt
  else
    accounts <~ select (fun _ d => rows_of (filter (fun kv => ba_isEnabled kv.2 = true) (tb_accounts d))) ;;
    match accounts with
    | [] => resolve tt
    | _ =>
        mode <~ read_mem (fun m => default mock (lc_mode <$> cm_config m)) ;;
        pbind (par_all sched ((fun a => snapshotAccount (ba_id a) mode) <$> accounts)) (fun _ => resolve tt)
    end.
End control.
