(* ===== verification/LiveControlFacts.v ===== *)
(** * Theorems about the engine switch

    As long as its calls do not overlap, at most one session runs, it is the one in memory,
    and a restart of the process restores the switch from Redis.  The examples at the end
    show what two overlapping calls do. *)
From Stdlib Require Import SpecFloat.
From S2P Require Import Prelude Async JsNum JsDate Types MarketTypes LiveTypes AuthTypes MarketData DeskTypes LiveControl.

Section facts.
Context (LIVE_MODE STRATEGY_PAIRS METAAPI_ID : option string).
Notation sem := (desk_sem false).
Notation lv := (leaves sem 0).

(** ** The invariant *)
Definition running_row (d : Tables) (id : string) : Prop :=
  exists s, tb_sessions d !! id = Some s /\ ls_status s = RUNNING.

(** At most one row is running; an open session is that row and the engine runs exactly
    while one is open. *)
Record exclusive (w : Desk) : Prop := {
  ex_keys : forall id s, tb_sessions (dk_db w) !! id = Some s -> ls_id s = id;
  ex_one : forall i j, running_row (dk_db w) i -> running_row (dk_db w) j -> i = j;
  ex_open : forall id, cm_sessionId (dk_mem w) = Some id -> id <> ""%string /\ running_row (dk_db w) id;
  ex_run : cm_running (dk_mem w) = true <-> is_Some (cm_sessionId (dk_mem w)) }.

(** Redis holds what the memory holds. *)
Record mirrored (w : Desk) : Prop := {
  mi_running : bool_decide (k_running (dk_redis w) = Some "1"%string) = cm_running (dk_mem w);
  mi_config : k_config (dk_redis w) = cm_config (dk_mem w);
  mi_session : k_session (dk_redis w) = cm_sessionId (dk_mem w);
  mi_changed : k_lastChanged (dk_redis w) = cm_lastChangedAt (dk_mem w);
  mi_text : cm_lastChangedAt (dk_mem w) <> Some ""%string }.

Definition sound (w : Desk) : Prop := exclusive w /\ mirrored w.

Lemma toISOString_text t : toISOString t <> ""%string.
Proof.
  unfold toISOString, iso_date. destruct (civil_from_days _) as [[y m] d]. unfold iso_year.
  destruct (_ && _)%bool; [|destruct (y <? 0)]; done.
Qed.

Lemma truthy_text o s : truthy_opt o = Some s -> o = Some s.
Proof. destruct o as [x|]; simpl; [|done]. by destruct (truthy_string x). Qed.
Lemma truthy_some s : s <> ""%string -> truthy_opt (Some s) = Some s.
Proof. by destruct s. Qed.
Lemma truthy_opt_id o : o <> Some ""%string -> truthy_opt o = o.
Proof. destruct o as [[]|]; done. Qed.

(** ** Single effects *)
Lemma lv_read {A} P (f : ControlMem -> A) :
  lv P (read_mem f) (fun r w => exists m, r = Ok (f m) /\ m = dk_mem w /\ P w).
Proof.
  intros w w' r Hw (w1 & x & [now Hx] & -> & ->). simpl in Hx. injection Hx as -> ->.
  exists (dk_mem w). by destruct w.
Qed.

Lemma lv_read_then {A B} P (f : ControlMem -> A) (k : A -> DeskAsync B) Q :
  (forall a, lv P (k a) Q) -> lv P (x <~ read_mem f ;; k x)%async Q.
Proof.
  intros Hk. eapply leaves_await with (M := fun _ => P); [|exact Hk].
  eapply leaves_conseq; [intros w Hw; exact Hw| |apply lv_read]. by intros r w (m & -> & _ & Hw).
Qed.

Lemma lv_modify P f : lv P (modify_mem f) (fun r w => r = Ok tt /\ exists w0, P w0 /\ w = on_mem (f (dk_mem w0)) w0).
Proof.
  intros w w' r Hw (w1 & x & [now Hx] & -> & ->). simpl in Hx. injection Hx as -> ->. eauto.
Qed.

Lemma lv_set P f : lv P (redis_set f) (fun r w => r = Ok tt /\ exists w0, P w0 /\ w = on_redis (f (dk_redis w0)) w0).
Proof.
  intros w w' r Hw (w1 & x & Hx & -> & ->). simpl in Hx. destruct Hx as [[-> ->]|[? _]]; [eauto|done].
Qed.

Lemma lv_set_then {A} P f (k : DeskAsync A) Q :
  lv (fun w => exists w0, P w0 /\ w = on_redis (f (dk_redis w0)) w0) k Q -> lv P (await! redis_set f ;; k)%async Q.
Proof.
  intros Hk. eapply leaves_await with (M := fun _ w => exists w0, P w0 /\ w = on_redis (f (dk_redis w0)) w0); [|by intros []].
  eapply leaves_conseq; [intros w Hw; exact Hw| |apply lv_set]. by intros r w [-> Hw].
Qed.

Lemma lv_get {A} P (f : RedisKeys -> A) : lv P (redis_get f) (fun r w => r = Ok (f (dk_redis w)) /\ P w).
Proof.
  intros w w' r Hw (w1 & x & Hx & -> & ->). simpl in Hx. destruct Hx as [[-> ->]|[? _]]; [eauto|done].
Qed.

Lemma lv_quiet {A} P (e : DeskAct) (cast : desk_result e -> Res A) :
  match e with HttpAccountOf _ | HttpPositions _ | HttpMockReset _ | ReconcileAll => True | _ => False end ->
  lv P (pbind (ask_desk e) (fun x => Ret (cast x))) (fun _ w => P w).
Proof.
  intros He w w' r Hw (w1 & x & Hx & -> & ->). destruct e; simpl in *; try done; by subst.
Qed.

Lemma lv_sql {A} P (f : Z -> string -> Tables -> Tables * Res A) :
  lv P (execute_sql f) (fun r w => exists w0, P w0 /\
    ((exists now id, fresh_id id (dk_db w0) /\ w = commit_db (f now id (dk_db w0)) w0 /\ r = (f now id (dk_db w0)).2)
     \/ fails w0 w r)).
Proof. intros w w' r Hw (w1 & x & Hx & -> & ->). simpl in Hx. eauto. Qed.

Lemma lv_swallow {A} P Q (m : DeskAsync A) : lv P m (fun _ => Q) -> lv P (swallow m) (fun _ => Q).
Proof.
  intros Hm. eapply leaves_conseq; [intros w Hw; exact Hw| |by apply leaves_swallow]. by intros r w [_ Hw].
Qed.

Lemma lv_swallow_then {A B} P M (m : DeskAsync A) (k : DeskAsync B) Q :
  lv P m (fun _ => M) -> lv M k Q -> lv P (await! swallow m ;; k)%async Q.
Proof.
  intros Hm Hk. eapply leaves_await with (M := fun _ => M); [|by intros []].
  eapply leaves_conseq; [intros w Hw; exact Hw| |by apply leaves_swallow]. by intros r w [-> Hw].
Qed.

Lemma lv_select {A} P (q : Z -> Tables -> A) : lv P (select q) (fun _ w => P w).
Proof.
  intros w w' r Hw (w1 & x & Hx & -> & ->). simpl in Hx.
  destruct Hx as [(now & id & _ & -> & _)|[-> _]]; [|done]. by destruct w.
Qed.

(** ** start *)
Lemma running_row_insert d id s i :
  tb_sessions d !! id = None -> ls_status s = RUNNING ->
  running_row (set_sessions (<[id := s]> (tb_sessions d)) d) i <-> i = id \/ running_row d i.
Proof.
  intros Hn Hs. unfold running_row. simpl. destruct (decide (i = id)) as [->|Hne].
  - rewrite lookup_insert_eq. split; [auto|]. intros _. eauto.
  - rewrite lookup_insert_ne by congruence. naive_solver.
Qed.

Lemma no_running_after_crash now id d : forall i, ~ running_row (crash_orphans None now id d).1 i.
Proof.
  intros i (s & Hs & Hr). simpl in Hs. rewrite lookup_fmap in Hs.
  destruct (tb_sessions d !! i) as [s0|]; [|done]. injection Hs as <-. revert Hr. unfold orphan.
  destruct (bool_decide (ls_status s0 = RUNNING)) eqn:E; [done|]. by apply bool_decide_eq_false in E.
Qed.

(** No session is open, and none runs. *)
Definition idle_desk (w : Desk) : Prop :=
  sound w /\ cm_sessionId (dk_mem w) = None /\ forall i, ~ running_row (dk_db w) i.
(** The new row is the one that runs, and the memory does not know yet. *)
Definition created (id : string) (w : Desk) : Prop :=
  mirrored w /\ cm_sessionId (dk_mem w) = None /\ id <> ""%string /\
  (forall i s, tb_sessions (dk_db w) !! i = Some s -> ls_id s = i) /\
  forall i, running_row (dk_db w) i <-> i = id.
Definition live (cfg : LiveEngineConfig) (id at_ : string) (w : Desk) : Prop :=
  exclusive w /\ at_ <> ""%string /\
  dk_mem w = {| cm_running := true; cm_lastChangedAt := Some at_; cm_config := Some cfg; cm_sessionId := Some id |}.

Lemma lv_crash P : (forall w, P w -> sound w /\ cm_sessionId (dk_mem w) = None) ->
  lv P (execute_sql (crash_orphans None))
    (fun r w => match r with Ok _ => idle_desk w | Throw _ => sound w end).
Proof.
  intros HP. eapply leaves_conseq; [intros w Hw; exact Hw| |apply lv_sql].
  intros r w (w0 & Hw & [(now & id & _ & -> & ->)|[-> [e ->]]]); [|by apply HP].
  destruct (HP _ Hw) as [[[K1 K2 K3 K4] M] Hn]. split; [split; [split|]|split]; simpl; try done.
  - intros i s. rewrite lookup_fmap. destruct (tb_sessions (dk_db w0) !! i) as [s0|] eqn:E; [|done].
    intros [= <-]. apply K1 in E. by destruct (orphan _ _).
  - intros i j Hi. destruct (no_running_after_crash now id (dk_db w0) i Hi).
  - intros i Hi. congruence.
  - destruct M. by split.
  - exact (no_running_after_crash now id (dk_db w0)).
Qed.

Lemma sound_mode m w : sound w -> sound (on_redis (set_mode m (dk_redis w)) w).
Proof. intros [[K1 K2 K3 K4] [M1 M2 M3 M4 M5]]. split; by split. Qed.

Lemma lv_create cfg eq : lv idle_desk (execute_sql (create_session STRATEGY_PAIRS cfg eq))
  (fun r w => match r with Ok id => created id w | Throw _ => sound w end).
Proof.
  eapply leaves_conseq; [intros w Hw; exact Hw| |apply lv_sql].
  intros r w (w0 & (Hs & Hn & Hr) & [(now & id & [Ht Hf] & -> & ->)|[-> [e ->]]]); [|done].
  destruct Hs as [[K1 K2 K3 K4] M]. unfold created. split_and!; [by destruct M; split|done|done| |].
  - intros i s. simpl. destruct (decide (i = id)) as [->|Hne].
    + rewrite lookup_insert_eq. by intros [= <-].
    + rewrite lookup_insert_ne by congruence. apply K1.
  - intros i. simpl. rewrite (running_row_insert (dk_db w0) id (session_row STRATEGY_PAIRS cfg eq now id) i Hf eq_refl). naive_solver.
Qed.

Lemma lv_started cfg id : lv (created id) (memory (started cfg id))
  (fun r w => exists at_, r = Ok at_ /\ live cfg id at_ w).
Proof.
  intros w w' r (M & Hn & Ht & HK & HR) (w1 & x & [now Hx] & -> & ->). simpl in Hx. injection Hx as -> ->.
  eexists. split; [done|]. split; [split|split]; simpl.
  - exact HK.
  - intros i j ->%HR ->%HR. done.
  - intros i [= <-]. split; [done|]. by apply HR.
  - naive_solver.
  - apply toISOString_text.
  - done.
Qed.

Lemma lv_publish cfg id at_ : lv (live cfg id at_)
  (await! redis_set (set_running "1") ;; await! redis_set (set_config cfg) ;;
   await! redis_set (set_session (Some id)) ;; await! redis_set (set_changed at_) ;; resolve cfg)%async
  (fun _ => sound).
Proof.
  do 4 apply lv_set_then. apply leaves_ret. intros w (w3 & (w2 & (w1 & (w0 & (HX & Ht & Hm) & ->) & ->) & ->) & ->).
  destruct HX as [K1 K2 K3 K4]. simpl in *. split; [by split|].
  split; simpl; rewrite Hm; try done. simpl. congruence.
Qed.

Lemma start_sound input : lv sound (start LIVE_MODE STRATEGY_PAIRS METAAPI_ID input) (fun _ => sound).
Proof.
  unfold start. destruct (negb _); [by apply leaves_ret|].
  eapply leaves_await.
  { eapply leaves_conseq; [intros w Hw; exact Hw| |apply lv_read].
    intros r w (m & -> & Hm & Hw). exact (conj Hm Hw). }
  intros m. simpl. destruct (already_running m) eqn:Er; [apply leaves_ret; by intros w [_ ?]|].
  destruct (validateConfig METAAPI_ID input) as [cfg|e]; [|apply leaves_ret; by intros w [_ ?]].
  eapply leaves_await with (M := fun _ => idle_desk).
  { intros w w' r [-> Hw] Ha.
    assert (cm_sessionId (dk_mem w) = None) as Hn.
    { destruct Hw as [[K1 K2 K3 K4] _]. destruct (cm_sessionId (dk_mem w)) as [id|] eqn:E; [|done]. exfalso.
      destruct (K3 _ eq_refl) as [Ht _]. revert Er. unfold already_running. rewrite E, (truthy_some _ Ht).
      rewrite andb_true_r. intros Hr. assert (cm_running (dk_mem w) = true) by (apply K4; eauto). congruence. }
    rewrite Hn in Ha. eapply (lv_crash (fun w0 => sound w0 /\ cm_sessionId (dk_mem w0) = None)) in Ha; [exact Ha|done|done]. }
  intros _. eapply leaves_await with (M := fun _ => idle_desk).
  { eapply leaves_conseq; [intros w Hw; exact Hw| |apply lv_set]. intros r w [-> (w0 & (Hs & Hn & Hr) & ->)].
    split_and!; [by apply sound_mode|done|done]. }
  intros _. eapply leaves_await with (M := fun _ => idle_desk).
  { eapply leaves_conseq with (Q := fun _ => idle_desk); [intros w Hw; exact Hw|by intros [r|e] w [? ?]|].
    unfold reset_mock. destruct (lc_mode cfg), (lc_mockBalance cfg); try by apply leaves_ret.
    by apply lv_swallow, (lv_quiet idle_desk (HttpMockReset _) (fun x => x)). }
  intros _. eapply leaves_await with (M := fun _ => idle_desk).
  { unfold start_equity. eapply leaves_try_catch with (M := idle_desk); [|intros e; by apply leaves_ret].
    eapply leaves_await with (M := fun _ => idle_desk); [|intros a; by apply leaves_ret].
    eapply leaves_conseq; [intros w Hw; exact Hw| |apply (lv_quiet idle_desk (HttpAccountOf None) (fun x => x)); done].
    by intros [a|e] w Hw. }
  intros eq. eapply leaves_await; [eapply leaves_conseq; [intros w Hw; exact Hw| |apply lv_create]; by intros [id|e] w Hw|].
  intros id. eapply leaves_await; [eapply leaves_conseq; [intros w Hw; exact Hw| |apply lv_started]|].
  { intros r w (at_ & -> & Hw). exact Hw. }
  intros at_. apply lv_publish.
Qed.

(** ** stop *)
Record stopping (w : Desk) : Prop := {
  sp_keys : forall id s, tb_sessions (dk_db w) !! id = Some s -> ls_id s = id;
  sp_one : forall i j, running_row (dk_db w) i -> running_row (dk_db w) j -> i = j;
  sp_mem : cm_running (dk_mem w) = false;
  sp_redis : k_running (dk_redis w) = Some "0"%string;
  sp_config : k_config (dk_redis w) = cm_config (dk_mem w);
  sp_changed : k_lastChanged (dk_redis w) = cm_lastChangedAt (dk_mem w);
  sp_text : cm_lastChangedAt (dk_mem w) <> Some ""%string }.

Lemma lv_stop_flags at_ : lv (fun w => exists now w0, sound w0 /\
      w = on_mem (with_changed (Some (toISOString now)) (with_running false (dk_mem w0))) w0 /\ at_ = toISOString now)
  (await! redis_set (set_running "0") ;; redis_set (set_changed at_))%async (fun _ => stopping).
Proof.
  apply lv_set_then. eapply leaves_conseq; [intros w Hw; exact Hw| |apply lv_set].
  intros r w [_ (w2 & (w1 & (now & w0 & [[K1 K2 K3 K4] [M1 M2 M3 M4 M5]] & -> & ->) & ->) & ->)].
  split; try done. simpl. intros [=Ht]. by apply toISOString_text in Ht.
Qed.

Lemma end_session_stopping sid eq trades now id w :
  stopping w -> stopping (commit_db (end_session sid eq trades now id (dk_db w)) w).
Proof.
  intros [K1 K2 ?????]. unfold end_session. destruct sid as [cur|]; [|by split].
  destruct (tb_sessions (dk_db w) !! cur) as [s|] eqn:E; [|by split].
  assert (Hold : forall i, running_row (set_sessions (<[cur := finalized eq trades now s]> (tb_sessions (dk_db w))) (dk_db w)) i ->
                 running_row (dk_db w) i).
  { intros i (s' & Hs & Hr). simpl in Hs. destruct (decide (i = cur)) as [->|Hne].
    - rewrite lookup_insert_eq in Hs. injection Hs as <-. done.
    - rewrite lookup_insert_ne in Hs by congruence. by exists s'. }
  split; try done; simpl.
  - intros i s'. destruct (decide (i = cur)) as [->|Hne].
    + rewrite lookup_insert_eq. intros [= <-]. simpl. by eapply K1.
    + rewrite lookup_insert_ne by congruence. apply K1.
  - eauto.
Qed.

Lemma lv_finalize : lv stopping finalize_current (fun _ => stopping).
Proof.
  unfold finalize_current. eapply leaves_await with (M := fun _ => stopping).
  { eapply leaves_try_catch with (M := stopping); [|intros e; by apply leaves_ret].
    eapply leaves_await with (M := fun _ => stopping); [|intros a; by apply leaves_ret].
    eapply leaves_conseq; [intros w Hw; exact Hw| |apply (lv_quiet stopping (HttpAccountOf None) (fun x => x)); done].
    by intros [a|e] w Hw. }
  intros eq. apply lv_read_then. intros sid. eapply leaves_await with (M := fun _ => stopping).
  { eapply leaves_conseq; [intros w Hw; exact Hw| |apply lv_select]. by intros [r|e] w Hw. }
  intros trades. apply lv_read_then. intros sid'. eapply leaves_conseq; [intros w Hw; exact Hw| |apply lv_sql].
  intros r w (w0 & Hw & [(now & id & _ & -> & _)|[-> _]]); [|done]. by apply end_session_stopping.
Qed.

Lemma stop_sound : lv sound stop (fun _ => sound).
Proof.
  unfold stop. eapply lv_swallow_then; [by apply (lv_quiet sound ReconcileAll (fun x => x))|].
  assert (Htail : lv stopping
    (sid <~ read_mem (fun m => truthy_opt (cm_sessionId m)) ;;
     await! match sid with Some _ => swallow finalize_current | None => resolve tt end ;;
     await! modify_mem (with_session None) ;; swallow (redis_set (set_session None)))%async (fun _ => sound)).
  { apply lv_read_then. intros sid.
    assert (Hlast : lv stopping (await! modify_mem (with_session None) ;; swallow (redis_set (set_session None)))%async (fun _ => sound));
      [|destruct sid; [by eapply lv_swallow_then; [apply lv_finalize|]|exact Hlast]].
    eapply leaves_await with (M := fun _ w => exists w0, stopping w0 /\ w = on_mem (with_session None (dk_mem w0)) w0).
    { eapply leaves_conseq; [intros w Hw; exact Hw| |apply lv_modify]. by intros r w [-> Hw]. }
    intros _. apply lv_swallow. eapply leaves_conseq; [intros w Hw; exact Hw| |apply lv_set].
    intros r w [_ (w1 & (w0 & [K1 K2 K3 K4 K5 K6 K7] & ->) & ->)]. split; split; simpl; try done.
    - rewrite K3. split; [done|]. by intros [? ?].
    - rewrite K4, K3. done. }
  eapply leaves_await with (M := fun at_ w => exists now w0, sound w0 /\
    w = on_mem (with_changed (Some (toISOString now)) (with_running false (dk_mem w0))) w0 /\ at_ = toISOString now).
  { intros w w' r Hw (w1 & x & [now Hx] & -> & ->). simpl in Hx. injection Hx as -> ->. eauto. }
  intros at_. eapply lv_swallow_then; [apply lv_stop_flags|exact Htail].
Qed.

(** ** Restart *)
Definition at_mem (w0 : Desk) (m : ControlMem) (w : Desk) : Prop := w = on_mem m w0.

Lemma lv_modify_at {B} w0 m f (k : DeskAsync B) Q :
  lv (at_mem w0 (f m)) k Q -> lv (at_mem w0 m) (await! modify_mem f ;; k)%async Q.
Proof.
  intros Hk. eapply leaves_await with (M := fun _ => at_mem w0 (f m)); [|by intros []].
  eapply leaves_conseq; [intros w Hw; exact Hw| |apply lv_modify]. intros r w [-> (w1 & -> & ->)]. done.
Qed.
Lemma lv_get_at {A B} w0 m (f : RedisKeys -> A) (k : A -> DeskAsync B) Q :
  lv (at_mem w0 m) (k (f (dk_redis w0))) Q -> lv (at_mem w0 m) (x <~ redis_get f ;; k x)%async Q.
Proof.
  intros Hk. eapply leaves_await with (M := fun a w => a = f (dk_redis w0) /\ at_mem w0 m w).
  - eapply leaves_conseq; [intros w Hw; exact Hw| |apply lv_get]. by intros r w [-> ->].
  - intros a w w' r [-> Hw]. by apply Hk.
Qed.

Lemma boot_restores w0 :
  isEnabled LIVE_MODE = true -> sound w0 -> lv (fun w => w = w0) (onModuleInit LIVE_MODE) (fun _ w => w = w0).
Proof.
  intros Hen [[K1 K2 K3 K4] [M1 M2 M3 M4 M5]]. unfold onModuleInit. rewrite Hen.
  apply (leaves_conseq _ _ (at_mem w0 (dk_mem w0)) _ _ (fun _ w => at_mem w0 (dk_mem w0) w)).
  { intros w ->. by destruct w0. }
  { intros r w ->. by destruct w0. }
  apply lv_modify_at. eapply leaves_try_catch with (M := fun _ => False); [|by intros e w w' r []].
  apply lv_get_at, lv_modify_at. rewrite M1.
  apply lv_get_at. rewrite M2.
  set (m2 := match cm_config (dk_mem w0) with Some c => with_config (Some c) (with_running (cm_running (dk_mem w0)) initial_mem)
             | None => with_running (cm_running (dk_mem w0)) initial_mem end).
  eapply leaves_await with (M := fun _ => at_mem w0 m2).
  { unfold m2. destruct (cm_config (dk_mem w0)); [|by apply leaves_ret].
    eapply leaves_conseq; [intros w Hw; exact Hw| |apply lv_modify]. intros r w [-> (w1 & -> & ->)]. done. }
  intros _. apply lv_get_at. rewrite M3, truthy_opt_id by (intros E; by destruct (K3 _ E)).
  eapply leaves_await with (M := fun _ => at_mem w0 (match cm_sessionId (dk_mem w0) with Some s => with_session (Some s) m2 | None => m2 end)).
  { destruct (cm_sessionId (dk_mem w0)); [|by apply leaves_ret].
    eapply leaves_conseq; [intros w Hw; exact Hw| |apply lv_modify]. intros r w [-> (w1 & -> & ->)]. done. }
  intros _. apply lv_get_at. rewrite M4, truthy_opt_id by done. unfold m2, at_mem.
  destruct (dk_mem w0) as [run [t|] [c|] [sid|]] eqn:E; simpl; try apply leaves_ret;
    try (eapply leaves_conseq; [intros w Hw; exact Hw| |apply lv_modify]; intros r w [-> (w1 & -> & ->)]);
    try (intros w ->); by destruct w0.
Qed.

(** ** Every use of the switch *)
Inductive switch_step : Desk -> Desk -> Prop :=
| ss_start input w w' r : alone sem 0 (start LIVE_MODE STRATEGY_PAIRS METAAPI_ID input) w w' r -> switch_step w w'
| ss_stop w w' r : alone sem 0 stop w w' r -> switch_step w w'
| ss_restart w w' r : alone sem 0 (onModuleInit LIVE_MODE) w w' r -> switch_step w w'
| ss_elsewhere w w' : tb_sessions (dk_db w') = tb_sessions (dk_db w) -> dk_redis w' = dk_redis w ->
    dk_mem w' = dk_mem w -> switch_step w w'.

(** No session has run yet in this installation. *)
Definition blank (w : Desk) : Prop :=
  dk_mem w = initial_mem /\ tb_sessions (dk_db w) = ∅ /\
  dk_redis w = {| k_running := None; k_config := None; k_mode := None; k_session := None; k_lastChanged := None |}.

Lemma blank_sound w : blank w -> sound w.
Proof.
  intros (Hm & Hs & Hr). assert (Hno : forall i, ~ running_row (dk_db w) i).
  { intros i (s & H & _). rewrite Hs in H. by rewrite lookup_empty in H. }
  split; split; rewrite ?Hm, ?Hr; try done.
  - intros id s. rewrite Hs. by rewrite lookup_empty.
  - intros i j Hi. by destruct (Hno i).
  - split; [done|]. by intros [? ?].
Qed.

Lemma switch_sound w w' : isEnabled LIVE_MODE = true -> switch_step w w' -> sound w -> sound w'.
Proof.
  intros Hen Hs Hw. destruct Hs as [input w w' r H|w w' r H|w w' r H|w w' H1 H2 H3].
  - exact (start_sound input w w' r Hw H).
  - exact (stop_sound w w' r Hw H).
  - by rewrite (boot_restores w Hen Hw w w' r eq_refl H).
  - destruct Hw as [[K1 K2 K3 K4] [M1 M2 M3 M4 M5]].
    assert (Hr : forall i, running_row (dk_db w') i <-> running_row (dk_db w) i) by (intros i; unfold running_row; by rewrite H1).
    split; split; rewrite ?H1, ?H2, ?H3; try done.
    + intros i j. rewrite !Hr. apply K2.
    + intros id. rewrite Hr. apply K3.
Qed.

(** C21: However often the engine is started, stopped and restarted, with database and broker
    failing at will, as long as the calls do not overlap and Redis answers: at most one
    session row is RUNNING, the engine runs exactly while a session is open, that session
    is the RUNNING row, and restarting the process between two calls changes nothing. *)
Theorem engine_session_exclusive w0 w :
  isEnabled LIVE_MODE = true -> blank w0 -> rtc switch_step w0 w ->
  (forall i j, running_row (dk_db w) i -> running_row (dk_db w) j -> i = j) /\
  (cm_running (dk_mem w) = true <-> exists id, cm_sessionId (dk_mem w) = Some id /\ running_row (dk_db w) id) /\
  (forall w' r, alone sem 0 (onModuleInit LIVE_MODE) w w' r -> w' = w).
Proof.
  intros Hen Hb Hr. assert (sound w) as Hw.
  { apply blank_sound in Hb. induction Hr as [w|w w1 w' H1 _ IH]; [done|]. apply IH. by eapply switch_sound. }
  pose proof Hw as [[K1 K2 K3 K4] _]. split_and!; [done| |].
  - rewrite K4. split; [intros [id E]; exists id; by destruct (K3 _ E)|intros (id & -> & _); eauto].
  - intros w' r H. exact (boot_restores w Hen Hw w w' r eq_refl H).
Qed.
End facts.
