(* ===== verification/Analytics.v ===== *)
(** * Dashboards

    What users and administrators are shown: src/strategy/live/live-analytics.service.ts,
    and src/admin/analytics with src/admin/engine. *)
From Stdlib Require Import SpecFloat.
From S2P Require Import Prelude Async JsNum JsDate Types MarketTypes LiveTypes AuthTypes MarketData DeskTypes LiveControl.
Local Open Scope num_scope.

Definition pct1 (x : num) : num := Math_round (x * of_Z 10) / of_Z 10.
Definition cents2 (x : num) : num := Math_round (x * of_Z 100) / of_Z 100.
Definition pnl_of (t : Trade) : num := default (of_Z 0) (t_pnl (t_data t)).
Definition is_orphan (t : Trade) : bool := bool_decide (t_exitReason (t_data t) = Some "ORPHAN"%string).
Definition endsWith (suf s : string) : bool :=
  bool_decide (last_n (String.length suf) (String.list_ascii_of_string s) = String.list_ascii_of_string suf) &&
  (String.length suf <=? String.length s)%nat.

(** ** compute *)
Record PairStats := { ps_trades : Z; ps_wins : Z; ps_losses : Z; ps_winRate : num; ps_totalPnl : num; ps_avgPnl : num }.
Record LiveStats := {
  st_totalTrades : Z; st_openTrades : Z; st_closedTrades : Z; st_wins : Z; st_losses : Z; st_winRate : num;
  st_totalPnl : num; st_realizedPnl : num; st_avgWin : num; st_avgLoss : num; st_profitFactor : num;
  st_avgRR : num; st_largestWin : num; st_largestLoss : num; st_exitReasons : list (string * Z);
  st_perPair : list (string * PairStats) }.

Definition outcome_closed (t : Trade) : bool :=
  bool_decide (status t = CLOSED) && match t_pnl (t_data t) with Some _ => negb (is_orphan t) | None => false end.
Definition wins_of (l : list Trade) : list Trade := filter (fun t => (pnl_of t >? of_Z 0) = true) l.
Definition losses_of (l : list Trade) : list Trade := filter (fun t => (pnl_of t <? of_Z 0) = true) l.
Definition sum_pnl (l : list Trade) : num := nsum (of_Z 0) (pnl_of <$> l).

(** Risk in dollars implied by the stop, and the result in multiples of it. *)
Definition r_multiple (t : Trade) : option num :=
  let d := t_data t in
  let slDistance := nabs (t_entryPrice d - t_slPrice d) in
  if slDistance <=? of_Z 0 then None
  else
    let lotUnits := if bool_decide (t_symbol d = "XAUUSD"%string) then of_Z 100 else of_Z 100000 in
    let riskUsd := slDistance * t_lotSize d * lotUnits in
    let riskUsd := if endsWith "JPY" (t_symbol d) && (t_entryPrice d >? of_Z 0) then riskUsd / t_entryPrice d else riskUsd in
    if riskUsd >? of_Z 0 then Some (pnl_of t / riskUsd) else None.
Definition average (l : list num) : num :=
  match l with [] => of_Z 0 | _ => nsum (of_Z 0) l / of_Z (zlen l) end.

Definition count_reason (m : list (string * Z)) (t : Trade) : list (string * Z) :=
  let r := default "UNKNOWN"%string (t_exitReason (t_data t)) in
  map_set r (default 0%Z (map_get r m) + 1)%Z m.
Definition exit_reasons (closed : list Trade) : list (string * Z) := foldl count_reason [] closed.

Definition no_pair : PairStats := {|
  ps_trades := 0; ps_wins := 0; ps_losses := 0; ps_winRate := of_Z 0; ps_totalPnl := of_Z 0; ps_avgPnl := of_Z 0 |}.
Definition pair_add (p : PairStats) (t : Trade) : PairStats := {|
  ps_trades := ps_trades p + 1;
  ps_wins := if pnl_of t >? of_Z 0 then ps_wins p + 1 else ps_wins p;
  ps_losses := if negb (pnl_of t >? of_Z 0) && (pnl_of t <? of_Z 0) then ps_losses p + 1 else ps_losses p;
  ps_winRate := ps_winRate p; ps_totalPnl := ps_totalPnl p + pnl_of t; ps_avgPnl := ps_avgPnl p |}.
Definition count_pair (m : list (string * PairStats)) (t : Trade) : list (string * PairStats) :=
  map_set (trade_symbol t) (pair_add (default no_pair (map_get (trade_symbol t) m)) t) m.
Definition pair_finish (p : PairStats) : PairStats := {|
  ps_trades := ps_trades p; ps_wins := ps_wins p; ps_losses := ps_losses p;
  ps_winRate := pct1 (if (0 <? ps_trades p)%Z then of_Z (ps_wins p) / of_Z (ps_trades p) * of_Z 100 else of_Z 0);
  ps_totalPnl := cents2 (ps_totalPnl p);
  ps_avgPnl := cents2 (if (0 <? ps_trades p)%Z then ps_totalPnl p / of_Z (ps_trades p) else of_Z 0) |}.
Definition per_pair (closed : list Trade) : list (string * PairStats) :=
  (fun kv => (kv.1, pair_finish kv.2)) <$> foldl count_pair [] closed.

Definition compute (trades : list Trade) : LiveStats :=
  let closed := filter (fun t => outcome_closed t = true) trades in
  let wins := wins_of closed in
  let losses := losses_of closed in
  let winsTotal := sum_pnl wins in
  let lossesTotal := nabs (sum_pnl losses) in
  let totalPnl := sum_pnl closed in
  let winRate := match closed with [] => of_Z 0 | _ => of_Z (zlen wins) / of_Z (zlen closed) * of_Z 100 end in
  {| st_totalTrades := zlen trades;
     st_openTrades := count (fun t => bool_decide (status t = OPEN)) trades;
     st_closedTrades := zlen closed; st_wins := zlen wins; st_losses := zlen losses;
     st_winRate := pct1 winRate; st_totalPnl := cents2 totalPnl; st_realizedPnl := cents2 totalPnl;
     st_avgWin := match wins with [] => of_Z 0 | _ => cents2 (winsTotal / of_Z (zlen wins)) end;
     st_avgLoss := match losses with [] => of_Z 0 | _ => cents2 (lossesTotal / of_Z (zlen losses)) end;
     st_profitFactor := if lossesTotal >? of_Z 0 then cents2 (winsTotal / lossesTotal) else of_Z 0;
     st_avgRR := cents2 (average (omap r_multiple closed));
     st_largestWin := match wins with [] => of_Z 0 | _ => cents2 (max_of (pnl_of <$> wins)) end;
     st_largestLoss := match losses with [] => of_Z 0 | _ => cents2 (min_of (pnl_of <$> losses)) end;
     st_exitReasons := exit_reasons closed; st_perPair := per_pair closed |}.

(** ** Trades *)
Section service.
Local Open Scope async_scope.
Definition live_row (t : Trade) : bool := match t_clientOrderId (t_data t) with Some _ => true | None => false end.
Definition in_session (sid : string) (t : Trade) : bool := bool_decide (t_sessionId (t_data t) = Some sid).
(** [...(accountId ? { accountId } : {})] *)
Definition of_account (accountId : option string) (t : Trade) : bool :=
  match truthy_opt accountId with Some a => bool_decide (account t = Some a) | None => true end.
Definition within (from to_ : option Z) (t : Z) : bool :=
  match from with Some f => (f <=? t)%Z | None => true end && match to_ with Some x => (t <=? x)%Z | None => true end.

(** [status] is [None] for [ALL] or no filter. *)
Record TradeFilter := {
  tf_status : option TradeStatus; tf_symbol : option string; tf_from : option Z; tf_to : option Z }.
Definition passes (f : TradeFilter) (t : Trade) : bool :=
  live_row t &&
  match tf_status f with Some s => bool_decide (status t = s) | None => true end &&
  match truthy_opt (tf_symbol f) with Some s => bool_decide (trade_symbol t = s) | None => true end &&
  within (tf_from f) (tf_to f) (t_createdAt t).

Definition listTrades (first : bool) (userId : string) (f : TradeFilter) (limit offset : option nat) : DeskAsync (list Trade * Z * nat * nat) :=
  let limit := Nat.min (default 50%nat limit) 500 in
  let offset := default 0%nat offset in
  answers <~ both first
    (select (fun _ d => take limit (drop offset (newest t_createdAt (filter (fun t => passes f t = true) (trades_of userId d))))))
    (select (fun _ d => count (passes f) (trades_of userId d))) ;;
  resolve (answers, limit, offset).

Definition days_ago (days : Z) (now : Z) : Z := (now - days * 24 * 60 * 60 * 1000)%Z.
Definition stats (userId : string) (days : option Z) : DeskAsync LiveStats :=
  trades <~ select (fun now d =>
    filter (fun t => live_row t && (days_ago (default 30%Z days) now <=? t_createdAt t)%Z = true) (trades_of userId d)) ;;
  resolve (compute trades).

Definition sessionTrades (userId sessionId : string) (accountId : option string) : DeskAsync (list Trade) :=
  select (fun _ d => newest t_createdAt
    (filter (fun t => in_session sessionId t && of_account accountId t = true) (trades_of userId d))).
Definition sessionStats (userId sessionId : string) (accountId : option string) : DeskAsync LiveStats :=
  trades <~ select (fun _ d =>
    filter (fun t => in_session sessionId t && of_account accountId t = true) (trades_of userId d)) ;;
  resolve (compute trades).

(** ** Sessions *)
Record PerAccount := {
  pa_accountId : option string; pa_name : string; pa_broker : string; pa_tradesCount : Z; pa_realizedPnl : num }.
Record SessionView := { sv_session : LiveSession; sv_perAccount : list PerAccount }.

Definition real_fill (sid : string) (t : Trade) : bool :=
  in_session sid t && (bool_decide (status t = OPEN) || bool_decide (status t = CLOSED)) && negb (is_orphan t).
(** The rows with their account; without a viewer, everybody's. *)
Definition session_fills (viewer : option string) (sid : string) (d : Tables) : list (Trade * option AccountRow) :=
  let rows := match viewer with Some u => trades_of u d | None => rows_of (tb_trades d) end in
  (fun t => (t, a ← account t; tb_accounts d !! a)) <$> filter (fun t => real_fill sid t = true) rows.

Definition account_add (m : list (string * PerAccount)) (ta : Trade * option AccountRow) : list (string * PerAccount) :=
  let t := ta.1 in
  let key := default "unassigned"%string (account t) in
  let agg := default {| pa_accountId := account t; pa_name := default "Unassigned"%string (ba_name <$> ta.2);
                        pa_broker := default "—"%string (ba_broker <$> ta.2); pa_tradesCount := 0;
                        pa_realizedPnl := of_Z 0 |} (map_get key m) in
  map_set key {| pa_accountId := pa_accountId agg; pa_name := pa_name agg; pa_broker := pa_broker agg;
                 pa_tradesCount := pa_tradesCount agg + 1;
                 pa_realizedPnl := match closed_pnl t with Some p => pa_realizedPnl agg + p | None => pa_realizedPnl agg end |} m.
Definition account_round (a : PerAccount) : PerAccount := {|
  pa_accountId := pa_accountId a; pa_name := pa_name a; pa_broker := pa_broker a;
  pa_tradesCount := pa_tradesCount a; pa_realizedPnl := cents2 (pa_realizedPnl a) |}.
Definition per_account (l : list (Trade * option AccountRow)) : list PerAccount :=
  sort_by (fun a b => negb (pa_realizedPnl b - pa_realizedPnl a >? of_Z 0))
    ((fun kv => account_round kv.2) <$> foldl account_add [] l).

(** The stored totals are replaced; every other column is passed on. *)
Definition recomputed (s : LiveSession) (trades : list Trade) : LiveSession := {|
  ls_id := ls_id s; ls_startedAt := ls_startedAt s; ls_endedAt := ls_endedAt s;
  ls_strategyVersion := ls_strategyVersion s; ls_riskPercent := ls_riskPercent s; ls_mode := ls_mode s;
  ls_mockBalance := ls_mockBalance s; ls_startEquity := ls_startEquity s; ls_endEquity := ls_endEquity s;
  ls_realizedPnl := cents2 (realized_of trades); ls_tradesCount := zlen trades;
  ls_winsCount := count is_win trades; ls_lossesCount := count is_loss trades;
  ls_status := ls_status s; ls_pairs := ls_pairs s; ls_accountId := ls_accountId s |}.
Definition session_view (s : LiveSession) (l : list (Trade * option AccountRow)) : SessionView := {|
  sv_session := recomputed s l.*1; sv_perAccount := per_account l |}.
Definition recomputeSessionAggregates (s : LiveSession) (viewer : option string) : DeskAsync SessionView :=
  trades <~ select (fun _ => session_fills viewer (ls_id s)) ;;
  resolve (session_view s trades).

(** The sessions whose account the user owns. *)
Definition owned_sessions (u : string) (d : Tables) : list LiveSession :=
  filter (fun s => owns u d (ls_accountId s) = true) (rows_of (tb_sessions d)).
Definition traded_in (u : string) (d : Tables) (sid : string) : bool := existsb (in_session sid) (trades_of u d).
Definition enabled_count (u : string) (d : Tables) : Z := count ba_isEnabled (accounts_of u d).

(** The sessions are recomputed side by side, in the order [sched] gives. *)
Definition listSessions (sched : list nat) (userId : string) (isAdmin : bool) (limit : option nat) : DeskAsync (list SessionView) :=
  let limit := Nat.min (default 50%nat limit) 200 in
  if isAdmin then
    sessions <~ select (fun _ d => take limit (newest ls_startedAt (owned_sessions userId d))) ;;
    promise_all sched ((fun s => recomputeSessionAggregates s None) <$> sessions)
  else
    hasEnabled <~ select (fun _ => enabled_count userId) ;;
    sessions <~ select (fun _ d => take limit (newest ls_startedAt
      (filter (fun s => traded_in userId d (ls_id s) || ((0 <? hasEnabled)%Z && bool_decide (ls_status s = RUNNING)) = true)
              (rows_of (tb_sessions d))))) ;;
    promise_all sched ((fun s => recomputeSessionAggregates s (Some userId)) <$> sessions).

Definition getSession (userId sessionId : string) (isAdmin : bool) : DeskAsync (option SessionView) :=
  if isAdmin then
    s <~ select (fun _ d => head (filter (fun s => ls_id s = sessionId) (owned_sessions userId d))) ;;
    match s with
    | Some s => v <~ recomputeSessionAggregates s None ;; resolve (Some v)
    | None => resolve None
    end
  else
    s <~ select (fun _ d => tb_sessions d !! sessionId) ;;
    match s with
    | None => resolve None
    | Some s =>
        participated <~ select (fun _ d => count (in_session sessionId) (trades_of userId d)) ;;
        hasEnabled <~ (if bool_decide (ls_status s = RUNNING) then select (fun _ => enabled_count userId) else resolve 0%Z) ;;
        if (participated =? 0)%Z && (hasEnabled =? 0)%Z then resolve None
        else v <~ recomputeSessionAggregates s (Some userId) ;; resolve (Some v)
    end.

(** ** Equity *)
Record EquityPoint := { ep_t : string; ep_balance : num; ep_equity : num; ep_unrealizedPnl : num; ep_openPositions : Z }.
Definition point_of (s : EquitySnapshot) : EquityPoint := {|
  ep_t := toISOString (es_takenAt s); ep_balance := es_balance s; ep_equity := es_equity s;
  ep_unrealizedPnl := es_unrealizedPnl s; ep_openPositions := es_openPositions s |}.
Definition owned_snapshots (u : string) (d : Tables) : list EquitySnapshot :=
  filter (fun s => owns u d (es_accountId s) = true) (tb_snapshots d).
Definition live_snapshot (accountId : option string) (mode : option EngineMode) (s : EquitySnapshot) : bool :=
  bool_decide (es_source s = "live"%string) &&
  match truthy_opt accountId with Some a => bool_decide (es_accountId s = Some a) | None => true end &&
  match mode with Some m => bool_decide (es_mode s = m) | None => true end.

Definition equityHistory (userId : string) (hours : option Z) (limit : option nat) (sessionId : option string)
    (mode : option EngineMode) (accountId : option string) : DeskAsync (list EquityPoint) :=
  let points (P : Z -> EquitySnapshot -> bool) : DeskAsync (list EquityPoint) :=
    rows <~ select (fun now d => take (default 5000%nat limit)
              (oldest es_takenAt (filter (fun s => P now s = true) (owned_snapshots userId d)))) ;;
    resolve (point_of <$> rows) in
  match truthy_opt sessionId with
  | Some sid =>
      session <~ select (fun _ d => head (filter (fun s => ls_id s = sid) (owned_sessions userId d))) ;;
      match session with
      | None => resolve []
      | Some s => points (fun _ r => live_snapshot accountId (Some (ls_mode s)) r &&
                                     within (Some (ls_startedAt s)) (ls_endedAt s) (es_takenAt r))
      end
  | None => points (fun now r => live_snapshot accountId mode r &&
                                 (now - default 168%Z hours * 60 * 60 * 1000 <=? es_takenAt r)%Z)
  end.

(** [[first, last]] of the month in UTC. *)
Definition month_start (t : Z) : Z :=
  let '(y, m, _) := civil_from_days (day_of t) in (days_from_civil y m 1 * ms_day)%Z.

(** The largest fall from the highest equity so far, in percent. *)
Definition dd_step (pm : num * num) (equity : num) : num * num :=
  let peak := if equity >? pm.1 then equity else pm.1 in
  if peak >? of_Z 0 then
    let dd := (peak - equity) / peak * of_Z 100 in (peak, if dd >? pm.2 then dd else pm.2)
  else (peak, pm.2).
Definition max_drawdown (equities : list num) : num := (foldl dd_step (of_Z 0, of_Z 0) equities).2.

Record DashSnapshot := {
  sn_netReturnPct : num; sn_mtdPct : num; sn_winRate : num; sn_maxDd : num; sn_expectancy : num;
  sn_tradesCount : Z; sn_equity : num }.
Definition empty_snapshot : DashSnapshot := {|
  sn_netReturnPct := of_Z 0; sn_mtdPct := of_Z 0; sn_winRate := of_Z 0; sn_maxDd := of_Z 0; sn_expectancy := of_Z 0;
  sn_tradesCount := 0; sn_equity := of_Z 0 |}.
Definition change_pct (equity initial : num) : num :=
  if initial >? of_Z 0 then (equity - initial) / initial * of_Z 100 else of_Z 0.

Definition snapshot (userId : string) : DeskAsync DashSnapshot :=
  accounts <~ select (fun _ => accounts_of userId) ;;
  let ids := ba_id <$> accounts in
  match ids with
  | [] => resolve empty_snapshot
  | _ =>
      latest <~ select (fun _ d => head (newest es_takenAt (snapshots_of ids d))) ;;
      first <~ select (fun _ d => head (oldest es_takenAt (snapshots_of ids d))) ;;
      let equity := default (of_Z 0) (es_equity <$> latest) in
      let initial := default equity (es_equity <$> first) in
      mtdFirst <~ select (fun now d => head (oldest es_takenAt
                    (filter (fun s => (month_start now <=? es_takenAt s)%Z = true) (snapshots_of ids d)))) ;;
      let mtdInitial := default equity (es_equity <$> mtdFirst) in
      trades <~ select (fun _ d => filter (fun t => bool_decide (status t = CLOSED) && negb (is_orphan t) = true)
                                          (trades_of userId d)) ;;
      let n := zlen trades in
      let wins := count (fun t => pnl_of t >? of_Z 0) trades in
      all <~ select (fun _ d => (es_equity <$> oldest es_takenAt (snapshots_of ids d) : list num)) ;;
      resolve {| sn_netReturnPct := change_pct equity initial; sn_mtdPct := change_pct equity mtdInitial;
                 sn_winRate := if (0 <? n)%Z then of_Z wins / of_Z n else of_Z 0; sn_maxDd := max_drawdown all;
                 sn_expectancy := average (omap r_multiple trades); sn_tradesCount := n; sn_equity := equity |}
  end.

(** The last equity of each account of a day, added up. *)
Definition day_key (t : Z) : string := slice0 10 (toISOString t).
Definition day_add (m : list (string * list (string * num))) (s : EquitySnapshot) : list (string * list (string * num)) :=
  let k := day_key (es_takenAt s) in
  map_set k (map_set (default ""%string (es_accountId s)) (es_equity s) (default [] (map_get k m))) m.
Definition curve_of (l : list EquitySnapshot) : list (string * num) :=
  (fun kv => (kv.1, nsum (of_Z 0) kv.2.*2)) <$> foldl day_add [] l.
Definition equityCurve (userId : string) (days : option nat) : DeskAsync (list (string * num)) :=
  let days := default 90%nat days in
  accounts <~ select (fun _ => accounts_of userId) ;;
  match ba_id <$> accounts with
  | [] => resolve []
  | ids =>
      snapshots <~ select (fun now d => oldest es_takenAt
        (filter (fun s => (now - Z.of_nat days * 86400000 <=? es_takenAt s)%Z = true) (snapshots_of ids d))) ;;
      resolve (last_n days (curve_of snapshots))
  end.

(** ** Risk used today *)
Definition daily_loss_limit (k : PresetKey) : num :=
  match k with CONSERVATIVE => of_Z 2 | AGGRESSIVE_PRESET => of_Z 5 | BALANCED => of_Z 3 end.
Definition preset_risk (k : PresetKey) : num :=
  match k with CONSERVATIVE => lit 5 1 | AGGRESSIVE_PRESET => lit 15 1 | BALANCED => of_Z 1 end.
Record RiskUsed := { ru_pctUsedToday : num; ru_dailyLossLimit : num; ru_openRiskPct : num }.
Definition risk_used (k : PresetKey) (realizedTodayPnl equity : num) (openTrades : Z) : RiskUsed :=
  let limit := daily_loss_limit k in
  let openRiskPct := of_Z openTrades * preset_risk k in
  let consumed := Math_max (of_Z 0) (nopp (realizedTodayPnl / equity * of_Z 100)) + openRiskPct in
  {| ru_pctUsedToday := consumed / limit * of_Z 100; ru_dailyLossLimit := limit; ru_openRiskPct := openRiskPct |}.

Definition riskUsedToday (userId : string) : DeskAsync RiskUsed :=
  accounts <~ select (fun _ => accounts_of userId) ;;
  match ba_id <$> accounts with
  | [] => resolve {| ru_pctUsedToday := of_Z 0; ru_dailyLossLimit := of_Z 3; ru_openRiskPct := of_Z 0 |}
  | ids =>
      found <~ select (fun _ d => tb_users d !! userId) ;;
      match found with
      | None => reject "PrismaClientKnownRequestError: P2025"
      | Some user =>
          today <~ select (fun now d => filter (fun t => bool_decide (status t = CLOSED) &&
            match t_closedAt (t_data t) with Some c => (setUTCHours0 0 now <=? c)%Z | None => false end = true) (trades_of userId d)) ;;
          latest <~ select (fun _ d => head (newest es_takenAt (snapshots_of ids d))) ;;
          openTrades <~ select (fun _ d => count (fun t => bool_decide (status t = OPEN)) (trades_of userId d)) ;;
          resolve (risk_used (usr_presetKey user) (sum_pnl today) (default (of_Z 1) (es_equity <$> latest)) openTrades)
      end
  end.
End service.

(** * The administrator's dashboard

    src/admin/analytics/admin-analytics.service.ts ([AdminAnalyticsService]) with
    baseline.ts and types.ts, and src/admin/engine. *)
From Stdlib Require Import SpecFloat.
From S2P Require Import Prelude Async JsNum JsDate Types MarketTypes LiveTypes AuthTypes MarketData DeskTypes LiveControl.
Local Open Scope num_scope.
Local Open Scope async_scope.

(** ** Constants *)
Definition DD_ALERT_PCT : num := of_Z 5.
Definition PAUSE_WATCH_DAYS : Z := 7.
Definition INACTIVE_DAYS : Z := 14.
Definition WR_DRIFT_PP : num := of_Z 5.
Definition EXPECTANCY_DRIFT_R : num := lit 1 1.
(** [STRATEGY_BASELINE] *)
Definition baseline_winRate : num := lit 649 3.
Definition baseline_expectancy : num := lit 42 2.

Inductive FlagSeverity := loss | signal | neutral.
Inductive FlagName := DD_ALERT | PAUSE_WATCH | INACTIVE_USER | NO_ACCOUNTS.
Record Flag := {
  fl_name : FlagName; fl_severity : FlagSeverity; fl_userId : string; fl_userEmail : string;
  fl_message : string; fl_detail : option string }.
Inductive TrendName := WR_DRIFT | EXPECTANCY_DRIFT.
Inductive Direction := up | down.
Record Trend := {
  tr_name : TrendName; tr_direction : Direction; tr_magnitude : num; tr_sampleSize : Z; tr_recommendation : string }.
Inductive StrategyStatus := HEALTHY | WATCHING | DEGRADED.

(** ** aggregate *)

(** The newest row of each account, by [distinct]. *)
Fixpoint distinct_accounts (seen : list (option string)) (l : list EquitySnapshot) : list EquitySnapshot :=
  match l with
  | [] => []
  | s :: l => if bool_decide (es_accountId s ∈ seen) then distinct_accounts seen l
              else s :: distinct_accounts (es_accountId s :: seen) l
  end.
Definition latest_snapshots (d : Tables) : list EquitySnapshot :=
  take 1000 (distinct_accounts [] (newest es_takenAt (tb_snapshots d))).
Definition active_user (u : UserRow) : bool := usr_botEnabled u && usr_isActive u.
Definition made_since (t0 : Z) (d : Tables) : Z := count (fun t => (t0 <=? t_createdAt t)%Z) (rows_of (tb_trades d)).

Record Aggregate := {
  ag_totalUsers : Z; ag_activeUsers : Z; ag_totalAccounts : Z; ag_enabledAccounts : Z; ag_totalEquity : num;
  ag_dayDelta : num; ag_tradesToday : Z }.
Definition aggregate : DeskAsync Aggregate :=
  totalUsers <~ select (fun _ d => zlen (rows_of (tb_users d))) ;;
  activeUsers <~ select (fun _ d => count active_user (rows_of (tb_users d))) ;;
  totalAccounts <~ select (fun _ d => zlen (rows_of (tb_accounts d))) ;;
  enabledAccounts <~ select (fun _ d => count ba_isEnabled (rows_of (tb_accounts d))) ;;
  latest <~ select (fun _ => latest_snapshots) ;;
  tradesToday <~ select (fun now => made_since (now - 86400000)) ;;
  resolve {| ag_totalUsers := totalUsers; ag_activeUsers := activeUsers; ag_totalAccounts := totalAccounts;
             ag_enabledAccounts := enabledAccounts; ag_totalEquity := nsum (of_Z 0) (es_equity <$> latest);
             ag_dayDelta := of_Z 0; ag_tradesToday := tradesToday |}.

(** ** listUsers *)
Definition by_email {A} (email : A -> string) (l : list A) : list A :=
  sort_by (fun a b => negb (str_lt (email b) (email a))) l.
(** [include: { brokerAccounts }] *)
Definition with_accounts (d : Tables) (u : UserRow) : UserRow * list AccountRow := (u, accounts_of (usr_id u) d).
Definition enabled_of (l : list AccountRow) : Z := count ba_isEnabled l.

Record UserLine := {
  ul_id : string; ul_email : string; ul_presetKey : PresetKey; ul_equity : num; ul_mtdPct : num; ul_winRate : num;
  ul_maxDd : num; ul_lastTradeAt : option Z; ul_status : string; ul_botEnabled : bool; ul_isActive : bool;
  ul_pausedAt : option Z }.
Definition user_status (u : UserRow) (enabledCount : Z) : string :=
  if negb (usr_isActive u) then "disabled" else if negb (usr_botEnabled u) then "paused"
  else if (enabledCount =? 0)%Z then "no-accounts" else "live".
Definition last_trade (u : string) (d : Tables) : option Z := t_createdAt <$> head (newest t_createdAt (trades_of u d)).
Definition user_line (ua : UserRow * list AccountRow) : DeskAsync UserLine :=
  let u := ua.1 in
  snap <~ snapshot (usr_id u) ;;
  lastTrade <~ select (fun _ => last_trade (usr_id u)) ;;
  resolve {| ul_id := usr_id u; ul_email := usr_email u; ul_presetKey := usr_presetKey u; ul_equity := sn_equity snap;
             ul_mtdPct := sn_mtdPct snap; ul_winRate := sn_winRate snap; ul_maxDd := sn_maxDd snap;
             ul_lastTradeAt := lastTrade; ul_status := user_status u (enabled_of ua.2);
             ul_botEnabled := usr_botEnabled u; ul_isActive := usr_isActive u; ul_pausedAt := usr_pausedAt u |}.
Definition users_by_email (d : Tables) : list (UserRow * list AccountRow) :=
  with_accounts d <$> by_email usr_email (rows_of (tb_users d)).
Definition listUsers (sched : list nat) : DeskAsync (list UserLine) :=
  users <~ select (fun _ => users_by_email) ;;
  promise_all sched (user_line <$> users).

(** ** computeFlags *)
Definition flag_of (u : UserRow) (name : FlagName) (sev : FlagSeverity) (text : string) (detail : option string) : Flag := {|
  fl_name := name; fl_severity := sev; fl_userId := usr_id u; fl_userEmail := usr_email u;
  fl_message := usr_email u +:+ " — " +:+ text; fl_detail := detail |}.
(** A number of days exceeds [n] exactly when the milliseconds do. *)
Definition days_since (now t : Z) : Z := ((now - t) / 86400000)%Z.
Definition over_days (n now t : Z) : bool := (n * 86400000 <? now - t)%Z.

Definition pause_flag (now : Z) (u : UserRow) : list Flag :=
  match usr_botEnabled u, usr_pausedAt u with
  | false, Some p =>
      if over_days PAUSE_WATCH_DAYS now p then
        [flag_of u PAUSE_WATCH signal ("paused " +:+ dec_string (days_since now p) +:+ " days") (Some "consider checking in")]
      else []
  | _, _ => []
  end.
Definition inactive_flag (now : Z) (u : UserRow) (enabledCount : Z) : list Flag :=
  match usr_lastLoginAt u with
  | Some l =>
      if (0 <? enabledCount)%Z && over_days INACTIVE_DAYS now l then
        [flag_of u INACTIVE_USER signal ("inactive " +:+ dec_string (days_since now l) +:+ " days")
           (Some (dec_string enabledCount +:+ " enabled account(s) still trading"))]
      else []
  | None => []
  end.
Definition no_accounts_flag (u : UserRow) (enabledCount : Z) : list Flag :=
  if usr_botEnabled u && (enabledCount =? 0)%Z then
    [flag_of u NO_ACCOUNTS neutral "bot enabled but no enabled accounts" None]
  else [].
Definition dd_flag (u : UserRow) (snap : DashSnapshot) : list Flag :=
  if sn_maxDd snap >? DD_ALERT_PCT then
    [flag_of u DD_ALERT loss (toFixed1 (sn_maxDd snap) +:+ "% drawdown") (Some "threshold: 5%")]
  else [].
Definition sev_order (s : FlagSeverity) : Z := match s with loss => 0 | signal => 1 | neutral => 2 end.
Definition by_severity (l : list Flag) : list Flag :=
  sort_by (fun a b => (sev_order (fl_severity a) <=? sev_order (fl_severity b))%Z) l.

Definition users_in_order (d : Tables) : list (UserRow * list AccountRow) := with_accounts d <$> rows_of (tb_users d).
Definition user_flags (now : Z) (ua : UserRow * list AccountRow) : DeskAsync (list Flag) :=
  let enabledCount := enabled_of ua.2 in
  snap <~ snapshot (usr_id ua.1) ;;
  resolve (pause_flag now ua.1 ++ inactive_flag now ua.1 enabledCount ++ no_accounts_flag ua.1 enabledCount ++ dd_flag ua.1 snap).
Definition computeFlags : DeskAsync (list Flag) :=
  users <~ select (fun _ => users_in_order) ;;
  now <~ memory (fun now m => (m, now)) ;;
  flags <~ fold_each (fun flags ua => l <~ user_flags now ua ;; resolve (flags ++ l)) users [] ;;
  resolve (by_severity flags).

(** ** computeTrends *)
Definition counted_trade (since : Z) (t : Trade) : bool :=
  bool_decide (status t = CLOSED) && match t_closedAt (t_data t) with Some c => (since <=? c)%Z | None => false end &&
  negb (is_orphan t).
(** The risk here is in units of price times lots. *)
Definition implied_r (t : Trade) : num :=
  let d := t_data t in
  let risk := nabs (t_entryPrice d - t_slPrice d) * t_lotSize d in
  if risk >? of_Z 0 then pnl_of t / risk else of_Z 0.
Record TrendStats := {
  ts_trends : list Trend; ts_wrDriftPp : num; ts_expectancyDriftR : num; ts_sampleSize : Z }.
Definition way (x : num) : Direction := if x >=? of_Z 0 then up else down.
Definition above (x : num) : string := if x >=? of_Z 0 then "above" else "below".
Definition trends_of (recentTrades : list Trade) : TrendStats :=
  let n := zlen recentTrades in
  let wins := count (fun t => pnl_of t >? of_Z 0) recentTrades in
  let wr := if (0 <? n)%Z then of_Z wins / of_Z n else baseline_winRate in
  let totalR := nsum (of_Z 0) (implied_r <$> recentTrades) in
  let expectancy := if (0 <? n)%Z then totalR / of_Z n else baseline_expectancy in
  let wrDriftPp := (wr - baseline_winRate) * of_Z 100 in
  let expectancyDriftR := expectancy - baseline_expectancy in
  {| ts_trends :=
       (if (10 <=? n)%Z && (nabs wrDriftPp >? WR_DRIFT_PP) then
          [{| tr_name := WR_DRIFT; tr_direction := way wrDriftPp; tr_magnitude := nabs wrDriftPp; tr_sampleSize := n;
              tr_recommendation := "Win rate is " +:+ toFixed1 (nabs wrDriftPp) +:+ "pp " +:+ above wrDriftPp +:+
                " baseline on " +:+ dec_string n +:+ " trades. Re-run validation backtest for current period." |}]
        else []) ++
       (if (10 <=? n)%Z && (nabs expectancyDriftR >? EXPECTANCY_DRIFT_R) then
          [{| tr_name := EXPECTANCY_DRIFT; tr_direction := way expectancyDriftR; tr_magnitude := nabs expectancyDriftR;
              tr_sampleSize := n;
              tr_recommendation := "Expectancy is " +:+ toFixed2 expectancyDriftR +:+ "R " +:+ above expectancyDriftR +:+ " baseline." |}]
        else []);
     ts_wrDriftPp := wrDriftPp; ts_expectancyDriftR := expectancyDriftR; ts_sampleSize := n |}.
Definition computeTrends : DeskAsync TrendStats :=
  recentTrades <~ select (fun now d => filter (fun t => counted_trade (now - 30 * 86400000) t = true) (rows_of (tb_trades d))) ;;
  resolve (trends_of recentTrades).

(** ** computeStatus *)
Definition computeStatus (flags : list Flag) (wrDriftPp expectancyDriftR : num) (sampleSize : Z) : StrategyStatus :=
  let lossFlags := count (fun f => match fl_severity f with loss => true | _ => false end) flags in
  let absWrDrift := nabs wrDriftPp in
  let absExpectancyDrift := nabs expectancyDriftR in
  if (2 <=? lossFlags)%Z || (absWrDrift >? of_Z 5) || ((absExpectancyDrift >? lit 15 2) && (30 <=? sampleSize)%Z) then DEGRADED
  else if (1 <=? lossFlags)%Z || (absWrDrift >? of_Z 3) then WATCHING
  else HEALTHY.

(** ** src/admin/engine *)
Record EngineStatus := {
  en_session : option LiveSession; en_activeUsers : Z; en_enabledAccounts : Z; en_tradesToday : Z }.
Definition engine_status : DeskAsync EngineStatus :=
  session <~ select (fun _ d => head (newest ls_startedAt (rows_of (tb_sessions d)))) ;;
  activeUsers <~ select (fun _ d => count active_user (rows_of (tb_users d))) ;;
  enabledAccounts <~ select (fun _ d => count ba_isEnabled (rows_of (tb_accounts d))) ;;
  tradesToday <~ select (fun now => made_since (now - 24 * 60 * 60 * 1000)) ;;
  resolve {| en_session := session; en_activeUsers := activeUsers; en_enabledAccounts := enabledAccounts;
             en_tradesToday := tradesToday |}.
Definition set_users (x : gmap string UserRow) (d : Tables) : Tables := {|
  tb_users := x; tb_accounts := tb_accounts d; tb_trades := tb_trades d; tb_tags := tb_tags d;
  tb_sessions := tb_sessions d; tb_snapshots := tb_snapshots d; tb_notes := tb_notes d; tb_journal := tb_journal d;
  tb_candles := tb_candles d |}.
Definition with_bot (b : bool) (paused : option Z) (u : UserRow) : UserRow := {|
  usr_id := usr_id u; usr_email := usr_email u; usr_passwordHash := usr_passwordHash u; usr_role := usr_role u;
  usr_isActive := usr_isActive u; usr_botEnabled := b; usr_presetKey := usr_presetKey u;
  usr_lastLoginAt := usr_lastLoginAt u; usr_pausedAt := paused |}.
(** Only the switch is cleared: [pausedAt] stays as it was. *)
Definition stop_bots (_ : Z) (_ : string) (d : Tables) : Tables * Res unit :=
  (set_users ((fun u => match usr_role u with USER => with_bot false (usr_pausedAt u) u | _ => u end) <$> tb_users d) d, Ok tt).
Definition pauseAll (confirm : string) : DeskAsync unit :=
  if bool_decide (confirm = "PAUSE-ALL"%string) then execute_sql stop_bots else reject "BadRequestException".
