(* ===== verification/StrategyApi.v ===== *)
(** * The strategy controller

    src/strategy/strategy.controller.ts ([StrategyController]): who may see and do what, the
    views of the house account, the chart's candles, the health of the trading loop and the
    overview of an account.  Query parameters are what [parseInt] made of them; [None] is
    NaN. *)
From Stdlib Require Import SpecFloat.
From S2P Require Import Prelude Async JsNum JsDate Types Instruments Indicators Orchestrator MarketTypes LiveTypes AuthTypes MarketData DeskTypes LiveControl Analytics.
From S2P Require RefreshTokens EngineMemory LiveStrategy PositionMonitor.
Local Open Scope Z_scope.

(** [AuthenticatedUser] *)
Record Me := { me_id : string; me_role : UserRole }.
Definition is_super (me : Me) : bool := bool_decide (me_role me = SUPERADMIN).

Record ControlStatus := {
  co_enabled : bool; co_running : bool; co_mt5Mode : string; co_pairs : list string; co_riskPercent : num;
  co_strategyVersion : LiveStrategyVersion; co_strategyRelease : string; co_mockBalance : option num;
  co_lastChangedAt : option string }.
(** The last known reading of an account. *)
Record StaleReading := { sr_balance : num; sr_equity : num; sr_openPositions : Z; sr_at : Z }.
Definition stale_of (s : EquitySnapshot) : StaleReading := {|
  sr_balance := es_balance s; sr_equity := es_equity s; sr_openPositions := es_openPositions s; sr_at := es_takenAt s |}.
Record StatusReply := {
  st_base : ControlStatus; st_circuitBreaker : option BreakerState; st_account : option AccountReply;
  st_accountStale : option StaleReading }.

(** [take: n] of a query; a negative number takes from the end. *)
Definition take_z {A} (n : Z) (l : list A) : list A :=
  if 0 <=? n then take (Z.to_nat n) l else last_n (Z.to_nat (- n)) l.

(** ** The health of the trading loop *)

(** The age of a heartbeat: there is none, its text is no date, or seconds. *)
Inductive PollAge := NoPoll | Unreadable | Age (sec : Z).
Record PairHealth := {
  lh_symbol : string; lh_lastCandleOpenTime : option Z; lh_lastIngestedAt : option string; lh_ageSec : PollAge }.
Record AccountHealth := {
  ah_id : string; ah_name : string; ah_broker : string; ah_lastSeenAt : option Z; ah_connected : option bool }.
Inductive Health := Healthy | Degraded | Unhealthy.
Record LoopHealth := {
  hl_verdict : string; hl_health : Health; hl_healthy : bool; hl_executionReachable : bool;
  hl_executionMode : string; hl_pairs : list PairHealth; hl_candleFallback : list string;
  hl_accounts : list AccountHealth; hl_checkedAt : string }.

(** [Math.round(ms / 1000)] *)
Definition round_seconds (ms : Z) : Z := (2 * ms + 1000) / 2000.
Definition ACCOUNT_STALE_SEC : Z := 3 * 60.
Definition STALE_THRESHOLD_SEC : Z := 3 * 60.
(** A comparison with NaN is false. *)
Definition stale_pair (p : PairHealth) : bool :=
  match lh_ageSec p with NoPoll => true | Unreadable => false | Age n => STALE_THRESHOLD_SEC <? n end.
Definition stale_pairs (ages : list PairHealth) : list PairHealth := List.filter stale_pair ages.

Definition unhealthy_reason (reachable : bool) (pairs : list string) (ages : list PairHealth) : option string :=
  let stale := stale_pairs ages in
  if negb reachable then Some "execution-service unreachable"%string
  else if zlen stale =? zlen pairs then Some "no fresh candles for any pair"%string
  else if 0 <? zlen stale then Some ("stale: " +:+ String.concat ", " (lh_symbol <$> stale))
  else None.
Definition unreachable_account (a : AccountHealth) : bool := bool_decide (ah_connected a = Some false).
Definition degraded_reasons (fallbackPairs : list string) (accounts : list AccountHealth) : list string :=
  match fallbackPairs with [] => [] | _ => ["candles on fallback feed (MetaApi down)"%string] end ++
  ((fun a => ah_name a +:+ " unreachable") <$> List.filter unreachable_account accounts).
Definition health_of (unhealthy : option string) (degraded : list string) : Health :=
  match unhealthy, degraded with Some _, _ => Unhealthy | None, _ :: _ => Degraded | None, [] => Healthy end.
Definition verdict_of (unhealthy : option string) (degraded : list string) : string :=
  match unhealthy with
  | Some s => s
  | None => let s := String.concat " · " degraded in if truthy_string s then s else "healthy"
  end.
Definition loop_health (reachable : bool) (mode : string) (pairs : list string) (ages : list PairHealth)
    (fallbackPairs : list string) (accounts : list AccountHealth) (now : Z) : LoopHealth :=
  let unhealthy := unhealthy_reason reachable pairs ages in
  let degraded := degraded_reasons fallbackPairs accounts in
  let h := health_of unhealthy degraded in {|
  hl_verdict := verdict_of unhealthy degraded; hl_health := h;
  hl_healthy := match h with Healthy => true | _ => false end; hl_executionReachable := reachable;
  hl_executionMode := mode; hl_pairs := ages; hl_candleFallback := fallbackPairs; hl_accounts := accounts;
  hl_checkedAt := toISOString now |}.

Section api.
(** The environment of the process, and the configuration of the services it calls. *)
Context `{TechnicalIndicators} (ov : Overrides) (envRisk : num) (LIVE_MODE STRATEGY_PAIRS MT5_MODE : option string).
Context (METAAPI_ID : option string) (fanOut : bool).
Local Open Scope async_scope.

Notation pairs := (trading_pairs STRATEGY_PAIRS).
Definition ask_redis (key : string) : DeskAsync (option string) := ask_desk (RedisText key).
Definition read_clock : DeskAsync Z := @ask DeskAct desk_result DeskClock.
Definition engine {A} (m : IO A) : DeskAsync A := ask_desk (Engine A m).
(** [.catch(() => null)], or a [try] whose [catch] is empty. *)
Definition or_null {A} (m : DeskAsync A) : DeskAsync (option A) :=
  pbind m (fun r => Ret (Ok (match r with Ok a => Some a | Throw _ => None end))).

Definition mode_string (m : EngineMode) : string := match m with mock => "mock" | metaapi => "metaapi" end.
Definition control_status (m : ControlMem) : ControlStatus := {|
  co_enabled := isEnabled LIVE_MODE; co_running := isRunning LIVE_MODE m;
  co_mt5Mode := match cm_config m with Some c => mode_string (lc_mode c) | None => default "mock"%string MT5_MODE end;
  co_pairs := pairs; co_riskPercent := LiveControl.getRiskPercent envRisk m;
  co_strategyVersion := match cm_config m with Some c => lc_strategyVersion c | None => V_GIDEON end;
  co_strategyRelease := "1.2.0"; co_mockBalance := cm_config m ≫= lc_mockBalance;
  co_lastChangedAt := cm_lastChangedAt m |}.

(** ** What everybody sees, and the house account *)
Definition telemetry : DeskAsync LiveStrategy.TelemetryView :=
  engine (now <~ get Now ;; sync (fun m => (m, LiveStrategy.telemetry_view pairs now m))).
Definition publicPulse := engine (sync (fun m => (m, EngineMemory.getPublicPulse pairs m))).

Definition house_snapshot (d : Tables) : option EquitySnapshot :=
  head (newest es_takenAt (List.filter (fun s =>
    bool_decide (es_source s = "live"%string) && bool_decide (es_mode s = metaapi) &&
    match es_accountId s ≫= (fun a => tb_accounts d !! a) with
    | Some r => bool_decide (ba_broker r = "METAAPI"%string)
    | None => false
    end) (tb_snapshots d))).

Definition status (me : Me) : DeskAsync StatusReply :=
  base <~ read_mem control_status ;;
  breaker <~ or_null (engine EngineMemory.getState) ;;
  if negb (is_super me) then
    resolve {| st_base := base; st_circuitBreaker := breaker; st_account := None; st_accountStale := None |}
  else
    account <~ or_null (ask_desk (HttpAccountOf None)) ;;
    accountStale <~ match account with
                    | Some _ => resolve None
                    | None => snap <~ select (fun _ => house_snapshot) ;; resolve (stale_of <$> snap)
                    end ;;
    resolve {| st_base := base; st_circuitBreaker := breaker; st_account := account; st_accountStale := accountStale |}.

Definition openPositions (me : Me) : DeskAsync (list BrokerPosition * option string) :=
  if negb (is_super me) then resolve ([], None)
  else pbind (ask_desk HttpHousePositions)
         (fun r => Ret (Ok (match r with Ok l => (l, None) | Throw e => ([], Some e) end))).

(** [@Roles('SUPERADMIN')] *)
Definition admin_only {A} (me : Me) (m : DeskAsync A) : DeskAsync A :=
  match RefreshTokens.canActivate [SUPERADMIN] (Some (me_role me)) with Ok _ => m | Throw e => reject e end.
Definition startEngine (me : Me) (dto : StartInput) : DeskAsync ControlStatus :=
  admin_only me (await! LiveControl.start LIVE_MODE STRATEGY_PAIRS METAAPI_ID dto ;; read_mem control_status).
Definition stopEngine (me : Me) : DeskAsync ControlStatus :=
  admin_only me (await! LiveControl.stop ;; read_mem control_status).
Definition resetCircuitBreaker (me : Me) : DeskAsync BreakerState :=
  if negb (is_super me) then reject "Only SUPERADMIN can reset the circuit breaker"
  else await! engine EngineMemory.reset ;; engine EngineMemory.getState.
Definition triggerEvaluation (me : Me) (symbol : string) : DeskAsync (string * option SmcLiveSignal) :=
  admin_only me (signal <~ engine (LiveStrategy.evaluatePair ov envRisk (toUpperCase symbol)) ;;
                 resolve (toUpperCase symbol, signal)).
Definition triggerReconcile (me : Me) : DeskAsync bool :=
  admin_only me (await! engine (PositionMonitor.reconcileAll ov pairs fanOut) ;; resolve true).
Definition testTrade (me : Me) (dto : LiveStrategy.TestTrade) : DeskAsync SmcLiveSignal :=
  admin_only me (engine (LiveStrategy.fireTestTrade pairs dto)).

(** ** The chart *)
Definition chart_rows (symbol timeframe : string) (take_ : Z) (d : Tables) : list CandleRow :=
  take_z take_ (newest cd_openTime (List.filter (fun r =>
    bool_decide (cd_symbol r = symbol) && bool_decide (cd_timeframe r = timeframe)) (tb_candles d))).
Definition candles (symbol : option string) (timeframe : option string) (count : option Z)
    : DeskAsync (list BacktestCandle * option string) :=
  let tf := default "M15"%string timeframe in
  let n := Z.min (match count with Some n => if n =? 0 then 100 else n | None => 100 end) 1000 in
  rows <~ select (fun _ => chart_rows (toUpperCase (default "" symbol)) tf n) ;;
  match rows with
  | _ :: _ => resolve (candle_dto <$> reverse rows, None)
  | [] => pbind (ask_desk (HttpCandlesOf (default "" symbol) tf n))
            (fun r => Ret (Ok (match r with Ok l => (l, None) | Throw e => ([], Some e) end)))
  end.

(** ** A user's own *)
Definition recentTrades (me : Me) (limit : option Z) : DeskAsync (list Trade) :=
  match limit with
  | None => reject "PrismaClientValidationError"
  | Some n => select (fun _ d => take_z n (newest t_createdAt (List.filter live_row (trades_of (me_id me) d))))
  end.
(** Without a mode or a session, the engine's mode. *)
Definition equityPoints (me : Me) (hours : option Z) (sessionId : option string) (mode : option EngineMode)
    (accountId : option string) : DeskAsync (list EquityPoint) :=
  config <~ read_mem getConfig ;;
  let effectiveMode := match mode with
                       | Some m => Some m
                       | None => match truthy_opt sessionId with Some _ => None | None => lc_mode <$> config end
                       end in
  equityHistory (me_id me) hours None sessionId effectiveMode accountId.
Definition sessions (sched : list nat) (me : Me) (limit : option nat) : DeskAsync (list SessionView) :=
  listSessions sched (me_id me) (is_super me) (Some (default 50%nat limit)).
Definition sessionDetail (me : Me) (id : string) : DeskAsync (option SessionView) :=
  getSession (me_id me) id (is_super me).

Record Overview := {
  ov_account : AccountRow; ov_live : option AccountReply; ov_positions : list BrokerPosition;
  ov_accountStale : option StaleReading }.
Definition own_account (me : Me) (id : string) (d : Tables) : option AccountRow :=
  match tb_accounts d !! id with
  | Some r => if bool_decide (ba_userId r = me_id me) then Some r else None
  | None => None
  end.
Definition last_snapshot (id : string) (d : Tables) : option EquitySnapshot :=
  head (newest es_takenAt (snapshots_of [id] d)).
(** The positions are asked for once the account has answered. *)
Definition accountOverview (me : Me) (accountId : string) : DeskAsync Overview :=
  acct <~ select (fun _ => own_account me accountId) ;;
  match acct with
  | None => reject "BrokerAccount not found"
  | Some a =>
      live <~ or_null (ask_desk (HttpAccountOf (Some accountId))) ;;
      positions <~ match live with Some _ => or_null (ask_desk (HttpOpenPositions accountId)) | None => resolve None end ;;
      stale <~ match live with
               | Some _ => resolve None
               | None => snap <~ select (fun _ => last_snapshot accountId) ;; resolve (stale_of <$> snap)
               end ;;
      resolve {| ov_account := a; ov_live := live; ov_positions := default [] positions; ov_accountStale := stale |}
  end.

(** ** loopHealth *)
Definition pair_health (sym : string) : DeskAsync PairHealth :=
  lastPoll <~ ask_redis ("live:cron:last-poll:" +:+ sym +:+ ":M15") ;;
  c <~ select (fun _ d => head (chart_rows sym "M15" 1 d)) ;;
  age <~ match truthy_opt lastPoll with
         | None => resolve NoPoll
         | Some s => now <~ read_clock ;;
                     resolve (match Date_parse s with Some t => Age (round_seconds (now - t)) | None => Unreadable end)
         end ;;
  resolve {| lh_symbol := sym; lh_lastCandleOpenTime := cd_openTime <$> c; lh_lastIngestedAt := lastPoll; lh_ageSec := age |}.

Definition on_fallback (acc : list string) (sym : string) : DeskAsync (list string) :=
  m15 <~ ask_redis ("live:candle-fallback:" +:+ sym +:+ ":M15") ;;
  flag <~ match m15 with
          | Some f => resolve (Some f)
          | None => ask_redis ("live:candle-fallback:" +:+ sym +:+ ":H1")
          end ;;
  resolve (match truthy_opt flag with Some _ => acc ++ [sym] | None => acc end).

(** Its own accounts for a user, all accounts for the administrator. *)
Definition visible_accounts (me : Me) (d : Tables) : list AccountRow :=
  List.filter ba_isEnabled (if is_super me then rows_of (tb_accounts d) else accounts_of (me_id me) d).
Definition account_health (running : bool) (a : AccountRow) : DeskAsync AccountHealth :=
  snap <~ select (fun _ => last_snapshot (ba_id a)) ;;
  age <~ match snap with
         | Some s => now <~ read_clock ;; resolve (Some (round_seconds (now - es_takenAt s)))
         | None => resolve None
         end ;;
  resolve {| ah_id := ba_id a; ah_name := ba_name a; ah_broker := ba_broker a; ah_lastSeenAt := es_takenAt <$> snap;
             ah_connected := if running then Some (match age with Some n => n <=? ACCOUNT_STALE_SEC | None => false end)
                             else None |}.

(** [sched1] and [sched2] order the queries that run side by side. *)
Definition loopHealth (sched1 sched2 : list nat) (me : Me) : DeskAsync LoopHealth :=
  candleAges <~ promise_all sched1 (pair_health <$> pairs) ;;
  exec <~ or_null (ask_desk HttpExecHealth) ;;
  fallbackPairs <~ fold_each on_fallback pairs [] ;;
  engineRunning <~ read_mem (isRunning LIVE_MODE) ;;
  enabledAccounts <~ select (fun _ => visible_accounts me) ;;
  accounts <~ promise_all sched2 (account_health engineRunning <$> enabledAccounts) ;;
  now <~ read_clock ;;
  resolve (loop_health (match exec with Some _ => true | None => false end)
             (match exec with Some (Some mode) => mode | _ => "unknown"%string end)
             pairs candleAges fallbackPairs accounts now).
End api.
