(* ===== verification/Journal.v ===== *)
(** * The trading journal

    src/journal/journal.service.ts ([JournalService]): notes of a day and reflections on a
    trade, the views of a day and of a month, and the entries the live services make when a
    signal fires and when a trade closes. *)
From Stdlib Require Import Ascii SpecFloat.
From S2P Require Import Prelude Async JsNum JsDate Calendar Types Instruments MarketTypes LiveTypes AuthTypes MarketData DeskTypes LiveControl Analytics.
Local Open Scope num_scope.
Local Open Scope async_scope.

Definition UNPROCESSABLE : string := "UnprocessableEntityException".
Definition NOT_FOUND : string := "NotFoundException".
Definition P2025 : string := "P2025".

(** [new Date()]: the clock, which needs no database. *)
Definition clock : DeskAsync Z := memory (fun now m => (m, now)).
(** A column of type [Date] keeps the day. *)
Definition db_date (t : Z) : Z := setUTCHours0 0 t.

(** ** Notes and reflections *)
Definition delete_note (k : string * Z) (_ : Z) (_ : string) (d : Tables) : Tables * Res unit :=
  match tb_notes d !! k with
  | Some _ => (set_notes (delete k (tb_notes d)) d, Ok tt)
  | None => (d, Throw P2025)
  end.
Definition put_note (k : string * Z) (note : string) (_ : Z) (_ : string) (d : Tables) : Tables * Res unit :=
  (set_notes (<[k := note]> (tb_notes d)) d, Ok tt).

Definition upsertDayNote (userId yyyymmdd note : string) : DeskAsync (string * option string) :=
  match Date_parse yyyymmdd with
  | None => reject UNPROCESSABLE
  | Some date =>
      now <~ clock ;;
      if (setUTCHours0 0 now <? date)%Z then reject UNPROCESSABLE
      else
        let k := (userId, db_date date) in
        if String.eqb note "" then
          await! try_catch (execute_sql (delete_note k)) (fun e => if bool_decide (e = P2025) then resolve tt else reject e) ;;
          resolve (yyyymmdd, None)
        else
          await! execute_sql (put_note k note) ;;
          resolve (yyyymmdd, Some note)
  end.

(** [reflectionNote] may be missing, null or a text. *)
Record JournalBody := { jb_tags : option (list string); jb_reflectionNote : option (option string) }.
Definition blank_entry : JournalRow := {|
  jr_setupSummary := ""; jr_tags := []; jr_reflectionNote := None; jr_entryContext := None; jr_exitContext := None;
  jr_outcome := None |}.
Definition reflected (body : JournalBody) (j : JournalRow) : JournalRow := {|
  jr_setupSummary := jr_setupSummary j; jr_tags := default (jr_tags j) (jb_tags body);
  jr_reflectionNote := default (jr_reflectionNote j) (jb_reflectionNote body);
  jr_entryContext := jr_entryContext j; jr_exitContext := jr_exitContext j; jr_outcome := jr_outcome j |}.
(** The row is created when the trade has none. *)
Definition upsert_entry (f : JournalRow -> JournalRow) (tradeId : string) (_ : Z) (_ : string) (d : Tables)
    : Tables * Res JournalRow :=
  let row := f (default blank_entry (tb_journal d !! tradeId)) in
  (set_journal (<[tradeId := row]> (tb_journal d)) d, Ok row).

Definition updateTradeJournal (tradeId : string) (body : JournalBody) : DeskAsync JournalRow :=
  trade <~ select (fun _ d => tb_trades d !! tradeId) ;;
  match trade with
  | None => reject NOT_FOUND
  | Some _ => execute_sql (upsert_entry (reflected body) tradeId)
  end.

(** ** Outcomes *)
Definition FORCED_CLOSE : string := "FORCED_CLOSE".
Definition deriveOutcome (pnl : option num) (exitReason : option string) : JournalOutcome :=
  if bool_decide (exitReason = Some FORCED_CLOSE) then FORCED
  else
    let p := default (of_Z 0) pnl in
    if p >? lit 5 1 then WIN else if p <? nopp (lit 5 1) then LOSS else BE.
Definition forced (t : Trade) : bool := bool_decide (t_exitReason (t_data t) = Some FORCED_CLOSE).

(** ** The day *)
Record TradeJournal := {
  tj_tags : list string; tj_reflectionNote : option string; tj_entryContext : option JournalEntryContext;
  tj_exitContext : option JournalExitContext; tj_setupSummary : string; tj_outcome : option JournalOutcome }.
Record TradeView := {
  tv_trade : Trade; tv_mode : string; tv_openedAt : string; tv_closedAt : option string;
  tv_sweepCandleTime : option string; tv_journal : TradeJournal }.
Definition trade_view (d : Tables) (t : Trade) : TradeView :=
  let j := tb_journal d !! t_id t in
  {| tv_trade := t;
     tv_mode := if bool_decide ("CONTINUATION"%string ∈ default [] (tb_tags d !! t_id t)) then "CONTINUATION" else "REVERSAL";
     tv_openedAt := toISOString (t_createdAt t);
     tv_closedAt := toISOString <$> t_closedAt (t_data t);
     tv_sweepCandleTime := toISOString <$> t_sweepCandleTime (t_data t);
     tv_journal := {| tj_tags := default [] (jr_tags <$> j); tj_reflectionNote := j ≫= jr_reflectionNote;
                      tj_entryContext := j ≫= jr_entryContext; tj_exitContext := j ≫= jr_exitContext;
                      tj_setupSummary := default ""%string (jr_setupSummary <$> j); tj_outcome := j ≫= jr_outcome |} |}.

Record DayTotals := { dt_tradesCount : Z; dt_realizedPnl : num; dt_winsCount : Z; dt_lossesCount : Z }.
Record DayView := { dv_date : string; dv_dayNote : option string; dv_trades : list TradeView; dv_totals : DayTotals }.
Definition day_wins (l : list Trade) : Z := count (fun t => (pnl_of t >? lit 5 1) && negb (forced t)) l.
Definition day_losses (l : list Trade) : Z := count (fun t => (pnl_of t <? nopp (lit 5 1)) && negb (forced t)) l.
Definition day_totals (l : list Trade) : DayTotals := {|
  dt_tradesCount := zlen l; dt_realizedPnl := cents2 (sum_pnl l);
  dt_winsCount := day_wins l; dt_lossesCount := day_losses l |}.

(** The user's trades created in [[from, to_)], oldest first. *)
Definition created_in (from to_ : Z) (t : Trade) : bool := (from <=? t_createdAt t)%Z && (t_createdAt t <? to_)%Z.
Definition trades_in (userId : string) (from to_ : Z) (d : Tables) : list Trade :=
  oldest t_createdAt (filter (fun t => created_in from to_ t = true) (trades_of userId d)).

Definition day_trades (userId : string) (from to_ : Z) (d : Tables) : list TradeView :=
  trade_view d <$> trades_in userId from to_ d.

Definition getDay (first : bool) (userId yyyymmdd : string) : DeskAsync DayView :=
  match Date_parse (yyyymmdd +:+ "T00:00:00.000Z") with
  | None => reject UNPROCESSABLE
  | Some dayStart =>
      let dayEnd := addDays 1 dayStart in
      answers <~ both first
        (select (fun _ => day_trades userId dayStart dayEnd))
        (select (fun _ d => tb_notes d !! (userId, db_date dayStart))) ;;
      let '(trades, dayNote) := answers in
      resolve {| dv_date := yyyymmdd; dv_dayNote := dayNote; dv_trades := trades;
                 dv_totals := day_totals (tv_trade <$> trades) |}
  end.

(** ** The month *)

(** [/^(\d{4})-(\d{2})$/] *)
Definition parse_month (s : string) : option (Z * Z) :=
  match String.list_ascii_of_string s with
  | [y1; y2; y3; y4; "-"%char; m1; m2] =>
      y ← digits 0 [y1; y2; y3; y4]; m ← digits 0 [m1; m2]; Some (y, m)
  | _ => None
  end.

(** [Date.UTC(y, m0, d)]: months past the year roll over, and a year below 100 is of the
    twentieth century. *)
Definition utc (y m0 d : Z) : Z :=
  let y := if (0 <=? y)%Z && (y <=? 99)%Z then (1900 + y)%Z else y in
  (days_from_civil (y + m0 / 12) (m0 mod 12 + 1) 1 + (d - 1))%Z * ms_day.
Definition getUTCDate (t : Z) : Z := (civil_from_days (day_of t)).2.
Definition getUTCMonth (t : Z) : Z := ((civil_from_days (day_of t)).1.2 - 1)%Z.
Definition getUTCFullYear (t : Z) : Z := (civil_from_days (day_of t)).1.1.

Record DayRow := {
  dr_date : string; dr_tradesCount : Z; dr_realizedPnl : num; dr_winsCount : Z; dr_lossesCount : Z;
  dr_hasDayNote : bool; dr_hasReflections : bool; dr_hasOpenTrades : bool }.
Definition empty_day (noteDates : list string) (key : string) : DayRow := {|
  dr_date := key; dr_tradesCount := 0; dr_realizedPnl := of_Z 0; dr_winsCount := 0; dr_lossesCount := 0;
  dr_hasDayNote := bool_decide (key ∈ noteDates); dr_hasReflections := false; dr_hasOpenTrades := false |}.
Definition reflects (j : option JournalRow) : bool :=
  match j with
  | Some j => (0 <? length (jr_tags j))%nat || match truthy_opt (jr_reflectionNote j) with Some _ => true | None => false end
  | None => false
  end.
Definition day_count (tj : Trade * option JournalRow) (r : DayRow) : DayRow :=
  let t := tj.1 in
  let p := pnl_of t in
  {| dr_date := dr_date r; dr_tradesCount := dr_tradesCount r + 1; dr_realizedPnl := dr_realizedPnl r + p;
     dr_winsCount := if negb (forced t) && (p >? lit 5 1) then dr_winsCount r + 1 else dr_winsCount r;
     dr_lossesCount := if negb (forced t) && negb (p >? lit 5 1) && (p <? nopp (lit 5 1))
                       then dr_lossesCount r + 1 else dr_lossesCount r;
     dr_hasDayNote := dr_hasDayNote r; dr_hasReflections := reflects tj.2 || dr_hasReflections r;
     dr_hasOpenTrades := negb (bool_decide (status t = CLOSED)) || dr_hasOpenTrades r |}.

(** [byDate]: where the row of a date is. *)
Definition day_index (days : list DayRow) : list (string * nat) :=
  foldl (fun m id => map_set (dr_date id.2) id.1 m) [] (imap (fun i d => (i, d)) days).
Definition month_add (idx : list (string * nat)) (days : list DayRow) (tj : Trade * option JournalRow) : list DayRow :=
  match map_get (date10 (t_createdAt tj.1)) idx with
  | Some i => alter (day_count tj) i days
  | None => days
  end.
Definition day_round (r : DayRow) : DayRow := {|
  dr_date := dr_date r; dr_tradesCount := dr_tradesCount r; dr_realizedPnl := cents2 (dr_realizedPnl r);
  dr_winsCount := dr_winsCount r; dr_lossesCount := dr_lossesCount r; dr_hasDayNote := dr_hasDayNote r;
  dr_hasReflections := dr_hasReflections r; dr_hasOpenTrades := dr_hasOpenTrades r |}.
Definition month_days (days0 : list DayRow) (trades : list (Trade * option JournalRow)) : list DayRow :=
  day_round <$> foldl (month_add (day_index days0)) days0 trades.

Record MonthTotals := {
  mt_tradesCount : Z; mt_realizedPnl : num; mt_winsCount : Z; mt_lossesCount : Z; mt_winRatePct : num }.
Definition zsum (l : list Z) : Z := foldl Z.add 0%Z l.
Definition month_totals (days : list DayRow) : MonthTotals :=
  let wins := zsum (dr_winsCount <$> days) in
  let losses := zsum (dr_lossesCount <$> days) in
  {| mt_tradesCount := zsum (dr_tradesCount <$> days);
     mt_realizedPnl := cents2 (nsum (of_Z 0) (dr_realizedPnl <$> days));
     mt_winsCount := wins; mt_lossesCount := losses;
     mt_winRatePct := if (0 <? wins + losses)%Z then Math_round (of_Z wins / of_Z (wins + losses) * of_Z 100) else of_Z 0 |}.

Record WeekRow := { wr_weekStart : string; wr_tradesCount : Z; wr_realizedPnl : num; wr_partial : bool }.
Definition week_of (date : Z) : Z := addDays (- ((getUTCDay date + 6) mod 7)) date.
(** A date that cannot be read makes [toISOString] throw. *)
Definition week_add (monthStart monthEnd : Z) (weeks : list (string * WeekRow)) (d : DayRow) : Res (list (string * WeekRow)) :=
  if (dr_tradesCount d =? 0)%Z && (dr_realizedPnl d =? of_Z 0) then Ok weeks
  else
    match Date_parse (dr_date d +:+ "T00:00:00.000Z") with
    | None => Throw "RangeError: Invalid time value"
    | Some date =>
        let weekStart := week_of date in
        let wsKey := date10 weekStart in
        let partial := (weekStart <? monthStart)%Z || (monthEnd <? addDays 7 weekStart)%Z in
        let w := default {| wr_weekStart := wsKey; wr_tradesCount := 0; wr_realizedPnl := of_Z 0; wr_partial := partial |}
                         (map_get wsKey weeks) in
        Ok (map_set wsKey {| wr_weekStart := wr_weekStart w; wr_tradesCount := wr_tradesCount w + dr_tradesCount d;
                             wr_realizedPnl := cents2 (wr_realizedPnl w + dr_realizedPnl d);
                             wr_partial := wr_partial w |} weeks)
    end.
Fixpoint week_rows (monthStart monthEnd : Z) (weeks : list (string * WeekRow)) (days : list DayRow) : Res (list (string * WeekRow)) :=
  match days with
  | [] => Ok weeks
  | d :: days =>
      match week_add monthStart monthEnd weeks d with
      | Ok weeks => week_rows monthStart monthEnd weeks days
      | Throw e => Throw e
      end
  end.
Definition by_weekStart (l : list WeekRow) : list WeekRow := sort_by (fun a b => negb (str_lt (wr_weekStart b) (wr_weekStart a))) l.

Record MonthView := {
  mv_month : string; mv_days : list DayRow; mv_totals : MonthTotals; mv_weekly : list WeekRow }.
Definition empty_month (year month : Z) (noteDates : list string) : list DayRow :=
  (fun i => empty_day noteDates (date10 (utc year (month - 1) (i + 1)))) <$> seqZ 0 (getUTCDate (utc year month 0)).
Definition month_view (yyyymm : string) (year month : Z) (trades : list (Trade * option JournalRow)) (notes : list Z) : Res MonthView :=
  let monthStart := utc year (month - 1) 1 in
  let monthEnd := utc year month 1 in
  let noteDates := date10 <$> notes in
  let days := month_days (empty_month year month noteDates) trades in
  match week_rows monthStart monthEnd [] days with
  | Throw e => Throw e
  | Ok weeks => Ok {| mv_month := yyyymm; mv_days := days; mv_totals := month_totals days;
                      mv_weekly := by_weekStart weeks.*2 |}
  end.

Definition with_journal (d : Tables) (t : Trade) : Trade * option JournalRow := (t, tb_journal d !! t_id t).
Definition notes_in (userId : string) (from to_ : Z) (d : Tables) : list Z :=
  (fun kv => kv.1.2) <$> map_to_list (filter (fun kv => kv.1.1 = userId /\ (from <= kv.1.2 < to_)%Z) (tb_notes d)).
Definition month_trades (userId : string) (from to_ : Z) (d : Tables) : list (Trade * option JournalRow) :=
  with_journal d <$> trades_in userId from to_ d.
Definition getMonthAggregate (first : bool) (userId yyyymm : string) : DeskAsync MonthView :=
  match parse_month yyyymm with
  | None => reject UNPROCESSABLE
  | Some (year, month) =>
      let monthStart := utc year (month - 1) 1 in
      let monthEnd := utc year month 1 in
      answers <~ both first
        (select (fun _ => month_trades userId monthStart monthEnd))
        (select (fun _ => notes_in userId monthStart monthEnd)) ;;
      let '(trades, notes) := answers in
      Ret (month_view yyyymm year month trades notes)
  end.

(** ** The months *)
Definition month_of (t : Z) : Z := utc (getUTCFullYear t) (getUTCMonth t) 1.
(** [cursor.setUTCMonth(cursor.getUTCMonth() + 1)] on the first of a month. *)
Definition next_month (t : Z) : Z :=
  let '(y, m, _) := civil_from_days (day_of t) in days_from_civil (y + m / 12) (m mod 12 + 1) 1 * ms_day.
Definition pad2 (n : Z) : string := if (n <? 10)%Z then "0" +:+ dec_string n else dec_string n.
Definition month_key (t : Z) : string := dec_string (getUTCFullYear t) +:+ "-" +:+ pad2 (getUTCMonth t + 1).
Fixpoint months_from (fuel : nat) (cursor last : Z) : list string :=
  match fuel with
  | O => []
  | S n => if (cursor <=? last)%Z then month_key cursor :: months_from n (next_month cursor) last else []
  end.
(** A month has 28 days at least. *)
Definition months_fuel (cursor last : Z) : nat := S (Z.to_nat ((last - cursor) / (28 * ms_day))).

Record AvailableMonths := { am_months : list string; am_earliest : option string; am_latest : option string }.
Definition zmin (l : list Z) : option Z := match l with [] => None | x :: l => Some (foldl Z.min x l) end.
Definition zmax (l : list Z) : option Z := match l with [] => None | x :: l => Some (foldl Z.max x l) end.
Definition available (min max : option Z) : AvailableMonths :=
  match min, max with
  | Some min, Some max =>
      let cursor := month_of min in
      let last := month_of max in
      {| am_months := reverse (months_from (months_fuel cursor last) cursor last);
         am_earliest := Some (date10 min); am_latest := Some (date10 max) |}
  | _, _ => {| am_months := []; am_earliest := None; am_latest := None |}
  end.
Definition getAvailableMonths (userId : string) : DeskAsync AvailableMonths :=
  bounds <~ select (fun _ d => (zmin (t_createdAt <$> trades_of userId d), zmax (t_createdAt <$> trades_of userId d))) ;;
  resolve (available bounds.1 bounds.2).

(** ** When a signal fires *)
Record SignalContext := {
  sc_d1Adx : num; sc_d1Bias : D1Bias; sc_killzone : option string; sc_h1Atr : num; sc_pendingQueueSize : Z;
  sc_spread : num; sc_accountEquity : num; sc_openPositionsCount : Z; sc_openDirections : list Side;
  sc_anchorLevel : option num; sc_anchorType : option string }.
Definition entry_context (evalTime : string) (c : SignalContext) : JournalEntryContext := {|
  jc_evalTime := evalTime; jc_d1Adx := sc_d1Adx c; jc_d1Bias := sc_d1Bias c; jc_h1Atr := sc_h1Atr c;
  jc_killzone := sc_killzone c; jc_pendingQueueSize := sc_pendingQueueSize c; jc_spread := sc_spread c;
  jc_accountEquity := sc_accountEquity c; jc_openPositionsCount := sc_openPositionsCount c;
  jc_openDirections := sc_openDirections c; jc_anchorLevel := sc_anchorLevel c; jc_anchorType := sc_anchorType c |}.

Definition base_summary (sig : SmcLiveSignal) (c : SignalContext) : string :=
  mode_string (sig_mode sig) +:+ " " +:+ side_string (sig_side sig) +:+ " on " +:+ sig_symbol sig +:+ " — D1 "
  +:+ bias_string (sc_d1Bias c) +:+ ", swept " +:+ default "level" (sc_anchorType c) +:+ " at "
  +:+ default "—" (num_string <$> sc_anchorLevel c) +:+ ", " +:+ default "—" (sc_killzone c) +:+ " session".

(** [createMany] with [skipDuplicates]. *)
Definition create_entries (rows : list (string * JournalRow)) (_ : Z) (_ : string) (d : Tables) : Tables * Res Z :=
  (set_journal (foldl (fun m r => match m !! r.1 with Some _ => m | None => <[r.1 := r.2]> m end) (tb_journal d) rows) d,
   Ok (zlen (filter (fun r => tb_journal d !! r.1 = None) rows))).
Definition signal_entry (summary : string) (ctx : JournalEntryContext) (idx : nat) (t : Trade) : string * JournalRow :=
  (t_id t, {| jr_setupSummary := summary +:+ " — " +:+ (if (idx =? 0)%nat then "TP1 leg" else "Runner leg");
              jr_tags := []; jr_reflectionNote := None; jr_entryContext := Some ctx; jr_exitContext := None;
              jr_outcome := None |}).
Definition signal_trades (sig : SmcLiveSignal) (sweep : option Z) (d : Tables) : list Trade :=
  take 2 (newest t_createdAt (filter (fun t =>
    bool_decide (trade_symbol t = sig_symbol sig) && bool_decide (t_side (t_data t) = sig_side sig) &&
    match sweep with Some s => bool_decide (t_sweepCandleTime (t_data t) = Some s) | None => true end &&
    negb (bool_decide (status t = CLOSED)) = true) (rows_of (tb_trades d)))).

Definition createJournalEntriesForSignal (sig : SmcLiveSignal) (evalTimeIso : string) (c : SignalContext) : DeskAsync unit :=
  let create (sweep : option Z) :=
    trades <~ select (fun _ => signal_trades sig sweep) ;;
    match trades with
    | [] => resolve tt
    | _ => await! execute_sql (create_entries (imap (signal_entry (base_summary sig c) (entry_context evalTimeIso c)) trades)) ;;
           resolve tt
    end in
  match truthy_opt (sweepCandleTime <$> smcContext sig) with
  | None => create None
  | Some s => match Date_parse s with Some t => create (Some t) | None => reject "PrismaClientValidationError" end
  end.

(** ** When a trade closes *)
Definition pip_size (sym : string) : num :=
  if bool_decide (sym = "XAUUSD"%string) then lit 1 1 else if ends_with_JPY sym then lit 1 2 else lit 1 4.
Definition excursion_step (t : Trade) (m : num * num) (c : CandleRow) : num * num :=
  let entry := t_entryPrice (t_data t) in
  let '(favorable, adverse) :=
    match t_side (t_data t) with
    | BUY => (cd_high c - entry, cd_low c - entry)
    | SELL => (entry - cd_low c, entry - cd_high c)
    end in
  (if favorable >? m.1 then favorable else m.1, if adverse <? m.2 then adverse else m.2).
Definition excursions (t : Trade) (candles : list CandleRow) : option (num * num) :=
  match candles with
  | [] => None
  | _ =>
      let '(mfe, mae) := foldl (excursion_step t) (of_Z 0, of_Z 0) candles in
      let pip := pip_size (trade_symbol t) in
      Some (pct1 (mfe / pip), pct1 (mae / pip))
  end.
Definition bars_of (t : Trade) (closedAt : Z) (d : Tables) : list CandleRow :=
  filter (fun c => bool_decide (cd_symbol c = trade_symbol t) && bool_decide (cd_timeframe c = "M15"%string) &&
                   (t_createdAt t <=? cd_openTime c)%Z && (cd_openTime c <=? closedAt)%Z = true) (tb_candles d).

(** [Math.round(ms / 60000)] *)
Definition minutes_of (ms : Z) : Z := ((2 * ms + 60000) / 120000)%Z.
Definition exit_context (t : Trade) (closedAt : Z) (mfeMae : option (num * num)) : JournalExitContext :=
  let d := t_data t in
  {| jx_closedAt := toISOString closedAt; jx_exitReason := default "SL"%string (t_exitReason d);
     jx_holdMinutes := minutes_of (closedAt - t_createdAt t);
     jx_exitPrice := default (of_Z 0) (t_closePrice d); jx_mfeMaePips := mfeMae;
     jx_trailedSlAtClose := t_slPrice d; jx_originalSlPrice := t_originalSlPrice d;
     jx_beActivated := match t_originalSlPrice d with Some o => negb (t_slPrice d =? o) | None => false end |}.
Definition with_exit (x : JournalExitContext) (o : JournalOutcome) (j : JournalRow) : JournalRow := {|
  jr_setupSummary := jr_setupSummary j; jr_tags := jr_tags j; jr_reflectionNote := jr_reflectionNote j;
  jr_entryContext := jr_entryContext j; jr_exitContext := Some x; jr_outcome := Some o |}.

Definition enrichJournalOnExit (tradeId : string) : DeskAsync unit :=
  trade <~ select (fun _ d => tb_trades d !! tradeId) ;;
  match trade with
  | None => resolve tt
  | Some t =>
      match t_closedAt (t_data t) with
      | None => resolve tt
      | Some closedAt =>
          mfeMae <~ try_catch (candles <~ select (fun _ => bars_of t closedAt) ;; resolve (excursions t candles))
                              (fun _ => resolve None) ;;
          await! execute_sql (upsert_entry
            (with_exit (exit_context t closedAt mfeMae) (deriveOutcome (t_pnl (t_data t)) (t_exitReason (t_data t)))) tradeId) ;;
          resolve tt
      end
  end.
