(* ===== verification/Tenancy.v ===== *)
(** * Tenant isolation of programs that read

    A program is private to a user when every statement it can make, whatever the database
    answered before, writes nothing and answers the same when all rows of other tenants are
    taken away, and its other effects concern what all share or the user's own accounts.  Such a program cannot tell two databases apart that differ in those rows. *)
From S2P Require Import Prelude Async JsNum Types MarketTypes LiveTypes AuthTypes DeskTypes.

Section tenant.
Context (u : string) (U : gset string).

(** [U] are the accounts of user [u]; rows are stored under their identifiers. *)
Record ownership (d : Tables) : Prop := {
  ow_accounts : forall a r, tb_accounts d !! a = Some r -> ba_id r = a /\ (ba_userId r = u <-> a ∈ U);
  ow_trades : forall id t, tb_trades d !! id = Some t -> t_id t = id }.
Definition mine (account : option string) : bool := match account with Some a => bool_decide (a ∈ U) | None => false end.
Definition my_trade (d : Tables) (id : string) : bool :=
  match tb_trades d !! id with Some t => mine (account t) | None => false end.

(** The tables without the rows of other tenants.  Session rows are everybody's. *)
Definition restrict (d : Tables) : Tables := {|
  tb_users := filter (fun kv => kv.1 = u) (tb_users d);
  tb_accounts := filter (fun kv => kv.1 ∈ U) (tb_accounts d);
  tb_trades := filter (fun kv => mine (account kv.2) = true) (tb_trades d);
  tb_tags := filter (fun kv => my_trade d kv.1 = true) (tb_tags d);
  tb_sessions := tb_sessions d;
  tb_snapshots := filter (fun s => mine (es_accountId s) = true) (tb_snapshots d);
  tb_notes := filter (fun kv => kv.1.1 = u) (tb_notes d);
  tb_journal := filter (fun kv => my_trade d kv.1 = true) (tb_journal d);
  tb_candles := tb_candles d |}.

(** ** Queries *)
Definition reads_mine {A} (q : Z -> Tables -> A) : Prop :=
  forall now d, ownership d -> q now d = q now (restrict d).

Lemma owns_restrict d acc : ownership d ->
  owns u d acc = match acc with
                 | Some a => match tb_accounts d !! a with Some _ => bool_decide (a ∈ U) | None => false end
                 | None => false
                 end.
Proof.
  intros Hd. destruct acc as [a|]; [|done]. simpl. destruct (tb_accounts d !! a) as [r|] eqn:E; [|done].
  destruct (ow_accounts d Hd _ _ E) as [_ Hu]. by apply bool_decide_ext.
Qed.

Lemma owns_mine d acc : ownership d -> owns u d acc = true -> mine acc = true.
Proof. intros Hd. rewrite owns_restrict by done. destruct acc as [a|]; [|done]. simpl. by destruct (tb_accounts d !! a). Qed.

Lemma ownership_restrict d : ownership d -> ownership (restrict d).
Proof. intros Hd. split; intros i r [H _]%map_lookup_filter_Some; [by apply (ow_accounts d)|by apply (ow_trades d)]. Qed.

Lemma owns_same d acc : ownership d -> owns u d acc = owns u (restrict d) acc.
Proof.
  intros Hd. rewrite !owns_restrict by (try apply ownership_restrict; done). destruct acc as [a|]; [|done]. simpl.
  destruct (decide (a ∈ U)) as [Ha|Ha].
  - destruct (tb_accounts d !! a) as [r|] eqn:Er.
    + by rewrite (map_lookup_filter_Some_2 _ _ _ r Er).
    + by rewrite map_lookup_filter_None_2 by auto.
  - rewrite bool_decide_eq_false_2 by done. by repeat case_match.
Qed.

Lemma trades_of_restrict d : ownership d -> trades_of u d = trades_of u (restrict d).
Proof.
  intros Hd. unfold trades_of, rows_of. do 2 f_equal. simpl. rewrite map_filter_filter.
  apply map_filter_ext. intros id t _. rewrite <- (owns_same d) by done.
  split; [|by intros [? _]]. intros H. split; [done|]. by eapply owns_mine.
Qed.

Lemma accounts_of_restrict d : ownership d -> accounts_of u d = accounts_of u (restrict d).
Proof.
  intros Hd. unfold accounts_of, rows_of. do 2 f_equal. simpl. rewrite map_filter_filter.
  apply map_filter_ext. intros a r Hr. simpl. destruct (ow_accounts d Hd _ _ Hr) as [_ Hu]. tauto.
Qed.

Lemma accounts_of_ids d : ownership d -> Forall (fun a => a ∈ U) (ba_id <$> accounts_of u d).
Proof.
  intros Hd. apply Forall_fmap, Forall_forall. intros r Hr. unfold accounts_of, rows_of in Hr.
  apply list_elem_of_fmap in Hr as ([a r'] & -> & Hr).
  apply elem_of_map_to_list, map_lookup_filter_Some in Hr as [Hr Hu]. simpl in *.
  destruct (ow_accounts d Hd _ _ Hr) as [-> H]. by apply H.
Qed.

Lemma filter_filter_weaken {A} (P Q : A -> Prop) `{!forall x, Decision (P x)} `{!forall x, Decision (Q x)} (l : list A) :
  (forall x, P x -> Q x) -> filter P (filter Q l) = filter P l.
Proof.
  intros HPQ. induction l as [|x l IH]; [done|]. rewrite !filter_cons.
  destruct (decide (Q x)) as [HQ|HQ]; [rewrite filter_cons; by rewrite IH|].
  rewrite decide_False by auto. done.
Qed.

Lemma snapshots_of_restrict ids d : Forall (fun a => a ∈ U) ids -> snapshots_of ids d = snapshots_of ids (restrict d).
Proof.
  intros Hi. unfold snapshots_of. simpl. rewrite filter_filter_weaken; [done|].
  intros s. destruct (es_accountId s) as [a|]; [|done]. simpl. rewrite !bool_decide_eq_true.
  rewrite Forall_forall in Hi. auto.
Qed.

Lemma owned_restrict {A} (f : A -> option string) (l : list A) d :
  ownership d -> filter (fun x => owns u d (f x) = true) l = filter (fun x => owns u (restrict d) (f x) = true) l.
Proof. intros Hd. apply list_filter_iff. intros x. by rewrite <- owns_same. Qed.

Lemma owned_snaps_restrict d : ownership d ->
  filter (fun s => owns u d (es_accountId s) = true) (tb_snapshots d) =
  filter (fun s => owns u (restrict d) (es_accountId s) = true) (tb_snapshots (restrict d)).
Proof.
  intros Hd. rewrite <- (owned_restrict es_accountId _ d Hd). simpl. rewrite filter_filter_weaken; [done|].
  intros s. by apply owns_mine.
Qed.

(** What belongs to a trade of the user. *)
Lemma my_trade_row {A} (m : gmap string A) d t : ownership d -> t ∈ trades_of u d ->
  filter (fun kv => my_trade d kv.1 = true) m !! t_id t = m !! t_id t.
Proof.
  intros Hd Ht. unfold trades_of, rows_of in Ht. apply list_elem_of_fmap in Ht as ([id t'] & -> & Ht).
  apply elem_of_map_to_list, map_lookup_filter_Some in Ht as [Ht Ho]. simpl in *.
  pose proof (ow_trades d Hd _ _ Ht) as E. destruct (m !! t_id t') as [x|] eqn:Em.
  - apply map_lookup_filter_Some_2; [done|]. simpl. unfold my_trade. rewrite E, Ht. by apply (owns_mine d).
  - apply map_lookup_filter_None_2. by left.
Qed.
Lemma my_note_row d k : k.1 = u -> tb_notes (restrict d) !! k = tb_notes d !! k.
Proof.
  intros Hk. simpl. destruct (tb_notes d !! k) eqn:E; [by apply map_lookup_filter_Some_2|].
  apply map_lookup_filter_None_2. by left.
Qed.

(** ** Programs *)

(** Effects beside the database that tell a tenant nothing about the others: the engine's
    switch, its heartbeats and the breaker, which all tenants share, what the engine's memory
    shows without a change to it, and the user's own accounts at their brokers.  The house
    account is not among them. *)
Definition engine_read (e : Action) : Prop :=
  match e with
  | BreakerGet | Now => True
  | Sync X f => forall m, (f m).1 = m
  | _ => False
  end.
Definition open_to (e : DeskAct) : Prop :=
  match e with
  | RedisGet _ _ | RedisText _ | DeskClock | HttpExecHealth | HttpCandlesOf _ _ _ => True
  | MemDo A f => forall now m, (f now m).1 = m
  | HttpAccountOf (Some a) | HttpPositions a | HttpOpenPositions a => a ∈ U
  | Engine A m => emits engine_read m
  | _ => False
  end.
Fixpoint private {A} (p : DeskProg A) : Prop :=
  match p with
  | Ret _ => True
  | Act e k =>
      match e return (desk_result e -> Prop) -> Prop with
      | Stmt B f => fun next =>
          (exists q, reads_mine q /\ forall now id d, f now id d = (d, Ok (q now d))) /\
          (forall now id d, ownership d -> next (f now id d).2) /\ (forall e, next (Throw e))
      | _ => fun next => open_to e /\ forall x, next x
      end (fun x => private (k x))
  end.

Lemma private_ret {A} (r : A) : private (Ret r : DeskProg A).
Proof. done. Qed.
Lemma private_bind {A B} (p : DeskProg A) (f : A -> DeskProg B) :
  private p -> (forall a, private (f a)) -> private (pbind p f).
Proof.
  intros Hp Hf. induction p as [a|e k IH]; simpl; [auto|].
  destruct e; simpl in *; try solve [destruct Hp as [He Hx]; auto].
  destruct Hp as (Hq & H1 & H2). split_and!; auto.
Qed.
Lemma private_await {A B} (m : DeskAsync A) (k : A -> DeskAsync B) :
  private m -> (forall a, private (k a)) -> private (await m k).
Proof. intros Hm Hk. apply private_bind; [done|]. intros [a|e]; simpl; auto. Qed.

Lemma private_select {A B} (q : Z -> Tables -> A) (k : A -> DeskAsync B) :
  reads_mine q -> (forall now d, ownership d -> private (k (q now d))) -> private (await (select q) k).
Proof. intros Hq Hk. split_and!; [by exists q| |done]. intros now id d Hd. simpl. by apply (Hk now d). Qed.
Lemma private_read {A} (q : Z -> Tables -> A) : reads_mine q -> private (select q).
Proof. intros Hq. split_and!; [by exists q|done|done]. Qed.
Lemma private_fold_each {A T} (body : T -> A -> DeskAsync T) l t :
  (forall t x, private (body t x)) -> private (fold_each body l t).
Proof.
  intros H. revert t. induction l as [|x l IH]; intros t; simpl; [done|]. apply private_await; auto.
Qed.

Lemma private_act {A} e (k : desk_result e -> DeskProg A) (k' : desk_result e -> DeskProg (list A)) :
  private (Act e k) -> (forall x, private (k x) -> private (k' x)) -> private (Act e k').
Proof.
  destruct e; simpl; try solve [intros [He Hx] Hk; auto].
  intros (Hq & H1 & H2) Hk. split_and!; auto.
Qed.
Lemma private_par_all {A} sched (ps : list (@Prog DeskAct desk_result A)) : Forall private ps -> private (par_all sched ps).
Proof.
  revert ps. induction sched as [|i sched IH]; intros ps H; cbn [par_all].
  - induction H as [|p ps Hp _ IHp]; [done|]. cbn [seq_all]. apply private_bind; [done|]. intros a. by apply private_bind.
  - destruct (ps !! i) as [[a|e k]|] eqn:E; [by apply IH| |by apply IH].
    pose proof (proj1 (Forall_lookup _ _) H _ _ E) as Hp.
    apply (private_act e k (fun x => par_all sched (<[i := k x]> ps))); [done|]. intros x Hx. apply IH. by apply Forall_insert.
Qed.
Lemma private_both {A B} first (p : Z -> Tables -> A) (q : Z -> Tables -> B) :
  reads_mine p -> reads_mine q -> private (both first (select p) (select q)).
Proof. intros Hp Hq. destruct first; (apply private_select; [done|]; intros ? ? ?; apply private_select; [done|]; intros ? ? ?; done). Qed.

Lemma private_perform {A} e (k : desk_result e -> DeskProg A) :
  open_to e -> (forall x, private (k x)) -> private (Act e k).
Proof. intros He Hk. destruct e; simpl; try done. Qed.

Lemma private_promise_all {A} sched (ps : list (DeskAsync A)) : Forall private ps -> private (promise_all sched ps).
Proof. intros H. apply private_bind; [by apply private_par_all|done]. Qed.

(** ** What it means

    The answers of a program when its statements meet the database at the given moments
    and its other effects are answered by [env]. *)
Fixpoint eval_in (env : nat -> forall e, desk_result e) {A} (p : DeskProg A) (ds : nat -> Z * Tables) : A :=
  match p with
  | Ret a => a
  | Act e k =>
      match e return (desk_result e -> A) -> A with
      | Stmt B f => fun next => next (f (ds 0%nat).1 ""%string (ds 0%nat).2).2
      | e => fun next => next (env 0%nat e)
      end (fun x => eval_in (fun n => env (S n)) (k x) (fun n => ds (S n)))
  end.

Lemma private_eval env {A} (p : DeskProg A) ds ds' :
  private p -> (forall n, ownership (ds n).2 /\ ownership (ds' n).2 /\ (ds n).1 = (ds' n).1 /\
                        restrict (ds n).2 = restrict (ds' n).2) ->
  eval_in env p ds = eval_in env p ds'.
Proof.
  revert env ds ds'. induction p as [a|e k IH]; intros env ds ds' Hp Hd; simpl; [done|].
  destruct e; simpl in *; try solve [destruct Hp as [_ Hx]; apply IH; [apply Hx|intros n; apply (Hd (S n))]].
  destruct Hp as ((q & Hq & Hf) & H1 & _).
  destruct (Hd 0%nat) as (O1 & O2 & Ht & Hr).
  assert ((f (ds 0%nat).1 "" (ds 0%nat).2).2 = (f (ds' 0%nat).1 "" (ds' 0%nat).2).2) as E.
  { rewrite !Hf. simpl. by rewrite (Hq _ _ O1), (Hq _ _ O2), Ht, Hr. }
  rewrite <- E. apply IH; [by apply H1|]. intros n. apply (Hd (S n)).
Qed.

(** The answers of a program that only makes statements. *)
Fixpoint eval_on {A} (p : DeskProg A) (ds : nat -> Z * Tables) : option A :=
  match p with
  | Ret a => Some a
  | Act e k =>
      match e return (desk_result e -> option A) -> option A with
      | Stmt B f => fun next => next (f (ds 0%nat).1 ""%string (ds 0%nat).2).2
      | _ => fun _ => None
      end (fun x => eval_on (k x) (fun n => ds (S n)))
  end.
End tenant.
