(* ===== verification/AnalyticsFacts.v ===== *)
(** * Theorems about the dashboards

    What a user is shown depends on nobody else's accounts, trades and snapshots, and the
    counters of the statistics add up; so with the routes of the strategy controller, whose
    acting ones are an administrator's and whose health of the loop is exact. *)
From Stdlib Require Import SpecFloat.
From S2P Require Import Prelude Async JsNum JsDate Types Instruments Indicators MarketTypes LiveTypes AuthTypes MarketData DeskTypes LiveControl Analytics StrategyApi Journal Tenancy.
(** ** Tenant isolation *)
Section tenant.
Context (u : string) (U : gset string).
Notation pv := (private u U).

(** The environment of the process, and the user. *)
Context (T : TechnicalIndicators) (ov : Overrides) (envRisk : num) (LIVE_MODE STRATEGY_PAIRS MT5_MODE METAAPI_ID : option string) (fanOut : bool).
Context (me : Me) (me_user : me_id me = u) (me_plain : me_role me <> SUPERADMIN).

(** What the dashboards and the journal answer to a read. *)
Inductive dashboard_view : forall A, DeskAsync A -> Prop :=
| uv_trades first f limit offset : dashboard_view _ (listTrades first u f limit offset)
| uv_stats days : dashboard_view _ (stats u days)
| uv_session_trades sid acc : dashboard_view _ (sessionTrades u sid acc)
| uv_session_stats sid acc : dashboard_view _ (sessionStats u sid acc)
| uv_sessions sched limit : dashboard_view _ (listSessions sched u false limit)
| uv_session sid : dashboard_view _ (getSession u sid false)
| uv_equity h l sid m acc : dashboard_view _ (equityHistory u h l sid m acc)
| uv_snapshot : dashboard_view _ (snapshot u)
| uv_curve days : dashboard_view _ (equityCurve u days)
| uv_risk : dashboard_view _ (riskUsedToday u)
| uv_day first date : dashboard_view _ (getDay first u date)
| uv_month first month : dashboard_view _ (getMonthAggregate first u month)
| uv_months : dashboard_view _ (getAvailableMonths u).

(** The routes of the strategy controller that act: an administrator's. *)
Inductive operator_route : forall A, DeskAsync A -> Prop :=
| or_start dto : operator_route _ (startEngine envRisk LIVE_MODE STRATEGY_PAIRS MT5_MODE METAAPI_ID me dto)
| or_stop : operator_route _ (stopEngine envRisk LIVE_MODE STRATEGY_PAIRS MT5_MODE me)
| or_breaker : operator_route _ (resetCircuitBreaker me)
| or_evaluate symbol : operator_route _ (triggerEvaluation ov envRisk me symbol)
| or_reconcile : operator_route _ (triggerReconcile ov STRATEGY_PAIRS fanOut me)
| or_test dto : operator_route _ (testTrade STRATEGY_PAIRS me dto).

(** The requests to the dashboards, the journal (its reads) and every route of the strategy
    controller but the constant answer of its health check. *)
Inductive user_view : forall A, DeskAsync A -> Prop :=
| uv_dashboard A m : dashboard_view A m -> user_view A m
| uv_telemetry : user_view _ (telemetry STRATEGY_PAIRS)
| uv_pulse : user_view _ (publicPulse STRATEGY_PAIRS)
| uv_candles sym tf n : user_view _ (candles sym tf n)
| uv_status : user_view _ (status envRisk LIVE_MODE STRATEGY_PAIRS MT5_MODE me)
| uv_positions : user_view _ (openPositions me)
| uv_recent limit : user_view _ (recentTrades me limit)
| uv_points h sid m acc : user_view _ (equityPoints me h sid m acc)
| uv_my_sessions sched limit : user_view _ (sessions sched me limit)
| uv_detail id : user_view _ (sessionDetail me id)
| uv_overview id : user_view _ (accountOverview me id)
| uv_health sched1 sched2 : user_view _ (loopHealth LIVE_MODE STRATEGY_PAIRS sched1 sched2 me)
| uv_operator A m : operator_route A m -> user_view A m.

Ltac mine := let now := fresh "now" in let d := fresh "d" in let Hd := fresh "Hd" in
  intros now d Hd; unfold owned_snapshots, owned_sessions, enabled_count, traded_in, session_fills;
  change (tb_sessions (restrict u U d)) with (tb_sessions d);
  rewrite <- ?(trades_of_restrict u U d Hd), <- ?(accounts_of_restrict u U d Hd),
          <- ?(owned_restrict u U ls_accountId (rows_of (tb_sessions d)) d Hd), ?(owned_snaps_restrict u U d Hd);
  try reflexivity.
Ltac private_step :=
  first [ done
        | match goal with
          | |- private _ _ (await (select _) _) => apply private_select; [mine|intros ? ? ?]
          | |- private _ _ (select _) => apply private_read; mine
          | |- private _ _ (await _ _) => apply private_await; [|intros ?]
          | |- private _ _ (match ?x with _ => _ end) => destruct x eqn:?
          end ].

(** The rows of a session with their accounts: the accounts are the user's own. *)
Lemma fills_mine sid : reads_mine u U (fun _ => session_fills (Some u) sid).
Proof.
  intros now d Hd. unfold session_fills. rewrite <- (trades_of_restrict u U d Hd).
  apply list_fmap_ext. intros i t Ht. f_equal. simpl.
  apply list_elem_of_lookup_2, list_elem_of_filter in Ht as [_ Ht]. unfold trades_of, rows_of in Ht.
  apply list_elem_of_fmap in Ht as ([id t'] & -> & Ht). apply elem_of_map_to_list, map_lookup_filter_Some in Ht as [_ Ho].
  apply (owns_mine u U d) in Ho; [|done]. simpl in *. destruct (account t') as [a|]; [|done]. simpl in *.
  apply bool_decide_eq_true in Ho. destruct (tb_accounts d !! a) as [r|] eqn:Er.
  - by rewrite (map_lookup_filter_Some_2 _ _ _ r Er).
  - by rewrite map_lookup_filter_None_2 by auto.
Qed.

Lemma recompute_private s : pv (recomputeSessionAggregates s (Some u)).
Proof. unfold recomputeSessionAggregates. apply private_select; [apply fills_mine|done]. Qed.

(** Queries over the user's accounts, once their identifiers were answered. *)
Lemma snapshots_mine {A} (f : Z -> list EquitySnapshot -> A) ids :
  Forall (fun a => a ∈ U) ids -> reads_mine u U (fun now d => f now (snapshots_of ids d)).
Proof. intros Hi now d _. by rewrite <- (snapshots_of_restrict u U ids d Hi). Qed.

(** The journal: the entries of the user's trades and the user's notes. *)
Lemma trades_in_mine from to_ d t : t ∈ trades_in u from to_ d -> t ∈ trades_of u d.
Proof. unfold trades_in, oldest. rewrite sort_by_perm. by intros [_ H]%list_elem_of_filter. Qed.
Lemma trades_in_restrict from to_ d : ownership u U d -> trades_in u from to_ d = trades_in u from to_ (restrict u U d).
Proof. intros Hd. unfold trades_in. by rewrite <- (trades_of_restrict u U d Hd). Qed.
Lemma day_trades_mine from to_ : reads_mine u U (fun _ => day_trades u from to_).
Proof.
  intros now d Hd. unfold day_trades. rewrite <- (trades_in_restrict _ _ _ Hd). apply list_fmap_ext. intros i t Ht.
  apply list_elem_of_lookup_2, trades_in_mine in Ht. unfold trade_view. simpl.
  by rewrite !(my_trade_row u U _ d t Hd Ht).
Qed.
Lemma month_trades_mine from to_ : reads_mine u U (fun _ => month_trades u from to_).
Proof.
  intros now d Hd. unfold month_trades. rewrite <- (trades_in_restrict _ _ _ Hd). apply list_fmap_ext. intros i t Ht.
  apply list_elem_of_lookup_2, trades_in_mine in Ht. unfold with_journal. simpl.
  by rewrite (my_trade_row u U _ d t Hd Ht).
Qed.
Lemma notes_mine from to_ : reads_mine u U (fun _ => notes_in u from to_).
Proof.
  intros now d _. unfold notes_in. do 2 f_equal. simpl. rewrite map_filter_filter. apply map_filter_ext. simpl. tauto.
Qed.
Lemma dashboard_private A (m : DeskAsync A) : dashboard_view A m -> pv m.
Proof.
  intros [first f limit offset|days|sid acc|sid acc|sched limit|sid|h l sid m' acc| |days| |first date|first month|].
  - unfold listTrades. apply private_await; [|done]. apply private_both; mine.
  - unfold stats. repeat private_step.
  - unfold sessionTrades. repeat private_step.
  - unfold sessionStats. repeat private_step.
  - unfold listSessions. do 2 private_step. apply private_bind; [|done]. apply private_par_all, Forall_fmap, Forall_forall. intros s _. apply recompute_private.
  - unfold getSession. repeat private_step. all: apply recompute_private.
  - unfold equityHistory. cbv zeta beta. repeat private_step.
  - unfold snapshot. apply private_select; [mine|]. intros now0 d0 Hd0.
    pose proof (accounts_of_ids u U d0 Hd0) as Hids. destruct (ba_id <$> accounts_of u d0) as [|a ids]; [done|].
    do 2 (apply private_select; [by apply (snapshots_mine (fun _ l => head (_ l)))|intros ? ? ?]).
    apply private_select; [by apply (snapshots_mine (fun now l => head (oldest es_takenAt (filter (fun s => (month_start now <=? es_takenAt s)%Z = true) l))))|intros ? ? ?].
    private_step. apply private_select; [by apply (snapshots_mine (fun _ l => es_equity <$> oldest es_takenAt l))|done].
  - unfold equityCurve. apply private_select; [mine|]. intros now0 d0 Hd0.
    pose proof (accounts_of_ids u U d0 Hd0) as Hids. destruct (ba_id <$> accounts_of u d0) as [|a ids]; [done|].
    apply private_select; [|done].
    by apply (snapshots_mine (fun now l => oldest es_takenAt (filter (fun s => (now - Z.of_nat (default 90%nat days) * 86400000 <=? es_takenAt s)%Z = true) l))).
  - unfold riskUsedToday. apply private_select; [mine|]. intros now0 d0 Hd0.
    pose proof (accounts_of_ids u U d0 Hd0) as Hids. destruct (ba_id <$> accounts_of u d0) as [|a ids]; [done|].
    apply private_select.
    { intros now d _. simpl. symmetry. destruct (tb_users d !! u) as [r|] eqn:E.
      - by apply map_lookup_filter_Some_2.
      - apply map_lookup_filter_None_2. auto. }
    intros now1 d1 _. destruct (tb_users d1 !! u); [|done]. private_step.
    apply private_select; [by apply (snapshots_mine (fun _ l => head (newest es_takenAt l)))|intros ? ? ?]. repeat private_step.
  - unfold getDay. destruct (Date_parse _); [|done]. apply private_await; [|by intros [? ?]].
    apply private_both; [apply day_trades_mine|]. intros now d _. by rewrite (my_note_row u U d).
  - unfold getMonthAggregate. destruct (parse_month _) as [[yy mm]|]; [|done]. apply private_await; [|by intros [? ?]].
    apply private_both; [apply month_trades_mine|apply notes_mine].
  - unfold getAvailableMonths. apply private_select; [mine|done].
Qed.

(** *** The strategy controller *)
Lemma me_not_super : is_super me = false.
Proof. by apply bool_decide_eq_false. Qed.
Lemma private_or_null {A} (m : DeskAsync A) : pv m -> pv (or_null m).
Proof. intros H. by apply private_bind. Qed.
Lemma private_read_mem {A} (f : ControlMem -> A) : pv (read_mem f).
Proof. by split. Qed.
Lemma private_clock : pv read_clock.
Proof. by split. Qed.
Lemma last_snapshot_mine {A} id (k : option EquitySnapshot -> DeskAsync A) :
  id ∈ U -> (forall s, pv (k s)) -> pv (await (select (fun _ => last_snapshot id)) k).
Proof.
  intros Hid Hk. apply private_select; [|done]. intros now d _. unfold last_snapshot.
  by rewrite (snapshots_of_restrict u U [id] d) by (by constructor).
Qed.

Lemma status_private : pv (status envRisk LIVE_MODE STRATEGY_PAIRS MT5_MODE me).
Proof.
  unfold status. rewrite me_not_super. apply private_await; [apply private_read_mem|]. intros base.
  apply private_await; [|done]. apply private_or_null. split; [|done]. unfold EngineMemory.getState.
  apply emits_await; [by split|done].
Qed.
Lemma telemetry_private : pv (telemetry STRATEGY_PAIRS).
Proof. split; [|done]. split; [done|]. intros now. by split. Qed.
Lemma pulse_private : pv (publicPulse STRATEGY_PAIRS).
Proof. split; [|done]. by split. Qed.
Lemma candles_private sym tf n : pv (candles sym tf n).
Proof. unfold candles. apply private_select; [done|]. intros now d _. by destruct (chart_rows _ _ _ d). Qed.
Lemma operator_refused A (m : DeskAsync A) : operator_route A m -> exists e, m = reject e.
Proof.
  assert (Ha : forall B (p : DeskAsync B), exists e, admin_only me p = reject e).
  { intros B p. unfold admin_only, RefreshTokens.canActivate. rewrite bool_decide_eq_false_2; [by eexists|].
    by intros ?%list_elem_of_singleton. }
  intros [dto| | |symbol| |dto]; try apply Ha. unfold resetCircuitBreaker. rewrite me_not_super. by eexists.
Qed.

Lemma pair_health_private sym : pv (pair_health sym).
Proof.
  unfold pair_health. apply private_await; [done|]. intros lastPoll.
  apply private_select; [done|]. intros now d Hd. apply private_await; [|done].
  destruct (truthy_opt lastPoll); [|done]. apply private_await; [apply private_clock|done].
Qed.
Lemma account_health_private running a : ba_id a ∈ U -> pv (account_health running a).
Proof.
  intros Ha. apply last_snapshot_mine; [done|]. intros [s|]; [|done].
  apply private_await; [|done]. apply private_await; [apply private_clock|done].
Qed.
Lemma visible_mine d : ownership u U d -> visible_accounts me d = visible_accounts me (restrict u U d) /\
  Forall (fun a => ba_id a ∈ U) (visible_accounts me d).
Proof.
  intros Hd. unfold visible_accounts. rewrite me_not_super, me_user. split; [by rewrite <- accounts_of_restrict|].
  pose proof (accounts_of_ids u U d Hd) as Hi. rewrite Forall_fmap in Hi. apply Forall_forall. intros a Ha.
  apply list_elem_of_In, filter_In in Ha as [Ha _]. rewrite Forall_forall in Hi. apply Hi. by apply list_elem_of_In.
Qed.
Lemma loopHealth_private sched1 sched2 : pv (loopHealth LIVE_MODE STRATEGY_PAIRS sched1 sched2 me).
Proof.
  unfold loopHealth. apply private_await.
  { apply private_promise_all, Forall_fmap, Forall_forall. intros sym _. apply pair_health_private. }
  intros ages. apply private_await; [by apply private_or_null|]. intros exec. apply private_await.
  { apply private_fold_each. intros acc sym. unfold on_fallback. apply private_await; [done|].
    intros m15. apply private_await; [|done]. destruct m15; [done|done]. }
  intros fallback. apply private_await; [apply private_read_mem|]. intros running.
  apply private_select; [intros now d Hd; by apply visible_mine|]. intros now d Hd.
  destruct (visible_mine d Hd) as [_ Hall]. apply private_await.
  { apply private_promise_all, Forall_fmap. eapply Forall_impl; [exact Hall|]. intros a Ha. by apply account_health_private. }
  intros accounts. apply private_await; [apply private_clock|done].
Qed.

Lemma own_account_mine id d : ownership u U d -> own_account me id d = own_account me id (restrict u U d) /\
  (is_Some (own_account me id d) -> id ∈ U).
Proof.
  intros Hd. unfold own_account. simpl. rewrite me_user. destruct (tb_accounts d !! id) as [r|] eqn:Er.
  - destruct (ow_accounts u U d Hd _ _ Er) as [_ Hu]. case_bool_decide as E.
    + apply Hu in E. rewrite (map_lookup_filter_Some_2 _ _ _ r) by done. rewrite bool_decide_eq_true_2 by tauto. done.
    + rewrite map_lookup_filter_None_2; [split; [done|by intros []]|]. right. intros x Hx. simplify_eq. tauto.
  - rewrite map_lookup_filter_None_2 by auto. split; [done|by intros []].
Qed.
Lemma overview_private id : pv (accountOverview me id).
Proof.
  unfold accountOverview. apply private_select; [intros now d Hd; by apply own_account_mine|]. intros now d Hd.
  destruct (own_account_mine id d Hd) as [_ Hid]. destruct (own_account me id d) as [a|]; [|done].
  specialize (Hid ltac:(eauto)). apply private_await; [by apply private_or_null|]. intros live.
  apply private_await; [destruct live; [by apply private_or_null|done]|]. intros positions.
  apply private_await; [|done]. destruct live; [done|]. by apply last_snapshot_mine.
Qed.

Lemma user_view_private A (m : DeskAsync A) : user_view A m -> pv m.
Proof.
  intros [B v Hv| | |sym tf n| | |limit|h sid mode acc|sched limit|id|id|sched1 sched2|B v Hv].
  - by apply dashboard_private.
  - apply telemetry_private.
  - apply pulse_private.
  - apply candles_private.
  - apply status_private.
  - unfold openPositions. by rewrite me_not_super.
  - destruct limit; [|done]. simpl. rewrite me_user. apply private_read. mine.
  - unfold equityPoints. apply private_await; [apply private_read_mem|]. intros c. rewrite me_user. apply dashboard_private, uv_equity.
  - unfold sessions. rewrite me_not_super, me_user. apply dashboard_private, uv_sessions.
  - unfold sessionDetail. rewrite me_not_super, me_user. apply dashboard_private, uv_session.
  - apply overview_private.
  - apply loopHealth_private.
  - by destruct (operator_refused B v Hv) as [e ->].
Qed.

(** C15: Tenant isolation: for a user who is no administrator, every route of the strategy
    controller and every read of the dashboards and the journal writes nothing, neither to
    the database nor to Redis nor to the memory of the engine, asks about no broker account but the
    user's own (never the house account), and cannot tell apart two databases that differ
    only in the users, accounts, trades, candidates, snapshots, notes and journals of
    others, whatever happens to the database between its statements and whatever its other
    effects answer.  The controller's six routes that act are refused before any effect.
    What all tenants share (candles, session rows, the engine's switch, its memory and the
    breaker) is not hidden. *)
Theorem tenant_isolation A (m : DeskAsync A) env ds ds' :
  user_view A m ->
  (forall n, ownership u U (ds n).2 /\ ownership u U (ds' n).2 /\ (ds n).1 = (ds' n).1 /\
             restrict u U (ds n).2 = restrict u U (ds' n).2) ->
  private u U m /\ eval_in env m ds = eval_in env m ds' /\ (operator_route A m -> exists e, m = reject e).
Proof.
  intros Hm Hd. pose proof (user_view_private A m Hm) as Hp. split; [done|].
  split; [by apply (private_eval u U)|apply operator_refused].
Qed.
End tenant.

(** ** The statistics add up *)
Fixpoint total {A} (inc : A -> Z) (l : list A) : Z :=
  match l with [] => 0 | x :: l' => inc x + total inc l' end.
Definition weight {V} (w : V -> Z) : list (string * V) -> Z := total (fun kv => w kv.2).

Lemma weight_set {V} (w : V -> Z) k v m : weight w (map_set k v m) = weight w m + w v - default 0 (w <$> map_get k m).
Proof.
  unfold weight. induction m as [|[k' v'] m IH]; simpl; [lia|].
  case_bool_decide; simpl; [lia|]. rewrite IH. lia.
Qed.

Lemma map_set_keys {V} k (v : V) m : (map_set k v m).*1 = if bool_decide (k ∈ m.*1) then m.*1 else m.*1 ++ [k].
Proof.
  induction m as [|[k' v'] m IH]; [done|]. cbn [map_set]. rewrite (fmap_cons fst (k', v') m). cbn [fst].
  destruct (decide (k' = k)) as [->|Hne].
  - rewrite bool_decide_eq_true_2 by done. by rewrite bool_decide_eq_true_2 by left.
  - rewrite bool_decide_eq_false_2 by done. rewrite fmap_cons, IH. cbn [fst].
    assert (k ∈ k' :: m.*1 <-> k ∈ m.*1) as Hiff by (rewrite elem_of_cons; naive_solver).
    rewrite (bool_decide_ext _ _ Hiff). by case_bool_decide.
Qed.
Lemma map_set_NoDup {V} k (v : V) m : NoDup m.*1 -> NoDup (map_set k v m).*1.
Proof.
  intros H. rewrite map_set_keys. case_bool_decide; [done|]. apply NoDup_app. split_and!; [done| |apply NoDup_singleton].
  intros x Hx ->%list_elem_of_singleton. done.
Qed.

(** A tally adds one to the weight for each element counted. *)
Lemma tally_weight {V A} (w : V -> Z) (key : A -> string) (v0 : V) (add : V -> A -> V) (inc : A -> Z) l m :
  w v0 = 0 -> (forall v a, w (add v a) = w v + inc a) ->
  weight w (foldl (fun m a => map_set (key a) (add (default v0 (map_get (key a) m)) a) m) m l) =
    weight w m + total inc l.
Proof.
  intros H0 Hadd. revert m. induction l as [|a l IH]; intros m; simpl; [lia|].
  rewrite IH, weight_set, Hadd. destruct (map_get (key a) m); simpl; lia.
Qed.
Lemma tally_NoDup {V A} (key : A -> string) (f : list (string * V) -> A -> V) l m :
  NoDup m.*1 -> NoDup (foldl (fun m a => map_set (key a) (f m a) m) m l).*1.
Proof. revert m. induction l as [|a l IH]; intros m Hm; simpl; [done|]. by apply IH, map_set_NoDup. Qed.

Lemma sum_ones {A} (l : list A) : total (fun _ => 1) l = zlen l.
Proof. unfold zlen. induction l as [|x l IH]; simpl; [done|]. rewrite IH. lia. Qed.
Lemma sum_flag {A} (P : A -> bool) (l : list A) :
  total (fun x => if P x then 1 else 0) l = count P l.
Proof.
  unfold count, zlen. induction l as [|x l IH]; [done|]. rewrite filter_cons. simpl. rewrite IH.
  destruct (P x); [rewrite decide_True by done; simpl; lia|rewrite decide_False by done; lia].
Qed.

Lemma filter_len_le {A} (P : A -> Prop) `{!forall x, Decision (P x)} (l : list A) : zlen (filter P l) <= zlen l.
Proof. unfold zlen. pose proof (length_filter P l). lia. Qed.

(** Two tests that exclude each other. *)
Lemma filter_disjoint_le {A} (P Q : A -> Prop) `{!forall x, Decision (P x)} `{!forall x, Decision (Q x)} (l : list A) :
  (forall x, P x -> Q x -> False) -> zlen (filter P l) + zlen (filter Q l) <= zlen l.
Proof.
  intros HPQ. unfold zlen. induction l as [|x l IH]; [done|]. rewrite !filter_cons.
  repeat case_decide; simpl; try lia. by destruct (HPQ x).
Qed.

Lemma weight_fmap {V V'} (w : V' -> Z) (f : V -> V') (m : list (string * V)) :
  weight w ((fun kv => (kv.1, f kv.2)) <$> m) = weight (fun v => w (f v)) m.
Proof. unfold weight. induction m as [|kv m IH]; [done|]. rewrite fmap_cons. simpl. by rewrite IH. Qed.

(** The statistics of any list of trades add up: wins and losses are different closed
    trades, closed and open ones different trades; each exit reason and each symbol is
    listed once, the reasons count every closed trade once, and the trades, wins and
    losses of the symbols add up to those of the whole. *)
Theorem statistics_add_up trades :
  let s := compute trades in
  st_wins s + st_losses s <= st_closedTrades s /\
  st_closedTrades s + st_openTrades s <= st_totalTrades s /\
  NoDup (st_exitReasons s).*1 /\ weight id (st_exitReasons s) = st_closedTrades s /\
  NoDup (st_perPair s).*1 /\ weight ps_trades (st_perPair s) = st_closedTrades s /\
  weight ps_wins (st_perPair s) = st_wins s /\ weight ps_losses (st_perPair s) = st_losses s.
Proof.
  unfold compute. cbn [st_wins st_losses st_closedTrades st_openTrades st_totalTrades st_exitReasons st_perPair].
  set (closed := filter (fun t => outcome_closed t = true) trades). split_and!.
  - apply filter_disjoint_le. intros t H1 H2. apply nltb_trans with (x := of_Z 0) in H2; [|exact H1]. by rewrite nltb_irrefl in H2.
  - apply filter_disjoint_le. unfold outcome_closed. intros t [H1 _]%andb_true_iff H2.
    apply bool_decide_eq_true in H1, H2. congruence.
  - apply tally_NoDup. constructor.
  - unfold exit_reasons, count_reason. rewrite (tally_weight id _ 0 (fun n _ => n + 1) (fun _ => 1)) by done.
    by rewrite sum_ones.
  - unfold per_pair. rewrite <- list_fmap_compose. apply (tally_NoDup trade_symbol (fun m t => pair_add _ t)). constructor.
  - unfold per_pair. rewrite (weight_fmap ps_trades pair_finish). unfold count_pair.
    rewrite (tally_weight (fun v => ps_trades (pair_finish v)) _ no_pair pair_add (fun _ => 1)) by done. by rewrite sum_ones.
  - unfold per_pair. rewrite (weight_fmap ps_wins pair_finish). unfold count_pair.
    rewrite (tally_weight (fun v => ps_wins (pair_finish v)) _ no_pair pair_add (fun t => if pnl_of t >? of_Z 0 then 1 else 0)%num).
    + by rewrite sum_flag.
    + done.
    + intros v t. simpl. destruct (pnl_of t >? of_Z 0)%num; lia.
  - unfold per_pair. rewrite (weight_fmap ps_losses pair_finish). unfold count_pair.
    rewrite (tally_weight (fun v => ps_losses (pair_finish v)) _ no_pair pair_add (fun t => if pnl_of t <? of_Z 0 then 1 else 0)%num).
    + by rewrite sum_flag.
    + done.
    + intros v t. simpl. destruct (pnl_of t >? of_Z 0)%num eqn:E1, (pnl_of t <? of_Z 0)%num eqn:E2; simpl; try lia.
      apply nltb_trans with (x := of_Z 0) in E2; [|exact E1]. by rewrite nltb_irrefl in E2.
Qed.

(** ** Sessions belong to no account *)
Section sessions.
Context (LIVE_MODE STRATEGY_PAIRS METAAPI_ID : option string).
Definition unowned (d : Tables) : Prop := forall id s, tb_sessions d !! id = Some s -> ls_accountId s = None.
Definition keeps_unowned (e : DeskAct) : Prop :=
  match e with Stmt A f => forall now id d, unowned d -> unowned (f now id d).1 | _ => True end.

Lemma unowned_insert d id s : unowned d -> ls_accountId s = None -> unowned (set_sessions (<[id := s]> (tb_sessions d)) d).
Proof. intros Hd Hs i s'. simpl. intros [[_ <-]|[_ H]]%lookup_insert_Some; [done|]. by apply Hd in H. Qed.

Inductive desk_request : DeskProg unit -> Prop :=
| dr_start input : desk_request (detached (start LIVE_MODE STRATEGY_PAIRS METAAPI_ID input))
| dr_stop : desk_request (detached stop)
| dr_boot : desk_request (detached (onModuleInit LIVE_MODE))
| dr_equity sched : desk_request (detached (takeSnapshot LIVE_MODE sched)).

Ltac sweep := repeat first
  [ done
  | match goal with
    | |- forall _, _ => intro
    | |- keeps_unowned _ => by intros ? ? ? ?
    | |- emits _ (await _ _) => apply emits_await
    | |- emits _ (pbind _ _) => apply emits_bind
    | |- emits _ (try_catch _ _) => apply emits_bind
    | |- emits _ (swallow _) => apply emits_bind
    | |- emits _ (match ?x with _ => _ end) => destruct x
    | |- emits _ (ask_desk _) => split
    | |- emits _ (select _) => split
    | |- emits _ (execute_sql _) => split
    | |- emits _ (redis_set _) => split
    | |- emits _ (redis_get _) => split
    end ].

Lemma desk_request_unowned p : desk_request p -> emits keeps_unowned p.
Proof.
  intros [input| | |sched]; apply emits_detached.
  - unfold start, start_equity, reset_mock. sweep.
    + intros now id d Hd i s. simpl. rewrite lookup_fmap. destruct (tb_sessions d !! i) as [s0|] eqn:E; [|done].
      intros [= <-]. apply Hd in E. by destruct (orphan _ _).
    + intros now id d Hd. by apply unowned_insert.
  - unfold stop, finalize_current. sweep. intros now id d Hd. unfold end_session.
    match goal with |- context [match ?x with Some _ => _ | None => _ end] => destruct x as [cur|] end; [|done].
    destruct (tb_sessions d !! cur) as [r|] eqn:E; [|done]. apply unowned_insert; [done|]. simpl. by apply Hd in E.
  - unfold onModuleInit. sweep.
  - unfold takeSnapshot. sweep. apply emits_par_all, Forall_fmap, Forall_forall. intros acc _. unfold compose, snapshotAccount. sweep.
Qed.

(** The administrator's views look for the sessions of the administrator's own accounts. *)
Lemma admin_sees_no_session c c' u :
  rtc (pstep (desk_sem true) desk_request) c c' -> threads c = [] -> unowned (dk_db (shared c)) ->
  owned_sessions u (dk_db (shared c')) = [].
Proof.
  intros Hr Ht Hu.
  assert (unowned (dk_db (shared c'))) as H.
  { assert (PreOrder (fun _ _ : Desk => True)) by by split.
    eapply (pool_invariant (desk_sem true) desk_request keeps_unowned (fun w => unowned (dk_db w)) (fun _ _ => True));
      [exact desk_request_unowned| |exact Hr|by rewrite Ht|exact Hu].
    intros i e s s' x He Hs Hx. split; [|done]. destruct e; simpl in *; try by subst.
    - destruct Hx as [(now & id & _ & -> & _)|[-> _]]; [|done]. unfold commit_db.
      destruct (f now id (dk_db s)).2; [apply He|]; done.
    - by destruct Hx as [[-> _]|(_ & -> & _)].
    - by destruct Hx as [[-> _]|(_ & -> & _)].
    - destruct Hx as [now [= -> _]]. done.
    - destruct Hx as [t ->]. exact Hs. }
  unfold owned_sessions, rows_of. destruct (filter _ _) as [|s l] eqn:E; [done|].
  assert (s ∈ s :: l) as Hin by by left. rewrite <- E in Hin. apply list_elem_of_filter in Hin as [Ho Hs].
  apply list_elem_of_fmap in Hs as ([id s'] & -> & Hs). apply elem_of_map_to_list in Hs.
  simpl in *. by rewrite (H _ _ Hs) in Ho.
Qed.
End sessions.

(** * Theorems about the administrator's dashboard

    The flags are exactly those the users' states call for, and the status of the strategy
    never improves when the evidence gets worse. *)
From Stdlib Require Import SpecFloat.
From S2P Require Import Prelude Async JsNum JsDate Types MarketTypes LiveTypes AuthTypes MarketData DeskTypes LiveControl Analytics.
Notation lv := (leaves (desk_sem true) 0).
Definition same (w0 : Desk) (w : Desk) : Prop := w = w0.

(** Queries of a desk that nobody changes. *)
Lemma asked {A} w0 (q : Z -> Tables -> A) :
  lv (same w0) (select q) (fun r w => same w0 w /\ forall a, r = Ok a -> exists now, a = q now (dk_db w0)).
Proof.
  intros w w' r -> (w1 & x & Hx & -> & ->). simpl in Hx. destruct Hx as [(now & id & _ & -> & ->)|[-> [e ->]]].
  - split; [by destruct w0|]. intros a [= <-]. eauto.
  - split; [done|]. intros a [=].
Qed.
Lemma asked_then {A B} w0 (q : Z -> Tables -> A) (k : A -> DeskAsync B) (Q : Res B -> Prop) :
  (forall e, Q (Throw e)) -> (forall now, lv (same w0) (k (q now (dk_db w0))) (fun r w => same w0 w /\ Q r)) ->
  lv (same w0) (x <~ select q ;; k x)%async (fun r w => same w0 w /\ Q r).
Proof.
  intros He Hk. eapply leaves_await with (M := fun a w => same w0 w /\ exists now, a = q now (dk_db w0)).
  - eapply leaves_conseq; [intros w Hw; exact Hw| |apply asked]. intros [a|e] w [Hw Ha]; [eauto|auto].
  - intros a w w' r [Hw [now ->]]. by apply Hk.
Qed.
Lemma answered_with {B} w0 (b : B) (Q : Res B -> Prop) :
  Q (Ok b) -> lv (same w0) (resolve b) (fun r w => same w0 w /\ Q r).
Proof. intros H. apply leaves_ret. auto. Qed.

(** ** The drawdown the snapshot shows *)
Definition drawdown_of (u : string) (d : Tables) : num :=
  match ba_id <$> accounts_of u d with
  | [] => of_Z 0
  | ids => max_drawdown (es_equity <$> oldest es_takenAt (snapshots_of ids d))
  end.
Lemma snapshot_drawdown w0 u :
  lv (same w0) (snapshot u) (fun r w => same w0 w /\ forall s, r = Ok s -> sn_maxDd s = drawdown_of u (dk_db w0)).
Proof.
  unfold snapshot, drawdown_of.
  eapply (asked_then w0 _ _ (fun r => forall s, r = Ok s -> sn_maxDd s = match ba_id <$> accounts_of u (dk_db w0) with [] => _ | _ => _ end));
    [done|]. intros _. destruct (ba_id <$> accounts_of u (dk_db w0)) as [|a ids].
  - apply answered_with. by intros s [= <-].
  - do 5 (eapply (asked_then w0 _ _ (fun r => forall s, r = Ok s -> sn_maxDd s = _)); [done|intros ?]).
    apply answered_with. by intros s [= <-].
Qed.

Lemma StronglySorted_impl' {A} (R R' : A -> A -> Prop) l :
  (forall a b, R a b -> R' a b) -> StronglySorted R l -> StronglySorted R' l.
Proof. intros H. induction 1; constructor; [done|]. by eapply Forall_impl; [|intros]; eauto. Qed.

(** ** Flags *)
Definition flags_for (now : Z) (d : Tables) (ua : UserRow * list AccountRow) : list Flag :=
  pause_flag now ua.1 ++ inactive_flag now ua.1 (enabled_of ua.2) ++ no_accounts_flag ua.1 (enabled_of ua.2) ++
  (if (drawdown_of (usr_id ua.1) d >? DD_ALERT_PCT)%num
   then [flag_of ua.1 DD_ALERT loss (toFixed1 (drawdown_of (usr_id ua.1) d) +:+ "% drawdown") (Some "threshold: 5%"%string)] else []).

Lemma user_flags_spec w0 now ua :
  lv (same w0) (user_flags now ua) (fun r w => same w0 w /\ forall l, r = Ok l -> l = flags_for now (dk_db w0) ua).
Proof.
  unfold user_flags, flags_for, dd_flag.
  eapply leaves_await with (M := fun s w => same w0 w /\ sn_maxDd s = drawdown_of (usr_id ua.1) (dk_db w0)).
  - eapply leaves_conseq; [intros w Hw; exact Hw| |apply snapshot_drawdown]. intros [s|e] w [Hw Hs]; [auto|done].
  - intros s w w' r [Hw Hs] [-> ->]. split; [done|]. intros l [= <-]. by rewrite Hs.
Qed.

Lemma collect_flags w0 now users acc :
  lv (same w0) (fold_each (fun flags ua => l <~ user_flags now ua ;; resolve (flags ++ l)) users acc)%async
    (fun r w => same w0 w /\ forall l, r = Ok l -> l = acc ++ (users ≫= flags_for now (dk_db w0))).
Proof.
  revert acc. induction users as [|ua users IH]; intros acc; simpl.
  - apply leaves_ret. intros w Hw. split; [done|]. intros l [= <-]. by rewrite app_nil_r.
  - eapply leaves_await with (M := fun l w => same w0 w /\ l = acc ++ flags_for now (dk_db w0) ua).
    + eapply leaves_await with (M := fun l w => same w0 w /\ l = flags_for now (dk_db w0) ua).
      * eapply leaves_conseq; [intros w Hw; exact Hw| |apply user_flags_spec]. intros [l|e] w [Hw Hl]; [auto|done].
      * intros l w w' r [Hw ->] [-> ->]. done.
    + intros l w w' r [Hw ->] Hr. destruct (IH _ _ _ _ Hw Hr) as [Hw' Hl]. split; [done|]. intros l' E.
      rewrite (Hl l' E). by rewrite <- app_assoc.
Qed.

(** The flags of the dashboard are exact: when nothing else touches the desk while they
    are computed, nothing is written, and the answer holds, worst severity first, exactly
    the flags that the pause, the last login, the accounts and the drawdown of each user
    call for at one moment. *)
Theorem flags_are_exact w w' flags :
  alone (desk_sem true) 0 computeFlags w w' (Ok flags) ->
  w' = w /\ exists now, flags ≡ₚ (users_in_order (dk_db w) ≫= flags_for now (dk_db w)) /\
    StronglySorted (fun a b => sev_order (fl_severity a) <= sev_order (fl_severity b)) flags.
Proof.
  assert (H : lv (same w) computeFlags (fun r w1 => same w w1 /\ forall flags, r = Ok flags -> exists now,
    flags ≡ₚ (users_in_order (dk_db w) ≫= flags_for now (dk_db w)) /\
    StronglySorted (fun a b => sev_order (fl_severity a) <= sev_order (fl_severity b)) flags)).
  { unfold computeFlags. eapply (asked_then w _ _ (fun r => forall flags, r = Ok flags -> exists now, _ /\ _)); [done|]. intros _.
    eapply leaves_await with (M := fun now w1 => same w w1).
    { intros w1 w2 r -> (w3 & x & [now Hx] & -> & ->). simpl in Hx. injection Hx as -> ->. by destruct w. }
    intros now. eapply leaves_await with (M := fun l w1 => same w w1 /\ l = users_in_order (dk_db w) ≫= flags_for now (dk_db w)).
    { eapply leaves_conseq; [intros w1 Hw; exact Hw| |apply (collect_flags w now)]. intros [l|e] w1 [Hw Hl]; [auto|done]. }
    intros l w1 w2 r [Hw ->] [-> ->]. split; [done|]. intros fl [= <-]. exists now. unfold by_severity. split; [apply sort_by_perm|].
    eapply StronglySorted_impl'; [|apply sort_by_sorted; intros *; rewrite ?Z.leb_le; lia]. intros a b. simpl. apply Z.leb_le. }
  intros Ha. destruct (H w w' (Ok flags) eq_refl Ha) as [-> He]. auto.
Qed.

(** ** The status *)
Definition rank (s : StrategyStatus) : Z := match s with HEALTHY => 0 | WATCHING => 1 | DEGRADED => 2 end.
Definition loss_flags (l : list Flag) : Z := count (fun f => match fl_severity f with loss => true | _ => false end) l.

Lemma over_le c x y : (x >? c)%num = true -> nleb x y = true -> (y >? c)%num = true.
Proof. apply nltb_nleb_trans. Qed.

Lemma status_monotone flags flags' a a' b b' n n' :
  loss_flags flags <= loss_flags flags' -> nleb (nabs a) (nabs a') = true -> nleb (nabs b) (nabs b') = true -> n <= n' ->
  rank (computeStatus flags a b n) <= rank (computeStatus flags' a' b' n').
Proof.
  intros Hf Ha Hb Hn. unfold computeStatus. fold (loss_flags flags) (loss_flags flags').
  pose proof (fun h => over_le (of_Z 5) _ _ h Ha) as H5. pose proof (fun h => over_le (of_Z 3) _ _ h Ha) as H3.
  pose proof (fun h => over_le (lit 15 2) _ _ h Hb) as H15.
  destruct ((2 <=? loss_flags flags') || (nabs a' >? of_Z 5)%num || ((nabs b' >? lit 15 2)%num && (30 <=? n'))) eqn:E'.
  - repeat case_match; simpl; lia.
  - apply orb_false_iff in E' as [[E1 E2]%orb_false_iff E3].
    destruct ((2 <=? loss_flags flags) || (nabs a >? of_Z 5)%num || ((nabs b >? lit 15 2)%num && (30 <=? n))) eqn:E.
    + exfalso. apply orb_true_iff in E as [[E|E]%orb_true_iff|E]; [lia|rewrite H5 in E2; done|].
      apply andb_true_iff in E as [E4 E5]. rewrite (H15 E4) in E3. simpl in E3. lia.
    + destruct ((1 <=? loss_flags flags) || (nabs a >? of_Z 3)%num) eqn:E4; [|repeat case_match; simpl; lia].
      assert ((1 <=? loss_flags flags') || (nabs a' >? of_Z 3)%num = true) as ->; [|done].
      apply orb_true_iff in E4 as [E4|E4]; apply orb_true_iff; [left; lia|right; by apply H3].
Qed.

(** ** The health of the trading loop *)

Lemma all_ok_values {A} (Qs : list (A -> Prop)) (rs : list (Res A)) l :
  Forall2 (fun (Q : Res A -> Prop) r => Q r) ((fun Q r => forall a, r = Ok a -> Q a) <$> Qs) rs ->
  all_ok rs = Ok l -> Forall2 (fun Q a => Q a) Qs l.
Proof.
  revert Qs l. induction rs as [|r rs IH]; intros [|Q Qs] l H Hl; inversion H; simplify_eq/=.
  - by apply Forall2_nil.
  - destruct r as [a|e]; [|done]. destruct (all_ok rs) as [l'|]; [|done]. simplify_eq. apply Forall2_cons; auto.
Qed.
Lemma wp_promise_all {A B} sched (f : B -> DeskAsync A) (P : B -> A -> Prop) (l : list B) :
  (forall x, x ∈ l -> wp (f x) (fun _ r => forall a, r = Ok a -> P x a)) ->
  wp (promise_all sched (f <$> l)) (fun _ r => forall ys, r = Ok ys -> Forall2 P l ys).
Proof.
  intros H. unfold promise_all. apply wp_bind.
  eapply wp_mono; [|apply (wp_par_all sched ((fun (Q : A -> Prop) r => forall a, r = Ok a -> Q a) <$> (P <$> l)))].
  - intros tr rs Hrs ys Hys. apply (all_ok_values _ _ _ Hrs) in Hys.
    apply Forall2_fmap_l in Hys. exact Hys.
  - rewrite <- list_fmap_compose. apply Forall2_fmap. apply Forall_Forall2_diag, Forall_forall. intros x Hx. by apply H.
Qed.

Lemma stale_none ages : stale_pairs ages = [] <-> Forall (fun p => stale_pair p = false) ages.
Proof.
  unfold stale_pairs. induction ages as [|p ages IH]; [done|]. simpl. rewrite Forall_cons. destruct (stale_pair p); [|tauto].
  split; [done|]. by intros [? _].
Qed.
Lemma unhealthy_none reachable pairs ages : length ages = length pairs ->
  unhealthy_reason reachable pairs ages = None <->
  reachable = true /\ pairs <> [] /\ Forall (fun p => stale_pair p = false) ages.
Proof.
  intros Hl. unfold unhealthy_reason. rewrite <- stale_none. destruct reachable; [|split; [done|by intros [? _]]]. cbn [negb].
  destruct (stale_pairs ages) as [|p l] eqn:E.
  - unfold zlen. simpl. destruct pairs as [|x pairs]; [split; [done|by intros (_ & [] & _)]|]. simpl.
    split; [intros _; split_and!; done|done].
  - split; [|by intros (_ & _ & ?)]. case_match; [done|]. replace (0 <? zlen (p :: l)) with true; [done|].
    symmetry. apply Z.ltb_lt. unfold zlen. simpl. lia.
Qed.
Lemma no_degraded fb accounts :
  degraded_reasons fb accounts = [] <-> fb = [] /\ Forall (fun a => ah_connected a <> Some false) accounts.
Proof.
  unfold degraded_reasons. rewrite app_nil. assert (H : (fun a => ah_name a +:+ " unreachable") <$> List.filter unreachable_account accounts = [] <->
    Forall (fun a => ah_connected a <> Some false) accounts).
  { induction accounts as [|a accounts IH]; [done|]. simpl. rewrite Forall_cons. unfold unreachable_account at 1.
    case_bool_decide as E; simpl; [split; [done|by intros [? _]]|tauto]. }
  rewrite H. destruct fb; [done|]. split; by intros [? _].
Qed.

(** The trading loop as it is reported: [alive] says that the service, the pairs and their
    heartbeats are all right. *)
Definition alive (pairs : list string) (h : LoopHealth) : Prop :=
  hl_executionReachable h = true /\ pairs <> [] /\ Forall (fun p => stale_pair p = false) (hl_pairs h).
Definition reports (pairs : list string) (h : LoopHealth) : Prop :=
  lh_symbol <$> hl_pairs h = pairs /\
  (hl_health h = Healthy <-> alive pairs h /\ hl_candleFallback h = [] /\
                             Forall (fun a => ah_connected a <> Some false) (hl_accounts h)) /\
  (hl_health h = Unhealthy <-> ~ alive pairs h) /\
  (hl_healthy h = true <-> hl_health h = Healthy).

Lemma loop_health_reports reachable mode pairs ages fb accounts now :
  lh_symbol <$> ages = pairs -> reports pairs (loop_health reachable mode pairs ages fb accounts now).
Proof.
  intros Hs. assert (Hl : length ages = length pairs) by (by rewrite <- Hs, length_fmap).
  pose proof (unhealthy_none reachable pairs ages Hl) as Hu. pose proof (no_degraded fb accounts) as Hd.
  unfold reports, alive, loop_health. simpl. split; [done|]. rewrite <- Hu, <- Hd.
  destruct (unhealthy_reason reachable pairs ages) as [why|], (degraded_reasons fb accounts) as [|x l]; simpl;
    split_and!; split; try done; try (by intros [? ?]); try (by intros []).
Qed.

(** When the loop's health is reported it covers the engine's pairs, each once and in order;
    it is healthy exactly when the execution service answered, there are pairs, no pair's
    heartbeat is missing or older than three minutes, none is on the fallback feed, and no
    account shown is known to be out of reach; it is unhealthy exactly when the service, the
    pairs or a heartbeat fails. *)
Theorem loop_health_exact LIVE_MODE STRATEGY_PAIRS sched1 sched2 me tr h :
  runs (loopHealth LIVE_MODE STRATEGY_PAIRS sched1 sched2 me) tr (Ok h) -> reports (trading_pairs STRATEGY_PAIRS) h.
Proof.
  intros Hr. revert h tr Hr. enough (Hw : wp (loopHealth LIVE_MODE STRATEGY_PAIRS sched1 sched2 me)
    (fun _ r => forall h, r = Ok h -> reports (trading_pairs STRATEGY_PAIRS) h)).
  { intros h tr Hr. rewrite wp_runs in Hw. by apply (Hw tr (Ok h)). }
  unfold loopHealth. apply wp_await.
  eapply wp_mono; [|apply (wp_promise_all sched1 pair_health (fun sym p => lh_symbol p = sym))].
  2:{ intros sym _. unfold pair_health. repeat (apply wp_await, wp_any; intros ? [?|?]; [|done]). by intros y [= <-]. }
  intros tr [ages|e] Hages; [|done]. specialize (Hages _ eq_refl).
  assert (Hs : lh_symbol <$> ages = trading_pairs STRATEGY_PAIRS).
  { clear -Hages. induction Hages as [|x y l k Hx _ IH]; [done|]. by rewrite fmap_cons, Hx, IH. }
  repeat (apply wp_await, wp_any; intros ? [?|?]; [|done]). intros h [= <-]. by apply loop_health_reports.
Qed.
