(* ===== verification/JournalFacts.v ===== *)
(** * Theorems about the journal

    The calendar of a month agrees with the views of its days: every trade of the month is
    counted on the day it was created and on no other. *)
From Stdlib Require Import SpecFloat.
From S2P Require Import Prelude Async JsNum JsDate Calendar Types MarketTypes LiveTypes AuthTypes MarketData DeskTypes LiveControl Analytics Tenancy AnalyticsFacts Journal.

(** ** Dates of a month *)
Section month.
Context (y m : Z) (Hy : 100 <= y <= 9999) (Hm : 1 <= m <= 12).
Notation first_day := (days_from_civil y m 1).

Lemma utc_day d : utc y (m - 1) d = (first_day + (d - 1)) * ms_day.
Proof.
  unfold utc. rewrite (proj2 (andb_false_iff _ _)) by lia. rewrite Z.div_small, Z.mod_small by lia.
  replace (m - 1 + 1) with m by lia. by rewrite Z.add_0_r.
Qed.
Lemma utc_next d : utc y m d = (first_day + month_len y m + (d - 1)) * ms_day.
Proof. unfold utc, month_len. rewrite (proj2 (andb_false_iff _ _)) by lia. f_equal. lia. Qed.

Lemma day_of_days n : day_of (n * ms_day) = n.
Proof. unfold day_of, ms_day. by rewrite Z.div_mul. Qed.
Lemma last_date : getUTCDate (utc y m 0) = month_len y m.
Proof.
  pose proof (month_len_bounds y m Hm). rewrite utc_next. unfold getUTCDate. rewrite day_of_days.
  replace (first_day + month_len y m + (0 - 1)) with (first_day + (month_len y m - 1)) by lia.
  rewrite civil_month by lia. simpl. lia.
Qed.

Definition in_month (t : Z) : Prop := first_day <= day_of t < first_day + month_len y m.
Lemma in_month_created t : created_in (utc y (m - 1) 1) (utc y m 1) t = true <-> in_month (t_createdAt t).
Proof.
  unfold created_in, in_month. rewrite utc_day, utc_next, andb_true_iff, Z.leb_le, Z.ltb_lt.
  generalize (t_createdAt t). intros n. pose proof (month_len_bounds y m Hm). generalize dependent (month_len y m). intros len Hlen.
  unfold day_of, ms_day. Z.to_euclidean_division_equations. lia.
Qed.
Lemma in_month_iso t : in_month t -> iso_year_ok t.
Proof.
  intros H. unfold iso_year_ok. replace (day_of t) with (first_day + (day_of t - first_day)) by lia.
  rewrite civil_month by (unfold in_month in H; lia). simpl. lia.
Qed.
Lemma in_month_nth i : 0 <= i < month_len y m -> in_month ((first_day + i) * ms_day).
Proof. unfold in_month. rewrite day_of_days. lia. Qed.

(** The dates of the month, and the place of a moment among them. *)
Definition month_dates : list string := (fun i => date10 (utc y (m - 1) (i + 1))) <$> seqZ 0 (month_len y m).
Definition place (t : Z) : nat := Z.to_nat (day_of t - first_day).

Lemma month_dates_lookup i : (i < Z.to_nat (month_len y m))%nat ->
  month_dates !! i = Some (date10 ((first_day + Z.of_nat i) * ms_day)).
Proof.
  intros Hi. unfold month_dates. rewrite list_lookup_fmap, lookup_seqZ_lt by lia.
  cbn [option_fmap option_map fmap]. rewrite utc_day. replace (0 + Z.of_nat i + 1 - 1) with (Z.of_nat i) by lia. done.
Qed.
Lemma date_place t i : in_month t -> (i < Z.to_nat (month_len y m))%nat ->
  date10 ((first_day + Z.of_nat i) * ms_day) = date10 t <-> i = place t.
Proof.
  intros Ht Hi. assert (Hn : 0 <= Z.of_nat i < month_len y m) by lia.
  refine (iff_trans (date10_inj _ t (in_month_iso _ (in_month_nth _ Hn)) (in_month_iso _ Ht)) _).
  rewrite day_of_days. unfold in_month in Ht. unfold place. lia.
Qed.
Lemma place_lt t : in_month t -> (place t < Z.to_nat (month_len y m))%nat.
Proof. unfold in_month, place. lia. Qed.
End month.

(** ** Maps and sums *)
Lemma map_get_set {V} k k' (v : V) l : map_get k (map_set k' v l) = if decide (k' = k) then Some v else map_get k l.
Proof.
  induction l as [|[k0 v0] l IH]; simpl; [case_bool_decide; by case_decide|].
  case_bool_decide as E; simpl; [subst; case_bool_decide; by case_decide|].
  rewrite IH. case_bool_decide; case_decide; congruence.
Qed.

(** Counting into the cells of a list: each cell is counted into by its own elements. *)
Lemma alter_fold {A B} (step : A -> B -> B) (pos : A -> nat) (l : list A) (rows : list B) (i : nat) :
  foldl (fun rs a => alter (step a) (pos a) rs) rows l !! i =
  (fun r => foldl (fun r a => step a r) r (filter (fun a => pos a = i) l)) <$> rows !! i.
Proof.
  revert rows. induction l as [|a l IH]; intros rows; simpl; [by destruct (rows !! i)|].
  rewrite IH, filter_cons. case_decide as E; [|rewrite list_lookup_alter_ne by done; reflexivity].
  subst i. rewrite list_lookup_alter_eq. by destruct (rows !! pos a).
Qed.

(** [byDate] finds the only row of a date. *)
Lemma day_index_get days key i d :
  days !! i = Some d -> dr_date d = key -> (forall j d', days !! j = Some d' -> dr_date d' = key -> j = i) ->
  map_get key (day_index days) = Some i.
Proof.
  intros Hi Hd Hu. unfold day_index.
  assert (H : forall l m, (forall p, p ∈ l -> dr_date p.2 = key -> p.1 = i) ->
    map_get key m = Some i \/ (exists p, p ∈ l /\ dr_date p.2 = key) ->
    map_get key (foldl (fun m p => map_set (dr_date p.2) p.1 m) m l) = Some i).
  { induction l as [|p l IH]; intros m0 Hl [H|(p' & Hp & Hk)]; simpl; [done|by apply elem_of_nil in Hp| |].
    - apply IH; [intros q Hq; apply Hl; by right|]. left. rewrite map_get_set. case_decide as E; [|done].
      f_equal. apply Hl; [by left|done].
    - apply IH; [intros q Hq; apply Hl; by right|]. apply elem_of_cons in Hp as [->|Hp]; [left|by right; exists p'].
      rewrite map_get_set, decide_True by done. f_equal. apply Hl; [by left|done]. }
  apply H.
  - intros [j d'] Hp. apply elem_of_lookup_imap in Hp as (j' & d'' & [= -> ->] & Hj). simpl. by apply Hu.
  - right. exists (i, d). split; [|done]. apply elem_of_lookup_imap. eauto.
Qed.

(** A part of a sorted list is the sorted part. *)
Lemma filter_sort_by {A} (le : A -> A -> bool) (P : A -> Prop) `{!forall x, Decision (P x)} l :
  (forall x y, le x y = true \/ le y x = true) -> (forall x y z, le x y = true -> le y z = true -> le x z = true) ->
  filter P (sort_by le l) = sort_by le (filter P l).
Proof.
  intros Htot Htr.
  assert (Hins : forall x l, P x -> StronglySorted (fun a b => le a b = true) l ->
    filter P (insert_by le x l) = insert_by le x (filter P l)).
  { intros x l0 Hx. induction 1 as [|y l0 Hl IH Hy]; simpl; [by rewrite filter_cons, decide_True|].
    destruct (le x y) eqn:E.
    - rewrite filter_cons, decide_True by done. rewrite filter_cons. case_decide; simpl; [by rewrite E|].
      destruct (filter P l0) as [|z l1] eqn:Ef; [done|]. simpl.
      assert (z ∈ filter P l0) as Hz by (rewrite Ef; by left). apply list_elem_of_filter in Hz as [_ Hz].
      rewrite Forall_forall in Hy. by rewrite (Htr x y z E (Hy z Hz)).
    - rewrite !filter_cons. case_decide; simpl; rewrite ?E, IH; done. }
  induction l as [|x l IH]; [done|]. simpl. rewrite filter_cons. case_decide as Hx.
  - rewrite Hins; [|done|by apply sort_by_sorted]. by rewrite IH.
  - rewrite <- IH. clear -Hx. induction (sort_by le l) as [|y l0 IH]; simpl; [by rewrite filter_cons, decide_False|].
    destruct (le x y); rewrite !filter_cons, ?(decide_False (P := P x)) by done; [done|]. by rewrite IH.
Qed.

(** ** One day *)
Notation counted := (foldl (fun r tj => day_count tj r)).

Lemma counted_totals l r :
  let c := counted r l in
  dr_date c = dr_date r /\ dr_hasDayNote c = dr_hasDayNote r /\
  dr_tradesCount c = dr_tradesCount r + zlen l /\ dr_realizedPnl c = nsum (dr_realizedPnl r) (pnl_of <$> l.*1) /\
  dr_winsCount c = dr_winsCount r + day_wins l.*1 /\ dr_lossesCount c = dr_lossesCount r + day_losses l.*1.
Proof.
  revert r. induction l as [|tj l IH]; intros r; [simpl; unfold day_wins, day_losses, zlen; simpl; rewrite ?count_nil, ?Z.add_0_r; by split_and!|].
  cbn [foldl]. destruct (IH (day_count tj r)) as (-> & -> & -> & -> & -> & ->). rewrite fmap_cons. split_and!; try done.
  - unfold zlen. simpl. lia.
  - unfold day_wins. rewrite count_cons. unfold day_count. cbn [dr_winsCount].
    destruct (pnl_of tj.1 >? lit 5 1)%num, (forced tj.1); cbn [negb andb]; lia.
  - unfold day_losses. rewrite count_cons. unfold day_count. cbn [dr_lossesCount].
    assert (H : (pnl_of tj.1 >? lit 5 1)%num = true -> (pnl_of tj.1 <? nopp (lit 5 1))%num = true -> False).
    { intros H1 H2. pose proof (nltb_trans _ _ _ H1 H2) as H3. by vm_compute in H3. }
    destruct (pnl_of tj.1 >? lit 5 1)%num, (pnl_of tj.1 <? nopp (lit 5 1))%num, (forced tj.1); cbn [negb andb]; try lia.
    all: by destruct (H eq_refl eq_refl).
Qed.

(** The counters of a day are those of the outcomes of its trades. *)
Lemma day_outcomes l :
  day_wins l = count (fun t => match deriveOutcome (t_pnl (t_data t)) (t_exitReason (t_data t)) with WIN => true | _ => false end) l /\
  day_losses l = count (fun t => match deriveOutcome (t_pnl (t_data t)) (t_exitReason (t_data t)) with LOSS => true | _ => false end) l.
Proof.
  unfold day_wins, day_losses, count. split; f_equal; apply list_filter_iff; intros t; unfold deriveOutcome, forced, pnl_of.
  - case_bool_decide; simpl; [by rewrite andb_false_r|]. rewrite andb_true_r. by repeat case_match.
  - case_bool_decide; simpl; [by rewrite andb_false_r|]. rewrite andb_true_r.
    destruct (_ >? lit 5 1)%num eqn:E1, (_ <? nopp (lit 5 1))%num eqn:E2; try done.
    pose proof (nltb_trans _ _ _ E1 E2) as H3. by vm_compute in H3.
Qed.

(** ** The month *)
Section calendar.
Context (y m : Z) (Hy : 100 <= y <= 9999) (Hm : 1 <= m <= 12).
Notation first_day := (days_from_civil y m 1).
Notation len := (Z.to_nat (month_len y m)).
Context (notes : list string) (trades : list (Trade * option JournalRow)).
Context (Hin : Forall (fun tj => in_month y m (t_createdAt tj.1)) trades).

Notation month0 := (empty_month y m notes).
Definition date_of (i : nat) : string := date10 ((first_day + Z.of_nat i) * ms_day).

Lemma month0_lookup i : month0 !! i = if decide (i < len)%nat then Some (empty_day notes (date_of i)) else None.
Proof.
  unfold empty_month. rewrite list_lookup_fmap, (last_date y m Hy Hm). case_decide as E.
  - rewrite lookup_seqZ_lt by lia. cbn [option_fmap option_map fmap]. rewrite (utc_day y m Hy Hm).
    unfold date_of. by replace (0 + Z.of_nat i + 1 - 1) with (Z.of_nat i) by lia.
  - by rewrite lookup_seqZ_ge by lia.
Qed.

Lemma month0_index t : in_month y m t -> map_get (date10 t) (day_index month0) = Some (place y m t).
Proof.
  intros Ht. pose proof (place_lt y m t Ht) as Hp.
  apply (day_index_get _ _ _ (empty_day notes (date_of (place y m t)))).
  - by rewrite month0_lookup, decide_True.
  - simpl. by apply (date_place y m Hy Hm t (place y m t) Ht Hp).
  - intros j d'. rewrite month0_lookup. case_decide as E; [|done]. intros [= <-]. simpl. by apply (date_place y m Hy Hm t j Ht E).
Qed.

(** The row of a day counts the trades of that day. *)
Lemma month_days_lookup i : (i < len)%nat ->
  month_days month0 trades !! i =
  Some (day_round (counted (empty_day notes (date_of i)) (filter (fun tj => place y m (t_createdAt tj.1) = i) trades))).
Proof.
  intros Hi. unfold month_days. rewrite list_lookup_fmap.
  assert (H : forall l rows, Forall (fun tj => in_month y m (t_createdAt tj.1)) l ->
    foldl (month_add (day_index month0)) rows l =
    foldl (fun rs tj => alter (day_count tj) (place y m (t_createdAt tj.1)) rs) rows l).
  { induction l as [|tj l IH]; intros rows Hl; [done|]. apply Forall_cons in Hl as [Ht Hl]. cbn [foldl].
    rewrite (IH _ Hl). unfold month_add. by rewrite (month0_index _ Ht). }
  rewrite (H _ _ Hin), (alter_fold day_count). by rewrite month0_lookup, decide_True.
Qed.
Lemma month_days_length : length (month_days month0 trades) = len.
Proof.
  unfold month_days. rewrite length_fmap. assert (H : forall l rows, length (foldl (month_add (day_index month0)) rows l) = length rows).
  { induction l as [|tj l IH]; intros rows; [done|]. simpl. rewrite IH. unfold month_add.
    destruct (map_get _ _); [by rewrite length_alter|done]. }
  rewrite H. unfold empty_month. by rewrite length_fmap, length_seqZ, (last_date y m Hy Hm).
Qed.
End calendar.

(** ** Sums *)
Lemma zsum_total l : zsum l = total id l.
Proof.
  unfold zsum. assert (H : forall l a, foldl Z.add a l = a + total id l); [|by rewrite H].
  induction l0 as [|x l0 IH]; intros a; simpl; [lia|]. rewrite IH. unfold id. lia.
Qed.
Lemma total_fmap {A B} (f : A -> B) (inc : B -> Z) l : total inc (f <$> l) = total (fun x => inc (f x)) l.
Proof. induction l as [|x l IH]; [done|]. rewrite fmap_cons. simpl. by rewrite IH. Qed.
Lemma total_plus {A} (f g : A -> Z) l : total (fun x => f x + g x) l = total f l + total g l.
Proof. induction l as [|x l IH]; simpl; lia. Qed.
Lemma total_perm {A} (inc : A -> Z) l l' : l ≡ₚ l' -> total inc l = total inc l'.
Proof. induction 1; simpl; lia. Qed.

(** Elements sorted into [n] places: the places hold all of them. *)
Lemma places_hold_all {A} (pos : A -> nat) (n : nat) l : Forall (fun x => (pos x < n)%nat) l ->
  total (fun i => zlen (filter (fun x => pos x = i) l)) (seq 0 n) = zlen l.
Proof.
  assert (Hone : forall p k a, total (fun i => if decide (p = i) then 1 else 0) (seq a k) =
    if decide (a <= p < a + k)%nat then 1 else 0).
  { intros p. induction k as [|k IH]; intros a; simpl; [by rewrite decide_False by lia|].
    rewrite IH. repeat case_decide; lia. }
  induction 1 as [|x l Hx _ IH].
  - assert (H0 : forall s, total (fun i : nat => zlen (filter (fun x : A => pos x = i) [])) s = 0) by (induction s as [|i s IH]; [done|]; cbn [total]; by rewrite IH).
    by rewrite H0.
  - unfold zlen at 2. simpl. rewrite Nat2Z.inj_succ. fold (zlen l). rewrite <- IH.
    transitivity (total (fun i => (if decide (pos x = i) then 1 else 0) + zlen (filter (fun x => pos x = i) l)) (seq 0 n)).
    + assert (Hc : forall i, zlen (filter (fun x => pos x = i) (x :: l)) =
        (if decide (pos x = i) then 1 else 0) + zlen (filter (fun x => pos x = i) l)).
      { intros i. rewrite filter_cons. unfold zlen. case_decide; simpl; lia. }
      generalize (seq 0 n). induction l0 as [|i l0 IH']; [done|]. cbn [total]. by rewrite IH', Hc.
    + rewrite total_plus, Hone, decide_True by lia. lia.
Qed.

(** A sum over rows that depend on their place. *)
Lemma total_rows {B} (f : B -> Z) (g : nat -> Z) (rows : list B) :
  (forall i r, rows !! i = Some r -> f r = g i) -> total f rows = total g (seq 0 (length rows)).
Proof.
  assert (H : forall (rows : list B) k, (forall i r, rows !! i = Some r -> f r = g (k + i)%nat) -> total f rows = total g (seq k (length rows))).
  { induction rows0 as [|r rows0 IH]; intros k Hk; [done|]. simpl. rewrite (Hk 0%nat r eq_refl), Nat.add_0_r. f_equal.
    apply IH. intros i r' Hr. rewrite (Hk (S i) r' Hr). f_equal. lia. }
  intros Hr. by apply H.
Qed.

(** The weeks of days that can be read: every trade of the days is in a week. *)
Lemma weeks_hold_all monthStart monthEnd days weeks :
  Forall (fun r => is_Some (Date_parse (dr_date r +:+ "T00:00:00.000Z"))) days ->
  exists w, week_rows monthStart monthEnd weeks days = Ok w /\
    weight wr_tradesCount w = weight wr_tradesCount weeks + total dr_tradesCount days.
Proof.
  intros Hd. revert weeks. induction Hd as [|r days [date Hr] _ IH]; intros weeks; simpl; [exists weeks; split; [done|lia]|].
  unfold week_add. destruct ((dr_tradesCount r =? 0) && _) eqn:E.
  - destruct (IH weeks) as (w & -> & Hw). exists w. split; [done|]. lia.
  - rewrite Hr. match goal with |- context [map_set ?k ?v weeks] => destruct (IH (map_set k v weeks)) as (w & Hw & Hs) end.
    exists w. split; [exact Hw|]. rewrite Hs, weight_set. simpl. destruct (map_get _ weeks); simpl; lia.
Qed.

(** ** The month and its days *)
Lemma eval_both {A B C} first (p : Z -> Tables -> A) (q : Z -> Tables -> B) (k : A * B -> DeskAsync C) now d :
  eval_on (x <~ both first (select p) (select q) ;; k x)%async (fun _ => (now, d)) =
  eval_on (k (p now d, q now d)) (fun _ => (now, d)).
Proof. by destruct first. Qed.

Lemma oldest_filter {A} (at_ : A -> Z) (P : A -> Prop) `{!forall x, Decision (P x)} l :
  filter P (oldest at_ l) = oldest at_ (filter P l).
Proof. apply filter_sort_by; intros *; rewrite ?Z.leb_le; lia. Qed.

Section agreement.
Context (u : string) (d : Tables) (y m : Z) (Hy : 100 <= y <= 9999) (Hm : 1 <= m <= 12).
Notation first_day := (days_from_civil y m 1).
Notation month_list := (trades_in u (utc y (m - 1) 1) (utc y m 1) d).

Lemma month_list_in : Forall (fun t => in_month y m (t_createdAt t)) month_list.
Proof.
  apply Forall_forall. intros t Ht. unfold trades_in, oldest in Ht. rewrite sort_by_perm in Ht.
  apply list_elem_of_filter in Ht as [Ht _]. by apply (in_month_created y m Hy Hm).
Qed.

(** The trades of a day are those of the month with its place. *)
Lemma day_list i : (i < Z.to_nat (month_len y m))%nat ->
  filter (fun t => place y m (t_createdAt t) = i) month_list =
  trades_in u ((first_day + Z.of_nat i) * ms_day) (addDays 1 ((first_day + Z.of_nat i) * ms_day)) d.
Proof.
  intros Hi. unfold trades_in. rewrite oldest_filter, list_filter_filter. f_equal. apply list_filter_iff. intros t.
  rewrite (in_month_created y m Hy Hm). unfold created_in, in_month, place, addDays. rewrite andb_true_iff, Z.leb_le, Z.ltb_lt.
  pose proof (day_of_range (t_createdAt t) (first_day + Z.of_nat i)) as H. unfold ms_day in *. lia.
Qed.

Lemma filter_with_journal i :
  (filter (fun tj => place y m (t_createdAt tj.1) = i) (with_journal d <$> month_list)).*1 =
  filter (fun t => place y m (t_createdAt t) = i) month_list.
Proof.
  induction month_list as [|t l IH]; [done|]. rewrite fmap_cons, !filter_cons.
  change ((with_journal d t).1) with t. case_decide; [rewrite fmap_cons|]; by rewrite IH.
Qed.

Lemma note_dates i : (i < Z.to_nat (month_len y m))%nat -> (forall k, is_Some (tb_notes d !! k) -> db_date k.2 = k.2) ->
  date_of y m i ∈ date10 <$> notes_in u (utc y (m - 1) 1) (utc y m 1) d <->
  is_Some (tb_notes d !! (u, (first_day + Z.of_nat i) * ms_day)).
Proof.
  intros Hi Hn. unfold notes_in, date_of. rewrite (utc_day y m Hy Hm), (utc_next y m Hy). split.
  - intros H. apply list_elem_of_fmap in H as (n & Hd & H). apply list_elem_of_fmap in H as ([[u' n'] txt] & Hk & H). simpl in Hk. subst n.
    apply elem_of_map_to_list, map_lookup_filter_Some in H as [H [Hu Hr]]. simpl in Hu, Hr. subst u'.
    assert (in_month y m n') as Ht.
    { unfold in_month. clear -Hr. generalize dependent (month_len y m). intros len.
      unfold day_of, ms_day. intros. Z.to_euclidean_division_equations. lia. }
    apply (date_place y m Hy Hm n' i Ht Hi) in Hd. pose proof (Hn (u, n') ltac:(eauto)) as Hq. simpl in Hq.
    replace ((first_day + Z.of_nat i) * ms_day) with n'; [eauto|]. rewrite <- Hq. unfold db_date, setUTCHours0, place, in_month in *.
    rewrite Hd. unfold ms_day, ms_hour. clear Hy Hm. lia.
  - intros [txt H]. apply list_elem_of_fmap. exists ((first_day + Z.of_nat i) * ms_day). split; [done|].
    apply list_elem_of_fmap. exists ((u, (first_day + Z.of_nat i) * ms_day), txt). split; [done|].
    apply elem_of_map_to_list, map_lookup_filter_Some. split; [done|]. simpl. split; [done|]. unfold ms_day. lia.
Qed.
End agreement.

Lemma view_trades d (l : list Trade) : tv_trade <$> (trade_view d <$> l) = l.
Proof. induction l as [|t l IH]; [done|]. rewrite !fmap_cons, IH. reflexivity. Qed.

Record agrees (row : DayRow) (dv : DayView) : Prop := {
  ag_date : dv_date dv = dr_date row;
  ag_trades : dt_tradesCount (dv_totals dv) = dr_tradesCount row;
  ag_pnl : dt_realizedPnl (dv_totals dv) = dr_realizedPnl row;
  ag_wins : dt_winsCount (dv_totals dv) = dr_winsCount row;
  ag_losses : dt_lossesCount (dv_totals dv) = dr_lossesCount row;
  ag_note : dr_hasDayNote row = true <-> is_Some (dv_dayNote dv) }.

Section views.
Context (u : string) (d : Tables) (now : Z) (y m : Z) (Hy : 100 <= y <= 9999) (Hm : 1 <= m <= 12).
Context (Hn : forall k, is_Some (tb_notes d !! k) -> db_date k.2 = k.2).
Notation first_day := (days_from_civil y m 1).
Notation month_list := (trades_in u (utc y (m - 1) 1) (utc y m 1) d).
Notation rows := (month_days (empty_month y m (date10 <$> notes_in u (utc y (m - 1) 1) (utc y m 1) d)) (with_journal d <$> month_list)).

Lemma rows_in : Forall (fun tj => in_month y m (t_createdAt tj.1)) (with_journal d <$> month_list).
Proof. apply Forall_fmap. exact (month_list_in u d y m Hy Hm). Qed.

Lemma row_count i row : rows !! i = Some row ->
  (i < Z.to_nat (month_len y m))%nat /\ dr_date row = date_of y m i /\
  dr_tradesCount row = zlen (filter (fun t => place y m (t_createdAt t) = i) month_list).
Proof.
  intros Hr. pose proof (lookup_lt_Some _ _ _ Hr) as Hi. rewrite (month_days_length y m Hy Hm) in Hi. split; [done|].
  rewrite (month_days_lookup y m Hy Hm _ _ rows_in i Hi) in Hr. apply (inj Some) in Hr. subst row.
  set (l := filter _ (with_journal d <$> month_list)).
  destruct (counted_totals l (empty_day (date10 <$> notes_in u (utc y (m - 1) 1) (utc y m 1) d) (date_of y m i))) as (H1 & _ & H2 & _).
  cbn [day_round dr_date dr_tradesCount]. rewrite H1, H2. split; [reflexivity|]. cbn [empty_day dr_tradesCount].
  rewrite <- (filter_with_journal u d y m i). fold l. unfold zlen. by rewrite length_fmap.
Qed.

Lemma row_agrees first i row : rows !! i = Some row ->
  exists dv, eval_on (getDay first u (dr_date row)) (fun _ => (now, d)) = Some (Ok dv) /\ agrees row dv.
Proof.
  intros Hr. destruct (row_count i row Hr) as (Hi & Hd & _). unfold getDay. rewrite Hd. unfold date_of.
  set (day := (first_day + Z.of_nat i) * ms_day).
  assert (Hiso : iso_year_ok day) by (apply (in_month_iso y m Hy Hm), (in_month_nth y m); lia).
  assert (Hstart : setUTCHours0 0 day = day) by (unfold setUTCHours0, day; rewrite day_of_days; lia).
  rewrite (proj2 (parse_date10 day Hiso)), Hstart, eval_both. eexists. split; [reflexivity|].
  rewrite (month_days_lookup y m Hy Hm _ _ rows_in i Hi) in Hr. apply (inj Some) in Hr. subst row.
  set (l := filter _ (with_journal d <$> month_list)).
  destruct (counted_totals l (empty_day (date10 <$> notes_in u (utc y (m - 1) 1) (utc y m 1) d) (date_of y m i)))
    as (H1 & H2 & H3 & H4 & H5 & H6).
  assert (Hl : tv_trade <$> day_trades u day (addDays 1 day) d = l.*1).
  { unfold day_trades. rewrite view_trades. pose proof (day_list u d y m Hy Hm i Hi) as E. fold day in E. rewrite <- E.
    symmetry. apply filter_with_journal. }
  rewrite Hl. split; cbn [dv_date dv_totals dv_dayNote day_totals day_round dr_date dr_tradesCount dr_realizedPnl dr_winsCount
    dr_lossesCount dr_hasDayNote dt_tradesCount dt_realizedPnl dt_winsCount dt_lossesCount].
  - rewrite H1. cbn [empty_day dr_date]. unfold date_of. fold day. reflexivity.
  - rewrite H3. cbn [empty_day dr_tradesCount]. unfold zlen. rewrite length_fmap. lia.
  - rewrite H4. reflexivity.
  - rewrite H5. cbn [empty_day dr_winsCount]. lia.
  - rewrite H6. cbn [empty_day dr_lossesCount]. lia.
  - rewrite H2. cbn [empty_day dr_hasDayNote]. rewrite bool_decide_eq_true. unfold db_date. rewrite Hstart.
    exact (note_dates u d y m Hy Hm i Hi Hn).
Qed.
End views.

Lemma month_view_eq yyyymm y m trades notes :
  month_view yyyymm y m trades notes =
  match week_rows (utc y (m - 1) 1) (utc y m 1) [] (month_days (empty_month y m (date10 <$> notes)) trades) with
  | Throw e => Throw e
  | Ok weeks => let days := month_days (empty_month y m (date10 <$> notes)) trades in
      Ok {| mv_month := yyyymm; mv_days := days; mv_totals := month_totals days; mv_weekly := by_weekStart weeks.*2 |}
  end.
Proof. reflexivity. Qed.

(** C27: The calendar of a month agrees with the views of its days: when the columns of
    type date hold days, both requests answer, the month has a row for each of its days,
    each row is the view of that day (trades, profit, wins, losses, note), every trade of
    the user created in the month is counted once in the days, once in the weeks and once
    in the totals. *)
Theorem month_agrees_with_days first first' u d now y m yyyymm :
  parse_month yyyymm = Some (y, m) -> 100 <= y <= 9999 -> 1 <= m <= 12 ->
  (forall k, is_Some (tb_notes d !! k) -> db_date k.2 = k.2) ->
  exists v, eval_on (getMonthAggregate first u yyyymm) (fun _ => (now, d)) = Some (Ok v) /\
    zlen (mv_days v) = month_len y m /\
    (forall row, row ∈ mv_days v -> exists dv,
       eval_on (getDay first' u (dr_date row)) (fun _ => (now, d)) = Some (Ok dv) /\ agrees row dv) /\
    mt_tradesCount (mv_totals v) = zlen (trades_in u (utc y (m - 1) 1) (utc y m 1) d) /\
    total wr_tradesCount (mv_weekly v) = mt_tradesCount (mv_totals v).
Proof.
  intros Hp Hy Hm Hn. unfold getMonthAggregate. rewrite Hp, eval_both.
  set (l := trades_in u (utc y (m - 1) 1) (utc y m 1) d).
  set (rows := month_days (empty_month y m (date10 <$> notes_in u (utc y (m - 1) 1) (utc y m 1) d)) (with_journal d <$> l)).
  pose proof (month_days_length y m Hy Hm (date10 <$> notes_in u (utc y (m - 1) 1) (utc y m 1) d) (with_journal d <$> l)) as Hlen.
  fold rows in Hlen. pose proof (month_len_bounds y m Hm) as Hb.
  assert (Hdates : Forall (fun r => is_Some (Date_parse (dr_date r +:+ "T00:00:00.000Z"))) rows).
  { apply Forall_lookup. intros i row Hr. destruct (row_count u d y m Hy Hm i row Hr) as (Hi & -> & _).
    destruct (parse_date10 _ (in_month_iso y m Hy Hm _ (in_month_nth y m (Z.of_nat i) ltac:(lia)))) as [_ H].
    exists (setUTCHours0 0 ((days_from_civil y m 1 + Z.of_nat i) * ms_day)). exact H. }
  destruct (weeks_hold_all (utc y (m - 1) 1) (utc y m 1) rows [] Hdates) as (w & Hw & Hs).
  exists {| mv_month := yyyymm; mv_days := rows; mv_totals := month_totals rows; mv_weekly := by_weekStart w.*2 |}.
  cbn [mv_days mv_totals mv_weekly month_totals mt_tradesCount]. split_and!.
  - cbn [eval_on]. rewrite month_view_eq. change (month_trades u (utc y (m - 1) 1) (utc y m 1) d) with (with_journal d <$> l).
    fold rows. rewrite Hw. reflexivity.
  - unfold zlen. rewrite Hlen. lia.
  - intros row Hr. apply list_elem_of_lookup in Hr as [i Hr]. exact (row_agrees u d now y m Hy Hm Hn first' i row Hr).
  - rewrite zsum_total, total_fmap. unfold id.
    transitivity (total (fun i => zlen (filter (fun t => place y m (t_createdAt t) = i) l)) (seq 0 (Z.to_nat (month_len y m)))).
    + rewrite <- Hlen. exact (total_rows dr_tradesCount _ rows (fun i row Hr => proj2 (proj2 (row_count u d y m Hy Hm i row Hr)))).
    + apply places_hold_all. eapply Forall_impl; [exact (month_list_in u d y m Hy Hm)|]. intros t. exact (place_lt y m (t_createdAt t)).
  - unfold by_weekStart. rewrite (total_perm _ _ _ (sort_by_perm _ _)), total_fmap. fold (weight wr_tradesCount w). rewrite Hs.
    rewrite zsum_total, total_fmap. reflexivity.
Qed.

(** ** The months *)
Definition first_of (k : Z) : Z := days_from_civil (k / 12) (k mod 12 + 1) 1 * ms_day.

Lemma first_of_next k : next_month (first_of k) = first_of (k + 1) /\ first_of k + 28 * ms_day <= first_of (k + 1).
Proof.
  assert (Hm : 1 <= k mod 12 + 1 <= 12) by (pose proof (Z.mod_pos_bound k 12); lia).
  pose proof (month_len_bounds (k / 12) (k mod 12 + 1) Hm) as Hb.
  assert (Hn : first_of (k + 1) = days_from_civil (k / 12 + (k mod 12 + 1) / 12) ((k mod 12 + 1) mod 12 + 1) 1 * ms_day).
  { unfold first_of. do 3 f_equal; Z.to_euclidean_division_equations; lia. }
  split.
  - rewrite Hn. unfold next_month, first_of. rewrite day_of_days.
    replace (days_from_civil (k / 12) (k mod 12 + 1) 1) with (days_from_civil (k / 12) (k mod 12 + 1) 1 + 0) by lia.
    rewrite civil_month by lia. reflexivity.
  - rewrite Hn. unfold month_len in Hb. unfold first_of, ms_day. lia.
Qed.
Lemma first_of_grows k n : 0 <= n -> first_of k + n * (28 * ms_day) <= first_of (k + n).
Proof.
  revert n. apply (natlike_ind (fun n => first_of k + n * (28 * ms_day) <= first_of (k + n))); [replace (k + 0) with k by lia; lia|].
  intros n Hn IH. destruct (first_of_next (k + n)) as [_ H]. replace (k + Z.succ n) with (k + n + 1) by lia. lia.
Qed.

(** Every month from the first to the last is listed, whether it has trades or not. *)
Lemma months_listed a n : months_from (months_fuel (first_of a) (first_of (a + Z.of_nat n))) (first_of a) (first_of (a + Z.of_nat n)) =
  (fun k => month_key (first_of k)) <$> seqZ a (Z.of_nat n + 1).
Proof.
  assert (H : forall n a fuel last, (n < fuel)%nat -> last = first_of (a + Z.of_nat n) ->
    months_from fuel (first_of a) last = (fun k => month_key (first_of k)) <$> seqZ a (Z.of_nat n + 1)).
  { induction n0 as [|n0 IH]; intros b [|fuel] last Hf Hl; try lia; subst last.
    - rewrite seqZ_cons by lia. cbn [months_from]. rewrite Z.add_0_r, (proj2 (Z.leb_le _ _)) by lia. rewrite fmap_cons. f_equal.
      rewrite seqZ_nil by lia. destruct fuel as [|fuel]; [done|]. cbn [months_from].
      destruct (first_of_next b) as [-> Hs]. unfold ms_day in Hs. by rewrite (proj2 (Z.leb_gt _ _)) by lia.
    - rewrite seqZ_cons by lia. cbn [months_from]. pose proof (first_of_grows b (Z.of_nat (S n0)) ltac:(lia)) as Hg. unfold ms_day in Hg.
      rewrite (proj2 (Z.leb_le _ _)) by lia. rewrite fmap_cons. f_equal. destruct (first_of_next b) as [-> _].
      rewrite (IH (b + 1) fuel); [|lia|f_equal; lia]. do 2 f_equal; lia. }
  apply H; [|done]. unfold months_fuel. pose proof (first_of_grows a (Z.of_nat n) ltac:(lia)) as Hg.
  assert (Z.of_nat n <= (first_of (a + Z.of_nat n) - first_of a) / (28 * ms_day)); [|lia].
  apply Z.div_le_lower_bound; unfold ms_day in *; lia.
Qed.

(** Notes are stored under days. *)
Lemma put_note_days u date note now id d :
  (forall k, is_Some (tb_notes d !! k) -> db_date k.2 = k.2) ->
  forall k, is_Some (tb_notes (put_note (u, db_date date) note now id d).1 !! k) -> db_date k.2 = k.2.
Proof.
  intros Hd k. simpl. intros [x [[<- _]|[_ H]]%lookup_insert_Some]; [|by eapply Hd].
  unfold db_date at 1. simpl. unfold setUTCHours0 at 1. unfold db_date. rewrite day_of_start. reflexivity.
Qed.
