(* ===== verification/DeskExamples.v ===== *)
(** * The operator's desk: concrete runs

    A desk whose database, Redis and broker always answer, at one moment of time, and
    requests of the switch and the dashboards run on it. *)
From Stdlib Require Import SpecFloat.
From stdpp Require Import stringmap.
From S2P Require Import Prelude Async JsNum JsDate Types Indicators MarketTypes LiveTypes AuthTypes MarketData DeskTypes LiveControl LiveControlFacts Analytics StrategyApi Journal Calendar Tenancy AnalyticsFacts JournalFacts.

(** Noon of 2 January 2024. *)
Definition desk_now : Z := 1704196800000.
Definition next_session (w : Desk) : string := fresh_string "s" (tb_sessions (dk_db w)).
Definition some_equity : AccountReply := {|
  ar_balance := Some (of_Z 10000); ar_equity := Some (of_Z 10000); ar_margin := None; ar_freeMargin := None |}.

(** An identifier that is taken makes the database refuse. *)
Definition desk_handle (e : DeskAct) (w : Desk) : Desk * desk_result e :=
  match e return Desk * desk_result e with
  | Stmt A f =>
      let id := next_session w in
      match truthy_string id, tb_sessions (dk_db w) !! id with
      | true, None => (commit_db (f desk_now id (dk_db w)) w, (f desk_now id (dk_db w)).2)
      | _, _ => (w, Throw "unique constraint"%string)
      end
  | RedisGet A f => (w, Ok (f (dk_redis w)))
  | RedisSet f => (on_redis (f (dk_redis w)) w, Ok tt)
  | MemDo A f => (on_mem (f desk_now (dk_mem w)).1 w, (f desk_now (dk_mem w)).2)
  | HttpAccountOf _ => (w, Ok some_equity)
  | HttpPositions _ => (w, Ok [])
  | HttpMockReset _ | ReconcileAll => (w, Ok tt)
  | HttpHousePositions | HttpOpenPositions _ => (w, Ok [])
  | HttpExecHealth | RedisText _ => (w, Ok None)
  | HttpCandlesOf _ _ _ => (w, Ok [])
  | DeskClock => (w, desk_now)
  | Engine _ _ => (w, Throw "engine is busy"%string)
  end.

Lemma desk_handle_sem b i e w : desk_sem b i e w (desk_handle e w).1 (desk_handle e w).2.
Proof.
  destruct e; simpl; auto.
  - destruct (truthy_string (next_session w)) eqn:Et; [|right; split; eauto].
    destruct (tb_sessions (dk_db w) !! next_session w) eqn:E; [right; split; eauto|left].
    exists desk_now, (next_session w). split_and!; [split; [|done]|done|done]. intros H. by rewrite H in Et.
  - by exists desk_now.
  - exists (tb_trades (dk_db w)). by destruct w as [[] ? ?].
Qed.

Definition no_tables : Tables := {|
  tb_users := ∅; tb_accounts := ∅; tb_trades := ∅; tb_tags := ∅; tb_sessions := ∅; tb_snapshots := [];
  tb_notes := ∅; tb_journal := ∅; tb_candles := [] |}.
Definition no_keys : RedisKeys := {|
  k_running := None; k_config := None; k_mode := None; k_session := None; k_lastChanged := None |}.
Definition new_desk : Desk := {| dk_db := no_tables; dk_redis := no_keys; dk_mem := initial_mem |}.

(** ** The switch *)
Definition on : option string := Some "TRUE"%string.
Definition run_input : StartInput := {|
  in_strategyVersion := None; in_riskPercent := Some (of_Z 1); in_mode := Some "mock"%string;
  in_mockBalance := Some (of_Z 10000) |}.
Definition start1 : DeskAsync LiveEngineConfig := start on None None run_input.
Definition do_ {A} (p : DeskProg A) (w : Desk) : Desk := (execute desk_handle p w).1.
Definition rows (w : Desk) : list (string * SessionStatus) :=
  (fun kv => (kv.1, ls_status kv.2)) <$> map_to_list (tb_sessions (dk_db w)).

Definition second_run : Desk := do_ start1 (do_ (onModuleInit on) (do_ stop (do_ start1 new_desk))).

Lemma do_step {A} (p : DeskProg A) w : alone (desk_sem false) 0 p w (do_ p w) (execute desk_handle p w).2.
Proof. apply (execute_alone desk_handle _ (desk_handle_sem false) 0 p w). Qed.

Lemma second_run_steps : rtc (switch_step on None None) new_desk second_run.
Proof.
  eapply rtc_l; [eapply ss_start, do_step|]. eapply rtc_l; [eapply ss_stop, do_step|].
  eapply rtc_l; [eapply ss_restart, do_step|]. eapply rtc_l; [eapply ss_start, do_step|]. constructor.
Qed.

(** Started, stopped, restarted and started again. *)
Lemma engine_session_exclusive_witness :
  rows second_run = [("s0", RUNNING); ("s", ENDED)]%string /\
  (forall i j, running_row (dk_db second_run) i -> running_row (dk_db second_run) j -> i = j) /\
  cm_running (dk_mem second_run) = true.
Proof.
  split; [vm_compute; reflexivity|].
  split; [|vm_compute; reflexivity].
  refine (proj1 (engine_session_exclusive on None None new_desk second_run eq_refl _ second_run_steps)).
  split; [reflexivity|]. split; reflexivity.
Defined.

Definition race (sched : list nat) (ps : list (DeskProg unit)) (w : Desk) : Desk :=
  shared (turns desk_handle sched {| shared := w; threads := ps |}).

(** Two starts that overlap both find no session, and both open one. *)
Lemma two_starts_two_sessions :
  let w := race ([0; 1; 0; 1] ++ replicate 12 0 ++ replicate 12 1)%nat [detached start1; detached start1] new_desk in
  rows w = [("s0", RUNNING); ("s", RUNNING)]%string /\ cm_sessionId (dk_mem w) = Some "s0"%string.
Proof. vm_compute. done. Qed.

(** A start that overlaps the end of a stop: the session just opened is the one that is
    finalized, the old row stays RUNNING, and the engine runs without a session. *)
Lemma stop_ends_the_next_session :
  let w := race (replicate 5 0 ++ replicate 11 1 ++ replicate 10 0)%nat [detached stop; detached start1]
                (do_ start1 new_desk) in
  rows w = [("s0", ENDED); ("s", RUNNING)]%string /\ cm_sessionId (dk_mem w) = None /\ cm_running (dk_mem w) = true.
Proof. vm_compute. done. Qed.

(** ** The dashboards

    Ann owns account [a1]; whatever [others] adds belongs to somebody else. *)
Definition ann_row : UserRow := {|
  usr_id := "ann"; usr_email := "ann@x.com"; usr_passwordHash := "h"; usr_role := USER; usr_isActive := true;
  usr_botEnabled := true; usr_presetKey := BALANCED; usr_lastLoginAt := None; usr_pausedAt := None |}.
Definition account_row (id user : string) : AccountRow := {|
  ba_id := id; ba_userId := user; ba_name := "main"; ba_broker := "ICM"; ba_isEnabled := true |}.
Definition closed_trade (id account : string) (pnl : num) : Trade := {|
  t_id := id; t_createdAt := desk_now - 3600000;
  t_data := {|
    t_candidateId := "c"; t_clientOrderId := Some id; t_mt5Ticket := Some 5; t_sessionId := Some "s";
    t_accountId := Some account; t_symbol := "XAUUSD"; t_side := SELL; t_lotSize := lit 1 1; t_entryPrice := of_Z 2000;
    t_closePrice := Some (of_Z 1990); t_slPrice := of_Z 2010; t_tpPrice := of_Z 1980; t_status := CLOSED;
    t_exitReason := Some "TP"; t_entryType := "MARKET"; t_brokerOrderId := None; t_limitPrice := None;
    t_orderExpiresAt := None; t_pnl := Some pnl; t_closedAt := Some (desk_now - 1800000); t_statusHistory := [];
    t_managementState := {| ms_breakevenActivated := None; ms_peakFavorablePrice := None;
                            ms_originalSlPrice := None; ms_trailKey := None |};
    t_sweptLevel := None; t_sweptHigh := None; t_sweptLow := None; t_sweepCandleTime := None; t_d1Bias := None;
    t_originalSlPrice := Some (of_Z 2010); t_strategyName := None |}%string |}.
Definition equity_row (account : string) (equity : num) (at_ : Z) : EquitySnapshot := {|
  es_accountId := Some account; es_source := "live"; es_mode := metaapi; es_balance := equity; es_equity := equity;
  es_unrealizedPnl := of_Z 0; es_margin := of_Z 0; es_freeMargin := of_Z 0; es_openPositions := 0; es_takenAt := at_ |}.

Definition tables_with (accounts : list AccountRow) (trades : list Trade) (sessions : list LiveSession)
    (snapshots : list EquitySnapshot) : Tables := {|
  tb_users := {[ "ann"%string := ann_row ]}; tb_accounts := list_to_map ((fun r => (ba_id r, r)) <$> accounts);
  tb_trades := list_to_map ((fun t => (t_id t, t)) <$> trades); tb_tags := ∅;
  tb_sessions := list_to_map ((fun s => (ls_id s, s)) <$> sessions); tb_snapshots := snapshots; tb_notes := ∅;
  tb_journal := ∅; tb_candles := [] |}.
Definition hers : Tables := tables_with [account_row "a1" "ann"] [closed_trade "t1" "a1" (of_Z 100)] [] [].
Definition shared_db : Tables :=
  tables_with [account_row "a1" "ann"; account_row "b1" "bob"]
    [closed_trade "t1" "a1" (of_Z 100); closed_trade "t2" "b1" (of_Z (-900))] [] [equity_row "b1" (of_Z 5) desk_now].

Lemma hers_owned : ownership "ann" {[ "a1"%string ]} hers.
Proof.
  split; intros a r; cbv [hers tables_with tb_accounts tb_trades]; simpl.
  - intros [[<- <-]|[_ []%lookup_empty_Some]]%lookup_insert_Some. set_solver.
  - by intros [[<- <-]|[_ []%lookup_empty_Some]]%lookup_insert_Some.
Qed.
Lemma shared_owned : ownership "ann" {[ "a1"%string ]} shared_db.
Proof.
  split; intros a r; cbv [shared_db tables_with tb_accounts tb_trades]; simpl;
    intros [[<- <-]|[_ [[<- <-]|[_ []%lookup_empty_Some]]%lookup_insert_Some]]%lookup_insert_Some; simpl; done || set_solver.
Qed.

(** Whatever is asked outside the database fails, except the switch. *)
Definition offline (e : DeskAct) : desk_result e :=
  match e return desk_result e with
  | Stmt _ _ | RedisGet _ _ | RedisSet _ | HttpAccountOf _ | HttpPositions _ | HttpMockReset _ | ReconcileAll
  | HttpHousePositions | HttpOpenPositions _ | HttpExecHealth | HttpCandlesOf _ _ _ | RedisText _ | Engine _ _ =>
      Throw "ECONNREFUSED"%string
  | MemDo A f => (f desk_now (with_running true initial_mem)).2
  | DeskClock => desk_now
  end.
Definition ann : Me := {| me_id := "ann"; me_role := USER |}.
Definition shown (me : Me) (d : Tables) : option (option AccountReply * list BrokerPosition * option num) :=
  match eval_in (fun _ => offline) (accountOverview me "b1") (fun _ => (desk_now, d)) with
  | Ok v => Some (ov_live v, ov_positions v, sr_equity <$> ov_accountStale v)
  | Throw _ => None
  end.

(** The overview of another user's account is refused, that of the owner shows the last
    reading; the statistics are the same without the other user's rows; and the engine's
    switch is refused to a user. *)
#[local] Instance no_indicators : TechnicalIndicators := {|
  EMA _ _ := []; SMA _ _ := []; RSI _ _ := []; ATR _ _ _ _ := []; ADX _ _ _ _ := [] |}.
Lemma tenant_isolation_witness :
  eval_in (fun _ => offline) (accountOverview ann "b1") (fun _ => (desk_now, shared_db)) =
    eval_in (fun _ => offline) (accountOverview ann "b1") (fun _ => (desk_now, hers)) /\
  shown ann shared_db = None /\ shown {| me_id := "bob"; me_role := USER |} shared_db = Some (None, [], Some (of_Z 5)) /\
  (fun r => match r with Ok s => st_totalTrades s | Throw _ => 0 end) <$>
    eval_on (stats "ann" None) (fun _ => (desk_now, shared_db)) = Some 1 /\
  exists e, stopEngine (of_Z 1) None None None ann = reject e.
Proof.
  assert (Hd : forall n : nat, ownership "ann" {[ "a1"%string ]} shared_db /\ ownership "ann" {[ "a1"%string ]} hers /\
    desk_now = desk_now /\ restrict "ann" {[ "a1"%string ]} shared_db = restrict "ann" {[ "a1"%string ]} hers).
  { intros _. split; [apply shared_owned|]. split; [apply hers_owned|]. split; [reflexivity|]. vm_compute. reflexivity. }
  pose proof (fun A (m : DeskAsync A) => tenant_isolation "ann" {[ "a1"%string ]} no_indicators ∅ (of_Z 1) None None None None false ann eq_refl
    ltac:(discriminate) A m (fun _ => offline) (fun _ => (desk_now, shared_db)) (fun _ => (desk_now, hers))) as H.
  split; [refine (proj1 (proj2 (H _ _ _ Hd))); apply uv_overview|].
  split; [vm_compute; reflexivity|]. split; [vm_compute; reflexivity|]. split; [vm_compute; reflexivity|].
  refine (proj2 (proj2 (H _ _ _ Hd)) _); [apply uv_operator|]; apply or_stop.
Defined.

(** The equities of several accounts are one curve to [snapshot]: two accounts that never
    lost a cent show a drawdown of 90 percent. *)
Lemma flat_accounts_drawdown :
  let d := tables_with [account_row "a1" "ann"; account_row "a2" "ann"] [] []
             [equity_row "a1" (of_Z 10000) (desk_now - 2); equity_row "a2" (of_Z 1000) (desk_now - 1);
              equity_row "a1" (of_Z 10000) desk_now] in
  (fun r => match r with Ok s => sn_maxDd s | Throw _ => of_Z 0 end) <$>
    eval_on (snapshot "ann") (fun _ => (desk_now, d)) = Some (of_Z 90).
Proof. vm_compute. reflexivity. Qed.

(** A participant is shown the equity of the account the session was started on. *)
Lemma session_shows_house_equity :
  let s := session_row None {| lc_strategyVersion := V_GIDEON; lc_riskPercent := of_Z 1; lc_mode := metaapi;
                               lc_mockBalance := None |} (of_Z 12345) desk_now "s" in
  let d := tables_with [account_row "a1" "ann"] [] [s] [] in
  (fun r => match r with Ok (Some v) => ls_startEquity (sv_session v) | _ => of_Z 0 end) <$>
    eval_on (getSession "ann" "s" false) (fun _ => (desk_now, d)) = Some (of_Z 12345).
Proof. vm_compute. reflexivity. Qed.

(** ** The journal *)
Definition ask_at {A} (d : Tables) (m : DeskAsync A) : option A :=
  match eval_on m (fun _ => (desk_now, d)) with Some (Ok a) => Some a | _ => None end.
Definition noted : Tables := set_notes {[ ("ann", 1704153600000) := "quiet" ]}%string shared_db.

(** January 2024: one trade of Ann's, on the second, and a note on that day. *)
Lemma month_agrees_with_days_witness :
  (fun v => (mt_tradesCount (mv_totals v), zlen (mv_days v), dr_hasDayNote <$> mv_days v !! 1%nat,
             wr_weekStart <$> mv_weekly v)) <$> ask_at noted (getMonthAggregate true "ann" "2024-01") =
    Some (1, 31, Some true, ["2024-01-01"%string]) /\
  exists v, eval_on (getMonthAggregate true "ann" "2024-01") (fun _ => (desk_now, noted)) = Some (Ok v) /\
    mt_tradesCount (mv_totals v) = zlen (trades_in "ann" (utc 2024 0 1) (utc 2024 1 1) noted).
Proof.
  split; [vm_compute; reflexivity|].
  destruct (month_agrees_with_days true false "ann" noted desk_now 2024 1 "2024-01" eq_refl ltac:(lia) ltac:(lia)) as (v & Hv & _ & _ & Ht & _).
  - intros k [x Hk]. unfold noted in Hk. simpl in Hk. apply lookup_singleton_Some in Hk as [<- _]. vm_compute. reflexivity.
  - exists v. split; [exact Hv|exact Ht].
Defined.

(** A month that does not exist is the first month of the next year. *)
Lemma month_thirteen :
  (fun v => (mv_month v, dr_date <$> head (mv_days v))) <$> ask_at shared_db (getMonthAggregate true "ann" "2024-13") =
  Some ("2024-13", Some "2025-01-01")%string.
Proof. vm_compute. reflexivity. Qed.

(** The months between two trades are listed too. *)
Lemma months_without_trades :
  let old := {| t_id := "t0"; t_createdAt := desk_now - 90 * ms_day; t_data := t_data (closed_trade "t0" "a1" (of_Z 1)) |}%string in
  let d := tables_with [account_row "a1" "ann"] [closed_trade "t1" "a1" (of_Z 100); old] [] [] in
  am_months <$> ask_at d (getAvailableMonths "ann") = Some ["2024-01"; "2023-12"; "2023-11"; "2023-10"]%string.
Proof. vm_compute. reflexivity. Qed.

(** Nothing asks who the caller is: the reflection on Bob's trade is overwritten. *)
Definition with_db (d : Tables) : Desk := {| dk_db := d; dk_redis := no_keys; dk_mem := initial_mem |}.
Lemma anybody_edits_a_journal :
  let body := {| jb_tags := Some ["Bad regime"%string]; jb_reflectionNote := None |} in
  jr_tags <$> tb_journal (dk_db (do_ (updateTradeJournal "t2" body) (with_db shared_db))) !! "t2"%string =
  Some ["Bad regime"%string].
Proof. vm_compute. reflexivity. Qed.

(** The legs of a signal are opened in the order TP1, runner; the entries name the newest
    trade the TP1 leg. *)
Definition leg_row (id : string) (at_ : Z) : Trade := {|
  t_id := id; t_createdAt := at_;
  t_data := let d := t_data (closed_trade id "a1" (of_Z 0)) in {|
    t_candidateId := t_candidateId d; t_clientOrderId := t_clientOrderId d; t_mt5Ticket := t_mt5Ticket d;
    t_sessionId := t_sessionId d; t_accountId := t_accountId d; t_symbol := t_symbol d; t_side := t_side d;
    t_lotSize := t_lotSize d; t_entryPrice := t_entryPrice d; t_closePrice := None; t_slPrice := t_slPrice d;
    t_tpPrice := t_tpPrice d; t_status := OPEN; t_exitReason := None; t_entryType := t_entryType d;
    t_brokerOrderId := None; t_limitPrice := None; t_orderExpiresAt := None; t_pnl := None; t_closedAt := None;
    t_statusHistory := []; t_managementState := t_managementState d; t_sweptLevel := None; t_sweptHigh := None;
    t_sweptLow := None; t_sweepCandleTime := None; t_d1Bias := None; t_originalSlPrice := t_originalSlPrice d;
    t_strategyName := None |} |}.
Definition two_legs : SmcLiveSignal := {|
  sig_symbol := "XAUUSD"; sig_side := SELL; sig_entryPrice := of_Z 2000; sig_slPrice := of_Z 2010;
  sig_tpPrice := of_Z 1980; totalLot := lit 2 1; legs := []; sig_mode := REVERSAL; h1SweepTime := ""; reason := "";
  smcContext := None |}%string.
Definition signal_context : SignalContext := {|
  sc_d1Adx := of_Z 22; sc_d1Bias := BULLISH; sc_killzone := Some "LONDON"%string; sc_h1Atr := of_Z 5;
  sc_pendingQueueSize := 0; sc_spread := of_Z 0; sc_accountEquity := of_Z 10000; sc_openPositionsCount := 0;
  sc_openDirections := []; sc_anchorLevel := Some (lit 20055 1); sc_anchorType := Some "PDH"%string |}.
Lemma legs_are_swapped :
  let d := tables_with [account_row "a1" "ann"] [leg_row "tp1" (desk_now - 2000); leg_row "runner" (desk_now - 1000)] [] [] in
  let j := tb_journal (dk_db (do_ (createJournalEntriesForSignal two_legs "now" signal_context) (with_db d))) in
  (jr_setupSummary <$> j !! "tp1"%string, jr_setupSummary <$> j !! "runner"%string) =
  (Some "REVERSAL SELL on XAUUSD — D1 BULLISH, swept PDH at 2005.5, LONDON session — Runner leg",
   Some "REVERSAL SELL on XAUUSD — D1 BULLISH, swept PDH at 2005.5, LONDON session — TP1 leg")%string.
Proof. vm_compute. reflexivity. Qed.

(** ** The administrator's dashboard *)
Definition paused_ann : UserRow := with_bot false (Some (desk_now - 8 * ms_day)) ann_row.
Definition flat_db : Tables :=
  let d := tables_with [account_row "a1" "ann"; account_row "a2" "ann"] [] []
             [equity_row "a1" (of_Z 10000) (desk_now - 2); equity_row "a2" (of_Z 1000) (desk_now - 1);
              equity_row "a1" (of_Z 10000) desk_now] in
  set_users {[ "ann"%string := paused_ann ]} d.

Lemma flags_are_exact_witness :
  (fun f => (fl_name f, fl_message f)) <$>
    match (execute desk_handle computeFlags (with_db flat_db)).2 with Ok l => l | Throw _ => [] end =
    [(DD_ALERT, "ann@x.com — 90.0% drawdown"); (PAUSE_WATCH, "ann@x.com — paused 8 days")]%string /\
  exists now flags, flags ≡ₚ (users_in_order flat_db ≫= flags_for now flat_db).
Proof.
  split; [vm_compute; reflexivity|].
  destruct (execute desk_handle computeFlags (with_db flat_db)).2 as [flags|e] eqn:E; [|vm_compute in E; discriminate].
  pose proof (execute_alone desk_handle _ (desk_handle_sem true) 0 computeFlags (with_db flat_db)) as Ha. rewrite E in Ha.
  destruct (flags_are_exact (with_db flat_db) _ flags Ha) as [_ (now & Hp & _)].
  exists now, flags. exact Hp.
Defined.

(** Ten trades that made exactly the expected 0.42 R each are reported as a drift of 41.58 R. *)
Lemma expectancy_in_other_units :
  let t := closed_trade "t" "a1" (of_Z 42) in
  cents2 (average (omap r_multiple (replicate 10 t))) = lit 42 2 /\
  (fun x => (tr_name x, toFixed2 (tr_magnitude x))) <$> ts_trends (trends_of (replicate 10 t)) =
    [(WR_DRIFT, "35.10"); (EXPECTANCY_DRIFT, "41.58")]%string.
Proof. split; vm_compute; reflexivity. Qed.
