(* ===== verification/BrokerAccounts.v ===== *)
(** * Broker accounts

    src/broker-accounts/broker-accounts.service.ts ([BrokerAccountsService]) with its cache of
    enabled accounts, src/mt5-hosts/mt5-host.service.ts ([Mt5HostService]) and
    src/broker-accounts/oauth/broker-oauth.service.ts ([BrokerOAuthService]).

    Credentials are JSON objects; sealing them is the cipher of the platform, which draws an
    initialization vector: [Encrypt] answers some sealed value, and [unseal] is a parameter. *)
From S2P Require Import Prelude Async JsNum JsDate Types LiveTypes AuthTypes DeskTypes.

(** ** Rows *)
Inductive Json := JString (s : string) | JNumber (n : Z) | JNull.
#[export] Instance Json_eq_dec : EqDecision Json.
Proof. solve_decision. Defined.
(** An object: its entries in the order of their insertion. *)
Definition JsonObject : Type := list (string * Json).
(** [{ ...a, ...b }] *)
Definition spread (a b : JsonObject) : JsonObject := foldl (fun m kv => map_set kv.1 kv.2 m) a b.

Record Sealed := { ciphertext : string; iv : string; authTag : string }.
Inductive BrokerKind := METAAPI | MOCK | CTRADER | MT5_DIRECT.
#[export] Instance BrokerKind_eq_dec : EqDecision BrokerKind.
Proof. solve_decision. Defined.
Inductive AccountKind := DEMO | LIVE.
Inductive HostStatus := ACTIVE | DRAINING | DOWN.
#[export] Instance HostStatus_eq_dec : EqDecision HostStatus.
Proof. solve_decision. Defined.

Record BrokerRow := {
  br_id : string; br_userId : string; br_name : string; br_broker : BrokerKind; br_mode : EngineMode;
  br_sealed : Sealed; br_isEnabled : bool; br_sortIndex : Z; br_createdAt : Z; br_accountNumber : option string;
  br_accountKind : option AccountKind; br_brokerName : option string; br_oauthExpiresAt : option Z;
  br_lastConnectedAt : option Z; br_hostId : option string }.
(** [toSafe]: the row without its credentials. *)
Record SafeRow := {
  sf_id : string; sf_userId : string; sf_name : string; sf_broker : BrokerKind; sf_mode : EngineMode;
  sf_isEnabled : bool; sf_sortIndex : Z; sf_createdAt : Z; sf_accountNumber : option string;
  sf_accountKind : option AccountKind; sf_brokerName : option string; sf_oauthExpiresAt : option Z;
  sf_lastConnectedAt : option Z; sf_hostId : option string }.
Definition toSafe (r : BrokerRow) : SafeRow := {|
  sf_id := br_id r; sf_userId := br_userId r; sf_name := br_name r; sf_broker := br_broker r; sf_mode := br_mode r;
  sf_isEnabled := br_isEnabled r; sf_sortIndex := br_sortIndex r; sf_createdAt := br_createdAt r;
  sf_accountNumber := br_accountNumber r; sf_accountKind := br_accountKind r; sf_brokerName := br_brokerName r;
  sf_oauthExpiresAt := br_oauthExpiresAt r; sf_lastConnectedAt := br_lastConnectedAt r; sf_hostId := br_hostId r |}.

Record Mt5Host := { mh_id : string; mh_name : string; mh_capacity : Z; mh_status : HostStatus }.
(** [fl_trades] and [fl_seen] are the accounts of the trades with their status and of the
    equity snapshots with their time. *)
Record Fleet := {
  fl_accounts : gmap string BrokerRow; fl_hosts : gmap string Mt5Host;
  fl_trades : list (option string * TradeStatus); fl_seen : list (option string * Z) }.
Definition set_accounts (x : gmap string BrokerRow) (d : Fleet) : Fleet := {|
  fl_accounts := x; fl_hosts := fl_hosts d; fl_trades := fl_trades d; fl_seen := fl_seen d |}.

(** ** OAuth: what Redis holds *)
Record SpotwareAccount := {
  sp_ctid : Z; sp_accountNumber : string; sp_live : bool; sp_brokerTitle : option string; sp_brokerName : option string }.
Record SpotwareSession := {
  ss_userId : string; ss_accessToken : string; ss_refreshToken : string; ss_expiresAt : Z;
  ss_accounts : list SpotwareAccount }.
Record OAuthKeys := { ok_state : gmap string string; ok_session : gmap string SpotwareSession }.
Record OAuthTokens := { ot_accessToken : string; ot_refreshToken : string; ot_expiresAt : Z }.

(** ** Effects *)
Definition Cache : Type := option (list BrokerRow * Z).
(** The answer of the terminal manager: done, or a failure with its HTTP status. *)
Inductive ManagerReply := Provisioned | Failed (status : option Z).

Inductive AcctAct :=
| FStmt (A : Type) (f : Z -> string -> Fleet -> Fleet * Res A)
| CacheDo (A : Type) (f : Z -> Cache -> Cache * A)
| Encrypt (json : JsonObject)
| HttpProvision (host : string) (body : JsonObject)
| HttpDeprovision (host account : string)
| RandomBytes
| KeysDo (A : Type) (f : OAuthKeys -> OAuthKeys * A)
| HttpToken (code : string)
| HttpAccounts (accessToken : string).

Definition acct_result (e : AcctAct) : Type :=
  match e with
  | FStmt A _ => Res A
  | CacheDo A _ => A
  | Encrypt _ => Res Sealed
  | HttpProvision _ _ => ManagerReply
  | HttpDeprovision _ _ => Res unit
  | RandomBytes => string
  | KeysDo A _ => Res A
  | HttpToken _ => Res OAuthTokens
  | HttpAccounts _ => Res (list SpotwareAccount)
  end.
Definition AcctProg (A : Type) : Type := @Prog AcctAct acct_result A.
Definition AcctAsync (A : Type) : Type := @Async AcctAct acct_result A.
Definition does (e : AcctAct) : AcctProg (acct_result e) := perform e.
Definition fquery {A} (q : Fleet -> A) : AcctAsync A := does (FStmt A (fun _ _ d => (d, Ok (q d)))).
Definition fwrite {A} (f : Z -> string -> Fleet -> Fleet * Res A) : AcctAsync A := does (FStmt A f).
Definition cache_do {A} (f : Z -> Cache -> Cache * A) : AcctAsync A := @ask AcctAct acct_result (CacheDo A f).
Definition keys_do {A} (f : OAuthKeys -> OAuthKeys * A) : AcctAsync A := does (KeysDo A f).

(** ** What the effects do

    Entries of Redis expire: any of them may be gone when an effect happens. *)
Record AcctWorld := { aw_db : Fleet; aw_cache : Cache; aw_keys : OAuthKeys }.
Definition with_fleet (d : Fleet) (w : AcctWorld) : AcctWorld := {| aw_db := d; aw_cache := aw_cache w; aw_keys := aw_keys w |}.
Definition with_cache (c : Cache) (w : AcctWorld) : AcctWorld := {| aw_db := aw_db w; aw_cache := c; aw_keys := aw_keys w |}.
Definition with_keys (k : OAuthKeys) (w : AcctWorld) : AcctWorld := {| aw_db := aw_db w; aw_cache := aw_cache w; aw_keys := k |}.
Definition expires (k k' : OAuthKeys) : Prop := ok_state k' ⊆ ok_state k /\ ok_session k' ⊆ ok_session k.
Definition commit_fleet {A} (r : Fleet * Res A) (w : AcctWorld) : AcctWorld :=
  match r.2 with Ok _ => with_fleet r.1 w | Throw _ => w end.
Definition fresh_account (id : string) (d : Fleet) : Prop := fl_accounts d !! id = None.

Section world.
Context (unseal : Sealed -> option JsonObject) (db_down : bool).

Definition acct_sem (_ : nat) (e : AcctAct) (w w' : AcctWorld) : acct_result e -> Prop :=
  match e return acct_result e -> Prop with
  | FStmt A f => fun x =>
      (exists now id, fresh_account id (aw_db w) /\ w' = commit_fleet (f now id (aw_db w)) w /\ x = (f now id (aw_db w)).2)
      \/ (db_down = true /\ w' = w /\ exists e, x = Throw e)
  | CacheDo A f => fun x => exists now, w' = with_cache (f now (aw_cache w)).1 w /\ x = (f now (aw_cache w)).2
  | Encrypt json => fun x => w' = w /\ match x with Ok s => unseal s = Some json | Throw _ => True end
  | KeysDo A f => fun x => exists k, expires (aw_keys w) k /\
      ((w' = with_keys (f k).1 w /\ x = Ok (f k).2) \/ (w' = with_keys k w /\ exists e, x = Throw e))
  | _ => fun _ => w' = w
  end.

(** ** Queries *)
Local Open Scope async_scope.
Definition CONFLICT : string := "ConflictException".
Definition BAD_REQUEST : string := "BadRequestException".
Definition NOT_FOUND : string := "NotFoundException".
Definition UNAUTHORIZED : string := "UnauthorizedException".
Definition BAD_GATEWAY : string := "BadGatewayException".
Definition FORBIDDEN : string := "ForbiddenException".

Definition accounts_list (d : Fleet) : list BrokerRow := rows_of (fl_accounts d).
Definition users_accounts (u : string) (d : Fleet) : list BrokerRow := filter (fun r => br_userId r = u) (accounts_list d).
Definition enabled_count (u : string) (d : Fleet) : Z := count (fun r => bool_decide (br_userId r = u) && br_isEnabled r) (accounts_list d).
Definition account_order (a b : BrokerRow) : bool :=
  if br_sortIndex a =? br_sortIndex b then br_createdAt a <=? br_createdAt b else br_sortIndex a <? br_sortIndex b.
Definition in_account_order (l : list BrokerRow) : list BrokerRow := sort_by account_order l.
Definition enabled_rows (d : Fleet) : list BrokerRow :=
  in_account_order (filter (fun r => br_isEnabled r = true) (accounts_list d)).
(** The terminals a host runs. *)
Definition host_load (h : string) (d : Fleet) : Z := count (fun r => bool_decide (br_hostId r = Some h)) (accounts_list d).

(** Statements on one row; the pair of owner and name is unique. *)
Definition taken (u name : string) (except : option string) (d : Fleet) : bool :=
  existsb (fun r => bool_decide (br_userId r = u) && bool_decide (br_name r = name) &&
                    negb (bool_decide (Some (br_id r) = except))) (accounts_list d).
Definition insert_account (row : Z -> string -> BrokerRow) (now : Z) (id : string) (d : Fleet) : Fleet * Res BrokerRow :=
  let r := row now id in
  if taken (br_userId r) (br_name r) None d then (d, Throw "P2002")
  else (set_accounts (<[id := r]> (fl_accounts d)) d, Ok r).
Definition patch_account (id : string) (f : Z -> BrokerRow -> BrokerRow) (now : Z) (_ : string) (d : Fleet) : Fleet * Res BrokerRow :=
  match fl_accounts d !! id with
  | None => (d, Throw "P2025")
  | Some r =>
      let r' := f now r in
      if taken (br_userId r') (br_name r') (Some id) d then (d, Throw "P2002")
      else (set_accounts (<[id := r']> (fl_accounts d)) d, Ok r')
  end.
Definition delete_account (id : string) (_ : Z) (_ : string) (d : Fleet) : Fleet * Res unit :=
  match fl_accounts d !! id with
  | None => (d, Throw "P2025")
  | Some _ => (set_accounts (delete id (fl_accounts d)) d, Ok tt)
  end.

(** ** Mt5HostService *)
Definition by_load (l : list (Mt5Host * Z)) : list (Mt5Host * Z) := sort_by (fun a b => a.2 <=? b.2) l.
Definition active_hosts (d : Fleet) : list (Mt5Host * Z) :=
  (fun h => (h, host_load (mh_id h) d)) <$> filter (fun h => mh_status h = ACTIVE) (rows_of (fl_hosts d)).
Definition candidates (hosts : list (Mt5Host * Z)) : list (Mt5Host * Z) :=
  by_load (filter (fun hl => hl.2 < mh_capacity hl.1) hosts).
Definition selectHost : AcctAsync Mt5Host :=
  hosts <~ fquery active_hosts ;;
  match candidates hosts with
  | [] => reject CONFLICT
  | h :: _ => resolve h.1
  end.

Definition with_host (host : string) (now : Z) (r : BrokerRow) : BrokerRow := {|
  br_id := br_id r; br_userId := br_userId r; br_name := br_name r; br_broker := br_broker r; br_mode := br_mode r;
  br_sealed := br_sealed r; br_isEnabled := br_isEnabled r; br_sortIndex := br_sortIndex r; br_createdAt := br_createdAt r;
  br_accountNumber := br_accountNumber r; br_accountKind := br_accountKind r; br_brokerName := br_brokerName r;
  br_oauthExpiresAt := br_oauthExpiresAt r; br_lastConnectedAt := Some now; br_hostId := Some host |}.
(** The body is [{ accountId, ...creds }]. *)
Definition provision_body (accountId : string) (creds : JsonObject) : JsonObject :=
  spread [("accountId", JString accountId)] creds.
Definition provision_error (status : option Z) : string :=
  match status with
  | Some 401 => UNAUTHORIZED
  | Some 409 => CONFLICT
  | _ => BAD_GATEWAY
  end.
Definition provision (accountId : string) (creds : JsonObject) : AcctAsync unit :=
  host <~ selectHost ;;
  pbind (does (HttpProvision (mh_id host) (provision_body accountId creds))) (fun reply =>
  match reply with
  | Failed status => reject (provision_error status)
  | Provisioned =>
      try_catch (await! fwrite (patch_account accountId (with_host (mh_id host))) ;; resolve tt)
                (fun _ => reject BAD_GATEWAY)
  end).
Definition deprovision (accountId : string) : AcctAsync unit :=
  acct <~ fquery (fun d => fl_accounts d !! accountId) ;;
  match acct ≫= br_hostId with
  | None => resolve tt
  | Some host => swallow (does (HttpDeprovision host accountId) : AcctAsync unit)
  end.

(** ** BrokerAccountsService *)

(** [parseInt] of the environment; [None] is NaN.  [@Optional()] [mt5Hosts] is there. *)
Context (softCap : option Z).
Definition at_cap (n : Z) : bool := match softCap with Some c => c <=? n | None => false end.
Definition invalidate : AcctAsync unit := cache_do (fun _ _ => (None, tt)).

Record CreateDto := {
  cd_name : string; cd_broker : BrokerKind; cd_mode : EngineMode; cd_creds : option JsonObject; cd_isEnabled : option bool }.
Record CreateExtra := {
  ex_creds : JsonObject; ex_accountNumber : option string; ex_accountKind : option AccountKind;
  ex_brokerName : option string; ex_oauthExpiresAt : option Z }.

Definition requireStr (c : JsonObject) (key : string) (max : nat) : bool :=
  match map_get key c with
  | Some (JString v) => (0 <? String.length v)%nat && (String.length v <=? max)%nat
  | _ => false
  end.
Definition validateCreds (dto : CreateDto) : bool :=
  match cd_broker dto, cd_creds dto with
  | CTRADER, _ | _, None => true
  | MT5_DIRECT, Some c => requireStr c "login" 32 && requireStr c "password" 128 && requireStr c "server" 128
  | _, Some c => requireStr c "accountId" 128 && requireStr c "accessToken" 1024
  end.

Definition new_account (userId : string) (dto : CreateDto) (extra : option CreateExtra) (s : Sealed) (now : Z) (id : string) : BrokerRow := {|
  br_id := id; br_userId := userId; br_name := cd_name dto; br_broker := cd_broker dto; br_mode := cd_mode dto;
  br_sealed := s; br_isEnabled := default false (cd_isEnabled dto); br_sortIndex := 0; br_createdAt := now;
  br_accountNumber := extra ≫= ex_accountNumber; br_accountKind := extra ≫= ex_accountKind;
  br_brokerName := extra ≫= ex_brokerName; br_oauthExpiresAt := extra ≫= ex_oauthExpiresAt;
  br_lastConnectedAt := None; br_hostId := None |}.

(** The credentials to store. *)
Definition creds_json (dto : CreateDto) (extra : option CreateExtra) : option JsonObject :=
  match cd_broker dto with CTRADER => ex_creds <$> extra | _ => cd_creds dto end.
Definition check_cap (userId : string) (wanted : bool) : AcctAsync unit :=
  if wanted then
    n <~ fquery (enabled_count userId) ;;
    if at_cap n then reject CONFLICT else resolve tt
  else resolve tt.
Definition fail_clean (accountId : string) (m : AcctAsync unit) : AcctAsync unit :=
  try_catch m (fun e => await! fwrite (delete_account accountId) ;; await! invalidate ;; reject e).

Definition create (userId : string) (dto : CreateDto) (extra : option CreateExtra) : AcctAsync SafeRow :=
  await! check_cap userId (negb (bool_decide (cd_isEnabled dto = Some false))) ;;
  if negb (validateCreds dto) then reject BAD_REQUEST
  else
    match creds_json dto extra with
    | None => reject BAD_REQUEST
    | Some json =>
        sealed <~ (does (Encrypt json) : AcctAsync Sealed) ;;
        account <~ fwrite (insert_account (new_account userId dto extra sealed)) ;;
        await! invalidate ;;
        await! (match cd_broker dto with
                | MT5_DIRECT => fail_clean (br_id account) (provision (br_id account) (default [] (cd_creds dto)))
                | _ => resolve tt
                end) ;;
        resolve (toSafe account)
    end.

Definition resealed (s : Sealed) (oauthExpiresAt : option Z) (_ : Z) (r : BrokerRow) : BrokerRow := {|
  br_id := br_id r; br_userId := br_userId r; br_name := br_name r; br_broker := br_broker r; br_mode := br_mode r;
  br_sealed := s; br_isEnabled := br_isEnabled r; br_sortIndex := br_sortIndex r; br_createdAt := br_createdAt r;
  br_accountNumber := br_accountNumber r; br_accountKind := br_accountKind r; br_brokerName := br_brokerName r;
  br_oauthExpiresAt := match oauthExpiresAt with Some t => Some t | None => br_oauthExpiresAt r end;
  br_lastConnectedAt := br_lastConnectedAt r; br_hostId := br_hostId r |}.
Definition updateCreds (accountId : string) (json : JsonObject) (oauthExpiresAt : option Z) : AcctAsync SafeRow :=
  sealed <~ (does (Encrypt json) : AcctAsync Sealed) ;;
  updated <~ fwrite (patch_account accountId (resealed sealed oauthExpiresAt)) ;;
  await! invalidate ;;
  resolve (toSafe updated).

Definition findByIdWithCreds (id : string) : AcctAsync BrokerRow :=
  acct <~ fquery (fun d => fl_accounts d !! id) ;;
  match acct with Some r => resolve r | None => reject NOT_FOUND end.
Definition decryptCreds (accountId : string) : AcctAsync JsonObject :=
  acct <~ findByIdWithCreds accountId ;;
  match unseal (br_sealed acct) with Some json => resolve json | None => reject "Unsupported state or unable to authenticate data" end.

Definition last_seen (l : list (option string * Z)) (id : string) : option Z :=
  foldl (fun m s => if bool_decide (s.1 = Some id) then Some (match m with Some t => Z.max t s.2 | None => s.2 end) else m) None l.
Definition findAllForUser (userId : string) : AcctAsync (list (SafeRow * option Z)) :=
  rows <~ fquery (fun d => in_account_order (users_accounts userId d)) ;;
  seen <~ fquery (fun d => filter (fun s => match s.1 with Some a => bool_decide (a ∈ br_id <$> rows) | None => false end = true) (fl_seen d)) ;;
  resolve ((fun r => (toSafe r, last_seen seen (br_id r))) <$> rows).

(** The row of [id] when the user owns it. *)
Definition owned_row (userId id : string) : AcctAsync BrokerRow :=
  acct <~ fquery (fun d => fl_accounts d !! id) ;;
  match acct with
  | Some r => if bool_decide (br_userId r = userId) then resolve r else reject NOT_FOUND
  | None => reject NOT_FOUND
  end.
Definition findOneForUser (userId id : string) : AcctAsync SafeRow :=
  r <~ owned_row userId id ;; resolve (toSafe r).

Definition TTL_MS : Z := 30000.
Definition cached (now : Z) (c : Cache) : option (list BrokerRow) :=
  match c with Some (value, expiresAt) => if now <? expiresAt then Some value else None | None => None end.
Definition findEnabled : AcctAsync (list BrokerRow) :=
  hit <~ cache_do (fun now c => (c, cached now c)) ;;
  match hit with
  | Some value => resolve value
  | None =>
      value <~ fquery enabled_rows ;;
      await! cache_do (fun now _ => (Some (value, now + TTL_MS), tt)) ;;
      resolve value
  end.

Record UpdateDto := {
  ud_name : option string; ud_isEnabled : option bool; ud_mode : option EngineMode; ud_sortIndex : option Z }.
Definition updated_row (dto : UpdateDto) (_ : Z) (r : BrokerRow) : BrokerRow := {|
  br_id := br_id r; br_userId := br_userId r; br_name := default (br_name r) (ud_name dto); br_broker := br_broker r;
  br_mode := default (br_mode r) (ud_mode dto); br_sealed := br_sealed r;
  br_isEnabled := default (br_isEnabled r) (ud_isEnabled dto); br_sortIndex := default (br_sortIndex r) (ud_sortIndex dto);
  br_createdAt := br_createdAt r; br_accountNumber := br_accountNumber r; br_accountKind := br_accountKind r;
  br_brokerName := br_brokerName r; br_oauthExpiresAt := br_oauthExpiresAt r;
  br_lastConnectedAt := br_lastConnectedAt r; br_hostId := br_hostId r |}.
Definition update (userId id : string) (dto : UpdateDto) : AcctAsync SafeRow :=
  acct <~ owned_row userId id ;;
  await! check_cap userId (bool_decide (ud_isEnabled dto = Some true) && negb (br_isEnabled acct)) ;;
  updated <~ fwrite (patch_account id (updated_row dto)) ;;
  await! invalidate ;;
  resolve (toSafe updated).

Definition open_trades (id : string) (d : Fleet) : Z :=
  count (fun t => bool_decide (t.1 = Some id) && bool_decide (t.2 = OPEN)) (fl_trades d).
Definition disabled (_ : Z) (r : BrokerRow) : BrokerRow :=
  updated_row {| ud_name := None; ud_isEnabled := Some false; ud_mode := None; ud_sortIndex := None |} 0 r.
Definition delete_ (userId id : string) (force : bool) : AcctAsync unit :=
  acct <~ owned_row userId id ;;
  openTrades <~ fquery (open_trades id) ;;
  if (0 <? openTrades) && negb force then reject CONFLICT
  else
    await! (if (0 <? openTrades) && force then
              await! fwrite (patch_account id disabled) ;; resolve tt
            else
              await! (match br_broker acct with MT5_DIRECT => deprovision id | _ => resolve tt end) ;;
              fwrite (delete_account id)) ;;
    invalidate.

(** ** BrokerOAuthService *)
Definition put_state (s u : string) (k : OAuthKeys) : OAuthKeys := {| ok_state := <[s := u]> (ok_state k); ok_session := ok_session k |}.
Definition del_state (s : string) (k : OAuthKeys) : OAuthKeys := {| ok_state := delete s (ok_state k); ok_session := ok_session k |}.
Definition put_session (s : string) (x : SpotwareSession) (k : OAuthKeys) : OAuthKeys := {| ok_state := ok_state k; ok_session := <[s := x]> (ok_session k) |}.
Definition del_session (s : string) (k : OAuthKeys) : OAuthKeys := {| ok_state := ok_state k; ok_session := delete s (ok_session k) |}.
Definition random : AcctAsync string := @ask AcctAct acct_result RandomBytes.

(** The answer holds the address of the consent page, which names the state. *)
Definition startOAuth (userId : string) : AcctAsync string :=
  state <~ random ;;
  await! keys_do (fun k => (put_state state userId k, tt)) ;;
  resolve state.

Definition handleCallback (code state : string) : AcctAsync (string * list SpotwareAccount) :=
  raw <~ keys_do (fun k => (k, ok_state k !! state)) ;;
  match raw with
  | None => reject BAD_REQUEST
  | Some userId =>
      await! keys_do (fun k => (del_state state k, tt)) ;;
      tokens <~ (does (HttpToken code) : AcctAsync OAuthTokens) ;;
      accounts <~ (does (HttpAccounts (ot_accessToken tokens)) : AcctAsync (list SpotwareAccount)) ;;
      sessionId <~ random ;;
      let session := {| ss_userId := userId; ss_accessToken := ot_accessToken tokens; ss_refreshToken := ot_refreshToken tokens;
                        ss_expiresAt := ot_expiresAt tokens; ss_accounts := accounts |} in
      await! keys_do (fun k => (put_session sessionId session k, tt)) ;;
      resolve (sessionId, accounts)
  end.

Definition kind_of (a : SpotwareAccount) : AccountKind := if sp_live a then LIVE else DEMO.
Definition kind_text (a : SpotwareAccount) : string := if sp_live a then "LIVE" else "DEMO".
Definition oauth_creds (s : SpotwareSession) (a : SpotwareAccount) : JsonObject :=
  [("accessToken", JString (ss_accessToken s)); ("refreshToken", JString (ss_refreshToken s));
   ("ctidTraderAccountId", JNumber (sp_ctid a)); ("expiresAt", JNumber (ss_expiresAt s));
   ("accountKind", JString (kind_text a))]%string.
Definition oauth_extra (s : SpotwareSession) (a : SpotwareAccount) : CreateExtra := {|
  ex_creds := oauth_creds s a; ex_accountNumber := Some (sp_accountNumber a); ex_accountKind := Some (kind_of a);
  ex_brokerName := match sp_brokerName a with Some n => Some n | None => sp_brokerTitle a end;
  ex_oauthExpiresAt := Some (ss_expiresAt s * 1000) |}.
Definition oauth_dto (name : string) (isEnabled : bool) : CreateDto := {|
  cd_name := name; cd_broker := CTRADER; cd_mode := metaapi; cd_creds := None; cd_isEnabled := Some isEnabled |}.
Definition finalize (userId oauthSessionId : string) (ctid : Z) (name : string) (isEnabled : bool) : AcctAsync SafeRow :=
  raw <~ keys_do (fun k => (k, ok_session k !! oauthSessionId)) ;;
  match raw with
  | None => reject BAD_REQUEST
  | Some session =>
      if negb (bool_decide (ss_userId session = userId)) then reject FORBIDDEN
      else
        match head (filter (fun a => sp_ctid a = ctid) (ss_accounts session)) with
        | None => reject BAD_REQUEST
        | Some account =>
            created <~ create userId (oauth_dto name isEnabled) (Some (oauth_extra session account)) ;;
            await! keys_do (fun k => (del_session oauthSessionId k, tt)) ;;
            resolve created
        end
  end.

Definition token_fields (t : OAuthTokens) : JsonObject :=
  [("accessToken", JString (ot_accessToken t)); ("refreshToken", JString (ot_refreshToken t));
   ("expiresAt", JNumber (ot_expiresAt t))]%string.
Definition storeRefreshedTokens (accountId : string) (tokens : OAuthTokens) : AcctAsync unit :=
  existing <~ decryptCreds accountId ;;
  await! updateCreds accountId (spread existing (token_fields tokens)) (Some (ot_expiresAt tokens * 1000)) ;;
  resolve tt.
End world.
