(* ===== verification/BrokerFacts.v ===== *)
(** * Theorems about broker accounts

    Requests of other users, in any number and any interleaving, leave a user's accounts
    alone; one request after the other, the cap on enabled accounts, the capacity of the
    hosts and the cache of enabled accounts hold. *)
From S2P Require Import Prelude Async JsNum JsDate Types LiveTypes AuthTypes DeskTypes BrokerAccounts.

Section facts.
Context (unseal : Sealed -> option JsonObject) (softCap : option Z).

(** ** Isolation *)
Section isolation.
Context (v : string) (V : gmap string BrokerRow).
Definition rows_of_user (d : Fleet) : gmap string BrokerRow := filter (fun kv => br_userId kv.2 = v) (fl_accounts d).

(** Every statement the program can make keeps the rows of [v] at [V], whatever it was
    answered from databases in which they are [V]. *)
Fixpoint spares {A} (p : AcctProg A) : Prop :=
  match p with
  | Ret _ => True
  | Act e k =>
      match e return (acct_result e -> Prop) -> Prop with
      | FStmt B f => fun next =>
          (forall now id d, fresh_account id d -> rows_of_user d = V ->
             rows_of_user (f now id d).1 = V /\ next (f now id d).2) /\ forall m, next (Throw m)
      | _ => fun next => forall x, next x
      end (fun x => spares (k x))
  end.

Lemma spares_bind {A B} (p : AcctProg A) (f : A -> AcctProg B) : spares p -> (forall a, spares (f a)) -> spares (pbind p f).
Proof.
  intros Hp Hf. induction p as [a|e k IH]; simpl; [auto|]. destruct e; simpl in *; auto.
  destruct Hp as [H1 H2]. split; [|auto]. intros now id d Hi Hd. destruct (H1 now id d Hi Hd). auto.
Qed.
Lemma spares_await {A B} (m : AcctAsync A) (k : A -> AcctAsync B) : spares m -> (forall a, spares (k a)) -> spares (await m k).
Proof. intros Hm Hk. apply spares_bind; [done|]. intros [a|e]; simpl; auto. Qed.
Lemma spares_try {A} (m : AcctAsync A) h : spares m -> (forall e, spares (h e)) -> spares (try_catch m h).
Proof. intros Hm Hh. apply spares_bind; [done|]. intros [a|e]; simpl; auto. Qed.
Lemma spares_swallow {A} (m : AcctAsync A) : spares m -> spares (swallow m).
Proof. intros Hm. apply spares_bind; [done|]. done. Qed.
Lemma spares_query {A} (q : Fleet -> A) : spares (fquery q).
Proof. split; [|done]. intros now id d _ Hd. by split. Qed.

(** A row that is not one of [v]'s. *)
Definition foreign (id : string) : Prop := V !! id = None.
Lemma rows_lookup d id : rows_of_user d = V ->
  V !! id = match fl_accounts d !! id with Some r => if decide (br_userId r = v) then Some r else None | None => None end.
Proof.
  intros <-. unfold rows_of_user. destruct (fl_accounts d !! id) as [r|] eqn:E.
  - case_decide; [by apply map_lookup_filter_Some_2|]. apply map_lookup_filter_None_2. right. intros r'. rewrite E. by intros [= <-].
  - apply map_lookup_filter_None_2. by left.
Qed.
Lemma foreign_seen d id r : rows_of_user d = V -> fl_accounts d !! id = Some r -> br_userId r <> v -> foreign id.
Proof. intros Hd Hr Hu. unfold foreign. by rewrite (rows_lookup d id Hd), Hr, decide_False. Qed.
Lemma keeps_rows d id r : rows_of_user d = V -> foreign id -> br_userId r <> v ->
  rows_of_user (set_accounts (<[id := r]> (fl_accounts d)) d) = V.
Proof.
  intros Hd Hf Hu. unfold rows_of_user. simpl. rewrite map_filter_insert_False by done. rewrite map_filter_delete.
  change (delete id (rows_of_user d) = V). rewrite Hd. by apply delete_id.
Qed.

Lemma spares_patch {B} id f (k : BrokerRow -> AcctAsync B) : foreign id -> (forall now r, br_userId (f now r) = br_userId r) ->
  (forall r, spares (k r)) -> spares (r <~ fwrite (patch_account id f) ;; k r)%async.
Proof.
  intros Hf Hu Hk. apply spares_await; [|done]. split; [|done]. intros now i d _ Hd. split; [|done]. unfold patch_account.
  destruct (fl_accounts d !! id) as [r|] eqn:E; [|done]. destruct (taken _ _ _ _); [done|]. apply keeps_rows; [done..|].
  rewrite Hu. intros Hr. unfold foreign in Hf. rewrite (rows_lookup d id Hd), E in Hf. by case_decide.
Qed.
Lemma spares_delete id : foreign id -> spares (fwrite (delete_account id)).
Proof.
  intros Hf. split; [|done]. intros now i d _ Hd. split; [|done]. unfold delete_account.
  destruct (fl_accounts d !! id) as [r|] eqn:E; [|done]. unfold rows_of_user. simpl. rewrite map_filter_delete.
  change (delete id (rows_of_user d) = V). rewrite Hd. by apply delete_id.
Qed.

(** ** The requests of a user *)
Inductive user_request (u : string) : AcctProg unit -> Prop :=
| ur_create dto extra : user_request u (detached (create softCap u dto extra))
| ur_list : user_request u (detached (findAllForUser u))
| ur_one id : user_request u (detached (findOneForUser u id))
| ur_update id dto : user_request u (detached (update softCap u id dto))
| ur_delete id force : user_request u (detached (delete_ u id force))
| ur_oauth : user_request u (detached (startOAuth u))
| ur_callback code state : user_request u (detached (handleCallback code state))
| ur_finalize sid ctid name on : user_request u (detached (finalize softCap u sid ctid name on))
| ur_enabled : user_request u (detached findEnabled).

Context (u : string) (Huv : u <> v).

Lemma spares_owned {B} id (k : BrokerRow -> AcctAsync B) :
  (forall r, foreign id -> spares (k r)) -> spares (r <~ owned_row u id ;; k r)%async.
Proof.
  intros Hk. split; [|done]. intros now i d _ Hd. split; [done|]. simpl.
  destruct (fl_accounts d !! id) as [r|] eqn:E; [|done]. case_bool_decide as Hr; [|done]. simpl. apply Hk.
  apply (foreign_seen d id r); [done..|congruence].
Qed.
Lemma spares_cap w : spares (check_cap softCap u w).
Proof. unfold check_cap. destruct w; [|done]. apply spares_await; [apply spares_query|]. intros n. by destruct (at_cap softCap n). Qed.
Lemma spares_provision id creds : foreign id -> spares (provision id creds).
Proof.
  intros Hf. unfold provision. apply spares_await.
  - unfold selectHost. apply spares_await; [apply spares_query|]. intros l. by destruct (candidates l).
  - intros h [|st]; [|done]. apply spares_try; [|done]. by apply spares_patch.
Qed.
Lemma spares_create dto extra : spares (create softCap u dto extra).
Proof.
  unfold create. apply spares_await; [apply spares_cap|]. intros _. destruct (negb _); [done|].
  destruct (creds_json dto extra) as [json|]; [|done]. intros [s|e]; [|done]. simpl. split; [|done].
  intros now id d Hi Hd. unfold insert_account. simpl. destruct (taken _ _ _ _); [by split|].
  assert (Hf : foreign id) by (unfold foreign; by rewrite (rows_lookup d id Hd), Hi).
  split; [by apply keeps_rows|]. simpl. intros _. apply spares_await; [|done].
  destruct (cd_broker dto); try done. apply spares_try; [by apply spares_provision|].
  intros e. apply spares_await; [by apply spares_delete|]. intros _ x. done.
Qed.

Lemma user_request_spares p : user_request u p -> spares p.
Proof.
  intros [dto extra| |id|id dto|id force| |code st|sid ctid name on|]; unfold detached; (apply spares_bind; [|done]).
  - apply spares_create.
  - unfold findAllForUser. apply spares_await; [apply spares_query|]. intros rows. by apply spares_await; [apply spares_query|].
  - by apply spares_owned.
  - unfold update. apply spares_owned. intros r Hf. apply spares_await; [apply spares_cap|]. intros _. by apply spares_patch.
  - unfold delete_. apply spares_owned. intros r Hf. apply spares_await; [apply spares_query|]. intros n.
    destruct (_ && negb force); [done|]. apply spares_await; [|done]. destruct (_ && force); [by apply spares_patch|].
    apply spares_await; [|by intros; apply spares_delete]. destruct (br_broker r); try done. unfold deprovision.
    apply spares_await; [apply spares_query|]. intros a. by destruct (a ≫= br_hostId).
  - intros s [[]|e]; done.
  - unfold handleCallback. intros [[raw|]|e]; simpl; try done. intros [[]|e]; simpl; [|done]. intros [t|e]; simpl; [|done].
    intros [l|e]; simpl; [|done]. intros s [[]|e]; done.
  - unfold finalize. intros [[s|]|e]; simpl; try done. destruct (negb _); [done|].
    destruct (head _) as [a|]; [|done]. apply spares_await; [apply spares_create|]. intros r x. by destruct x.
  - intros [l|]; [done|]. simpl. split; [|done]. intros now id d _ Hd. by split.
Qed.
End isolation.

(** A predicate of the threads that every step preserves. *)
Lemma pool_stable {S} (sem : nat -> forall e : AcctAct, S -> S -> acct_result e -> Prop) entry (ok : AcctProg unit -> Prop) (Inv : S -> Prop) c c' :
  (forall p, entry p -> ok p) ->
  (forall i e k s s' x, ok (Act e k) -> Inv s -> sem i e s s' x -> Inv s' /\ ok (k x)) ->
  rtc (pstep sem entry) c c' -> Forall ok (threads c) -> Inv (shared c) -> Inv (shared c') /\ Forall ok (threads c').
Proof.
  intros Hentry Hstep. induction 1 as [c|c c1 c' Hs _ IH]; intros Hts HI; [done|].
  destruct Hs as [s ts i e k s' x Hi Hsem|s ts p Hp]; simpl in *.
  - pose proof (proj1 (Forall_lookup _ _) Hts _ _ Hi) as Hok. destruct (Hstep _ _ _ _ _ _ Hok HI Hsem) as [HI' Hk].
    apply IH; [by apply Forall_insert|done].
  - apply IH; [|done]. apply Forall_app. auto.
Qed.

(** C23: A user's accounts are untouched by everybody else: however many requests of other
    users run, interleaved in any way, with the database, Redis and the hosts failing at
    will, every account of the user is the same row in the end, and no row of the user
    appears. *)
Theorem accounts_isolated v c c' :
  rtc (pstep (acct_sem unseal true) (fun p => exists u, u <> v /\ user_request u p)) c c' -> threads c = [] ->
  rows_of_user v (aw_db (shared c')) = rows_of_user v (aw_db (shared c)).
Proof.
  intros Hr Ht. set (V := rows_of_user v (aw_db (shared c))).
  eapply (pool_stable (acct_sem unseal true) _ (spares v V) (fun w => rows_of_user v (aw_db w) = V)); [| |exact Hr|by rewrite Ht|done].
  - intros p (u & Hu & Hp). by eapply user_request_spares.
  - intros i e k s s' x Hok HI Hx. destruct e; simpl in *; try (subst; auto; fail).
    + destruct Hok as [H1 H2]. destruct Hx as [(now & id & Hf & -> & ->)|(_ & -> & m & ->)]; [|auto].
      destruct (H1 now id (aw_db s) Hf HI) as [H3 H4]. split; [|done]. unfold commit_fleet. by destruct (f now id (aw_db s)).2.
    + destruct Hx as (now & -> & ->). auto.
    + destruct Hx as [-> _]. auto.
    + destruct Hx as (k0 & _ & [[-> ->]|[-> _]]); auto.
Qed.

(** ** One request after the other *)
Notation lv := (leaves (acct_sem unseal true) 0).

Record tidy (d : Fleet) : Prop := {
  td_ids : forall id r, fl_accounts d !! id = Some r -> br_id r = id;
  td_hosts : forall h x, fl_hosts d !! h = Some x -> mh_id x = h;
  td_cap : forall u c, softCap = Some c -> enabled_count u d <= c;
  td_load : forall h x, fl_hosts d !! h = Some x -> host_load h d <= mh_capacity x;
  td_names : forall i j r s, fl_accounts d !! i = Some r -> fl_accounts d !! j = Some s ->
    br_userId r = br_userId s -> br_name r = br_name s -> i = j }.
Definition stored (w : AcctWorld) : Prop := tidy (aw_db w).
Definition current (w : AcctWorld) : Prop := stored w /\ forall l t, aw_cache w = Some (l, t) -> l = enabled_rows (aw_db w).
Definition uncached (w : AcctWorld) : Prop := stored w /\ aw_cache w = None.
Definition room (u : string) (w : AcctWorld) : Prop := forall c, softCap = Some c -> enabled_count u (aw_db w) < c.

Lemma uncached_current w : uncached w -> current w.
Proof. intros [H1 H2]. split; [done|]. intros l t. by rewrite H2. Qed.

(** *** Statements *)
Lemma taken_false u name ex d i r : tidy d -> taken u name ex d = false -> fl_accounts d !! i = Some r ->
  br_userId r = u -> br_name r = name -> ex = Some i.
Proof.
  intros Hd Ht Hr Hu Hn. destruct (decide (Some (br_id r) = ex)) as [<-|Hne]; [by rewrite (td_ids d Hd _ _ Hr)|].
  exfalso. enough (taken u name ex d = true) by congruence. unfold taken. apply existsb_exists. exists r. split.
  - apply list_elem_of_In. unfold accounts_list, rows_of. apply list_elem_of_fmap. exists (i, r). split; [done|].
    by apply elem_of_map_to_list.
  - rewrite !bool_decide_eq_true_2 by done. by rewrite bool_decide_eq_false_2.
Qed.

(** A row put under its identifier, whose name is not taken. *)
Lemma tidy_put d id r' :
  tidy d -> br_id r' = id -> taken (br_userId r') (br_name r') (Some id) d = false ->
  (br_isEnabled r' = true -> (exists r, fl_accounts d !! id = Some r /\ br_userId r = br_userId r' /\ br_isEnabled r = true) \/
     forall c, softCap = Some c -> enabled_count (br_userId r') d < c) ->
  (forall h, br_hostId r' = Some h -> (exists r, fl_accounts d !! id = Some r /\ br_hostId r = Some h) \/
     forall x, fl_hosts d !! h = Some x -> host_load h d < mh_capacity x) ->
  tidy (set_accounts (<[id := r']> (fl_accounts d)) d).
Proof.
  intros Hd Hid Ht He Hh. split; simpl.
  - intros i r. intros [[<- <-]|[_ H]]%lookup_insert_Some; [done|by apply (td_ids d Hd)].
  - apply (td_hosts d Hd).
  - intros u c Hc. pose proof (td_cap d Hd u c Hc) as H. unfold enabled_count, accounts_list in *. simpl. rewrite count_insert.
    assert (Hold : 0 <= match fl_accounts d !! id with Some y => if bool_decide (br_userId y = u) && br_isEnabled y then 1 else 0 | None => 0 end)
      by (repeat case_match; lia).
    destruct (bool_decide (br_userId r' = u) && br_isEnabled r') eqn:E; [|lia].
    apply andb_true_iff in E as [E1%bool_decide_eq_true E2]. destruct (He E2) as [(r & Hr & Hu & Hen)|Hroom].
    + rewrite Hr, Hen, bool_decide_eq_true_2 by congruence. simpl. lia.
    + specialize (Hroom c Hc). unfold enabled_count, accounts_list in Hroom. rewrite E1 in Hroom. lia.
  - intros h x Hx. pose proof (td_load d Hd h x Hx) as H. unfold host_load, accounts_list in *. simpl. rewrite count_insert.
    assert (Hold : 0 <= match fl_accounts d !! id with Some y => if bool_decide (br_hostId y = Some h) then 1 else 0 | None => 0 end)
      by (repeat case_match; lia).
    case_bool_decide as E; [|lia]. destruct (Hh h E) as [(r & Hr & Hrh)|Hroom].
    + rewrite Hr, bool_decide_eq_true_2 by done. lia.
    + specialize (Hroom x Hx). unfold host_load, accounts_list in Hroom. lia.
  - intros i j r s Hi Hj Hu Hn. apply lookup_insert_Some in Hi as [[<- <-]|[Hi' Hi]], Hj as [[<- <-]|[Hj' Hj]]; try done.
    + symmetry in Hu, Hn. pose proof (taken_false _ _ _ d j s Hd Ht Hj Hu Hn). congruence.
    + pose proof (taken_false _ _ _ d i r Hd Ht Hi Hu Hn). congruence.
    + by eapply (td_names d Hd).
Qed.
Lemma tidy_delete d id : tidy d -> tidy (set_accounts (delete id (fl_accounts d)) d).
Proof.
  intros Hd. split; simpl.
  - intros i r [_ H]%lookup_delete_Some. by apply (td_ids d Hd).
  - apply (td_hosts d Hd).
  - intros u c Hc. pose proof (td_cap d Hd u c Hc) as H. unfold enabled_count, accounts_list in *. simpl. rewrite count_delete.
    repeat case_match; lia.
  - intros h x Hx. pose proof (td_load d Hd h x Hx) as H. unfold host_load, accounts_list in *. simpl. rewrite count_delete.
    repeat case_match; lia.
  - intros i j r s [_ Hi]%lookup_delete_Some [_ Hj]%lookup_delete_Some. by apply (td_names d Hd).
Qed.
Lemma taken_none u name ex d : taken u name None d = false -> taken u name ex d = false.
Proof.
  unfold taken. intros H. apply not_true_iff_false. intros (r & Hr & Ht)%existsb_exists. revert H. apply not_false_iff_true, existsb_exists.
  exists r. split; [done|]. apply andb_true_iff in Ht as [-> _]. done.
Qed.

(** *** Single effects *)
Lemma lv_query {A} P (q : Fleet -> A) : lv P (fquery q) (fun r w => P w /\ forall a, r = Ok a -> a = q (aw_db w)).
Proof.
  intros w w' r Hw (w1 & x & Hx & -> & ->). simpl in Hx. destruct Hx as [(now & id & _ & -> & ->)|(_ & -> & m & ->)].
  - unfold commit_fleet, with_fleet. simpl. destruct w. split; [done|]. by intros a [= <-].
  - split; [done|]. by intros a [=].
Qed.
Lemma lv_query_then {A B} P (q : Fleet -> A) (k : A -> AcctAsync B) (Q : Res B -> AcctWorld -> Prop) :
  (forall e w, P w -> Q (Throw e) w) -> (forall a, lv (fun w => P w /\ a = q (aw_db w)) (k a) Q) -> lv P (a <~ fquery q ;; k a)%async Q.
Proof.
  intros He Hk. eapply leaves_await; [|exact Hk]. eapply leaves_conseq; [intros w Hw; exact Hw| |apply lv_query].
  intros [a|e] w [Hw Ha]; auto.
Qed.
Lemma lv_invalidate P : (forall w, P w -> stored w) -> lv P invalidate (fun r w => r = Ok tt /\ uncached w).
Proof.
  intros HP w w' r Hw (w1 & x & (now & Hc & Hx) & -> & ->). simpl in *. subst. split; [done|]. split; [|done]. by apply (HP w).
Qed.
Lemma lv_harmless {A} P (e : AcctAct) (cast : acct_result e -> Res A) :
  match e with Encrypt _ | HttpProvision _ _ | HttpDeprovision _ _ | RandomBytes | HttpToken _ | HttpAccounts _ => True | _ => False end ->
  lv P (pbind (does e) (fun x => Ret (cast x))) (fun _ => P).
Proof. intros He w w' r Hw (w1 & x & Hx & -> & ->). destruct e; simpl in *; try done; by (subst || destruct Hx as [-> _]). Qed.
Lemma lv_keys {A} P (f : OAuthKeys -> OAuthKeys * A) : (forall w k, P w -> P (with_keys k w)) -> lv P (keys_do f) (fun _ => P).
Proof. intros HP w w' r Hw (w1 & x & (k & _ & Hx) & -> & ->). destruct Hx as [[-> _]|[-> _]]; by apply HP. Qed.

(** A write that leaves the table tidy; what the cache holds is then unknown. *)
Lemma lv_put {A} (P Q : AcctWorld -> Prop) (f : Z -> string -> Fleet -> Fleet * Res A) :
  (forall w, P w -> Q w) ->
  (forall w now id d' a, P w -> fresh_account id (aw_db w) -> f now id (aw_db w) = (d', Ok a) -> Q (with_fleet d' w)) ->
  lv P (fwrite f) (fun _ => Q).
Proof.
  intros H0 Hf w w' r Hw (w1 & x & Hx & -> & ->). simpl in Hx. destruct Hx as [(now & id & Hi & -> & ->)|(_ & -> & _)]; [|auto].
  unfold commit_fleet. destruct (f now id (aw_db w)) as [d' [a|e]] eqn:E; simpl; [|auto]. by eapply Hf.
Qed.

(** *** Hosts *)
Lemma candidates_head l h hs : candidates l = h :: hs -> h ∈ l /\ h.2 < mh_capacity h.1.
Proof.
  intros H. assert (h ∈ candidates l) as Hh by (rewrite H; by left). unfold candidates, by_load in Hh. rewrite sort_by_perm in Hh.
  apply list_elem_of_filter in Hh as [? ?]. done.
Qed.
Definition chosen (host : Mt5Host) (w : AcctWorld) : Prop :=
  forall x, fl_hosts (aw_db w) !! mh_id host = Some x -> host_load (mh_id host) (aw_db w) < mh_capacity x.
Lemma select_chosen P : (forall w, P w -> stored w) ->
  lv P selectHost (fun r w => P w /\ forall h, r = Ok h -> chosen h w).
Proof.
  intros HP. unfold selectHost. apply lv_query_then; [intros e w Hw; by split|]. intros l.
  destruct (candidates l) as [|h hs] eqn:E; apply leaves_ret; intros w [Hw ->]; (split; [done|]); [by intros h|].
  intros h' [= <-] x Hx. destruct (candidates_head _ _ _ E) as [Hin Hlt]. unfold active_hosts in Hin.
  apply list_elem_of_fmap in Hin as (h0 & -> & Hin). simpl in *. apply list_elem_of_filter in Hin as [_ Hin].
  unfold rows_of in Hin. apply list_elem_of_fmap in Hin as ([i h1] & -> & Hin). apply elem_of_map_to_list in Hin. simpl in *.
  pose proof (td_hosts (aw_db w) (HP w Hw) _ _ Hin) as Hi. rewrite Hi in Hx |- *. rewrite Hin in Hx. injection Hx as <-. by rewrite Hi in Hlt.
Qed.

Lemma provision_uncached id creds : lv uncached (provision id creds) (fun _ => uncached).
Proof.
  unfold provision. eapply leaves_await with (M := fun h w => uncached w /\ chosen h w).
  { eapply leaves_conseq; [intros w Hw; exact Hw| |apply (select_chosen uncached); by intros w [? ?]].
    intros [h|e] w [Hw Hh]; [exact (conj Hw (Hh h eq_refl))|exact Hw]. }
  intros h. eapply leaves_bind with (M := fun _ w => uncached w /\ chosen h w).
  { intros w w' x Hw (w1 & z & Hz & -> & ->). simpl in Hz. by subst w1. }
  intros [|st]; [|apply leaves_ret; by intros w [? ?]].
  eapply leaves_try_catch with (M := uncached); [|intros e; apply leaves_ret; auto].
  eapply leaves_await with (M := fun _ => uncached); [|intros r; apply leaves_ret; auto].
  eapply leaves_conseq; [intros w Hw; exact Hw| |apply (lv_put (fun w => uncached w /\ chosen h w) uncached)].
  - intros [r|e] w Hw; exact Hw.
  - by intros w [? ?].
  - intros w now i d' a [[Hs Hc] Hch] _ Hf. split; [|done]. unfold stored. simpl. unfold patch_account in Hf.
    destruct (fl_accounts (aw_db w) !! id) as [r|] eqn:Er; [|done]. destruct (taken _ _ _ _) eqn:Et; [done|]. injection Hf as <- _.
    apply tidy_put; [done|exact (td_ids _ Hs _ _ Er)|exact Et| |].
    + intros He. left. by exists r.
    + intros h0 [= <-]. right. exact Hch.
Qed.

(** *** Requests *)
Lemma fail_clean_uncached id m : lv uncached m (fun _ => uncached) -> lv uncached (fail_clean id m) (fun _ => uncached).
Proof.
  intros Hm. unfold fail_clean. eapply leaves_try_catch with (M := uncached).
  - eapply leaves_conseq; [intros w Hw; exact Hw| |exact Hm]. intros [r|e] w Hw; exact Hw.
  - intros e. eapply leaves_await with (M := fun _ => uncached).
    + eapply leaves_conseq; [intros w Hw; exact Hw| |apply (lv_put uncached uncached)]; [by intros [r|e'] w Hw|done|].
      intros w now i d' a [Hs Hc] _ Hf. split; [|done]. unfold stored, delete_account in *. simpl.
      destruct (fl_accounts (aw_db w) !! id); [|done]. injection Hf as <- _. by apply tidy_delete.
    + intros _. eapply leaves_await with (M := fun _ => uncached); [|intros _; apply leaves_ret; auto].
      eapply leaves_conseq; [intros w Hw; exact Hw| |apply (lv_invalidate uncached); by intros w [? ?]]. by intros [r|e'] w [? ?].
Qed.

Lemma cap_checked u wanted :
  lv current (check_cap softCap u wanted) (fun r w => current w /\ (r = Ok tt -> wanted = true -> room u w)).
Proof.
  unfold check_cap. destruct wanted; [|apply leaves_ret; by intros w Hw].
  apply lv_query_then; [by intros e w Hw|]. intros n. destruct (at_cap softCap n) eqn:E; apply leaves_ret; intros w [Hw ->]; (split; [done|]); [by intros [=]|].
  intros _ _ c Hc. unfold at_cap in E. rewrite Hc in E. lia.
Qed.

Lemma invalidate_then {A} P (k : unit -> AcctAsync A) (Q : Res A -> AcctWorld -> Prop) :
  (forall w, P w -> stored w) -> (forall t, lv uncached (k t) Q) -> lv P (t <~ invalidate ;; k t)%async Q.
Proof.
  intros HP Hk. eapply leaves_await; [|exact Hk].
  eapply leaves_conseq; [intros w Hw; exact Hw| |apply (lv_invalidate P HP)]. by intros r w [-> Hw].
Qed.

(** A write of a tidy row, after which the cache is dropped. *)
Lemma put_then {A B} P (f : Z -> string -> Fleet -> Fleet * Res A) (k : A -> AcctAsync B) (Q : Res B -> AcctWorld -> Prop) :
  (forall w e, P w -> Q (Throw e) w) ->
  (forall w now id d' a, P w -> fresh_account id (aw_db w) -> f now id (aw_db w) = (d', Ok a) -> tidy d') ->
  (forall a, lv stored (k a) Q) -> lv P (a <~ fwrite f ;; k a)%async Q.
Proof.
  intros H0 Hf Hk. eapply leaves_await with (M := fun _ => stored); [|exact Hk].
  intros w w' r Hw (w1 & x & Hx & -> & ->). simpl in Hx. destruct Hx as [(now & id & Hi & -> & ->)|(_ & -> & m & ->)]; [|by apply H0].
  unfold commit_fleet. destruct (f now id (aw_db w)) as [d' [a|e]] eqn:E; simpl; [|by apply H0].
  unfold stored. simpl. by eapply Hf.
Qed.

Lemma create_current u dto extra : lv current (create softCap u dto extra) (fun _ => current).
Proof.
  unfold create. eapply leaves_await with (M := fun _ w => current w /\ (default false (cd_isEnabled dto) = true -> room u w)).
  { eapply leaves_conseq; [intros w Hw; exact Hw| |apply cap_checked]. intros [[]|e] w [Hw Hr]; [|done]. split; [done|].
    intros Hen. apply Hr; [done|]. by destruct (cd_isEnabled dto) as [[]|]. }
  intros _. destruct (negb (validateCreds dto)); [apply leaves_ret; by intros w [? ?]|].
  destruct (creds_json dto extra) as [json|]; [|apply leaves_ret; by intros w [? ?]].
  eapply leaves_await with (M := fun _ w => current w /\ (default false (cd_isEnabled dto) = true -> room u w)).
  { eapply leaves_conseq; [intros w Hw; exact Hw| |apply (lv_harmless _ (Encrypt json) (fun x => x)); done]. intros [s|e] w [? ?]; by simpl. }
  intros s. apply put_then; [by intros w e [? ?]| |].
  - intros w now id d' a [[Hs _] Hr] Hi Hf. unfold insert_account in Hf. destruct (taken _ _ _ _) eqn:Et; [done|]. injection Hf as <- _.
    apply tidy_put; [done|done|by apply taken_none| |done]. intros He. right. intros c Hc. by apply (Hr He).
  - intros a. apply invalidate_then; [done|]. intros _. eapply leaves_await with (M := fun _ => uncached); [|intros _; apply leaves_ret; apply uncached_current].
    eapply leaves_conseq with (Q := fun _ => uncached); [intros w Hw; exact Hw|intros [r|e] w Hw; [exact Hw|by apply uncached_current]|].
    destruct (cd_broker dto); try by apply leaves_ret. apply fail_clean_uncached, provision_uncached.
Qed.

Lemma owned_then {B} P u id (k : BrokerRow -> AcctAsync B) (Q : Res B -> AcctWorld -> Prop) :
  (forall e w, P w -> Q (Throw e) w) ->
  (forall r, br_userId r = u -> lv (fun w => P w /\ fl_accounts (aw_db w) !! id = Some r) (k r) Q) -> lv P (r <~ owned_row u id ;; k r)%async Q.
Proof.
  intros He Hk. eapply leaves_await with (M := fun r w => (P w /\ fl_accounts (aw_db w) !! id = Some r) /\ br_userId r = u).
  - unfold owned_row. apply lv_query_then; [intros e w Hw; by apply He|]. intros [r|].
    + case_bool_decide; apply leaves_ret; intros w [Hw Hr]; [done|by apply He].
    + apply leaves_ret. intros w [Hw _]. by apply He.
  - intros r w w' x [Hw Hr] Ha. exact (Hk r Hr w w' x Hw Ha).
Qed.
Lemma finish {B} (b : B) : lv stored (await invalidate (fun _ => resolve b)) (fun _ => current).
Proof. apply invalidate_then; [done|]. intros _. apply leaves_ret, uncached_current. Qed.

Definition seen_as (id : string) (r : BrokerRow) (P : AcctWorld -> Prop) (w : AcctWorld) : Prop :=
  P w /\ fl_accounts (aw_db w) !! id = Some r.
Lemma cap_seen id r u wanted :
  lv (seen_as id r current) (check_cap softCap u wanted)
     (fun x w => seen_as id r current w /\ (x = Ok tt -> wanted = true -> room u w)).
Proof.
  unfold check_cap. destruct wanted; [|apply leaves_ret; by intros w Hw].
  apply lv_query_then; [by intros e w Hw|]. intros n. destruct (at_cap softCap n) eqn:E; apply leaves_ret; intros w [Hw ->]; (split; [done|]); [by intros [=]|].
  intros _ _ c Hc. unfold at_cap in E. rewrite Hc in E. lia.
Qed.

(** A change of a row that keeps its identifier, its owner and its host. *)
Lemma tidy_patch (f : Z -> BrokerRow -> BrokerRow) id r now i d d' a : tidy d -> fl_accounts d !! id = Some r ->
  br_id (f now r) = br_id r -> br_userId (f now r) = br_userId r -> br_hostId (f now r) = br_hostId r ->
  (br_isEnabled (f now r) = true -> br_isEnabled r = true \/ forall c, softCap = Some c -> enabled_count (br_userId r) d < c) ->
  patch_account id f now i d = (d', Ok a) -> tidy d'.
Proof.
  intros Hd Hr Hi Hu Hh He Hf. unfold patch_account in Hf. rewrite Hr in Hf. destruct (taken _ _ _ _) eqn:Et; [done|]. injection Hf as <- _.
  apply tidy_put; [done|rewrite Hi; by apply (td_ids d Hd)|done| |].
  - intros Hen. destruct (He Hen) as [H|H]; [left; by exists r|right]. by rewrite Hu.
  - intros h Hrh. left. exists r. split; [done|]. congruence.
Qed.

Lemma update_current u id dto : lv current (update softCap u id dto) (fun _ => current).
Proof.
  unfold update. apply owned_then; [done|]. intros r Hu.
  eapply leaves_await with (M := fun _ w => seen_as id r current w /\
    (bool_decide (ud_isEnabled dto = Some true) && negb (br_isEnabled r) = true -> room u w)).
  { eapply leaves_conseq; [intros w Hw; exact Hw| |apply cap_seen]. intros [[]|e] w [Hw Hr]; [split; auto|by destruct Hw]. }
  intros _. apply put_then; [by intros w e [[? _] _]| |intros a; apply finish].
  intros w now i d' a [[[Hs _] Hid] Hr] _ Hf. eapply (tidy_patch (updated_row dto)); [exact Hs|exact Hid|done..| |exact Hf].
  simpl. intros Hen. destruct (br_isEnabled r) eqn:E; [by left|right]. rewrite Hu. apply Hr.
  destruct (ud_isEnabled dto) as [[]|]; done.
Qed.

Lemma lv_stored_any {A} (f : Z -> string -> Fleet -> Fleet * Res A) :
  (forall w now id d' a, stored w -> f now id (aw_db w) = (d', Ok a) -> tidy d') ->
  lv current (fwrite f) (fun r w => match r with Ok _ => stored w | Throw _ => current w end).
Proof.
  intros Hf w w' r Hw (w1 & x & Hx & -> & ->). simpl in Hx. destruct Hx as [(now & id & Hi & -> & ->)|(_ & -> & m & ->)]; [|done].
  unfold commit_fleet. destruct (f now id (aw_db w)) as [d' [a|e]] eqn:E; simpl; [|done]. unfold stored. simpl. destruct Hw as [Hs _].
  by eapply Hf.
Qed.
Lemma delete_stored w now i id d' a : stored w -> delete_account id now i (aw_db w) = (d', Ok a) -> tidy d'.
Proof.
  intros Hs Hf. unfold delete_account in Hf. destruct (fl_accounts (aw_db w) !! id); [|done]. injection Hf as <- _. by apply tidy_delete.
Qed.
Lemma deprovision_current id : lv current (deprovision id) (fun _ => current).
Proof.
  unfold deprovision. apply lv_query_then; [done|]. intros a. destruct (a ≫= br_hostId) as [h|]; [|apply leaves_ret; by intros w [? _]].
  eapply leaves_conseq; [intros w [Hw _]; exact Hw| |apply (lv_harmless current (HttpDeprovision h id) (fun x => Ok tt)); done]. done.
Qed.
Lemma delete_current u id force : lv current (delete_ u id force) (fun _ => current).
Proof.
  unfold delete_. apply owned_then; [done|]. intros r _. apply lv_query_then; [by intros e w [? _]|]. intros n.
  destruct (_ && negb force); [apply leaves_ret; by intros w [[? _] _]|].
  eapply leaves_await with (M := fun _ => stored).
  2: { intros _. eapply leaves_conseq with (P := stored) (Q := fun r w => r = Ok tt /\ uncached w); [done| |by apply lv_invalidate].
       intros x w [_ Hw]. by apply uncached_current. }
  destruct (_ && force).
  - eapply leaves_await with (M := fun _ => stored); [|intros x; apply leaves_ret; auto].
    eapply leaves_conseq; [intros w [[Hw _] _]; exact Hw|intros x w Hw; exact Hw|]. eapply leaves_conseq; [done| |apply lv_stored_any].
    + by intros [x|e] w Hw.
    + intros w now i d' a Hs Hf. unfold patch_account in Hf. destruct (fl_accounts (aw_db w) !! id) as [r0|] eqn:Er; [|done].
      eapply (tidy_patch disabled id r0 now i); [exact Hs|exact Er|done..|]. unfold patch_account. by rewrite Er.
  - eapply leaves_await with (M := fun _ => current).
    + eapply leaves_conseq with (P := current) (Q := fun _ => current); [by intros w [[? _] _]|by intros [[]|e] w Hw|].
      destruct (br_broker r); try by apply leaves_ret. apply deprovision_current.
    + intros _. eapply leaves_conseq; [intros w Hw; exact Hw| |apply lv_stored_any]; [by intros [[]|e] w Hw|].
      intros w now i d' a. apply delete_stored.
Qed.

(** *** The cache *)
Lemma findEnabled_current : lv current findEnabled (fun r w => current w /\ forall l, r = Ok l -> l = enabled_rows (aw_db w)).
Proof.
  unfold findEnabled. eapply leaves_await with (M := fun hit w => current w /\ forall l, hit = Some l -> l = enabled_rows (aw_db w)).
  { intros w w' r Hw (w1 & x & (now & Hc & Hx) & -> & ->). simpl in *. subst w1 x. destruct w as [d c k]. simpl. split; [done|].
    intros l Hl. unfold cached in Hl. destruct c as [[v t]|]; [|done]. destruct (now <? t); [|done]. injection Hl as <-.
    destruct Hw as [_ Hw]. by apply (Hw v t). }
  intros [v|]; [apply leaves_ret; intros w [Hw Hv]; split; [done|]; intros l [= <-]; by apply Hv|].
  apply lv_query_then; [intros e w [Hw _]; split; [done|]; by intros l|]. intros l.
  eapply leaves_await with (M := fun _ w => current w /\ l = enabled_rows (aw_db w)).
  - intros w w' r [[Hw _] Hl] (w1 & x & (now & Hc & Hx) & -> & ->). simpl in *. subst w1 x. split; [|done].
    split; [exact (proj1 Hw)|]. simpl. by intros v t [= <- _].
  - intros _. apply leaves_ret. intros w [Hw ->]. split; [done|]. by intros v [= <-].
Qed.

(** *** OAuth *)
Lemma keys_current {A B} (f : OAuthKeys -> OAuthKeys * A) (k : A -> AcctAsync B) :
  (forall a, lv current (k a) (fun _ => current)) -> lv current (a <~ keys_do f ;; k a)%async (fun _ => current).
Proof.
  intros Hk. eapply leaves_await with (M := fun _ => current); [|done].
  eapply leaves_conseq; [intros w Hw; exact Hw| |apply (lv_keys current f); by intros [d c k0]]. by intros [a|e] w Hw.
Qed.
Lemma quiet_current {A B} (e : AcctAct) (cast : acct_result e -> Res A) (k : A -> AcctAsync B) :
  match e with Encrypt _ | HttpProvision _ _ | HttpDeprovision _ _ | RandomBytes | HttpToken _ | HttpAccounts _ => True | _ => False end ->
  (forall a, lv current (k a) (fun _ => current)) ->
  lv current (a <~ pbind (does e) (fun x => Ret (cast x)) ;; k a)%async (fun _ => current).
Proof.
  intros He Hk. eapply leaves_await with (M := fun _ => current); [|done].
  eapply leaves_conseq; [intros w Hw; exact Hw| |by apply lv_harmless]. by intros [a|e'] w Hw.
Qed.
Lemma startOAuth_current u : lv current (startOAuth u) (fun _ => current).
Proof. apply (quiet_current RandomBytes (fun x => Ok x)); [done|]. intros s. apply keys_current. intros _. by apply leaves_ret. Qed.
Lemma handleCallback_current code st : lv current (handleCallback code st) (fun _ => current).
Proof.
  apply keys_current. intros [u|]; [|by apply leaves_ret]. apply keys_current. intros _.
  apply (quiet_current (HttpToken code) (fun x => x)); [done|]. intros t.
  apply (quiet_current (HttpAccounts (ot_accessToken t)) (fun x => x)); [done|]. intros l.
  apply (quiet_current RandomBytes (fun x => Ok x)); [done|]. intros s. apply keys_current. intros _. by apply leaves_ret.
Qed.
Lemma finalize_current u sid ctid name on : lv current (finalize softCap u sid ctid name on) (fun _ => current).
Proof.
  apply keys_current. intros [s|]; [|by apply leaves_ret]. destruct (negb _); [by apply leaves_ret|].
  destruct (head _) as [a|]; [|by apply leaves_ret]. eapply leaves_await with (M := fun _ => current).
  - eapply leaves_conseq; [intros w Hw; exact Hw| |apply create_current]. by intros [r|e] w Hw.
  - intros r. apply keys_current. intros _. by apply leaves_ret.
Qed.
Lemma storeRefreshedTokens_current id t : lv current (storeRefreshedTokens unseal id t) (fun _ => current).
Proof.
  unfold storeRefreshedTokens. eapply leaves_await with (M := fun _ => current).
  - unfold decryptCreds, findByIdWithCreds. eapply leaves_await with (M := fun _ => current).
    + apply lv_query_then; [done|]. intros [r|]; apply leaves_ret; by intros w [? _].
    + intros r. destruct (unseal _); by apply leaves_ret.
  - intros json. eapply leaves_await with (M := fun _ => current); [|intros r; by apply leaves_ret].
    eapply leaves_conseq with (P := current) (Q := fun _ => current); [done|by intros [r|e] w Hw|]. unfold updateCreds.
    apply (quiet_current (Encrypt _) (fun x => x)); [done|]. intros s. apply put_then; [done| |intros a; apply finish].
    intros w now i d' a [Hs _] _ Hf. unfold patch_account in Hf. destruct (fl_accounts (aw_db w) !! id) as [r|] eqn:Er; [|done].
    eapply (tidy_patch (resealed s (Some (ot_expiresAt t * 1000))) id r now i); [exact Hs|exact Er|done..|by left|]. unfold patch_account. by rewrite Er.
Qed.
Lemma findAllForUser_current u : lv current (findAllForUser u) (fun _ => current).
Proof.
  apply lv_query_then; [done|]. intros rows. apply lv_query_then; [by intros e w [? _]|]. intros seen. apply leaves_ret. by intros w [[? _] _].
Qed.
Lemma findOneForUser_current u id : lv current (findOneForUser u id) (fun _ => current).
Proof. apply owned_then; [done|]. intros r _. apply leaves_ret. by intros w [? _]. Qed.

(** ** The platform, one request after the other *)
Inductive serial_step (w w' : AcctWorld) : Prop :=
| serial_request u p : user_request u p -> alone (acct_sem unseal true) 0 p w w' tt -> serial_step w w'
| serial_refresh id t : alone (acct_sem unseal true) 0 (detached (storeRefreshedTokens unseal id t)) w w' tt -> serial_step w w'
| serial_elsewhere : fl_accounts (aw_db w') = fl_accounts (aw_db w) -> fl_hosts (aw_db w') = fl_hosts (aw_db w) ->
    aw_cache w' = aw_cache w -> serial_step w w'.

Lemma detached_current {A} (m : AcctAsync A) : lv current m (fun _ => current) -> lv current (detached m) (fun _ => current).
Proof. intros Hm. eapply leaves_bind with (M := fun _ => current); [exact Hm|]. intros r. by apply leaves_ret. Qed.
Lemma request_current u p : user_request u p -> lv current p (fun _ => current).
Proof.
  intros []; apply detached_current.
  - apply create_current.
  - apply findAllForUser_current.
  - apply findOneForUser_current.
  - apply update_current.
  - apply delete_current.
  - apply startOAuth_current.
  - apply handleCallback_current.
  - apply finalize_current.
  - eapply leaves_conseq; [done| |apply findEnabled_current]. by intros r w [? _].
Qed.
Lemma tidy_elsewhere d d' : fl_accounts d' = fl_accounts d -> fl_hosts d' = fl_hosts d -> tidy d -> tidy d'.
Proof.
  intros Ha Hh [H1 H2 H3 H4 H5]. split; rewrite ?Ha, ?Hh; auto.
  - unfold enabled_count, accounts_list. rewrite Ha. apply H3.
  - unfold host_load, accounts_list. rewrite Ha. apply H4.
Qed.
Lemma serial_current w w' : serial_step w w' -> current w -> current w'.
Proof.
  intros [u p Hp Ha|id t Ha|Ha Hh Hc] Hw.
  - by apply (request_current u p Hp w w' tt).
  - by apply (detached_current _ (storeRefreshedTokens_current id t) w w' tt).
  - destruct Hw as [Hs Hl]. split; [by apply (tidy_elsewhere (aw_db w))|]. intros l k. rewrite Hc. intros H. rewrite (Hl l k H).
    unfold enabled_rows, accounts_list. by rewrite Ha.
Qed.

(** C20: The accounts of the platform, one request after the other, with failures anywhere
    and Redis expiring at will: no user has more enabled accounts than the cap, no host runs
    more terminals than its capacity, a user's accounts have different names, and the list
    of enabled accounts that the trading engine is given, cached or not, is the list in the
    table, in the order of the table. *)
Theorem fleet_invariant w w' : rtc serial_step w w' -> current w ->
  (forall u c, softCap = Some c -> enabled_count u (aw_db w') <= c) /\
  (forall h x, fl_hosts (aw_db w') !! h = Some x -> host_load h (aw_db w') <= mh_capacity x) /\
  (forall i j r s, fl_accounts (aw_db w') !! i = Some r -> fl_accounts (aw_db w') !! j = Some s ->
     br_userId r = br_userId s -> br_name r = br_name s -> i = j) /\
  (forall w'' l, alone (acct_sem unseal true) 0 findEnabled w' w'' (Ok l) -> l = enabled_rows (aw_db w')).
Proof.
  intros Hr Hw. assert (Hc : current w') by (induction Hr as [w|w w1 w' Hs _ IH]; [done|]; by apply IH, (serial_current w)).
  pose proof (proj1 Hc) as [_ _ H3 H4 H5]. do 3 (split; [done|]). intros w'' l Ha.
  assert (Hq : lv (fun w => current w /\ w = w') findEnabled (fun r w => aw_db w = aw_db w')).
  { unfold findEnabled. eapply leaves_await with (M := fun _ w => aw_db w = aw_db w').
    - intros w1 w2 r [_ ->] (w3 & x & (now & -> & ->) & -> & ->). done.
    - intros [v|]; [by apply leaves_ret|]. apply lv_query_then; [done|]. intros v. eapply leaves_await with (M := fun _ w => aw_db w = aw_db w').
      + intros w1 w2 r [H _] (w3 & x & (now & -> & ->) & -> & ->). exact H.
      + intros _. by apply leaves_ret. }
  rewrite <- (Hq w' w'' (Ok l) (conj Hc eq_refl) Ha). by apply (findEnabled_current w' w'' (Ok l) Hc Ha).
Qed.

(** *** All or nothing *)
Section errors.
Notation up := (leaves (acct_sem unseal false) 0).

(** Without failures of the database there are fewer runs. *)
Lemma fewer_runs {A} (p : AcctProg A) w w' a : alone (acct_sem unseal false) 0 p w w' a -> alone (acct_sem unseal true) 0 p w w' a.
Proof.
  revert w. induction p as [b|e k IH]; intros w; [done|]. intros (w1 & x & Hx & Ha). exists w1, x. split; [|by apply IH].
  destruct e; try exact Hx. simpl in *. destruct Hx as [Hx|[H _]]; [by left|done].
Qed.
Lemma lv_up {A} P (p : AcctProg A) Q : lv P p Q -> up P p Q.
Proof. intros H w w' a Hw Ha. by apply (H w w' a Hw), fewer_runs. Qed.

(** What the table of accounts satisfies. *)
Definition on (X : gmap string BrokerRow -> Prop) (w : AcctWorld) : Prop := X (fl_accounts (aw_db w)).
Lemma cap_on X u wanted : lv (on X) (check_cap softCap u wanted) (fun _ => on X).
Proof.
  unfold check_cap. destruct wanted; [|by apply leaves_ret]. apply lv_query_then; [done|]. intros n.
  destruct (at_cap softCap n); apply leaves_ret; by intros w [? _].
Qed.
Lemma invalidate_on X : lv (on X) invalidate (fun r w => r = Ok tt /\ on X w).
Proof. intros w w' r Hw (w1 & x & (now & Hc & Hx) & -> & ->). simpl in *. by subst. Qed.
Lemma write_on {A} X (Y : Res A -> gmap string BrokerRow -> Prop) f :
  (forall now id d, X (fl_accounts d) -> fresh_account id d -> Y (f now id d).2 (match (f now id d).2 with Ok _ => fl_accounts (f now id d).1 | Throw _ => fl_accounts d end)) ->
  up (on X) (fwrite f) (fun r => on (Y r)).
Proof.
  intros Hf w w' r Hw (w1 & x & Hx & -> & ->). simpl in Hx. destruct Hx as [(now & id & Hi & -> & ->)|[H _]]; [|done].
  specialize (Hf now id (aw_db w) Hw Hi). unfold on, commit_fleet. destruct (f now id (aw_db w)) as [d' [a|e]]; exact Hf.
Qed.

Section one.
Context (d : gmap string BrokerRow).
Definition only (id : string) (a : BrokerRow) (m : gmap string BrokerRow) : Prop := d !! id = None /\ m = <[id := a]> d.
Definition hosted (id : string) (a : BrokerRow) (m : gmap string BrokerRow) : Prop := exists h now, only id (with_host h now a) m.

Lemma provision_on id a creds : up (on (only id a)) (provision id creds)
  (fun r => on (match r with Ok _ => hosted id a | Throw _ => only id a end)).
Proof.
  unfold provision. eapply leaves_await with (M := fun _ => on (only id a)).
  { apply lv_up. unfold selectHost. apply lv_query_then; [done|]. intros l. destruct (candidates l); apply leaves_ret; by intros w [? _]. }
  intros h. eapply leaves_bind with (M := fun _ => on (only id a)).
  { intros w w' x Hw (w1 & z & Hz & -> & ->). simpl in Hz. by subst w1. }
  intros [|st]; [|by apply leaves_ret].
  eapply leaves_try_catch with (M := on (only id a)); [|intros e; by apply leaves_ret].
  eapply leaves_await with (M := fun _ => on (hosted id a)); [|intros r; by apply leaves_ret].
  eapply leaves_conseq; [intros w Hw; exact Hw| |apply (write_on _ (fun r => match r with Ok _ => hosted id a | Throw _ => only id a end))].
  - by intros [r|e] w Hw.
  - intros now i db [Hid Hm] _. unfold patch_account. rewrite Hm, lookup_insert_eq. destruct (taken _ _ _ _); [done|]. simpl.
    exists (mh_id h), now. split; [done|]. by rewrite insert_insert_eq.
Qed.
Lemma fail_clean_on id a m :
  up (on (only id a)) m (fun r => on (match r with Ok _ => hosted id a | Throw _ => only id a end)) ->
  up (on (only id a)) (fail_clean id m) (fun r => on (match r with Ok _ => hosted id a | Throw _ => eq d end)).
Proof.
  intros Hm. unfold fail_clean. eapply leaves_try_catch with (M := on (only id a)).
  - eapply leaves_conseq; [intros w Hw; exact Hw| |exact Hm]. by intros [r|e] w Hw.
  - intros e. eapply leaves_await with (M := fun _ => on (eq d)).
    + eapply leaves_conseq; [intros w Hw; exact Hw| |apply (write_on _ (fun r m => r = Ok tt /\ d = m))].
      * intros r w [-> Hw]. exact Hw.
      * intros now i db [Hid Hdb] _. unfold delete_account. rewrite Hdb, lookup_insert_eq. simpl. split; [done|]. by rewrite delete_insert_id.
    + intros _. eapply leaves_await with (M := fun _ => on (eq d)); [|intros _; by apply leaves_ret].
      eapply leaves_conseq; [intros w Hw; exact Hw| |apply lv_up, (invalidate_on (eq d))]. by intros r w [-> Hw].
Qed.
End one.

(** C24: Creating an account is all or nothing while the database is up: when it fails - the
    cap is reached, the credentials are refused, the name is taken, the fleet is full, the
    terminal manager answers anything but success - the table of accounts is the one before;
    when it succeeds, exactly one row was added, the user's, with the name given and with
    credentials that unseal to the ones given, and for an MT5 account with its host. *)
Theorem create_all_or_nothing u dto extra w w' r :
  alone (acct_sem unseal false) 0 (create softCap u dto extra) w w' r ->
  match r with
  | Throw _ => fl_accounts (aw_db w') = fl_accounts (aw_db w)
  | Ok s => fl_accounts (aw_db w) !! sf_id s = None /\ exists row,
      fl_accounts (aw_db w') = <[sf_id s := row]> (fl_accounts (aw_db w)) /\
      br_userId row = u /\ br_name row = cd_name dto /\ unseal (br_sealed row) = creds_json dto extra /\
      (cd_broker dto = MT5_DIRECT <-> br_hostId row <> None)
  end.
Proof.
  set (d := fl_accounts (aw_db w)). intros Ha. cut (up (on (eq d)) (create softCap u dto extra)
    (fun r => on (fun m => match r with
      | Throw _ => d = m
      | Ok s => d !! sf_id s = None /\ exists row, m = <[sf_id s := row]> d /\ br_userId row = u /\ br_name row = cd_name dto /\
          unseal (br_sealed row) = creds_json dto extra /\ (cd_broker dto = MT5_DIRECT <-> br_hostId row <> None) end))).
  { intros H. specialize (H w w' r eq_refl Ha). unfold on in H. destruct r; [exact H|by symmetry]. }
  clearbody d. clear Ha w w' r. unfold create. eapply leaves_await with (M := fun _ => on (eq d)).
  { eapply leaves_conseq; [intros w Hw; exact Hw| |apply lv_up, cap_on]. by intros [r|e] w Hw. }
  intros _. destruct (negb (validateCreds dto)); [by apply leaves_ret|]. destruct (creds_json dto extra) as [json|] eqn:Ej; [|by apply leaves_ret].
  eapply leaves_await with (M := fun s w => on (eq d) w /\ unseal s = Some json).
  { intros w w' r Hw (w1 & x & [-> Hx] & -> & ->). by destruct x. }
  intros s. eapply leaves_await with (M := fun a w => on (only d (br_id a) a) w /\ exists now, a = new_account u dto extra s now (br_id a) /\ unseal s = Some json).
  { intros w w' r [Hw Hs] Hr. pose proof (write_on (eq d) (fun r m => match r with
      | Ok a => only d (br_id a) a m /\ exists now, a = new_account u dto extra s now (br_id a) | Throw _ => d = m end)
      (insert_account (new_account u dto extra s))) as H.
    assert (Hr' := H ltac:(intros now id db -> Hi; unfold insert_account; destruct (taken _ _ _ _); [done|]; simpl; split; [done|]; by exists now) w w' r Hw Hr).
    destruct r as [a|e]; [|exact Hr']. destruct Hr' as [H1 (now & H2)]. split; [exact H1|]. by exists now. }
  intros a. eapply leaves_await with (M := fun _ w => on (only d (br_id a) a) w /\ exists now, a = new_account u dto extra s now (br_id a) /\ unseal s = Some json).
  { intros w w' r [Hw Hs] Hr. destruct (lv_up _ _ _ (invalidate_on _) w w' r Hw Hr) as [-> Hw']. done. }
  intros _ w w' r [Hw (now & Hn & Hs)] Hr. revert w w' r Hw Hr.
  assert (Hf : br_userId a = u /\ br_name a = cd_name dto /\ br_sealed a = s /\ br_hostId a = None) by (rewrite Hn; done).
  destruct Hf as (Hu & Hname & Hseal & Hhost). clear Hn now.
  eapply leaves_await with (M := fun _ => on (fun m => match cd_broker dto with MT5_DIRECT => hosted d (br_id a) a m | _ => only d (br_id a) a m end)).
  - destruct (cd_broker dto); try by apply leaves_ret. eapply leaves_conseq; [intros w Hw; exact Hw| |apply fail_clean_on, provision_on]. by intros [[]|e] w Hw.
  - intros _. apply leaves_ret. intros w Hw. unfold on in *. simpl.
    destruct (cd_broker dto) eqn:Eb; [destruct Hw as [H1 ->]; split; [done|]; exists a; split; [done|]; rewrite Hu, Hname, Hseal, Hhost; split_and!; done..|].
    destruct Hw as (h & now & H1 & ->). split; [done|]. exists (with_host h now a). split; [done|]. simpl. rewrite Hu, Hname, Hseal. split_and!; done.
Qed.
End errors.
End facts.
