(* ===== verification/BrokerExamples.v ===== *)
(** * Broker accounts: concrete runs

    A database, a cache and a terminal manager that always answer, at one moment of time.
    Sealing is the identity on short objects here: the cipher text names the credentials. *)
From stdpp Require Import stringmap.
From S2P Require Import Prelude Async JsNum JsDate Types LiveTypes AuthTypes DeskTypes BrokerAccounts BrokerFacts.

Definition mt5_creds : JsonObject := [("login", JString "7"); ("password", JString "p"); ("server", JString "s")]%string.
Definition mock_creds : JsonObject := [("accountId", JString "m"); ("accessToken", JString "t")]%string.
Definition seal (json : JsonObject) : Sealed := {|
  ciphertext := if decide (json = mt5_creds) then "mt5" else "mock"; iv := ""; authTag := "" |}%string.
Definition unseal (s : Sealed) : option JsonObject :=
  if decide (ciphertext s = "mt5"%string) then Some mt5_creds
  else if decide (ciphertext s = "mock"%string) then Some mock_creds else None.
(** The two objects that are used below can be sealed. *)
Definition encrypted (json : JsonObject) : Res Sealed :=
  if decide (json = mt5_creds \/ json = mock_creds) then Ok (seal json) else Throw "too long"%string.

Definition accounts_handle (e : AcctAct) (w : AcctWorld) : AcctWorld * acct_result e :=
  match e return AcctWorld * acct_result e with
  | FStmt A f =>
      let id := fresh_string "a" (fl_accounts (aw_db w)) in
      (commit_fleet (f 1000 id (aw_db w)) w, (f 1000 id (aw_db w)).2)
  | CacheDo A f => (with_cache (f 1000 (aw_cache w)).1 w, (f 1000 (aw_cache w)).2)
  | Encrypt json => (w, encrypted json)
  | HttpProvision _ _ => (w, Provisioned)
  | HttpDeprovision _ _ => (w, Ok tt)
  | RandomBytes => (w, "r"%string)
  | KeysDo A f => (with_keys (f (aw_keys w)).1 w, Ok (f (aw_keys w)).2)
  | HttpToken _ => (w, Throw "offline"%string)
  | HttpAccounts _ => (w, Throw "offline"%string)
  end.
Lemma accounts_handle_sem b i e w : acct_sem unseal b i e w (accounts_handle e w).1 (accounts_handle e w).2.
Proof.
  destruct e; simpl; auto.
  - left. exists 1000, (fresh_string "a" (fl_accounts (aw_db w))). split; [|done]. apply fresh_string_fresh.
  - by exists 1000.
  - split; [done|]. unfold encrypted. case_decide as H; [|done]. by destruct H as [-> | ->].
  - exists (aw_keys w). split; [done|]. by left.
Qed.

Definition one_host : Mt5Host := {| mh_id := "h"; mh_name := "host"; mh_capacity := 1; mh_status := ACTIVE |}.
Definition no_accounts : AcctWorld := {|
  aw_db := {| fl_accounts := ∅; fl_hosts := {[ "h"%string := one_host ]}; fl_trades := []; fl_seen := [] |};
  aw_cache := None; aw_keys := {| ok_state := ∅; ok_session := ∅ |} |}.
Definition account_of (name : string) (b : BrokerKind) (on : option bool) : CreateDto := {|
  cd_name := name; cd_broker := b; cd_mode := mock;
  cd_creds := Some (match b with MT5_DIRECT => mt5_creds | _ => mock_creds end); cd_isEnabled := on |}.
Definition does_request {A} (p : AcctProg A) (w : AcctWorld) : AcctWorld := (execute accounts_handle p w).1.
Definition cap1 : option Z := Some 1.
Definition table (w : AcctWorld) : list (string * string * bool * option string) :=
  (fun kv => (kv.1, br_name kv.2, br_isEnabled kv.2, br_hostId kv.2)) <$> map_to_list (fl_accounts (aw_db w)).

Lemma request_alone {A} b (p : AcctProg A) w :
  alone (acct_sem unseal b) 0 p w (does_request p w) (execute accounts_handle p w).2.
Proof. apply (execute_alone accounts_handle _ (accounts_handle_sem b) 0 p w). Qed.
Lemma request_serial u (p : AcctProg unit) w : user_request cap1 u p -> serial_step unseal cap1 w (does_request p w).
Proof. intros H. eapply serial_request; [exact H|]. pose proof (request_alone true p w) as Ha. by destruct (execute accounts_handle p w).2. Qed.

(** ** The theorems at work *)
Definition ann_creates : AcctProg unit := detached (create cap1 "ann" (account_of "main" MOCK (Some true)) None).
Definition bob_creates : AcctProg unit := detached (create cap1 "bob" (account_of "main" MOCK (Some true)) None).
Definition with_anns : AcctWorld := does_request ann_creates no_accounts.
Definition bobs_turn : Pool :=
  turns accounts_handle (replicate 8 0%nat ++ replicate 8 1%nat)%nat
    {| shared := with_anns; threads := [bob_creates; detached (delete_ "bob" "a" true)] |}.

(** Bob creates an account and tries to delete Ann's. *)
Lemma accounts_isolated_witness :
  table with_anns = [("a"%string, "main"%string, true, None)] /\ length (table (shared bobs_turn)) = 2%nat /\
  rows_of_user "ann" (aw_db (shared bobs_turn)) = rows_of_user "ann" (aw_db with_anns).
Proof.
  split; [vm_compute; reflexivity|]. split; [vm_compute; reflexivity|].
  refine (accounts_isolated unseal cap1 "ann" {| shared := with_anns; threads := [] |} bobs_turn _ eq_refl).
  etransitivity; [apply (start_all _ _ [bob_creates; detached (delete_ "bob" "a" true)] with_anns)|apply (turns_steps accounts_handle _ _ (accounts_handle_sem true))].
  apply Forall_cons; split; [exists "bob"%string; split; [discriminate|apply ur_create]|].
  apply Forall_cons; split; [exists "bob"%string; split; [discriminate|apply ur_delete]|constructor].
Defined.

Definition anns_terminal : AcctProg unit := detached (create cap1 "ann" (account_of "live" MT5_DIRECT (Some false)) None).
Definition enables (id : string) : AcctProg unit :=
  detached (update cap1 "ann" id {| ud_name := None; ud_isEnabled := Some true; ud_mode := None; ud_sortIndex := None |}).
Definition two_requests : AcctWorld := does_request (enables "a0") (does_request anns_terminal with_anns).

(** Ann has her one account enabled: the second is created, is on the host, and is not enabled. *)
Lemma fleet_invariant_witness :
  table two_requests = [("a0"%string, "live"%string, false, Some "h"%string); ("a"%string, "main"%string, true, None)] /\
  (forall h x, fl_hosts (aw_db two_requests) !! h = Some x -> host_load h (aw_db two_requests) <= mh_capacity x).
Proof.
  split; [vm_compute; reflexivity|].
  refine (proj1 (proj2 (fleet_invariant unseal cap1 no_accounts two_requests _ _))).
  - eapply rtc_l; [apply (request_serial "ann"), ur_create|].
    eapply rtc_l; [apply (request_serial "ann"), ur_create|].
    eapply rtc_l; [apply (request_serial "ann"), ur_update|]. constructor.
  - split; [|intros l t; discriminate]. split; cbn [no_accounts aw_db fl_accounts fl_hosts].
    + intros id r H. rewrite lookup_empty in H. discriminate.
    + intros h x [<- <-]%lookup_singleton_Some. reflexivity.
    + intros u c [= <-]. vm_compute. discriminate.
    + intros h x [<- <-]%lookup_singleton_Some. vm_compute. discriminate.
    + intros i j r s H. rewrite lookup_empty in H. discriminate.
Defined.

(** The fleet is full: the second terminal is refused, and no row is left. *)
Definition full_fleet : AcctWorld := does_request anns_terminal no_accounts.
Definition second_terminal : AcctAsync SafeRow := create cap1 "bob" (account_of "live" MT5_DIRECT (Some false)) None.
Lemma create_all_or_nothing_witness :
  (execute accounts_handle second_terminal full_fleet).2 = Throw "ConflictException"%string /\
  fl_accounts (aw_db (does_request second_terminal full_fleet)) = fl_accounts (aw_db full_fleet).
Proof.
  assert (H : (execute accounts_handle second_terminal full_fleet).2 = Throw "ConflictException"%string) by (vm_compute; reflexivity).
  split; [exact H|]. pose proof (request_alone false second_terminal full_fleet) as Ha. rewrite H in Ha.
  exact (create_all_or_nothing unseal cap1 "bob" (account_of "live" MT5_DIRECT (Some false)) None full_fleet _ _ Ha).
Defined.

(** ** What overlapping requests do *)
Definition overlap (sched : list nat) (ps : list (AcctProg unit)) (w : AcctWorld) : AcctWorld :=
  shared (turns accounts_handle sched {| shared := w; threads := ps |}).
Definition alternate (n : nat) : list nat := concat (replicate n [0; 1]%nat).

(** Two accounts created at once both pass the cap of one. *)
Lemma two_creates_exceed_cap :
  let w := overlap (alternate 8) [ann_creates; detached (create cap1 "ann" (account_of "second" MOCK (Some true)) None)] no_accounts in
  enabled_count "ann" (aw_db w) = 2.
Proof. vm_compute. reflexivity. Qed.

(** Two terminals provisioned at once are both put on a host with room for one. *)
Lemma two_terminals_overfill_host :
  let w := overlap (alternate 12) [anns_terminal; detached second_terminal] no_accounts in
  host_load "h" (aw_db w) = 2.
Proof. vm_compute. reflexivity. Qed.

(** A list of enabled accounts read before an account is disabled is cached after it. *)
Lemma disabled_account_cached :
  let w := overlap ([0; 0] ++ replicate 8 1 ++ [0; 0])%nat
             [detached findEnabled; detached (update cap1 "ann" "a" {| ud_name := None; ud_isEnabled := Some false; ud_mode := None; ud_sortIndex := None |})]
             with_anns in
  enabled_rows (aw_db w) = [] /\ (fun c => length c.1) <$> aw_cache w = Some 1%nat.
Proof. vm_compute. split; reflexivity. Qed.

(** An account that would be created disabled is refused at the cap, when [isEnabled] is
    left out. *)
Lemma omitted_flag_hits_cap :
  (execute accounts_handle (create cap1 "ann" (account_of "second" MOCK None) None) with_anns).2 = Throw "ConflictException"%string /\
  forall s now id, br_isEnabled (new_account "ann" (account_of "second" MOCK None) None s now id) = false.
Proof. split; [vm_compute; reflexivity|]. reflexivity. Qed.

(** Credentials that carry an [accountId] of their own name somebody else's terminal. *)
Lemma creds_name_the_terminal :
  map_get "accountId" (provision_body "mine" (("accountId"%string, JString "theirs") :: mt5_creds)) = Some (JString "theirs") /\
  validateCreds {| cd_name := "x"; cd_broker := MT5_DIRECT; cd_mode := mock;
    cd_creds := Some (("accountId"%string, JString "theirs") :: mt5_creds); cd_isEnabled := None |} = true.
Proof. split; vm_compute; reflexivity. Qed.
