(* ===== verification/Jobs.v ===== *)
(** * Replay and backtest jobs

    src/backtest/live-replay/live-replay.service.ts ([LiveReplayService]) with its worker
    (replay-worker.ts, worker-protocol.ts) and its controller, and
    src/backtest/backtest.service.ts ([BacktestService]) with its controller: a request
    creates a row, a job that nobody waits for loads candles, runs an engine of
    [ReplayEngine] or [V6Engine], stores the trades and ends the row.

    A job is the rest of the request that started it: the caller has its answer once the
    row is there.  The write of the progress is a request of its own, since the message
    handler does not wait for it. *)
From Stdlib Require Import SpecFloat.
From S2P Require Import Prelude Async JsNum JsDate MarketTypes DeskTypes Types Instruments Indicators PerformanceTracker V6Evaluator V6Engines Orchestrator SimBroker ReplayEngine.
From S2P Require V6Engine.
Local Open Scope Z_scope.

(** ** Rows *)
Inductive JobStatus := JPENDING | JRUNNING | JCOMPLETED | JFAILED.
#[export] Instance JobStatus_eq_dec : EqDecision JobStatus.
Proof. solve_decision. Defined.

Record StartReplayDto := {
  sr_startDate : string; sr_endDate : string; sr_initialBalance : num; sr_riskPercent : num;
  sr_pairs : option (list string); sr_runnerTrail : option (RegimeTradeParams -> RegimeTradeParams);
  sr_retraceEntry : option RetraceEntryCfg; sr_pairConfigOverrides : option (list (string * Partial));
  sr_label : option string }.

(** What the row says of its request; [experimentConfig] is the DTO's three experiments. *)
Record ReplaySetup := {
  ru_startDate : Z; ru_endDate : Z; ru_initialBalance : num; ru_riskPercent : num; ru_pairs : list string;
  ru_label : option string; ru_runnerTrail : option (RegimeTradeParams -> RegimeTradeParams);
  ru_retraceEntry : option RetraceEntryCfg; ru_pairConfigOverrides : option (list (string * Partial)) }.
Record ReplaySession := {
  rs_id : string; rs_setup : ReplaySetup; rs_createdAt : Z; rs_startEquity : num; rs_status : JobStatus;
  rs_progress : option num; rs_endedAt : option Z; rs_endEquity : option num; rs_realizedPnl : num;
  rs_tradesCount : Z; rs_winsCount : Z; rs_lossesCount : Z; rs_maxOpenConcurrent : Z;
  rs_metrics : option ReplayMetrics; rs_errorMessage : option string }.

Record ReplayTrade := {
  lt_sessionId : string; lt_symbol : string; lt_side : Side; lt_lotSize : num; lt_entryPrice : num;
  lt_closePrice : num; lt_slPrice : num; lt_tpPrice : option num; lt_status : string;
  lt_exitReason : ExitReason; lt_pnl : num; lt_openedAt : Z; lt_closedAt : Z; lt_mode : SmcMode;
  lt_setupTags : list string; lt_reason : string; lt_sweptLevel : option num; lt_sweptHigh : option num;
  lt_sweptLow : option num; lt_sweepCandleTime : option Z; lt_d1Bias : option D1Bias;
  lt_originalSlPrice : num; lt_strategyName : string }.

Record ReplayDecisionRow := {
  dw_source : string; dw_sessionId : string; dw_symbol : string; dw_barTime : Z; dw_decision : string;
  dw_signalSide : option Side; dw_context : DecisionContext }.

Record BacktestRun := {
  bt_id : string; bt_userId : string; bt_symbol : string; bt_startDate : Z; bt_endDate : Z;
  bt_initialBalance : num; bt_riskPercent : num; bt_withLlm : bool; bt_strategyVersion : StrategyVersion;
  bt_status : JobStatus; bt_metrics : option BacktestMetrics; bt_errorMessage : option string;
  bt_createdAt : Z; bt_completedAt : option Z }.
Record BacktestTrade := {
  bx_runId : string; bx_side : Side; bx_entryPrice : num; bx_exitPrice : num; bx_slPrice : num; bx_tpPrice : num;
  bx_lotSize : num; bx_pnl : num; bx_commission : num; bx_setupTags : list string; bx_entryTime : Z;
  bx_exitTime : Z; bx_exitReason : ExitReason; bx_h1Bias : string; bx_rsiAtEntry : num; bx_atrAtEntry : num }.

Record JobDb := {
  jd_sessions : gmap string ReplaySession; jd_trades : list ReplayTrade;
  jd_decisions : list ReplayDecisionRow; jd_runs : gmap string BacktestRun;
  jd_run_trades : list BacktestTrade; jd_candles : list CandleRow }.
Definition set_replays (x : gmap string ReplaySession) (d : JobDb) : JobDb := {|
  jd_sessions := x; jd_trades := jd_trades d; jd_decisions := jd_decisions d; jd_runs := jd_runs d;
  jd_run_trades := jd_run_trades d; jd_candles := jd_candles d |}.
Definition add_trades (x : list ReplayTrade) (d : JobDb) : JobDb := {|
  jd_sessions := jd_sessions d; jd_trades := jd_trades d ++ x; jd_decisions := jd_decisions d; jd_runs := jd_runs d;
  jd_run_trades := jd_run_trades d; jd_candles := jd_candles d |}.
Definition add_decisions (x : list ReplayDecisionRow) (d : JobDb) : JobDb := {|
  jd_sessions := jd_sessions d; jd_trades := jd_trades d; jd_decisions := jd_decisions d ++ x; jd_runs := jd_runs d;
  jd_run_trades := jd_run_trades d; jd_candles := jd_candles d |}.
Definition set_runs (x : gmap string BacktestRun) (d : JobDb) : JobDb := {|
  jd_sessions := jd_sessions d; jd_trades := jd_trades d; jd_decisions := jd_decisions d; jd_runs := x;
  jd_run_trades := jd_run_trades d; jd_candles := jd_candles d |}.
Definition add_run_trades (x : list BacktestTrade) (d : JobDb) : JobDb := {|
  jd_sessions := jd_sessions d; jd_trades := jd_trades d; jd_decisions := jd_decisions d; jd_runs := jd_runs d;
  jd_run_trades := jd_run_trades d ++ x; jd_candles := jd_candles d |}.

(** ** The worker protocol *)
Inductive WorkerMessage :=
| MsgProgress (processed total : Z)
| MsgDone (result : ReplayResult)
| MsgError (message : string) (stack : option string).
(** What the parent hears: a message, an error event, the exit code, its own timer. *)
Inductive WorkerEvent :=
| Heard (m : WorkerMessage)
| WorkerError (message : string)
| Exited (code : Z)
| TimerFired.

(** [ParentMessage]: the configuration with its overrides, and the candles. *)
Record RunMessage := { pm_cfg : ReplayConfig; pm_overrides : option (list (string * Partial)); pm_candles : CandleBundle }.

(** ** Effects *)
Inductive JobAct :=
| JStmt (A : Type) (f : Z -> string -> JobDb -> JobDb * Res A)
| RunWorker (msg : RunMessage)
| RunInThread (cfg : ReplayConfig) (candles : CandleBundle)
| HttpCandles (symbol timeframe start end_ : string)
| CacheStep (A : Type) (f : BB.Cache -> BB.Cache * A).

Definition job_result (e : JobAct) : Type :=
  match e with
  | JStmt A _ => Res A
  | RunWorker _ => list WorkerEvent
  | RunInThread _ _ => Res ReplayResult
  | HttpCandles _ _ _ _ => Res (list BacktestCandle)
  | CacheStep A _ => A
  end.
Definition JobProg (A : Type) : Type := @Prog JobAct job_result A.
Definition JobAsync (A : Type) : Type := @Async JobAct job_result A.
Definition jstmt {A} (f : Z -> string -> JobDb -> JobDb * Res A) : JobAsync A := @perform JobAct job_result (JStmt A f).
Definition jread {A} (q : JobDb -> A) : JobAsync A := jstmt (fun _ _ d => (d, Ok (q d))).
Definition of_res {A} (r : Res A) : JobAsync A := Ret r.

(** A row that an [update] names; without it Prisma throws. *)
Definition update_row {A} (get : JobDb -> gmap string A) (put : gmap string A -> JobDb -> JobDb) (id : string)
    (patch : Z -> A -> A) (now : Z) (_ : string) (d : JobDb) : JobDb * Res unit :=
  match get d !! id with
  | Some r => (put (<[id := patch now r]> (get d)) d, Ok tt)
  | None => (d, Throw "P2025"%string)
  end.

(** [new Date(s)] as a column: the client refuses an invalid date. *)
Definition date_column (s : string) : Res Z :=
  match Date_parse s with Some t => Ok t | None => Throw "Invalid value: Provided Date object is invalid"%string end.

(** ** The worker thread (replay-worker.ts)

    [sent]: how many progress messages the engine had sent when it threw. *)
Definition YIELD_EVERY : Z := 250.
Definition progress_messages (total : Z) : list WorkerMessage :=
  (fun k => MsgProgress (YIELD_EVERY * k + 1) total) <$> seqZ 1 ((total - 1) / YIELD_EVERY).

Section worker.
Context `{TechnicalIndicators} (randomUUID : Z -> string) (envRisk : num).

Definition worker_overrides (l : option (list (string * Partial))) : Overrides :=
  fold_left (fun ov p => setSmcPairConfigOverride p.1 p.2 ov) (default [] l) ∅.
Definition worker_run (msg : RunMessage) : Res ReplayResult :=
  (ReplayEngine.run randomUUID (worker_overrides (pm_overrides msg)) envRisk (pm_cfg msg) (pm_candles msg)
     new_LiveSmcOrchestrator).2.
Definition worker_messages (sent : nat) (stack : option string) (msg : RunMessage) : list WorkerMessage :=
  let ticks := progress_messages (zlen (timeline (pm_cfg msg) (pm_candles msg))) in
  match worker_run msg with
  | Ok r => ticks ++ [MsgDone r]
  | Throw e => take sent ticks ++ [MsgError e stack]
  end.
End worker.

(** ** The parent's promise (runOnWorker)

    [wt_timer] is whether the variable [timeout] still holds the timer; a promise keeps
    its first outcome. *)
Record WorkerState := { wt_timer : bool; wt_outcome : option (Res ReplayResult); wt_terminated : bool }.
Definition spawned : WorkerState := {| wt_timer := true; wt_outcome := None; wt_terminated := false |}.
Definition finish_worker (r : Res ReplayResult) (w : WorkerState) : WorkerState := {|
  wt_timer := false; wt_outcome := Some (default r (wt_outcome w)); wt_terminated := true |}.
Definition error_text (message : string) (stack : option string) : string :=
  match stack with
  | Some s => if truthy_string s then (message ++ String.String (Ascii.ascii_of_nat 10) s)%string else message
  | None => message
  end.
Definition on_event (w : WorkerState) (e : WorkerEvent) : WorkerState :=
  match e with
  | Heard (MsgProgress _ _) => w
  | Heard (MsgDone r) => finish_worker (Ok r) w
  | Heard (MsgError m st) => finish_worker (Throw (error_text m st)) w
  | WorkerError m => finish_worker (Throw m) w
  | Exited code =>
      if negb (code =? 0) && wt_timer w
      then finish_worker (Throw ("Replay worker exited with code " ++ dec_string code)%string) w else w
  | TimerFired => if wt_timer w then finish_worker (Throw "Replay worker timed out after 30 min") w else w
  end.
(** The timer that was not cleared fires in the end, whatever else the parent hears. *)
Definition promise_of (evs : list WorkerEvent) : option (Res ReplayResult) :=
  wt_outcome (fold_left on_event (evs ++ [TimerFired]) spawned).

(** The detached write behind a progress message. *)
Definition with_progress (processed total : Z) (_ : Z) (s : ReplaySession) : ReplaySession := {|
  rs_id := rs_id s; rs_setup := rs_setup s; rs_createdAt := rs_createdAt s; rs_startEquity := rs_startEquity s;
  rs_status := rs_status s; rs_progress := Some (Math_round (nmul (ndiv (of_Z processed) (of_Z total)) (of_Z 100)));
  rs_endedAt := rs_endedAt s; rs_endEquity := rs_endEquity s; rs_realizedPnl := rs_realizedPnl s;
  rs_tradesCount := rs_tradesCount s; rs_winsCount := rs_winsCount s; rs_lossesCount := rs_lossesCount s;
  rs_maxOpenConcurrent := rs_maxOpenConcurrent s; rs_metrics := rs_metrics s; rs_errorMessage := rs_errorMessage s |}.
Definition progress_write (sessionId : string) (processed total : Z) : JobAsync unit :=
  jstmt (update_row jd_sessions set_replays sessionId (with_progress processed total)).

Section replay.
Local Open Scope async_scope.

Definition runOnWorker (msg : RunMessage) : JobAsync ReplayResult :=
  evs <~ @ask JobAct job_result (RunWorker msg) ;;
  of_res (default (Throw "pending"%string) (promise_of evs)).

(** ** Candles *)
Definition HTF_WARMUP_DAYS : Z := 220.
Definition end_of_day (t : Z) : Z := day_of t * ms_day + (ms_day - 1).
Definition candle_of (r : CandleRow) : BacktestCandle := {|
  c_symbol := cd_symbol r; timeframe := cd_timeframe r; openTime := toISOString (cd_openTime r);
  open := cd_open r; high := cd_high r; low := cd_low r; close := cd_close r; volume := cd_volume r |}.
Definition candles_between (symbol tf : string) (from upto : Z) (d : JobDb) : list CandleRow :=
  oldest cd_openTime (filter (fun r => bool_decide (cd_symbol r = symbol) && bool_decide (cd_timeframe r = tf) &&
    (from <=? cd_openTime r) && (cd_openTime r <=? upto) = true) (jd_candles d)).
Definition fetchTimeframe (symbol tf : string) (from upto : Z) : JobAsync (list BacktestCandle) :=
  rows <~ jread (candles_between symbol tf from upto) ;; resolve (candle_of <$> rows).

(** The three reads of a pair are awaited in the order of the array. *)
Definition loadCandles (pairs : list string) (startDate endDate : string) : JobAsync CandleBundle :=
  start <~ of_res (date_column startDate) ;;
  end_ <~ of_res (date_column endDate) ;;
  let upto := end_of_day end_ in
  let htfStart := addDays (- HTF_WARMUP_DAYS) start in
  fold_each (fun bundle symbol =>
    m15 <~ fetchTimeframe symbol "M15" htfStart upto ;;
    h1 <~ fetchTimeframe symbol "H1" htfStart upto ;;
    d1 <~ fetchTimeframe symbol "D1" htfStart upto ;;
    resolve (map_set symbol {| m15 := m15; h1 := h1; d1 := d1 |} bundle)) pairs [].

Definition m15_of (candles : CandleBundle) (sym : string) : list BacktestCandle :=
  match map_get sym candles with Some b => m15 b | None => [] end.
Definition starved (candles : CandleBundle) (sym : string) : bool := zlen (m15_of candles sym) <? 200.

(** ** What is stored *)
Definition decision_rows (sessionId : string) (l : list ReplayDecision) : Res (list ReplayDecisionRow) :=
  all_ok ((fun d => res_map (fun t => {|
    dw_source := "replay"; dw_sessionId := sessionId; dw_symbol := rd_symbol d; dw_barTime := t;
    dw_decision := decision d; dw_signalSide := signalSide d; dw_context := rd_context d |})
    (date_column (barTime d))) <$> l).
Definition batches {A} (n : nat) (l : list A) : list (list A) :=
  (fun k => take n (drop (n * k)%nat l)) <$> seq 0 ((length l + n - 1) / n)%nat.
Definition persist_decisions (sessionId : string) (l : list ReplayDecision) : JobAsync unit :=
  for_each (fun batch =>
    rows <~ of_res (decision_rows sessionId batch) ;;
    jstmt (fun _ _ d => (add_decisions rows d, Ok tt))) (batches 1000 l).

Definition trade_row (sessionId : string) (t : ClosedPosition) : Res ReplayTrade :=
  let p := cp_pos t in let b := base p in
  (opened <-! date_column (openedAt p) ;;
   closed <-! date_column (closedAt t) ;;
   swept <-! match sp_sweepCandleTime p with
             | Some s => if truthy_string s then res_map Some (date_column s) else Ok None
             | None => Ok None
             end ;;
   Ok {| lt_sessionId := sessionId; lt_symbol := sp_symbol p; lt_side := side b; lt_lotSize := lotSize b;
         lt_entryPrice := entryPrice b; lt_closePrice := closePrice t; lt_slPrice := slPrice b; lt_tpPrice := tpPrice b;
         lt_status := "CLOSED"; lt_exitReason := cp_exitReason t; lt_pnl := cp_pnl t; lt_openedAt := opened;
         lt_closedAt := closed; lt_mode := sp_mode p; lt_setupTags := setupTags b; lt_reason := sp_reason p;
         lt_sweptLevel := sp_sweptLevel p; lt_sweptHigh := sp_sweptHigh p; lt_sweptLow := sp_sweptLow p;
         lt_sweepCandleTime := swept; lt_d1Bias := sp_d1Bias p; lt_originalSlPrice := originalSlPrice b;
         lt_strategyName := "GIDEON" |})%js.
Definition store_trades (sessionId : string) (l : list ClosedPosition) : JobAsync unit :=
  rows <~ of_res (all_ok (trade_row sessionId <$> l)) ;;
  jstmt (fun _ _ d => (add_trades rows d, Ok tt)).
End replay.

(** ** LiveReplayService *)
Section replay_service.
Local Open Scope async_scope.
(** [REPLAY_USE_WORKER !== '0'] *)
Context (USE_WORKER : bool).

Definition REPLAY_DEFAULT_PAIRS : list string := ["XAUUSD"; "EURUSD"; "GBPUSD"; "USDJPY"]%string.
Definition pairs_of (dto : StartReplayDto) : list string :=
  match sr_pairs dto with Some (p :: l) => p :: l | _ => REPLAY_DEFAULT_PAIRS end.

Definition create_replay (dto : StartReplayDto) (now : Z) (id : string) (d : JobDb) : JobDb * Res string :=
  match date_column (sr_startDate dto), date_column (sr_endDate dto) with
  | Ok s, Ok e =>
      (set_replays (<[id := {|
         rs_id := id;
         rs_setup := {| ru_startDate := s; ru_endDate := e; ru_initialBalance := sr_initialBalance dto;
                        ru_riskPercent := sr_riskPercent dto; ru_pairs := pairs_of dto; ru_label := sr_label dto;
                        ru_runnerTrail := sr_runnerTrail dto; ru_retraceEntry := sr_retraceEntry dto;
                        ru_pairConfigOverrides := sr_pairConfigOverrides dto |};
         rs_createdAt := now; rs_startEquity := sr_initialBalance dto; rs_status := JRUNNING; rs_progress := None;
         rs_endedAt := None; rs_endEquity := None; rs_realizedPnl := of_Z 0; rs_tradesCount := 0;
         rs_winsCount := 0; rs_lossesCount := 0; rs_maxOpenConcurrent := 0; rs_metrics := None;
         rs_errorMessage := None |}]> (jd_sessions d)) d, Ok id)
  | Throw e, _ | _, Throw e => (d, Throw e)
  end.

(** A window of at most 92 days is logged. *)
Definition short_window (startDate endDate : string) : bool :=
  match Date_parse startDate, Date_parse endDate with
  | Some s, Some e => nleb (ndiv (of_Z (e - s)) (of_Z 86400000)) (of_Z 92)
  | _, _ => false
  end.
Definition replay_config (dto : StartReplayDto) (pairs : list string) : ReplayConfig := {|
  startDate := sr_startDate dto; endDate := sr_endDate dto; rp_initialBalance := sr_initialBalance dto;
  rp_riskPercent := sr_riskPercent dto; ReplayEngine.pairs := pairs; rp_maxOpenPositions := None;
  logDecisions := Some (short_window (sr_startDate dto) (sr_endDate dto));
  rp_runnerTrail := default (fun x => x) (sr_runnerTrail dto); rp_retraceEntry := sr_retraceEntry dto |}.
Definition run_message (dto : StartReplayDto) (pairs : list string) (candles : CandleBundle) : RunMessage := {|
  pm_cfg := replay_config dto pairs; pm_overrides := sr_pairConfigOverrides dto; pm_candles := candles |}.

Definition completed_replay (r : ReplayResult) (now : Z) (s : ReplaySession) : ReplaySession := {|
  rs_id := rs_id s; rs_setup := rs_setup s; rs_createdAt := rs_createdAt s; rs_startEquity := rs_startEquity s;
  rs_status := JCOMPLETED; rs_progress := rs_progress s; rs_endedAt := Some now;
  rs_endEquity := Some (rr_finalBalance r); rs_realizedPnl := realizedPnl (metrics r);
  rs_tradesCount := tradesCount (metrics r); rs_winsCount := winsCount (metrics r);
  rs_lossesCount := lossesCount (metrics r); rs_maxOpenConcurrent := rr_maxConcurrent r;
  rs_metrics := Some (metrics r); rs_errorMessage := rs_errorMessage s |}.
Definition failed_replay (message : string) (now : Z) (s : ReplaySession) : ReplaySession := {|
  rs_id := rs_id s; rs_setup := rs_setup s; rs_createdAt := rs_createdAt s; rs_startEquity := rs_startEquity s;
  rs_status := JFAILED; rs_progress := rs_progress s; rs_endedAt := Some now; rs_endEquity := rs_endEquity s;
  rs_realizedPnl := rs_realizedPnl s; rs_tradesCount := rs_tradesCount s; rs_winsCount := rs_winsCount s;
  rs_lossesCount := rs_lossesCount s; rs_maxOpenConcurrent := rs_maxOpenConcurrent s; rs_metrics := rs_metrics s;
  rs_errorMessage := Some message |}.

(** The run, and what is kept of it. *)
Definition save_result (sessionId : string) (result : ReplayResult) : JobAsync unit :=
  await! match rr_decisions result with
         | Some (d :: l) => swallow (persist_decisions sessionId (d :: l))
         | _ => resolve tt
         end ;;
  await! match rr_closed result with [] => resolve tt | l => store_trades sessionId l end ;;
  jstmt (update_row jd_sessions set_replays sessionId (completed_replay result)).
Definition run_replay (sessionId : string) (dto : StartReplayDto) (pairs : list string) : JobAsync unit :=
  candles <~ loadCandles pairs (sr_startDate dto) (sr_endDate dto) ;;
  match List.find (starved candles) pairs with
  | Some sym => reject ("Insufficient M15 candles for " ++ sym)%string
  | None =>
      result <~ (if USE_WORKER then runOnWorker (run_message dto pairs candles)
                 else @perform JobAct job_result (RunInThread (replay_config dto pairs) candles)) ;;
      save_result sessionId result
  end.
Definition execute_replay (sessionId : string) (dto : StartReplayDto) (pairs : list string) : JobAsync unit :=
  try_catch (run_replay sessionId dto pairs)
    (fun message => jstmt (update_row jd_sessions set_replays sessionId (failed_replay message))).

(** [createAndRun], and the job it leaves behind: a rejection of the job is logged. *)
Definition createAndRun_replay (dto : StartReplayDto) : JobAsync string :=
  id <~ jstmt (create_replay dto) ;;
  await! swallow (execute_replay id dto (pairs_of dto)) ;;
  resolve id.

(** ** Reading replays *)
Definition listReplays (limit : nat) : JobAsync (list ReplaySession) :=
  jread (fun d => take limit (newest rs_createdAt (rows_of (jd_sessions d)))).
Definition getReplay (id : string) : JobAsync (option ReplaySession) := jread (fun d => jd_sessions d !! id).
Definition replay_trades_of (id : string) (d : JobDb) : list ReplayTrade :=
  filter (fun t => lt_sessionId t = id) (jd_trades d).
Definition getReplayTrades (id : string) : JobAsync (list ReplayTrade) :=
  jread (fun d => oldest lt_openedAt (replay_trades_of id d)).

(** Three fifths of the bars before the centre (the product [bars * 0.6] is rounded to the
    nearest double, whose floor is this quotient), and half as much time again for the
    gaps of the weekends. *)
Definition BAR_SPAN : Z := 1350000.
Definition getChartCandles (symbol timeIso : string) (bars : Z) : JobAsync (string * list BacktestCandle) :=
  match Date_parse timeIso with
  | None => reject ("Invalid time: " ++ timeIso)%string
  | Some center =>
      let sym := toUpperCase symbol in
      let beforeBars := bars * 3 / 5 in
      let afterBars := bars - beforeBars in
      rows <~ jread (fun d => take (Z.to_nat (bars * 2))
        (candles_between sym "M15" (center - beforeBars * BAR_SPAN) (center + afterBars * BAR_SPAN) d)) ;;
      resolve (sym, candle_of <$> rows)
  end.

(** The controller (live-replay.controller.ts): nobody but the id decides who may read. *)
Definition NOT_FOUND_JOB : string := "NotFoundException".
Definition replay_getOne (id : string) : JobAsync ReplaySession :=
  s <~ getReplay id ;; match s with Some s => resolve s | None => reject NOT_FOUND_JOB end.
Definition replay_getTrades (id : string) : JobAsync (list ReplayTrade) :=
  await! replay_getOne id ;; getReplayTrades id.
(** [window] is what [parseInt] made of the parameter: [None] is NaN, which [Math.min] and
    [Math.max] keep and the dates of the query refuse. *)
Definition replay_chartCandles (id symbol time : string) (window : option (option Z)) : JobAsync (string * list BacktestCandle) :=
  await! replay_getOne id ;;
  match window with
  | None => getChartCandles symbol time 50
  | Some (Some n) => getChartCandles symbol time (Z.max 20 (Z.min 200 n))
  | Some None =>
      match Date_parse time with
      | None => reject ("Invalid time: " ++ time)%string
      | Some _ => reject "Invalid value: Provided Date object is invalid"
      end
  end.
End replay_service.

(** ** BacktestService *)
Record CreateBacktestDto := {
  cb_symbol : option string; cb_startDate : string; cb_endDate : string; cb_initialBalance : num;
  cb_riskPercent : num; cb_withLlm : option bool; cb_strategyVersion : option StrategyVersion }.

Section backtest_service.
Context `{TechnicalIndicators} `{Bollinger} `{TimeZones}.
Local Open Scope async_scope.

Definition symbol_of (dto : CreateBacktestDto) : string := default "XAUUSD"%string (cb_symbol dto).
Definition version_of (dto : CreateBacktestDto) : StrategyVersion := default V6 (cb_strategyVersion dto).

Definition unfinished (userId : string) (r : BacktestRun) : bool :=
  bool_decide (bt_userId r = userId) && bool_decide (bt_status r ∈ [JPENDING; JRUNNING]).
Definition unfinished_count (userId : string) (d : JobDb) : Z := count (unfinished userId) (rows_of (jd_runs d)).
Definition CONFLICT_RUNS : string := "You already have running backtests. Wait for them to finish.".

Definition create_run (dto : CreateBacktestDto) (userId : string) (now : Z) (id : string) (d : JobDb) : JobDb * Res string :=
  match date_column (cb_startDate dto), date_column (cb_endDate dto) with
  | Ok s, Ok e =>
      (set_runs (<[id := {|
         bt_id := id; bt_userId := userId; bt_symbol := symbol_of dto; bt_startDate := s; bt_endDate := e;
         bt_initialBalance := cb_initialBalance dto; bt_riskPercent := cb_riskPercent dto;
         bt_withLlm := default false (cb_withLlm dto); bt_strategyVersion := version_of dto; bt_status := JPENDING;
         bt_metrics := None; bt_errorMessage := None; bt_createdAt := now; bt_completedAt := None |}]> (jd_runs d)) d,
       Ok id)
  | Throw e, _ | _, Throw e => (d, Throw e)
  end.
Definition with_outcome (st : JobStatus) (m : option BacktestMetrics) (err : option string) (at_ : option Z)
    (r : BacktestRun) : BacktestRun := {|
  bt_id := bt_id r; bt_userId := bt_userId r; bt_symbol := bt_symbol r; bt_startDate := bt_startDate r;
  bt_endDate := bt_endDate r; bt_initialBalance := bt_initialBalance r; bt_riskPercent := bt_riskPercent r;
  bt_withLlm := bt_withLlm r; bt_strategyVersion := bt_strategyVersion r; bt_status := st; bt_metrics := m;
  bt_errorMessage := err; bt_createdAt := bt_createdAt r; bt_completedAt := at_ |}.
Definition running_run (_ : Z) (r : BacktestRun) : BacktestRun :=
  with_outcome JRUNNING (bt_metrics r) (bt_errorMessage r) (bt_completedAt r) r.
Definition completed_run (m : BacktestMetrics) (now : Z) (r : BacktestRun) : BacktestRun :=
  with_outcome JCOMPLETED (Some m) (bt_errorMessage r) (Some now) r.
Definition failed_run (message : string) (now : Z) (r : BacktestRun) : BacktestRun :=
  with_outcome JFAILED (bt_metrics r) (Some message) (Some now) r.
Definition update_run (id : string) (patch : Z -> BacktestRun -> BacktestRun) : JobAsync unit :=
  jstmt (update_row jd_runs set_runs id patch).

Definition fetchCandles (symbol tf start end_ : string) : JobAsync (list BacktestCandle) :=
  @perform JobAct job_result (HttpCandles symbol tf start end_).

Definition run_trade_row (runId : string) (t : ClosedTrade) : Res BacktestTrade :=
  (entry <-! date_column (ct_entryTime t) ;;
   exit_ <-! date_column (exitTime t) ;;
   Ok {| bx_runId := runId; bx_side := ct_side t; bx_entryPrice := ct_entryPrice t; bx_exitPrice := exitPrice t;
         bx_slPrice := ct_slPrice t; bx_tpPrice := default (of_Z 0) (ct_tpPrice t); bx_lotSize := ct_lotSize t;
         bx_pnl := pnl t; bx_commission := commission t; bx_setupTags := ct_setupTags t; bx_entryTime := entry;
         bx_exitTime := exit_; bx_exitReason := exitReason t; bx_h1Bias := ct_h1Bias t;
         bx_rsiAtEntry := ct_rsiAtEntry t; bx_atrAtEntry := ct_atrAtEntry t |})%js.
Definition store_run_trades (runId : string) (l : list ClosedTrade) : JobAsync unit :=
  rows <~ of_res (all_ok (run_trade_row runId <$> l)) ;;
  jstmt (fun _ _ d => (add_run_trades rows d, Ok tt)).

(** The configuration the service gives the engine. *)
Definition engine_config (dto : CreateBacktestDto) : EngineConfig := {|
  symbol := symbol_of dto; initialBalance := cb_initialBalance dto; riskPercent := cb_riskPercent dto;
  maxDailyLossPercent := of_Z 4; Types.maxConsecutiveLosses := 5; maxOpenPositions := 4 |}.
(** The engine runs between two awaits, on the cache of its module; the overrides of the
    pair registry are only set in worker threads. *)
Definition run_engine_of (dto : CreateBacktestDto) (m15 h1 d1 : list BacktestCandle)
    : M BB.Cache (list ClosedTrade * BacktestMetrics) :=
  V6Engine.run ∅ m15 h1 d1 (engine_config dto) (Some (version_of dto)).

(** The higher frames: missing ones do not stop the run.  The engine reads the D1 bars
    only. *)
Definition fetch_htf (symbol from upto : string) : JobAsync (list BacktestCandle) :=
  try_catch
    (await! fetchCandles symbol "H4" from upto ;; fetchCandles symbol "D1" from upto)
    (fun _ => resolve []).

Definition run_backtest (runId : string) (dto : CreateBacktestDto) : JobAsync unit :=
  let sym := symbol_of dto in
  await! update_run runId running_run ;;
  start <~ of_res (date_column (cb_startDate dto)) ;;
  let htfStartStr := substring10 (toISOString (addDays (- HTF_WARMUP_DAYS) start)) in
  m15 <~ fetchCandles sym "M15" (cb_startDate dto) (cb_endDate dto) ;;
  if zlen m15 <? 200 then reject "Not enough M15 candles"
  else
    h1 <~ fetchCandles sym "H1" htfStartStr (cb_endDate dto) ;;
    d1 <~ (if bool_decide (version_of dto = V5_5b) then resolve [] else fetch_htf sym htfStartStr (cb_endDate dto)) ;;
    out <~ @ask JobAct job_result (CacheStep _ (run_engine_of dto m15 h1 d1)) ;;
    match out with
    | Throw e => reject e
    | Ok (trades, metrics) =>
        await! match trades with [] => resolve tt | _ => store_run_trades runId trades end ;;
        update_run runId (completed_run metrics)
    end.
(** [throw error] after the row is FAILED. *)
Definition executeBacktest (runId : string) (dto : CreateBacktestDto) : JobAsync unit :=
  try_catch (run_backtest runId dto)
    (fun message => await! update_run runId (failed_run message) ;; reject message).

Definition createAndRun_backtest (dto : CreateBacktestDto) (userId : string) : JobAsync string :=
  running <~ jread (unfinished_count userId) ;;
  if 2 <=? running then reject CONFLICT_RUNS
  else
    id <~ jstmt (create_run dto userId) ;;
    await! swallow (executeBacktest id dto) ;;
    resolve id.

(** ** Reading backtests (BacktestRunResult, BacktestTradeResult) *)
Record BacktestRunResult := {
  br_run : BacktestRun; br_startDate : string; br_endDate : string; br_createdAt : string; br_completedAt : option string }.
Definition run_result (r : BacktestRun) : BacktestRunResult := {|
  br_run := r; br_startDate := toISOString (bt_startDate r); br_endDate := toISOString (bt_endDate r);
  br_createdAt := toISOString (bt_createdAt r); br_completedAt := toISOString <$> bt_completedAt r |}.
Definition listRuns (userId : string) (limit : nat) : JobAsync (list BacktestRunResult) :=
  runs <~ jread (fun d => take limit (newest bt_createdAt
    (filter (fun r => bt_userId r = userId) (rows_of (jd_runs d))))) ;;
  resolve (run_result <$> runs).
Definition owned_run (id userId : string) (d : JobDb) : option BacktestRun :=
  match jd_runs d !! id with
  | Some r => if bool_decide (bt_userId r = userId) then Some r else None
  | None => None
  end.
Definition getRun (id userId : string) : JobAsync (option BacktestRunResult) :=
  run <~ jread (owned_run id userId) ;; resolve (run_result <$> run).
Definition day_part (s : string) : string :=
  match split_on (Ascii.ascii_of_nat 84) [] (String.list_ascii_of_string s) with x :: _ => x | [] => ""%string end.
Definition getRunCandles (runId userId : string) : JobAsync (option (list BacktestCandle)) :=
  run <~ getRun runId userId ;;
  match run with
  | None => resolve None
  | Some r =>
      candles <~ fetchCandles (bt_symbol (br_run r)) "M15" (day_part (br_startDate r)) (day_part (br_endDate r)) ;;
      resolve (Some candles)
  end.
Definition run_trades_of (id : string) (d : JobDb) : list BacktestTrade :=
  filter (fun t => bx_runId t = id) (jd_run_trades d).
Record BacktestTradeResult := { xr_trade : BacktestTrade; xr_entryTime : string; xr_exitTime : string }.
Definition getRunTrades (runId userId : string) : JobAsync (option (list BacktestTradeResult)) :=
  run <~ getRun runId userId ;;
  match run with
  | None => resolve None
  | Some _ =>
      trades <~ jread (fun d => oldest bx_entryTime (run_trades_of runId d)) ;;
      resolve (Some ((fun t => {| xr_trade := t; xr_entryTime := toISOString (bx_entryTime t);
                                  xr_exitTime := toISOString (bx_exitTime t) |}) <$> trades))
  end.

(** The controller: a run of another user is not found. *)
Definition found {A} (m : JobAsync (option A)) : JobAsync A :=
  x <~ m ;; match x with Some a => resolve a | None => reject NOT_FOUND_JOB end.
Definition getBacktest (id userId : string) : JobAsync BacktestRunResult := found (getRun id userId).
Definition getBacktestTrades (id userId : string) : JobAsync (list BacktestTradeResult) := found (getRunTrades id userId).
Definition getBacktestCandles (id userId : string) : JobAsync (list BacktestCandle) := found (getRunCandles id userId).
End backtest_service.

(** ** What the effects do

    A statement that throws leaves the tables alone; a fresh identifier names no row of
    either table.  A worker's messages are, in order, some of those that [worker_run]
    makes it send, from the first on, as long as nothing killed it; an error event, an exit
    and the timer may come at any time. *)
Record JobWorld := { jw_db : JobDb; jw_cache : BB.Cache }.
Definition on_jobs (d : JobDb) (w : JobWorld) : JobWorld := {| jw_db := d; jw_cache := jw_cache w |}.
Definition fresh_job (id : string) (d : JobDb) : Prop := jd_sessions d !! id = None /\ jd_runs d !! id = None.
Definition commit_jobs {A} (r : JobDb * Res A) (w : JobWorld) : JobWorld :=
  match r.2 with Ok _ => on_jobs r.1 w | Throw _ => w end.
Definition message_of (e : WorkerEvent) : option WorkerMessage := match e with Heard m => Some m | _ => None end.

Section semantics.
Context `{TechnicalIndicators} (envRisk : num).
Definition worker_sends (msg : RunMessage) (evs : list WorkerEvent) : Prop :=
  exists randomUUID sent stack, omap message_of evs `prefix_of` worker_messages randomUUID envRisk sent stack msg.
Definition job_sem (_ : nat) (e : JobAct) (w w' : JobWorld) : job_result e -> Prop :=
  match e return job_result e -> Prop with
  | JStmt A f => fun x =>
      (exists now id, fresh_job id (jw_db w) /\ w' = commit_jobs (f now id (jw_db w)) w /\ x = (f now id (jw_db w)).2)
      \/ (w' = w /\ exists e, x = Throw e)
  | RunWorker msg => fun evs => w' = w /\ worker_sends msg evs
  | CacheStep A f => fun x => (w', x) = ({| jw_db := jw_db w; jw_cache := (f (jw_cache w)).1 |}, (f (jw_cache w)).2)
  | _ => fun _ => w' = w
  end.
End semantics.
