(* ===== verification/JobFacts.v ===== *)
(** * Theorems about jobs

    Any number of replay and backtest jobs, progress writes and reads run side by side over
    the tables of [Jobs].  The proof keeps, as ghost state, which thread created which row:
    a job changes nothing but its own row and the trades stored for it.  The last part runs
    jobs in a concrete world. *)
From Stdlib Require Import SpecFloat.
From S2P Require Import Prelude Async JsNum JsDate NumFacts MarketTypes DeskTypes Types Instruments Indicators PerformanceTracker V6Evaluator V6Engines Orchestrator SimBroker ReplayEngine Jobs.
From S2P Require V6Engine ReplayFacts AnalyticsFacts.
Local Open Scope Z_scope.

(** ** The parent's promise *)

(** What an event says of the outcome, as long as the timer is there. *)
Definition decisive (e : WorkerEvent) : option (Res ReplayResult) :=
  match e with
  | Heard (MsgProgress _ _) => None
  | Heard (MsgDone r) => Some (Ok r)
  | Heard (MsgError m st) => Some (Throw (error_text m st))
  | WorkerError m => Some (Throw m)
  | Exited code => if code =? 0 then None else Some (Throw ("Replay worker exited with code " ++ dec_string code)%string)
  | TimerFired => Some (Throw "Replay worker timed out after 30 min"%string)
  end.
Definition timed_out : Res ReplayResult := Throw "Replay worker timed out after 30 min"%string.

Lemma finished_stays evs r b : wt_outcome (fold_left on_event evs {| wt_timer := false; wt_outcome := Some r; wt_terminated := b |}) = Some r.
Proof.
  revert b. induction evs as [|e evs IH]; intros b; [done|]. simpl.
  assert (H : exists b', on_event {| wt_timer := false; wt_outcome := Some r; wt_terminated := b |} e
                         = {| wt_timer := false; wt_outcome := Some r; wt_terminated := b' |}).
  { destruct e as [[]| | |]; simpl; try by eexists. rewrite andb_false_r. by eexists. }
  destruct H as [b' ->]. apply IH.
Qed.

(** The promise of a worker always settles, with the first event that decides: a result, a
    reported error, an error event, an exit other than 0 or the timer; progress messages and
    an exit with 0 decide nothing, and what comes after the first decision changes nothing. *)
Theorem worker_promise_settles (evs : list WorkerEvent) :
  promise_of evs = Some (default timed_out (head (omap decisive evs))).
Proof.
  unfold promise_of, spawned. induction evs as [|e evs IH]; [done|]. simpl.
  destruct e as [[p t|r|m st]|m|code|]; simpl; try exact IH; try apply finished_stays.
  destruct (code =? 0); simpl; [exact IH|apply finished_stays].
Qed.

Lemma promise_ok evs r : promise_of evs = Some (Ok r) -> MsgDone r ∈ omap message_of evs.
Proof.
  rewrite worker_promise_settles. intros [= H].
  destruct (omap decisive evs) as [|o l] eqn:E; simpl in H; [done|]. subst o.
  assert (Hin : Ok r ∈ omap decisive evs) by (rewrite E; left).
  apply list_elem_of_omap in Hin as (e & He & Hd). apply list_elem_of_omap. exists e. split; [done|].
  destruct e as [[]| | |]; simpl in Hd; try destruct (_ =? 0); by simplify_eq.
Qed.

(** ** Views of a job *)
Definition core (s : ReplaySession) : ReplaySession := with_progress 0 0 0 s.
Record JobView := {
  v_session : option ReplaySession; v_trades : list ReplayTrade;
  v_run : option BacktestRun; v_run_trades : list BacktestTrade }.
Definition view (id : string) (d : JobDb) : JobView := {|
  v_session := core <$> jd_sessions d !! id; v_trades := replay_trades_of id d;
  v_run := jd_runs d !! id; v_run_trades := run_trades_of id d |}.
#[global] Arguments view : simpl never.
Definition nothing : JobView := {| v_session := None; v_trades := []; v_run := None; v_run_trades := [] |}.

Section facts.
Context {TI : TechnicalIndicators} {BO : Bollinger} {TZ : TimeZones} (envRisk : num).

(** What a row that ended, and the trades stored for it, have to do with the engine. *)
Definition replay_of (id : string) (s : ReplaySession) (trades : list ReplayTrade) (r : ReplayResult) : Prop :=
  exists randomUUID msg, worker_run randomUUID envRisk msg = Ok r /\ NoDup (pm_candles msg).*1 /\
    rp_initialBalance (pm_cfg msg) = ru_initialBalance (rs_setup s) /\
    ReplayEngine.pairs (pm_cfg msg) = ru_pairs (rs_setup s) /\
    all_ok (trade_row id <$> rr_closed r) = Ok trades.
Definition session_good (id : string) (s : ReplaySession) (trades : list ReplayTrade) : Prop :=
  rs_id s = id /\
  match rs_status s with
  | JPENDING => False
  | JRUNNING => rs_endedAt s = None /\ rs_endEquity s = None /\ rs_errorMessage s = None
  | JFAILED => is_Some (rs_endedAt s) /\ is_Some (rs_errorMessage s)
  | JCOMPLETED => exists r now s0, replay_of id s trades r /\ s = completed_replay r now s0
  end.
Definition run_of (r : BacktestRun) (trades : list ClosedTrade) (m : BacktestMetrics) : Prop :=
  exists dto m15 h1 d1 cache cache', run_engine_of dto m15 h1 d1 cache = (cache', Ok (trades, m)) /\ 200 <= zlen m15 /\
    cb_initialBalance dto = bt_initialBalance r /\ version_of dto = bt_strategyVersion r /\ symbol_of dto = bt_symbol r.
Definition run_good (id : string) (r : BacktestRun) (stored : list BacktestTrade) : Prop :=
  bt_id r = id /\
  match bt_status r with
  | JPENDING | JRUNNING => bt_metrics r = None /\ bt_completedAt r = None /\ bt_errorMessage r = None
  | JFAILED => is_Some (bt_completedAt r) /\ is_Some (bt_errorMessage r)
  | JCOMPLETED => is_Some (bt_completedAt r) /\ exists trades m, run_of r trades m /\ bt_metrics r = Some m /\
      all_ok (run_trade_row id <$> trades) = Ok stored
  end.
Definition good (id : string) (v : JobView) : Prop :=
  (forall s, v_session v = Some s -> session_good id s (v_trades v)) /\
  (forall r, v_run v = Some r -> run_good id r (v_run_trades v)).

(** A row is never deleted, and once it ended neither it nor its trades change. *)
Definition ended (s : JobStatus) : bool := bool_decide (s = JCOMPLETED) || bool_decide (s = JFAILED).
Definition moves (v v' : JobView) : Prop :=
  (forall s, v_session v = Some s -> is_Some (v_session v') /\
     (ended (rs_status s) = true -> v_session v' = Some s /\ v_trades v' = v_trades v)) /\
  (forall r, v_run v = Some r -> is_Some (v_run v') /\
     (ended (bt_status r) = true -> v_run v' = Some r /\ v_run_trades v' = v_run_trades v)).
#[local] Instance moves_preorder : PreOrder moves.
Proof.
  split; [by split; eauto|]. intros v1 v2 v3 [A1 B1] [A2 B2]. split.
  - intros s Hs. destruct (A1 s Hs) as [[s2 Hs2] He]. destruct (A2 s2 Hs2) as [Hi He2]. split; [done|].
    intros Hx. destruct (He Hx) as [Hv Ht]. assert (s2 = s) as -> by congruence. destruct (He2 Hx) as [-> ->]. done.
  - intros s Hs. destruct (B1 s Hs) as [[s2 Hs2] He]. destruct (B2 s2 Hs2) as [Hi He2]. split; [done|].
    intros Hx. destruct (He Hx) as [Hv Ht]. assert (s2 = s) as -> by congruence. destruct (He2 Hx) as [-> ->]. done.
Qed.

(** ** Ownership *)
Definition Owners := gmap string nat.
Definition note (i : nat) (w : JobWorld) (g : Owners) : Owners :=
  g ∪ gset_to_gmap i (dom (jd_sessions (jw_db w)) ∪ dom (jd_runs (jw_db w))).
Definition St : Type := JobWorld * Owners.
Notation gsem := (ghost_sem (job_sem envRisk) note).
Definition seen (id : string) (s : St) : JobView := view id (jw_db s.1).

Definition exists_ (v : JobView) : Prop := is_Some (v_session v) \/ is_Some (v_run v).
Definition Inv (s : St) : Prop :=
  (forall id, s.2 !! id = None -> seen id s = nothing) /\ (forall id, good id (seen id s)) /\
  (forall id, is_Some (s.2 !! id) -> exists_ (seen id s)).
Definition rely (i : nat) (s s' : St) : Prop :=
  s.2 ⊆ s'.2 /\ (forall id, s.2 !! id = Some i -> seen id s' = seen id s) /\ (Inv s -> Inv s').
Definition guar (i : nat) (s s' : St) : Prop :=
  s.2 ⊆ s'.2 /\ (forall id j, s.2 !! id = Some j -> j <> i -> seen id s' = seen id s) /\ (Inv s -> Inv s') /\
  (forall id, moves (seen id s) (seen id s')).
#[local] Instance rely_preorder i : PreOrder (rely i).
Proof.
  split; [intros s; by split_and!|]. intros s1 s2 s3 (A1 & B1 & C1) (A2 & B2 & C2). split_and!; [by etrans| |auto].
  intros id Hid. rewrite B2 by (by eapply lookup_weaken). auto.
Qed.
Lemma job_guar_rely i j s s' : i <> j -> guar i s s' -> rely j s s'.
Proof. intros Hne (A & B & C & _). split_and!; [done| |done]. intros id Hid. by eapply B. Qed.

(** ** Steps *)
Lemma note_lookup i w g id j : note i w g !! id = Some j -> g !! id = Some j \/ (g !! id = None /\ j = i /\ (is_Some (jd_sessions (jw_db w) !! id) \/ is_Some (jd_runs (jw_db w) !! id))).
Proof.
  unfold note. intros Hl. apply lookup_union_Some_raw in Hl as [Hl|[Hg Hl]]; [by left|]. right.
  apply lookup_gset_to_gmap_Some in Hl as [Hd ->]. split_and!; [done..|].
  apply elem_of_union in Hd as [Hd|Hd]; apply elem_of_dom in Hd; auto.
Qed.
Lemma note_none i w g id : note i w g !! id = None ->
  g !! id = None /\ jd_sessions (jw_db w) !! id = None /\ jd_runs (jw_db w) !! id = None.
Proof.
  unfold note. intros Hl. apply lookup_union_None in Hl as [Hg Hl]. split; [done|].
  apply lookup_gset_to_gmap_None in Hl. split; apply not_elem_of_dom; set_solver.
Qed.

Lemma exists_moves v v' : moves v v' -> exists_ v -> exists_ v'.
Proof. intros [A B] [[x Hx]|[x Hx]]; [left; by destruct (A x Hx)|right; by destruct (B x Hx)]. Qed.
Lemma exists_seen id s : is_Some (jd_sessions (jw_db s.1) !! id) \/ is_Some (jd_runs (jw_db s.1) !! id) -> exists_ (seen id s).
Proof. unfold exists_, seen, view. simpl. rewrite fmap_is_Some. done. Qed.

(** A step that changes at most the view of a row of its own, or of a new one. *)
Lemma step_guar i id (s s' : St) :
  s'.2 = note i s'.1 s.2 -> Inv s -> (s.2 !! id = Some i \/ s.2 !! id = None) ->
  (forall k, k <> id -> seen k s' = seen k s) -> is_Some (s'.2 !! id) ->
  good id (seen id s') -> moves (seen id s) (seen id s') ->
  guar i s s' /\ Inv s'.
Proof.
  intros Hn (I1 & I2 & I3) Ho Hk Hin Hg Hm.
  assert (Hsub : s.2 ⊆ s'.2) by (rewrite Hn; apply map_union_subseteq_l).
  assert (Hmv : forall k, moves (seen k s) (seen k s')).
  { intros k. destruct (decide (k = id)) as [->|Hne]; [done|]. rewrite Hk by done. reflexivity. }
  assert (HI' : Inv s').
  { split_and!; intros k.
    - destruct (decide (k = id)) as [->|Hne]; [intros Hno; rewrite Hno in Hin; by destruct Hin|].
      intros Hno'. rewrite Hk by done. apply I1.
      destruct (s.2 !! k) eqn:E; [|done]. pose proof (lookup_weaken _ _ _ _ E Hsub) as Hw; unfold Owners in *; by rewrite Hw in Hno'.
    - destruct (decide (k = id)) as [->|Hne]; [done|]. rewrite Hk by done. apply I2.
    - intros [j Hj]. pose proof Hj as Hj'. rewrite Hn in Hj'. apply note_lookup in Hj' as [Hj'|(_ & _ & Hex)].
      + eapply exists_moves; [apply Hmv|]. apply I3. by eexists.
      + by apply exists_seen. }
  split; [|done]. split_and!; [done| |done|done].
  intros k j Hj Hne. apply Hk. intros ->. destruct Ho; congruence.
Qed.
Lemma quiet_guar i (s s' : St) :
  s'.2 = note i s'.1 s.2 -> Inv s -> (forall k, seen k s' = seen k s) -> guar i s s' /\ Inv s'.
Proof.
  intros Hn (I1 & I2 & I3) Hk.
  assert (Hsub : s.2 ⊆ s'.2) by (rewrite Hn; apply map_union_subseteq_l).
  assert (HI' : Inv s').
  { split_and!; intros k.
    - intros Hno. rewrite Hk. apply I1. destruct (s.2 !! k) eqn:E; [|done]. pose proof (lookup_weaken _ _ _ _ E Hsub) as Hw; unfold Owners in *; by rewrite Hw in Hno.
    - rewrite Hk. apply I2.
    - intros [j Hj]. pose proof Hj as Hj'. rewrite Hn in Hj'. apply note_lookup in Hj' as [Hj'|(_ & _ & Hex)].
      + rewrite Hk. apply I3. by eexists.
      + by apply exists_seen. }
  split; [|done]. split_and!; [done|auto|done|]. intros k. rewrite Hk. reflexivity.
Qed.

Lemma same_db (s s' : St) : jw_db s'.1 = jw_db s.1 -> forall k, seen k s' = seen k s.
Proof. intros Hd k. unfold seen. by rewrite Hd. Qed.

(** ** Specifications of programs *)
Definition ok {A} (i : nat) (P : St -> Prop) (m : JobAsync A) (Q : Res A -> St -> Prop) : Prop :=
  forall s, P s -> safe gsem guar rely i m Q s.
(** Thread [i] owns the row [id], which looks like [V]. *)
Definition owns_row (i : nat) (id : string) (V : JobView -> Prop) (s : St) : Prop :=
  Inv s /\ s.2 !! id = Some i /\ V (seen id s).

Lemma Inv_stable i : stable rely i Inv.
Proof. intros s s' HI (_ & _ & H'). auto. Qed.
Lemma owns_stable i id V : stable rely i (owns_row i id V).
Proof.
  intros s s' (HI & Ho & HV) (A & B & C). split_and!; [auto|by eapply lookup_weaken|]. by rewrite B.
Qed.

Lemma ok_ret {A} i (P : St -> Prop) (r : Res A) Q : (forall s, P s -> Q r s) -> ok i P (Ret r : JobAsync A) Q.
Proof. intros Hq s Hs. simpl. auto. Qed.
Lemma ok_bind {A B} i P (m : JobAsync A) (k : Res A -> JobAsync B) M Q :
  ok i P m M -> (forall r, ok i (M r) (k r) Q) -> ok i P (pbind m k) Q.
Proof. intros Hm Hk s Hs. apply safe_bind. eapply safe_mono; [|by apply Hm]. intros r s' Hr. by apply Hk. Qed.
Lemma ok_await {A B} i P (m : JobAsync A) (k : A -> JobAsync B) M Q :
  ok i P m (fun r s => match r with Ok a => M a s | Throw e => Q (Throw e) s end) ->
  (forall a, ok i (M a) (k a) Q) -> ok i P (await m k) Q.
Proof. intros Hm Hk. eapply ok_bind; [exact Hm|]. intros [a|e]; [apply Hk|]. by apply ok_ret. Qed.
Lemma ok_conseq {A} i (P P' : St -> Prop) (m : JobAsync A) (Q Q' : Res A -> St -> Prop) :
  (forall s, P' s -> P s) -> (forall r s, Q r s -> Q' r s) -> ok i P m Q -> ok i P' m Q'.
Proof. intros HP HQ Hm s Hs. eapply safe_mono; [|by apply Hm, HP]. auto. Qed.
Lemma ok_pure {A} i (F : Prop) P (m : JobAsync A) Q : (F -> ok i P m Q) -> ok i (fun s => P s /\ F) m Q.
Proof. intros Hm s [Hs HF]. by apply Hm. Qed.

(** An effect that changes no view. *)
Definition harmless (e : JobAct) : Prop :=
  match e with JStmt A f => forall now id d k, view k (f now id d).1 = view k d | _ => True end.
Lemma harmless_view i e s s' x : harmless e -> gsem i e s s' x -> forall k, seen k s' = seen k s.
Proof.
  intros He [Hs _] k. unfold seen. destruct e as [A f| | | |A f]; simpl in *; try by rewrite Hs.
  - destruct Hs as [(now & id & _ & -> & _)|[-> _]]; [|done]. unfold commit_jobs.
    destruct (f now id (jw_db s.1)) as [d' [a|err]] eqn:E; simpl; [|done]. by rewrite <- (He now id (jw_db s.1) k), E.
  - by destruct Hs as [-> _].
  - by injection Hs as -> _.
Qed.

(** A program of such effects. *)
Definition quietly {A} (i : nat) (id : string) (V : JobView -> Prop) (m : JobAsync A) (F : Res A -> Prop) : Prop :=
  ok i (owns_row i id V) m (fun r s => owns_row i id V s /\ F r).
Lemma quiet_effect {A} i id V (e : JobAct) (cast : job_result e -> Res A) (F : Res A -> Prop) :
  harmless e -> (forall s s' x, gsem i e s s' x -> F (cast x)) ->
  quietly i id V (pbind (@perform JobAct job_result e) (fun x => Ret (cast x))) F.
Proof.
  intros He HF s Hs s1 Hr s2 x Hx. pose proof (owns_stable i id V _ _ Hs Hr) as (HI & Ho & HV).
  pose proof (harmless_view i e s1 s2 x He Hx) as Hd.
  destruct (quiet_guar i s1 s2 (proj2 Hx) HI Hd) as [Hg HI2]. split; [done|]. simpl. split; [|by eapply HF].
  split_and!; [done| |by rewrite Hd]. eapply lookup_weaken; [exact Ho|]. by destruct Hg.
Qed.
Lemma quiet_ret {A} i id V (r : Res A) (F : Res A -> Prop) : F r -> quietly i id V (Ret r) F.
Proof. intros Hr. by apply ok_ret. Qed.
Lemma quiet_await {A B} i id V (m : JobAsync A) (k : A -> JobAsync B) (G : A -> Prop) (F : Res B -> Prop) :
  quietly i id V m (fun r => match r with Ok a => G a | Throw e => F (Throw e) end) ->
  (forall a, G a -> quietly i id V (k a) F) -> quietly i id V (await m k) F.
Proof.
  intros Hm Hk. eapply (ok_await i _ m k (fun a s => owns_row i id V s /\ G a)).
  - eapply ok_conseq; [intros s Hs; exact Hs| |exact Hm]. by intros [a|e] s Hs.
  - intros a. apply ok_pure. intros Ha. by apply Hk.
Qed.
Lemma quiet_conseq {A} i id V (m : JobAsync A) (F F' : Res A -> Prop) : (forall r, F r -> F' r) -> quietly i id V m F -> quietly i id V m F'.
Proof. intros HF. apply ok_conseq; [intros s Hs; exact Hs|]. intros r s [? ?]; auto. Qed.
Lemma quiet_fold {A T} i id V (body : T -> A -> JobAsync T) l t0 (J : T -> Prop) :
  (forall t x, J t -> quietly i id V (body t x) (fun r => match r with Ok t' => J t' | Throw _ => True end)) -> J t0 ->
  quietly i id V (fold_each body l t0) (fun r => match r with Ok t => J t | Throw _ => True end).
Proof.
  intros Hb. revert t0. induction l as [|x l IH]; intros t0 H0; simpl; [by apply quiet_ret|].
  eapply quiet_await; [|intros t Ht; by apply IH]. by apply Hb.
Qed.
Lemma quiet_swallow {A} i id V (m : JobAsync A) F : quietly i id V m F -> quietly i id V (swallow m) (fun r => r = Ok tt).
Proof. intros Hm. eapply ok_bind; [exact Hm|]. intros r. apply ok_ret. by intros s [? _]. Qed.
Lemma quiet_read {A} i id V (q : JobDb -> A) : quietly i id V (jread q) (fun _ => True).
Proof. by apply (quiet_effect i id V (JStmt A _) (fun x => x)). Qed.

(** A statement on the thread's own row. *)
Definition writes {A} (id : string) (V : JobView -> Prop) (f : Z -> string -> JobDb -> JobDb * Res A) (W : JobView -> Prop) : Prop :=
  forall now i0 d d' a, f now i0 d = (d', Ok a) -> good id (view id d) -> V (view id d) ->
    (forall k, k <> id -> view k d' = view k d) /\ good id (view id d') /\ moves (view id d) (view id d') /\ W (view id d').
Lemma ok_write {A} i id V (f : Z -> string -> JobDb -> JobDb * Res A) W :
  writes id V f W ->
  ok i (owns_row i id V) (jstmt f) (fun r s => match r with Ok _ => owns_row i id W s | Throw _ => owns_row i id V s end).
Proof.
  intros Hf s Hs s1 Hr s2 x [Hx Hn]. pose proof (owns_stable i id V _ _ Hs Hr) as (HI & Ho & HV).
  assert (Ho2 : s2.2 !! id = Some i) by (rewrite Hn; eapply lookup_weaken; [exact Ho|apply map_union_subseteq_l]).
  assert (Hsame : jw_db s2.1 = jw_db s1.1 -> guar i s1 s2 /\ owns_row i id V s2).
  { intros Hd. destruct (quiet_guar i s1 s2 Hn HI (same_db _ _ Hd)) as [Hg HI2]. split; [done|].
    split_and!; [done..|]. unfold seen. by rewrite Hd. }
  destruct Hx as [(now & i0 & Hfr & Hw & ->)|[Hw [e ->]]]; [|apply Hsame; by rewrite Hw].
  destruct (f now i0 (jw_db s1.1)) as [d' [a|e]] eqn:E; unfold commit_jobs in Hw; simpl in Hw; simpl; [|apply Hsame; by rewrite Hw].
  destruct (Hf now i0 _ d' a E (proj1 (proj2 HI) id) HV) as (Hk & Hg & Hm & HW).
  assert (Hd : jw_db s2.1 = d') by (by rewrite Hw).
  destruct (step_guar i id s1 s2 Hn HI (or_introl Ho)) as [Hgu HI2]; unfold seen; rewrite ?Hd; [done|by eexists|done..|].
  split; [done|]. split_and!; [done..|]. unfold seen. by rewrite Hd.
Qed.

(** The statement that creates the row. *)
Definition creates {A} (f : Z -> string -> JobDb -> JobDb * Res A) (V : A -> string -> JobView -> Prop) : Prop :=
  forall now i0 d d' a, fresh_job i0 d -> view i0 d = nothing -> f now i0 d = (d', Ok a) ->
    (forall k, k <> i0 -> view k d' = view k d) /\ good i0 (view i0 d') /\ moves (view i0 d) (view i0 d') /\ V a i0 (view i0 d') /\
    (is_Some (jd_sessions d' !! i0) \/ is_Some (jd_runs d' !! i0)).
Lemma ok_create {A} i (f : Z -> string -> JobDb -> JobDb * Res A) V :
  creates f V ->
  ok i Inv (jstmt f) (fun r s => match r with Ok a => exists id, owns_row i id (V a id) s | Throw _ => Inv s end).
Proof.
  intros Hf s Hs s1 Hr s2 x [Hx Hn]. pose proof (Inv_stable i _ _ Hs Hr) as HI.
  assert (Hsame : jw_db s2.1 = jw_db s1.1 -> guar i s1 s2 /\ Inv s2).
  { intros Hd. by apply quiet_guar, same_db. }
  destruct Hx as [(now & i0 & Hfr & Hw & ->)|[Hw [e ->]]]; [|apply Hsame; by rewrite Hw].
  destruct (f now i0 (jw_db s1.1)) as [d' [a|e]] eqn:E; unfold commit_jobs in Hw; simpl in Hw; simpl; [|apply Hsame; by rewrite Hw].
  assert (Hd : jw_db s2.1 = d') by (by rewrite Hw).
  destruct Hfr as [Hf1 Hf2]. destruct HI as (I1 & I2 & I3).
  assert (Hown : s1.2 !! i0 = None).
  { destruct (s1.2 !! i0) eqn:Eo; [|done]. destruct (I3 i0 ltac:(by eexists)) as [Hx|Hx]; unfold seen, view in Hx; simpl in Hx;
      [rewrite Hf1 in Hx|rewrite Hf2 in Hx]; by destruct Hx. }
  destruct (Hf now i0 _ d' a (conj Hf1 Hf2) (I1 _ Hown) E) as (Hk & Hg & Hm & HW & Hex).
  assert (Ho2 : s2.2 !! i0 = Some i).
  { rewrite Hn. unfold note. apply lookup_union_Some_raw. right. split; [done|]. apply lookup_gset_to_gmap_Some. split; [|done].
    rewrite Hd. apply elem_of_union. destruct Hex; [left|right]; by apply elem_of_dom. }
  destruct (step_guar i i0 s1 s2 Hn (conj I1 (conj I2 I3)) (or_intror Hown)) as [Hgu HI2]; unfold seen; rewrite ?Hd; [done|by eexists|done..|].
  split; [done|]. exists i0. split_and!; [done..|]. unfold seen. by rewrite Hd.
Qed.

(** ** How the statements move a view *)
Lemma view_sessions id d r k : view k (set_replays (<[id := r]> (jd_sessions d)) d) =
  if decide (k = id) then {| v_session := Some (core r); v_trades := v_trades (view k d); v_run := v_run (view k d);
                             v_run_trades := v_run_trades (view k d) |} else view k d.
Proof.
  unfold view. simpl. case_decide as Hk; [by rewrite Hk, lookup_insert_eq|]. by rewrite lookup_insert_ne by congruence.
Qed.
Lemma view_runs id d r k : view k (set_runs (<[id := r]> (jd_runs d)) d) =
  if decide (k = id) then {| v_session := v_session (view k d); v_trades := v_trades (view k d); v_run := Some r;
                             v_run_trades := v_run_trades (view k d) |} else view k d.
Proof.
  unfold view. simpl. case_decide as Hk; [by rewrite Hk, lookup_insert_eq|]. by rewrite lookup_insert_ne by congruence.
Qed.
Lemma filter_tagged {A} (tag : A -> string) (l : list A) id k : Forall (fun x => tag x = id) l ->
  filter (fun x => tag x = k) l = if decide (k = id) then l else [].
Proof.
  intros Hl. case_decide as Hk.
  - subst k. induction Hl as [|x l Hx _ IH]; [done|]. rewrite filter_cons_True by done. by rewrite IH.
  - induction Hl as [|x l Hx _ IH]; [done|]. rewrite filter_cons_False by congruence. done.
Qed.
Lemma view_stored id d rows k : Forall (fun t => lt_sessionId t = id) rows -> view k (add_trades rows d) =
  if decide (k = id) then {| v_session := v_session (view k d); v_trades := v_trades (view k d) ++ rows; v_run := v_run (view k d);
                             v_run_trades := v_run_trades (view k d) |} else view k d.
Proof.
  intros Hr. unfold view, replay_trades_of. simpl. rewrite filter_app, (filter_tagged _ _ id k Hr).
  case_decide; [done|]. by rewrite app_nil_r.
Qed.
Lemma view_run_trades id d rows k : Forall (fun t => bx_runId t = id) rows -> view k (add_run_trades rows d) =
  if decide (k = id) then {| v_session := v_session (view k d); v_trades := v_trades (view k d); v_run := v_run (view k d);
                             v_run_trades := v_run_trades (view k d) ++ rows |} else view k d.
Proof.
  intros Hr. unfold view, run_trades_of. simpl. rewrite filter_app, (filter_tagged _ _ id k Hr).
  case_decide; [done|]. by rewrite app_nil_r.
Qed.

(** The rows of one batch are those of the elements. *)
Lemma all_ok_Forall2 {A B} (f : A -> Res B) l rows : all_ok (f <$> l) = Ok rows -> Forall2 (fun x y => f x = Ok y) l rows.
Proof.
  revert rows. induction l as [|x l IH]; intros rows; [by intros [= <-]|]. rewrite fmap_cons. cbn [all_ok].
  destruct (f x) as [y|e] eqn:E; [|done]. destruct (all_ok (f <$> l)) as [ys|e]; [|done]. intros [= <-].
  constructor; auto.
Qed.
Lemma trade_row_tag id l rows : all_ok (trade_row id <$> l) = Ok rows -> Forall (fun t => lt_sessionId t = id) rows.
Proof.
  intros Hr%all_ok_Forall2. induction Hr as [|x y l rows Hx _ IH]; constructor; [|done].
  unfold trade_row, date_column in Hx.
  repeat match type of Hx with context [match ?x with _ => _ end] => destruct x; simpl in Hx; try done end; by injection Hx as <-.
Qed.
Lemma run_trade_row_tag id l rows : all_ok (run_trade_row id <$> l) = Ok rows -> Forall (fun t => bx_runId t = id) rows.
Proof.
  intros Hr%all_ok_Forall2. induction Hr as [|x y l rows Hx _ IH]; constructor; [|done].
  unfold run_trade_row, date_column in Hx.
  repeat match type of Hx with context [match ?x with _ => _ end] => destruct x; simpl in Hx; try done end; by injection Hx as <-.
Qed.

Lemma writes_session id V W patch :
  (forall now s, core (patch now s) = patch now (core s)) ->
  (forall now v s, V v -> v_session v = Some s -> rs_status s = JRUNNING /\ session_good id (patch now s) (v_trades v) /\
     W {| v_session := Some (patch now s); v_trades := v_trades v; v_run := v_run v; v_run_trades := v_run_trades v |}) ->
  writes id V (update_row jd_sessions set_replays id patch) W.
Proof.
  intros Hc Hp now i0 d d' a. unfold update_row. destruct (jd_sessions d !! id) as [r|] eqn:Er; [|done].
  intros [= <- <-] Hg HV. destruct (Hp now (view id d) (core r) HV) as (Hs & Hgo & HW); [unfold view; simpl; by rewrite Er|].
  rewrite view_sessions, decide_True, Hc by done. split_and!; [|split| |done].
  - intros k Hk. by rewrite view_sessions, decide_False.
  - intros s [= <-]. done.
  - intros s Hr. simpl in *. by apply (proj2 Hg).
  - split; [|by eauto]. intros s Hv. split; [by eexists|]. intros He. exfalso. assert (s = core r) as ->.
    { unfold view in Hv. simpl in Hv. rewrite Er in Hv. by injection Hv. }
    rewrite Hs in He. done.
Qed.
Lemma writes_run id V W patch :
  (forall now v r, V v -> v_run v = Some r -> ended (bt_status r) = false /\ run_good id (patch now r) (v_run_trades v) /\
     W {| v_session := v_session v; v_trades := v_trades v; v_run := Some (patch now r); v_run_trades := v_run_trades v |}) ->
  writes id V (update_row jd_runs set_runs id patch) W.
Proof.
  intros Hp now i0 d d' a. unfold update_row. destruct (jd_runs d !! id) as [r|] eqn:Er; [|done].
  intros [= <- <-] Hg HV. destruct (Hp now (view id d) r HV) as (Hs & Hgo & HW); [done|].
  rewrite view_runs, decide_True by done. split_and!; [|split| |done].
  - intros k Hk. by rewrite view_runs, decide_False.
  - intros s Hr. simpl in *. by apply (proj1 Hg).
  - intros s [= <-]. done.
  - split; [by eauto|]. intros s Hv. split; [by eexists|]. intros He. exfalso. assert (s = r) as -> by (unfold view in Hv; simpl in Hv; congruence). congruence.
Qed.

(** ** A replay job *)
Definition running (id : string) (dto : StartReplayDto) (T : list ReplayTrade -> Prop) (v : JobView) : Prop :=
  exists s, v_session v = Some s /\ rs_id s = id /\ rs_status s = JRUNNING /\
    ru_initialBalance (rs_setup s) = sr_initialBalance dto /\ ru_pairs (rs_setup s) = pairs_of dto /\ T (v_trades v).
Definition alive (id : string) (dto : StartReplayDto) : JobView -> Prop := running id dto (fun _ => True).
Lemma running_weaken id dto (T T' : list ReplayTrade -> Prop) v : (forall l, T l -> T' l) -> running id dto T v -> running id dto T' v.
Proof. intros HT (s & Hs & H1 & H2 & H3 & H4 & H5). exists s. split_and!; auto. Qed.
Lemma owns_weaken i id (V V' : JobView -> Prop) s : (forall v, V v -> V' v) -> owns_row i id V s -> owns_row i id V' s.
Proof. intros HV (H1 & H2 & H3). split_and!; auto. Qed.

Lemma quiet_fetch i id V sym tf a b : quietly i id V (fetchTimeframe sym tf a b) (fun _ => True).
Proof. eapply (quiet_await i id V _ _ (fun _ => True)); [apply quiet_conseq with (F := fun _ => True); [by intros [?|?]|apply quiet_read]|]. intros. by apply quiet_ret. Qed.
Lemma quiet_load i id V ps a b : quietly i id V (loadCandles ps a b) (fun r => match r with Ok l => NoDup l.*1 | Throw _ => True end).
Proof.
  unfold loadCandles. eapply (quiet_await i id V _ _ (fun _ => True)); [apply quiet_ret; by destruct (date_column a)|]. intros start _.
  eapply (quiet_await i id V _ _ (fun _ => True)); [apply quiet_ret; by destruct (date_column b)|]. intros end_ _.
  apply quiet_fold; [|constructor]. intros t x Ht.
  do 3 (eapply (quiet_await i id V _ _ (fun _ => True)); [eapply quiet_conseq; [|apply quiet_fetch]; by intros [?|?]|]; intros ? _).
  apply quiet_ret. by apply AnalyticsFacts.map_set_NoDup.
Qed.
Lemma quiet_decisions i id V sid l : quietly i id V (persist_decisions sid l) (fun _ => True).
Proof.
  unfold persist_decisions, for_each. eapply quiet_conseq; [|apply (quiet_fold i id V _ _ tt (fun _ => True))]; [done| |done].
  intros [] batch _. eapply (quiet_await i id V _ _ (fun _ => True)); [apply quiet_ret; by destruct (decision_rows sid batch)|].
  intros rows _. eapply quiet_conseq; [|apply (quiet_effect i id V (JStmt unit _) (fun x => x) (fun _ => True))]; [by intros [?|?]| |done].
  by intros now i0 d k.
Qed.

Lemma progress_of_done n k r : MsgDone r ∉ take k (progress_messages n).
Proof. intros Hin%elem_of_take. destruct Hin as (j & Hj & _). apply list_elem_of_lookup_2, list_elem_of_fmap in Hj as (z & Hz & _). done. Qed.
Lemma sent_result msg evs r : worker_sends envRisk msg evs -> promise_of evs = Some (Ok r) -> exists uuid, worker_run uuid envRisk msg = Ok r.
Proof.
  intros (uuid & sent & stack & [l Hl]) Hp%promise_ok. exists uuid. unfold worker_messages in Hl.
  assert (Hin : MsgDone r ∈ omap message_of evs ++ l) by (apply elem_of_app; by left). rewrite <- Hl in Hin.
  destruct (worker_run uuid envRisk msg) as [r'|e]; apply elem_of_app in Hin as [Hin|Hin].
  - apply list_elem_of_fmap in Hin as (z & Hz & _). done.
  - apply list_elem_of_singleton in Hin. by injection Hin as ->.
  - by apply progress_of_done in Hin.
  - by apply list_elem_of_singleton in Hin.
Qed.
Lemma quiet_worker i id V msg : quietly i id V (runOnWorker msg)
  (fun r => match r with Ok res => exists uuid, worker_run uuid envRisk msg = Ok res | Throw _ => True end).
Proof.
  apply (quiet_effect i id V (RunWorker msg) (fun evs => default (Throw "pending"%string) (promise_of evs))); [done|].
  intros s s' evs [[_ Hs] _]. destruct (promise_of evs) as [[r|e]|] eqn:E; simpl; try done. by eapply sent_result.
Qed.

Lemma creates_replay dto : creates (create_replay dto) (fun a id v => a = id /\ running id dto (eq []) v).
Proof.
  intros now i0 d d' a Hf Hno. unfold create_replay.
  destruct (date_column (sr_startDate dto)) as [x|]; [|done]. destruct (date_column (sr_endDate dto)) as [y|]; [|done].
  intros [= <- <-]. unfold view in Hno. injection Hno as H1 H2 H3 H4. split; [intros k Hk; by rewrite view_sessions, decide_False|].
  rewrite view_sessions, decide_True by done. unfold view. simpl. rewrite H1, H2, H3, H4. split_and!.
  - split; [|by intros ??]. intros s [= <-]. done.
  - by split.
  - done.
  - eexists. split_and!; done.
  - left. rewrite lookup_insert_eq. by eexists.
Qed.

Lemma writes_trades id dto rows :
  Forall (fun t => lt_sessionId t = id) rows ->
  writes id (running id dto (eq [])) (fun _ _ d => (add_trades rows d, Ok tt)) (running id dto (eq rows)).
Proof.
  intros Hr now i0 d d' a [= <- <-] [Hg1 Hg2] (s & Hs & H1 & H2 & H3 & H4 & H5).
  rewrite (view_stored id), decide_True by done. split_and!.
  - intros k Hk. by rewrite (view_stored id), decide_False.
  - split; [|done]. cbn [v_session v_trades]. intros s' Hs'. rewrite Hs in Hs'. injection Hs' as <-.
    destruct (Hg1 s Hs) as [Hid Hx]. split; [done|]. by rewrite H2 in Hx |- *.
  - split; cbn [v_session v_trades v_run v_run_trades]; [|by eauto]. intros s' Hs'. rewrite Hs in Hs'. injection Hs' as <-. split; [by eexists|]. by rewrite H2.
  - exists s. cbn [v_session v_trades]. by rewrite <- H5.
Qed.

(** The result is stored, or the row is still running. *)
Definition result_of (dto : StartReplayDto) (r : ReplayResult) : Prop :=
  exists uuid msg, worker_run uuid envRisk msg = Ok r /\ NoDup (pm_candles msg).*1 /\
    rp_initialBalance (pm_cfg msg) = sr_initialBalance dto /\ ReplayEngine.pairs (pm_cfg msg) = pairs_of dto.
Lemma ok_store i id dto r :
  ok i (owns_row i id (running id dto (eq [])))
    (match rr_closed r with [] => resolve tt | l => store_trades id l end)
    (fun x s => match x with
       | Ok _ => owns_row i id (running id dto (fun l => all_ok (trade_row id <$> rr_closed r) = Ok l)) s
       | Throw _ => owns_row i id (alive id dto) s end).
Proof.
  destruct (rr_closed r) as [|t l]; [apply ok_ret; intros s; apply owns_weaken; intros v; by apply running_weaken; intros ? <-|].
  unfold store_trades. generalize (t :: l). clear t l. intros l.
  destruct (all_ok (trade_row id <$> l)) as [rows|e] eqn:E.
  - apply (ok_await i _ _ _ (fun rows' s => owns_row i id (running id dto (eq [])) s /\ rows' = rows)); [by apply ok_ret|].
    intros rows'. apply ok_pure. intros ->. eapply ok_conseq; [intros s Hs; exact Hs| |apply ok_write, writes_trades, (trade_row_tag id l rows E)].
    intros [[]|e] s; apply owns_weaken; intros v; by apply running_weaken; intros ? <-.
  - apply (ok_await i _ _ _ (fun _ _ => False)); [apply ok_ret; intros s; apply owns_weaken; intros v; by apply running_weaken|].
    by intros a s Hs.
Qed.

Lemma ok_completed i id dto r : result_of dto r ->
  ok i (owns_row i id (running id dto (fun l => all_ok (trade_row id <$> rr_closed r) = Ok l)))
    (jstmt (update_row jd_sessions set_replays id (completed_replay r)))
    (fun x s => match x with Ok _ => True | Throw _ => owns_row i id (alive id dto) s end).
Proof.
  intros (uuid & msg & Hw & Hnd & Hb & Hp). eapply ok_conseq; [intros s Hs; exact Hs| |apply (ok_write i id _ _ (fun _ => True)), writes_session].
  - intros [x|e] s; [done|]. apply owns_weaken. intros v. by apply running_weaken.
  - done.
  - intros now v s (s' & Hs' & H1 & H2 & H3 & H4 & H5) Hs. rewrite Hs in Hs'. injection Hs' as <-. split_and!; [done| |done].
    split; [done|]. simpl. exists r, now, s. split; [|done]. exists uuid, msg. split_and!; [done..|by rewrite Hb|by rewrite Hp|done].
Qed.
Lemma ok_failed i id dto e :
  ok i (owns_row i id (alive id dto)) (jstmt (update_row jd_sessions set_replays id (failed_replay e))) (fun _ _ => True).
Proof.
  eapply ok_conseq; [intros s Hs; exact Hs| |apply (ok_write i id _ _ (fun _ => True)), writes_session]; [done..|].
  intros now v s (s' & Hs' & H1 & H2 & _) Hs. rewrite Hs in Hs'. injection Hs' as <-. split_and!; [done| |done].
  split; [done|]. simpl. split; by eexists.
Qed.

Lemma ok_execute i id dto :
  ok i (owns_row i id (running id dto (eq []))) (execute_replay true id dto (pairs_of dto)) (fun _ _ => True).
Proof.
  unfold execute_replay, try_catch. eapply (ok_bind i _ _ _ (fun r s => match r with Ok _ => True | Throw _ => owns_row i id (alive id dto) s end));
    [|intros [a|e]; [by apply ok_ret|apply ok_failed]].
  assert (Halive : forall s, owns_row i id (running id dto (eq [])) s -> owns_row i id (alive id dto) s)
    by (intros s; apply owns_weaken; intros v; by apply running_weaken).
  unfold run_replay. apply (ok_await i _ _ _ (fun l s => owns_row i id (running id dto (eq [])) s /\ NoDup l.*1)).
  { eapply ok_conseq; [intros s Hs; exact Hs| |apply quiet_load]. intros [l|e] s [Hs Hl]; [done|by apply Halive]. }
  intros candles. apply ok_pure. intros Hnd. destruct (List.find _ _) as [sym|]; [apply ok_ret, Halive|].
  apply (ok_await i _ _ _ (fun r s => owns_row i id (running id dto (eq [])) s /\ result_of dto r)).
  { eapply ok_conseq; [intros s Hs; exact Hs| |apply quiet_worker]. intros [r|e] s [Hs Hr]; [|by apply Halive].
    split; [done|]. destruct Hr as [uuid Hr]. by exists uuid, (run_message dto (pairs_of dto) candles). }
  intros r. apply ok_pure. intros Hr. unfold save_result.
  apply (ok_await i _ _ _ (fun _ => owns_row i id (running id dto (eq [])))).
  { destruct (rr_decisions r) as [[|x l]|]; try by apply ok_ret.
    eapply ok_conseq; [intros s Hs; exact Hs| |eapply quiet_swallow, quiet_decisions]. intros [u|e] s [Hs Hy]; [exact Hs|done]. }
  intros _. eapply ok_await; [apply ok_store|]. intros u. by apply ok_completed.
Qed.

Lemma ok_replay_request i dto : ok i Inv (createAndRun_replay true dto) (fun _ _ => True).
Proof.
  unfold createAndRun_replay. eapply ok_await.
  { eapply ok_conseq; [intros s Hs; exact Hs| |apply ok_create, creates_replay]. by intros [a|e] s Hs; [exact Hs|]. }
  intros a s (id & HI & Ho & Heq & Hr). subst id.
  refine (ok_await i (owns_row i a (running a dto (eq []))) _ _ (fun _ _ => True) _ _ _ s (conj HI (conj Ho Hr))); [|by intros; apply ok_ret].
  eapply ok_bind; [apply ok_execute|]. intros r. by apply ok_ret.
Qed.

(** ** A backtest job *)
Definition open_run (id : string) (dto : CreateBacktestDto) (T : list BacktestTrade -> Prop) (v : JobView) : Prop :=
  exists r, v_run v = Some r /\ bt_id r = id /\ ended (bt_status r) = false /\
    (bt_metrics r = None /\ bt_completedAt r = None /\ bt_errorMessage r = None) /\
    (cb_initialBalance dto = bt_initialBalance r /\ version_of dto = bt_strategyVersion r /\ symbol_of dto = bt_symbol r) /\
    T (v_run_trades v).
Lemma open_weaken id dto (T T' : list BacktestTrade -> Prop) v : (forall l, T l -> T' l) -> open_run id dto T v -> open_run id dto T' v.
Proof. intros HT (r & ? & ? & ? & ? & ? & ?). exists r. split_and!; auto; tauto. Qed.
Definition open_any (id : string) (dto : CreateBacktestDto) : JobView -> Prop := open_run id dto (fun _ => True).

Lemma creates_run dto u : creates (create_run dto u) (fun a id v => a = id /\ open_run id dto (eq []) v).
Proof.
  intros now i0 d d' a Hf Hno. unfold create_run.
  destruct (date_column (cb_startDate dto)) as [x|]; [|done]. destruct (date_column (cb_endDate dto)) as [y|]; [|done].
  intros [= <- <-]. unfold view in Hno. injection Hno as H1 H2 H3 H4. split; [intros k Hk; by rewrite view_runs, decide_False|].
  rewrite view_runs, decide_True by done. unfold view. simpl. rewrite H1, H2, H3, H4. split_and!.
  - split; [by intros ??|]. intros r [= <-]. done.
  - by split.
  - done.
  - eexists. split_and!; done.
  - right. rewrite lookup_insert_eq. by eexists.
Qed.
Lemma writes_run_trades id dto rows :
  Forall (fun t => bx_runId t = id) rows ->
  writes id (open_run id dto (eq [])) (fun _ _ d => (add_run_trades rows d, Ok tt)) (open_run id dto (eq rows)).
Proof.
  intros Hr now i0 d d' a [= <- <-] [Hg1 Hg2] (r & Hs & H1 & H2 & H3 & H4 & H5).
  rewrite (view_run_trades id), decide_True by done. split_and!.
  - intros k Hk. by rewrite (view_run_trades id), decide_False.
  - split; [done|]. cbn [v_run v_run_trades]. intros s' Hs'. rewrite Hs in Hs'. injection Hs' as <-.
    split; [done|]. unfold ended in H2. by destruct (bt_status r).
  - split; cbn [v_session v_trades v_run v_run_trades]; [by eauto|]. intros s' Hs'. rewrite Hs in Hs'. injection Hs' as <-. split; [by eexists|]. by rewrite H2.
  - exists r. cbn [v_run v_run_trades]. by rewrite <- H5.
Qed.
Lemma writes_outcome id dto (T : list BacktestTrade -> Prop) patch W :
  (forall now v r, open_run id dto T v -> v_run v = Some r -> run_good id (patch now r) (v_run_trades v) /\
     W {| v_session := v_session v; v_trades := v_trades v; v_run := Some (patch now r); v_run_trades := v_run_trades v |}) ->
  writes id (open_run id dto T) (update_row jd_runs set_runs id patch) W.
Proof.
  intros Hp. apply writes_run. intros now v r Hv Hr. destruct (Hp now v r Hv Hr) as [Hg HW].
  destruct Hv as (r' & Hr' & _ & He & _). rewrite Hr in Hr'. by injection Hr' as <-.
Qed.
Lemma ok_failing i id dto e : ok i (owns_row i id (open_any id dto)) (update_run id (failed_run e)) (fun _ _ => True).
Proof.
  eapply ok_conseq; [intros s Hs; exact Hs| |apply (ok_write i id _ _ (fun _ => True)), writes_outcome]; [done|].
  intros now v r (r' & Hr' & H1 & _) Hr. rewrite Hr in Hr'. injection Hr' as <-. split; [|done].
  split; [done|]. simpl. split; by eexists.
Qed.
Lemma ok_run_stored i id dto l :
  ok i (owns_row i id (open_run id dto (eq [])))
    (match l with [] => resolve tt | _ => store_run_trades id l end)
    (fun x s => match x with
       | Ok _ => owns_row i id (open_run id dto (fun rows => all_ok (run_trade_row id <$> l) = Ok rows)) s
       | Throw _ => owns_row i id (open_any id dto) s end).
Proof.
  destruct l as [|t l]; [apply ok_ret; intros s; apply owns_weaken; intros v; by apply open_weaken; intros ? <-|].
  unfold store_run_trades. generalize (t :: l). clear t l. intros l.
  destruct (all_ok (run_trade_row id <$> l)) as [rows|e] eqn:E.
  - apply (ok_await i _ _ _ (fun rows' s => owns_row i id (open_run id dto (eq [])) s /\ rows' = rows)); [by apply ok_ret|].
    intros rows'. apply ok_pure. intros ->. eapply ok_conseq; [intros s Hs; exact Hs| |apply ok_write, writes_run_trades, (run_trade_row_tag id l rows E)].
    intros [[]|e] s; apply owns_weaken; intros v; by apply open_weaken; intros ? <-.
  - apply (ok_await i _ _ _ (fun _ _ => False)); [apply ok_ret; intros s; apply owns_weaken; intros v; by apply open_weaken|].
    by intros a s Hs.
Qed.

Definition engine_said (dto : CreateBacktestDto) (out : list ClosedTrade * BacktestMetrics) : Prop :=
  exists m15 h1 d1 cache cache', run_engine_of dto m15 h1 d1 cache = (cache', Ok out) /\ 200 <= zlen m15.
Lemma ok_completing i id dto trades m : engine_said dto (trades, m) ->
  ok i (owns_row i id (open_run id dto (fun rows => all_ok (run_trade_row id <$> trades) = Ok rows)))
    (update_run id (completed_run m))
    (fun x s => match x with Ok _ => True | Throw _ => owns_row i id (open_any id dto) s end).
Proof.
  intros (m15 & h1 & d1 & c & c' & Hrun & Hn). eapply ok_conseq; [intros s Hs; exact Hs| |apply (ok_write i id _ _ (fun _ => True)), writes_outcome].
  - intros [x|e] s; [done|]. apply owns_weaken. intros v. by apply open_weaken.
  - intros now v r (r' & Hr' & H1 & _ & _ & (H2 & H3 & H4) & H5) Hr. rewrite Hr in Hr'. injection Hr' as <-. split; [|done].
    split; [done|]. simpl. split; [by eexists|]. exists trades, m. split_and!; [|done..]. exists dto, m15, h1, d1, c, c'. done.
Qed.

Lemma quiet_http i id V sym tf a b (F : Res (list BacktestCandle) -> Prop) :
  (forall r, F r) -> quietly i id V (fetchCandles sym tf a b) F.
Proof. intros HF. by apply (quiet_effect i id V (HttpCandles sym tf a b) (fun x => x)). Qed.
Lemma quiet_htf i id V sym a b : quietly i id V (fetch_htf sym a b) (fun _ => True).
Proof.
  unfold fetch_htf, try_catch. apply (ok_bind i _ _ _ (fun _ => owns_row i id V)); [|intros [l|e]; apply ok_ret; by intros s Hs].
  eapply ok_conseq; [intros s Hs; exact Hs| |apply (quiet_await i id V _ _ (fun _ => True) (fun _ => True)); [apply quiet_http; by intros [?|?]|]].
  - intros r s Hs. exact (proj1 Hs).
  - intros h4 _. by apply quiet_http.
Qed.
Lemma quiet_engine i id V dto m15 h1 d1 : 200 <= zlen m15 ->
  quietly i id V (@ask JobAct job_result (CacheStep _ (run_engine_of dto m15 h1 d1)))
    (fun r => match r with Ok (Ok out) => engine_said dto out | Ok (Throw _) => True | Throw _ => False end).
Proof.
  intros Hn. refine (quiet_effect i id V (CacheStep _ (run_engine_of dto m15 h1 d1)) (fun x => Ok x) _ I _).
  intros s s' x [Hx _]. simpl in Hx. destruct (run_engine_of dto m15 h1 d1 (jw_cache s.1)) as [c' out] eqn:E. simpl in Hx.
  injection Hx as _ ->. destruct out as [out|e]; [|done]. by exists m15, h1, d1, (jw_cache s.1), c'.
Qed.

Lemma ok_run_backtest i id dto :
  ok i (owns_row i id (open_run id dto (eq []))) (run_backtest id dto)
    (fun x s => match x with Ok _ => True | Throw _ => owns_row i id (open_any id dto) s end).
Proof.
  assert (Hany : forall s, owns_row i id (open_run id dto (eq [])) s -> owns_row i id (open_any id dto) s)
    by (intros s; apply owns_weaken; intros v; by apply open_weaken).
  assert (Hq : forall A (m : JobAsync A) F, quietly i id (open_run id dto (eq [])) m F ->
    ok i (owns_row i id (open_run id dto (eq []))) m (fun r s => match r with
       | Ok a => owns_row i id (open_run id dto (eq [])) s /\ F (Ok a) | Throw _ => owns_row i id (open_any id dto) s end)).
  { intros A m F. apply ok_conseq; [intros s Hs; exact Hs|]. intros [a|e] s [Hs HF]; [done|by apply Hany]. }
  unfold run_backtest. eapply (ok_await i _ _ _ (fun _ => owns_row i id (open_run id dto (eq [])))).
  { eapply ok_conseq; [intros s Hs; exact Hs| |apply (ok_write i id _ _ (open_run id dto (eq []))), writes_outcome].
    - intros [x|e] s Hs; [exact Hs|by apply Hany].
    - intros now v r (r' & Hr' & H1 & H2 & H3 & H4 & H5) Hr. rewrite Hr in Hr'. injection Hr' as <-.
      split; [by split|]. eexists. split_and!; try done; first [apply H3|apply H4]. }
  intros _. eapply ok_await; [apply (Hq _ _ (fun _ => True)), quiet_ret; done|]. intros start. apply ok_pure. intros _. cbv zeta.
  eapply ok_await; [apply (Hq _ _ (fun _ => True)), quiet_http; done|]. intros m15. apply ok_pure. intros _.
  destruct (zlen m15 <? 200) eqn:En; [by apply ok_ret|]. apply Z.ltb_ge in En.
  eapply ok_await; [apply (Hq _ _ (fun _ => True)), quiet_http; done|]. intros h1. apply ok_pure. intros _.
  eapply ok_await; [apply (Hq _ _ (fun _ => True)); case_bool_decide; [by apply quiet_ret|apply quiet_htf]|]. intros d1. apply ok_pure. intros _.
  eapply ok_await; [apply Hq, quiet_engine, En|]. intros out. apply ok_pure.
  destruct out as [[trades m]|e]; [|intros _; by apply ok_ret]. intros Hsaid.
  eapply ok_await; [apply ok_run_stored|]. intros u. by apply ok_completing.
Qed.
Lemma ok_executing i id dto :
  ok i (owns_row i id (open_run id dto (eq []))) (executeBacktest id dto) (fun _ _ => True).
Proof.
  unfold executeBacktest, try_catch. eapply ok_bind; [apply ok_run_backtest|]. intros [a|e]; [by apply ok_ret|].
  eapply (ok_await i _ _ _ (fun _ _ => True)); [|by intros; apply ok_ret].
  eapply ok_conseq; [intros s Hs; exact Hs| |apply ok_failing]. by intros [u|?] s _.
Qed.

(** ** Requests *)
Lemma emits_quiet {A} i (p : JobProg A) : emits harmless p -> forall s, Inv s -> safe gsem guar rely i p (fun _ s' => Inv s') s.
Proof.
  induction p as [a|e k IH]; simpl; [done|]. intros [He Hk] s HI s1 Hr s2 x Hx.
  destruct (quiet_guar i s1 s2 (proj2 Hx) (Inv_stable i _ _ HI Hr) (harmless_view i e s1 s2 x He Hx)) as [Hg HI2].
  split; [done|]. by apply IH.
Qed.
Lemma ok_backtest_request i dto u : ok i Inv (createAndRun_backtest dto u) (fun _ _ => True).
Proof.
  unfold createAndRun_backtest. eapply (ok_await i _ _ _ (fun _ => Inv)).
  { intros s Hs. eapply safe_mono; [|apply emits_quiet; [|exact Hs]]; [by intros [a|e]|]. split; [|by intros [?|?]]. by intros now id d k. }
  intros n. destruct (2 <=? n); [by apply ok_ret|]. eapply ok_await.
  { eapply ok_conseq; [intros s Hs; exact Hs| |apply ok_create, creates_run]. by intros [a|e] s Hs; [exact Hs|]. }
  intros a s (id & HI & Ho & Heq & Hr). subst id.
  refine (ok_await i (owns_row i a (open_run a dto (eq []))) _ _ (fun _ _ => True) _ _ _ s (conj HI (conj Ho Hr))); [|by intros; apply ok_ret].
  eapply ok_bind; [apply ok_executing|]. intros r. by apply ok_ret.
Qed.

Inductive job_request : JobProg unit -> Prop :=
| start_replay dto : job_request (detached (createAndRun_replay true dto))
| start_backtest dto u : job_request (detached (createAndRun_backtest dto u))
| write_progress id processed total : job_request (detached (progress_write id processed total))
| list_replays n : job_request (detached (listReplays n))
| read_replay id : job_request (detached (replay_getOne id))
| read_replay_trades id : job_request (detached (replay_getTrades id))
| read_chart id sym time window : job_request (detached (replay_chartCandles id sym time window))
| list_runs u n : job_request (detached (listRuns u n))
| read_run id u : job_request (detached (getBacktest id u))
| read_run_trades id u : job_request (detached (getBacktestTrades id u))
| read_run_candles id u : job_request (detached (getBacktestCandles id u)).

Lemma harmless_read {A} (q : JobDb -> A) : emits harmless (jread q).
Proof. split; [by intros now id d k|by intros x]. Qed.
Lemma harmless_progress id p t : emits harmless (progress_write id p t).
Proof.
  split; [|by intros x]. intros now i0 d k. unfold update_row. destruct (jd_sessions d !! id) as [s|] eqn:E; [|done]. simpl.
  rewrite view_sessions. case_decide as Hk; [|done]. subst k. unfold view. rewrite E. done.
Qed.
Ltac reads := repeat first
  [ apply harmless_read | apply harmless_progress | done
  | apply emits_await; [|intros ?] | split; [done|intros ?]
  | match goal with |- emits _ (match ?x with _ => _ end) => destruct x end ].
Lemma request_ok i p s : Inv s -> job_request p -> safe gsem guar rely i p anything s.
Proof.
  intros HI Hp. assert (Hread : forall A (m : JobProg A), emits harmless m -> safe gsem guar rely i (detached m) anything s).
  { intros A m Hm. eapply safe_mono; [|apply emits_quiet; [by apply emits_detached|exact HI]]. done. }
  destruct Hp; try solve [apply Hread; unfold listReplays, replay_getOne, replay_getTrades, replay_getOne, getReplay, getReplayTrades,
    replay_chartCandles, getChartCandles, listRuns, getBacktest, getBacktestTrades, getBacktestCandles, found, getRunTrades, getRunCandles, getRun; reads];
    apply safe_bind; (eapply safe_mono; [|by first [apply ok_replay_request|apply ok_backtest_request]]); done.
Qed.

(** Tables without jobs. *)
Definition no_jobs (d : JobDb) : Prop := jd_sessions d = ∅ /\ jd_trades d = [] /\ jd_runs d = ∅ /\ jd_run_trades d = [].
Notation pool := (rtc (pstep (job_sem envRisk) job_request)).

Lemma moves_chain s s' : rtc (fun s s' => exists i, guar i s s') s s' -> forall id, moves (seen id s) (seen id s').
Proof.
  induction 1 as [s|s s1 s' [i Hg] _ IH]; intros id; [reflexivity|]. etrans; [|apply IH]. apply Hg.
Qed.
(** Two moments of one history. *)
Lemma jobs_history c c1 c2 : no_jobs (jw_db (shared c)) -> threads c = [] -> pool c c1 -> pool c1 c2 ->
  forall id, good id (view id (jw_db (shared c1))) /\ moves (view id (jw_db (shared c1))) (view id (jw_db (shared c2))).
Proof.
  intros (H1 & H2 & H3 & H4) Ht Hc1 Hc2 id.
  destruct (ghost_pool (job_sem envRisk) note job_request c c1 ∅ Hc1) as [g1 Hg1].
  destruct (ghost_pool (job_sem envRisk) note job_request c1 c2 g1 Hc2) as [g2 Hg2].
  assert (HI : Inv (shared c, ∅)).
  { assert (Hv : forall k, seen k (shared c, ∅) = nothing)
      by (intros k; unfold seen, view, nothing, replay_trades_of, run_trades_of; simpl; by rewrite H1, H2, H3, H4, !lookup_empty).
    split_and!; [done| |by intros k [j Hj]]. intros k. rewrite Hv. by split. }
  destruct (pool_safe_within gsem guar rely job_request job_guar_rely Inv (fun i s s' Hg => proj1 (proj2 (proj2 Hg)))
    (fun i p s HI Hp => request_ok i p s HI Hp) _ _ Hg1 HI) as (Ha1 & HI1 & _).
  { intros i p. simpl. by rewrite Ht. }
  destruct (pool_safe_within gsem guar rely job_request job_guar_rely Inv (fun i s s' Hg => proj1 (proj2 (proj2 Hg)))
    (fun i p s HI Hp => request_ok i p s HI Hp) _ _ Hg2 HI1 Ha1) as (_ & _ & Hr).
  split; [apply HI1|]. exact (moves_chain _ _ Hr id).
Qed.

(** ** What the tables say *)
Lemma trade_row_pnl id p t : trade_row id p = Ok t -> lt_pnl t = cp_pnl p.
Proof.
  unfold trade_row, date_column. intros Hx.
  repeat match type of Hx with context [match ?x with _ => _ end] => destruct x; simpl in Hx; try done end; by injection Hx as <-.
Qed.
Lemma stored_pnls id l rows : Forall2 (fun p t => trade_row id p = Ok t) l rows -> lt_pnl <$> rows = cp_pnl <$> l.
Proof. induction 1 as [|p t l rows Hp _ IH]; [done|]. rewrite !fmap_cons, IH. by rewrite (trade_row_pnl id p t Hp). Qed.

Lemma count_by {A B} (g : A -> B) (f : B -> bool) l :
  zlen (List.filter (fun x => f (g x)) l) = zlen (List.filter f (g <$> l)).
Proof.
  unfold zlen. induction l as [|x l IH]; [done|]. rewrite fmap_cons. cbn [List.filter].
  destruct (f (g x)); cbn [length]; lia.
Qed.

(** C19: Whatever replays, backtests, reads and progress writes run side by side, with the
    database refusing at will and workers dying at will, the replay table keeps its books:
    a row is RUNNING, FAILED with a message, or COMPLETED; a COMPLETED row comes from a
    finished run of the engine with the balance and the pairs of its request, the trades stored
    for it are exactly that run's closed positions in order, its end equity is the initial
    balance plus their profits, its trade count is their number, its wins are those with a
    profit above 0 and its losses those with one of at most 0.  The trades of an ended row never
    change again, and the row itself keeps every column but its progress, which a late progress
    write can still set ([late_progress_written]). *)
Theorem replays_settle c c1 c2 id s :
  no_jobs (jw_db (shared c)) -> threads c = [] -> pool c c1 -> pool c1 c2 ->
  jd_sessions (jw_db (shared c1)) !! id = Some s ->
  let trades := replay_trades_of id (jw_db (shared c1)) in
  rs_id s = id /\
  (rs_status s = JRUNNING /\ rs_endedAt s = None \/
   rs_status s = JFAILED /\ is_Some (rs_endedAt s) /\ is_Some (rs_errorMessage s) \/
   rs_status s = JCOMPLETED /\ is_Some (rs_endedAt s) /\
     rs_endEquity s = Some (nsum (ru_initialBalance (rs_setup s)) (lt_pnl <$> trades)) /\
     rs_tradesCount s = zlen trades /\
     rs_winsCount s = zlen (List.filter (fun t => nltb (of_Z 0) (lt_pnl t)) trades) /\
     rs_lossesCount s = zlen (List.filter (fun t => nleb (lt_pnl t) (of_Z 0)) trades) /\
     (Forall (fun t => is_nan (lt_pnl t) = false) trades -> rs_winsCount s + rs_lossesCount s = zlen trades) /\
     exists randomUUID msg r, worker_run randomUUID envRisk msg = Ok r /\
       rp_initialBalance (pm_cfg msg) = ru_initialBalance (rs_setup s) /\ ReplayEngine.pairs (pm_cfg msg) = ru_pairs (rs_setup s) /\
       Forall2 (fun p t => trade_row id p = Ok t) (rr_closed r) trades /\ rs_metrics s = Some (metrics r)) /\
  (ended (rs_status s) = true ->
     replay_trades_of id (jw_db (shared c2)) = trades /\
     exists s', jd_sessions (jw_db (shared c2)) !! id = Some s' /\ core s' = core s).
Proof.
  intros Hno Ht Hc1 Hc2 Hs trades. destruct (jobs_history c c1 c2 Hno Ht Hc1 Hc2 id) as [[Hg _] [Hm _]].
  assert (Hv : v_session (view id (jw_db (shared c1))) = Some (core s)) by (unfold view; simpl; by rewrite Hs).
  destruct (Hg _ Hv) as [Hid Hst]. split_and!; [exact Hid| |].
  - change (rs_status (core s)) with (rs_status s) in Hst. destruct (rs_status s) eqn:Est; [done| | |].
    + left. split; [done|]. apply Hst.
    + right. right. destruct Hst as (r & now & s0 & (uuid & msg & Hrun & Hnd & Hb & Hp & Hrows) & Heq).
      apply all_ok_Forall2 in Hrows. change (v_trades (view id (jw_db (shared c1)))) with trades in Hrows.
      unfold worker_run in Hrun. destruct (ReplayEngine.run _ _ _ _ _ _) as [o' res] eqn:E. simpl in Hrun. subst res.
      destruct (ReplayFacts.run_settles _ _ _ _ _ _ _ r Hnd E) as (ind & s1 & [_ _ _ Hfb _ _ _ _ Hcount Hwins Hlosses _ Hwl]).
      injection Heq as _ _ _ _ _ _ Hea Hee _ Htc Hwc Hlc _ Hme _.
      assert (Hlen : zlen trades = zlen (rr_closed r)) by (unfold zlen; by rewrite (Forall2_length _ _ _ Hrows)).
      assert (Hpnl := stored_pnls _ _ _ Hrows). split_and!; [done|by rewrite Hea; eexists| | | | | |].
      * rewrite Hee, Hfb, Hpnl, Hb. done.
      * rewrite Htc, Hcount. done.
      * rewrite Hwc, Hwins. rewrite (count_by lt_pnl), (count_by cp_pnl), Hpnl. done.
      * rewrite Hlc, Hlosses.
        rewrite (count_by lt_pnl (fun x => nleb x (of_Z 0))), (count_by cp_pnl (fun x => nleb x (of_Z 0))), Hpnl. done.
      * intros Hnan. rewrite Hwc, Hlc, Hlen, <- Hcount. apply Hwl.
        apply Forall_forall. intros p Hp'. assert (Hin : cp_pnl p ∈ lt_pnl <$> trades) by (rewrite Hpnl; by apply list_elem_of_fmap_2).
        apply list_elem_of_fmap in Hin as (t & -> & Hin). by rewrite Forall_forall in Hnan; apply Hnan.
      * exists uuid, msg, r. split_and!; [|done..]. unfold worker_run. by rewrite E.
    + right. left. split; [done|]. exact Hst.
  - intros He. destruct (Hm _ Hv) as [_ Hfix]. destruct (Hfix He) as [Hv2 Ht2]. split; [exact Ht2|].
    unfold view in Hv2. simpl in Hv2. apply fmap_Some in Hv2 as (s' & Hs' & Hc). by exists s'.
Qed.

(** Whatever the version, the metrics an engine returns are those of the trades it returns. *)
Lemma smc_metrics m15 h1 d1 ec ov out : SmcEngine.runSmcBacktest ov m15 h1 d1 ec = Ok out ->
  out.2 = calculateMetrics out.1 (initialBalance ec).
Proof.
  unfold SmcEngine.runSmcBacktest. destruct (getInstrumentConfig _) as [ic|]; [|done]. destruct (getSmcPairConfig _ _) as [pc|]; [|done]. simpl.
  destruct (zlen h1 <? 30); [by intros [= <-]|]. destruct (SmcEngine.prepare _ _ _ _ _ _) as [u|]; [|done]. simpl.
  destruct (SmcEngine.run_engine u) as [st|]; [|done]. by intros [= <-].
Qed.
Lemma engine_metrics dto m15 h1 d1 cache cache' trades m : run_engine_of dto m15 h1 d1 cache = (cache', Ok (trades, m)) ->
  m = calculateMetrics trades (cb_initialBalance dto).
Proof.
  unfold run_engine_of, V6Engine.run, m_bind, m_lift. cbn [symbol engine_config default]. destruct (getInstrumentConfig _) as [ic|]; [|done]. cbv zeta.
  destruct (if 0 <? zlen d1 then _ else _) as [di|]; [|done]. destruct (V6Engine.routes_to_smc _).
  - destruct (SmcEngine.runSmcBacktest _ _ _ _ _) as [out|] eqn:E; [|done]. apply smc_metrics in E. intros [= _ ->]. exact E.
  - destruct (V6Engine.prepare _ _ _ _ _ _ _) as [u|] eqn:Eu; [|done]. unfold V6Engine.run_loop.
    destruct (RiskManager.new_RiskManager _) as [r|]; [|done]. destruct (V6Engine.run_v6 u r cache) as [s [[]|]]; [|done].
    intros [= _ <- <-]. f_equal. unfold V6Engine.prepare in Eu.
    destruct (computeIndicators m15) as [mi|]; [|done]. destruct (computeIndicators h1) as [hi|]; [|done]. simpl in Eu. by injection Eu as <-.
Qed.
Lemma metrics_count trades initial : totalTrades (calculateMetrics trades initial) = zlen trades.
Proof. unfold calculateMetrics. destruct (zlen trades =? 0) eqn:E; [by apply Z.eqb_eq in E|done]. Qed.

(** C26: The table of backtests keeps its books in the same setting: a run is pending, running,
    FAILED with a message, or COMPLETED; a COMPLETED run had at least 200 bars, its metrics
    are those of the trades its engine returned for the row's symbol, version and balance,
    and the stored trades are exactly these, in order, so that the count it reports is
    theirs.  An ended run and its trades never change again. *)
Theorem backtests_settle c c1 c2 id r :
  no_jobs (jw_db (shared c)) -> threads c = [] -> pool c c1 -> pool c1 c2 ->
  jd_runs (jw_db (shared c1)) !! id = Some r ->
  let stored := run_trades_of id (jw_db (shared c1)) in
  bt_id r = id /\
  (ended (bt_status r) = false /\ bt_metrics r = None /\ bt_completedAt r = None \/
   bt_status r = JFAILED /\ is_Some (bt_completedAt r) /\ is_Some (bt_errorMessage r) \/
   bt_status r = JCOMPLETED /\ is_Some (bt_completedAt r) /\
     exists dto m15 h1 d1 cache cache' trades, let m := calculateMetrics trades (bt_initialBalance r) in
       run_engine_of dto m15 h1 d1 cache = (cache', Ok (trades, m)) /\ 200 <= zlen m15 /\
       cb_initialBalance dto = bt_initialBalance r /\ version_of dto = bt_strategyVersion r /\ symbol_of dto = bt_symbol r /\
       bt_metrics r = Some m /\ totalTrades m = zlen stored /\
       Forall2 (fun t row => run_trade_row id t = Ok row) trades stored) /\
  (ended (bt_status r) = true ->
     jd_runs (jw_db (shared c2)) !! id = Some r /\ run_trades_of id (jw_db (shared c2)) = stored).
Proof.
  intros Hno Ht Hc1 Hc2 Hr stored. destruct (jobs_history c c1 c2 Hno Ht Hc1 Hc2 id) as [[_ Hg] [_ Hm]].
  destruct (Hg r Hr) as [Hid Hst]. split_and!; [exact Hid| |intros He; by apply (Hm r Hr)].
  unfold ended. destruct (bt_status r) eqn:Est; simpl in *; [left; tauto|left; tauto| |right; left; tauto].
  right. right. destruct Hst as (Hat & trades & m & (dto & m15 & h1 & d1 & cache & cache' & Hrun & Hn & Hb & Hv & Hs) & Hmet & Hrows).
  apply all_ok_Forall2 in Hrows. change (v_run_trades (view id (jw_db (shared c1)))) with stored in Hrows.
  pose proof (engine_metrics _ _ _ _ _ _ _ _ Hrun) as Hmm. rewrite Hb in Hmm. subst m.
  split; [done|]. split; [exact Hat|]. exists dto, m15, h1, d1, cache, cache', trades. cbv zeta. split_and!; try done.
  rewrite metrics_count. unfold zlen. by rewrite (Forall2_length _ _ _ Hrows).
Qed.
End facts.

(** * Jobs: concrete runs

    A database that always answers and a worker that does its work.  The replay of
    [ReplayExamples], started through the service: gold sweeps the previous day's high, the
    replay sells, is stopped out and settles, and its row is completed. *)
From stdpp Require Import stringmap.
From S2P Require Import Prelude Async JsNum JsDate NumFacts MarketTypes DeskTypes Types Instruments NewsCalendar Indicators PerformanceTracker V6Evaluator V6Engines SweepDetector SweepFacts Orchestrator SimBroker ReplayEngine Jobs.

#[local] Instance calm_lib : TechnicalIndicators := {|
  EMA _ l := l; SMA _ l := l; RSI _ _ := []; ATR _ _ _ c := repeat (of_Z 4) (length c);
  ADX _ _ _ c := repeat (of_Z 20, of_Z 20, of_Z 20) (length c) |}.
#[local] Instance no_bands : Bollinger := fun _ _ _ => [].
#[local] Instance utc_only : TimeZones := fun _ t => getUTCHours t.

Definition bar_row (tf : string) (t o h l c : Z) : CandleRow := {|
  cd_symbol := "XAUUSD"; cd_timeframe := tf; cd_openTime := t; cd_open := of_Z o; cd_high := of_Z h;
  cd_low := of_Z l; cd_close := of_Z c; cd_volume := of_Z 1 |}.
(** The bar of 07:00 on the 14th sweeps 2010 up to 2013 and closes at 2008; the last M15 bar
    runs through the stop. *)
Definition stored_h1 : list CandleRow := (fun k => bar_row "H1" (demo_day + (3 + k) * ms_hour) 2000
  (if k =? 10 then 2010 else if k =? 28 then 2013 else 2005) (if k =? 28 then 1999 else 1995) (if k =? 28 then 2008 else 2004)) <$> up_from 0 29.
Definition stored_m15 : list CandleRow := (fun k => bar_row "M15" (demo_day + 33 * ms_hour - (200 - k) * 900000) 2006
  (if k =? 201 then 2020 else 2009) 2005 2008) <$> up_from 0 201.
Definition stored_d1 : list CandleRow := (fun k => bar_row "D1" (demo_day + (k - 30) * ms_day) 2000 2010 1990 2005) <$> up_from 0 31.
Definition empty_tables : JobDb := {|
  jd_sessions := ∅; jd_trades := []; jd_decisions := []; jd_runs := ∅; jd_run_trades := [];
  jd_candles := stored_m15 ++ stored_h1 ++ stored_d1 |}.
Definition first_day : JobWorld := {| jw_db := empty_tables; jw_cache := None |}.

Definition one_uuid (n : Z) : string := dec_string n.
Definition next_id (d : JobDb) : string := fresh_string "j" (gset_to_gmap tt (dom (jd_sessions d) ∪ dom (jd_runs d))).
Definition jobs_handle (e : JobAct) (w : JobWorld) : JobWorld * job_result e :=
  match e return JobWorld * job_result e with
  | JStmt A f => (commit_jobs (f 1000 (next_id (jw_db w)) (jw_db w)) w, (f 1000 (next_id (jw_db w)) (jw_db w)).2)
  | RunWorker msg => (w, Heard <$> worker_messages one_uuid (lit 15 1) 0 None msg)
  | RunInThread _ _ => (w, Throw "off"%string)
  | HttpCandles _ tf _ _ => (w, Ok (if bool_decide (tf = "M15"%string) then candle_of <$> stored_m15 else []))
  | CacheStep A f => ({| jw_db := jw_db w; jw_cache := (f (jw_cache w)).1 |}, (f (jw_cache w)).2)
  end.
Lemma next_id_fresh d : fresh_job (next_id d) d.
Proof.
  pose proof (fresh_string_fresh (gset_to_gmap tt (dom (jd_sessions d) ∪ dom (jd_runs d))) "j") as Hf.
  apply lookup_gset_to_gmap_None in Hf. split; apply not_elem_of_dom; unfold next_id; set_solver.
Qed.
Lemma heard_messages (l : list WorkerMessage) : omap message_of (Heard <$> l) = l.
Proof. induction l as [|m l IH]; [done|]. rewrite fmap_cons. change (m :: omap message_of (Heard <$> l) = m :: l). by rewrite IH. Qed.
Lemma jobs_handle_sem i e w : job_sem (lit 15 1) i e w (jobs_handle e w).1 (jobs_handle e w).2.
Proof.
  destruct e as [A f|msg|cfg candles| |A f]; simpl.
  - left. exists 1000, (next_id (jw_db w)). split; [apply next_id_fresh|done].
  - split; [done|]. exists one_uuid, 0%nat, None. by rewrite heard_messages.
  - done.
  - done.
  - done.
Qed.

Definition gold : StartReplayDto := {|
  sr_startDate := "2024-03-14T09:00:00.000Z"; sr_endDate := "2024-03-15"; sr_initialBalance := of_Z 10000; sr_riskPercent := lit 15 1;
  sr_pairs := Some ["XAUUSD"%string]; sr_runnerTrail := None; sr_retraceEntry := None; sr_pairConfigOverrides := None;
  sr_label := None |}.
Definition JobPool : Type := @Pool JobAct job_result JobWorld.
Definition from_first_day (sched : list nat) (ps : list (JobProg unit)) : JobPool := turns jobs_handle sched {| shared := first_day; threads := ps |}.
Lemma from_first_day_pool sched ps : Forall job_request ps ->
  rtc (pstep (job_sem (lit 15 1)) job_request) {| shared := first_day; threads := [] |} (from_first_day sched ps).
Proof.
  intros Hp. etrans; [by apply start_all|]. apply (turns_steps jobs_handle). intros i e w. apply jobs_handle_sem.
Qed.
Lemma first_day_empty : no_jobs (jw_db first_day).
Proof. by split_and!. Qed.

(** The replay alone, then a progress message that is written late. *)
Definition gold_pool : JobPool := from_first_day (repeat 0%nat 12) [detached (createAndRun_replay true gold)].
Definition gold_late : JobPool := turns jobs_handle [1%nat] {| shared := shared gold_pool; threads := threads gold_pool ++ [detached (progress_write "j" 251 400)] |}.
#[local] Notation session_now c := (jd_sessions (jw_db (shared c)) !! "j"%string).

Lemma gold_reached : rtc (pstep (job_sem (lit 15 1)) job_request) {| shared := first_day; threads := [] |} gold_pool.
Proof. apply from_first_day_pool. constructor; [constructor|constructor]. Qed.
Lemma start_one (c : JobPool) p : job_request p ->
  pstep (job_sem (lit 15 1)) job_request c {| shared := shared c; threads := threads c ++ [p] |}.
Proof. destruct c. by constructor. Qed.
Lemma gold_late_reached : rtc (pstep (job_sem (lit 15 1)) job_request) gold_pool gold_late.
Proof.
  etrans; [|apply (turns_steps jobs_handle); intros i e w; apply jobs_handle_sem].
  apply rtc_once, start_one. constructor.
Qed.
#[local] Opaque gold_pool gold_late.
Lemma gold_settled : match session_now gold_pool with
  | Some s => rs_status s = JCOMPLETED /\ rs_tradesCount s = 2 | None => False end.
Proof. vm_compute. auto. Qed.
Lemma replays_settle_witness : exists s, session_now gold_pool = Some s /\ rs_status s = JCOMPLETED /\ rs_tradesCount s = 2 /\
  zlen (replay_trades_of "j" (jw_db (shared gold_pool))) = 2 /\
  exists s', session_now gold_late = Some s' /\ core s' = core s.
Proof.
  pose proof gold_settled as Hg. destruct (session_now gold_pool) as [s|] eqn:Es; [|by destruct Hg]. destruct Hg as [Hst Hn].
  exists s. split; [reflexivity|]. split; [exact Hst|]. split; [exact Hn|].
  destruct (replays_settle (lit 15 1) {| shared := first_day; threads := [] |} gold_pool gold_late "j" s first_day_empty eq_refl
    gold_reached gold_late_reached Es) as (_ & Hcase & Hfix).
  split; [|apply Hfix; rewrite Hst; reflexivity].
  destruct Hcase as [[Hr _]|[[Hr _]|(_ & _ & _ & Hc & _)]]; [rewrite Hst in Hr; discriminate Hr..|].
  rewrite <- Hc. exact Hn.
Defined.

(** A row that ended still takes the write of a progress message that came before the end. *)
Lemma late_progress_written :
  rs_progress <$> session_now gold_pool = Some None /\
  match session_now gold_late with Some s => rs_status s = JCOMPLETED /\ rs_progress s = Some (of_Z 63) | None => False end.
Proof. vm_compute. auto. Qed.

(** A worker that exits with 0 and says nothing is noticed by the timer only. *)
Lemma silent_exit_waits : promise_of [Exited 0] = Some timed_out /\ promise_of [Exited 1; TimerFired] <> promise_of [Exited 0].
Proof. rewrite !worker_promise_settles. done. Qed.

(** ** Backtests *)
Definition quick : CreateBacktestDto := {|
  cb_symbol := Some "XAUUSD"%string; cb_startDate := "2024-03-13"; cb_endDate := "2024-03-15"; cb_initialBalance := of_Z 10000;
  cb_riskPercent := of_Z 1; cb_withLlm := None; cb_strategyVersion := Some GIDEON |}.
Definition quick_pool : JobPool := from_first_day (repeat 0%nat 14) [detached (createAndRun_backtest quick "u")].
#[local] Notation run_now c := (jd_runs (jw_db (shared c)) !! "j"%string).
Lemma quick_reached : rtc (pstep (job_sem (lit 15 1)) job_request) {| shared := first_day; threads := [] |} quick_pool.
Proof. apply from_first_day_pool. constructor; [constructor|constructor]. Qed.
#[local] Opaque quick_pool.
Lemma quick_settled : match run_now quick_pool with
  | Some r => bt_status r = JCOMPLETED /\ totalTrades <$> bt_metrics r = Some 0 | None => False end.
Proof. vm_compute. auto. Qed.
Lemma backtests_settle_witness : exists r, run_now quick_pool = Some r /\ bt_status r = JCOMPLETED /\
  exists m, bt_metrics r = Some m /\ totalTrades m = zlen (run_trades_of "j" (jw_db (shared quick_pool))).
Proof.
  pose proof quick_settled as Hg. destruct (run_now quick_pool) as [r|] eqn:Es; [|by destruct Hg]. destruct Hg as [Hst _].
  exists r. split; [reflexivity|]. split; [exact Hst|].
  destruct (backtests_settle (lit 15 1) {| shared := first_day; threads := [] |} quick_pool quick_pool "j" r first_day_empty eq_refl
    quick_reached (rtc_refl _ _) Es) as (_ & Hcase & _).
  destruct Hcase as [[Hr _]|[[Hr _]|(_ & _ & Hc)]]; [rewrite Hst in Hr; discriminate Hr..|].
  destruct Hc as (dto & m15 & h1 & d1 & cache & cache' & trades & _ & _ & _ & _ & _ & Hm & Hn & _).
  eexists. split; [exact Hm|exact Hn].
Defined.

(** The cap of two is checked before the row is there: three requests that count first all
    create their run. *)
Definition three_requests : JobPool := from_first_day [0;1;2;0;1;2]%nat
  (repeat (detached (createAndRun_backtest quick "u")) 3).
Lemma cap_is_racy : unfinished_count "u" (jw_db (shared three_requests)) = 3.
Proof. vm_compute. reflexivity. Qed.
(** One after the other the third is refused, for as long as the first two are unfinished:
    a process that dies leaves them so for good. *)
Definition serial_requests : JobPool := from_first_day [0;0;1;1;2]%nat
  (repeat (detached (createAndRun_backtest quick "u")) 3).
Lemma cap_refuses : unfinished_count "u" (jw_db (shared serial_requests)) = 2 /\ threads serial_requests !! 2%nat = Some (Ret tt).
Proof. split; [vm_compute; reflexivity|]. unfold serial_requests, from_first_day. vm_compute. reflexivity. Qed.
